(* ===== verification/_CoqProject ===== *)
-Q . S2P
Prelude.v
PsciTypes.v
PsciCommon.v
PsciStat.v
PsciPower.v
PsciSetup.v
PsciMain.v
MtkPlat.v
PsciTopo.v
PsciCoord.v
PsciInv.v
PsciSafe.v
PsciWarm.v
PsciTree.v
PsciBoot.v
PsciSystem.v
MtkLaws.v
MtkDemo.v
PsciReach.v
PsciSpec.v
PsciCalls.v
MtkSpec.v
Bytes.v
Crc32.v
NmbmTypes.v
NmbmCore.v
NmbmTables.v
NmbmIo.v
NmbmOps.v
NmbmLayout.v
NmbmWf.v
NmbmSafe.v
NmbmImage.v
NmbmWalk.v
NmbmBlocks.v
NmbmTableSafe.v
NmbmApi.v
NmbmStore.v
NmbmStoreOps.v
NmbmPersist.v
NmbmCreate.v
NmbmDemo.v
NmbmSpec.v
NmbmStoreSpec.v
CStr.v
BspConf.v
BspConfSpec.v
DualBoot.v
DualBootSpec.v
Untar.v
UntarSpec.v
Sha256.v
Sha256Spec.v
Fip.v
FipSpec.v
FipRepack.v
FipHelper.v
FipHelperSpec.v
Bakery.v
BakeryAlg.v
BakeryRef.v
BakeryNormal.v
BakerySpec.v
IntrMgmt.v
IntrSpec.v
Ehf.v
EhfSpec.v
NmbmMtd.v
NmbmMtdSpec.v
