(* ===== verification/Prelude.v ===== *)
(** * Verification of the boot firmware of MT7981 routers

    The repository builds the boot firmware of MT7981 routers: Trusted
    Firmware-A (src/arm-trusted-firmware), U-Boot (src/u-boot) and an OpenWrt
    image.  This development models three parts of it.  The first stays
    resident and decides about the life of every CPU: the PSCI library of
    TF-A (lib/psci, include/lib/psci) together with the power management port
    of the SoC (plat/mediatek/apsoc_common/bl31, plat/mediatek/mt7981/bl31
    and its SPMC and watchdog drivers), and beside it the bakery locks
    (lib/locks/bakery) and the routing and prioritising of interrupts
    (bl31/interrupt_mgmt.c, bl31/ehf.c).  The second decides where every byte
    of the flash is kept: NMBM, the NAND mapped-block management of U-Boot
    (drivers/mtd/nmbm/nmbm-core.c, include/nmbm, lib/crc32.c) with its block
    device (nmbm-mtd.c).  The third
    decides which image is started and what is taken from an upgrade file:
    the boot configuration block, the A/B boot selection, the TAR extractor
    and the firmware image packages of the MediaTek boards
    (board/mediatek/common of U-Boot), with SHA-256 (lib/sha256.c).

    ** The programs

    PSCI.  The normal world calls PSCI by SMC.  psci_smc_handler() (psci_main.c)
    dispatches to one function per PSCI call; those validate their arguments
    and run a sequence (psci_on.c, psci_off.c, psci_suspend.c) over the state
    kept by psci_common.c: the power domain tree, the local state each CPU
    requests for each domain above it, the target state of each domain, the
    affinity state of each CPU, and one lock per domain.  A CPU that was
    started or woken enters psci_warmboot_entrypoint().  psci_setup.c builds
    the tree once at cold boot from the topology the platform describes.  The
    library calls the platform through a table of hooks (plat_psci_ops_t),
    and a Secure Payload Dispatcher through spd_pm_ops_t.

    Locks and interrupts.  A bakery lock has an entry per CPU with a ticket and
    a mark while the ticket is chosen; the smaller ticket goes first.  The
    entries are in coherent memory, or in normal memory with a cache line for
    each CPU and cache maintenance around every access, as some CPUs run with
    their caches off.  interrupt_mgmt.c keeps a handler and a routing model
    for each type of interrupt, and the bits of SCR_EL3 in the saved contexts
    that follow from it.  ehf.c gives the interrupts that are handled at EL3
    priorities, which nest, by moving the priority mask of the CPU.

    NMBM.  The upper blocks of a NAND chip are a management area: from below,
    a main and a backup info table with spare blocks around them, then spare
    blocks that replace bad ones, taken from the top down, and a signature in
    the last good block.  A table holds two state bits per block and the
    physical block of every logic block.  nmbm_attach() finds or creates this
    area; the operations on logic addresses go through the mapping; erasing
    replaces a bad block by a spare one; every change of the tables is
    written to the chip by nmbm_update_info_table(), which copes with blocks
    that go bad while it writes.  nmbm-mtd.c puts NMBM between two MTD devices:
    it gives NMBM the functions of the chip and offers the logic blocks as a
    device of its own, requests with spare bytes going page by page through a
    buffer.

    Board code.  bsp_conf.c keeps two copies of a configuration record in the
    storage, each with a CRC and an update counter, uses the newer valid one
    and writes the other one.  dual_boot.c starts one of two image slots; the
    current slot and the marks of invalid slots are environment variables,
    the number of attempts is in a register that survives a warm reset.
    untar.c walks through a TAR archive and finds the kernel and the root file
    system of an upgrade image.  fip.c reads the package that holds BL31 and
    U-Boot, replaces an image in it and writes it back; an entry of the
    package can hold the CRC-32 and the SHA-256 of everything before it.
    fip_helper.c and board_info.c sit on top of it: what kind of image a file
    is, whether a U-Boot is for this board, and the upgrade of one image of a
    stored package.

    ** Files

    - [Prelude]: machine integers, arrays read and written by a C index, the
      monad of firmware code, loops, the weakest precondition calculus with
      its tactic and hint database.
    - [PsciTypes]: configuration, data types, hook tables, library state.
    - [PsciCommon]: psci_common.c and the helpers of psci.h, psci_private.h.
    - [PsciStat]: psci_stat.c and plat_psci_common.c.
    - [PsciPower]: psci_on.c, psci_off.c, psci_suspend.c and
      psci_warmboot_entrypoint().
    - [PsciSetup]: psci_setup.c.
    - [PsciMain]: psci_main.c, psci_system_off.c, psci_mem_protect.c.
    - [MtkPlat]: the port (plat_pm.c, plat_topology.c, bl31_plat_pm.c,
      mtspmc.c, mtk_wdt.c).
    - [PsciTopo], [PsciTree]: the shape of the power domain tree; that
      psci_setup() builds it.
    - [PsciCoord]: coordination of the requested states.
    - [PsciInv], [PsciSafe], [PsciWarm], [PsciBoot]: the invariant, and that
      every sequence, warm boot and the setup preserve it and do not fault.
    - [PsciSystem], [PsciReach]: the system of all CPUs as a step relation,
      its invariant, and the properties of its reachable states.
    - [PsciSpec], [PsciCalls]: functional specifications of the library.
    - [MtkLaws], [MtkDemo], [MtkSpec]: the port satisfies the platform
      interface; a concrete instance; specifications of the port.

    - [Bakery]: bakery_lock.h, bakery_lock_coherent.c ([Coherent]) and
      bakery_lock_normal.c ([Normal]).  [BakeryAlg]: the algorithm on numbers
      without bound, and its invariant.  [BakeryRef], [BakeryNormal]: the
      interface [Refines] between an implementation and the algorithm, what
      follows from it, and the two instances.  [BakerySpec]: the properties
      of the locks, with concrete runs.
    - [IntrMgmt], [IntrSpec]: interrupt_mgmt.c and its properties.
    - [Ehf], [EhfSpec]: ehf.c and its properties.

    - [Bytes], [Crc32]: memory operations on byte buffers; lib/crc32.c and
      its bit-by-bit definition.
    - [NmbmTypes]: the structures of nmbm.h and nmbm-private.h, in memory and
      on the chip.  [NmbmCore], [NmbmTables], [NmbmIo], [NmbmOps]:
      nmbm-core.c in its order (chip access and block states; the info
      tables; loading and attaching; the operations on logic addresses) and
      nmbm-debug.inl.
    - [NmbmLayout], [NmbmImage]: the structures read back from their bytes,
      checksums, the image of the info table.
    - [NmbmWf]: well-formed instances ([nwf]) and what operations may change.
      [NmbmSafe], [NmbmBlocks], [NmbmTableSafe], [NmbmApi], [NmbmCreate]:
      every function keeps instances well-formed, layer by layer.
      [NmbmWalk]: the walks over good blocks.
    - [NmbmStore], [NmbmStoreOps]: the flash as a store of bytes at logic
      addresses, and what erasing, writing and reading do to it.
      [NmbmPersist]: what writing the signature and a table leaves on the
      chip.
    - [NmbmDemo], [NmbmSpec], [NmbmStoreSpec]: a concrete chip; the
      properties of NMBM as a whole and as a store.
    - [NmbmMtd], [NmbmMtdSpec]: nmbm-mtd.c and its properties.

    - [CStr]: numbers to strings and back (lib/strto.c, lib/vsprintf.c).
    - [Sha256]: lib/sha256.c and lib/sha256_common.c; [Sha256Spec]: the
      standard ([Sha256Spec.Fips]), its constants derived from the primes,
      and that the code computes it.
    - [BspConf], [DualBoot], [Untar], [Fip], [FipHelper]: the files of the
      board code; [BspConfSpec], [DualBootSpec], [UntarSpec], [FipSpec],
      [FipRepack], [FipHelperSpec]: their properties, with concrete inputs.

    ** How code is modelled

    Firmware code is a function of the index of the executing CPU and of the
    state ([Prelude.M]).  Its outcomes are: a value; a wait ([Wfi], carrying
    the continuation); a panic; [Dead], for a CPU that does not come back; and
    [Fault], for an access outside an array, the call of a null hook or a
    failed assertion.  A [Fault] never happens is a theorem, not an
    assumption.  Integers are Z with the conversions of C written out where
    the source converts or can wrap.  A hook of the platform has outcomes of
    its own ([PsciTypes.hres]): it returns, stops the CPU for good ([HDead]),
    panics ([HPanic]), or does something undefined or fails an assertion
    ([HFault], a [Fault] of its caller).  A pointer to a structure is the value
    it points to, passed and returned; arrays are lists with checked access.
    Every call into code outside the library is recorded in a trace and given
    to the platform's [hw_event], so that ordering is observable.

    Code outside the repository's modelled part is a parameter: the class
    [PsciTypes.Platform] and the two hook tables.  What the library relies on
    is stated once, as [PsciInv.plat_ok], [PsciInv.ops_ok] and
    [PsciInv.spd_ok] (a coordinated state of requests that are in range is
    in range and is RUN if some request is; a hook that validates a request
    keeps it well formed; mandatory hooks are present; no hook faults when it
    is called as the library calls it, [PsciInv.ops_safe]).  [MtkLaws] proves
    all of it for the MT7981 port, whose accesses to its context table, to the
    levels of a request and through pointers are checked; it relies on the
    MPIDR of every CPU being that of one of the two cores.  [MtkDemo]
    evaluates the model on it.

    Handlers run to completion or to a [wfi]; between two such points other
    CPUs are not interleaved with the shared state under the locks.  Steps of
    [PsciSystem.sys_step] are: a CPU in the normal world makes a PSCI call, a
    waiting CPU resumes, a started CPU runs the warm boot path.  That the
    locks give this atomicity is shown for the bakery locks, one level below:
    there a step ([Coherent.step], [Normal.step]) is one load, store or cache
    maintenance instruction of one CPU, or the cache fetching or evicting a
    line.  Memory is sequentially consistent: the barriers of the code are
    not needed in the model and do nothing.  Hooks that
    are called with a lock held cannot wait, by their type.  The bakery locks
    are modelled in builds with assertions, which read the own entry first,
    and in builds without.

    The reachable states (C1-C4) are those of builds without PSCI statistics
    and OS-initiated mode, the default and that of the MT7981: the options are
    hypotheses of [PsciReach] and [MtkSpec].  In OS-initiated mode stale
    requests can remain above a CPU that wakes up in place (the code of these
    options is modelled, and its functions have theorems of their own: C9,
    [PsciCalls.set_suspend_mode_on_every_branch],
    [PsciCalls.residency_in_microseconds]).

    NMBM runs on one CPU; its state is the instance and the chip below it
    ([NmbmTypes.nmbm]).  The chip is a parameter: the members of struct
    nmbm_lower_device are functions over an abstract type, of which only
    [NmbmWf.lower_ok] is assumed (the mandatory ones are present, reading
    leaves buffers of the same size); in particular they may fail at any
    time.  That the flash is a store is proved for chips of the class
    [NmbmStore.StableNand]: a read that succeeds gives what the page holds,
    writing a page changes no other page, a successful write to an erased
    page stores its data and a failed one can be repeated, a successful
    erasure erases its block.  Where several blocks are written
    ([NmbmPersist.IsolatedNand]) an operation on one block leaves the others
    alone.  Buffers are lists of bytes, and an access outside one is a
    [Fault].  Log messages, the watchdog and the debug colour macros, which
    are empty, are left out; pointers to the instance and to the lower device
    are not null.

    The board code is modelled the same way.  Its parameters are the function
    that writes a copy of the configuration, the store of the environment, the
    function that boots a slot, the edit of the device tree, where a property
    is in a device tree, the decompression of an image, and whether an
    allocation succeeds.  Pointers into a TAR archive are offsets, and a read
    outside of it is a [Fault]; a pointer to the contents of an image of a
    package is an offset in the memory of the package or another buffer, so
    that overwriting the package changes what it points to.  The exits of the
    TAR helpers for null pointers are left out; that of init_fip() is not.
    Keys and messages of the hash functions are lists, whose lengths the
    theorems bound where the code's integers do.

    interrupt_mgmt.c and ehf.c use the monad of the PSCI model with states of
    their own; ehf.c calls interrupt_mgmt.c ([Ehf.in_im]).  The interrupt that
    is acknowledged and the handlers of priorities are parameters.  In the
    same way nmbm-mtd.c calls NMBM ([NmbmMtd.in_core]); the MTD functions of
    the chip are its parameters.

    ** What the theorems show

    - C1-C4: in every reachable state of the whole system a running CPU has
      running domains above it, no handler faults, no lock stays held, and
      the MT7981 firmware is an instance, in which no hook of the port faults
      either.
    - C5-C9: coordination equals its reference definition; setup terminates
      and leaves in the node arrays the tree the descriptor describes; lock order and round trip; which suspend
      requests are accepted; the OS-initiated mode's rollback.
    - C10: which packages init_fip() accepts and what it reads from them.
      C16: fip_update_data() replaces one image, and the package it leaves is
      read back with the new image, the others unchanged and a right checksum.
    - C11-C14: every branch of CPU_ON, each answer only under its condition;
      its completion by the started CPU; CPU_OFF, which parks the CPU or is
      refused, without a panic on the way; refusal of undiscoverable calls.
      C12 and C13 are for builds without PSCI statistics and hooks that
      return.
    - C15, C17, C20: under every interleaving the bakery locks of both kinds
      exclude, no assertion in them fails, and a CPU with a ticket is not
      overtaken by one that comes later, as long as no more than 32767 tickets
      are taken without a break; by refinement of the algorithm.
    - C18: an update of the boot configuration is atomic, if none has failed
      since the start.  C19: the images
      found in a TAR archive are those a walk over its files gives.
    - C21, C22: the port's power state parsing and power-on sequence.
    - C23: nested priorities of the exception handling framework are
      activated and deactivated without a panic, and the mask comes back.
    - C24: SHA-256 and HMAC are those of the standards.
    - C25: over any chip, every sequence of calls on a well-formed NMBM
      instance returns without an access out of bounds and keeps it
      well-formed.  C26, C27: what is on the chip when the signature or a
      table has been written, around the blocks that fail meanwhile, and that
      failing means that too few good blocks are left.
    - C28: the same safety for every sequence of requests to NMBM's block
      device.
    - C29-C31: the walks, the initial mapping and the choice of spare blocks
      meet their specifications.
    - C32-C35: the stored image of the tables passes the three checks of the
      loading code, which reads back the tables; a read-only device is only read; argument checks;
      the CRC is the division by its polynomial.
    - C36-C38: NMBM is a store: what is written to a range is what is read
      from it, other pages keep their contents, and an erasure that has to
      replace a bad block does not disturb this.
    - C39-C40: a slot marked invalid is never started; an image that never
      comes up is given up after the configured number of attempts, and one
      that does come up is kept.
    - The end of [NmbmSpec] has five theorems about inputs on which NMBM does
      not do what it means to; [BspConfSpec], [DualBootSpec], [UntarSpec],
      [FipSpec], [FipRepack], [FipHelperSpec], [BakerySpec], [IntrSpec],
      [EhfSpec] and [NmbmMtdSpec] end with such theorems too.
    - Theorems that are not numbered: attaching to a new chip ends with a
      well-formed instance or -ENODEV ([NmbmCreate.attach_new_spec]), updating
      the tables ends and leaves the mapping alone
      ([NmbmTableSafe.wp_update]); the CPU queries ([PsciSpec]), address
      range checks and residency arithmetic ([PsciCalls]), core numbering and
      CPU standby of the port ([MtkSpec]), the device tree found in a U-Boot
      image ([FipHelperSpec.locate_fdt_finds_last]); SET_SUSPEND_MODE and the
      construction of entry points ([PsciCalls]); the port's coordination and
      timer context ([MtkSpec]); block states as a map ([NmbmSpec]); what
      registering a handler does to the routing
      ([IntrSpec.register_routes]); that the handler of a priority is called
      ([EhfSpec.registered_handler_is_called]); attaching and giving back a
      block device ([NmbmMtdSpec.attach_then_free]).

    ** Bounds and fuel

    All loops of the library are bounded by their index range.  wfi_n runs
    the 32 waits of psci_pwrdown_cpu_end_terminal(); parse_state_id has fuel
    7, the number of 4-bit fields of a 28-bit state id; wait_last_on counts
    the milliseconds of its argument down.  The SPMC driver polls a register
    without bound: [poll_until] polls at most [poll_bound] times, a parameter
    of the hardware model, and a run that exhausts it never returns
    ([HDead]); theorems that a hook returns assume that the hardware
    acknowledges ([MtkLaws.spmc_acknowledges]).

    The loops of NMBM that end only by what they find on the chip (updating
    the tables, writing a table further down, erasing with a retry, the
    search for the signature) have the fuel of their section; the theorems
    show that two more than the number of blocks is enough, whatever the chip
    does: each repeated round costs a good block, a spare block or a block
    address.  Loops over a range of bytes have one round per byte.
    parse_tar_image() needs one round more than the archive has files; on an
    archive made for it the loop does not end with any fuel, which is a
    theorem.  init_fip() has a round for every entry that fits in the size
    and one more; the sums have a round per byte at most.

    A bakery lock has tickets up to 32767.  The step relations count the
    tickets that are taken since the lock was last unused and stop there; what
    happens behind this is a theorem of its own.  The transfers of nmbm-mtd.c
    have one round per byte of the request.

    ** Not modelled

    Printing (psci_print_power_domain_map, mtk_wdt_print_status, the printing
    functions of fip.c and nmbm-mtd.c), AArch32 variants, the assembly entry
    paths and spin locks, context management beyond the bits of SCR_EL3, the
    GIC and CPU drivers beyond their calls being recorded, SDEI and the other
    services of the secure monitor; the hardware CRC instruction of ARM64 and
    the ARM instructions for SHA-256; of the board code, flash programming,
    the checks of image_helper.c, menus and the web recovery, which are
    mostly calls into the device, FIT and network layers; the rest of TF-A,
    U-Boot and the OpenWrt tree.  Memory models weaker than sequential
    consistency are not considered.  Loading the tables of an existing chip is
    modelled ([NmbmIo]) but its safety is not proved: it does not hold for
    every content of the chip, see the theorem on wrong offsets. *)

From stdpp Require Import base list numbers list_numbers.
From Stdlib Require Import ZArith Lia.
Open Scope Z_scope.

(** ** Machine integers

    A C integer is the mathematical integer it stands for; the conversions
    below are applied exactly where the source converts or can wrap. *)

(** [uint32_t] / [unsigned int]. *)
Definition u32 (x : Z) : Z := x `mod` 2 ^ 32.
(** [uint64_t], [uintptr_t] and [u_register_t] on AArch64. *)
Definition u64 (x : Z) : Z := x `mod` 2 ^ 64.
(** [uint16_t] and [unsigned char]. *)
Definition u16 (x : Z) : Z := x `mod` 2 ^ 16.
Definition u8 (x : Z) : Z := x `mod` 2 ^ 8.
(** [~x] on 32 and 64 bits. *)
Definition not32 (x : Z) : Z := Z.lxor (u32 x) (2 ^ 32 - 1).
Definition not64 (x : Z) : Z := Z.lxor (u64 x) (2 ^ 64 - 1).

(** C's truth value of an integer. *)
Definition cbool (x : Z) : bool := negb (x =? 0).

Lemma u32_small x : 0 ≤ x < 2 ^ 32 → u32 x = x.
Proof. apply Z.mod_small. Qed.

Lemma u64_small x : 0 ≤ x < 2 ^ 64 → u64 x = x.
Proof. apply Z.mod_small. Qed.

Lemma u32_range x : 0 ≤ u32 x < 2 ^ 32.
Proof. by apply Z.mod_pos_bound. Qed.

Lemma u64_range x : 0 ≤ u64 x < 2 ^ 64.
Proof. by apply Z.mod_pos_bound. Qed.

(** ** Arrays indexed by C integers

    [zget] is a read [a[i]] ([None] outside the array, where C is undefined),
    [zset] a write, always guarded by a successful read in the models. *)

Section Arrays.
Context {A : Type}.
Implicit Types (l : list A) (i j : Z) (x : A).

Definition zget l i : option A :=
  if decide (0 ≤ i) then l !! Z.to_nat i else None.
Definition zset l i x : list A := <[Z.to_nat i := x]> l.
Definition zlen l : Z := Z.of_nat (length l).

Lemma zget_Some_range l i x : zget l i = Some x → 0 ≤ i < zlen l.
Proof.
  unfold zget, zlen. case_decide; [|done].
  intros ?%lookup_lt_Some. lia.
Qed.

Lemma zget_is_Some l i : 0 ≤ i < zlen l → ∃ x, zget l i = Some x.
Proof.
  unfold zget, zlen. intros Hi. rewrite decide_True by lia.
  apply lookup_lt_is_Some. lia.
Qed.

Lemma zget_None l i : ¬ (0 ≤ i < zlen l) → zget l i = None.
Proof.
  unfold zget, zlen. intros Hi. case_decide; [|done].
  apply lookup_ge_None. lia.
Qed.

Lemma zlen_zset l i x : zlen (zset l i x) = zlen l.
Proof. unfold zlen, zset. by rewrite length_insert. Qed.

Lemma zget_zset_eq l i x : 0 ≤ i < zlen l → zget (zset l i x) i = Some x.
Proof.
  unfold zget, zset, zlen. intros Hi. rewrite decide_True by lia.
  apply list_lookup_insert_eq. lia.
Qed.

Lemma zget_zset_ne l i j x : 0 ≤ i → i ≠ j → zget (zset l i x) j = zget l j.
Proof.
  unfold zget, zset. intros Hi Hne. case_decide; [|done].
  apply list_lookup_insert_ne. lia.
Qed.

Lemma zget_zset l i j x :
  0 ≤ i < zlen l →
  zget (zset l i x) j = if decide (i = j) then Some x else zget l j.
Proof.
  intros Hi. case_decide; subst.
  - by apply zget_zset_eq.
  - by apply zget_zset_ne; [lia|].
Qed.

Lemma zset_same l i x : zget l i = Some x → zset l i x = l.
Proof.
  unfold zget, zset. case_decide; [|done]. apply list_insert_id.
Qed.

Lemma zset_zset l i x y : zset (zset l i x) i y = zset l i y.
Proof. apply list_insert_insert_eq. Qed.

Lemma zset_comm l i j x y :
  0 ≤ i → 0 ≤ j → i ≠ j → zset (zset l i x) j y = zset (zset l j y) i x.
Proof. intros. apply list_insert_insert_ne. lia. Qed.

Lemma zget_ext l1 l2 :
  zlen l1 = zlen l2 → (∀ i, 0 ≤ i < zlen l1 → zget l1 i = zget l2 i) → l1 = l2.
Proof.
  unfold zlen. intros Hlen Hget. apply list_eq. intros n.
  destruct (decide (n < length l1)%nat) as [Hn|Hn].
  - specialize (Hget (Z.of_nat n) ltac:(lia)). unfold zget in Hget.
    rewrite !decide_True, Nat2Z.id in Hget by lia. done.
  - rewrite !lookup_ge_None_2 by lia. done.
Qed.

(** [a + off .. a + off + n), the cells a pointer and a count denote. *)
Definition zslice l (off n : Z) : list A := take (Z.to_nat n) (drop (Z.to_nat off) l).

Lemma zslice_elem l off n x :
  0 ≤ off → x ∈ zslice l off n ↔ ∃ i, off ≤ i < off + n ∧ zget l i = Some x.
Proof.
  intros Hoff. unfold zslice. rewrite list_elem_of_lookup. split.
  - intros [k Hk]. apply lookup_take_Some in Hk as [Hk Hlt].
    rewrite lookup_drop in Hk. exists (Z.of_nat (Z.to_nat off + k)).
    split; [lia|]. unfold zget. by rewrite decide_True, Nat2Z.id by lia.
  - intros (i & Hi & Hget). unfold zget in Hget. case_decide; [|done].
    exists (Z.to_nat i - Z.to_nat off)%nat.
    rewrite lookup_take_lt by lia. rewrite lookup_drop.
    by replace (Z.to_nat off + (Z.to_nat i - Z.to_nat off))%nat with (Z.to_nat i) by lia.
Qed.
End Arrays.

(** ** Control flow of firmware code

    A handler runs on one CPU over the shared state.  It can return, execute
    [wfi] (control leaves the CPU; other CPUs may change the state before the
    continuation runs, or the CPU may lose power and never resume), hand over
    to code that never returns, [panic()], fail an [assert()], or do something
    C leaves undefined (a call through a NULL hook, an access outside an
    array). *)

Inductive res (S A : Type) : Type :=
| Ret (a : A) (s : S)
| Wfi (s : S) (k : S → res S A)
| Dead (s : S)
| Panic (s : S)
| AssertFail
| Fault.
Arguments Ret {S A} a s.
Arguments Wfi {S A} s k.
Arguments Dead {S A} s.
Arguments Panic {S A} s.
Arguments AssertFail {S A}.
Arguments Fault {S A}.

(** The computation of one CPU: the index of the CPU running it
    ([plat_my_core_pos()]) and the state it starts from. *)
Definition M (S A : Type) : Type := Z → S → res S A.

Fixpoint rbind {S A B} (r : res S A) (f : A → S → res S B) : res S B :=
  match r with
  | Ret a s => f a s
  | Wfi s k => Wfi s (λ s', rbind (k s') f)
  | Dead s => Dead s
  | Panic s => Panic s
  | AssertFail => AssertFail
  | Fault => Fault
  end.

Section Monad.
Context {S : Type}.

Definition ret {A} (a : A) : M S A := λ _ s, Ret a s.
Definition bind {A B} (m : M S A) (f : A → M S B) : M S B :=
  λ me s, rbind (m me s) (λ a s', f a me s').
Definition panic {A} : M S A := λ _ s, Panic s.
Definition dead {A} : M S A := λ _ s, Dead s.
Definition fault {A} : M S A := λ _ _, Fault.
Definition gets {A} (f : S → A) : M S A := λ _ s, Ret (f s) s.
Definition modify (f : S → S) : M S unit := λ _ s, Ret tt (f s).
Definition my_core_pos : M S Z := λ me s, Ret me s.
(** A read through a pointer or an index: undefined when there is none. *)
Definition some {A} (o : option A) : M S A :=
  match o with Some a => ret a | None => fault end.
End Monad.

Declare Scope mon_scope.
Delimit Scope mon_scope with mon.
Notation "x ← y ; z" := (bind y (λ x, z))
  (at level 20, y at level 100, z at level 200, only parsing) : mon_scope.
Notation "' x ← y ; z" := (bind y (λ x, z))
  (at level 20, x pattern, y at level 100, z at level 200, only parsing) : mon_scope.
Notation "x ;; z" := (bind x (λ _, z))
  (at level 100, z at level 200, only parsing, right associativity) : mon_scope.
Notation "'when' b m" := (if b then m else ret tt)
  (at level 60, b at level 9, m at level 60) : mon_scope.
Open Scope mon_scope.

Section Loops.
Context {St A : Type}.

(** [for (i = lo; i <= hi; i++)], the loop-carried variables in [a]. *)
Fixpoint for_from (n : nat) (i : Z) (body : Z → A → M St A) (a : A) : M St A :=
  match n with
  | O => ret a
  | S n' => a' ← body i a; for_from n' (i + 1) body a'
  end.
Definition for_to (lo hi : Z) := for_from (Z.to_nat (hi - lo + 1)) lo.

(** The same with [break]: the body says whether it broke out.  The result
    also carries the value of the loop variable at the exit. *)
Fixpoint for_brk_from (n : nat) (i : Z) (body : Z → A → M St (bool * A)) (a : A) : M St (Z * A) :=
  match n with
  | O => ret (i, a)
  | S n' => '(brk, a') ← body i a;
            if brk : bool then ret (i, a') else for_brk_from n' (i + 1) body a'
  end.
Definition for_brk_to (lo hi : Z) := for_brk_from (Z.to_nat (hi - lo + 1)) lo.

(** [while (1)] left by [break]; after [n] rounds the loop counts as one that
    never ends. *)
Fixpoint while_brk (n : nat) (body : A → M St (bool * A)) (a : A) : M St A :=
  match n with
  | O => dead
  | S n' => '(brk, a') ← body a;
            if brk : bool then ret a' else while_brk n' body a'
  end.
End Loops.

Section MonadLemmas.
Context {St : Type}.

Lemma bind_Ret {A B} (m : M St A) (f : A → M St B) me s a s' :
  m me s = Ret a s' → bind m f me s = f a me s'.
Proof. unfold bind. by intros ->. Qed.

Lemma bind_assoc {A B C} (m : M St A) (f : A → M St B) (g : B → M St C) me s a s' :
  m me s = Ret a s' → bind (bind m f) g me s = bind (f a) g me s'.
Proof. unfold bind. by intros ->. Qed.

Lemma for_to_nil {A} lo hi (body : Z → A → M St A) a me s :
  hi < lo → for_to lo hi body a me s = Ret a s.
Proof. intros. unfold for_to. by replace (Z.to_nat (hi - lo + 1)) with 0%nat by lia. Qed.

Lemma for_to_cons {A} lo hi (body : Z → A → M St A) a me s :
  lo ≤ hi → for_to lo hi body a me s = bind (body lo a) (for_to (lo + 1) hi body) me s.
Proof.
  intros. unfold for_to at 1.
  replace (Z.to_nat (hi - lo + 1)) with (S (Z.to_nat (hi - (lo + 1) + 1))) by lia.
  done.
Qed.

Lemma for_brk_to_nil {A} lo hi (body : Z → A → M St (bool * A)) a me s :
  hi < lo → for_brk_to lo hi body a me s = Ret (lo, a) s.
Proof. intros. unfold for_brk_to. by replace (Z.to_nat (hi - lo + 1)) with 0%nat by lia. Qed.

Lemma for_brk_to_cons {A} lo hi (body : Z → A → M St (bool * A)) a me s :
  lo ≤ hi →
  for_brk_to lo hi body a me s =
    bind (body lo a) (λ '(brk, a'), if brk then ret (lo, a') else for_brk_to (lo + 1) hi body a') me s.
Proof.
  intros. unfold for_brk_to at 1.
  replace (Z.to_nat (hi - lo + 1)) with (S (Z.to_nat (hi - (lo + 1) + 1))) by lia.
  done.
Qed.

(** A loop whose body only transforms the state by a function [f i]. *)
Lemma for_to_inv {A} (P : Z → A → St → Prop) lo hi (body : Z → A → M St A) a me s :
  lo ≤ hi + 1 →
  P lo a s →
  (∀ i a s, lo ≤ i ≤ hi → P i a s → ∃ a' s', body i a me s = Ret a' s' ∧ P (i + 1) a' s') →
  ∃ a' s', for_to lo hi body a me s = Ret a' s' ∧ P (hi + 1) a' s'.
Proof.
  intros Hle HP Hstep. unfold for_to.
  remember (Z.to_nat (hi - lo + 1)) as n eqn:Hn. revert lo a s Hle HP Hstep Hn.
  induction n as [|n IH]; intros lo a s Hle HP Hstep Hn; simpl.
  - exists a, s. split; [done|]. by replace (hi + 1) with lo by lia.
  - destruct (Hstep lo a s ltac:(lia) HP) as (a1 & s1 & Hb & HP1).
    erewrite bind_Ret by done. apply IH; [lia|done| |lia].
    intros i a2 s2 Hi. apply Hstep. lia.
Qed.
End MonadLemmas.

(** Downward search [for (i = n - 1; i >= 0; i--) if (P(i)) return i;]. *)
Fixpoint find_down (n : nat) (P : Z → bool) : option Z :=
  match n with
  | O => None
  | S n' => if P (Z.of_nat n') then Some (Z.of_nat n') else find_down n' P
  end.

(** A guarded array write: undefined outside the array. *)
Definition zput {A} (l : list A) (i : Z) (x : A) : option (list A) :=
  if decide (0 ≤ i < zlen l) then Some (zset l i x) else None.

(** ** Program logic

    [wp E m me s Q]: started by CPU [me] in state [s], [m] runs without
    leaving the CPU, never fails an assertion and never does anything C leaves
    undefined; if it returns, [Q] holds of the result and the final state; if
    it does not return (it hands over for ever or panics), [E] holds of the
    last state.  With [E] false this is total correctness. *)

Section Wp.
Context {St : Type}.
Implicit Types (E : St → Prop) (s : St).

Definition wp {A} E (m : M St A) (me : Z) s (Q : A → St → Prop) : Prop :=
  match m me s with
  | Ret a s' => Q a s'
  | Dead s' | Panic s' => E s'
  | Wfi _ _ | AssertFail | Fault => False
  end.

Lemma wp_ret {A} E (a : A) me s (Q : A → St → Prop) : Q a s → wp E (ret a) me s Q.
Proof. done. Qed.

Lemma wp_bind {A B} E (m : M St A) (f : A → M St B) me s Q :
  wp E m me s (λ a s', wp E (f a) me s' Q) → wp E (bind m f) me s Q.
Proof. unfold wp, bind. by destruct (m me s). Qed.

Lemma wp_mono {A} E (m : M St A) me s (P Q : A → St → Prop) :
  wp E m me s P → (∀ a s', P a s' → Q a s') → wp E m me s Q.
Proof. unfold wp. destruct (m me s); eauto. Qed.

Lemma wp_mono_E {A} E E' (m : M St A) me s (Q : A → St → Prop) :
  wp E m me s Q → (∀ s', E s' → E' s') → wp E' m me s Q.
Proof. unfold wp. destruct (m me s); eauto. Qed.

Lemma wp_gets {A} E (f : St → A) me s (Q : A → St → Prop) :
  Q (f s) s → wp E (gets f) me s Q.
Proof. done. Qed.

Lemma wp_modify E (f : St → St) me s (Q : unit → St → Prop) :
  Q tt (f s) → wp E (modify f) me s Q.
Proof. done. Qed.

Lemma wp_my_core_pos E me s (Q : Z → St → Prop) : Q me s → wp E my_core_pos me s Q.
Proof. done. Qed.

Lemma wp_some {A} E (o : option A) a me s (Q : A → St → Prop) :
  o = Some a → Q a s → wp E (some o) me s Q.
Proof. by intros ->. Qed.

Lemma wp_panic {A} E me s (Q : A → St → Prop) : E s → wp E panic me s Q.
Proof. done. Qed.

Lemma wp_dead {A} E me s (Q : A → St → Prop) : E s → wp E dead me s Q.
Proof. done. Qed.

Lemma wp_Ret {A} E (m : M St A) me s (Q : A → St → Prop) a s' :
  m me s = Ret a s' → Q a s' → wp E m me s Q.
Proof. unfold wp. by intros ->. Qed.

(** What follows [m] in a run, where [m] itself cannot fail and ends early only
    in ways [P] allows. *)
Lemma run_bind {A B} E (P : res St B → Prop) (m : M St A) (f : A → M St B) me s :
  (∀ s', E s' → P (Dead s') ∧ P (Panic s')) →
  wp E m me s (λ a s', P (f a me s')) → P (bind m f me s).
Proof. unfold wp, bind. intros HE. destruct (m me s); simpl; try done; intros Hm; by apply HE in Hm as []. Qed.

(** Total correctness gives the result. *)
Lemma wp_total {A} (m : M St A) me s (Q : A → St → Prop) :
  wp (λ _, False) m me s Q → ∃ a s', m me s = Ret a s' ∧ Q a s'.
Proof. unfold wp. destruct (m me s); naive_solver. Qed.

(** Loops, by an invariant indexed by the loop variable. *)
Lemma wp_for_to {A} E (P : Z → A → St → Prop) lo hi (body : Z → A → M St A) a me s
    (Q : A → St → Prop) :
  P lo a s →
  (∀ i a s, lo ≤ i ≤ hi → P i a s → wp E (body i a) me s (λ a' s', P (i + 1) a' s')) →
  (∀ a s, P (Z.max lo (hi + 1)) a s → Q a s) →
  wp E (for_to lo hi body a) me s Q.
Proof.
  intros HP Hstep HQ. unfold for_to.
  remember (Z.to_nat (hi - lo + 1)) as n eqn:Hn.
  assert (Hend : Z.max lo (hi + 1) = lo + Z.of_nat n) by lia. rewrite Hend in HQ. clear Hend.
  revert lo a s HP Hstep HQ Hn.
  induction n as [|n IH]; intros lo a s HP Hstep HQ Hn; simpl.
  - apply wp_ret, HQ. by rewrite Z.add_0_r.
  - apply wp_bind. eapply wp_mono; [apply Hstep; [lia|done]|].
    intros a' s' HP'. apply IH; [done| | |lia].
    + intros i a2 s2 Hi. apply Hstep. lia.
    + intros a2 s2 HP2. apply HQ. by replace (lo + Z.of_nat (S n)) with (lo + 1 + Z.of_nat n) by lia.
Qed.

Lemma wp_for_brk_to {A} E (P : Z → A → St → Prop) (Q : Z * A → St → Prop) lo hi
    (body : Z → A → M St (bool * A)) a me s :
  P lo a s →
  (∀ i a s, lo ≤ i ≤ hi → P i a s →
     wp E (body i a) me s (λ '(brk, a') s', if brk : bool then Q (i, a') s' else P (i + 1) a' s')) →
  (∀ a s, P (Z.max lo (hi + 1)) a s → Q (Z.max lo (hi + 1), a) s) →
  wp E (for_brk_to lo hi body a) me s Q.
Proof.
  intros HP Hstep HQ. unfold for_brk_to.
  remember (Z.to_nat (hi - lo + 1)) as n eqn:Hn.
  assert (Hend : Z.max lo (hi + 1) = lo + Z.of_nat n) by lia. rewrite Hend in HQ. clear Hend.
  revert lo a s HP Hstep HQ Hn.
  induction n as [|n IH]; intros lo a s HP Hstep HQ Hn; simpl.
  - apply wp_ret. specialize (HQ a s). rewrite Z.add_0_r in HQ. auto.
  - apply wp_bind. eapply wp_mono; [apply Hstep; [lia|done]|].
    intros [[|] a'] s' HP'; [by apply wp_ret|]. apply IH; [done| | |lia].
    + intros i a2 s2 Hi. apply Hstep. lia.
    + replace (lo + 1 + Z.of_nat n) with (lo + Z.of_nat (S n)) by lia. done.
Qed.

(** A variant that decreases in every round bounds the rounds. *)
Lemma wp_while_brk {A} E (P : A → St → Prop) (Q : A → St → Prop) (v : A → St → Z) n
    (body : A → M St (bool * A)) a me s :
  P a s → v a s < Z.of_nat n →
  (∀ a s, P a s → 0 ≤ v a s ∧
     wp E (body a) me s (λ '(brk, a') s', if brk : bool then Q a' s' else P a' s' ∧ v a' s' < v a s)) →
  wp E (while_brk n body a) me s Q.
Proof.
  intros HP Hv Hstep. revert a s HP Hv. induction n as [|n IH]; intros a s HP Hv; simpl.
  - destruct (Hstep a s HP). lia.
  - destruct (Hstep a s HP) as [Hpos Hb]. apply wp_bind. eapply wp_mono; [exact Hb|].
    intros [[|] a'] s'; [by apply wp_ret|]. intros [HP' Hlt]. apply IH; [done|lia].
Qed.

(** ** Partial correctness

    [wlp m me s Q]: if [m] returns, [Q] holds.  It is used beside [wp], which
    shows that [m] returns, for what the result is. *)
Definition wlp {A} (m : M St A) (me : Z) s (Q : A → St → Prop) : Prop :=
  match m me s with Ret a s' => Q a s' | _ => True end.

Lemma wlp_any {A} (m : M St A) me s : wlp m me s (λ _ _, True).
Proof. unfold wlp. by destruct (m me s). Qed.

Lemma wlp_mono {A} (m : M St A) me s (P Q : A → St → Prop) :
  wlp m me s P → (∀ a s', P a s' → Q a s') → wlp m me s Q.
Proof. unfold wlp. destruct (m me s); eauto. Qed.

(** What is known of a run otherwise can be used in the postcondition. *)
Lemma wlp_and {A} (P : A → St → Prop) (m : M St A) me s (Q : A → St → Prop) :
  wlp m me s P → wlp m me s (λ a s', P a s' → Q a s') → wlp m me s Q.
Proof. unfold wlp. destruct (m me s); auto. Qed.

Lemma wlp_impl {A} (H : Prop) (m : M St A) me s (Q : A → St → Prop) :
  (H → wlp m me s Q) → wlp m me s (λ a s', H → Q a s').
Proof. unfold wlp. destruct (m me s); auto. Qed.

Lemma wlp_ret {A} (a : A) me s (Q : A → St → Prop) : Q a s → wlp (ret a) me s Q.
Proof. done. Qed.

Lemma wlp_gets {A} (f : St → A) me s (Q : A → St → Prop) : Q (f s) s → wlp (gets f) me s Q.
Proof. done. Qed.

Lemma wlp_modify (f : St → St) me s (Q : unit → St → Prop) : Q tt (f s) → wlp (modify f) me s Q.
Proof. done. Qed.

Lemma wlp_some {A} (o : option A) me s (Q : A → St → Prop) :
  (∀ a, o = Some a → Q a s) → wlp (some o) me s Q.
Proof. destruct o; unfold wlp, some; simpl; auto. Qed.

Lemma wlp_bind {A B} (m : M St A) (f : A → M St B) me s Q :
  wlp m me s (λ a s', wlp (f a) me s' Q) → wlp (bind m f) me s Q.
Proof. unfold wlp, bind. by destruct (m me s). Qed.

Lemma wlp_while_brk {A} (P : A → St → Prop) (Q : A → St → Prop) n (body : A → M St (bool * A)) a me s :
  P a s →
  (∀ a s, P a s → wlp (body a) me s (λ '(brk, a') s', if brk : bool then Q a' s' else P a' s')) →
  wlp (while_brk n body a) me s Q.
Proof.
  intros HP Hstep. revert a s HP. induction n as [|n IH]; intros a s HP; simpl; [done|].
  apply wlp_bind. eapply wlp_mono; [by apply Hstep|]. intros [[|] a'] s'; [by apply wlp_ret|]. auto.
Qed.

Lemma wlp_for_brk_to {A} (P : Z → A → St → Prop) (Q : Z * A → St → Prop) lo hi
    (body : Z → A → M St (bool * A)) a me s :
  P lo a s →
  (∀ i a s, lo ≤ i ≤ hi → P i a s →
     wlp (body i a) me s (λ '(brk, a') s', if brk : bool then Q (i, a') s' else P (i + 1) a' s')) →
  (∀ a s, P (Z.max lo (hi + 1)) a s → Q (Z.max lo (hi + 1), a) s) →
  wlp (for_brk_to lo hi body a) me s Q.
Proof.
  intros HP Hstep HQ. unfold for_brk_to.
  remember (Z.to_nat (hi - lo + 1)) as n eqn:Hn.
  assert (Hend : Z.max lo (hi + 1) = lo + Z.of_nat n) by lia. rewrite Hend in HQ. clear Hend.
  revert lo a s HP Hstep HQ Hn.
  induction n as [|n IH]; intros lo a s HP Hstep HQ Hn; simpl.
  - apply wlp_ret. specialize (HQ a s). rewrite Z.add_0_r in HQ. auto.
  - apply wlp_bind. eapply wlp_mono; [apply Hstep; [lia|done]|].
    intros [[|] a'] s' HP'; [by apply wlp_ret|]. apply IH; [done| | |lia].
    + intros i a2 s2 Hi. apply Hstep. lia.
    + replace (lo + 1 + Z.of_nat n) with (lo + Z.of_nat (S n)) by lia. done.
Qed.

Lemma wlp_of_wp {A} (m : M St A) me s (E : St → Prop) (Q : A → St → Prop) : wp E m me s Q → wlp m me s Q.
Proof. unfold wp, wlp. by destruct (m me s). Qed.

Lemma wp_wlp {A} (m : M St A) me s (P Q : A → St → Prop) :
  wp (λ _, False) m me s P → wlp m me s Q → ∃ a s', m me s = Ret a s' ∧ P a s' ∧ Q a s'.
Proof. unfold wp, wlp. destruct (m me s) as [a s'| | | | |]; try done. intros HP HQ. by exists a, s'. Qed.

(** ** Interleaving: rely and guarantee

    [rg s0 r Q]: the run [r], whose current uninterrupted stretch began in
    [s0], does nothing undefined and fails no assertion.  Where it gives up
    the CPU the invariant holds and the stretch respected the guarantee, and
    it can be resumed from any state the other CPUs may leave.  [Q] receives
    the state in which the last stretch began, the result and the final
    state. *)
Section Rg.
Context (I : St → Prop) (G R : St → St → Prop).

Fixpoint rg {A} (s0 : St) (r : res St A) (Q : St → A → St → Prop) : Prop :=
  match r with
  | Ret a s => Q s0 a s
  | Wfi s k => I s ∧ G s0 s ∧ ∀ s', I s' → R s s' → rg s' (k s') Q
  | Dead _ | Panic _ => True
  | AssertFail | Fault => False
  end.

Lemma rg_mono {A} (r : res St A) s0 (P Q : St → A → St → Prop) :
  rg s0 r P → (∀ s1 a s, P s1 a s → Q s1 a s) → rg s0 r Q.
Proof.
  revert s0. induction r as [a s|s k IH|s|s| |]; simpl; intros s0 Hr HPQ; eauto.
  destruct Hr as (HI & HG & Hk). split_and!; [done..|]. intros s' HI' HR'. eauto.
Qed.

Lemma rg_rbind {A B} (r : res St A) (f : A → St → res St B) s0 (Q : St → B → St → Prop) :
  rg s0 r (λ s1 a s, rg s1 (f a s) Q) → rg s0 (rbind r f) Q.
Proof.
  revert s0. induction r as [a s|s k IH|s|s| |]; simpl; intros s0 Hr; auto.
  destruct Hr as (HI & HG & Hk). split_and!; [done..|]. intros s' HI' HR'. eauto.
Qed.

Lemma rg_bind {A B} (m : M St A) (f : A → M St B) me s s0 (Q : St → B → St → Prop) :
  rg s0 (m me s) (λ s1 a s', rg s1 (f a me s') Q) → rg s0 (bind m f me s) Q.
Proof. apply rg_rbind. Qed.

Lemma rg_wp {A} (m : M St A) me s s0 (Q : St → A → St → Prop) :
  wp (λ _, True) m me s (λ a s', Q s0 a s') → rg s0 (m me s) Q.
Proof. unfold wp. destruct (m me s); simpl; tauto. Qed.
End Rg.
End Wp.

(** Wp rules for the monad's primitives, tried in order. *)
Ltac wp_prim :=
  first
    [ apply wp_ret | apply wp_gets | apply wp_modify | apply wp_my_core_pos
    | (eapply wp_some; [eassumption|])
    | apply wp_bind ].
