(* ===== verification/PsciTypes.v ===== *)
(** * Data model of the PSCI library

    The build configuration, the data types of include/lib/psci/psci.h and
    lib/psci/psci_private.h, the hooks the platform and the Secure Payload
    Dispatcher export, and the state the library keeps. *)

From stdpp Require Import base list numbers list_numbers.
From Stdlib Require Import ZArith Lia.
From S2P Require Import Prelude.
Open Scope Z_scope.

(** ** Build configuration (platform_def.h and make_helpers/defaults.mk) *)

Class Config := {
  PLAT_MAX_PWR_LVL : Z;
  PLAT_MAX_RET_STATE : Z;
  PLAT_MAX_OFF_STATE : Z;
  PLATFORM_CORE_COUNT : Z;
  PSCI_NUM_PWR_DOMAINS : Z;
  (** defined by some platforms only *)
  PLAT_MAX_CPU_SUSPEND_PWR_LVL : option Z;
  PLAT_MAX_PWR_LVL_STATES : Z;
  ENABLE_ASSERTIONS : bool;
  PSCI_OS_INIT_MODE : bool;
  ENABLE_PSCI_STAT : bool;
  PSCI_EXTENDED_STATE_ID : bool;
  HW_ASSISTED_COHERENCY : bool;
  USE_COHERENT_MEM : bool;
  WARMBOOT_ENABLE_DCACHE_EARLY : bool;
  USE_GIC_DRIVER : bool;
  ERRATA_SME_POWER_DOWN : bool;
  ENABLE_RUNTIME_INSTRUMENTATION : bool;
  ENABLE_RME : bool;
}.

(** What the build checks (the CASSERTs of psci_common.c and psci_setup.c)
    and what the types of the constants imply. *)
Class ConfigOk `{cfg : Config} : Prop := {
  max_pwr_lvl_ok : 0 ≤ PLAT_MAX_PWR_LVL ≤ 3;
  ret_off_ok : 0 ≤ PLAT_MAX_RET_STATE < PLAT_MAX_OFF_STATE;
  off_u8_ok : PLAT_MAX_OFF_STATE < 256;
  core_count_ok : 0 < PLATFORM_CORE_COUNT ≤ 65536;
  num_domains_ok : PLATFORM_CORE_COUNT ≤ PSCI_NUM_PWR_DOMAINS < 2 ^ 31;
}.

Section Constants.
Context `{cfg : Config}.
Definition PSCI_NUM_NON_CPU_PWR_DOMAINS : Z := PSCI_NUM_PWR_DOMAINS - PLATFORM_CORE_COUNT.
Definition PSCI_INVALID_PWR_LVL : Z := PLAT_MAX_PWR_LVL + 1.
(** [max_pwrlvl] of the OS-initiated mode code. *)
Definition max_suspend_pwrlvl : Z := default PLAT_MAX_PWR_LVL PLAT_MAX_CPU_SUSPEND_PWR_LVL.
End Constants.

Definition PSCI_CPU_PWR_LVL : Z := 0.
Definition PSCI_LOCAL_STATE_RUN : Z := 0.
Definition PSCI_PARENT_NODE_INVALID : Z := 0xFFFFFFFF.
Definition PSCI_INVALID_MPIDR : Z := 2 ^ 64 - 1.

(** PSCI error codes. *)
Definition PSCI_E_SUCCESS : Z := 0.
Definition PSCI_E_NOT_SUPPORTED : Z := -1.
Definition PSCI_E_INVALID_PARAMS : Z := -2.
Definition PSCI_E_DENIED : Z := -3.
Definition PSCI_E_ALREADY_ON : Z := -4.
Definition PSCI_E_ON_PENDING : Z := -5.
Definition PSCI_E_INTERN_FAIL : Z := -6.
Definition PSCI_E_NOT_PRESENT : Z := -7.
Definition PSCI_E_DISABLED : Z := -8.
Definition PSCI_E_INVALID_ADDRESS : Z := -9.

Definition PSCI_TOS_UP_MIG_CAP : Z := 0.
Definition PSCI_TOS_NOT_UP_MIG_CAP : Z := 1.
Definition PSCI_TOS_NOT_PRESENT_MP : Z := 2.

Definition PSTATE_TYPE_STANDBY : Z := 0.
Definition PSTATE_TYPE_POWERDOWN : Z := 1.
Definition HW_ON : Z := 0.
Definition HW_OFF : Z := 1.
Definition HW_STANDBY : Z := 2.

(** suspend_mode_t. *)
Definition PLAT_COORD : Z := 0.
Definition OS_INIT : Z := 1.

(** ** Data types *)

Inductive aff_info_state_t := AFF_STATE_ON | AFF_STATE_OFF | AFF_STATE_ON_PENDING.

#[global] Instance aff_info_state_eq_dec : EqDecision aff_info_state_t.
Proof. solve_decision. Defined.

(** The value the enumerators have in C, as AFFINITY_INFO returns it. *)
Definition aff_info_code (a : aff_info_state_t) : Z :=
  match a with AFF_STATE_ON => 0 | AFF_STATE_OFF => 1 | AFF_STATE_ON_PENDING => 2 end.

Inductive plat_local_state_type_t := STATE_TYPE_RUN | STATE_TYPE_RETN | STATE_TYPE_OFF.

#[global] Instance plat_local_state_type_eq_dec : EqDecision plat_local_state_type_t.
Proof. solve_decision. Defined.

Definition state_type_code (t : plat_local_state_type_t) : Z :=
  match t with STATE_TYPE_RUN => 0 | STATE_TYPE_RETN => 1 | STATE_TYPE_OFF => 2 end.

(** [plat_local_state_t] is an 8-bit unsigned integer. *)
Record psci_power_state_t := PowerState {
  pwr_domain_state : list Z;
  last_at_pwrlvl : Z;
}.

Definition set_pwr_domain_state (st : psci_power_state_t) (lvl v : Z) : psci_power_state_t :=
  PowerState (zset (pwr_domain_state st) lvl v) (last_at_pwrlvl st).

Record psci_cpu_data_t := CpuData {
  aff_info_state : aff_info_state_t;
  target_pwrlvl : Z;
  local_state : Z;
}.

Record non_cpu_pd_node_t := NonCpuNode {
  cpu_start_idx : Z;
  ncpus : Z;
  parent_node : Z;
  nc_local_state : Z;
  level : Z;
  lock_index : Z;
}.

Record cpu_pd_node_t := CpuNode {
  mpidr : Z;
  cpu_parent_node : Z;
  cpu_lock : bool;
}.

(** entry_point_info_t of AArch64: header attributes, program counter, SPSR
    and the eight argument registers. *)
Record entry_point_info_t := EntryPoint {
  ep_attr : Z;
  ep_pc : Z;
  ep_spsr : Z;
  ep_args : list Z;
}.

Record psci_stat_t := PsciStat { residency : Z; count : Z }.

(** ** Calls into code outside the library

    Every call the library makes into the platform port, the Secure Payload
    Dispatcher, the GIC driver, the CPU driver, context management or the
    architecture is recorded, in order, with its arguments. *)

Inductive plat_call :=
| PlatCpuStandby (st : Z)
| PlatDomainOn (mpidr : Z)
| PlatDomainOffEarly (st : psci_power_state_t)
| PlatDomainOff (st : psci_power_state_t)
| PlatValidateSuspend (st : psci_power_state_t)
| PlatSuspendPwrdownEarly (st : psci_power_state_t)
| PlatSuspend (st : psci_power_state_t)
| PlatOnFinish (st : psci_power_state_t)
| PlatOnFinishLate (st : psci_power_state_t)
| PlatSuspendFinish (st : psci_power_state_t)
| PlatPwrDown (st : psci_power_state_t)
| PlatSystemOff
| PlatSystemReset
| PlatSystemReset2 (is_vendor reset_type cookie : Z)
| PlatWriteMemProtect (v : Z).

Inductive spd_call :=
| SvcOn (target_cpu : Z)
| SvcOff
| SvcSuspend (max_off_pwrlvl : Z)
| SvcOnFinish
| SvcSuspendFinish (max_off_pwrlvl : Z) (abandon : bool)
| SvcMigrate (from to : Z)
| SvcSystemOff
| SvcSystemReset.

Inductive event :=
| EvPlat (c : plat_call)
| EvSpd (c : spd_call)
| EvLockGet (lock : Z)
| EvLockRelease (lock : Z)
| EvSpinLock (cpu : Z)
| EvSpinUnlock (cpu : Z)
| EvFlushCpuData (cpu : Z)
| EvInvCpuData (cpu : Z)
| EvFlushNode (node : Z)
| EvFlushVar
| EvDsbIsh
| EvDsbSy
| EvPwrdownCacheMaint
| EvPwrupCacheMaint
| EvCpuPwrDwn (lvl : Z)
| EvGicCpuifDisable (cpu : Z)
| EvGicCpuifEnable (cpu : Z)
| EvGicPcpuOff (cpu : Z)
| EvGicPcpuInit (cpu : Z)
| EvWriteCntfrq
| EvInitCpuOps
| EvInitPercpuRegs
| EvPrintErrata
| EvCmInitMyContext (ep : entry_point_info_t)
| EvCmPrepareEl3Exit
| EvCmSetContext (cpu : Z)
| EvPublish
| EvTimestamp
| EvStatStart (st : psci_power_state_t)
| EvStatStop (st : psci_power_state_t)
| EvConsoleFlush
| EvWriteSvcr
| EvStopCore (mpidr : Z)
| EvMdelay.

(** ** Hooks

    A hook runs on the calling CPU over the platform and hardware state [H];
    by its type it cannot touch PSCI's own data.  It may never return, call
    panic(), or do what C leaves undefined or fail an assertion ([HFault]: an
    access outside an array, through NULL, an assert() that does not hold).  The
    hooks the library calls with no lock held and that may execute [wfi]
    (cpu_standby, pwr_domain_pwr_down and the system hooks) have the type
    [whook]: other CPUs run while the CPU waits in them. *)

Inductive hres (H A : Type) : Type :=
| HRet (a : A) (h : H)
| HDead (h : H)
| HPanic (h : H)
| HFault.
Arguments HRet {H A} a h.
Arguments HDead {H A} h.
Arguments HPanic {H A} h.
Arguments HFault {H A}.

Definition hook (H A : Type) : Type := Z → H → hres H A.

Inductive wres (H A : Type) : Type :=
| WNow (r : hres H A)
| WWfi (h : H) (k : H → wres H A).
Arguments WNow {H A} r.
Arguments WWfi {H A} h k.

Definition whook (H A : Type) : Type := Z → H → wres H A.

(** plat_psci_ops_t; a NULL member is [None]. *)
Record plat_psci_ops_t (H : Type) := PlatOps {
  cpu_standby : option (Z → whook H unit);
  pwr_domain_on : option (Z → hook H Z);
  pwr_domain_off : option (psci_power_state_t → hook H unit);
  pwr_domain_off_early : option (psci_power_state_t → hook H Z);
  pwr_domain_validate_suspend : option (psci_power_state_t → hook H Z);
  pwr_domain_suspend_pwrdown_early : option (psci_power_state_t → hook H unit);
  pwr_domain_suspend : option (psci_power_state_t → hook H unit);
  pwr_domain_on_finish : option (psci_power_state_t → hook H unit);
  pwr_domain_on_finish_late : option (psci_power_state_t → hook H unit);
  pwr_domain_suspend_finish : option (psci_power_state_t → hook H unit);
  pwr_domain_pwr_down : option (psci_power_state_t → whook H unit);
  system_off : option (whook H unit);
  system_reset : option (whook H unit);
  validate_power_state : option (Z → psci_power_state_t → hook H (Z * psci_power_state_t));
  validate_ns_entrypoint : option (Z → hook H Z);
  get_sys_suspend_power_state : option (psci_power_state_t → hook H psci_power_state_t);
  get_pwr_lvl_state_idx : option (Z → Z → Z);
  translate_power_state_by_mpidr :
    option (Z → Z → psci_power_state_t → hook H (Z * psci_power_state_t));
  get_node_hw_state : option (Z → Z → hook H Z);
  mem_protect_chk : option (Z → Z → hook H Z);
  read_mem_protect : option (hook H (Z * Z)); (** return value and the flag read *)
  write_mem_protect : option (Z → hook H Z);
  system_reset2 : option (Z → Z → Z → whook H Z);
}.
Arguments cpu_standby {H} p.
Arguments pwr_domain_on {H} p.
Arguments pwr_domain_off {H} p.
Arguments pwr_domain_off_early {H} p.
Arguments pwr_domain_validate_suspend {H} p.
Arguments pwr_domain_suspend_pwrdown_early {H} p.
Arguments pwr_domain_suspend {H} p.
Arguments pwr_domain_on_finish {H} p.
Arguments pwr_domain_on_finish_late {H} p.
Arguments pwr_domain_suspend_finish {H} p.
Arguments pwr_domain_pwr_down {H} p.
Arguments system_off {H} p.
Arguments system_reset {H} p.
Arguments validate_power_state {H} p.
Arguments validate_ns_entrypoint {H} p.
Arguments get_sys_suspend_power_state {H} p.
Arguments get_pwr_lvl_state_idx {H} p.
Arguments translate_power_state_by_mpidr {H} p.
Arguments get_node_hw_state {H} p.
Arguments mem_protect_chk {H} p.
Arguments read_mem_protect {H} p.
Arguments write_mem_protect {H} p.
Arguments system_reset2 {H} p.

(** spd_pm_ops_t. *)
Record spd_pm_ops_t (H : Type) := SpdOps {
  svc_on : option (Z → hook H unit);
  svc_off : option (hook H Z);
  svc_suspend : option (Z → hook H unit);
  svc_on_finish : option (hook H unit);
  svc_suspend_finish : option (Z → bool → hook H unit);
  svc_migrate : option (Z → Z → hook H Z);
  svc_migrate_info : option (Z → hook H (Z * Z)); (** return value and *resident_cpu *)
  svc_system_off : option (hook H unit);
  svc_system_reset : option (hook H unit);
}.
Arguments svc_on {H} s.
Arguments svc_off {H} s.
Arguments svc_suspend {H} s.
Arguments svc_on_finish {H} s.
Arguments svc_suspend_finish {H} s.
Arguments svc_migrate {H} s.
Arguments svc_migrate_info {H} s.
Arguments svc_system_off {H} s.
Arguments svc_system_reset {H} s.

(** The functions every platform and architecture port defines, and the
    system registers the library reads. *)
Class Platform (H : Type) := {
  plat_core_pos_by_mpidr : Z → Z;
  (** level, the cells from the pointer to the end of the row, ncpu; [None]
      when it reads past the array *)
  plat_get_target_pwr_state : Z → list Z → Z → option Z;
  plat_get_power_domain_tree_desc : list Z;
  plat_setup_psci_ops : Z → hook H (option (plat_psci_ops_t H));
  plat_psci_stat_get_residency : Z → psci_power_state_t → Z → hook H Z;
  (** the effect on the hardware of a call recorded as an event *)
  hw_event : event → Z → H → H;
  (** the CPU driver's power down handler for a level, [None] if NULL *)
  cpu_pwr_dwn_op : Z → option (hook H Z);
  read_isr_el1 : Z → H → Z;
  read_scr_el3 : Z → H → Z;
  read_sctlr_el1 : Z → H → Z;
  read_sctlr_el2 : Z → H → Z;
  read_mpidr_el1 : Z → H → Z;
  sme_active : Z → H → bool; (** is_feat_sme_supported() && read_svcr() != 0 *)
  sme_supported : bool;
  (** the indeterminate value of an uninitialised psci_power_state_t *)
  uninit_power_state : Z → H → psci_power_state_t;
}.

(** ** Library state *)

Record psci_state (H : Type) := PsciState {
  psci_req_local_pwr_states : list (list Z); (** the local states each CPU requested, [pwrlvl - 1][cpu_idx] *)
  psci_plat_core_count : Z;
  psci_non_cpu_pd_nodes : list non_cpu_pd_node_t;
  psci_locks : list bool; (** which power domain locks are held *)
  psci_cpu_pd_nodes : list cpu_pd_node_t;
  psci_svc_cpu_data : list psci_cpu_data_t; (** the PSCI part of each CPU's cpu_data_t *)
  warmboot_ep_info : list entry_point_info_t; (** what each CPU's cpu_data_t.warmboot_ep_info points to *)
  psci_caps : Z;
  psci_suspend_mode : Z; (** the enum suspend_mode_t variable, stored as the integer C stores *)
  psci_plat_pm_ops : option (plat_psci_ops_t H);
  psci_spd_pm : option (spd_pm_ops_t H);
  last_cpu_in_non_cpu_pd : list Z;
  psci_cpu_stat : list (list psci_stat_t);
  psci_non_cpu_stat : list (list psci_stat_t);
  hw : H; (** platform and hardware state, opaque to PSCI *)
  trace : list event (** calls made into code outside the library, latest first *)
}.
Arguments PsciState {H}.
Arguments psci_req_local_pwr_states {H} p.
Arguments psci_plat_core_count {H} p.
Arguments psci_non_cpu_pd_nodes {H} p.
Arguments psci_locks {H} p.
Arguments psci_cpu_pd_nodes {H} p.
Arguments psci_svc_cpu_data {H} p.
Arguments warmboot_ep_info {H} p.
Arguments psci_caps {H} p.
Arguments psci_suspend_mode {H} p.
Arguments psci_plat_pm_ops {H} p.
Arguments psci_spd_pm {H} p.
Arguments last_cpu_in_non_cpu_pd {H} p.
Arguments psci_cpu_stat {H} p.
Arguments psci_non_cpu_stat {H} p.
Arguments hw {H} p.
Arguments trace {H} p.

(** Field updates. *)
Section Setters.
Context {H : Type}.
Implicit Types s : psci_state H.
Definition set_psci_req_local_pwr_states (x : list (list Z)) s : psci_state H :=
  PsciState x (psci_plat_core_count s) (psci_non_cpu_pd_nodes s) (psci_locks s)
    (psci_cpu_pd_nodes s) (psci_svc_cpu_data s) (warmboot_ep_info s) (psci_caps s)
    (psci_suspend_mode s) (psci_plat_pm_ops s) (psci_spd_pm s) (last_cpu_in_non_cpu_pd s)
    (psci_cpu_stat s) (psci_non_cpu_stat s) (hw s) (trace s).
Definition set_psci_plat_core_count (x : Z) s : psci_state H :=
  PsciState (psci_req_local_pwr_states s) x (psci_non_cpu_pd_nodes s) (psci_locks s)
    (psci_cpu_pd_nodes s) (psci_svc_cpu_data s) (warmboot_ep_info s) (psci_caps s)
    (psci_suspend_mode s) (psci_plat_pm_ops s) (psci_spd_pm s) (last_cpu_in_non_cpu_pd s)
    (psci_cpu_stat s) (psci_non_cpu_stat s) (hw s) (trace s).
Definition set_psci_non_cpu_pd_nodes (x : list non_cpu_pd_node_t) s : psci_state H :=
  PsciState (psci_req_local_pwr_states s) (psci_plat_core_count s) x (psci_locks s)
    (psci_cpu_pd_nodes s) (psci_svc_cpu_data s) (warmboot_ep_info s) (psci_caps s)
    (psci_suspend_mode s) (psci_plat_pm_ops s) (psci_spd_pm s) (last_cpu_in_non_cpu_pd s)
    (psci_cpu_stat s) (psci_non_cpu_stat s) (hw s) (trace s).
Definition set_psci_locks (x : list bool) s : psci_state H :=
  PsciState (psci_req_local_pwr_states s) (psci_plat_core_count s) (psci_non_cpu_pd_nodes s) x
    (psci_cpu_pd_nodes s) (psci_svc_cpu_data s) (warmboot_ep_info s) (psci_caps s)
    (psci_suspend_mode s) (psci_plat_pm_ops s) (psci_spd_pm s) (last_cpu_in_non_cpu_pd s)
    (psci_cpu_stat s) (psci_non_cpu_stat s) (hw s) (trace s).
Definition set_psci_cpu_pd_nodes (x : list cpu_pd_node_t) s : psci_state H :=
  PsciState (psci_req_local_pwr_states s) (psci_plat_core_count s) (psci_non_cpu_pd_nodes s)
    (psci_locks s) x (psci_svc_cpu_data s) (warmboot_ep_info s) (psci_caps s)
    (psci_suspend_mode s) (psci_plat_pm_ops s) (psci_spd_pm s) (last_cpu_in_non_cpu_pd s)
    (psci_cpu_stat s) (psci_non_cpu_stat s) (hw s) (trace s).
Definition set_psci_svc_cpu_data (x : list psci_cpu_data_t) s : psci_state H :=
  PsciState (psci_req_local_pwr_states s) (psci_plat_core_count s) (psci_non_cpu_pd_nodes s)
    (psci_locks s) (psci_cpu_pd_nodes s) x (warmboot_ep_info s) (psci_caps s)
    (psci_suspend_mode s) (psci_plat_pm_ops s) (psci_spd_pm s) (last_cpu_in_non_cpu_pd s)
    (psci_cpu_stat s) (psci_non_cpu_stat s) (hw s) (trace s).
Definition set_warmboot_ep_info (x : list entry_point_info_t) s : psci_state H :=
  PsciState (psci_req_local_pwr_states s) (psci_plat_core_count s) (psci_non_cpu_pd_nodes s)
    (psci_locks s) (psci_cpu_pd_nodes s) (psci_svc_cpu_data s) x (psci_caps s)
    (psci_suspend_mode s) (psci_plat_pm_ops s) (psci_spd_pm s) (last_cpu_in_non_cpu_pd s)
    (psci_cpu_stat s) (psci_non_cpu_stat s) (hw s) (trace s).
Definition set_psci_caps (x : Z) s : psci_state H :=
  PsciState (psci_req_local_pwr_states s) (psci_plat_core_count s) (psci_non_cpu_pd_nodes s)
    (psci_locks s) (psci_cpu_pd_nodes s) (psci_svc_cpu_data s) (warmboot_ep_info s) x
    (psci_suspend_mode s) (psci_plat_pm_ops s) (psci_spd_pm s) (last_cpu_in_non_cpu_pd s)
    (psci_cpu_stat s) (psci_non_cpu_stat s) (hw s) (trace s).
Definition set_psci_suspend_mode (x : Z) s : psci_state H :=
  PsciState (psci_req_local_pwr_states s) (psci_plat_core_count s) (psci_non_cpu_pd_nodes s)
    (psci_locks s) (psci_cpu_pd_nodes s) (psci_svc_cpu_data s) (warmboot_ep_info s)
    (psci_caps s) x (psci_plat_pm_ops s) (psci_spd_pm s) (last_cpu_in_non_cpu_pd s)
    (psci_cpu_stat s) (psci_non_cpu_stat s) (hw s) (trace s).
Definition set_psci_plat_pm_ops (x : option (plat_psci_ops_t H)) s : psci_state H :=
  PsciState (psci_req_local_pwr_states s) (psci_plat_core_count s) (psci_non_cpu_pd_nodes s)
    (psci_locks s) (psci_cpu_pd_nodes s) (psci_svc_cpu_data s) (warmboot_ep_info s)
    (psci_caps s) (psci_suspend_mode s) x (psci_spd_pm s) (last_cpu_in_non_cpu_pd s)
    (psci_cpu_stat s) (psci_non_cpu_stat s) (hw s) (trace s).
Definition set_psci_spd_pm (x : option (spd_pm_ops_t H)) s : psci_state H :=
  PsciState (psci_req_local_pwr_states s) (psci_plat_core_count s) (psci_non_cpu_pd_nodes s)
    (psci_locks s) (psci_cpu_pd_nodes s) (psci_svc_cpu_data s) (warmboot_ep_info s)
    (psci_caps s) (psci_suspend_mode s) (psci_plat_pm_ops s) x (last_cpu_in_non_cpu_pd s)
    (psci_cpu_stat s) (psci_non_cpu_stat s) (hw s) (trace s).
Definition set_last_cpu_in_non_cpu_pd (x : list Z) s : psci_state H :=
  PsciState (psci_req_local_pwr_states s) (psci_plat_core_count s) (psci_non_cpu_pd_nodes s)
    (psci_locks s) (psci_cpu_pd_nodes s) (psci_svc_cpu_data s) (warmboot_ep_info s)
    (psci_caps s) (psci_suspend_mode s) (psci_plat_pm_ops s) (psci_spd_pm s) x (psci_cpu_stat s)
    (psci_non_cpu_stat s) (hw s) (trace s).
Definition set_psci_cpu_stat (x : list (list psci_stat_t)) s : psci_state H :=
  PsciState (psci_req_local_pwr_states s) (psci_plat_core_count s) (psci_non_cpu_pd_nodes s)
    (psci_locks s) (psci_cpu_pd_nodes s) (psci_svc_cpu_data s) (warmboot_ep_info s)
    (psci_caps s) (psci_suspend_mode s) (psci_plat_pm_ops s) (psci_spd_pm s)
    (last_cpu_in_non_cpu_pd s) x (psci_non_cpu_stat s) (hw s) (trace s).
Definition set_psci_non_cpu_stat (x : list (list psci_stat_t)) s : psci_state H :=
  PsciState (psci_req_local_pwr_states s) (psci_plat_core_count s) (psci_non_cpu_pd_nodes s)
    (psci_locks s) (psci_cpu_pd_nodes s) (psci_svc_cpu_data s) (warmboot_ep_info s)
    (psci_caps s) (psci_suspend_mode s) (psci_plat_pm_ops s) (psci_spd_pm s)
    (last_cpu_in_non_cpu_pd s) (psci_cpu_stat s) x (hw s) (trace s).
Definition set_hw (x : H) s : psci_state H :=
  PsciState (psci_req_local_pwr_states s) (psci_plat_core_count s) (psci_non_cpu_pd_nodes s)
    (psci_locks s) (psci_cpu_pd_nodes s) (psci_svc_cpu_data s) (warmboot_ep_info s)
    (psci_caps s) (psci_suspend_mode s) (psci_plat_pm_ops s) (psci_spd_pm s)
    (last_cpu_in_non_cpu_pd s) (psci_cpu_stat s) (psci_non_cpu_stat s) x (trace s).
Definition set_trace (x : list event) s : psci_state H :=
  PsciState (psci_req_local_pwr_states s) (psci_plat_core_count s) (psci_non_cpu_pd_nodes s)
    (psci_locks s) (psci_cpu_pd_nodes s) (psci_svc_cpu_data s) (warmboot_ep_info s)
    (psci_caps s) (psci_suspend_mode s) (psci_plat_pm_ops s) (psci_spd_pm s)
    (last_cpu_in_non_cpu_pd s) (psci_cpu_stat s) (psci_non_cpu_stat s) (hw s) x.
End Setters.
