(* ===== verification/PsciCommon.v ===== *)
(** * Common PSCI routines

    Primitive accesses to the library's state and the routines of
    lib/psci/psci_common.c, together with the inline helpers of
    include/lib/psci/psci.h and lib/psci/psci_private.h they use. *)

From stdpp Require Import base list numbers list_numbers.
From Stdlib Require Import ZArith Lia.
From S2P Require Import Prelude PsciTypes.
Open Scope Z_scope.
Open Scope mon_scope.

(** ** Accesses to the state *)

Section Access.
Context `{cfg : Config} {H : Type} `{plat : Platform H}.

Definition PM (A : Type) : Type := M (psci_state H) A.

(** assert(): checked in builds with ENABLE_ASSERTIONS only. *)
Definition c_assert (b : bool) : PM unit :=
  if ENABLE_ASSERTIONS && negb b then λ _ _, AssertFail else ret tt.

(** A call into code outside the library that returns nothing the library
    uses: recorded, with its effect on the hardware. *)
Definition emit (ev : event) : PM unit :=
  λ me s, Ret tt (set_trace (ev :: trace s) (set_hw (hw_event ev me (hw s)) s)).

Definition call_hook {A} (h : hook H A) : PM A :=
  λ me s, match h me (hw s) with
          | HRet a h' => Ret a (set_hw h' s)
          | HDead h' => Dead (set_hw h' s)
          | HPanic h' => Panic (set_hw h' s)
          | HFault => Fault
          end.

Fixpoint run_wres {A} (r : wres H A) (s : psci_state H) : res (psci_state H) A :=
  match r with
  | WNow (HRet a h') => Ret a (set_hw h' s)
  | WNow (HDead h') => Dead (set_hw h' s)
  | WNow (HPanic h') => Panic (set_hw h' s)
  | WNow HFault => Fault
  | WWfi h' k => Wfi (set_hw h' s) (λ s', run_wres (k (hw s')) s')
  end.

Definition call_whook {A} (h : whook H A) : PM A := λ me s, run_wres (h me (hw s)) s.

(** psci_plat_pm_ops->h(...), recorded; a NULL pointer is undefined. *)
Definition pm_ops : PM (plat_psci_ops_t H) :=
  o ← gets psci_plat_pm_ops; some o.

Definition call_plat {A} (ev : plat_call) (h : option (hook H A)) : PM A :=
  f ← some h; emit (EvPlat ev);; call_hook f.

Definition call_wplat {A} (ev : plat_call) (h : option (whook H A)) : PM A :=
  f ← some h; emit (EvPlat ev);; call_whook f.

Definition call_spd {A} (ev : spd_call) (h : hook H A) : PM A :=
  emit (EvSpd ev);; call_hook h.

(** wfi(): the CPU may stay here for ever; if it continues, the state is the
    one other CPUs left. *)
Definition wfi : PM unit := λ me s, Wfi s (λ s', Ret tt s').

Definition get_cpu_data_by_index (idx : Z) : PM psci_cpu_data_t :=
  l ← gets psci_svc_cpu_data; some (zget l idx).

Definition upd_cpu_data_by_index (idx : Z) (f : psci_cpu_data_t → psci_cpu_data_t) : PM unit :=
  d ← get_cpu_data_by_index idx;
  modify (λ s, set_psci_svc_cpu_data (zset (psci_svc_cpu_data s) idx (f d)) s).

Definition get_cpu_node (idx : Z) : PM cpu_pd_node_t :=
  l ← gets psci_cpu_pd_nodes; some (zget l idx).

Definition upd_cpu_node (idx : Z) (f : cpu_pd_node_t → cpu_pd_node_t) : PM unit :=
  d ← get_cpu_node idx;
  modify (λ s, set_psci_cpu_pd_nodes (zset (psci_cpu_pd_nodes s) idx (f d)) s).

Definition get_non_cpu_node (idx : Z) : PM non_cpu_pd_node_t :=
  l ← gets psci_non_cpu_pd_nodes; some (zget l idx).

Definition upd_non_cpu_node (idx : Z) (f : non_cpu_pd_node_t → non_cpu_pd_node_t) : PM unit :=
  d ← get_non_cpu_node idx;
  modify (λ s, set_psci_non_cpu_pd_nodes (zset (psci_non_cpu_pd_nodes s) idx (f d)) s).

(** ** psci_private.h *)

Definition with_aff_info_state (a : aff_info_state_t) (d : psci_cpu_data_t) : psci_cpu_data_t :=
  CpuData a (target_pwrlvl d) (local_state d).
Definition with_target_pwrlvl (l : Z) (d : psci_cpu_data_t) : psci_cpu_data_t :=
  CpuData (aff_info_state d) l (local_state d).
Definition with_local_state (l : Z) (d : psci_cpu_data_t) : psci_cpu_data_t :=
  CpuData (aff_info_state d) (target_pwrlvl d) l.
Definition with_nc_local_state (l : Z) (d : non_cpu_pd_node_t) : non_cpu_pd_node_t :=
  NonCpuNode (cpu_start_idx d) (ncpus d) (parent_node d) l (level d) (lock_index d).

Definition psci_get_aff_info_state_by_idx (idx : Z) : PM aff_info_state_t :=
  d ← get_cpu_data_by_index idx; ret (aff_info_state d).
Definition psci_get_aff_info_state : PM aff_info_state_t :=
  me ← my_core_pos; psci_get_aff_info_state_by_idx me.
Definition psci_set_aff_info_state_by_idx (idx : Z) (a : aff_info_state_t) : PM unit :=
  upd_cpu_data_by_index idx (with_aff_info_state a).
Definition psci_set_aff_info_state (a : aff_info_state_t) : PM unit :=
  me ← my_core_pos; psci_set_aff_info_state_by_idx me a.
Definition psci_get_suspend_pwrlvl : PM Z :=
  me ← my_core_pos; d ← get_cpu_data_by_index me; ret (target_pwrlvl d).
Definition psci_set_suspend_pwrlvl (target_lvl : Z) : PM unit :=
  me ← my_core_pos; upd_cpu_data_by_index me (with_target_pwrlvl target_lvl).
Definition psci_set_cpu_local_state (st : Z) : PM unit :=
  me ← my_core_pos; upd_cpu_data_by_index me (with_local_state st).
Definition psci_get_cpu_local_state_by_idx (idx : Z) : PM Z :=
  d ← get_cpu_data_by_index idx; ret (local_state d).
Definition psci_get_cpu_local_state : PM Z :=
  me ← my_core_pos; psci_get_cpu_local_state_by_idx me.

Definition is_cpu_standby_req (is_power_down_state retn_lvl : Z) : bool :=
  (is_power_down_state =? 0) && (retn_lvl =? 0).

(** Cache maintenance is compiled out on hardware-coherent systems. *)
Definition psci_flush_cpu_data : PM unit :=
  me ← my_core_pos; when (negb HW_ASSISTED_COHERENCY) (emit (EvFlushCpuData me)).
Definition psci_inv_cpu_data : PM unit :=
  me ← my_core_pos; when (negb HW_ASSISTED_COHERENCY) (emit (EvInvCpuData me)).
Definition psci_flush_dcache_range : PM unit :=
  when (negb HW_ASSISTED_COHERENCY) (emit EvFlushVar).
Definition psci_dsbish : PM unit :=
  when (negb HW_ASSISTED_COHERENCY) (emit EvDsbIsh).
(** flush_cpu_data_by_index() is not compiled out. *)
Definition flush_cpu_data_by_index (idx : Z) : PM unit := emit (EvFlushCpuData idx).

(** psci_lock_get() spins while the lock is held; between handlers no lock is
    held, so a held lock here is one nobody will release. *)
Definition psci_lock_get (node : Z) : PM unit :=
  n ← get_non_cpu_node node;
  l ← gets psci_locks;
  held ← some (zget l (lock_index n));
  if held : bool then dead else
  emit (EvLockGet (lock_index n));;
  modify (λ s, set_psci_locks (zset (psci_locks s) (lock_index n) true) s).

Definition psci_lock_release (node : Z) : PM unit :=
  n ← get_non_cpu_node node;
  l ← gets psci_locks;
  _ ← some (zget l (lock_index n));
  emit (EvLockRelease (lock_index n));;
  modify (λ s, set_psci_locks (zset (psci_locks s) (lock_index n) false) s).
End Access.

(** ** psci.h *)

Section Pstate.
Context `{cfg : Config}.

Definition PSTATE_VALID_MASK : Z := if PSCI_EXTENDED_STATE_ID then 0xB0000000 else 0xFCFE0000.
Definition PSTATE_TYPE_SHIFT : Z := if PSCI_EXTENDED_STATE_ID then 30 else 16.
Definition PSTATE_ID_MASK : Z := if PSCI_EXTENDED_STATE_ID then 0xfffffff else 0xffff.
Definition PSTATE_ID_SHIFT : Z := 0.
Definition PSTATE_TYPE_MASK : Z := 1.
Definition PSTATE_PWR_LVL_SHIFT : Z := 24.
Definition PSTATE_PWR_LVL_MASK : Z := 3.

(** The last two exist in the original (not extended) format only. *)
Definition psci_get_pstate_pwrlvl (pstate : Z) : Z :=
  Z.land (Z.shiftr pstate PSTATE_PWR_LVL_SHIFT) PSTATE_PWR_LVL_MASK.
Definition psci_make_powerstate (state_id type pwrlvl : Z) : Z :=
  Z.lor (Z.lor (Z.shiftl (Z.land state_id PSTATE_ID_MASK) PSTATE_ID_SHIFT)
               (Z.shiftl (Z.land type PSTATE_TYPE_MASK) PSTATE_TYPE_SHIFT))
        (Z.shiftl (Z.land pwrlvl PSTATE_PWR_LVL_MASK) PSTATE_PWR_LVL_SHIFT).

Definition define_psci_cap (x : Z) : Z := Z.shiftl 1 (Z.land x 0x1f).

Definition psci_get_pstate_id (power_state : Z) : Z :=
  Z.land (Z.shiftr power_state PSTATE_ID_SHIFT) PSTATE_ID_MASK.
Definition psci_get_pstate_type (power_state : Z) : Z :=
  Z.land (Z.shiftr power_state PSTATE_TYPE_SHIFT) PSTATE_TYPE_MASK.
Definition psci_check_power_state (power_state : Z) : Z :=
  Z.land power_state PSTATE_VALID_MASK.

Definition is_local_state_run (plat_local_state : Z) : bool :=
  plat_local_state =? PSCI_LOCAL_STATE_RUN.
Definition is_local_state_retn (plat_local_state : Z) : bool :=
  (PSCI_LOCAL_STATE_RUN <? plat_local_state) && (plat_local_state <=? PLAT_MAX_RET_STATE).
Definition is_local_state_off (plat_local_state : Z) : bool :=
  (PLAT_MAX_RET_STATE <? plat_local_state) && (plat_local_state <=? PLAT_MAX_OFF_STATE).

(** [pwr_domain_state[lvl]] of a psci_power_state_t: the array has a cell for
    every level up to PLAT_MAX_PWR_LVL and the callers stay within it. *)
Definition pds (st : psci_power_state_t) (lvl : Z) : Z :=
  default PSCI_LOCAL_STATE_RUN (zget (pwr_domain_state st) lvl).

(** [{ {PSCI_LOCAL_STATE_RUN} }]. *)
Definition power_state_run : psci_power_state_t :=
  PowerState (replicate (Z.to_nat (PLAT_MAX_PWR_LVL + 1)) PSCI_LOCAL_STATE_RUN) 0.

(** ** Categories and levels of a power state (psci_common.c) *)

Definition find_local_state_type (state : Z) : plat_local_state_type_t :=
  if negb (state =? 0) then
    if PLAT_MAX_RET_STATE <? state then STATE_TYPE_OFF else STATE_TYPE_RETN
  else STATE_TYPE_RUN.

Definition psci_find_max_off_lvl (state_info : psci_power_state_t) : Z :=
  default PSCI_INVALID_PWR_LVL
    (find_down (Z.to_nat (PLAT_MAX_PWR_LVL + 1))
       (λ i, is_local_state_off (pds state_info i))).

Definition psci_find_target_suspend_lvl (state_info : psci_power_state_t) : Z :=
  default PSCI_INVALID_PWR_LVL
    (find_down (Z.to_nat (PLAT_MAX_PWR_LVL + 1))
       (λ i, negb (is_local_state_run (pds state_info i)))).

(** The loop of psci_validate_suspend_req(), from level [n - 1] down to the
    CPU level: no level asks for a shallower state than the level above. *)
Fixpoint suspend_req_levels_ok (n : nat) (deepest : plat_local_state_type_t)
    (state_info : psci_power_state_t) : bool :=
  match n with
  | O => true
  | S i =>
      let req_state_type := find_local_state_type (pds state_info (Z.of_nat i)) in
      if state_type_code req_state_type <? state_type_code deepest then false
      else suspend_req_levels_ok i req_state_type state_info
  end.

Definition psci_validate_suspend_req (state_info : psci_power_state_t)
    (is_power_down_state : Z) : Z :=
  let target_lvl := psci_find_target_suspend_lvl state_info in
  if target_lvl =? PSCI_INVALID_PWR_LVL then PSCI_E_INVALID_PARAMS
  else if negb (suspend_req_levels_ok (Z.to_nat (target_lvl + 1)) STATE_TYPE_RUN state_info)
  then PSCI_E_INVALID_PARAMS
  else
    let max_off_lvl := psci_find_max_off_lvl state_info in
    let max_retn_lvl := if negb (target_lvl =? max_off_lvl) then target_lvl
                        else PSCI_INVALID_PWR_LVL in
    if (is_power_down_state =? 0) &&
       (negb (max_off_lvl =? PSCI_INVALID_PWR_LVL) || (max_retn_lvl =? PSCI_INVALID_PWR_LVL))
    then PSCI_E_INVALID_PARAMS
    else PSCI_E_SUCCESS.
End Pstate.

(** ** psci_common.c *)

Section Common.
Context `{cfg : Config} {H : Type} `{plat : Platform H}.
Abbreviation PM := (@PM H).

Definition psci_validate_power_state (power_state : Z) (state_info : psci_power_state_t)
    : PM (Z * psci_power_state_t) :=
  if negb (psci_check_power_state power_state =? 0) then
    ret (PSCI_E_INVALID_PARAMS, state_info)
  else
    ops ← pm_ops;
    c_assert (bool_decide (is_Some (validate_power_state ops)));;
    f ← some (validate_power_state ops);
    call_hook (f power_state state_info).

Definition psci_query_sys_suspend_pwrstate (state_info : psci_power_state_t)
    : PM psci_power_state_t :=
  ops ← pm_ops;
  c_assert (bool_decide (is_Some (get_sys_suspend_power_state ops)));;
  f ← some (get_sys_suspend_power_state ops);
  call_hook (f state_info).

(** The ancestor of a node [n] levels further up. *)
Definition walk_up (n lvl0 parent_idx : Z) : PM Z :=
  for_to lvl0 n (λ _ p, nd ← get_non_cpu_node p; ret (parent_node nd)) parent_idx.

Definition psci_is_last_cpu_to_idle_at_pwrlvl (my_idx end_pwrlvl : Z) : PM bool :=
  if end_pwrlvl =? PSCI_CPU_PWR_LVL then ret true
  else
    cn ← get_cpu_node my_idx;
    parent_idx ← walk_up (end_pwrlvl - 1) (PSCI_CPU_PWR_LVL + 1) (cpu_parent_node cn);
    nd ← get_non_cpu_node parent_idx;
    '(_, r) ← for_brk_to (cpu_start_idx nd) (cpu_start_idx nd + ncpus nd - 1)
      (λ cpu_idx r,
         local_state ← psci_get_cpu_local_state_by_idx cpu_idx;
         if cpu_idx =? my_idx then
           c_assert (is_local_state_run local_state);; ret (false, r)
         else if is_local_state_run local_state then ret (true, false)
         else ret (false, r)) true;
    ret r.

Definition psci_is_last_on_cpu (my_idx : Z) : PM bool :=
  n ← gets psci_plat_core_count;
  '(_, r) ← for_brk_to 0 (n - 1)
    (λ cpu_idx r,
       if cpu_idx =? my_idx then
         a ← psci_get_aff_info_state;
         c_assert (bool_decide (a = AFF_STATE_ON));;
         ret (false, r)
       else
         a ← psci_get_aff_info_state_by_idx cpu_idx;
         if bool_decide (a ≠ AFF_STATE_OFF) then ret (true, false) else ret (false, r)) true;
  ret r.

Definition psci_are_all_cpus_on : PM bool :=
  n ← gets psci_plat_core_count;
  '(_, r) ← for_brk_to 0 (n - 1)
    (λ cpu_idx r,
       a ← psci_get_aff_info_state_by_idx cpu_idx;
       if bool_decide (a = AFF_STATE_OFF) then ret (true, false) else ret (false, r)) true;
  ret r.

Definition psci_num_cpus_running : PM Z :=
  n ← gets psci_plat_core_count;
  for_to 0 (n - 1)
    (λ cpu_idx no_of_cpus,
       aff_state ← psci_get_aff_info_state_by_idx cpu_idx;
       ret (if bool_decide (aff_state = AFF_STATE_ON) || bool_decide (aff_state = AFF_STATE_ON_PENDING)
            then u32 (no_of_cpus + 1) else no_of_cpus)) 0.

Definition get_power_on_target_pwrlvl : PM Z :=
  pwrlvl ← psci_get_suspend_pwrlvl;
  c_assert (pwrlvl <? PSCI_INVALID_PWR_LVL);;
  ret pwrlvl.

(** [psci_req_local_pwr_states[pwrlvl - 1][cpu_idx] = v]. *)
Definition write_req (pwrlvl cpu_idx v : Z) : PM unit :=
  l ← gets psci_req_local_pwr_states;
  row ← some (zget l (pwrlvl - 1));
  row' ← some (zput row cpu_idx v);
  modify (set_psci_req_local_pwr_states (zset l (pwrlvl - 1) row')).

Definition psci_set_req_local_pwr_state (pwrlvl cpu_idx req_pwr_state : Z) : PM unit :=
  c_assert (PSCI_CPU_PWR_LVL <? pwrlvl);;
  n ← gets psci_plat_core_count;
  when ((PSCI_CPU_PWR_LVL <? pwrlvl) && (pwrlvl <=? PLAT_MAX_PWR_LVL) && (cpu_idx <? n))
    (write_req pwrlvl cpu_idx req_pwr_state).

Definition psci_init_req_local_pwr_states : PM unit :=
  n ← gets psci_plat_core_count;
  for_to 0 (PLAT_MAX_PWR_LVL - 1)
    (λ pwrlvl _,
       for_to 0 (n - 1) (λ core _, write_req (pwrlvl + 1) core PLAT_MAX_OFF_STATE) tt) tt.

(** The pointer [&psci_req_local_pwr_states[pwrlvl - 1][cpu_idx]], as the
    cells of the row from there on; [None] is NULL. *)
Definition psci_get_req_local_pwr_states (pwrlvl cpu_idx : Z) : PM (option (list Z)) :=
  c_assert (PSCI_CPU_PWR_LVL <? pwrlvl);;
  n ← gets psci_plat_core_count;
  if (PSCI_CPU_PWR_LVL <? pwrlvl) && (pwrlvl <=? PLAT_MAX_PWR_LVL) && (cpu_idx <? n) then
    l ← gets psci_req_local_pwr_states;
    row ← some (zget l (pwrlvl - 1));
    ret (Some (drop (Z.to_nat cpu_idx) row))
  else ret None.

Definition psci_update_req_local_pwr_states (end_pwrlvl cpu_idx : Z)
    (state_info : psci_power_state_t) (prev : list Z) : PM (list Z) :=
  for_to (PSCI_CPU_PWR_LVL + 1) max_suspend_pwrlvl
    (λ lvl prev,
       p ← psci_get_req_local_pwr_states lvl cpu_idx;
       cells ← some p;
       old ← some (zget cells 0);
       prev' ← some (zput prev (lvl - 1) old);
       req_state ← some (zget (pwr_domain_state state_info)
                           (if lvl <=? end_pwrlvl then lvl else end_pwrlvl));
       psci_set_req_local_pwr_state lvl cpu_idx req_state;;
       ret prev') prev.

Definition psci_restore_req_local_pwr_states (cpu_idx : Z) (prev : list Z) : PM unit :=
  for_to (PSCI_CPU_PWR_LVL + 1) max_suspend_pwrlvl
    (λ lvl _,
       v ← some (zget prev (lvl - 1));
       psci_set_req_local_pwr_state lvl cpu_idx v) tt.

(** psci_non_cpu_pd_nodes is flushed around accesses unless it is in coherent
    memory or all participants are coherent. *)
Definition node_flush (parent_idx : Z) : PM unit :=
  when (negb (USE_COHERENT_MEM || HW_ASSISTED_COHERENCY || WARMBOOT_ENABLE_DCACHE_EARLY))
    (emit (EvFlushNode parent_idx)).

Definition get_non_cpu_pd_node_local_state (parent_idx : Z) : PM Z :=
  node_flush parent_idx;;
  nd ← get_non_cpu_node parent_idx;
  ret (nc_local_state nd).

Definition set_non_cpu_pd_node_local_state (parent_idx state : Z) : PM unit :=
  upd_non_cpu_node parent_idx (with_nc_local_state state);;
  node_flush parent_idx.

Definition psci_get_target_local_pwr_states (cpu_idx end_pwrlvl : Z)
    (target_state : psci_power_state_t) : PM psci_power_state_t :=
  st ← psci_get_cpu_local_state;
  cn ← get_cpu_node cpu_idx;
  '(ts, _) ← for_to (PSCI_CPU_PWR_LVL + 1) end_pwrlvl
    (λ lvl '(ts, parent_idx),
       v ← get_non_cpu_pd_node_local_state parent_idx;
       ts' ← some (zput (pwr_domain_state ts) lvl v);
       nd ← get_non_cpu_node parent_idx;
       ret (PowerState ts' (last_at_pwrlvl ts), parent_node nd))
    (set_pwr_domain_state target_state PSCI_CPU_PWR_LVL st, cpu_parent_node cn);
  for_to (Z.max (PSCI_CPU_PWR_LVL + 1) (end_pwrlvl + 1)) PLAT_MAX_PWR_LVL
    (λ lvl ts, ret (set_pwr_domain_state ts lvl PSCI_LOCAL_STATE_RUN)) ts.

Definition psci_set_target_local_pwr_states (cpu_idx end_pwrlvl : Z)
    (target_state : psci_power_state_t) : PM unit :=
  psci_set_cpu_local_state (pds target_state PSCI_CPU_PWR_LVL);;
  psci_flush_cpu_data;;
  cn ← get_cpu_node cpu_idx;
  _ ← for_to 1 end_pwrlvl
    (λ lvl parent_idx,
       v ← some (zget (pwr_domain_state target_state) lvl);
       set_non_cpu_pd_node_local_state parent_idx v;;
       nd ← get_non_cpu_node parent_idx;
       ret (parent_node nd)) (cpu_parent_node cn);
  ret tt.

(** The nodes are written to [node_index[0..]], here the list built. *)
Definition psci_get_parent_pwr_domain_nodes (cpu_idx end_lvl : Z) : PM (list Z) :=
  cn ← get_cpu_node cpu_idx;
  '(nodes, _) ← for_to (PSCI_CPU_PWR_LVL + 1) end_lvl
    (λ _ '(nodes, p),
       nd ← get_non_cpu_node p;
       ret (nodes ++ [p], parent_node nd)) ([], cpu_parent_node cn);
  ret nodes.

Definition psci_set_pwr_domains_to_run (cpu_idx end_pwrlvl : Z) : PM unit :=
  cn ← get_cpu_node cpu_idx;
  _ ← for_to (PSCI_CPU_PWR_LVL + 1) end_pwrlvl
    (λ lvl parent_idx,
       set_non_cpu_pd_node_local_state parent_idx PSCI_LOCAL_STATE_RUN;;
       psci_set_req_local_pwr_state lvl cpu_idx PSCI_LOCAL_STATE_RUN;;
       nd ← get_non_cpu_node parent_idx;
       ret (parent_node nd)) (cpu_parent_node cn);
  psci_set_aff_info_state AFF_STATE_ON;;
  psci_set_cpu_local_state PSCI_LOCAL_STATE_RUN;;
  psci_flush_cpu_data.
End Common.

(** ** State coordination *)

Section Coordination.
Context `{cfg : Config} {H : Type} `{plat : Platform H}.
Abbreviation PM := (@PM H).

(** One level of psci_do_state_coordination(): the loop body. *)
Definition coordinate_level (cpu_idx lvl : Z) (acc : psci_power_state_t * Z)
    : PM (bool * (psci_power_state_t * Z)) :=
  let '(state_info, parent_idx) := acc in
  req ← some (zget (pwr_domain_state state_info) lvl);
  psci_set_req_local_pwr_state lvl cpu_idx req;;
  nd ← get_non_cpu_node parent_idx;
  p ← psci_get_req_local_pwr_states lvl (cpu_start_idx nd);
  req_states ← some p;
  target_state ← some (plat_get_target_pwr_state lvl req_states (ncpus nd));
  let state_info := set_pwr_domain_state state_info lvl target_state in
  if is_local_state_run target_state then ret (true, (state_info, parent_idx))
  else ret (false, (state_info, parent_node nd)).

Definition psci_do_state_coordination (cpu_idx end_pwrlvl : Z)
    (state_info : psci_power_state_t) : PM psci_power_state_t :=
  c_assert (end_pwrlvl <=? PLAT_MAX_PWR_LVL);;
  cn ← get_cpu_node cpu_idx;
  '(lvl, (state_info, _)) ← for_brk_to (PSCI_CPU_PWR_LVL + 1) end_pwrlvl
    (coordinate_level cpu_idx) (state_info, cpu_parent_node cn);
  for_to (lvl + 1) end_pwrlvl
    (λ lvl state_info,
       req ← some (zget (pwr_domain_state state_info) lvl);
       psci_set_req_local_pwr_state lvl cpu_idx req;;
       ret (set_pwr_domain_state state_info lvl PSCI_LOCAL_STATE_RUN)) state_info.

(** One level of psci_validate_state_coordination(): the loop body, which
    leaves the loop with the error code. *)
Definition validate_level (state_info : psci_power_state_t) (lvl : Z) (acc : Z * Z)
    : PM (bool * (Z * Z)) :=
  let '(_, parent_idx) := acc in
  nd ← get_non_cpu_node parent_idx;
  p ← psci_get_req_local_pwr_states lvl (cpu_start_idx nd);
  req_states ← some p;
  target_state ← some (plat_get_target_pwr_state lvl req_states (ncpus nd));
  req ← some (zget (pwr_domain_state state_info) lvl);
  if negb (req =? target_state) then
    ret (true, (if target_state =? PSCI_LOCAL_STATE_RUN then PSCI_E_DENIED
                else PSCI_E_INVALID_PARAMS, parent_idx))
  else ret (false, (PSCI_E_SUCCESS, parent_node nd)).

Definition psci_validate_state_coordination (cpu_idx end_pwrlvl : Z)
    (state_info : psci_power_state_t) : PM Z :=
  c_assert (end_pwrlvl <=? PLAT_MAX_PWR_LVL);;
  cn ← get_cpu_node cpu_idx;
  prev ← psci_update_req_local_pwr_states end_pwrlvl cpu_idx state_info
           (replicate (Z.to_nat PLAT_MAX_PWR_LVL) 0);
  '(_, (rc, _)) ← for_brk_to (PSCI_CPU_PWR_LVL + 1) end_pwrlvl
    (validate_level state_info) (PSCI_E_SUCCESS, cpu_parent_node cn);
  rc ← (if negb (rc =? PSCI_E_SUCCESS) then ret rc
        else
          last ← psci_is_last_cpu_to_idle_at_pwrlvl cpu_idx (last_at_pwrlvl state_info);
          ret (if negb last then PSCI_E_DENIED else rc));
  if negb (rc =? PSCI_E_SUCCESS) then
    psci_restore_req_local_pwr_states cpu_idx prev;; ret rc
  else ret rc.

(** ** Power domain locks *)

Definition psci_acquire_pwr_domain_locks (end_pwrlvl : Z) (parent_nodes : list Z) : PM unit :=
  for_to (PSCI_CPU_PWR_LVL + 1) end_pwrlvl
    (λ level _, parent_idx ← some (zget parent_nodes (level - 1));
                psci_lock_get parent_idx) tt.

(** Top down, from [end_pwrlvl] to level 1. *)
Fixpoint release_from (level : nat) (parent_nodes : list Z) : PM unit :=
  match level with
  | O => ret tt
  | S l =>
      parent_idx ← some (zget parent_nodes (Z.of_nat level - 1));
      psci_lock_release parent_idx;;
      release_from l parent_nodes
  end.

Definition psci_release_pwr_domain_locks (end_pwrlvl : Z) (parent_nodes : list Z) : PM unit :=
  release_from (Z.to_nat end_pwrlvl) parent_nodes.

(** ** Queries with the locks held *)

Definition with_all_locks {A} (this_core : Z) (q : PM A) : PM A :=
  parent_nodes ← psci_get_parent_pwr_domain_nodes this_core PLAT_MAX_PWR_LVL;
  psci_acquire_pwr_domain_locks PLAT_MAX_PWR_LVL parent_nodes;;
  r ← q;
  psci_release_pwr_domain_locks PLAT_MAX_PWR_LVL parent_nodes;;
  ret r.

Definition psci_is_last_on_cpu_safe (this_core : Z) : PM bool :=
  with_all_locks this_core (psci_is_last_on_cpu this_core).
Definition psci_are_all_cpus_on_safe (this_core : Z) : PM bool :=
  with_all_locks this_core psci_are_all_cpus_on.
Definition psci_num_cpus_running_on_safe (this_core : Z) : PM Z :=
  with_all_locks this_core psci_num_cpus_running.
End Coordination.

(** ** Entry points *)

Section EntryPoints.
Context `{cfg : Config} {H : Type} `{plat : Platform H}.
Abbreviation PM := (@PM H).

Definition SCR_HCE_BIT : Z := Z.shiftl 1 8.
Definition SCR_RW_BIT : Z := Z.shiftl 1 10.
Definition SCTLR_EE_BIT : Z := Z.shiftl 1 25.
Definition NON_SECURE : Z := 1.
Definition EP_ST_DISABLE : Z := 0.
Definition EP_EE_BIG : Z := 2.
Definition MODE_EL2 : Z := 2.
Definition MODE_EL1 : Z := 1.
Definition MODE32_hyp : Z := 0xa.
Definition MODE32_svc : Z := 0x3.
Definition MODE_SP_ELX : Z := 1.
Definition DISABLE_ALL_EXCEPTIONS : Z := 0xf.
Definition DAIF_AIF : Z := 0x7.

Definition SPSR_64 (el sp daif : Z) : Z :=
  Z.land (Z.lor (Z.lor (Z.lor (Z.shiftl 0 4) (Z.shiftl (Z.land el 3) 2)) (Z.shiftl (Z.land sp 1) 0))
            (Z.shiftl (Z.land daif 0xf) 6))
         (not64 (Z.shiftl 1 12)).

Definition SPSR_MODE32 (mode isa endian aif : Z) : Z :=
  Z.land (Z.lor (Z.lor (Z.lor (Z.lor (Z.shiftl 1 4) (Z.shiftl (Z.land mode 0xf) 0))
                               (Z.shiftl (Z.land isa 1) 5))
                       (Z.shiftl (Z.land endian 1) 9))
                (Z.shiftl (Z.land aif 7) 6))
         (not64 (Z.shiftl 1 23)).

(** psci_get_ns_ep_info() of AArch64.  The structure behind [ep] is written
    before the entry point is rejected. *)
Definition psci_get_ns_ep_info (ep : entry_point_info_t) (entrypoint context_id : Z)
    : PM (Z * entry_point_info_t) :=
  me ← my_core_pos;
  ns_scr_el3 ← gets (λ s, read_scr_el3 me (hw s));
  ns_sctlr_el1 ← gets (λ s, read_sctlr_el1 me (hw s));
  sctlr_el2 ← gets (λ s, read_sctlr_el2 me (hw s));
  let hce := negb (Z.land ns_scr_el3 SCR_HCE_BIT =? 0) in
  let sctlr := if hce then sctlr_el2 else ns_sctlr_el1 in
  let big := negb (Z.land sctlr SCTLR_EE_BIT =? 0) in
  let attr := Z.lor (Z.lor NON_SECURE EP_ST_DISABLE) (if big then EP_EE_BIG else 0) in
  let ee := if big then 1 else 0 in
  let args := context_id :: replicate 7 0 in
  let ep := EntryPoint attr entrypoint (ep_spsr ep) args in
  ret (if negb (Z.land ns_scr_el3 SCR_RW_BIT =? 0) then
         if negb (Z.land entrypoint 1 =? 0) then (PSCI_E_INVALID_ADDRESS, ep)
         else
           let mode := if hce then MODE_EL2 else MODE_EL1 in
           (PSCI_E_SUCCESS,
            EntryPoint attr entrypoint (u32 (SPSR_64 mode MODE_SP_ELX DISABLE_ALL_EXCEPTIONS)) args)
       else
         let mode := if hce then MODE32_hyp else MODE32_svc in
         (PSCI_E_SUCCESS,
          EntryPoint attr entrypoint
            (u32 (SPSR_MODE32 mode (Z.land entrypoint 1) ee DAIF_AIF)) args)).

(** [ep] points to the warm boot entry point of CPU [idx]. *)
Definition psci_validate_entry_point (idx entrypoint context_id : Z) : PM Z :=
  ops ← pm_ops;
  rc ← (match validate_ns_entrypoint ops with
        | Some f =>
            rc ← call_hook (f entrypoint);
            ret (if negb (rc =? PSCI_E_SUCCESS) then PSCI_E_INVALID_ADDRESS else PSCI_E_SUCCESS)
        | None => ret PSCI_E_SUCCESS
        end);
  if negb (rc =? PSCI_E_SUCCESS) then ret rc
  else
    eps ← gets warmboot_ep_info;
    ep ← some (zget eps idx);
    '(rc, ep') ← psci_get_ns_ep_info ep entrypoint context_id;
    modify (λ s, set_warmboot_ep_info (zset (warmboot_ep_info s) idx ep') s);;
    ret rc.

(** ** Secure Payload Dispatcher hooks *)

Definition PSCI_MIG_AARCH64 : Z := 0xc4000005.
Definition PSCI_MIG_INFO_UP_CPU_AARCH64 : Z := 0xc4000007.
Definition PSCI_MIG_INFO_TYPE : Z := 0x84000006.

Definition psci_register_spd_pm_hook (pm : spd_pm_ops_t H) : PM unit :=
  modify (λ s, set_psci_spd_pm (Some pm) s);;
  when (bool_decide (is_Some (svc_migrate pm)))
    (modify (λ s, set_psci_caps (Z.lor (psci_caps s) (define_psci_cap PSCI_MIG_AARCH64)) s));;
  when (bool_decide (is_Some (svc_migrate_info pm)))
    (modify (λ s, set_psci_caps
       (Z.lor (psci_caps s) (Z.lor (define_psci_cap PSCI_MIG_INFO_UP_CPU_AARCH64)
                                   (define_psci_cap PSCI_MIG_INFO_TYPE))) s)).

(** Return value and [*mpidr]. *)
Definition psci_spd_migrate_info (mpidr : Z) : PM (Z * Z) :=
  spd ← gets psci_spd_pm;
  match spd with
  | Some pm =>
      match svc_migrate_info pm with
      | Some f =>
          '(rc, mpidr') ← call_hook (f mpidr);
          c_assert ((rc =? PSCI_TOS_UP_MIG_CAP) || (rc =? PSCI_TOS_NOT_UP_MIG_CAP)
                    || (rc =? PSCI_TOS_NOT_PRESENT_MP) || (rc =? PSCI_E_NOT_SUPPORTED));;
          ret (rc, mpidr')
      | None => ret (PSCI_E_NOT_SUPPORTED, mpidr)
      end
  | None => ret (PSCI_E_NOT_SUPPORTED, mpidr)
  end.

Definition psci_secondaries_brought_up : PM Z :=
  n_valid ← for_to 0 (PLATFORM_CORE_COUNT - 1)
    (λ idx n_valid,
       cn ← get_cpu_node idx;
       ret (if negb (mpidr cn =? PSCI_INVALID_MPIDR) then u32 (n_valid + 1) else n_valid)) 0;
  c_assert (0 <? n_valid);;
  ret (if 1 <? n_valid then 1 else 0).

(** ** CPU power down *)

Definition CPU_MAX_PWR_DWN_OPS : Z := 2.
Definition PABANDON_ACK : Z := 0xffaba4d4aba4d400.

(** The handler and the level it is registered for. *)
Definition get_cpu_pwr_dwn (power_level : Z) : PM (Z * hook H Z) :=
  let power_level := if CPU_MAX_PWR_DWN_OPS - 1 <? power_level then CPU_MAX_PWR_DWN_OPS - 1
                     else power_level in
  c_assert (bool_decide (is_Some (cpu_pwr_dwn_op (H:=H) power_level)));;
  f ← some (cpu_pwr_dwn_op power_level);
  ret (power_level, f).

Definition prepare_cpu_pwr_up (power_level : Z) : PM unit :=
  '(l, f) ← get_cpu_pwr_dwn power_level;
  emit (EvCpuPwrDwn l);;
  r ← call_hook f;
  when (negb (r =? PABANDON_ACK)) panic.

Definition psci_pwrdown_cpu_start (power_level : Z) : PM unit :=
  when ENABLE_RUNTIME_INSTRUMENTATION (emit EvTimestamp);;
  '(l, f) ← get_cpu_pwr_dwn power_level;
  when (negb HW_ASSISTED_COHERENCY) (emit EvPwrdownCacheMaint);;
  emit (EvCpuPwrDwn l);;
  _ ← call_hook f;
  when ENABLE_RUNTIME_INSTRUMENTATION (emit EvTimestamp).

Fixpoint wfi_n (n : nat) : PM unit :=
  match n with O => ret tt | S n' => wfi;; wfi_n n' end.

Definition psci_pwrdown_cpu_end_terminal {A} : PM A :=
  when (ERRATA_SME_POWER_DOWN && sme_supported (H:=H)) (emit EvWriteSvcr);;
  emit EvDsbSy;;
  wfi_n 32;;
  panic.

Definition psci_pwrdown_cpu_end_wakeup (power_level : Z) : PM unit :=
  emit EvDsbSy;;
  wfi;;
  when (negb HW_ASSISTED_COHERENCY) panic;;
  prepare_cpu_pwr_up power_level.

(** ** Stopping the other cores *)

(** The wait loop, at most [n] milliseconds.  While a core waits, the others
    run: [mdelay] is an interleaving point like [wfi]. *)
Fixpoint wait_last_on (n : nat) (this_cpu_idx : Z) : PM unit :=
  match n with
  | O => ret tt
  | S n' =>
      last ← psci_is_last_on_cpu this_cpu_idx;
      if last : bool then ret tt
      else emit EvMdelay;; wfi;; wait_last_on n' this_cpu_idx
  end.

Definition psci_stop_other_cores (this_cpu_idx wait_ms : Z) : PM Z :=
  n ← gets psci_plat_core_count;
  _ ← for_to 0 (n - 1)
    (λ idx _,
       if idx =? this_cpu_idx then ret tt
       else
         a ← psci_get_aff_info_state_by_idx idx;
         when (bool_decide (a = AFF_STATE_ON))
           (cn ← get_cpu_node idx; emit (EvStopCore (mpidr cn)))) tt;
  if negb (wait_ms =? 0) then
    wait_last_on (Z.to_nat wait_ms) this_cpu_idx;;
    last ← psci_is_last_on_cpu this_cpu_idx;
    ret (if negb last then PSCI_E_DENIED else PSCI_E_SUCCESS)
  else ret PSCI_E_SUCCESS.
End EntryPoints.
