(* ===== verification/PsciStat.v ===== *)
(** * Residency statistics

    lib/psci/psci_stat.c and the default platform accounting of
    plat/common/plat_psci_common.c. *)

From stdpp Require Import base list numbers list_numbers.
From Stdlib Require Import ZArith Lia.
From S2P Require Import Prelude PsciTypes PsciCommon.
Open Scope Z_scope.
Open Scope mon_scope.

(** ** plat_psci_common.c *)

Definition MAX_TS : Z := 2 ^ 64 - 1.
Definition MHZ_TICKS_PER_SEC : Z := 1000000.

(** The arithmetic is that of unsigned 64-bit integers; the division by a zero
    [residency_div] is undefined and excluded by the assertion. *)
Definition calc_stat_residency (cntfrq pwrupts pwrdnts : Z) : option Z :=
  let residency_div := u64 (cntfrq / MHZ_TICKS_PER_SEC) in
  if residency_div =? 0 then None
  else
    let res := if pwrupts <? pwrdnts then u64 (u64 (MAX_TS - pwrdnts) + pwrupts)
               else u64 (pwrupts - pwrdnts) in
    Some (res / residency_div).

(** The do-while loop of the default plat_get_target_pwr_state(): the
    shallowest of [n] requested states.  [states] are the cells, of type
    uint8_t, from the pointer on; reading past them is undefined, and [n--]
    wraps for [n = 0]. *)
Fixpoint target_pwr_state_loop (states : list Z) (n target : Z) : option Z :=
  match states with
  | [] => None
  | cell :: states' =>
      let temp := u8 cell in
      let target := if temp <? target then temp else target in
      let n := u32 (n - 1) in
      if 0 <? n then target_pwr_state_loop states' n target else Some target
  end.

Definition plat_get_target_pwr_state_default `{Config} (lvl : Z) (states : list Z) (ncpu : Z)
    : option Z :=
  target_pwr_state_loop states ncpu PLAT_MAX_OFF_STATE.

(** ** psci_stat.c *)

Section Stat.
Context `{cfg : Config} {H : Type} `{plat : Platform H}.
Abbreviation PM := (@PM H).

Definition get_stat_idx (local_state pwr_lvl : Z) : PM Z :=
  ops ← pm_ops;
  match get_pwr_lvl_state_idx ops with
  | None =>
      c_assert (PLAT_MAX_PWR_LVL_STATES =? 2);;
      if is_local_state_retn local_state then ret 0
      else c_assert (is_local_state_off local_state);; ret 1
  | Some f =>
      let idx := f local_state pwr_lvl in
      c_assert (idx <? PLAT_MAX_PWR_LVL_STATES);; ret idx
  end.

Definition psci_stats_update_pwr_down (cpu_idx end_pwrlvl : Z)
    (state_info : psci_power_state_t) : PM unit :=
  c_assert (end_pwrlvl <=? PLAT_MAX_PWR_LVL);;
  cn ← get_cpu_node cpu_idx;
  _ ← for_brk_to (PSCI_CPU_PWR_LVL + 1) end_pwrlvl
    (λ lvl parent_idx,
       if is_local_state_run (pds state_info lvl) then ret (true, parent_idx)
       else
         l ← gets last_cpu_in_non_cpu_pd;
         l' ← some (zput l parent_idx cpu_idx);
         modify (set_last_cpu_in_non_cpu_pd l');;
         nd ← get_non_cpu_node parent_idx;
         ret (false, parent_node nd)) (cpu_parent_node cn);
  ret tt.

(** [tbl[i][j].residency += r; tbl[i][j].count++]. *)
Definition bump (tbl : list (list psci_stat_t)) (i j r : Z) : option (list (list psci_stat_t)) :=
  match zget tbl i with
  | Some row =>
      match zget row j with
      | Some st =>
          Some (zset tbl i (zset row j
            (PsciStat (u64 (residency st + r)) (u64 (count st + 1)))))
      | None => None
      end
  | None => None
  end.

Definition psci_stats_update_pwr_up (cpu_idx end_pwrlvl : Z)
    (state_info : psci_power_state_t) : PM unit :=
  c_assert (end_pwrlvl <=? PLAT_MAX_PWR_LVL);;
  stat_idx ← get_stat_idx (pds state_info PSCI_CPU_PWR_LVL) PSCI_CPU_PWR_LVL;
  residency ← call_hook (plat_psci_stat_get_residency PSCI_CPU_PWR_LVL state_info cpu_idx);
  tbl ← gets psci_cpu_stat;
  tbl' ← some (bump tbl cpu_idx stat_idx residency);
  modify (set_psci_cpu_stat tbl');;
  cn ← get_cpu_node cpu_idx;
  l ← gets last_cpu_in_non_cpu_pd;
  first ← some (zget l (cpu_parent_node cn));
  if first =? -1 then ret tt
  else
    _ ← for_brk_to (PSCI_CPU_PWR_LVL + 1) end_pwrlvl
      (λ lvl parent_idx,
         let local_state := pds state_info lvl in
         if is_local_state_run local_state then ret (true, parent_idx)
         else
           l ← gets last_cpu_in_non_cpu_pd;
           last ← some (zget l parent_idx);
           c_assert (negb (last =? -1));;
           residency ← call_hook (plat_psci_stat_get_residency lvl state_info (u32 last));
           modify (set_last_cpu_in_non_cpu_pd (zset l parent_idx (-1)));;
           stat_idx ← get_stat_idx local_state lvl;
           tbl ← gets psci_non_cpu_stat;
           tbl' ← some (bump tbl parent_idx stat_idx residency);
           modify (set_psci_non_cpu_stat tbl');;
           nd ← get_non_cpu_node parent_idx;
           ret (false, parent_node nd)) (cpu_parent_node cn);
    ret tt.

(** Platform function of include/plat/common/platform.h. *)
Definition is_valid_mpidr (mpidr : Z) : bool :=
  let pos := plat_core_pos_by_mpidr (H:=H) mpidr in
  negb ((pos <? 0) || (PLATFORM_CORE_COUNT <=? u32 pos)).

(** Return value and [*psci_stat]. *)
Definition psci_get_stat (target_cpu power_state : Z) : PM (Z * option psci_stat_t) :=
  let target_idx := u32 (plat_core_pos_by_mpidr (H:=H) target_cpu) in
  ops ← pm_ops;
  '(rc, state_info) ←
    (match translate_power_state_by_mpidr ops with
     | None => psci_validate_power_state power_state power_state_run
     | Some f => call_hook (f target_cpu power_state power_state_run)
     end);
  if negb (rc =? PSCI_E_SUCCESS) then ret (PSCI_E_INVALID_PARAMS, None)
  else
    let pwrlvl := psci_find_target_suspend_lvl state_info in
    if pwrlvl =? PSCI_INVALID_PWR_LVL then panic
    else
      stat_idx ← get_stat_idx (pds state_info pwrlvl) pwrlvl;
      if PSCI_CPU_PWR_LVL <? pwrlvl then
        cn ← get_cpu_node target_idx;
        parent_idx ← walk_up (pwrlvl - 1) (PSCI_CPU_PWR_LVL + 1) (cpu_parent_node cn);
        tbl ← gets psci_non_cpu_stat;
        row ← some (zget tbl parent_idx);
        st ← some (zget row stat_idx);
        ret (PSCI_E_SUCCESS, Some st)
      else
        tbl ← gets psci_cpu_stat;
        row ← some (zget tbl target_idx);
        st ← some (zget row stat_idx);
        ret (PSCI_E_SUCCESS, Some st).

Definition psci_stat_residency (target_cpu power_state : Z) : PM Z :=
  if negb (is_valid_mpidr target_cpu) then ret 0
  else
    '(rc, st) ← psci_get_stat target_cpu power_state;
    if rc =? PSCI_E_SUCCESS then st ← some st; ret (residency st) else ret 0.

Definition psci_stat_count (target_cpu power_state : Z) : PM Z :=
  if negb (is_valid_mpidr target_cpu) then ret 0
  else
    '(rc, st) ← psci_get_stat target_cpu power_state;
    if rc =? PSCI_E_SUCCESS then st ← some st; ret (count st) else ret 0.
End Stat.
