(* ===== verification/PsciPower.v ===== *)
(** * Power management handlers

    CPU_ON (lib/psci/psci_on.c), CPU_OFF (lib/psci/psci_off.c), CPU_SUSPEND
    (lib/psci/psci_suspend.c) and the warm boot path of
    lib/psci/psci_common.c. *)

From stdpp Require Import base list numbers list_numbers.
From Stdlib Require Import ZArith Lia.
From S2P Require Import Prelude PsciTypes PsciCommon PsciStat.
Open Scope Z_scope.
Open Scope mon_scope.

Section Power.
Context `{cfg : Config} {H : Type} `{plat : Platform H}.
Abbreviation PM := (@PM H).

(** The registered SPD's hook, [None] when there is no SPD or the hook is NULL. *)
Definition spd_hook {A} (f : spd_pm_ops_t H → option A) : PM (option A) :=
  spd ← gets psci_spd_pm;
  ret (match spd with Some pm => f pm | None => None end).

Definition notify_spd {A} (ev : spd_call) (f : spd_pm_ops_t H → option (hook H A)) : PM unit :=
  h ← spd_hook f;
  match h with
  | Some g => _ ← call_spd ev g; ret tt
  | None => ret tt
  end.

(** A void platform hook that may be NULL. *)
Definition opt_plat {A} (ev : plat_call) (h : option (hook H A)) : PM unit :=
  match h with
  | Some g => emit (EvPlat ev);; _ ← call_hook g; ret tt
  | None => ret tt
  end.

Definition opt_wplat {A} (ev : plat_call) (h : option (whook H A)) : PM unit :=
  match h with
  | Some g => emit (EvPlat ev);; _ ← call_whook g; ret tt
  | None => ret tt
  end.

(** psci_arch_setup() of psci_setup.c. *)
Definition psci_arch_setup : PM unit :=
  emit EvWriteCntfrq;; emit EvInitCpuOps;; emit EvInitPercpuRegs;; emit EvPrintErrata.

(** ** psci_on.c *)

Definition with_cpu_lock (b : bool) (n : cpu_pd_node_t) : cpu_pd_node_t :=
  CpuNode (mpidr n) (cpu_parent_node n) b.
Definition with_mpidr (m : Z) (n : cpu_pd_node_t) : cpu_pd_node_t :=
  CpuNode m (cpu_parent_node n) (cpu_lock n).

Definition psci_spin_lock_cpu (idx : Z) : PM unit :=
  n ← get_cpu_node idx;
  if cpu_lock n then dead
  else emit (EvSpinLock idx);; upd_cpu_node idx (with_cpu_lock true).
Definition psci_spin_unlock_cpu (idx : Z) : PM unit :=
  emit (EvSpinUnlock idx);; upd_cpu_node idx (with_cpu_lock false).

Definition cpu_on_validate_state (aff_state : aff_info_state_t) : Z :=
  match aff_state with
  | AFF_STATE_ON => PSCI_E_ALREADY_ON
  | AFF_STATE_ON_PENDING => PSCI_E_ON_PENDING
  | AFF_STATE_OFF => PSCI_E_SUCCESS
  end.

Definition psci_cpu_on_start (target_cpu : Z) : PM Z :=
  let target_idx := u32 (plat_core_pos_by_mpidr (H:=H) target_cpu) in
  ops ← pm_ops;
  c_assert (bool_decide (is_Some (pwr_domain_on ops)) &&
            bool_decide (is_Some (pwr_domain_on_finish ops)));;
  psci_spin_lock_cpu target_idx;;
  flush_cpu_data_by_index target_idx;;
  a ← psci_get_aff_info_state_by_idx target_idx;
  let rc := cpu_on_validate_state a in
  rc ← (if negb (rc =? PSCI_E_SUCCESS) then ret rc
        else
          notify_spd (SvcOn target_cpu) (λ pm, (λ f, f target_cpu) <$> svc_on pm);;
          psci_set_aff_info_state_by_idx target_idx AFF_STATE_ON_PENDING;;
          flush_cpu_data_by_index target_idx;;
          target_aff_state ← psci_get_aff_info_state_by_idx target_idx;
          when (bool_decide (target_aff_state ≠ AFF_STATE_ON_PENDING))
            (c_assert (bool_decide (target_aff_state = AFF_STATE_OFF));;
             psci_set_aff_info_state_by_idx target_idx AFF_STATE_ON_PENDING;;
             flush_cpu_data_by_index target_idx;;
             a' ← psci_get_aff_info_state_by_idx target_idx;
             c_assert (bool_decide (a' = AFF_STATE_ON_PENDING)));;
          rc ← call_plat (PlatDomainOn target_cpu) ((λ f, f target_cpu) <$> pwr_domain_on ops);
          c_assert ((rc =? PSCI_E_SUCCESS) || (rc =? PSCI_E_INTERN_FAIL));;
          when (negb (rc =? PSCI_E_SUCCESS))
            (psci_set_aff_info_state_by_idx target_idx AFF_STATE_OFF;;
             flush_cpu_data_by_index target_idx);;
          ret rc);
  psci_spin_unlock_cpu target_idx;;
  ret rc.

Definition MPIDR_AFFINITY_MASK : Z := 0xff00ffffff.

Definition psci_cpu_on_finish (cpu_idx : Z) (state_info : psci_power_state_t) : PM unit :=
  ops ← pm_ops;
  call_plat (PlatOnFinish state_info) ((λ f, f state_info) <$> pwr_domain_on_finish ops);;
  when (negb (HW_ASSISTED_COHERENCY || WARMBOOT_ENABLE_DCACHE_EARLY)) (emit EvPwrupCacheMaint);;
  opt_plat (PlatOnFinishLate state_info) ((λ f, f state_info) <$> pwr_domain_on_finish_late ops);;
  when USE_GIC_DRIVER (emit (EvGicPcpuInit cpu_idx);; emit (EvGicCpuifEnable cpu_idx));;
  psci_arch_setup;;
  psci_spin_lock_cpu cpu_idx;;
  psci_spin_unlock_cpu cpu_idx;;
  a ← psci_get_aff_info_state;
  c_assert (bool_decide (a = AFF_STATE_ON_PENDING));;
  notify_spd SvcOnFinish svc_on_finish;;
  emit EvPublish;;
  me ← my_core_pos;
  m ← gets (λ s, read_mpidr_el1 me (hw s));
  upd_cpu_node cpu_idx (with_mpidr (Z.land m MPIDR_AFFINITY_MASK)).

(** ** psci_off.c *)

Definition psci_set_power_off_state (state_info : psci_power_state_t) : PM psci_power_state_t :=
  for_to PSCI_CPU_PWR_LVL PLAT_MAX_PWR_LVL
    (λ lvl st, l ← some (zput (pwr_domain_state st) lvl PLAT_MAX_OFF_STATE);
               ret (PowerState l (last_at_pwrlvl st))) state_info.

(** The part of psci_do_cpu_off() between taking and releasing the locks. *)
Definition cpu_off_locked (ops : plat_psci_ops_t H) (idx end_pwrlvl rc0 : Z)
    (state_info : psci_power_state_t) : PM (Z * psci_power_state_t) :=
  h ← spd_hook svc_off;
  rc ← (match h with Some g => call_spd SvcOff g | None => ret rc0 end);
  if bool_decide (is_Some h) && negb (rc =? PSCI_E_SUCCESS) then ret (rc, state_info)
  else
    state_info ← psci_do_state_coordination idx end_pwrlvl state_info;
    psci_set_target_local_pwr_states idx end_pwrlvl state_info;;
    when ENABLE_PSCI_STAT (psci_stats_update_pwr_down idx end_pwrlvl state_info);;
    psci_pwrdown_cpu_start (psci_find_max_off_lvl state_info);;
    when USE_GIC_DRIVER (emit (EvGicCpuifDisable idx);; emit (EvGicPcpuOff idx));;
    call_plat (PlatDomainOff state_info) ((λ f, f state_info) <$> pwr_domain_off ops);;
    when ENABLE_PSCI_STAT (emit (EvStatStart state_info));;
    ret (rc, state_info).

Definition psci_do_cpu_off (end_pwrlvl : Z) : PM Z :=
  idx ← my_core_pos;
  garbage ← gets (λ s, uninit_power_state idx (hw s));
  ops ← pm_ops;
  c_assert (bool_decide (is_Some (pwr_domain_off ops)));;
  state_info ← psci_set_power_off_state garbage;
  rc ← (match pwr_domain_off_early ops with
        | Some f => emit (EvPlat (PlatDomainOffEarly state_info));; call_hook (f state_info)
        | None => ret PSCI_E_SUCCESS
        end);
  if rc =? PSCI_E_DENIED then ret rc
  else
    parent_nodes ← psci_get_parent_pwr_domain_nodes idx end_pwrlvl;
    psci_acquire_pwr_domain_locks end_pwrlvl parent_nodes;;
    '(rc, state_info) ← cpu_off_locked ops idx end_pwrlvl rc state_info;
    psci_release_pwr_domain_locks end_pwrlvl parent_nodes;;
    if rc =? PSCI_E_SUCCESS then
      psci_flush_cpu_data;;
      psci_set_aff_info_state AFF_STATE_OFF;;
      psci_dsbish;;
      psci_inv_cpu_data;;
      when ENABLE_RUNTIME_INSTRUMENTATION (emit EvTimestamp);;
      opt_wplat (PlatPwrDown state_info) ((λ f, f state_info) <$> pwr_domain_pwr_down ops);;
      psci_pwrdown_cpu_end_terminal
    else ret rc.

(** ** psci_suspend.c *)

Definition psci_cpu_suspend_to_standby_finish (end_pwrlvl : Z)
    (state_info : psci_power_state_t) : PM unit :=
  ops ← pm_ops;
  call_plat (PlatSuspendFinish state_info) ((λ f, f state_info) <$> pwr_domain_suspend_finish ops);;
  psci_set_suspend_pwrlvl PLAT_MAX_PWR_LVL.

Definition psci_suspend_to_pwrdown_start (idx end_pwrlvl max_off_lvl : Z)
    (state_info : psci_power_state_t) : PM unit :=
  emit EvPublish;;
  mode ← gets psci_suspend_mode;
  let end_pwrlvl := if PSCI_OS_INIT_MODE && (mode =? OS_INIT) then max_suspend_pwrlvl
                    else end_pwrlvl in
  psci_set_suspend_pwrlvl end_pwrlvl;;
  psci_flush_cpu_data;;
  notify_spd (SvcSuspend max_off_lvl) (λ pm, (λ f, f max_off_lvl) <$> svc_suspend pm);;
  ops ← pm_ops;
  when (negb HW_ASSISTED_COHERENCY)
    (opt_plat (PlatSuspendPwrdownEarly state_info)
       ((λ f, f state_info) <$> pwr_domain_suspend_pwrdown_early ops));;
  psci_pwrdown_cpu_start max_off_lvl.

Definition psci_cpu_suspend_to_powerdown_finish (cpu_idx max_off_lvl : Z)
    (state_info : psci_power_state_t) (abandon : bool) : PM unit :=
  a ← psci_get_aff_info_state;
  c_assert (bool_decide (a = AFF_STATE_ON) && is_local_state_off (pds state_info PSCI_CPU_PWR_LVL));;
  ops ← pm_ops;
  call_plat (PlatSuspendFinish state_info) ((λ f, f state_info) <$> pwr_domain_suspend_finish ops);;
  when (negb (HW_ASSISTED_COHERENCY || WARMBOOT_ENABLE_DCACHE_EARLY)) (emit EvPwrupCacheMaint);;
  when USE_GIC_DRIVER (emit (EvGicCpuifEnable cpu_idx));;
  when (negb abandon) (emit EvWriteCntfrq);;
  notify_spd (SvcSuspendFinish max_off_lvl abandon)
    (λ pm, (λ f, f max_off_lvl abandon) <$> svc_suspend_finish pm);;
  psci_set_suspend_pwrlvl PLAT_MAX_PWR_LVL;;
  emit EvPublish.

(** Negotiation of the target state of a suspend: the two coordination modes
    and, in builds with OS-initiated mode, the platform's own validation. *)
Definition suspend_coordinate (idx end_pwrlvl : Z) (state_info : psci_power_state_t)
    : PM (Z * psci_power_state_t) :=
  mode ← gets psci_suspend_mode;
  '(rc, state_info) ←
    (if PSCI_OS_INIT_MODE && (mode =? OS_INIT) then
       rc ← psci_validate_state_coordination idx end_pwrlvl state_info;
       ret (rc, state_info)
     else
       st ← psci_do_state_coordination idx end_pwrlvl state_info;
       ret (PSCI_E_SUCCESS, st));
  if negb (rc =? PSCI_E_SUCCESS) then ret (rc, state_info)
  else
    ops ← pm_ops;
    match (if PSCI_OS_INIT_MODE then pwr_domain_validate_suspend ops else None) with
    | Some f =>
        emit (EvPlat (PlatValidateSuspend state_info));;
        rc ← call_hook (f state_info);
        when (negb (rc =? PSCI_E_SUCCESS)) (psci_set_pwr_domains_to_run idx max_suspend_pwrlvl);;
        ret (rc, state_info)
    | None => ret (rc, state_info)
    end.

(** From the negotiated state to the release of the locks before wfi; the
    result is [max_off_lvl]. *)
Definition suspend_enter (idx end_pwrlvl : Z) (state_info : psci_power_state_t)
    (is_power_down_state : Z) : PM Z :=
  psci_set_target_local_pwr_states idx end_pwrlvl state_info;;
  when ENABLE_PSCI_STAT (psci_stats_update_pwr_down idx end_pwrlvl state_info);;
  max_off_lvl ←
    (if negb (is_power_down_state =? 0) then
       psci_suspend_to_pwrdown_start idx end_pwrlvl end_pwrlvl state_info;;
       ret (psci_find_max_off_lvl state_info)
     else ret 0);
  when USE_GIC_DRIVER (emit (EvGicCpuifDisable idx));;
  ops ← pm_ops;
  call_plat (PlatSuspend state_info) ((λ f, f state_info) <$> pwr_domain_suspend ops);;
  when ENABLE_PSCI_STAT (emit (EvStatStart state_info));;
  ret max_off_lvl.

(** Waking up with the context retained, once the locks are taken again. *)
Definition suspend_exit (idx end_pwrlvl max_off_lvl : Z) (state_info : psci_power_state_t)
    (is_power_down_state : Z) : PM unit :=
  state_info ← psci_get_target_local_pwr_states idx end_pwrlvl state_info;
  when ENABLE_PSCI_STAT
    (emit (EvStatStop state_info);; psci_stats_update_pwr_up idx end_pwrlvl state_info);;
  (if negb (is_power_down_state =? 0) then
     psci_cpu_suspend_to_powerdown_finish idx max_off_lvl state_info true
   else psci_cpu_suspend_to_standby_finish end_pwrlvl state_info);;
  when USE_GIC_DRIVER (emit (EvGicCpuifEnable idx));;
  psci_set_pwr_domains_to_run idx end_pwrlvl.

Definition psci_cpu_suspend_start (idx end_pwrlvl : Z) (state_info : psci_power_state_t)
    (is_power_down_state : Z) : PM Z :=
  ops ← pm_ops;
  c_assert (bool_decide (is_Some (pwr_domain_suspend ops)) &&
            bool_decide (is_Some (pwr_domain_suspend_finish ops)));;
  parent_nodes ← psci_get_parent_pwr_domain_nodes idx end_pwrlvl;
  psci_acquire_pwr_domain_locks end_pwrlvl parent_nodes;;
  me ← my_core_pos;
  isr ← gets (λ s, read_isr_el1 me (hw s));
  if negb (isr =? 0) then
    psci_release_pwr_domain_locks end_pwrlvl parent_nodes;; ret PSCI_E_SUCCESS
  else
    '(rc, state_info) ← suspend_coordinate idx end_pwrlvl state_info;
    if negb (rc =? PSCI_E_SUCCESS) then
      psci_release_pwr_domain_locks end_pwrlvl parent_nodes;; ret rc
    else
      max_off_lvl ← suspend_enter idx end_pwrlvl state_info is_power_down_state;
      psci_release_pwr_domain_locks end_pwrlvl parent_nodes;;
      when ENABLE_RUNTIME_INSTRUMENTATION (emit EvTimestamp);;
      (if negb (is_power_down_state =? 0) then
         opt_wplat (PlatPwrDown state_info) ((λ f, f state_info) <$> pwr_domain_pwr_down ops);;
         psci_pwrdown_cpu_end_wakeup max_off_lvl
       else wfi);;
      when ENABLE_RUNTIME_INSTRUMENTATION (emit EvTimestamp);;
      psci_acquire_pwr_domain_locks end_pwrlvl parent_nodes;;
      suspend_exit idx end_pwrlvl max_off_lvl state_info is_power_down_state;;
      psci_release_pwr_domain_locks end_pwrlvl parent_nodes;;
      ret rc.

(** ** Warm boot (psci_common.c) *)

Definition psci_warmboot_entrypoint (cpu_idx : Z) : PM unit :=
  a ← psci_get_aff_info_state;
  if bool_decide (a = AFF_STATE_OFF) then panic
  else
    end_pwrlvl ← get_power_on_target_pwrlvl;
    parent_nodes ← psci_get_parent_pwr_domain_nodes cpu_idx end_pwrlvl;
    psci_acquire_pwr_domain_locks end_pwrlvl parent_nodes;;
    state_info ← psci_get_target_local_pwr_states cpu_idx end_pwrlvl power_state_run;
    when ENABLE_PSCI_STAT (emit (EvStatStop state_info));;
    a ← psci_get_aff_info_state;
    (if bool_decide (a = AFF_STATE_ON_PENDING) then psci_cpu_on_finish cpu_idx state_info
     else
       let max_off_lvl := psci_find_max_off_lvl state_info in
       c_assert (negb (max_off_lvl =? PSCI_INVALID_PWR_LVL));;
       psci_cpu_suspend_to_powerdown_finish cpu_idx max_off_lvl state_info false);;
    me ← my_core_pos;
    eps ← gets warmboot_ep_info;
    ep ← some (zget eps me);
    emit (EvCmInitMyContext ep);;
    emit EvCmPrepareEl3Exit;;
    psci_set_pwr_domains_to_run cpu_idx end_pwrlvl;;
    when ENABLE_PSCI_STAT (psci_stats_update_pwr_up cpu_idx end_pwrlvl state_info);;
    psci_release_pwr_domain_locks end_pwrlvl parent_nodes.
End Power.
