(* ===== verification/PsciSetup.v ===== *)
(** * Setup of the PSCI library (lib/psci/psci_setup.c)

    Construction of the power domain tree from the platform's breadth-first
    description, and of the capability bit field from the hooks it exports. *)

From stdpp Require Import base list numbers list_numbers.
From Stdlib Require Import ZArith Lia.
From S2P Require Import Prelude PsciTypes PsciCommon PsciStat PsciPower.
Open Scope Z_scope.
Open Scope mon_scope.

(** ** SMC function identifiers (psci.h) *)

Definition PSCI_VERSION : Z := 0x84000000.
Definition PSCI_CPU_SUSPEND_AARCH32 : Z := 0x84000001.
Definition PSCI_CPU_SUSPEND_AARCH64 : Z := 0xc4000001.
Definition PSCI_CPU_OFF : Z := 0x84000002.
Definition PSCI_CPU_ON_AARCH32 : Z := 0x84000003.
Definition PSCI_CPU_ON_AARCH64 : Z := 0xc4000003.
Definition PSCI_AFFINITY_INFO_AARCH32 : Z := 0x84000004.
Definition PSCI_AFFINITY_INFO_AARCH64 : Z := 0xc4000004.
Definition PSCI_MIG_AARCH32 : Z := 0x84000005.
Definition PSCI_MIG_INFO_UP_CPU_AARCH32 : Z := 0x84000007.
Definition PSCI_SYSTEM_OFF : Z := 0x84000008.
Definition PSCI_SYSTEM_RESET : Z := 0x84000009.
Definition PSCI_FEATURES : Z := 0x8400000A.
Definition PSCI_NODE_HW_STATE_AARCH32 : Z := 0x8400000d.
Definition PSCI_NODE_HW_STATE_AARCH64 : Z := 0xc400000d.
Definition PSCI_SYSTEM_SUSPEND_AARCH32 : Z := 0x8400000E.
Definition PSCI_SYSTEM_SUSPEND_AARCH64 : Z := 0xc400000E.
Definition PSCI_SET_SUSPEND_MODE : Z := 0x8400000F.
Definition PSCI_STAT_RESIDENCY_AARCH32 : Z := 0x84000010.
Definition PSCI_STAT_RESIDENCY_AARCH64 : Z := 0xc4000010.
Definition PSCI_STAT_COUNT_AARCH32 : Z := 0x84000011.
Definition PSCI_STAT_COUNT_AARCH64 : Z := 0xc4000011.
Definition PSCI_SYSTEM_RESET2_AARCH32 : Z := 0x84000012.
Definition PSCI_SYSTEM_RESET2_AARCH64 : Z := 0xc4000012.
Definition PSCI_MEM_PROTECT : Z := 0x84000013.
Definition PSCI_MEM_CHK_RANGE_AARCH32 : Z := 0x84000014.
Definition PSCI_MEM_CHK_RANGE_AARCH64 : Z := 0xc4000014.

Definition PSCI_GENERIC_CAP : Z :=
  Z.lor (Z.lor (define_psci_cap PSCI_VERSION) (define_psci_cap PSCI_AFFINITY_INFO_AARCH64))
        (define_psci_cap PSCI_FEATURES).

Section Setup.
Context `{cfg : Config} {H : Type} `{plat : Platform H}.
Abbreviation PM := (@PM H).

Definition psci_init_pwr_domain_node (node_idx parent_idx level : Z) : PM unit :=
  if PSCI_CPU_PWR_LVL <? level then
    c_assert (node_idx <? PSCI_NUM_NON_CPU_PWR_DOMAINS);;
    upd_non_cpu_node node_idx
      (λ n, NonCpuNode (cpu_start_idx n) (ncpus n) parent_idx PLAT_MAX_OFF_STATE level node_idx)
  else
    c_assert (node_idx <? PLATFORM_CORE_COUNT);;
    upd_cpu_node node_idx (λ n, CpuNode PSCI_INVALID_MPIDR parent_idx (cpu_lock n));;
    upd_cpu_data_by_index node_idx
      (λ _, CpuData AFF_STATE_OFF PLAT_MAX_PWR_LVL PLAT_MAX_OFF_STATE);;
    psci_flush_dcache_range;;
    emit (EvCmSetContext node_idx).

(** The body of [for (j = MAX - 1; j >= 0; j--)] for one CPU. *)
Fixpoint pwrlvl_limits_levels (n : nat) (cpu_idx : Z) (temp_index nodes_idx : list Z)
    : PM (list Z) :=
  match n with
  | O => ret nodes_idx
  | S n' =>
      let j := Z.of_nat n' in
      t ← some (zget temp_index j);
      o ← some (zget nodes_idx j);
      nodes_idx ←
        (if negb (t =? o) then
           upd_non_cpu_node t
             (λ n, NonCpuNode cpu_idx (ncpus n) (parent_node n) (nc_local_state n)
                              (level n) (lock_index n));;
           ret (zset nodes_idx j t)
         else ret nodes_idx);
      upd_non_cpu_node t
        (λ n, NonCpuNode (cpu_start_idx n) (u32 (ncpus n + 1)) (parent_node n)
                         (nc_local_state n) (level n) (lock_index n));;
      pwrlvl_limits_levels n' cpu_idx temp_index nodes_idx
  end.

Definition psci_update_pwrlvl_limits : PM unit :=
  n ← gets psci_plat_core_count;
  _ ← for_to 0 (n - 1)
    (λ cpu_idx nodes_idx,
       temp_index ← psci_get_parent_pwr_domain_nodes cpu_idx PLAT_MAX_PWR_LVL;
       pwrlvl_limits_levels (Z.to_nat PLAT_MAX_PWR_LVL) cpu_idx temp_index nodes_idx)
    (replicate (Z.to_nat PLAT_MAX_PWR_LVL) 0);
  ret tt.

(** The loop variables of populate_power_domain_tree(). *)
Record tree_vars := TreeVars {
  tv_j : Z;
  tv_node_index : Z;
  tv_parent_node_index : Z;
  tv_num_nodes_at_next_lvl : Z;
}.

(** One parent entry of the topology: a node for each of its children. *)
Definition populate_parent (topology : list Z) (lvl : Z) (v : tree_vars) : PM tree_vars :=
  c_assert (tv_parent_node_index v <=? PSCI_NUM_NON_CPU_PWR_DOMAINS);;
  num_children ← some (zget topology (tv_parent_node_index v));
  _ ← for_to (tv_node_index v) (tv_node_index v + num_children - 1)
    (λ j _, psci_init_pwr_domain_node (u16 j) (u32 (tv_parent_node_index v - 1)) lvl) tt;
  let j := tv_node_index v + num_children in
  ret (TreeVars j j (tv_parent_node_index v + 1) (tv_num_nodes_at_next_lvl v + num_children)).

(** [while (level >= PSCI_CPU_PWR_LVL)], from level [n - 1] down. *)
Fixpoint populate_levels (n : nat) (topology : list Z) (num_nodes_at_lvl : Z) (v : tree_vars)
    : PM tree_vars :=
  match n with
  | O => ret v
  | S n' =>
      let lvl := Z.of_nat n' in
      v ← for_to 0 (num_nodes_at_lvl - 1) (λ _ v, populate_parent topology lvl v)
            (TreeVars (tv_j v) (tv_node_index v) (tv_parent_node_index v) 0);
      let v' := if lvl - 1 =? PSCI_CPU_PWR_LVL
                then TreeVars (tv_j v) 0 (tv_parent_node_index v) (tv_num_nodes_at_next_lvl v)
                else v in
      populate_levels n' topology (tv_num_nodes_at_next_lvl v) v'
  end.

Definition populate_power_domain_tree (topology : list Z) : PM Z :=
  v ← populate_levels (Z.to_nat (PLAT_MAX_PWR_LVL + 1)) topology 1 (TreeVars 0 0 0 0);
  c_assert (tv_j v <=? PLATFORM_CORE_COUNT);;
  ret (tv_j v).

(** The capabilities the hooks of the platform give. *)
Definition caps_of_ops (ops : plat_psci_ops_t H) : Z :=
  let set {A} (o : option A) := bool_decide (is_Some o) in
  let add (b : bool) (fid : Z) (caps : Z) := if b then Z.lor caps (define_psci_cap fid) else caps in
  let susp := set (pwr_domain_suspend ops) && set (pwr_domain_suspend_finish ops) in
  let caps := PSCI_GENERIC_CAP in
  let caps := add (set (pwr_domain_off ops)) PSCI_CPU_OFF caps in
  let caps := add (set (pwr_domain_on ops) && set (pwr_domain_on_finish ops))
                PSCI_CPU_ON_AARCH64 caps in
  let caps := add (susp && set (validate_power_state ops)) PSCI_CPU_SUSPEND_AARCH64 caps in
  let caps := add (susp && set (get_sys_suspend_power_state ops)) PSCI_SYSTEM_SUSPEND_AARCH64 caps in
  let caps := add (susp && PSCI_OS_INIT_MODE) PSCI_SET_SUSPEND_MODE caps in
  let caps := add (set (system_off ops)) PSCI_SYSTEM_OFF caps in
  let caps := add (set (system_reset ops)) PSCI_SYSTEM_RESET caps in
  let caps := add (set (get_node_hw_state ops)) PSCI_NODE_HW_STATE_AARCH64 caps in
  let caps := add (set (read_mem_protect ops) && set (write_mem_protect ops))
                PSCI_MEM_PROTECT caps in
  let caps := add (set (mem_protect_chk ops)) PSCI_MEM_CHK_RANGE_AARCH64 caps in
  let caps := add (set (system_reset2 ops)) PSCI_SYSTEM_RESET2_AARCH64 caps in
  let caps := add ENABLE_PSCI_STAT PSCI_STAT_RESIDENCY_AARCH64 caps in
  add ENABLE_PSCI_STAT PSCI_STAT_COUNT_AARCH64 caps.

(** [lib_args_ok] is VERIFY_PSCI_LIB_ARGS_V1(lib_args).  populate_cpu_data()
    makes CPU [i]'s warmboot_ep_info pointer point to cell [i] of the array
    of the same name, which the state represents directly. *)
Definition psci_setup (lib_args_ok : bool) (mailbox_ep : Z) : PM Z :=
  cpu_idx ← my_core_pos;
  c_assert lib_args_ok;;
  psci_arch_setup;;
  n ← populate_power_domain_tree (plat_get_power_domain_tree_desc (H:=H));
  modify (set_psci_plat_core_count n);;
  psci_update_pwrlvl_limits;;
  m ← gets (λ s, read_mpidr_el1 cpu_idx (hw s));
  upd_cpu_node cpu_idx (with_mpidr (Z.land m MPIDR_AFFINITY_MASK));;
  psci_init_req_local_pwr_states;;
  psci_set_pwr_domains_to_run cpu_idx PLAT_MAX_PWR_LVL;;
  ops ← call_hook (plat_setup_psci_ops mailbox_ep);
  modify (set_psci_plat_pm_ops ops);;
  c_assert (bool_decide (is_Some ops));;
  psci_flush_dcache_range;;
  ops ← some ops;
  modify (set_psci_caps (caps_of_ops ops));;
  ret 0.

(** The statically initialised variables, before psci_setup(). *)
Definition psci_state_init (h : H) : psci_state H :=
  let nlvl := Z.to_nat PLAT_MAX_PWR_LVL in
  let ncpu := Z.to_nat PLATFORM_CORE_COUNT in
  let nnode := Z.to_nat PSCI_NUM_NON_CPU_PWR_DOMAINS in
  let stats := replicate (Z.to_nat PLAT_MAX_PWR_LVL_STATES) (PsciStat 0 0) in
  PsciState (replicate nlvl (replicate ncpu 0)) 0
    (replicate nnode (NonCpuNode 0 0 0 0 0 0)) (replicate nnode false)
    (replicate ncpu (CpuNode 0 0 false)) (replicate ncpu (CpuData AFF_STATE_ON 0 0))
    (replicate ncpu (EntryPoint 0 0 0 (replicate 8 0))) 0 PLAT_COORD None None
    (replicate nnode (-1)) (replicate ncpu stats) (replicate nnode stats) h [].
End Setup.
