(* ===== verification/PsciMain.v ===== *)
(** * PSCI front end

    The SMC interface of lib/psci/psci_main.c with the services of
    lib/psci/psci_system_off.c and lib/psci/psci_mem_protect.c. *)

From stdpp Require Import base list numbers list_numbers.
From Stdlib Require Import ZArith Lia.
From S2P Require Import Prelude PsciTypes PsciCommon PsciStat PsciPower PsciSetup.
Open Scope Z_scope.
Open Scope mon_scope.

(** ** SMC calling convention (include/lib/smccc.h) *)

Definition FUNCID_CC_SHIFT : Z := 30.
Definition FUNCID_CC_MASK : Z := 1.
Definition SMC_64 : Z := 1.
Definition SMC_32 : Z := 0.
Definition SMC_UNK : Z := -1.
Definition SMCCC_VERSION : Z := 0x80000000.
Definition GET_SMC_CC (id : Z) : Z := Z.land (Z.shiftr id FUNCID_CC_SHIFT) FUNCID_CC_MASK.
Definition GET_SMC_TYPE (id : Z) : Z := Z.land (Z.shiftr id 31) 1.
Definition GET_SMC_OEN (id : Z) : Z := Z.land (Z.shiftr id 24) 0x3f.
Definition is_std_svc_call (fid : Z) : bool := GET_SMC_OEN fid =? 4.
Definition is_valid_fast_smc (fid : Z) : bool :=
  (Z.land (Z.shiftr fid 16) 0xff =? 0) && (GET_SMC_TYPE fid =? 1).
Definition is_psci_fid (fid : Z) : bool := Z.land fid 0xffe0 =? 0.
Definition is_caller_non_secure `{Config} (flags : Z) : bool :=
  if ENABLE_RME then Z.land flags 0x21 =? 1 else negb (Z.land flags 1 =? 0).

Definition PSCI_CAP_64BIT_MASK : Z :=
  foldr Z.lor 0 (define_psci_cap <$>
    [PSCI_CPU_SUSPEND_AARCH64; PSCI_CPU_ON_AARCH64; PSCI_AFFINITY_INFO_AARCH64;
     PSCI_MIG_AARCH64; PSCI_MIG_INFO_UP_CPU_AARCH64; PSCI_NODE_HW_STATE_AARCH64;
     PSCI_SYSTEM_SUSPEND_AARCH64; PSCI_STAT_RESIDENCY_AARCH64; PSCI_STAT_COUNT_AARCH64;
     PSCI_SYSTEM_RESET2_AARCH64; PSCI_MEM_CHK_RANGE_AARCH64]).

Section Main.
Context `{cfg : Config} {H : Type} `{plat : Platform H}.
Abbreviation PM := (@PM H).

(** ** psci_main.c *)

Definition psci_cpu_on (target_cpu entrypoint context_id : Z) : PM Z :=
  let target_idx := u32 (plat_core_pos_by_mpidr (H:=H) target_cpu) in
  if negb (is_valid_mpidr (H:=H) target_cpu) then ret PSCI_E_INVALID_PARAMS
  else
    rc ← psci_validate_entry_point target_idx entrypoint context_id;
    if negb (rc =? PSCI_E_SUCCESS) then ret rc
    else psci_cpu_on_start target_cpu.

Definition psci_version : Z := Z.lor (Z.shiftl 1 16) 1.

(** The fast path of CPU_SUSPEND for a CPU standby state. *)
Definition cpu_standby_path (ops : plat_psci_ops_t H) (cpu_idx : Z)
    (state_info : psci_power_state_t) : PM Z :=
  match cpu_standby ops with
  | None => ret PSCI_E_INVALID_PARAMS
  | Some f =>
      let cpu_pd_state := pds state_info PSCI_CPU_PWR_LVL in
      psci_set_cpu_local_state cpu_pd_state;;
      when ENABLE_PSCI_STAT (emit (EvStatStart state_info));;
      when ENABLE_RUNTIME_INSTRUMENTATION (emit EvTimestamp);;
      emit (EvPlat (PlatCpuStandby cpu_pd_state));;
      call_whook (f cpu_pd_state);;
      psci_set_cpu_local_state PSCI_LOCAL_STATE_RUN;;
      when ENABLE_RUNTIME_INSTRUMENTATION (emit EvTimestamp);;
      when ENABLE_PSCI_STAT
        (emit (EvStatStop state_info);;
         psci_stats_update_pwr_up cpu_idx PSCI_CPU_PWR_LVL state_info);;
      ret PSCI_E_SUCCESS
  end.

Definition psci_cpu_suspend (power_state entrypoint context_id : Z) : PM Z :=
  cpu_idx ← my_core_pos;
  sme ← gets (λ s, sme_active cpu_idx (hw s));
  let power_state :=
    if ERRATA_SME_POWER_DOWN && sme then
      Z.land (Z.land power_state (not32 (Z.shiftl PSTATE_TYPE_MASK PSTATE_TYPE_SHIFT)))
             (not32 (Z.shiftl PSTATE_PWR_LVL_MASK PSTATE_PWR_LVL_SHIFT))
    else power_state in
  '(rc, state_info) ← psci_validate_power_state power_state power_state_run;
  if negb (rc =? PSCI_E_SUCCESS) then
    c_assert (rc =? PSCI_E_INVALID_PARAMS);; ret rc
  else
    let is_power_down_state := psci_get_pstate_type power_state in
    c_assert (psci_validate_suspend_req state_info is_power_down_state =? PSCI_E_SUCCESS);;
    let target_pwrlvl := psci_find_target_suspend_lvl state_info in
    if target_pwrlvl =? PSCI_INVALID_PWR_LVL then panic
    else
      ops ← pm_ops;
      if is_cpu_standby_req is_power_down_state target_pwrlvl then
        cpu_standby_path ops cpu_idx state_info
      else
        rc ← (if negb (is_power_down_state =? 0)
              then psci_validate_entry_point cpu_idx entrypoint context_id
              else ret PSCI_E_SUCCESS);
        if negb (rc =? PSCI_E_SUCCESS) then ret rc
        else psci_cpu_suspend_start cpu_idx target_pwrlvl state_info is_power_down_state.

Definition psci_system_suspend (entrypoint context_id : Z) : PM Z :=
  cpu_idx ← my_core_pos;
  garbage ← gets (λ s, uninit_power_state cpu_idx (hw s));
  last ← psci_is_last_on_cpu cpu_idx;
  if negb last then ret PSCI_E_DENIED
  else
    rc ← psci_validate_entry_point cpu_idx entrypoint context_id;
    if negb (rc =? PSCI_E_SUCCESS) then ret rc
    else
      state_info ← psci_query_sys_suspend_pwrstate garbage;
      if psci_find_target_suspend_lvl state_info <? PLAT_MAX_PWR_LVL then ret PSCI_E_DENIED
      else
        c_assert (psci_validate_suspend_req state_info PSTATE_TYPE_POWERDOWN =? PSCI_E_SUCCESS);;
        c_assert (is_local_state_off (pds state_info PLAT_MAX_PWR_LVL));;
        psci_cpu_suspend_start cpu_idx PLAT_MAX_PWR_LVL state_info PSTATE_TYPE_POWERDOWN.

Definition psci_cpu_off : PM Z :=
  rc ← psci_do_cpu_off PLAT_MAX_PWR_LVL;
  c_assert (rc =? PSCI_E_DENIED);;
  ret rc.

Definition psci_affinity_info (target_affinity lowest_affinity_level : Z) : PM Z :=
  if negb (is_valid_mpidr (H:=H) target_affinity) then ret PSCI_E_INVALID_PARAMS
  else if PSCI_CPU_PWR_LVL <? lowest_affinity_level then ret PSCI_E_INVALID_PARAMS
  else
    let target_idx := u32 (plat_core_pos_by_mpidr (H:=H) target_affinity) in
    flush_cpu_data_by_index target_idx;;
    a ← psci_get_aff_info_state_by_idx target_idx;
    ret (aff_info_code a).

Definition psci_migrate (target_cpu : Z) : PM Z :=
  if negb (is_valid_mpidr (H:=H) target_cpu) then ret PSCI_E_INVALID_PARAMS
  else
    '(rc, resident_cpu_mpidr) ← psci_spd_migrate_info 0;
    if negb (rc =? PSCI_TOS_UP_MIG_CAP) then
      ret (if rc =? PSCI_TOS_NOT_UP_MIG_CAP then PSCI_E_DENIED else PSCI_E_NOT_SUPPORTED)
    else
      me ← my_core_pos;
      my_mpidr ← gets (λ s, read_mpidr_el1 me (hw s));
      if negb (resident_cpu_mpidr =? my_mpidr) then ret PSCI_E_NOT_PRESENT
      else if negb (is_valid_mpidr (H:=H) target_cpu) then ret PSCI_E_INVALID_PARAMS
      else
        h ← spd_hook svc_migrate;
        c_assert (bool_decide (is_Some h));;
        f ← some h;
        rc ← call_spd (SvcMigrate my_mpidr target_cpu) (f my_mpidr target_cpu);
        c_assert ((rc =? PSCI_E_SUCCESS) || (rc =? PSCI_E_INTERN_FAIL));;
        ret rc.

Definition psci_migrate_info_type : PM Z :=
  '(rc, _) ← psci_spd_migrate_info 0; ret rc.

Definition psci_migrate_info_up_cpu : PM Z :=
  '(rc, resident_cpu_mpidr) ← psci_spd_migrate_info 0;
  ret (if negb (rc =? PSCI_TOS_NOT_UP_MIG_CAP) && negb (rc =? PSCI_TOS_UP_MIG_CAP)
       then u64 PSCI_E_INVALID_PARAMS else resident_cpu_mpidr).

Definition psci_node_hw_state (target_cpu power_level : Z) : PM Z :=
  if negb (is_valid_mpidr (H:=H) target_cpu) then ret PSCI_E_INVALID_PARAMS
  else if PLAT_MAX_PWR_LVL <? power_level then ret PSCI_E_INVALID_PARAMS
  else
    ops ← pm_ops;
    c_assert (bool_decide (is_Some (get_node_hw_state ops)));;
    f ← some (get_node_hw_state ops);
    rc ← call_hook (f target_cpu power_level);
    c_assert (((HW_ON <=? rc) && (rc <=? HW_STANDBY)) || (rc =? PSCI_E_NOT_SUPPORTED)
              || (rc =? PSCI_E_INVALID_PARAMS));;
    ret rc.

(** The feature flags of CPU_SUSPEND. *)
Definition cpu_suspend_features : Z :=
  Z.lor (Z.shiftl (if PSCI_EXTENDED_STATE_ID then 1 else 0) 1)
        (Z.shiftl (if PSCI_OS_INIT_MODE then 1 else 0) 0).

Definition psci_features_of (caps psci_fid : Z) : Z :=
  if psci_fid =? SMCCC_VERSION then PSCI_E_SUCCESS
  else
    let local_caps := if GET_SMC_CC psci_fid =? SMC_64 then Z.land caps PSCI_CAP_64BIT_MASK
                      else caps in
    if negb (is_std_svc_call psci_fid && is_valid_fast_smc psci_fid && is_psci_fid psci_fid)
    then PSCI_E_NOT_SUPPORTED
    else if Z.land local_caps (define_psci_cap psci_fid) =? 0 then PSCI_E_NOT_SUPPORTED
    else if (psci_fid =? PSCI_CPU_SUSPEND_AARCH32) || (psci_fid =? PSCI_CPU_SUSPEND_AARCH64)
    then cpu_suspend_features
    else PSCI_E_SUCCESS.

Definition psci_features (psci_fid : Z) : PM Z :=
  caps ← gets psci_caps; ret (psci_features_of caps psci_fid).

Definition psci_set_suspend_mode (mode : Z) : PM Z :=
  cur ← gets psci_suspend_mode;
  if cur =? mode then ret PSCI_E_SUCCESS
  else
    this_core ← my_core_pos;
    denied1 ← (if mode =? PLAT_COORD then
                 last ← psci_is_last_on_cpu_safe this_core; ret (negb last)
               else ret false);
    if denied1 : bool then ret PSCI_E_DENIED
    else
      denied2 ← (if mode =? OS_INIT then
                   all ← psci_are_all_cpus_on_safe this_core;
                   if all : bool then ret false
                   else last ← psci_is_last_on_cpu_safe this_core; ret (negb last)
                 else ret false);
      if denied2 : bool then ret PSCI_E_DENIED
      else
        modify (set_psci_suspend_mode mode);;
        psci_flush_dcache_range;;
        ret PSCI_E_SUCCESS.

(** ** psci_system_off.c *)

Definition system_off_prologue (ev : spd_call) (f : spd_pm_ops_t H → option (hook H unit)) : PM unit :=
  me ← my_core_pos;
  notify_spd ev f;;
  emit EvConsoleFlush;;
  when USE_GIC_DRIVER (emit (EvGicCpuifDisable me)).

Definition psci_system_off : PM Z :=
  ops ← pm_ops;
  c_assert (bool_decide (is_Some (system_off ops)));;
  system_off_prologue SvcSystemOff svc_system_off;;
  call_wplat PlatSystemOff (system_off ops);;
  psci_pwrdown_cpu_end_terminal.

Definition psci_system_reset : PM Z :=
  ops ← pm_ops;
  c_assert (bool_decide (is_Some (system_reset ops)));;
  system_off_prologue SvcSystemReset svc_system_reset;;
  call_wplat PlatSystemReset (system_reset ops);;
  psci_pwrdown_cpu_end_terminal.

Definition psci_system_reset2 (reset_type cookie : Z) : PM Z :=
  ops ← pm_ops;
  c_assert (bool_decide (is_Some (system_reset2 ops)));;
  let is_vendor := Z.land (Z.shiftr reset_type 31) 1 in
  refuse ← (if is_vendor =? 0 then
              if negb (reset_type =? 0) then ret (Some (u64 PSCI_E_INVALID_PARAMS))
              else match write_mem_protect ops with
                   | Some f =>
                       emit (EvPlat (PlatWriteMemProtect 0));;
                       rc ← call_hook (f 0);
                       ret (if rc <? 0 then Some (u64 PSCI_E_NOT_SUPPORTED) else None)
                   | None => ret None
                   end
            else ret None);
  match refuse with
  | Some rc => ret rc
  | None =>
      system_off_prologue SvcSystemReset svc_system_reset;;
      rc ← call_wplat (PlatSystemReset2 is_vendor reset_type cookie)
             ((λ f, f is_vendor reset_type cookie) <$> system_reset2 ops);
      if negb (u64 rc =? PSCI_E_SUCCESS) then ret (u64 rc)
      else psci_pwrdown_cpu_end_terminal
  end.

(** ** psci_mem_protect.c *)

Definition psci_mem_protect (enable : Z) : PM Z :=
  ops ← pm_ops;
  c_assert (bool_decide (is_Some (read_mem_protect ops)));;
  c_assert (bool_decide (is_Some (write_mem_protect ops)));;
  rd ← some (read_mem_protect ops);
  '(rc, val) ← call_hook rd;
  if rc <? 0 then ret (u64 PSCI_E_NOT_SUPPORTED)
  else
    wr ← some (write_mem_protect ops);
    emit (EvPlat (PlatWriteMemProtect enable));;
    rc ← call_hook (wr enable);
    ret (if rc <? 0 then u64 PSCI_E_NOT_SUPPORTED else if negb (val =? 0) then 1 else 0).

Definition UINTPTR_MAX : Z := 2 ^ 64 - 1.
Definition check_uptr_overflow (ptr inc : Z) : bool := u64 (UINTPTR_MAX - inc) <? ptr.

Definition psci_mem_chk_range (base length : Z) : PM Z :=
  ops ← pm_ops;
  c_assert (bool_decide (is_Some (mem_protect_chk ops)));;
  if (length =? 0) || check_uptr_overflow base (u64 (length - 1)) then ret (u64 PSCI_E_DENIED)
  else
    f ← some (mem_protect_chk ops);
    rc ← call_hook (f base length);
    ret (if rc <? 0 then u64 PSCI_E_DENIED else u64 PSCI_E_SUCCESS).

(** ** The SMC dispatcher *)

(** [ret = (u_register_t)f()] for an [int] result. *)
Definition as_reg (m : PM Z) : PM Z := rc ← m; ret (u64 rc).

Definition psci_smc_handler_32 (smc_fid r1 r2 r3 : Z) : PM Z :=
  if smc_fid =? PSCI_VERSION then ret psci_version
  else if smc_fid =? PSCI_CPU_OFF then as_reg psci_cpu_off
  else if smc_fid =? PSCI_CPU_SUSPEND_AARCH32 then as_reg (psci_cpu_suspend r1 r2 r3)
  else if smc_fid =? PSCI_CPU_ON_AARCH32 then as_reg (psci_cpu_on r1 r2 r3)
  else if smc_fid =? PSCI_AFFINITY_INFO_AARCH32 then as_reg (psci_affinity_info r1 r2)
  else if smc_fid =? PSCI_MIG_AARCH32 then as_reg (psci_migrate r1)
  else if smc_fid =? PSCI_MIG_INFO_TYPE then as_reg psci_migrate_info_type
  else if smc_fid =? PSCI_MIG_INFO_UP_CPU_AARCH32 then psci_migrate_info_up_cpu
  else if smc_fid =? PSCI_NODE_HW_STATE_AARCH32 then as_reg (psci_node_hw_state r1 r2)
  else if smc_fid =? PSCI_SYSTEM_SUSPEND_AARCH32 then as_reg (psci_system_suspend r1 r2)
  else if smc_fid =? PSCI_SYSTEM_OFF then psci_system_off
  else if smc_fid =? PSCI_SYSTEM_RESET then psci_system_reset
  else if smc_fid =? PSCI_FEATURES then as_reg (psci_features r1)
  else if PSCI_OS_INIT_MODE && (smc_fid =? PSCI_SET_SUSPEND_MODE)
    then as_reg (psci_set_suspend_mode r1)
  else if ENABLE_PSCI_STAT && (smc_fid =? PSCI_STAT_RESIDENCY_AARCH32)
    then psci_stat_residency r1 r2
  else if ENABLE_PSCI_STAT && (smc_fid =? PSCI_STAT_COUNT_AARCH32) then psci_stat_count r1 r2
  else if smc_fid =? PSCI_MEM_PROTECT then psci_mem_protect r1
  else if smc_fid =? PSCI_MEM_CHK_RANGE_AARCH32 then psci_mem_chk_range r1 r2
  else if smc_fid =? PSCI_SYSTEM_RESET2_AARCH32 then psci_system_reset2 r1 r2
  else ret (u64 SMC_UNK).

Definition psci_smc_handler_64 (smc_fid x1 x2 x3 : Z) : PM Z :=
  if smc_fid =? PSCI_CPU_SUSPEND_AARCH64 then as_reg (psci_cpu_suspend (u32 x1) x2 x3)
  else if smc_fid =? PSCI_CPU_ON_AARCH64 then as_reg (psci_cpu_on x1 x2 x3)
  else if smc_fid =? PSCI_AFFINITY_INFO_AARCH64 then as_reg (psci_affinity_info x1 (u32 x2))
  else if smc_fid =? PSCI_MIG_AARCH64 then as_reg (psci_migrate x1)
  else if smc_fid =? PSCI_MIG_INFO_UP_CPU_AARCH64 then psci_migrate_info_up_cpu
  else if smc_fid =? PSCI_NODE_HW_STATE_AARCH64 then as_reg (psci_node_hw_state x1 (u32 x2))
  else if smc_fid =? PSCI_SYSTEM_SUSPEND_AARCH64 then as_reg (psci_system_suspend x1 x2)
  else if ENABLE_PSCI_STAT && (smc_fid =? PSCI_STAT_RESIDENCY_AARCH64)
    then psci_stat_residency x1 (u32 x2)
  else if ENABLE_PSCI_STAT && (smc_fid =? PSCI_STAT_COUNT_AARCH64)
    then psci_stat_count x1 (u32 x2)
  else if smc_fid =? PSCI_MEM_CHK_RANGE_AARCH64 then psci_mem_chk_range x1 x2
  else if smc_fid =? PSCI_SYSTEM_RESET2_AARCH64 then psci_system_reset2 (u32 x1) x2
  else ret (u64 SMC_UNK).

Definition psci_smc_handler (smc_fid x1 x2 x3 flags : Z) : PM Z :=
  if negb (is_caller_non_secure flags) then ret (u64 SMC_UNK)
  else
    caps ← gets psci_caps;
    if Z.land caps (define_psci_cap smc_fid) =? 0 then ret (u64 SMC_UNK)
    else if GET_SMC_CC smc_fid =? SMC_32 then
      psci_smc_handler_32 smc_fid (u32 x1) (u32 x2) (u32 x3)
    else psci_smc_handler_64 smc_fid x1 x2 x3.
End Main.
