(* ===== verification/MtkPlat.v ===== *)
(** * MediaTek MT7981 platform port

    The power management hooks of plat/mediatek/apsoc_common/bl31/plat_pm.c
    and plat/mediatek/mt7981/bl31/bl31_plat_pm.c, the topology of
    plat_topology.c, the SPMC driver (mt7981/drivers/spmc/mtspmc.c) and the
    watchdog driver (apsoc_common/drivers/wdt/mtk_wdt.c). *)

From stdpp Require Import base gmap list vector numbers list_numbers.
From Stdlib Require Import ZArith Lia.
From S2P Require Import Prelude PsciTypes PsciCommon PsciPower PsciStat.
Open Scope Z_scope.

(** ** Platform constants (mt7981/include) *)

Definition PLATFORM_SYSTEM_COUNT : Z := 1.
Definition PLATFORM_CLUSTER_COUNT : Z := 1.
Definition PLATFORM_CLUSTER0_CORE_COUNT : Z := 2.
Definition PLATFORM_CLUSTER1_CORE_COUNT : Z := 0.
Definition PLATFORM_MAX_CPUS_PER_CLUSTER : Z := 2.

(** The MT7981 build: the generic constants of platform_def.h, the defaults of
    make_helpers/defaults.mk, and a choice of the diagnostic options. *)
Definition mt7981_config (assertions instrumentation extended_id : bool) : Config := {|
  PLAT_MAX_PWR_LVL := 2;
  PLAT_MAX_RET_STATE := 1;
  PLAT_MAX_OFF_STATE := 2;
  PLATFORM_CORE_COUNT := PLATFORM_CLUSTER1_CORE_COUNT + PLATFORM_CLUSTER0_CORE_COUNT;
  PSCI_NUM_PWR_DOMAINS := 2 * (PLATFORM_CLUSTER1_CORE_COUNT + PLATFORM_CLUSTER0_CORE_COUNT);
  PLAT_MAX_CPU_SUSPEND_PWR_LVL := None;
  PLAT_MAX_PWR_LVL_STATES := 2;
  ENABLE_ASSERTIONS := assertions;
  PSCI_OS_INIT_MODE := false;
  ENABLE_PSCI_STAT := false;
  PSCI_EXTENDED_STATE_ID := extended_id;
  HW_ASSISTED_COHERENCY := false;
  USE_COHERENT_MEM := true;
  WARMBOOT_ENABLE_DCACHE_EARLY := false;
  USE_GIC_DRIVER := true;
  ERRATA_SME_POWER_DOWN := false;
  ENABLE_RUNTIME_INSTRUMENTATION := instrumentation;
  ENABLE_RME := false;
|}.

Definition MTK_LOCAL_STATE_RUN : Z := 0.
Definition MTK_LOCAL_STATE_RET : Z := 1.
Definition MTK_LOCAL_STATE_OFF : Z := 2.
Definition MTK_PWR_LVL0 : Z := 0.
Definition MTK_PWR_LVL1 : Z := 1.
Definition MTK_PWR_LVL2 : Z := 2.

Definition MPIDR_AFFLVL_MASK : Z := 0xff.
Definition MPIDR_CPU_MASK : Z := MPIDR_AFFLVL_MASK.
Definition MPIDR_AFFINITY_BITS : Z := 8.
Definition MPIDR_CLUSTER_MASK : Z := Z.shiftl MPIDR_AFFLVL_MASK MPIDR_AFFINITY_BITS.
Definition MPIDR_AFF0_SHIFT : Z := 0.
Definition MPIDR_AFF1_SHIFT : Z := 8.

(** ** Registers *)

Definition MCUCFG_BASE : Z := 0x10400000.
Definition mp0_misc_config2 : Z := MCUCFG_BASE + 0x38.
Definition mp0_misc_config3 : Z := MCUCFG_BASE + 0x3c.
Definition mp0_misc_config4 : Z := MCUCFG_BASE + 0x40.
Definition MP0_CPUCFG_64BIT : Z := Z.shiftl 0xf 12.
Definition CPUSYS0_CPUx_SPMC_CTL (cpu : Z) : Z := MCUCFG_BASE + 0x1c30 + 4 * cpu.

Definition TOP_MISC_BASE : Z := 0x11D10000.
Definition MCU_SPMC_MODE_CON : Z := TOP_MISC_BASE + 0x020.
Definition MP0_TOP_SPMC_PWR_CON : Z := TOP_MISC_BASE + 0x024.
Definition MP0_CPUx_SPMC_PWR_CON (cpu : Z) : Z := TOP_MISC_BASE + 0x028 + 4 * cpu.
Definition MCU_MISC : Z := TOP_MISC_BASE + 0x108.
Definition MP0_CPUx_STANDBYWFI (cpu : Z) : Z := Z.shiftl 1 (6 + cpu).
Definition PWR_ACK : Z := Z.shiftl 1 30.
Definition PWR_CLK_DIS : Z := Z.shiftl 1 3.
Definition PWR_ON : Z := Z.shiftl 1 1.
Definition PWR_RST_B : Z := Z.shiftl 1 0.
Definition cpu_sw_no_wait_for_q_channel : Z := Z.shiftl 1 1.

Definition WDT_BASE : Z := 0x1001C000.
Definition WDT_MODE : Z := 0x00.
Definition WDT_RESTART : Z := 0x08.
Definition WDT_SWRST : Z := 0x14.
Definition WDT_NONRST : Z := 0x20.
Definition WDT_NONRST2 : Z := 0x24.
Definition WDT_MODE_KEY : Z := 0x22000000.
Definition WDT_MODE_DUAL_MODE : Z := Z.shiftl 1 6.
Definition WDT_MODE_IRQ : Z := Z.shiftl 1 3.
Definition WDT_MODE_EXTEN : Z := Z.shiftl 1 2.
Definition WDT_MODE_ENABLE : Z := Z.shiftl 1 0.
Definition WDT_RESTART_KEY : Z := 0x1971.
Definition WDT_SWRST_KEY : Z := 0x1209.

Definition MTK_DDR_RESERVE_MODE : Z := 0x1001D000.
Definition MTK_DDR_RESERVE_ENABLE : Z := 0x0001.
Definition MTK_DDR_RESERVE_KEY : Z := 0x22000000.

Definition STA_POWER_DOWN : Z := 0.
Definition STA_POWER_ON : Z := 1.
Definition MODE_SPMC_HW : Z := 0.
Definition MODE_AUTO_SHUT_OFF : Z := 1.

Definition SCR_IRQ_BIT : Z := Z.shiftl 1 1.

(** ** Hardware and platform state *)

(** The system registers the port touches, of one CPU. *)
Record cpu_sysregs := CpuSysregs {
  cntkctl_el1 : Z;
  cntp_cval_el0 : Z;
  cntp_tval_el0 : Z;
  cntp_ctl_el0 : Z;
  cntv_tval_el0 : Z;
  cntv_ctl_el0 : Z;
  cpuectlr : Z;
  scr_el3 : Z;
  sctlr_el1 : Z;
  sctlr_el2 : Z;
  isr_el1 : Z;
}.

(** Accesses to an array of fixed size, [None] outside it. *)
Definition vget {A n} (v : vec A n) (i : Z) : option A := zget (vec_to_list v) i.
Fixpoint vset {A n} (v : vec A n) (i : nat) (x : A) : vec A n :=
  match v with
  | [#] => [#]
  | y ::: v' => match i with O => x ::: v' | S i' => y ::: vset v' i' x end
  end.
Definition vput {A n} (v : vec A n) (i : Z) (x : A) : option (vec A n) :=
  if decide (0 ≤ i < Z.of_nat n) then Some (vset v (Z.to_nat i) x) else None.

(** The saved context of one core, of a cluster, and of the system. *)
Record core_context := CoreContext {
  timer_data : vec Z 8;
  cc_count : Z;
  cc_rst : Z;
  cc_abt : Z;
  cc_brk : Z;
}.
Definition with_timer_data (t : vec Z 8) (c : core_context) : core_context :=
  CoreContext t (cc_count c) (cc_rst c) (cc_abt c) (cc_brk c).

Definition cluster_context : Type := vec core_context (Z.to_nat PLATFORM_MAX_CPUS_PER_CLUSTER).
Definition system_context : Type := vec cluster_context (Z.to_nat PLATFORM_CLUSTER_COUNT).

Record mtk_hw := MtkHw {
  regs : gmap Z Z; (** memory-mapped registers *)
  sysregs : list cpu_sysregs;
  dormant_data : system_context; (** dormant_data[0] *)
  cpu_bitmask : Z;
  secure_entrypoint : Z;
  console_registered : bool;
}.

Definition set_regs (r : gmap Z Z) (h : mtk_hw) : mtk_hw :=
  MtkHw r (sysregs h) (dormant_data h) (cpu_bitmask h) (secure_entrypoint h) (console_registered h).
Definition set_sysregs (r : list cpu_sysregs) (h : mtk_hw) : mtk_hw :=
  MtkHw (regs h) r (dormant_data h) (cpu_bitmask h) (secure_entrypoint h) (console_registered h).
Definition set_dormant_data (d : system_context) (h : mtk_hw) : mtk_hw :=
  MtkHw (regs h) (sysregs h) d (cpu_bitmask h) (secure_entrypoint h) (console_registered h).
Definition set_cpu_bitmask (b : Z) (h : mtk_hw) : mtk_hw :=
  MtkHw (regs h) (sysregs h) (dormant_data h) b (secure_entrypoint h) (console_registered h).
Definition set_secure_entrypoint (e : Z) (h : mtk_hw) : mtk_hw :=
  MtkHw (regs h) (sysregs h) (dormant_data h) (cpu_bitmask h) e (console_registered h).
Definition set_console_registered (b : bool) (h : mtk_hw) : mtk_hw :=
  MtkHw (regs h) (sysregs h) (dormant_data h) (cpu_bitmask h) (secure_entrypoint h) b.

(** What the port does not define: how the hardware evolves while a loop polls
    a register, after how many polls it has acknowledged at the latest, its
    reaction to the calls the library records, the CPU driver's power down
    handlers, the contents of uninitialised memory, and the MPIDR_EL1 of each
    CPU, a read-only register. *)
Class MtkEnv := {
  poll_step : mtk_hw → mtk_hw;
  poll_bound : nat;
  env_event : event → Z → mtk_hw → mtk_hw;
  env_cpu_pwr_dwn : Z → option (hook mtk_hw Z);
  env_stack : Z → mtk_hw → list Z;
  mpidr_el1 : Z → Z;
}.

(** ** Sequencing of hooks *)

Section Hooks.
Context {H : Type}.
Definition hret {A} (a : A) : hook H A := λ _ h, HRet a h.
Definition hbind {A B} (m : hook H A) (f : A → hook H B) : hook H B :=
  λ me h, match m me h with
          | HRet a h' => f a me h'
          | HDead h' => HDead h'
          | HPanic h' => HPanic h'
          | HFault => HFault
          end.
Definition hmod (f : H → H) : hook H unit := λ _ h, HRet tt (f h).
Definition hget {A} (f : Z → H → A) : hook H A := λ me h, HRet (f me h) h.
Definition hpanic {A} : hook H A := λ _ h, HPanic h.
Definition hfault {A} : hook H A := λ _ _, HFault.
(** An access outside an array or through NULL is undefined. *)
Definition hsome {A} (o : option A) : hook H A :=
  match o with Some a => hret a | None => hfault end.
(** assert(), in builds with assertions. *)
Definition hassert `{Config} (b : bool) : hook H unit :=
  if ENABLE_ASSERTIONS && negb b then hfault else hret tt.
(** A hook that waits once and goes on with [k]. *)
Definition hwfi {A B} (m : hook H A) (k : A → hook H B) : whook H B :=
  λ me h, match m me h with
          | HRet a h' => WWfi h' (λ h'', WNow (k a me h''))
          | HDead h' => WNow (HDead h')
          | HPanic h' => WNow (HPanic h')
          | HFault => WNow HFault
          end.
End Hooks.

Declare Scope hook_scope.
Delimit Scope hook_scope with hook.
Notation "x ← y ; z" := (hbind y (λ x, z))
  (at level 20, y at level 100, z at level 200, only parsing) : hook_scope.
Notation "x ;; z" := (hbind x (λ _, z))
  (at level 100, z at level 200, only parsing, right associativity) : hook_scope.
Notation "'when' b m" := (if b then m else hret tt)
  (at level 60, b at level 9, m at level 60) : hook_scope.
Open Scope hook_scope.

Abbreviation mhook := (hook mtk_hw).

(** ** Accesses to the hardware *)

Definition mmio_read_32 (addr : Z) : mhook Z := hget (λ _ h, default 0 (regs h !! addr)).
Definition mmio_write_32 (addr val : Z) : mhook unit :=
  hmod (λ h, set_regs (<[addr := u32 val]> (regs h)) h).
Definition mmio_clrbits_32 (addr clear : Z) : mhook unit :=
  v ← mmio_read_32 addr; mmio_write_32 addr (Z.land v (not32 clear)).
Definition mmio_setbits_32 (addr set : Z) : mhook unit :=
  v ← mmio_read_32 addr; mmio_write_32 addr (Z.lor v set).

Definition no_sysregs : cpu_sysregs := CpuSysregs 0 0 0 0 0 0 0 0 0 0 0.
Definition sysregs_of (me : Z) (h : mtk_hw) : cpu_sysregs := default no_sysregs (zget (sysregs h) me).
Definition upd_sysregs (f : cpu_sysregs → cpu_sysregs) : mhook unit :=
  λ me h, HRet tt (set_sysregs (zset (sysregs h) me (f (sysregs_of me h))) h).
Definition read_sysreg (f : cpu_sysregs → Z) : mhook Z := hget (λ me h, f (sysregs_of me h)).

Definition with_cntp_ctl (v : Z) (r : cpu_sysregs) : cpu_sysregs :=
  CpuSysregs (cntkctl_el1 r) (cntp_cval_el0 r) (cntp_tval_el0 r) v (cntv_tval_el0 r)
    (cntv_ctl_el0 r) (cpuectlr r) (scr_el3 r) (sctlr_el1 r) (sctlr_el2 r) (isr_el1 r).
Definition with_cpuectlr (v : Z) (r : cpu_sysregs) : cpu_sysregs :=
  CpuSysregs (cntkctl_el1 r) (cntp_cval_el0 r) (cntp_tval_el0 r) (cntp_ctl_el0 r) (cntv_tval_el0 r)
    (cntv_ctl_el0 r) v (scr_el3 r) (sctlr_el1 r) (sctlr_el2 r) (isr_el1 r).
Definition with_scr (v : Z) (r : cpu_sysregs) : cpu_sysregs :=
  CpuSysregs (cntkctl_el1 r) (cntp_cval_el0 r) (cntp_tval_el0 r) (cntp_ctl_el0 r) (cntv_tval_el0 r)
    (cntv_ctl_el0 r) (cpuectlr r) v (sctlr_el1 r) (sctlr_el2 r) (isr_el1 r).
Definition with_timer (a b c d e f : Z) (r : cpu_sysregs) : cpu_sysregs :=
  CpuSysregs a b c d e f (cpuectlr r) (scr_el3 r) (sctlr_el1 r) (sctlr_el2 r) (isr_el1 r).

(** ** Watchdog (mtk_wdt.c) *)

Definition wdt_read (reg : Z) : mhook Z := mmio_read_32 (WDT_BASE + reg).
Definition wdt_write (reg val : Z) : mhook unit := mmio_write_32 (WDT_BASE + reg) val.
Definition wdt_rmw (reg clr set : Z) : mhook unit :=
  val ← mmio_read_32 (WDT_BASE + reg);
  mmio_write_32 (WDT_BASE + reg) (Z.lor (Z.land val (not32 clr)) set).

Definition mtk_wdt_control (enable : bool) : mhook unit :=
  val ← wdt_read WDT_MODE;
  if enable then hret tt
  else when (cbool (Z.land val WDT_MODE_ENABLE)) (wdt_write WDT_MODE WDT_MODE_KEY).

Definition mtk_wdt_soft_reset : mhook unit :=
  wdt_rmw WDT_MODE (Z.lor WDT_MODE_DUAL_MODE WDT_MODE_IRQ) WDT_MODE_KEY;;
  wdt_rmw WDT_MODE 0 (Z.lor WDT_MODE_KEY WDT_MODE_EXTEN);;
  wdt_rmw WDT_RESTART 0 WDT_RESTART_KEY;;
  wdt_rmw WDT_SWRST 0 WDT_SWRST_KEY.

Definition mtk_wdt_read_nonrst (index : Z) : mhook Z :=
  if index =? 0 then wdt_read WDT_NONRST
  else if index =? 1 then wdt_read WDT_NONRST2
  else hret 0.

Definition mtk_wdt_write_nonrst (index val : Z) : mhook unit :=
  if index =? 0 then wdt_write WDT_NONRST val
  else if index =? 1 then wdt_write WDT_NONRST2 val
  else hret tt.

(** ** SPMC driver (mtspmc.c) *)

Section Spmc.
Context `{env : MtkEnv}.

(** [while (!cond) ;]: the hardware evolves between two polls; a loop that
    outlasts the bound spins for ever. *)
Fixpoint poll_until (n : nat) (cond : mtk_hw → bool) : mhook unit :=
  λ me h, if cond h then HRet tt h
          else match n with
               | O => HDead h
               | S n' => poll_until n' cond me (poll_step h)
               end.

Definition reg_of (addr : Z) (h : mtk_hw) : Z := default 0 (regs h !! addr).

Definition set_cpu_retention_control (retention_value : Z) : mhook unit :=
  v ← read_sysreg cpuectlr;
  upd_sysregs (with_cpuectlr (Z.lor (u64 (Z.shiftl (Z.shiftr v 3) 3)) retention_value)).

(** The register tables have an entry for cluster 0 only. *)
Definition MCUCFG_BOOTADDR (cluster cpu : Z) : option Z :=
  if cluster =? 0 then Some (mp0_misc_config2 + Z.shiftl cpu 3) else None.
Definition MCUCFG_INITARCH (cluster : Z) : option Z :=
  if cluster =? 0 then Some mp0_misc_config3 else None.

Definition mcucfg_set_bootaddr (cluster cpu bootaddr : Z) : mhook unit :=
  reg ← hsome (MCUCFG_BOOTADDR cluster cpu); mmio_write_32 reg bootaddr.
Definition mcucfg_get_bootaddr (cluster cpu : Z) : mhook Z :=
  reg ← hsome (MCUCFG_BOOTADDR cluster cpu); mmio_read_32 reg.

Definition mcucfg_init_archstate (cluster cpu arm64 : Z) : mhook unit :=
  reg ← hsome (MCUCFG_INITARCH cluster);
  if cbool arm64 then mmio_setbits_32 reg (Z.shiftl 1 (12 + cpu))
  else mmio_clrbits_32 reg (Z.shiftl 1 (12 + cpu)).

Definition spmc_init : mhook Z :=
  mmio_write_32 MCU_SPMC_MODE_CON 0;;
  mmio_clrbits_32 (MP0_CPUx_SPMC_PWR_CON 0) PWR_RST_B;;
  mmio_clrbits_32 (MP0_CPUx_SPMC_PWR_CON 1) PWR_RST_B;;
  mmio_clrbits_32 (MP0_CPUx_SPMC_PWR_CON 2) PWR_RST_B;;
  mmio_clrbits_32 (MP0_CPUx_SPMC_PWR_CON 3) PWR_RST_B;;
  mmio_clrbits_32 MP0_TOP_SPMC_PWR_CON PWR_RST_B;;
  mmio_clrbits_32 MP0_TOP_SPMC_PWR_CON PWR_CLK_DIS;;
  hmod (set_cpu_bitmask 1);;
  hret 0.

(** The registers of a core; the switch leaves zeros for a core that does not
    exist and goes on. *)
Definition spmc_regs (linear_id : Z) : Z * Z * Z :=
  if (0 <=? linear_id) && (linear_id <=? 3) then
    (CPUSYS0_CPUx_SPMC_CTL linear_id, MP0_CPUx_SPMC_PWR_CON linear_id, MP0_CPUx_STANDBYWFI linear_id)
  else (0, 0, 0).

Definition spmc_cpu_corex_onoff (linear_id state mode : Z) : mhook Z :=
  let '(CPUSYSx_CPUx_SPMC_CTL, MPx_CPUx_PWR_CON, MPx_CPUx_STANDBYWFI) := spmc_regs linear_id in
  let MPx_CPUx_PWR_STA_MASK := PWR_ACK in
  if state =? STA_POWER_DOWN then
    mask ← hget (λ _ h, cpu_bitmask h);
    if Z.land mask (Z.shiftl 1 linear_id) =? 0 then hret 0
    else
      (if mode =? MODE_AUTO_SHUT_OFF then
         mmio_clrbits_32 CPUSYSx_CPUx_SPMC_CTL cpu_sw_no_wait_for_q_channel;;
         set_cpu_retention_control 1
       else
         mmio_setbits_32 CPUSYSx_CPUx_SPMC_CTL cpu_sw_no_wait_for_q_channel;;
         poll_until poll_bound (λ h, negb (Z.land (reg_of MCU_MISC h) MPx_CPUx_STANDBYWFI =? 0)));;
      mmio_clrbits_32 MPx_CPUx_PWR_CON PWR_ON;;
      when (mode =? MODE_SPMC_HW)
        (poll_until poll_bound (λ h, Z.land (reg_of MPx_CPUx_PWR_CON h) MPx_CPUx_PWR_STA_MASK =? 0));;
      hmod (λ h, set_cpu_bitmask (Z.land (cpu_bitmask h) (not32 (Z.shiftl 1 linear_id))) h);;
      hret 0
  else
    mmio_setbits_32 MPx_CPUx_PWR_CON PWR_ON;;
    poll_until poll_bound
      (λ h, Z.land (reg_of MPx_CPUx_PWR_CON h) MPx_CPUx_PWR_STA_MASK =? MPx_CPUx_PWR_STA_MASK);;
    hmod (λ h, set_cpu_bitmask (u32 (Z.lor (cpu_bitmask h) (Z.shiftl 1 linear_id))) h);;
    hret 0.

(** ** MT7981 power domain hooks (mt7981/bl31/bl31_plat_pm.c) *)

Definition mtk_plat_power_domain_on (mpidr : Z) : mhook Z :=
  let cpu_id := Z.land mpidr MPIDR_CPU_MASK in
  mmio_write_32 mp0_misc_config3 MP0_CPUCFG_64BIT;;
  match (if cpu_id =? 0 then Some mp0_misc_config2
         else if cpu_id =? 1 then Some mp0_misc_config4 else None) with
  | None => hret PSCI_E_NOT_PRESENT
  | Some rv =>
      e ← hget (λ _ h, secure_entrypoint h);
      mmio_write_32 rv e;;
      spmc_cpu_corex_onoff cpu_id STA_POWER_ON MODE_SPMC_HW;;
      hret PSCI_E_SUCCESS
  end.

Definition mtk_system_pwr_domain_resume : mhook unit := hmod (set_console_registered true).
End Spmc.

(** ** Generic timer context (plat_pm.c) *)

Definition get_core_data (mpidr : Z) (h : mtk_hw) : option core_context :=
  vget (dormant_data h) (Z.shiftr (Z.land mpidr MPIDR_CLUSTER_MASK) MPIDR_AFFINITY_BITS)
  ≫= λ cluster, vget cluster (Z.land mpidr MPIDR_CPU_MASK).

(** A store to the core_context get_core_data() points to. *)
Definition set_core_data (mpidr : Z) (d : core_context) (h : mtk_hw) : option mtk_hw :=
  let clusterid := Z.shiftr (Z.land mpidr MPIDR_CLUSTER_MASK) MPIDR_AFFINITY_BITS in
  vget (dormant_data h) clusterid ≫= λ cluster,
  vput cluster (Z.land mpidr MPIDR_CPU_MASK) d ≫= λ cluster,
  vput (dormant_data h) clusterid cluster ≫= λ sys, Some (set_dormant_data sys h).

(** [stp] and [ldp] at index [i] of an array of unsigned long. *)
Definition stp {n} (i a b : Z) (v : vec Z n) : option (vec Z n) :=
  vput v i a ≫= λ v, vput v (i + 1) b.
Definition ldp {n} (i : Z) (v : vec Z n) : option (Z * Z) :=
  vget v i ≫= λ a, vget v (i + 1) ≫= λ b, Some (a, b).

(** The container is the timer_data of [core], the context of CPU [mpidr]. *)
Definition mt_save_generic_timer (mpidr : Z) (core : core_context) : mhook unit :=
  r ← hget sysregs_of;
  container ← hsome (stp 0 (cntkctl_el1 r) (cntp_cval_el0 r) (timer_data core));
  container ← hsome (stp 2 (cntp_tval_el0 r) (cntp_ctl_el0 r) container);
  container ← hsome (stp 4 (cntv_tval_el0 r) (cntv_ctl_el0 r) container);
  h ← hget (λ _ h, set_core_data mpidr (with_timer_data container core) h);
  h' ← hsome h;
  hmod (λ _, h').

Definition mt_restore_generic_timer (container : vec Z 8) : mhook unit :=
  p0 ← hsome (ldp 0 container);
  p1 ← hsome (ldp 2 container);
  p2 ← hsome (ldp 4 container);
  upd_sysregs (with_timer p0.1 p0.2 p1.1 p1.2 p2.1 p2.2).

(** [~(U(1) << 0)] is a 32-bit constant, widened to 64 bits. *)
Definition clr_cntp_ctl_enable (x : Z) : Z := Z.land x (not32 (Z.shiftl 1 0)).

Definition stop_generic_timer : mhook unit :=
  cntpctl ← read_sysreg cntp_ctl_el0;
  upd_sysregs (with_cntp_ctl (clr_cntp_ctl_enable cntpctl)).

Definition mt_cpu_save (mpidr : Z) : mhook unit :=
  core ← hget (λ _ h, get_core_data mpidr h);
  core ← hsome core;
  mt_save_generic_timer mpidr core;;
  stop_generic_timer.

Definition mt_cpu_restore (mpidr : Z) : mhook unit :=
  core ← hget (λ _ h, get_core_data mpidr h);
  core ← hsome core;
  mt_restore_generic_timer (timer_data core).

Definition mt_platform_save_context (mpidr : Z) : mhook unit := mt_cpu_save mpidr.
Definition mt_platform_restore_context (mpidr : Z) : mhook unit := mt_cpu_restore mpidr.

(** ** Hooks of plat_pm.c *)

(** [unsigned int scr]: the upper half of the register is not kept. *)
Definition plat_cpu_standby (cpu_state : Z) : whook mtk_hw unit :=
  hwfi (scr ← read_sysreg scr_el3;
        upd_sysregs (with_scr (Z.lor (u32 scr) SCR_IRQ_BIT));;
        hret (u32 scr))
       (λ scr, upd_sysregs (with_scr scr)).

(** Cell [i] of the array of a psci_power_state_t, and the assignment of [v] to
    the [n] cells from [i] on. *)
Definition level_state (st : psci_power_state_t) (i : Z) : mhook Z :=
  hsome (zget (pwr_domain_state st) i).
Definition put_level (i v : Z) (st : psci_power_state_t) : option psci_power_state_t :=
  (λ l, PowerState l (last_at_pwrlvl st)) <$> zput (pwr_domain_state st) i v.
Fixpoint put_levels (n : nat) (i v : Z) (st : psci_power_state_t) : option psci_power_state_t :=
  match n with
  | O => Some st
  | S n' => put_level i v st ≫= put_levels n' (i + 1) v
  end.

Definition plat_get_sys_suspend_power_state `{Config} (req_state : psci_power_state_t)
    : mhook psci_power_state_t :=
  hassert (2 <=? PLAT_MAX_PWR_LVL);;
  hsome (put_levels (Z.to_nat (PLAT_MAX_PWR_LVL + 1)) 0 MTK_LOCAL_STATE_OFF req_state).

Definition mtk_plat_system_reset : whook mtk_hw unit :=
  hwfi mtk_wdt_soft_reset (λ _, hpanic).

(** The console messages have no effect on the state modelled. *)
Definition mtk_plat_system_off : whook mtk_hw unit := mtk_plat_system_reset.

Definition mtk_plat_system_reset2 (is_vendor reset_type cookie : Z) : whook mtk_hw Z :=
  hwfi (mmio_setbits_32 MTK_DDR_RESERVE_MODE (Z.lor MTK_DDR_RESERVE_ENABLE MTK_DDR_RESERVE_KEY);;
        mtk_wdt_soft_reset)
       (λ _, hpanic).

(** plat_validate_power_state() of the original power state format. *)
Definition plat_validate_power_state_orig `{Config} (power_state : Z)
    (req_state : psci_power_state_t) : option (Z * psci_power_state_t) :=
  let pstate := psci_get_pstate_type power_state in
  let pwr_lvl := psci_get_pstate_pwrlvl power_state in
  if PLAT_MAX_PWR_LVL <? pwr_lvl then Some (PSCI_E_INVALID_PARAMS, req_state)
  else if (pstate =? PSTATE_TYPE_STANDBY) && negb (pwr_lvl =? 0) then
    Some (PSCI_E_INVALID_PARAMS, req_state)
  else
    (λ req_state,
       if cbool (psci_get_pstate_id power_state) then (PSCI_E_INVALID_PARAMS, req_state)
       else (PSCI_E_SUCCESS, req_state)) <$>
    (if pstate =? PSTATE_TYPE_STANDBY
     then put_level MTK_PWR_LVL0 MTK_LOCAL_STATE_RET req_state
     else put_levels (Z.to_nat (pwr_lvl + 1)) 0 MTK_LOCAL_STATE_OFF req_state).

Definition MTK_LOCAL_PSTATE_WIDTH : Z := 4.
Definition MTK_LOCAL_PSTATE_MASK : Z := Z.shiftl 1 MTK_LOCAL_PSTATE_WIDTH - 1.

Definition mtk_make_pwrstate_lvl0 `{Config} (lvl0_st pwr_lvl type : Z) : Z :=
  if PSCI_EXTENDED_STATE_ID then
    Z.lor (Z.shiftl lvl0_st PSTATE_ID_SHIFT) (Z.shiftl type PSTATE_TYPE_SHIFT)
  else
    Z.lor (Z.lor (Z.shiftl lvl0_st PSTATE_ID_SHIFT) (Z.shiftl pwr_lvl PSTATE_PWR_LVL_SHIFT))
          (Z.shiftl type PSTATE_TYPE_SHIFT).
Definition mtk_make_pwrstate_lvl1 `{Config} (lvl1_st lvl0_st pwr_lvl type : Z) : Z :=
  Z.lor (Z.shiftl lvl1_st MTK_LOCAL_PSTATE_WIDTH) (mtk_make_pwrstate_lvl0 lvl0_st pwr_lvl type).
Definition mtk_make_pwrstate_lvl2 `{Config} (lvl2_st lvl1_st lvl0_st pwr_lvl type : Z) : Z :=
  Z.lor (Z.shiftl lvl2_st (MTK_LOCAL_PSTATE_WIDTH * 2))
        (mtk_make_pwrstate_lvl1 lvl1_st lvl0_st pwr_lvl type).

Definition mtk_pm_idle_states `{Config} : list Z :=
  [mtk_make_pwrstate_lvl2 MTK_LOCAL_STATE_RUN MTK_LOCAL_STATE_RUN MTK_LOCAL_STATE_RET
     MTK_PWR_LVL0 PSTATE_TYPE_STANDBY;
   mtk_make_pwrstate_lvl2 MTK_LOCAL_STATE_RUN MTK_LOCAL_STATE_RUN MTK_LOCAL_STATE_OFF
     MTK_PWR_LVL0 PSTATE_TYPE_POWERDOWN;
   mtk_make_pwrstate_lvl2 MTK_LOCAL_STATE_RUN MTK_LOCAL_STATE_OFF MTK_LOCAL_STATE_OFF
     MTK_PWR_LVL1 PSTATE_TYPE_POWERDOWN]
  ++ (if MTK_PWR_LVL1 <? PLAT_MAX_PWR_LVL then
        [mtk_make_pwrstate_lvl2 MTK_LOCAL_STATE_OFF MTK_LOCAL_STATE_OFF MTK_LOCAL_STATE_OFF
           MTK_PWR_LVL2 PSTATE_TYPE_POWERDOWN] else [])
  ++ [0].

(** The entry the linear search stops at: the match, or the terminating 0. *)
Fixpoint idle_state_search (states : list Z) (power_state : Z) : Z :=
  match states with
  | [] => 0
  | st :: states' =>
      if st =? 0 then 0 else if power_state =? st then st else idle_state_search states' power_state
  end.

(** [while (state_id)], at most one round per 4 bits of the 28-bit state id. *)
Fixpoint parse_state_id (n : nat) (i state_id : Z) (req_state : psci_power_state_t)
    : option psci_power_state_t :=
  match n with
  | O => Some req_state
  | S n' =>
      if state_id =? 0 then Some req_state
      else
        l ← zput (pwr_domain_state req_state) i (Z.land state_id MTK_LOCAL_PSTATE_MASK);
        parse_state_id n' (i + 1) (Z.shiftr state_id MTK_LOCAL_PSTATE_WIDTH)
          (PowerState l (last_at_pwrlvl req_state))
  end%stdpp.

(** plat_validate_power_state() of the extended format. *)
Definition plat_validate_power_state_ext `{Config} (power_state : Z)
    (req_state : psci_power_state_t) : option (Z * psci_power_state_t) :=
  if idle_state_search mtk_pm_idle_states power_state =? 0 then
    Some (PSCI_E_INVALID_PARAMS, req_state)
  else
    (λ st, (PSCI_E_SUCCESS, st)) <$> parse_state_id 7 0 (psci_get_pstate_id power_state) req_state.

Definition plat_validate_power_state `{Config} (power_state : Z)
    (req_state : psci_power_state_t) : mhook (Z * psci_power_state_t) :=
  if PSCI_EXTENDED_STATE_ID then hsome (plat_validate_power_state_ext power_state req_state)
  else hsome (plat_validate_power_state_orig power_state req_state).

(** plat_get_target_pwr_state(): a do-while loop over [--ncpu].  The cells are
    of type uint8_t. *)
Fixpoint mtk_target_loop (states : list Z) (ncpu target : Z) : option Z :=
  match states with
  | [] => None
  | cell :: states' =>
      let temp := u8 cell in
      let target := if temp <? target then temp else target in
      let ncpu := u32 (ncpu - 1) in
      if cbool ncpu then mtk_target_loop states' ncpu target else Some target
  end.

Definition mtk_get_target_pwr_state `{Config} (lvl : Z) (states : list Z) (ncpu : Z) : option Z :=
  mtk_target_loop states ncpu PLAT_MAX_OFF_STATE.

(** ** MT7981 finishers and power-down hooks (mt7981/bl31/bl31_plat_pm.c) *)

Definition MTK_CLUSTER_PWR_STATE (st : psci_power_state_t) : mhook Z := level_state st MTK_PWR_LVL1.
Definition MTK_SYSTEM_PWR_STATE `{Config} (st : psci_power_state_t) : mhook Z :=
  if MTK_PWR_LVL1 <? PLAT_MAX_PWR_LVL then level_state st MTK_PWR_LVL2 else hret 0.

(** The branches on the cluster's and the system's state that hold nothing but
    comments only read the state. *)
Definition mtk_plat_power_domain_on_finish `{Config} (st : psci_power_state_t) : mhook unit :=
  when ENABLE_ASSERTIONS
    (s0 ← level_state st MTK_PWR_LVL0; hassert (s0 =? MTK_LOCAL_STATE_OFF));;
  when (MTK_PWR_LVL1 <? PLAT_MAX_PWR_LVL)
    (s2 ← level_state st MTK_PWR_LVL2;
     when (s2 =? MTK_LOCAL_STATE_OFF) mtk_system_pwr_domain_resume);;
  _ ← level_state st MTK_PWR_LVL1;
  hret tt.

Definition mtk_plat_power_domain_off `{MtkEnv} (st : psci_power_state_t) : mhook unit :=
  mpidr ← hget (λ me _, mpidr_el1 me);
  _ ← MTK_CLUSTER_PWR_STATE st;
  spmc_cpu_corex_onoff (Z.land mpidr MPIDR_CPU_MASK) STA_POWER_DOWN MODE_AUTO_SHUT_OFF;;
  hret tt.

Definition mtk_plat_power_domain_suspend `{Config} `{MtkEnv} (st : psci_power_state_t) : mhook unit :=
  mpidr ← hget (λ me _, mpidr_el1 me);
  _ ← MTK_SYSTEM_PWR_STATE st;
  mt_platform_save_context mpidr;;
  _ ← MTK_CLUSTER_PWR_STATE st;
  _ ← MTK_SYSTEM_PWR_STATE st;
  hret tt.

Definition mtk_plat_power_domain_suspend_finish `{Config} `{MtkEnv} (st : psci_power_state_t) : mhook unit :=
  mpidr ← hget (λ me _, mpidr_el1 me);
  s0 ← level_state st MTK_PWR_LVL0;
  if s0 =? MTK_LOCAL_STATE_RET then hret tt
  else
    _ ← MTK_SYSTEM_PWR_STATE st;
    _ ← MTK_CLUSTER_PWR_STATE st;
    mt_platform_restore_context mpidr;;
    _ ← MTK_SYSTEM_PWR_STATE st;
    hret tt.

Definition plat_plat_pm_ops `{Config} `{MtkEnv} : plat_psci_ops_t mtk_hw := {|
  cpu_standby := Some plat_cpu_standby;
  pwr_domain_on := Some mtk_plat_power_domain_on;
  pwr_domain_off := Some mtk_plat_power_domain_off;
  pwr_domain_off_early := None;
  pwr_domain_validate_suspend := None;
  pwr_domain_suspend_pwrdown_early := None;
  pwr_domain_suspend := Some mtk_plat_power_domain_suspend;
  pwr_domain_on_finish := Some mtk_plat_power_domain_on_finish;
  pwr_domain_on_finish_late := None;
  pwr_domain_suspend_finish := Some mtk_plat_power_domain_suspend_finish;
  pwr_domain_pwr_down := None;
  system_off := Some mtk_plat_system_off;
  system_reset := Some mtk_plat_system_reset;
  validate_power_state := Some plat_validate_power_state;
  validate_ns_entrypoint := None;
  get_sys_suspend_power_state := Some plat_get_sys_suspend_power_state;
  get_pwr_lvl_state_idx := None;
  translate_power_state_by_mpidr := None;
  get_node_hw_state := None;
  mem_protect_chk := None;
  read_mem_protect := None;
  write_mem_protect := None;
  system_reset2 := Some mtk_plat_system_reset2;
|}.

Definition mtk_setup_psci_ops `{Config} `{MtkEnv} (sec_entrypoint : Z)
    : mhook (option (plat_psci_ops_t mtk_hw)) :=
  hmod (set_secure_entrypoint sec_entrypoint);;
  hret (Some plat_plat_pm_ops).

(** ** Topology (plat_topology.c) *)

Definition mtk_power_domain_tree_desc : list Z :=
  [PLATFORM_SYSTEM_COUNT; PLATFORM_CLUSTER_COUNT; PLATFORM_CLUSTER0_CORE_COUNT;
   PLATFORM_CLUSTER1_CORE_COUNT].

Definition mtk_core_pos_by_mpidr (mpidr : Z) : Z :=
  let mpidr := Z.land mpidr MPIDR_AFFINITY_MASK in
  if cbool (Z.land mpidr (not64 (Z.lor MPIDR_CLUSTER_MASK MPIDR_CPU_MASK))) then -1
  else
    let cluster_id := Z.land (Z.shiftr mpidr MPIDR_AFF1_SHIFT) MPIDR_AFFLVL_MASK in
    let cpu_id := Z.land (Z.shiftr mpidr MPIDR_AFF0_SHIFT) MPIDR_AFFLVL_MASK in
    if PLATFORM_CLUSTER_COUNT <=? cluster_id then -1
    else if PLATFORM_MAX_CPUS_PER_CLUSTER <=? cpu_id then -1
    else cpu_id + cluster_id * 4.

(** ** The port as an instance of the library's platform interface *)

#[export] Instance mtk_platform `{cfg : Config} `{env : MtkEnv} : Platform mtk_hw := {
  plat_core_pos_by_mpidr := mtk_core_pos_by_mpidr;
  plat_get_target_pwr_state := mtk_get_target_pwr_state;
  plat_get_power_domain_tree_desc := mtk_power_domain_tree_desc;
  plat_setup_psci_ops := mtk_setup_psci_ops;
  plat_psci_stat_get_residency := λ _ _ _, hret 0;
  hw_event := env_event;
  cpu_pwr_dwn_op := env_cpu_pwr_dwn;
  read_isr_el1 := λ me h, isr_el1 (sysregs_of me h);
  read_scr_el3 := λ me h, scr_el3 (sysregs_of me h);
  read_sctlr_el1 := λ me h, sctlr_el1 (sysregs_of me h);
  read_sctlr_el2 := λ me h, sctlr_el2 (sysregs_of me h);
  read_mpidr_el1 := λ me _, mpidr_el1 me;
  sme_active := λ _ _, false;
  sme_supported := false;
  uninit_power_state := λ me h,
    PowerState ((λ i, default 0 (env_stack me h !! i)) <$> seq 0 (Z.to_nat (PLAT_MAX_PWR_LVL + 1))) 0;
}.
