(* ===== verification/PsciTopo.v ===== *)
(** * The power domain tree

    The part of psci_non_cpu_pd_nodes and psci_cpu_pd_nodes that never changes
    after psci_setup(), what it means for it to be a well-formed tree, and the
    library's walks over it: collecting the ancestors of a CPU, and taking and
    releasing their locks. *)

From stdpp Require Import base sets list numbers list_numbers.
From Stdlib Require Import ZArith Lia.
From S2P Require Import Prelude PsciTypes PsciCommon PsciPower.
Open Scope Z_scope.
Open Scope mon_scope.

(** ** Shape of the tree *)

Record tnode := TNode {
  tn_start : Z;
  tn_ncpus : Z;
  tn_parent : Z;
  tn_level : Z;
  tn_lock : Z;
}.

Record topo := Topo {
  tp_nodes : list tnode;
  tp_parents : list Z;
  tp_cores : Z;
}.

Definition tnode_of (n : non_cpu_pd_node_t) : tnode :=
  TNode (cpu_start_idx n) (ncpus n) (parent_node n) (level n) (lock_index n).

Definition topo_of {H} (s : psci_state H) : topo :=
  Topo (tnode_of <$> psci_non_cpu_pd_nodes s) (cpu_parent_node <$> psci_cpu_pd_nodes s)
       (psci_plat_core_count s).

(** The ancestor of CPU [c] at level [k + 1], and at level [l]. *)
Fixpoint ancn (T : topo) (c : Z) (k : nat) : option Z :=
  match k with
  | O => zget (tp_parents T) c
  | S k' => p ← ancn T c k'; tn_parent <$> zget (tp_nodes T) p
  end%stdpp.

Definition anc (T : topo) (c l : Z) : option Z :=
  if decide (1 ≤ l) then ancn T c (Z.to_nat (l - 1)) else None.

Lemma anc_1 T c : anc T c 1 = zget (tp_parents T) c.
Proof. done. Qed.

Lemma anc_succ T c l :
  1 ≤ l → anc T c (l + 1) = anc T c l ≫= λ p, tn_parent <$> zget (tp_nodes T) p.
Proof.
  intros. unfold anc. rewrite !decide_True by lia.
  by replace (Z.to_nat (l + 1 - 1)) with (S (Z.to_nat (l - 1))) by lia.
Qed.

Lemma zget_fmap {A B} (f : A → B) l i : zget (f <$> l) i = f <$> zget l i.
Proof. unfold zget. case_decide; [apply list_lookup_fmap|done]. Qed.

Lemma zlen_fmap {A B} (f : A → B) l : zlen (f <$> l) = zlen l.
Proof. unfold zlen. by rewrite length_fmap. Qed.

Lemma zset_fmap {A B} (f : A → B) l i x : f <$> zset l i x = zset (f <$> l) i (f x).
Proof. apply list_fmap_insert. Qed.

(** A write that does not change what [f] sees. *)
Lemma fmap_zset_same {A B} (f : A → B) l i x y :
  zget l i = Some y → f x = f y → f <$> zset l i x = f <$> l.
Proof.
  intros Hy Hf. rewrite zset_fmap, Hf. apply zset_same. by rewrite zget_fmap, Hy.
Qed.

(** ** Well-formed trees *)

Section Wf.
Context `{cfg : Config}.

Record anc_ok (T : topo) (c l p : Z) (n : tnode) : Prop := {
  ao_anc : anc T c l = Some p;
  ao_node : zget (tp_nodes T) p = Some n;
  ao_level : tn_level n = l;
  ao_lock : tn_lock n = p;
  ao_range : 0 ≤ tn_start n ∧ tn_start n + tn_ncpus n ≤ tp_cores T;
  ao_cpus : ∀ c', 0 ≤ c' < tp_cores T →
              tn_start n ≤ c' < tn_start n + tn_ncpus n ↔ anc T c' l = Some p;
}.

Record topo_wf (T : topo) : Prop := {
  tw_cores : 0 < tp_cores T ≤ PLATFORM_CORE_COUNT;
  tw_parents : zlen (tp_parents T) = PLATFORM_CORE_COUNT;
  tw_nodes : zlen (tp_nodes T) = PSCI_NUM_NON_CPU_PWR_DOMAINS;
  tw_anc : ∀ c l, 0 ≤ c < tp_cores T → 1 ≤ l ≤ PLAT_MAX_PWR_LVL → ∃ p n, anc_ok T c l p n;
}.

Lemma anc_cpu_in T c l p n :
  anc_ok T c l p n → 0 ≤ c < tp_cores T → tn_start n ≤ c < tn_start n + tn_ncpus n.
Proof. intros Ha Hc. apply (ao_cpus _ _ _ _ _ Ha); [done|]. apply Ha. Qed.

Lemma anc_inj_level T c c' l l' p :
  topo_wf T → 0 ≤ c < tp_cores T → 0 ≤ c' < tp_cores T →
  1 ≤ l ≤ PLAT_MAX_PWR_LVL → 1 ≤ l' ≤ PLAT_MAX_PWR_LVL →
  anc T c l = Some p → anc T c' l' = Some p → l = l'.
Proof.
  intros Hw Hc Hc' Hl Hl' Ha Ha'.
  destruct (tw_anc _ Hw c l) as (q & n & Hq); [done..|].
  destruct (tw_anc _ Hw c' l') as (q' & n' & Hq'); [done..|].
  pose proof (ao_anc _ _ _ _ _ Hq). pose proof (ao_anc _ _ _ _ _ Hq').
  pose proof (ao_node _ _ _ _ _ Hq). pose proof (ao_node _ _ _ _ _ Hq').
  simplify_eq. rewrite <- (ao_level _ _ _ _ _ Hq). apply Hq'.
Qed.

(** The ancestors of [c] at levels [1 .. l]. *)
Definition ancs (T : topo) (c l : Z) : list Z :=
  (λ k, default 0 (anc T c (Z.of_nat (S k)))) <$> seq 0 (Z.to_nat l).

Lemma zget_ancs T c l k :
  0 ≤ k < l → zget (ancs T c l) k = Some (default 0 (anc T c (k + 1))).
Proof.
  intros Hk. unfold ancs. rewrite zget_fmap. unfold zget. rewrite decide_True by lia.
  rewrite lookup_seq_lt by lia. simpl. do 3 f_equal. lia.
Qed.

Lemma zget_ancs_ok T c l k p :
  0 ≤ k < l → anc T c (k + 1) = Some p → zget (ancs T c l) k = Some p.
Proof. intros Hk Ha. rewrite zget_ancs by done. by rewrite Ha. Qed.

Lemma ancs_snoc T c l p :
  1 ≤ l → anc T c l = Some p → ancs T c l = ancs T c (l - 1) ++ [p].
Proof.
  intros Hl Ha. unfold ancs.
  replace (Z.to_nat l) with (S (Z.to_nat (l - 1))) by lia.
  rewrite seq_S, fmap_app, Nat.add_0_l. f_equal. cbn [fmap list_fmap].
  replace (Z.of_nat (S (Z.to_nat (l - 1)))) with l by lia. by rewrite Ha.
Qed.
End Wf.

(** ** Primitive accesses *)

Ltac ssimpl :=
  cbn [psci_req_local_pwr_states psci_plat_core_count psci_non_cpu_pd_nodes psci_locks
       psci_cpu_pd_nodes psci_svc_cpu_data warmboot_ep_info psci_caps psci_suspend_mode
       psci_plat_pm_ops psci_spd_pm last_cpu_in_non_cpu_pd psci_cpu_stat psci_non_cpu_stat
       hw trace set_psci_req_local_pwr_states set_psci_plat_core_count
       set_psci_non_cpu_pd_nodes set_psci_locks set_psci_cpu_pd_nodes set_psci_svc_cpu_data
       set_warmboot_ep_info set_psci_caps set_psci_suspend_mode set_psci_plat_pm_ops
       set_psci_spd_pm set_last_cpu_in_non_cpu_pd set_psci_cpu_stat set_psci_non_cpu_stat
       set_hw set_trace] in *.

(** A hook that never does what C leaves undefined and fails no assertion;
    likewise a hook that waits, whatever happens while it does, and a hook
    that may be NULL. *)
Definition hook_safe {H A} (h : hook H A) : Prop := ∀ me hw, h me hw ≠ HFault.

Fixpoint wres_safe {H A} (r : wres H A) : Prop :=
  match r with
  | WNow r => r ≠ HFault
  | WWfi _ k => ∀ h, wres_safe (k h)
  end.

Definition whook_safe {H A} (h : whook H A) : Prop := ∀ me hw, wres_safe (h me hw).

Definition opt_safe {H A} (o : option (hook H A)) : Prop := ∀ h, o = Some h → hook_safe h.
Definition opt_wsafe {H A} (o : option (whook H A)) : Prop := ∀ h, o = Some h → whook_safe h.

Section Prim.
Context `{cfg : Config} {H : Type} `{plat : Platform H}.
Implicit Types (E : psci_state H → Prop) (s : psci_state H).

(** Equal up to the hardware state and the record of calls. *)
Definition upto s s' : Prop := ∃ h t, s' = set_hw h (set_trace t s).

#[export] Instance upto_refl : Reflexive upto.
Proof. intros s. exists (hw s), (trace s). by destruct s. Qed.

#[export] Instance upto_trans : Transitive upto.
Proof. intros s1 s2 s3 (h & t & ->) (h' & t' & ->). by exists h', t'. Qed.

#[export] Instance upto_sym : Symmetric upto.
Proof. intros s1 s2 (h & t & ->). exists (hw s1), (trace s1). by destruct s1. Qed.

#[export] Instance topo_of_proper : Proper (upto ==> eq) (@topo_of H).
Proof. by intros s s' (h & t & ->). Qed.

Lemma wp_emit E ev me s (Q : unit → psci_state H → Prop) :
  (∀ s', upto s s' → Q tt s') → wp E (emit ev) me s Q.
Proof.
  intros HQ. apply HQ. exists (hw_event ev me (hw s)), (ev :: trace s). by destruct s.
Qed.

Lemma wp_when E (b : bool) (m : PM unit) me s (Q : unit → psci_state H → Prop) :
  (b = true → wp E m me s Q) → (b = false → Q tt s) → wp E (when b m) me s Q.
Proof. intros H1 H2. destruct b; [by apply H1|by apply H2]. Qed.

Lemma wp_assert E b me s (Q : unit → psci_state H → Prop) :
  b = true → Q tt s → wp E (c_assert b) me s Q.
Proof. intros ->. unfold c_assert. by rewrite andb_false_r. Qed.

Lemma wp_call_hook {A} E (h : hook H A) me s (Q : A → psci_state H → Prop) :
  hook_safe h → (∀ s', upto s s' → E s') →
  (∀ a h', h me (hw s) = HRet a h' → ∀ s', upto s s' → Q a s') →
  wp E (call_hook h) me s Q.
Proof.
  intros Hsafe HE HQ. unfold wp, call_hook.
  assert (∀ h', upto s (set_hw h' s)) as Hu by (intros h'; exists h', (trace s); by destruct s).
  destruct (h me (hw s)) eqn:Hh; eauto. by apply Hsafe in Hh.
Qed.

(** A hook that returns, in a proof of total correctness. *)
Lemma wp_call_hook_ret {A} E (h : hook H A) me s (Q : A → psci_state H → Prop) :
  (∃ a h', h me (hw s) = HRet a h') ∨ hook_safe h ∧ (∀ s', E s') →
  (∀ a h', h me (hw s) = HRet a h' → ∀ s', upto s s' → Q a s') →
  wp E (call_hook h) me s Q.
Proof.
  intros [(a & h' & Hh)|[Hsafe HE]] HQ; [|by apply wp_call_hook].
  unfold wp, call_hook. rewrite Hh. apply (HQ a h' Hh). exists h', (trace s). by destruct s.
Qed.

Lemma wp_get_cpu_node E i n me s (Q : cpu_pd_node_t → psci_state H → Prop) :
  zget (psci_cpu_pd_nodes s) i = Some n → Q n s → wp E (get_cpu_node i) me s Q.
Proof. intros Hn HQ. apply wp_bind, wp_gets. by eapply wp_some. Qed.

Lemma wp_get_non_cpu_node E i n me s (Q : non_cpu_pd_node_t → psci_state H → Prop) :
  zget (psci_non_cpu_pd_nodes s) i = Some n → Q n s → wp E (get_non_cpu_node i) me s Q.
Proof. intros Hn HQ. apply wp_bind, wp_gets. by eapply wp_some. Qed.

Lemma wp_get_cpu_data E i d me s (Q : psci_cpu_data_t → psci_state H → Prop) :
  zget (psci_svc_cpu_data s) i = Some d → Q d s → wp E (get_cpu_data_by_index i) me s Q.
Proof. intros Hn HQ. apply wp_bind, wp_gets. by eapply wp_some. Qed.

Lemma wp_upd_cpu_data E i d f me s (Q : unit → psci_state H → Prop) :
  zget (psci_svc_cpu_data s) i = Some d →
  Q tt (set_psci_svc_cpu_data (zset (psci_svc_cpu_data s) i (f d)) s) →
  wp E (upd_cpu_data_by_index i f) me s Q.
Proof. intros. apply wp_bind. eapply wp_get_cpu_data; [done|]. by apply wp_modify. Qed.

Lemma wp_upd_cpu_node E i d f me s (Q : unit → psci_state H → Prop) :
  zget (psci_cpu_pd_nodes s) i = Some d →
  Q tt (set_psci_cpu_pd_nodes (zset (psci_cpu_pd_nodes s) i (f d)) s) →
  wp E (upd_cpu_node i f) me s Q.
Proof. intros. apply wp_bind. eapply wp_get_cpu_node; [done|]. by apply wp_modify. Qed.

Lemma wp_upd_non_cpu_node E i d f me s (Q : unit → psci_state H → Prop) :
  zget (psci_non_cpu_pd_nodes s) i = Some d →
  Q tt (set_psci_non_cpu_pd_nodes (zset (psci_non_cpu_pd_nodes s) i (f d)) s) →
  wp E (upd_non_cpu_node i f) me s Q.
Proof. intros. apply wp_bind. eapply wp_get_non_cpu_node; [done|]. by apply wp_modify. Qed.
End Prim.

(** ** Walking up the tree *)

Section Walk.
Context `{cfg : Config} {H : Type} `{plat : Platform H}.
Implicit Types (E : psci_state H → Prop) (s : psci_state H).

Lemma topo_cpu_node s c p :
  zget (tp_parents (topo_of s)) c = Some p →
  ∃ n, zget (psci_cpu_pd_nodes s) c = Some n ∧ cpu_parent_node n = p.
Proof. simpl. rewrite zget_fmap. destruct (zget _ c); naive_solver. Qed.

Lemma topo_non_cpu_node s p tn :
  zget (tp_nodes (topo_of s)) p = Some tn →
  ∃ n, zget (psci_non_cpu_pd_nodes s) p = Some n ∧ tnode_of n = tn.
Proof. simpl. rewrite zget_fmap. destruct (zget _ p); naive_solver. Qed.

Lemma topo_cpu_node_lt s c :
  topo_wf (topo_of s) → 0 ≤ c < PLATFORM_CORE_COUNT →
  ∃ n, zget (psci_cpu_pd_nodes s) c = Some n ∧ zget (tp_parents (topo_of s)) c = Some (cpu_parent_node n).
Proof.
  intros Hw Hc. destruct (zget_is_Some (tp_parents (topo_of s)) c) as [p Hp].
  { by rewrite (tw_parents _ Hw). }
  destruct (topo_cpu_node _ _ _ Hp) as (n & Hn & <-). eauto.
Qed.

(** The node at level [l] above [c], in the state. *)
Lemma topo_anc s c l :
  topo_wf (topo_of s) → 0 ≤ c < tp_cores (topo_of s) → 1 ≤ l ≤ PLAT_MAX_PWR_LVL →
  ∃ p n, anc_ok (topo_of s) c l p (tnode_of n) ∧ zget (psci_non_cpu_pd_nodes s) p = Some n
         ∧ anc (topo_of s) c (l + 1) = Some (parent_node n).
Proof.
  intros Hw Hc Hl. destruct (tw_anc _ Hw c l) as (p & tn & Ha); [done..|].
  destruct (topo_non_cpu_node s p tn) as (n & Hn & <-); [apply Ha|].
  exists p, n. split_and!; [done..|].
  rewrite anc_succ by lia. rewrite (ao_anc _ _ _ _ _ Ha). simpl.
  by rewrite zget_fmap, Hn.
Qed.

Lemma topo_cpu_parent s c :
  topo_wf (topo_of s) → 0 ≤ c < tp_cores (topo_of s) →
  ∃ n, zget (psci_cpu_pd_nodes s) c = Some n ∧ anc (topo_of s) c 1 = Some (cpu_parent_node n).
Proof.
  intros Hw Hc. pose proof (tw_cores _ Hw).
  destruct (topo_cpu_node_lt s c Hw) as (n & Hn & Hp); [lia|]. eauto.
Qed.

(** The ancestors of [c] up to level [l] exist. *)
Definition walkable (T : topo) (c l : Z) : Prop :=
  ∀ k, 1 ≤ k ≤ l → ∃ p, anc T c k = Some p ∧ is_Some (zget (tp_nodes T) p).

Lemma wp_get_parents_walk E c l cn me s (Q : list Z → psci_state H → Prop) :
  zget (psci_cpu_pd_nodes s) c = Some cn → walkable (topo_of s) c l → 0 ≤ l →
  Q (ancs (topo_of s) c l) s →
  wp E (psci_get_parent_pwr_domain_nodes c l) me s Q.
Proof.
  intros Hcn Hwk Hl HQ. unfold psci_get_parent_pwr_domain_nodes.
  assert (Hp1 : anc (topo_of s) c 1 = Some (cpu_parent_node cn)).
  { rewrite anc_1. simpl. by rewrite zget_fmap, Hcn. }
  apply wp_bind. eapply wp_get_cpu_node; [done|]. apply wp_bind.
  eapply (wp_for_to _ (λ i a s', s' = s ∧ a.1 = ancs (topo_of s) c (i - 1)
                                 ∧ anc (topo_of s) c i = Some a.2)).
  - done.
  - intros i [nodes p] s' Hi (-> & Hn & Ha); simpl in *. subst nodes.
    unfold PSCI_CPU_PWR_LVL in *.
    destruct (Hwk i) as (q & Hq & [tn Htn]); [lia|]. rewrite Hq in Ha. simplify_eq.
    destruct (topo_non_cpu_node s p tn Htn) as (n & Hn & <-).
    apply wp_bind. eapply wp_get_non_cpu_node; [done|]. apply wp_ret. simpl.
    split_and!; [done| |].
    + rewrite (ancs_snoc _ _ (i + 1 - 1) p); [|lia|]; by replace (i + 1 - 1) with i by lia.
    + rewrite anc_succ by lia. rewrite Hq. simpl. rewrite zget_fmap, Hn. done.
  - intros [nodes p] s' (-> & Hn & _). simpl in *. subst. apply wp_ret.
    unfold PSCI_CPU_PWR_LVL. by replace (Z.max (0 + 1) (l + 1) - 1) with l by lia.
Qed.

Lemma wp_get_parents E c l me s (Q : list Z → psci_state H → Prop) :
  topo_wf (topo_of s) → 0 ≤ c < tp_cores (topo_of s) → 0 ≤ l ≤ PLAT_MAX_PWR_LVL →
  Q (ancs (topo_of s) c l) s →
  wp E (psci_get_parent_pwr_domain_nodes c l) me s Q.
Proof.
  intros Hw Hc Hl HQ. destruct (topo_cpu_parent s c Hw Hc) as (cn & Hcn & Hp1).
  eapply wp_get_parents_walk; [done| |lia|done].
  intros k Hk. destruct (tw_anc _ Hw c k) as (p & n & Hok); [done|lia|].
  exists p. split; [apply Hok|]. eexists. apply Hok.
Qed.

Lemma wp_walk_up E c l me s (Q : Z → psci_state H → Prop) p0 :
  topo_wf (topo_of s) → 0 ≤ c < tp_cores (topo_of s) → 1 ≤ l ≤ PLAT_MAX_PWR_LVL →
  anc (topo_of s) c 1 = Some p0 →
  (∀ p, anc (topo_of s) c l = Some p → Q p s) →
  wp E (walk_up (l - 1) 1 p0) me s Q.
Proof.
  intros Hw Hc Hl Hp0 HQ. unfold walk_up.
  eapply (wp_for_to _ (λ i a s', s' = s ∧ anc (topo_of s) c i = Some a)); [done| |].
  - intros i p s' Hi [-> Ha]. 
    destruct (topo_anc s c i Hw Hc) as (q & n & Hok & Hn & Hup); [lia|].
    rewrite (ao_anc _ _ _ _ _ Hok) in Ha. simplify_eq.
    apply wp_bind. eapply wp_get_non_cpu_node; [done|]. by apply wp_ret.
  - intros p s' [-> Ha]. apply HQ. by replace (Z.max 1 (l - 1 + 1)) with l in Ha by lia.
Qed.

(** ** The locks of a chain of nodes *)

Definition lock_all (v : bool) (nodes : list Z) (locks : list bool) : list bool :=
  foldl (λ l i, zset l i v) locks nodes.

Lemma zlen_lock_all v nodes locks : zlen (lock_all v nodes locks) = zlen locks.
Proof.
  revert locks. induction nodes as [|i nodes IH]; intros locks; simpl; [done|].
  by rewrite IH, zlen_zset.
Qed.

Lemma lock_all_app v n1 n2 locks : lock_all v (n1 ++ n2) locks = lock_all v n2 (lock_all v n1 locks).
Proof. apply foldl_app. Qed.

Lemma zget_lock_all v nodes locks j :
  Forall (λ i, 0 ≤ i < zlen locks) nodes →
  zget (lock_all v nodes locks) j = if decide (j ∈ nodes) then Some v else zget locks j.
Proof.
  revert locks. induction nodes as [|i nodes IH]; intros locks Hall; cbn [lock_all foldl].
  - case_decide; [set_solver|done].
  - apply Forall_cons in Hall as [Hi Hall]. fold (lock_all v nodes (zset locks i v)). rewrite IH by (by rewrite zlen_zset).
    destruct (decide (j ∈ nodes)); [by rewrite decide_True by (by apply list_elem_of_further)|].
    rewrite zget_zset by done. destruct (decide (i = j)) as [->|].
    + by rewrite decide_True by apply list_elem_of_here.
    + rewrite decide_False; [done|]. rewrite elem_of_cons. intros [?|?]; congruence.
Qed.

(** Taking locks that were free and releasing them restores the locks. *)
Lemma lock_unlock nodes nodes' locks :
  Forall (λ i, zget locks i = Some false) nodes → (∀ i, i ∈ nodes' ↔ i ∈ nodes) →
  lock_all false nodes' (lock_all true nodes locks) = locks.
Proof.
  intros Hfree Heq.
  assert (Forall (λ i, 0 ≤ i < zlen locks) nodes) as Hin.
  { eapply Forall_impl; [exact Hfree|]. intros i Hi. eapply zget_Some_range, Hi. }
  assert (Forall (λ i, 0 ≤ i < zlen (lock_all true nodes locks)) nodes') as Hin'.
  { rewrite zlen_lock_all. rewrite Forall_forall in Hin |- *. intros i Hi. apply Hin. by apply Heq. }
  apply zget_ext; [by rewrite !zlen_lock_all|]. intros j _.
  rewrite zget_lock_all by done. rewrite zget_lock_all by done.
  destruct (decide (j ∈ nodes')) as [Hj|Hj].
  - apply Heq in Hj. rewrite Forall_forall in Hfree. by rewrite Hfree.
  - rewrite decide_False; [done|]. by rewrite <- Heq.
Qed.

Lemma elem_of_ancs T c l i :
  topo_wf T → 0 ≤ c < tp_cores T → l ≤ PLAT_MAX_PWR_LVL →
  i ∈ ancs T c l ↔ ∃ k, 1 ≤ k ≤ l ∧ anc T c k = Some i.
Proof.
  intros Hw Hc Hl. unfold ancs. rewrite list_elem_of_fmap. setoid_rewrite elem_of_seq. split.
  - intros (k & -> & Hk). exists (Z.of_nat (S k)). split; [lia|].
    destruct (tw_anc _ Hw c (Z.of_nat (S k))) as (p & n & Hok); [done|lia|].
    by rewrite (ao_anc _ _ _ _ _ Hok).
  - intros (k & Hk & Ha). exists (Z.to_nat (k - 1)). split; [|lia].
    replace (Z.of_nat (S (Z.to_nat (k - 1)))) with k by lia. by rewrite Ha.
Qed.

Lemma wp_lock_get E p n me s (Q : unit → psci_state H → Prop) :
  zget (psci_non_cpu_pd_nodes s) p = Some n → lock_index n = p →
  zget (psci_locks s) p = Some false →
  (∀ s', upto (set_psci_locks (zset (psci_locks s) p true) s) s' → Q tt s') →
  wp E (psci_lock_get p) me s Q.
Proof.
  intros Hn Hli Hl HQ. unfold psci_lock_get. apply wp_bind.
  eapply wp_get_non_cpu_node; [done|]. rewrite Hli.
  apply wp_bind, wp_gets, wp_bind. eapply wp_some; [done|].
  apply wp_bind, wp_emit. intros s' (h & t & ->). apply wp_modify, HQ. by exists h, t.
Qed.

Lemma wp_lock_release E p n b me s (Q : unit → psci_state H → Prop) :
  zget (psci_non_cpu_pd_nodes s) p = Some n → lock_index n = p →
  zget (psci_locks s) p = Some b →
  (∀ s', upto (set_psci_locks (zset (psci_locks s) p false) s) s' → Q tt s') →
  wp E (psci_lock_release p) me s Q.
Proof.
  intros Hn Hli Hl HQ. unfold psci_lock_release. apply wp_bind.
  eapply wp_get_non_cpu_node; [done|]. rewrite Hli.
  apply wp_bind, wp_gets, wp_bind. eapply wp_some; [done|].
  apply wp_bind, wp_emit. intros s' (h & t & ->). apply wp_modify, HQ. by exists h, t.
Qed.

Lemma upto_locks s L : topo_of (set_psci_locks L s) = topo_of s.
Proof. done. Qed.

Lemma set_locks_set_locks L L' s : set_psci_locks L (set_psci_locks L' s) = set_psci_locks L s.
Proof. done. Qed.

Lemma wp_acquire E c l me s (Q : unit → psci_state H → Prop) :
  topo_wf (topo_of s) → 0 ≤ c < tp_cores (topo_of s) → 0 ≤ l ≤ PLAT_MAX_PWR_LVL →
  Forall (λ i, zget (psci_locks s) i = Some false) (ancs (topo_of s) c l) →
  (∀ s', upto (set_psci_locks (lock_all true (ancs (topo_of s) c l) (psci_locks s)) s) s' → Q tt s') →
  wp E (psci_acquire_pwr_domain_locks l (ancs (topo_of s) c l)) me s Q.
Proof.
  intros Hw Hc Hl Hfree HQ. set (T := topo_of s) in *. unfold psci_acquire_pwr_domain_locks.
  eapply (wp_for_to _ (λ i _ s', upto (set_psci_locks (lock_all true (ancs T c (i - 1)) (psci_locks s)) s) s')).
  - exists (hw s), (trace s). by destruct s.
  - intros i [] s' Hi (h & t & ->). unfold PSCI_CPU_PWR_LVL in *.
    destruct (topo_anc s c i Hw Hc) as (p & n & Hok & Hn & _); [lia|].
    apply wp_bind. eapply wp_some.
    { apply zget_ancs_ok; [lia|]. replace (i - 1 + 1) with i by lia. apply Hok. }
    eapply wp_lock_get; [done|apply Hok| |].
    + ssimpl. rewrite zget_lock_all.
      * rewrite decide_False.
        { rewrite Forall_forall in Hfree. apply Hfree. rewrite elem_of_ancs by (done || lia).
          exists i. split; [lia|apply Hok]. }
        rewrite elem_of_ancs by (done || lia). intros (k & Hk & Ha).
        enough (k = i) by lia. eapply (anc_inj_level T c c); (done || lia || apply Hok).
      * rewrite Forall_forall in Hfree |- *. intros j Hj.
        eapply zget_Some_range, Hfree. rewrite elem_of_ancs in Hj |- * by (done || lia).
        destruct Hj as (k & Hk & ?). exists k. split; [lia|done].
    + intros s' (h' & t' & ->). exists h', t'. ssimpl.
      rewrite (ancs_snoc T c (i + 1 - 1) p) by (lia || (replace (i + 1 - 1) with i by lia; apply Hok)).
      rewrite lock_all_app. by replace (i + 1 - 1 - 1) with (i - 1) by lia.
  - intros [] s' Hu. apply HQ. unfold PSCI_CPU_PWR_LVL in Hu.
    by replace (Z.max (0 + 1) (l + 1) - 1) with l in Hu by lia.
Qed.

Lemma wp_release_from E c l (k : nat) me s (Q : unit → psci_state H → Prop) :
  topo_wf (topo_of s) → 0 ≤ c < tp_cores (topo_of s) → 0 ≤ l ≤ PLAT_MAX_PWR_LVL →
  Z.of_nat k ≤ l → zlen (psci_locks s) = zlen (tp_nodes (topo_of s)) →
  (∀ s', upto (set_psci_locks (lock_all false (rev (ancs (topo_of s) c (Z.of_nat k))) (psci_locks s)) s) s' → Q tt s') →
  wp E (release_from k (ancs (topo_of s) c l)) me s Q.
Proof.
  revert s. induction k as [|k IH]; intros s Hw Hc Hl Hk Hlen HQ.
  - apply wp_ret, HQ. exists (hw s), (trace s). by destruct s.
  - cbn [release_from].
    destruct (topo_anc s c (Z.of_nat (S k)) Hw Hc) as (p & n & Hok & Hn & _); [lia|].
    apply wp_bind. eapply wp_some.
    { apply zget_ancs_ok; [lia|]. replace (Z.of_nat (S k) - 1 + 1) with (Z.of_nat (S k)) by lia.
      apply Hok. }
    destruct (zget_is_Some (psci_locks s) p) as [b Hb].
    { rewrite Hlen. eapply zget_Some_range, Hok. }
    apply wp_bind. eapply wp_lock_release; [done|apply Hok|done|].
    intros s' (h & t & ->). change (topo_of s) with (topo_of (set_hw h (set_trace t (set_psci_locks (zset (psci_locks s) p false) s)))).
    apply IH; [done..|lia| |].
    + ssimpl. by rewrite zlen_zset.
    + intros s' (h' & t' & ->). apply HQ. exists h', t'. ssimpl.
      rewrite (ancs_snoc (topo_of s) c (Z.of_nat (S k)) p) by (lia || apply Hok).
      rewrite rev_unit. cbn [lock_all foldl].
      by replace (Z.of_nat (S k) - 1) with (Z.of_nat k) by lia.
Qed.

Lemma wp_release E c l me s (Q : unit → psci_state H → Prop) :
  topo_wf (topo_of s) → 0 ≤ c < tp_cores (topo_of s) → 0 ≤ l ≤ PLAT_MAX_PWR_LVL →
  zlen (psci_locks s) = zlen (tp_nodes (topo_of s)) →
  (∀ s', upto (set_psci_locks (lock_all false (rev (ancs (topo_of s) c l)) (psci_locks s)) s) s' → Q tt s') →
  wp E (psci_release_pwr_domain_locks l (ancs (topo_of s) c l)) me s Q.
Proof.
  intros. eapply (wp_release_from _ c l (Z.to_nat l)); [done..|lia|done|].
  by rewrite Z2Nat.id by lia.
Qed.
End Walk.
