(* ===== verification/PsciCoord.v ===== *)
(** * State coordination against its reference

    The requests matrix, the platform's coordination law as an interface, and
    the routines that negotiate, apply, read back and undo the target states
    of a power domain hierarchy. *)

From stdpp Require Import base sets list numbers list_numbers.
From Stdlib Require Import ZArith Lia.
From S2P Require Import Prelude PsciTypes PsciCommon PsciStat PsciPower PsciTopo.
Open Scope Z_scope.
Open Scope mon_scope.

(** ** The interface the platform's coordination has to meet

    plat_get_target_pwr_state() looks at the requests of the [n] CPUs of a
    domain only, and a CPU that asked for RUN keeps the domain running. *)
Class CoordinationLaws `{cfg : Config} {H : Type} `{plat : !Platform H} : Prop := {
  target_total lvl cells n :
    0 < n ≤ zlen cells → n < 2 ^ 32 → ∃ t, plat_get_target_pwr_state (H:=H) lvl cells n = Some t;
  target_run lvl cells n i :
    0 < n ≤ zlen cells → n < 2 ^ 32 → 0 ≤ i < n → zget cells i = Some PSCI_LOCAL_STATE_RUN →
    plat_get_target_pwr_state (H:=H) lvl cells n = Some PSCI_LOCAL_STATE_RUN;
}.
Arguments CoordinationLaws {cfg} H {plat}.

(** ** The matrix of requests *)

Definition req_at (rq : list (list Z)) (l c : Z) : option Z :=
  zget rq (l - 1) ≫= λ row, zget row c.

Definition req_upd (rq : list (list Z)) (l c v : Z) : list (list Z) :=
  match zget rq (l - 1) with
  | Some row => zset rq (l - 1) (zset row c v)
  | None => rq
  end.

(** Levels [1 .. n] of CPU [c] set to the states of [st]. *)
Fixpoint req_levels (rq : list (list Z)) (c : Z) (f : Z → Z) (n : nat) : list (list Z) :=
  match n with
  | O => rq
  | S k => req_upd (req_levels rq c f k) (Z.of_nat n) c (f (Z.of_nat n))
  end.

Section Requests.
Context `{cfg : Config}.

Record req_dims (rq : list (list Z)) : Prop := {
  rd_levels : zlen rq = PLAT_MAX_PWR_LVL;
  rd_cpus l row : zget rq l = Some row → zlen row = PLATFORM_CORE_COUNT;
}.

Lemma req_dims_row rq l :
  req_dims rq → 1 ≤ l ≤ PLAT_MAX_PWR_LVL →
  ∃ row, zget rq (l - 1) = Some row ∧ zlen row = PLATFORM_CORE_COUNT.
Proof.
  intros Hd Hl. destruct (zget_is_Some rq (l - 1)) as [row Hr].
  { rewrite (rd_levels _ Hd). lia. }
  exists row. split; [done|]. by eapply rd_cpus.
Qed.

Lemma req_dims_upd rq l c v : req_dims rq → req_dims (req_upd rq l c v).
Proof.
  intros Hd. unfold req_upd. destruct (zget rq (l - 1)) as [row|] eqn:Hr; [|done].
  pose proof (zget_Some_range _ _ _ Hr). split.
  - rewrite zlen_zset. apply Hd.
  - intros l' row'. rewrite zget_zset by done. case_decide; [|apply Hd].
    intros [= <-]. rewrite zlen_zset. by eapply rd_cpus.
Qed.

Lemma req_at_upd rq l c v l' c' :
  req_dims rq → 1 ≤ l ≤ PLAT_MAX_PWR_LVL → 0 ≤ c < PLATFORM_CORE_COUNT →
  req_at (req_upd rq l c v) l' c' = if decide (l' = l ∧ c' = c) then Some v else req_at rq l' c'.
Proof.
  intros Hd Hl Hc. destruct (req_dims_row rq l Hd Hl) as (row & Hr & Hlen).
  pose proof (zget_Some_range _ _ _ Hr). unfold req_at, req_upd. rewrite Hr.
  rewrite zget_zset by done. destruct (decide (l - 1 = l' - 1)) as [He|Hne]; simpl.
  - assert (l' = l) as -> by lia. rewrite zget_zset by lia. rewrite Hr. simpl.
    destruct (decide (c = c')) as [->|]; [by rewrite decide_True|].
    rewrite decide_False by (intros [_ ->]; done). done.
  - by rewrite decide_False by lia.
Qed.

Lemma req_at_is_Some rq l c :
  req_dims rq → 1 ≤ l ≤ PLAT_MAX_PWR_LVL → 0 ≤ c < PLATFORM_CORE_COUNT →
  ∃ v, req_at rq l c = Some v.
Proof.
  intros Hd Hl Hc. destruct (req_dims_row rq l Hd Hl) as (row & Hr & Hlen).
  unfold req_at. rewrite Hr. simpl. apply zget_is_Some. lia.
Qed.

Lemma req_dims_levels rq c f n : req_dims rq → req_dims (req_levels rq c f n).
Proof. intros Hd. induction n; simpl; [done|]. by apply req_dims_upd. Qed.

Lemma req_at_levels rq c f n l c' :
  req_dims rq → Z.of_nat n ≤ PLAT_MAX_PWR_LVL → 0 ≤ c < PLATFORM_CORE_COUNT →
  req_at (req_levels rq c f n) l c' =
    if decide (1 ≤ l ≤ Z.of_nat n ∧ c' = c) then Some (f l) else req_at rq l c'.
Proof.
  intros Hd Hn Hc. induction n as [|n IH]; [by rewrite decide_False by lia|].
  cbn [req_levels]. rewrite req_at_upd by (lia || by apply req_dims_levels).
  rewrite IH by lia.
  destruct (decide (l = Z.of_nat (S n) ∧ c' = c)) as [[-> ->]|].
  - by rewrite decide_True by lia.
  - destruct (decide (1 ≤ l ≤ Z.of_nat n ∧ c' = c)) as [[? ->]|].
    + by rewrite decide_True by lia.
    + by rewrite decide_False by lia.
Qed.
End Requests.

(** ** Reference definition of the coordinated states *)

Section Reference.
Context `{cfg : Config} {H : Type} `{plat : !Platform H}.

(** What the platform makes of the requests [rq] of the CPUs in the domain of
    level [l] above CPU [c]. *)
Definition dom_target (T : topo) (rq : list (list Z)) (c l : Z) : option Z :=
  anc T c l ≫= λ p, zget (tp_nodes T) p ≫= λ n, zget rq (l - 1) ≫= λ row,
  plat_get_target_pwr_state (H:=H) l (drop (Z.to_nat (tn_start n)) row) (tn_ncpus n).

(** Some domain at the levels [1 .. k] has to keep running. *)
Fixpoint runs_below (T : topo) (rq : list (list Z)) (c : Z) (k : nat) : bool :=
  match k with
  | O => false
  | S k' => runs_below T rq c k'
            || bool_decide (dom_target T rq c (Z.of_nat k) = Some PSCI_LOCAL_STATE_RUN)
  end.

Definition coord_ref (T : topo) (rq : list (list Z)) (c end_pwrlvl : Z)
    (st : psci_power_state_t) (l : Z) : Z :=
  if decide (1 ≤ l ≤ end_pwrlvl) then
    if runs_below T rq c (Z.to_nat l) then PSCI_LOCAL_STATE_RUN
    else default PSCI_LOCAL_STATE_RUN (dom_target T rq c l)
  else pds st l.
End Reference.

Section CoordLemmas.
Context `{cfg : Config} `{cok : !ConfigOk} {H : Type} `{plat : !Platform H} `{laws : !CoordinationLaws H}.
Implicit Types (E : psci_state H → Prop) (s : psci_state H).

Definition ps_dims (st : psci_power_state_t) : Prop :=
  zlen (pwr_domain_state st) = PLAT_MAX_PWR_LVL + 1.

Lemma pds_get st l :
  ps_dims st → 0 ≤ l ≤ PLAT_MAX_PWR_LVL → zget (pwr_domain_state st) l = Some (pds st l).
Proof.
  unfold ps_dims, pds. intros Hd Hl.
  destruct (zget_is_Some (pwr_domain_state st) l) as [v ->]; [lia|done].
Qed.

Lemma ps_dims_set st l v : ps_dims st → ps_dims (set_pwr_domain_state st l v).
Proof. unfold ps_dims. simpl. by rewrite zlen_zset. Qed.

Lemma pds_set st l v l' :
  ps_dims st → 0 ≤ l ≤ PLAT_MAX_PWR_LVL →
  pds (set_pwr_domain_state st l v) l' = if decide (l' = l) then v else pds st l'.
Proof.
  unfold ps_dims, pds. simpl. intros Hd Hl. rewrite zget_zset by lia.
  destruct (decide (l = l')) as [->|]; [by rewrite decide_True|by rewrite decide_False].
Qed.

Lemma wp_set_req E l c v me s (Q : unit → psci_state H → Prop) :
  req_dims (psci_req_local_pwr_states s) → 1 ≤ l ≤ PLAT_MAX_PWR_LVL →
  0 ≤ c < psci_plat_core_count s → psci_plat_core_count s ≤ PLATFORM_CORE_COUNT →
  Q tt (set_psci_req_local_pwr_states (req_upd (psci_req_local_pwr_states s) l c v) s) →
  wp E (psci_set_req_local_pwr_state l c v) me s Q.
Proof.
  intros Hd Hl Hc Hcc HQ. unfold psci_set_req_local_pwr_state, PSCI_CPU_PWR_LVL.
  apply wp_bind, wp_assert; [lia|]. apply wp_bind, wp_gets.
  apply wp_when; [intros _|lia].
  destruct (req_dims_row _ l Hd Hl) as (row & Hr & Hlen).
  unfold write_req. apply wp_bind, wp_gets, wp_bind. eapply wp_some; [done|].
  apply wp_bind. eapply wp_some.
  { unfold zput. rewrite decide_True by lia. done. }
  apply wp_modify. unfold req_upd in HQ. by rewrite Hr in HQ.
Qed.

Lemma wp_get_req E l c row me s (Q : option (list Z) → psci_state H → Prop) :
  zget (psci_req_local_pwr_states s) (l - 1) = Some row → 1 ≤ l ≤ PLAT_MAX_PWR_LVL →
  0 ≤ c < psci_plat_core_count s →
  Q (Some (drop (Z.to_nat c) row)) s →
  wp E (psci_get_req_local_pwr_states l c) me s Q.
Proof.
  intros Hr Hl Hc HQ. unfold psci_get_req_local_pwr_states, PSCI_CPU_PWR_LVL.
  apply wp_bind, wp_assert; [lia|]. apply wp_bind, wp_gets.
  replace ((0 <? l) && (l <=? PLAT_MAX_PWR_LVL) && (c <? psci_plat_core_count s)) with true by lia.
  apply wp_bind, wp_gets, wp_bind. eapply wp_some; [done|]. by apply wp_ret.
Qed.

Lemma dom_target_is_Some T rq c l :
  topo_wf T → req_dims rq → 0 ≤ c < tp_cores T → 1 ≤ l ≤ PLAT_MAX_PWR_LVL →
  ∃ t, dom_target T rq c l = Some t.
Proof.
  intros Hw Hd Hc Hl. destruct (tw_anc _ Hw c l) as (p & n & Hok); [done..|].
  destruct (req_dims_row _ l Hd Hl) as (row & Hr & Hlen).
  pose proof (anc_cpu_in _ _ _ _ _ Hok Hc). pose proof (ao_range _ _ _ _ _ Hok).
  pose proof (tw_cores _ Hw). pose proof core_count_ok.
  unfold dom_target. rewrite (ao_anc _ _ _ _ _ Hok). simpl.
  rewrite (ao_node _ _ _ _ _ Hok). simpl. rewrite Hr. simpl.
  apply target_total; [|lia].
  unfold zlen in *. rewrite length_drop. lia.
Qed.

(** A CPU of the domain that asked for RUN keeps it running. *)
Lemma dom_target_run T rq c c' l p :
  topo_wf T → req_dims rq → 0 ≤ c < tp_cores T → 0 ≤ c' < tp_cores T →
  1 ≤ l ≤ PLAT_MAX_PWR_LVL → anc T c l = Some p → anc T c' l = Some p →
  req_at rq l c' = Some PSCI_LOCAL_STATE_RUN →
  dom_target T rq c l = Some PSCI_LOCAL_STATE_RUN.
Proof.
  intros Hw Hd Hc Hc' Hl Ha Ha' Hreq. destruct (tw_anc _ Hw c l) as (q & n & Hok); [done..|].
  destruct (req_dims_row _ l Hd Hl) as (row & Hr & Hlen).
  pose proof (ao_range _ _ _ _ _ Hok). pose proof (tw_cores _ Hw). pose proof core_count_ok.
  rewrite (ao_anc _ _ _ _ _ Hok) in Ha. simplify_eq.
  pose proof (anc_cpu_in _ _ _ _ _ Hok Hc).
  apply (ao_cpus _ _ _ _ _ Hok) in Ha'; [|done].
  unfold dom_target. rewrite (ao_anc _ _ _ _ _ Hok). simpl.
  rewrite (ao_node _ _ _ _ _ Hok). simpl. rewrite Hr. simpl.
  unfold req_at in Hreq. rewrite Hr in Hreq. simpl in Hreq.
  apply (target_run _ _ _ (c' - tn_start n)); [|lia|lia|].
  - unfold zlen in *. rewrite length_drop. lia.
  - unfold zget in *. rewrite decide_True by lia. rewrite decide_True in Hreq by lia. rewrite lookup_drop.
    rewrite <- Hreq. f_equal. lia.
Qed.

Lemma dom_target_row T rq rq' c l :
  zget rq (l - 1) = zget rq' (l - 1) → dom_target T rq c l = dom_target T rq' c l.
Proof. unfold dom_target. by intros ->. Qed.

Lemma zget_req_upd_ne rq l c v k :
  1 ≤ l → k ≠ l - 1 → zget (req_upd rq l c v) k = zget rq k.
Proof.
  intros Hl Hk. unfold req_upd. destruct (zget rq (l - 1)) eqn:Hr; [|done].
  apply zget_zset_ne; lia.
Qed.

Lemma zget_req_levels_ge rq c f n k :
  Z.of_nat n ≤ k → zget (req_levels rq c f n) k = zget rq k.
Proof.
  intros Hk. induction n as [|n IH]; cbn [req_levels]; [done|].
  rewrite zget_req_upd_ne by lia. apply IH. lia.
Qed.

Lemma zget_req_levels_stable rq c f n m k :
  (n ≤ m)%nat → k < Z.of_nat n → zget (req_levels rq c f m) k = zget (req_levels rq c f n) k.
Proof.
  intros Hnm Hk. induction Hnm as [|m Hm IH]; [done|]. cbn [req_levels].
  by rewrite zget_req_upd_ne by lia.
Qed.

Lemma runs_below_row T rq rq' c k :
  (∀ j, j < Z.of_nat k → zget rq j = zget rq' j) → runs_below (H:=H) T rq c k = runs_below (H:=H) T rq' c k.
Proof.
  induction k as [|k IH]; intros Heq; cbn [runs_below]; [done|].
  rewrite IH by (intros; apply Heq; lia). f_equal.
  rewrite (dom_target_row _ rq rq'); [done|]. apply Heq. lia.
Qed.

Lemma runs_below_mono T rq c k k' :
  (k ≤ k')%nat → runs_below (H:=H) T rq c k = true → runs_below (H:=H) T rq c k' = true.
Proof. induction 1; simpl; [done|]. intros Hk. by rewrite IHle. Qed.

(** Progress of psci_do_state_coordination(): the requests of the levels
    [1 .. n] are recorded and their targets settled. *)
Definition coordinated (T : topo) (rq rq' : list (list Z)) (c end_pwrlvl n : Z)
    (st sti : psci_power_state_t) s s' : Prop :=
  s' = set_psci_req_local_pwr_states (req_levels rq c (pds st) (Z.to_nat n)) s ∧
  ps_dims sti ∧ last_at_pwrlvl sti = last_at_pwrlvl st ∧
  ∀ l, 0 ≤ l ≤ PLAT_MAX_PWR_LVL →
    pds sti l = if decide (1 ≤ l ≤ n) then coord_ref (H:=H) T rq' c end_pwrlvl st l else pds st l.

Section DoCoord.
Context (s : psci_state H) (c end_pwrlvl : Z) (st : psci_power_state_t).
Let T := topo_of s.
Let rq := psci_req_local_pwr_states s.
Let rq' := req_levels rq c (pds st) (Z.to_nat end_pwrlvl).
Context (Hw : topo_wf T) (Hd : req_dims rq) (Hc : 0 ≤ c < tp_cores T).
Context (Hend : 0 ≤ end_pwrlvl ≤ PLAT_MAX_PWR_LVL) (Hst : ps_dims st).

(** Recording one more request and settling its level on [v]. *)
Lemma coordinated_step n sti s' v :
  coordinated T rq rq' c end_pwrlvl n st sti s s' → 0 ≤ n < end_pwrlvl →
  v = coord_ref (H:=H) T rq' c end_pwrlvl st (n + 1) →
  pds sti (n + 1) = pds st (n + 1) ∧
  coordinated T rq rq' c end_pwrlvl (n + 1) st (set_pwr_domain_state sti (n + 1) v) s
    (set_psci_req_local_pwr_states
       (req_upd (psci_req_local_pwr_states s') (n + 1) c (pds sti (n + 1))) s').
Proof using Hend.
  intros (-> & Hdi & Hla & Hp) Hn ->.
  assert (pds sti (n + 1) = pds st (n + 1)) as Heq.
  { rewrite Hp by lia. by rewrite decide_False by lia. }
  split; [done|]. rewrite Heq. split_and!.
  - ssimpl. replace (Z.to_nat (n + 1)) with (S (Z.to_nat n)) by lia. cbn [req_levels].
    by replace (Z.of_nat (S (Z.to_nat n))) with (n + 1) by lia.
  - by apply ps_dims_set.
  - done.
  - intros l Hl. rewrite pds_set by (done || lia). destruct (decide (l = n + 1)) as [->|].
    + by rewrite decide_True by lia.
    + rewrite Hp by done. destruct (decide (1 ≤ l ≤ n)).
      * by rewrite decide_True by lia.
      * by rewrite decide_False by lia.
Qed.

Lemma wp_coordinate_level E i sti par me s' :
  coordinated T rq rq' c end_pwrlvl (i - 1) st sti s s' → 1 ≤ i ≤ end_pwrlvl →
  anc T c i = Some par → runs_below (H:=H) T rq' c (Z.to_nat (i - 1)) = false →
  wp E (coordinate_level c i (sti, par)) me s' (λ '(brk, (sti', par')) s'',
    coordinated T rq rq' c end_pwrlvl i st sti' s s'' ∧
    runs_below (H:=H) T rq' c (Z.to_nat i) = brk ∧
    (brk = false → anc T c (i + 1) = Some par')).
Proof using Hw Hd Hc Hend Hst cok laws.
  intros Hco Hi Ha Hrun. pose proof Hco as (Hs' & Hdi & Hla & Hp).
  pose proof (tw_cores _ Hw) as Hcores.
  destruct (topo_anc s c i Hw Hc) as (p & n & Hok & Hn & Hup); [lia|].
  pose proof (ao_anc _ _ _ _ _ Hok) as Hpar. fold T in Hpar.
  assert (par = p) as -> by congruence.
  pose proof (ao_range _ _ _ _ _ Hok) as Hrange. pose proof (anc_cpu_in _ _ _ _ _ Hok Hc) as Hin.
  unfold coordinate_level. apply wp_bind. eapply wp_some; [apply pds_get; [done|lia]|].
  apply wp_bind. apply wp_set_req; [subst s'; by apply req_dims_levels|lia|subst s'; simpl in *; lia|subst s'; simpl in *; lia|].
  assert (Hnode : zget (psci_non_cpu_pd_nodes s') p = Some n) by (by subst s').
  assert (Hcore : psci_plat_core_count s' = tp_cores T) by (by subst s').
  destruct (coordinated_step (i - 1) sti s' _ Hco ltac:(lia) eq_refl) as [Heq Hnext].
  replace (i - 1 + 1) with i in Hnext, Heq by lia.
  set (s1 := set_psci_req_local_pwr_states _ s') in *.
  destruct Hnext as (Hs1 & Hd1 & Hla1 & Hp1).
  assert (Hrow : zget (psci_req_local_pwr_states s1) (i - 1) = zget rq' (i - 1)).
  { rewrite Hs1. simpl. unfold rq'. symmetry. apply zget_req_levels_stable; lia. }
  destruct (req_dims_row rq' i) as (row & Hr & Hlen); [by apply req_dims_levels|lia|].
  rewrite Hr in Hrow.
  apply wp_bind. eapply wp_get_non_cpu_node; [done|].
  apply wp_bind. eapply wp_get_req; [done|lia|simpl in *; lia|].
  apply wp_bind. eapply wp_some; [done|].
  destruct (dom_target_is_Some T rq' c i Hw) as [t Ht]; [by apply req_dims_levels|done|lia|].
  pose proof Ht as Ht'. unfold dom_target in Ht'. rewrite Ha in Ht'. simpl in Ht'.
  rewrite zget_fmap, Hn in Ht'. simpl in Ht'. rewrite Hr in Ht'. simpl in Ht'.
  apply wp_bind. eapply wp_some; [exact Ht'|].
  assert (Hrb : runs_below (H:=H) T rq' c (Z.to_nat i) = is_local_state_run t).
  { replace (Z.to_nat i) with (S (Z.to_nat (i - 1))) by lia. cbn [runs_below].
    rewrite Hrun. replace (Z.of_nat (S (Z.to_nat (i - 1)))) with i by lia. rewrite Ht.
    unfold is_local_state_run. rewrite orb_false_l.
    apply eq_true_iff_eq. rewrite bool_decide_eq_true, Z.eqb_eq.
    split; congruence. }
  assert (Hcr : coord_ref (H:=H) T rq' c end_pwrlvl st i = t).
  { unfold coord_ref. rewrite decide_True by lia. rewrite Hrb, Ht.
    unfold is_local_state_run. simpl. destruct (Z.eqb_spec t PSCI_LOCAL_STATE_RUN); done. }
  assert (coordinated T rq rq' c end_pwrlvl i st (set_pwr_domain_state sti i t) s s1) as Hfin.
  { split_and!; [done|by apply ps_dims_set|done|]. rewrite <- Hcr. apply Hp1. }
  destruct (is_local_state_run t) eqn:Hrt; apply wp_ret; split_and!; try done.
Qed.

Lemma wp_do_coordination E me (Q : psci_power_state_t → psci_state H → Prop) :
  (∀ st', ps_dims st' → last_at_pwrlvl st' = last_at_pwrlvl st →
     (∀ l, 0 ≤ l ≤ PLAT_MAX_PWR_LVL → pds st' l = coord_ref (H:=H) T rq' c end_pwrlvl st l) →
     Q st' (set_psci_req_local_pwr_states rq' s)) →
  wp E (psci_do_state_coordination c end_pwrlvl st) me s Q.
Proof using Hw Hd Hc Hend Hst cok laws.
  intros HQ. unfold psci_do_state_coordination. apply wp_bind, wp_assert; [lia|].
  destruct (topo_cpu_parent s c Hw Hc) as (cn & Hcn & Hp1).
  apply wp_bind. eapply wp_get_cpu_node; [done|]. apply wp_bind. unfold PSCI_CPU_PWR_LVL.
  set (L2 := λ (x : Z * (psci_power_state_t * Z)) s', 1 ≤ x.1 ∧
    coordinated T rq rq' c end_pwrlvl (Z.min x.1 end_pwrlvl) st x.2.1 s s' ∧
    (x.1 ≤ end_pwrlvl → runs_below (H:=H) T rq' c (Z.to_nat x.1) = true)).
  eapply wp_mono.
  { eapply (wp_for_brk_to _ (λ i (x : psci_power_state_t * Z) s', 1 ≤ i ∧
      coordinated T rq rq' c end_pwrlvl (i - 1) st x.1 s s' ∧ anc T c i = Some x.2 ∧
      runs_below (H:=H) T rq' c (Z.to_nat (i - 1)) = false) L2).
    - split_and!; [done| |done|done]. split_and!; [by destruct s|done|done|].
      intros l Hl. by rewrite decide_False by lia.
    - intros i [sti par] s' Hi (_ & Hco & Ha & Hrun); simpl in *.
      eapply wp_mono; [by apply wp_coordinate_level|].
      intros [[|] [sti' par']] s'' (Hco' & Hrun' & Ha').
      + unfold L2; simpl. split_and!; [lia| |done]. by replace (Z.min i end_pwrlvl) with i by lia.
      + split_and!; [lia| |by apply Ha'|]; by replace (i + 1 - 1) with i by lia.
    - intros [sti par] s' (_ & Hco & _ & _). unfold L2; cbn [fst snd] in *.
      split_and!; [lia| |lia].
      by replace (Z.min (Z.max (0 + 1) (end_pwrlvl + 1)) end_pwrlvl)
        with (Z.max (0 + 1) (end_pwrlvl + 1) - 1) by lia. }
  intros [lvl [sti par]] s' (Hlvl & Hco & Hrun). cbn [fst snd] in *.
  eapply (wp_for_to _ (λ j sti s',
    coordinated T rq rq' c end_pwrlvl (Z.min (j - 1) end_pwrlvl) st sti s s')).
  - by replace (lvl + 1 - 1) with lvl by lia.
  - intros j stj sj Hj Hcoj. rewrite (Z.min_l (j - 1)) in Hcoj by lia.
    pose proof Hcoj as (Hsj & Hdj & Hlaj & Hpj).
    apply wp_bind. eapply wp_some; [apply pds_get; [done|lia]|].
    pose proof (tw_cores _ Hw).
    apply wp_bind, wp_set_req; [subst sj; by apply req_dims_levels|lia|subst sj; simpl in *; lia|subst sj; simpl in *; lia|].
    apply wp_ret. rewrite Z.min_l by lia.
    destruct (coordinated_step (j - 1) stj sj PSCI_LOCAL_STATE_RUN Hcoj) as [_ Hnext].
    + lia.
    + unfold coord_ref. rewrite decide_True by lia.
      rewrite (runs_below_mono _ _ _ (Z.to_nat lvl)); [done|lia|apply Hrun; lia].
    + replace (j - 1 + 1) with j in Hnext by lia. by replace (j + 1 - 1) with j by lia.
  - intros stj sj Hcoj. replace (Z.min _ end_pwrlvl) with end_pwrlvl in Hcoj by lia.
    destruct Hcoj as (-> & Hdj & Hlaj & Hpj). apply HQ; [done..|].
    intros l Hl. rewrite Hpj by done. case_decide as Hdec; [done|].
    unfold coord_ref. by rewrite decide_False.
Qed.
End DoCoord.
End CoordLemmas.

(** ** Applying and reading back the states of a CPU's ancestors *)

(** The nodes above CPU [c] at levels [1 .. n] put in the states [f]. *)
Fixpoint node_levels (T : topo) (c : Z) (f : Z → Z) (n : nat) (nodes : list non_cpu_pd_node_t)
    : list non_cpu_pd_node_t :=
  match n with
  | O => nodes
  | S k =>
      let nodes' := node_levels T c f k nodes in
      match anc T c (Z.of_nat n) with
      | Some p =>
          match zget nodes' p with
          | Some nd => zset nodes' p (with_nc_local_state (f (Z.of_nat n)) nd)
          | None => nodes'
          end
      | None => nodes'
      end
  end.

Definition nc_state (nodes : list non_cpu_pd_node_t) (p : Z) : option Z :=
  nc_local_state <$> zget nodes p.

Lemma node_levels_shape T c f n nodes :
  tnode_of <$> node_levels T c f n nodes = tnode_of <$> nodes.
Proof.
  induction n as [|n IH]; cbn [node_levels]; [done|].
  destruct (anc T c _) as [p|]; [|done].
  destruct (zget (node_levels T c f n nodes) p) as [nd|] eqn:Hnd; [|done].
  rewrite <- IH. by eapply fmap_zset_same.
Qed.

Section ApplyLemmas.
Context `{cfg : Config} `{cok : !ConfigOk} {H : Type} `{plat : !Platform H}.
Implicit Types (E : psci_state H → Prop) (s : psci_state H).

Lemma zlen_node_levels T c f n nodes : zlen (node_levels T c f n nodes) = zlen nodes.
Proof.
  rewrite <- (zlen_fmap tnode_of (node_levels T c f n nodes)).
  by rewrite node_levels_shape, zlen_fmap.
Qed.

(** The state of every node afterwards. *)
Lemma nc_state_levels T c f n nodes p :
  topo_wf T → tp_nodes T = tnode_of <$> nodes → 0 ≤ c < tp_cores T →
  Z.of_nat n ≤ PLAT_MAX_PWR_LVL →
  (∀ l, 1 ≤ l ≤ Z.of_nat n → anc T c l = Some p →
        nc_state (node_levels T c f n nodes) p = Some (f l)) ∧
  ((∀ l, 1 ≤ l ≤ Z.of_nat n → anc T c l ≠ Some p) →
   nc_state (node_levels T c f n nodes) p = nc_state nodes p).
Proof.
  intros Hw Hsh Hc Hn. induction n as [|n IH].
  { split; [lia|done]. }
  destruct IH as [IH1 IH2]; [lia|].
  cbn [node_levels]. set (nodes' := node_levels T c f n nodes) in *.
  destruct (tw_anc _ Hw c (Z.of_nat (S n))) as (q & tn & Hok); [done|lia|].
  rewrite (ao_anc _ _ _ _ _ Hok).
  assert (∃ nd, zget nodes' q = Some nd) as [nd Hnd].
  { apply zget_is_Some. unfold nodes'. rewrite zlen_node_levels.
    rewrite <- (zlen_fmap tnode_of), <- Hsh. eapply zget_Some_range, Hok. }
  rewrite Hnd. pose proof (zget_Some_range _ _ _ Hnd).
  unfold nc_state. rewrite zget_zset by done. split.
  - intros l Hl Ha. destruct (decide (q = p)) as [->|Hne].
    + assert (l = Z.of_nat (S n)) as -> by (eapply (anc_inj_level T c c); (done || lia || apply Hok)).
      done.
    + apply IH1; [|done]. destruct (decide (l = Z.of_nat (S n))) as [->|]; [|lia].
      pose proof (ao_anc _ _ _ _ _ Hok). congruence.
  - intros Hno. rewrite decide_False.
    + apply IH2. intros l Hl. apply Hno. lia.
    + intros ->. apply (Hno (Z.of_nat (S n))); [lia|apply Hok].
Qed.

Lemma wp_node_flush E p me s (Q : unit → psci_state H → Prop) :
  (∀ s', upto s s' → Q tt s') → wp E (node_flush p) me s Q.
Proof.
  intros HQ. apply wp_when; intros _; [by apply wp_emit|]. by apply HQ.
Qed.

Lemma wp_get_nc E p nd me s (Q : Z → psci_state H → Prop) :
  zget (psci_non_cpu_pd_nodes s) p = Some nd →
  (∀ s', upto s s' → Q (nc_local_state nd) s') →
  wp E (get_non_cpu_pd_node_local_state p) me s Q.
Proof.
  intros Hn HQ. apply wp_bind, wp_node_flush. intros s' (h & t & ->).
  apply wp_bind. eapply wp_get_non_cpu_node; [done|]. apply wp_ret, HQ. by exists h, t.
Qed.

Lemma wp_set_nc E p nd v me s (Q : unit → psci_state H → Prop) :
  zget (psci_non_cpu_pd_nodes s) p = Some nd →
  (∀ s', upto (set_psci_non_cpu_pd_nodes
                 (zset (psci_non_cpu_pd_nodes s) p (with_nc_local_state v nd)) s) s' → Q tt s') →
  wp E (set_non_cpu_pd_node_local_state p v) me s Q.
Proof.
  intros Hn HQ. apply wp_bind. eapply wp_upd_non_cpu_node; [done|]. by apply wp_node_flush.
Qed.

Lemma wp_flush_cpu_data E me s (Q : unit → psci_state H → Prop) :
  (∀ s', upto s s' → Q tt s') → wp E psci_flush_cpu_data me s Q.
Proof.
  intros HQ. apply wp_bind, wp_my_core_pos. apply wp_when; intros _; [by apply wp_emit|].
  by apply HQ.
Qed.

(** What a walk up the ancestors that writes their states leaves behind after
    the levels below [i]. *)
Definition walked (c : Z) (f : Z → Z) s (i : Z) (par : Z) s' : Prop :=
  upto (set_psci_non_cpu_pd_nodes
          (node_levels (topo_of s) c f (Z.to_nat (i - 1)) (psci_non_cpu_pd_nodes s)) s) s' ∧
  anc (topo_of s) c i = Some par.

Lemma walked_node c f s i par s' :
  walked c f s i par s' → topo_wf (topo_of s) → 0 ≤ c < tp_cores (topo_of s) →
  1 ≤ i ≤ PLAT_MAX_PWR_LVL →
  ∃ nd, zget (psci_non_cpu_pd_nodes s') par = Some nd ∧
        anc (topo_of s) c (i + 1) = Some (parent_node nd).
Proof.
  intros [(h & t & ->) Ha] Hw Hc Hi.
  destruct (topo_anc s c i Hw Hc Hi) as (p & n & Hok & Hn & Hup).
  rewrite (ao_anc _ _ _ _ _ Hok) in Ha. simplify_eq. ssimpl.
  pose proof (node_levels_shape (topo_of s) c f (Z.to_nat (i - 1)) (psci_non_cpu_pd_nodes s)) as Hsh.
  apply (f_equal (λ x, zget x par)) in Hsh. rewrite !zget_fmap, Hn in Hsh.
  destruct (zget (node_levels _ _ _ _ _) par) as [nd|]; [|done]. exists nd. split; [done|].
  simpl in Hsh. unfold tnode_of in Hsh. congruence.
Qed.

(** One write of the walk, up to hardware. *)
Lemma walked_step c f s i par nd s1 s2 :
  walked c f s i par s1 → 1 ≤ i → zget (psci_non_cpu_pd_nodes s1) par = Some nd →
  upto (set_psci_non_cpu_pd_nodes
          (zset (psci_non_cpu_pd_nodes s1) par (with_nc_local_state (f i) nd)) s1) s2 →
  upto (set_psci_non_cpu_pd_nodes
          (node_levels (topo_of s) c f (Z.to_nat i) (psci_non_cpu_pd_nodes s)) s) s2.
Proof.
  intros [(h & t & ->) Ha] Hi Hnd (h' & t' & ->). ssimpl.
  exists h', t'. replace (Z.to_nat i) with (S (Z.to_nat (i - 1))) by lia. cbn [node_levels].
  replace (Z.of_nat (S (Z.to_nat (i - 1)))) with i by lia. rewrite Ha, Hnd. done.
Qed.

Lemma walked_init c f s s' p :
  upto s s' → anc (topo_of s) c 1 = Some p → walked c f s 1 p s'.
Proof. intros (h & t & ->) Ha. split; [|done]. exists h, t. by destruct s. Qed.

Lemma upto_data s s' d : upto s s' → upto (set_psci_svc_cpu_data d s) (set_psci_svc_cpu_data d s').
Proof. intros (h & t & ->). by exists h, t. Qed.

Lemma wp_set_target E l st d me s (Q : unit → psci_state H → Prop) :
  topo_wf (topo_of s) → 0 ≤ me < tp_cores (topo_of s) → 0 ≤ l ≤ PLAT_MAX_PWR_LVL → ps_dims st →
  zget (psci_svc_cpu_data s) me = Some d →
  (∀ s', upto (set_psci_non_cpu_pd_nodes
                 (node_levels (topo_of s) me (pds st) (Z.to_nat l) (psci_non_cpu_pd_nodes s))
                 (set_psci_svc_cpu_data
                    (zset (psci_svc_cpu_data s) me (with_local_state (pds st 0) d)) s)) s' →
         Q tt s') →
  wp E (psci_set_target_local_pwr_states me l st) me s Q.
Proof.
  intros Hw Hc Hl Hst Hd HQ. unfold psci_set_target_local_pwr_states, psci_set_cpu_local_state.
  apply wp_bind, wp_bind, wp_my_core_pos. eapply wp_upd_cpu_data; [done|].
  set (s1 := set_psci_svc_cpu_data _ s).
  apply wp_bind, wp_flush_cpu_data. intros s2 Hu.
  destruct (topo_cpu_parent s me Hw Hc) as (cn & Hcn & Hp1).
  assert (topo_of s2 = topo_of s) as HT by (by rewrite <- Hu).
  apply wp_bind. eapply wp_get_cpu_node; [by destruct Hu as (h & t & ->)|]. apply wp_bind.
  eapply (wp_for_to _ (walked me (pds st) s1)).
  - by apply walked_init.
  - intros i par s' Hi Hwk. apply wp_bind. eapply wp_some; [apply pds_get; [done|lia]|].
    destruct (walked_node _ _ _ _ _ _ Hwk Hw Hc) as (nd & Hnd & Hup); [lia|].
    apply wp_bind. eapply wp_set_nc; [done|]. intros s3 Hu3.
    apply wp_bind. eapply wp_get_non_cpu_node.
    { destruct Hu3 as (h & t & ->). ssimpl. apply zget_zset_eq. by eapply zget_Some_range. }
    apply wp_ret. split; [|done]. replace (i + 1 - 1) with i by lia.
    eapply walked_step; [done|lia|done|done].
  - intros par s' [Hu' _]. apply wp_ret, HQ.
    by replace (Z.to_nat (Z.max 1 (l + 1) - 1)) with (Z.to_nat l) in Hu' by lia.
Qed.

Lemma wp_get_target E l st d me s (Q : psci_power_state_t → psci_state H → Prop) :
  topo_wf (topo_of s) → 0 ≤ me < tp_cores (topo_of s) → 0 ≤ l ≤ PLAT_MAX_PWR_LVL → ps_dims st →
  zget (psci_svc_cpu_data s) me = Some d →
  (∀ s' st', upto s s' → ps_dims st' → pds st' 0 = local_state d →
     (∀ k p, 1 ≤ k ≤ l → anc (topo_of s) me k = Some p →
             nc_state (psci_non_cpu_pd_nodes s) p = Some (pds st' k)) →
     (∀ k, l < k ≤ PLAT_MAX_PWR_LVL → pds st' k = PSCI_LOCAL_STATE_RUN) → Q st' s') →
  wp E (psci_get_target_local_pwr_states me l st) me s Q.
Proof.
  intros Hw Hc Hl Hst Hd HQ. unfold psci_get_target_local_pwr_states.
  apply wp_bind, wp_bind, wp_my_core_pos, wp_bind. eapply wp_get_cpu_data; [done|]. apply wp_ret.
  destruct (topo_cpu_parent s me Hw Hc) as (cn & Hcn & Hp1).
  apply wp_bind. eapply wp_get_cpu_node; [done|]. apply wp_bind. unfold PSCI_CPU_PWR_LVL.
  eapply (wp_for_to _ (λ i (x : psci_power_state_t * Z) s', upto s s' ∧ ps_dims x.1 ∧
    pds x.1 0 = local_state d ∧ anc (topo_of s) me i = Some x.2 ∧
    (∀ k p, 1 ≤ k < i → anc (topo_of s) me k = Some p →
            nc_state (psci_non_cpu_pd_nodes s) p = Some (pds x.1 k)))).
  - split_and!; [done|by apply ps_dims_set| |done|lia]. cbn [fst].
    rewrite pds_set by (done || (pose proof max_pwr_lvl_ok; lia)). done.
  - intros i [sti par] s' Hi ((h & t & ->) & Hdi & Hp0 & Ha & Hk); cbn [fst snd] in *.
    destruct (topo_anc s me i Hw Hc) as (p & n & Hok & Hn & Hup); [lia|].
    rewrite (ao_anc _ _ _ _ _ Hok) in Ha. simplify_eq.
    apply wp_bind. eapply wp_get_nc; [done|]. intros s' Hu'.
    apply wp_bind. eapply wp_some.
    { unfold zput. unfold ps_dims in Hdi. rewrite decide_True by lia. done. }
    apply wp_bind. eapply wp_get_non_cpu_node; [by destruct Hu' as (h' & t' & ->)|].
    apply wp_ret. cbn [fst snd].
    change (PowerState (zset (pwr_domain_state sti) i (nc_local_state n)) (last_at_pwrlvl sti))
      with (set_pwr_domain_state sti i (nc_local_state n)).
    split_and!; [|by apply ps_dims_set| |done|].
    + etrans; [|exact Hu']. by exists h, t.
    + rewrite pds_set by (done || lia). by rewrite decide_False by lia.
    + intros k q Hk' Hq. rewrite pds_set by (done || lia). case_decide as Hki.
      * subst k. rewrite (ao_anc _ _ _ _ _ Hok) in Hq. simplify_eq. unfold nc_state. by rewrite Hn.
      * apply Hk; [lia|done].
  - intros [sti par] s1 (Hu & Hdi & Hp0 & _ & Hk); cbn [fst snd] in *.
    eapply (wp_for_to _ (λ i st' s', s' = s1 ∧ ps_dims st' ∧
      ∀ k, 0 ≤ k ≤ PLAT_MAX_PWR_LVL → pds st' k = if decide (l < k < i) then PSCI_LOCAL_STATE_RUN else pds sti k)).
    + split_and!; [done..|]. intros k Hk'. by rewrite decide_False by lia.
    + intros i st' s' Hi (-> & Hd' & Hp'). apply wp_ret. split_and!; [done|by apply ps_dims_set|].
      intros k Hk'. rewrite pds_set by (done || lia). case_decide as Hki.
      * by rewrite decide_True by lia.
      * rewrite Hp' by done. destruct (decide (l < k < i)).
        { by rewrite decide_True by lia. }
        by rewrite decide_False by lia.
    + intros st' s' (-> & Hd' & Hp'). apply HQ; [done..| | |].
      * rewrite Hp' by (pose proof max_pwr_lvl_ok; lia). by rewrite decide_False by lia.
      * intros k p Hk' Hp. rewrite Hp' by lia. rewrite decide_False by lia. apply Hk; [lia|done].
      * intros k Hk'. rewrite Hp' by lia. by rewrite decide_True by lia.
Qed.

Lemma wp_set_run E l d me s (Q : unit → psci_state H → Prop) :
  topo_wf (topo_of s) → 0 ≤ me < tp_cores (topo_of s) → 0 ≤ l ≤ PLAT_MAX_PWR_LVL →
  req_dims (psci_req_local_pwr_states s) → zget (psci_svc_cpu_data s) me = Some d →
  (∀ s', upto (set_psci_non_cpu_pd_nodes
                 (node_levels (topo_of s) me (λ _, PSCI_LOCAL_STATE_RUN) (Z.to_nat l)
                    (psci_non_cpu_pd_nodes s))
              (set_psci_req_local_pwr_states
                 (req_levels (psci_req_local_pwr_states s) me (λ _, PSCI_LOCAL_STATE_RUN) (Z.to_nat l))
              (set_psci_svc_cpu_data
                 (zset (psci_svc_cpu_data s) me
                    (CpuData AFF_STATE_ON (target_pwrlvl d) PSCI_LOCAL_STATE_RUN)) s))) s' →
         Q tt s') →
  wp E (psci_set_pwr_domains_to_run me l) me s Q.
Proof.
  intros Hw Hc Hl Hrd Hd HQ. unfold psci_set_pwr_domains_to_run.
  destruct (topo_cpu_parent s me Hw Hc) as (cn & Hcn & Hp1).
  apply wp_bind. eapply wp_get_cpu_node; [done|]. apply wp_bind.
  set (f := λ _ : Z, PSCI_LOCAL_STATE_RUN) in *.
  eapply (wp_for_to _ (λ i par s', ∃ s1, walked me f s i par s1 ∧
    s' = set_psci_req_local_pwr_states
           (req_levels (psci_req_local_pwr_states s) me f (Z.to_nat (i - 1))) s1)).
  - exists s. split; [by apply walked_init|by destruct s].
  - intros i par s' Hi (s1 & Hwk & ->). unfold PSCI_CPU_PWR_LVL in *.
    destruct (walked_node _ _ _ _ _ _ Hwk Hw Hc) as (nd & Hnd & Hup); [lia|].
    pose proof (tw_cores _ Hw).
    apply wp_bind. eapply wp_set_nc; [done|]. intros s3 Hu3. change PSCI_LOCAL_STATE_RUN with (f i) in Hu3.
    apply wp_bind. destruct Hu3 as (h3 & t3 & ->).
    apply wp_set_req; ssimpl; [by apply req_dims_levels|lia|destruct Hwk as [(h & t & ->) _]; simpl in *; lia..|].
    apply wp_bind. eapply wp_get_non_cpu_node.
    { ssimpl. apply zget_zset_eq. by eapply zget_Some_range. }
    apply wp_ret.
    exists (set_psci_non_cpu_pd_nodes (zset (psci_non_cpu_pd_nodes s1) par (with_nc_local_state (f i) nd))
              (set_hw h3 (set_trace t3 s1))). split.
    + split; [|done]. replace (i + 1 - 1) with i by lia.
      eapply walked_step; [done|lia|done|]. by exists h3, t3.
    + replace (Z.to_nat (i + 1 - 1)) with (S (Z.to_nat (i - 1))) by lia. cbn [req_levels].
      by replace (Z.of_nat (S (Z.to_nat (i - 1)))) with i by lia.
  - intros par s' (s1 & [Hu _] & ->).
    unfold PSCI_CPU_PWR_LVL in Hu |- *. replace (Z.to_nat (Z.max (0 + 1) (l + 1) - 1)) with (Z.to_nat l) in Hu |- * by lia.
    destruct Hu as (h & t & ->).
    unfold psci_set_aff_info_state, psci_set_aff_info_state_by_idx, psci_set_cpu_local_state.
    apply wp_bind, wp_bind, wp_my_core_pos. eapply wp_upd_cpu_data; [done|].
    apply wp_bind, wp_bind, wp_my_core_pos. eapply wp_upd_cpu_data.
    { ssimpl. apply zget_zset_eq. by eapply zget_Some_range. }
    apply wp_flush_cpu_data. intros s' (h' & t' & ->). apply HQ. exists h', t'. ssimpl.
    by rewrite zset_zset.
Qed.
End ApplyLemmas.
