(* ===== verification/PsciInv.v ===== *)
(** * Contracts and the invariant of the library

    What the platform port, the Secure Payload Dispatcher and the CPU driver
    have to guarantee (the porting guide's requirements, which the library
    checks with assertions in debug builds), and the invariant that holds of
    the library's state whenever no handler is running. *)

From stdpp Require Import base sets list numbers list_numbers.
From Stdlib Require Import ZArith Lia.
From S2P Require Import Prelude PsciTypes PsciCommon PsciStat PsciPower PsciSetup PsciMain.
From S2P Require Import PsciTopo PsciCoord.
Open Scope Z_scope.
Open Scope mon_scope.

(** ** Contracts *)

Section Contracts.
Context `{cfg : Config} {H : Type} `{plat : !Platform H}.

(** No hook faults on the arguments the library passes. *)
Record ops_safe (ops : plat_psci_ops_t H) : Prop := {
  sf_standby x : opt_wsafe ((λ f, f x) <$> cpu_standby ops);
  sf_on m : is_valid_mpidr (H:=H) m = true → opt_safe ((λ f, f m) <$> pwr_domain_on ops);
  sf_off st : ps_dims st → opt_safe ((λ f, f st) <$> pwr_domain_off ops);
  sf_off_early st : ps_dims st → opt_safe ((λ f, f st) <$> pwr_domain_off_early ops);
  sf_pwrdown_early st : ps_dims st → opt_safe ((λ f, f st) <$> pwr_domain_suspend_pwrdown_early ops);
  sf_suspend st : ps_dims st → opt_safe ((λ f, f st) <$> pwr_domain_suspend ops);
  sf_on_finish st : ps_dims st → is_local_state_off (pds st 0) = true →
    opt_safe ((λ f, f st) <$> pwr_domain_on_finish ops);
  sf_on_finish_late st : ps_dims st → opt_safe ((λ f, f st) <$> pwr_domain_on_finish_late ops);
  sf_suspend_finish st : ps_dims st → opt_safe ((λ f, f st) <$> pwr_domain_suspend_finish ops);
  sf_pwr_down st : ps_dims st → opt_wsafe ((λ f, f st) <$> pwr_domain_pwr_down ops);
  sf_system_off : opt_wsafe (system_off ops);
  sf_system_reset : opt_wsafe (system_reset ops);
  sf_system_reset2 v r c : opt_wsafe ((λ f, f v r c) <$> system_reset2 ops);
  sf_validate ps : psci_check_power_state ps = 0 →
    opt_safe ((λ f, f ps power_state_run) <$> validate_power_state ops);
  sf_ns_entrypoint e : opt_safe ((λ f, f e) <$> validate_ns_entrypoint ops);
  sf_sys_suspend st : ps_dims st → opt_safe ((λ f, f st) <$> get_sys_suspend_power_state ops);
  sf_node_hw_state m l : opt_safe ((λ f, f m l) <$> get_node_hw_state ops);
  sf_mem_chk b n : opt_safe ((λ f, f b n) <$> mem_protect_chk ops);
  sf_read_mem : opt_safe (read_mem_protect ops);
  sf_write_mem v : opt_safe ((λ f, f v) <$> write_mem_protect ops);
}.

Record ops_ok (ops : plat_psci_ops_t H) : Prop := {
  ok_safe : ops_safe ops;
  ok_on f m me h rc h' :
    pwr_domain_on ops = Some f → is_valid_mpidr (H:=H) m = true → f m me h = HRet rc h' →
    rc = PSCI_E_SUCCESS ∨ rc = PSCI_E_INTERN_FAIL;
  ok_off_early f st me h rc h' :
    pwr_domain_off_early ops = Some f → f st me h = HRet rc h' →
    rc = PSCI_E_SUCCESS ∨ rc = PSCI_E_DENIED;
  (** a power state the platform accepts is well formed, and powers the CPU
      down exactly if it is a power-down state *)
  ok_validate f ps me h rc st h' :
    validate_power_state ops = Some f → psci_check_power_state ps = 0 →
    f ps power_state_run me h = HRet (rc, st) h' →
    rc = PSCI_E_INVALID_PARAMS ∨
    rc = PSCI_E_SUCCESS ∧ ps_dims st ∧
    psci_validate_suspend_req st (psci_get_pstate_type ps) = PSCI_E_SUCCESS ∧
    (psci_get_pstate_type ps ≠ 0 → is_local_state_off (pds st 0) = true);
  ok_sys_suspend f st me h st' h' :
    get_sys_suspend_power_state ops = Some f → ps_dims st → f st me h = HRet st' h' →
    ps_dims st' ∧ psci_validate_suspend_req st' PSTATE_TYPE_POWERDOWN = PSCI_E_SUCCESS ∧
    ∀ l, 0 ≤ l ≤ PLAT_MAX_PWR_LVL → is_local_state_off (pds st' l) = true;
  ok_node_hw_state f m l me h rc h' :
    get_node_hw_state ops = Some f → f m l me h = HRet rc h' →
    HW_ON ≤ rc ≤ HW_STANDBY ∨ rc = PSCI_E_NOT_SUPPORTED ∨ rc = PSCI_E_INVALID_PARAMS;
}.

Record spd_ok (pm : spd_pm_ops_t H) : Prop := {
  ok_svc_on_safe m : opt_safe ((λ f, f m) <$> svc_on pm);
  ok_svc_off_safe : opt_safe (svc_off pm);
  ok_svc_suspend_safe l : opt_safe ((λ f, f l) <$> svc_suspend pm);
  ok_svc_on_finish_safe : opt_safe (svc_on_finish pm);
  ok_svc_suspend_finish_safe l ab : opt_safe ((λ f, f l ab) <$> svc_suspend_finish pm);
  ok_svc_migrate_safe a b : opt_safe ((λ f, f a b) <$> svc_migrate pm);
  ok_svc_migrate_info_safe m : opt_safe ((λ f, f m) <$> svc_migrate_info pm);
  ok_svc_system_off_safe : opt_safe (svc_system_off pm);
  ok_svc_system_reset_safe : opt_safe (svc_system_reset pm);
  ok_svc_off f me h rc h' :
    svc_off pm = Some f → f me h = HRet rc h' → rc = PSCI_E_SUCCESS ∨ rc = PSCI_E_DENIED;
  ok_svc_migrate f a b me h rc h' :
    svc_migrate pm = Some f → f a b me h = HRet rc h' →
    rc = PSCI_E_SUCCESS ∨ rc = PSCI_E_INTERN_FAIL;
  ok_svc_migrate_info f m me h rc m' h' :
    svc_migrate_info pm = Some f → f m me h = HRet (rc, m') h' →
    rc = PSCI_TOS_UP_MIG_CAP ∨ rc = PSCI_TOS_NOT_UP_MIG_CAP ∨ rc = PSCI_TOS_NOT_PRESENT_MP
    ∨ rc = PSCI_E_NOT_SUPPORTED;
}.

(** The CPU driver has a handler for both levels, and psci_power_state_t has
    a cell for every level. *)
Record plat_ok : Prop := {
  ok_cpu_ops l : 0 ≤ l < CPU_MAX_PWR_DWN_OPS → is_Some (cpu_pwr_dwn_op (H:=H) l);
  ok_cpu_ops_safe l : opt_safe (cpu_pwr_dwn_op (H:=H) l);
  ok_uninit me h : ps_dims (uninit_power_state (H:=H) me h);
}.

(** A capability bit is set only if the hooks its function calls exist. *)
Definition has_cap (caps fid : Z) : bool := negb (Z.land caps (define_psci_cap fid) =? 0).

Record caps_ok (caps : Z) (ops : plat_psci_ops_t H) (spd : option (spd_pm_ops_t H)) : Prop := {
  cap_off : has_cap caps PSCI_CPU_OFF = true → is_Some (pwr_domain_off ops);
  cap_on : has_cap caps PSCI_CPU_ON_AARCH64 = true →
           is_Some (pwr_domain_on ops) ∧ is_Some (pwr_domain_on_finish ops);
  cap_suspend : has_cap caps PSCI_CPU_SUSPEND_AARCH64 = true →
           is_Some (pwr_domain_suspend ops) ∧ is_Some (pwr_domain_suspend_finish ops)
           ∧ is_Some (validate_power_state ops);
  cap_sys_suspend : has_cap caps PSCI_SYSTEM_SUSPEND_AARCH64 = true →
           is_Some (pwr_domain_suspend ops) ∧ is_Some (pwr_domain_suspend_finish ops)
           ∧ is_Some (get_sys_suspend_power_state ops);
  cap_system_off : has_cap caps PSCI_SYSTEM_OFF = true → is_Some (system_off ops);
  cap_system_reset : has_cap caps PSCI_SYSTEM_RESET = true → is_Some (system_reset ops);
  cap_node_hw_state : has_cap caps PSCI_NODE_HW_STATE_AARCH64 = true →
           is_Some (get_node_hw_state ops);
  cap_mem_protect : has_cap caps PSCI_MEM_PROTECT = true →
           is_Some (read_mem_protect ops) ∧ is_Some (write_mem_protect ops);
  cap_mem_chk : has_cap caps PSCI_MEM_CHK_RANGE_AARCH64 = true → is_Some (mem_protect_chk ops);
  cap_reset2 : has_cap caps PSCI_SYSTEM_RESET2_AARCH64 = true → is_Some (system_reset2 ops);
  cap_migrate : has_cap caps PSCI_MIG_AARCH64 = true →
           ∃ pm, spd = Some pm ∧ is_Some (svc_migrate pm);
}.
End Contracts.

(** ** The invariant *)

Section Invariant.
Context `{cfg : Config} {H : Type} `{plat : !Platform H}.
Context (T : topo) (ops : plat_psci_ops_t H) (spd : option (spd_pm_ops_t H)) (caps : Z).
Implicit Types (s : psci_state H) (d : psci_cpu_data_t).

(** What the state of one CPU says about its requests and about the hooks
    that will bring it back. *)
Record cpu_inv (rq : list (list Z)) (c : Z) d : Prop := {
  ci_target : 0 ≤ target_pwrlvl d ≤ PLAT_MAX_PWR_LVL;
  ci_above l : target_pwrlvl d < l ≤ PLAT_MAX_PWR_LVL →
               req_at rq l c = Some PSCI_LOCAL_STATE_RUN;
  ci_down : aff_info_state d ≠ AFF_STATE_ON → target_pwrlvl d = PLAT_MAX_PWR_LVL;
  ci_pending : aff_info_state d = AFF_STATE_ON_PENDING → is_Some (pwr_domain_on_finish ops);
  ci_suspended : aff_info_state d = AFF_STATE_ON → is_local_state_off (local_state d) = true →
                 is_Some (pwr_domain_suspend_finish ops);
}.

(** A domain one of whose CPUs asks for RUN is running. *)
Definition domains_safe (rq : list (list Z)) (nodes : list non_cpu_pd_node_t) : Prop :=
  ∀ c l p, 0 ≤ c < tp_cores T → 1 ≤ l ≤ PLAT_MAX_PWR_LVL → anc T c l = Some p →
    req_at rq l c = Some PSCI_LOCAL_STATE_RUN → nc_state nodes p = Some PSCI_LOCAL_STATE_RUN.

Record inv s : Prop := {
  iv_topo : topo_of s = T;
  iv_req : req_dims (psci_req_local_pwr_states s);
  iv_data : zlen (psci_svc_cpu_data s) = PLATFORM_CORE_COUNT;
  iv_eps : zlen (warmboot_ep_info s) = PLATFORM_CORE_COUNT;
  iv_locks : psci_locks s = replicate (length (tp_nodes T)) false;
  iv_cpu_locks c n : zget (psci_cpu_pd_nodes s) c = Some n → cpu_lock n = false;
  iv_ops : psci_plat_pm_ops s = Some ops;
  iv_spd : psci_spd_pm s = spd;
  iv_caps : psci_caps s = caps;
  iv_safe : domains_safe (psci_req_local_pwr_states s) (psci_non_cpu_pd_nodes s);
  iv_cpu c d : 0 ≤ c < tp_cores T → zget (psci_svc_cpu_data s) c = Some d →
               cpu_inv (psci_req_local_pwr_states s) c d;
  iv_absent c d : tp_cores T ≤ c → zget (psci_svc_cpu_data s) c = Some d →
               aff_info_state d = AFF_STATE_ON;
}.

(** CPU [c] executes outside the library. *)
Definition running (c : Z) s : Prop :=
  zget (psci_svc_cpu_data s) c =
    Some (CpuData AFF_STATE_ON PLAT_MAX_PWR_LVL PSCI_LOCAL_STATE_RUN) ∧
  ∀ l, 1 ≤ l ≤ PLAT_MAX_PWR_LVL →
    req_at (psci_req_local_pwr_states s) l c = Some PSCI_LOCAL_STATE_RUN.

(** What CPU [c] relies on while it is not executing: nobody else changes
    what it requested or its power state, and nobody turns it on twice. *)
Definition stable (c : Z) s s' : Prop :=
  (∀ l, req_at (psci_req_local_pwr_states s') l c = req_at (psci_req_local_pwr_states s) l c) ∧
  ∀ d, zget (psci_svc_cpu_data s) c = Some d →
    ∃ d', zget (psci_svc_cpu_data s') c = Some d' ∧
          target_pwrlvl d' = target_pwrlvl d ∧ local_state d' = local_state d ∧
          (aff_info_state d = AFF_STATE_ON → aff_info_state d' = AFF_STATE_ON).

Definition guar (me : Z) s s' : Prop :=
  ∀ c, 0 ≤ c < tp_cores T → c ≠ me → stable c s s'.

#[export] Instance stable_refl c : Reflexive (stable c).
Proof. intros s. split; [done|]. eauto. Qed.

#[export] Instance stable_trans c : Transitive (stable c).
Proof.
  intros s1 s2 s3 [Hr1 Hd1] [Hr2 Hd2]. split; [intros l; by rewrite Hr2|].
  intros d Hd. destruct (Hd1 d Hd) as (d2 & Hd2' & Ht & Hl & Ha).
  destruct (Hd2 d2 Hd2') as (d3 & Hd3 & Ht' & Hl' & Ha').
  exists d3. split_and!; [done|congruence|congruence|auto].
Qed.

#[export] Instance inv_proper : Proper (upto ==> iff) inv.
Proof.
  intros s s' (h & t & ->). split; intros [? ? ? ? ? ? ? ? ? ? ? ?]; by constructor.
Qed.

#[export] Instance running_proper c : Proper (upto ==> iff) (running c).
Proof. by intros s s' (h & t & ->). Qed.

#[export] Instance stable_proper c : Proper (upto ==> upto ==> iff) (stable c).
Proof. by intros s s' (h & t & ->) s2 s2' (h2 & t2 & ->). Qed.

#[export] Instance guar_proper me : Proper (upto ==> upto ==> iff) (guar me).
Proof. by intros s s' (h & t & ->) s2 s2' (h2 & t2 & ->). Qed.

#[export] Instance guar_refl me : Reflexive (guar me).
Proof. by intros s c _ _. Qed.

#[export] Instance guar_trans me : Transitive (guar me).
Proof. intros s1 s2 s3 H1 H2 c Hc Hne. etrans; [by apply H1|by apply H2]. Qed.

(** A running CPU's ancestors are running. *)
Lemma running_ancestors s c l p :
  inv s → running c s → 0 ≤ c < tp_cores T → 1 ≤ l ≤ PLAT_MAX_PWR_LVL → anc T c l = Some p →
  nc_state (psci_non_cpu_pd_nodes s) p = Some PSCI_LOCAL_STATE_RUN.
Proof. intros Hi [_ Hr] Hc Hl Ha. eapply (iv_safe _ Hi); eauto. Qed.

Lemma inv_cpu_data s c :
  inv s → topo_wf T → 0 ≤ c < PLATFORM_CORE_COUNT → ∃ d, zget (psci_svc_cpu_data s) c = Some d.
Proof. intros Hi Hw Hc. apply zget_is_Some. rewrite (iv_data _ Hi). done. Qed.
End Invariant.

(** ** The transitions that preserve it *)

(** New requests, node states and CPU data; everything else as before. *)
Definition with_power {H} (rq : list (list Z)) (nodes : list non_cpu_pd_node_t)
    (data : list psci_cpu_data_t) (s : psci_state H) : psci_state H :=
  set_psci_non_cpu_pd_nodes nodes (set_psci_req_local_pwr_states rq (set_psci_svc_cpu_data data s)).

Section Transitions.
Context `{cfg : Config} `{cok : !ConfigOk} {H : Type} `{plat : !Platform H} `{laws : !CoordinationLaws H}.
Context (T : topo) (ops : plat_psci_ops_t H) (spd : option (spd_pm_ops_t H)) (caps : Z).
Context (Hw : topo_wf T).
Implicit Types (s : psci_state H) (d : psci_cpu_data_t).
Abbreviation inv := (inv T ops spd caps).
Abbreviation guar := (guar T).

Lemma with_power_inv s rq nodes c d :
  inv s → 0 ≤ c < tp_cores T → req_dims rq → tnode_of <$> nodes = tp_nodes T →
  domains_safe T rq nodes →
  (∀ l c', c' ≠ c → req_at rq l c' = req_at (psci_req_local_pwr_states s) l c') →
  cpu_inv ops rq c d →
  inv (with_power rq nodes (zset (psci_svc_cpu_data s) c d) s) ∧
  guar c s (with_power rq nodes (zset (psci_svc_cpu_data s) c d) s).
Proof.
  intros Hi Hc Hrd Hsh Hsafe Hother Hcpu. pose proof (tw_cores _ Hw) as Hcores.
  assert (Hlen : 0 ≤ c < zlen (psci_svc_cpu_data s)) by (rewrite (iv_data _ _ _ _ _ Hi); lia).
  split.
  - destruct Hi. unfold with_power. split; ssimpl; try done.
    + unfold topo_of. ssimpl. rewrite Hsh. by rewrite <- iv_topo0.
    + by rewrite zlen_zset.
    + intros c' d' Hc'. cbn. rewrite zget_zset by done. case_decide; [by intros [= <-]; subst c'|].
      intros Hd'. destruct (iv_cpu0 c' d' Hc' Hd') as [? Habove ? ? ?]. split; try done.
      intros l Hl. rewrite Hother by done. by apply Habove.
    + intros c' d' Hc'. cbn. rewrite zget_zset_ne by lia. by apply iv_absent0.
  - intros c' Hc' Hne. split; ssimpl; [intros l; by apply Hother|].
    intros d' Hd'. exists d'. cbn. rewrite zget_zset_ne by lia. done.
Qed.

(** Coordinated powering down, or retention, of the levels [0 .. l]. *)
Lemma inv_down s c l st st' d :
  inv s → running c s → 0 ≤ c < tp_cores T → 0 ≤ l ≤ PLAT_MAX_PWR_LVL →
  let rq' := req_levels (psci_req_local_pwr_states s) c (pds st) (Z.to_nat l) in
  let s' := with_power rq' (node_levels T c (pds st') (Z.to_nat l) (psci_non_cpu_pd_nodes s))
              (zset (psci_svc_cpu_data s) c d) s in
  (∀ k, 0 ≤ k ≤ PLAT_MAX_PWR_LVL → pds st' k = coord_ref (H:=H) T rq' c l st k) →
  l ≤ target_pwrlvl d ≤ PLAT_MAX_PWR_LVL →
  (aff_info_state d = AFF_STATE_ON ∧
     (is_local_state_off (local_state d) = true → is_Some (pwr_domain_suspend_finish ops)) ∨
   aff_info_state d = AFF_STATE_OFF ∧ target_pwrlvl d = PLAT_MAX_PWR_LVL) →
  inv s' ∧ guar c s s'.
Proof using Hw cok laws.
  intros Hi [Hrun Hreq] Hc Hl rq' s' Hst' Htgt Haff. pose proof (tw_cores _ Hw) as Hcores.
  pose proof (iv_req _ _ _ _ _ Hi) as Hrd.
  assert (Hrd' : req_dims rq') by (by apply req_dims_levels).
  assert (Hat : ∀ l' c', req_at rq' l' c' =
      if decide (1 ≤ l' ≤ l ∧ c' = c) then Some (pds st l')
      else req_at (psci_req_local_pwr_states s) l' c').
  { intros l' c'. unfold rq'. rewrite req_at_levels by (done || lia). by rewrite Z2Nat.id by lia. }
  assert (Hsh : tp_nodes T = tnode_of <$> psci_non_cpu_pd_nodes s).
  { by rewrite <- (iv_topo _ _ _ _ _ Hi). }
  apply with_power_inv; [done..| | | |].
  - by rewrite node_levels_shape.
  - intros c' k p Hc' Hk Ha Hrk.
    destruct (nc_state_levels T c (pds st') (Z.to_nat l) (psci_non_cpu_pd_nodes s) p)
      as [Hin Hout]; [done..|lia|].
    destruct (decide (k ≤ l ∧ anc T c k = Some p)) as [[Hkl Hak]|Hno].
    + rewrite (Hin k) by (done || lia). rewrite Hst' by lia. unfold coord_ref.
      rewrite decide_True by lia.
      enough (runs_below (H:=H) T rq' c (Z.to_nat k) = true) as -> by done.
      replace (Z.to_nat k) with (S (Z.to_nat (k - 1))) by lia. cbn [runs_below].
      replace (Z.of_nat (S (Z.to_nat (k - 1)))) with k by lia.
      rewrite (dom_target_run T rq' c c' k p) by done.
      rewrite bool_decide_true by done. apply orb_true_r.
    + rewrite Hout.
      * eapply (iv_safe _ _ _ _ _ Hi); [done..|]. rewrite Hat in Hrk.
        rewrite decide_False in Hrk; [done|]. intros [Hkl ->]. apply Hno. lia || (split; [lia|done]).
      * intros k' Hk' Ha'. apply Hno.
        assert (k = k') as -> by (eapply (anc_inj_level T c' c); (done || lia)). split; [lia|done].
  - intros l' c' Hne. rewrite Hat. rewrite decide_False by (intros [_ ?]; done). done.
  - split; [lia| | | |].
    + intros k Hk. rewrite Hat, decide_False by lia. apply Hreq. lia.
    + intros Hne. destruct Haff as [[? _]|[_ ?]]; done.
    + intros Hp. destruct Haff as [[Ha _]|[Ha _]]; congruence.
    + intros Hon Hoff. destruct Haff as [[_ Ha]|[Ha _]]; [by apply Ha|congruence].
Qed.

(** Bringing the levels [0 .. l] back to RUN, the levels above being requested
    to run already. *)
Lemma inv_up s c l :
  inv s → 0 ≤ c < tp_cores T → 0 ≤ l ≤ PLAT_MAX_PWR_LVL →
  (∀ k, l < k ≤ PLAT_MAX_PWR_LVL →
        req_at (psci_req_local_pwr_states s) k c = Some PSCI_LOCAL_STATE_RUN) →
  let f := λ _ : Z, PSCI_LOCAL_STATE_RUN in
  let s' := with_power (req_levels (psci_req_local_pwr_states s) c f (Z.to_nat l))
              (node_levels T c f (Z.to_nat l) (psci_non_cpu_pd_nodes s))
              (zset (psci_svc_cpu_data s) c
                 (CpuData AFF_STATE_ON PLAT_MAX_PWR_LVL PSCI_LOCAL_STATE_RUN)) s in
  inv s' ∧ guar c s s' ∧ running c s'.
Proof using Hw cok.
  intros Hi Hc Hl Habove f s'. pose proof (tw_cores _ Hw) as Hcores.
  pose proof (iv_req _ _ _ _ _ Hi) as Hrd. pose proof max_pwr_lvl_ok.
  assert (Hat : ∀ l' c', req_at (req_levels (psci_req_local_pwr_states s) c f (Z.to_nat l)) l' c' =
      if decide (1 ≤ l' ≤ l ∧ c' = c) then Some PSCI_LOCAL_STATE_RUN
      else req_at (psci_req_local_pwr_states s) l' c').
  { intros l' c'. rewrite req_at_levels by (done || lia). by rewrite Z2Nat.id by lia. }
  assert (Hsh : tp_nodes T = tnode_of <$> psci_non_cpu_pd_nodes s).
  { by rewrite <- (iv_topo _ _ _ _ _ Hi). }
  enough ((inv s' ∧ guar c s s') ∧ running c s') by tauto. split.
  - apply with_power_inv; [done|done|by apply req_dims_levels| | | |].
    + by rewrite node_levels_shape.
    + intros c' k p Hc' Hk Ha Hrk.
      destruct (nc_state_levels T c f (Z.to_nat l) (psci_non_cpu_pd_nodes s) p)
        as [Hin Hout]; [done..|lia|].
      destruct (decide (k ≤ l ∧ anc T c k = Some p)) as [[Hkl Hak]|Hno].
      * by rewrite (Hin k) by (done || lia).
      * rewrite Hout.
        { eapply (iv_safe _ _ _ _ _ Hi); [done..|]. rewrite Hat in Hrk.
          rewrite decide_False in Hrk; [done|]. intros [Hkl ->]. apply Hno. split; [lia|done]. }
        intros k' Hk' Ha'. apply Hno.
        assert (k = k') as -> by (eapply (anc_inj_level T c' c); (done || lia)). split; [lia|done].
    + intros l' c' Hne. rewrite Hat. rewrite decide_False by (intros [_ ?]; done). done.
    + split; simpl; [lia|lia|done|done|].
      intros _ Hoff. unfold is_local_state_off, PSCI_LOCAL_STATE_RUN in Hoff.
      pose proof ret_off_ok. lia.
  - split; ssimpl.
    + cbn. apply zget_zset_eq. rewrite (iv_data _ _ _ _ _ Hi). lia.
    + intros k Hk. cbn. rewrite Hat. case_decide; [done|]. apply Habove. lia.
Qed.
End Transitions.
