(* ===== verification/PsciSafe.v ===== *)
(** * Every handler preserves the invariant

    Each PSCI handler, started by a running CPU in a state that satisfies the
    invariant, fails no assertion, calls no NULL hook, stays within its
    arrays, and leaves the invariant in place wherever it gives up the CPU and
    when it returns, whatever the other CPUs did in between. *)

From stdpp Require Import base sets list numbers list_numbers.
From Stdlib Require Import ZArith Lia.
From S2P Require Import Prelude PsciTypes PsciCommon PsciStat PsciPower PsciSetup PsciMain.
From S2P Require Import PsciTopo PsciCoord PsciInv.
Open Scope Z_scope.
Open Scope mon_scope.

(** ** Computations that only touch the hardware *)

Create HintDb quiet.
Create HintDb psci_safe.

Section Quiet.
Context `{cfg : Config} {H : Type} `{plat : !Platform H} (E : psci_state H → Prop).
Implicit Types (s : psci_state H).

Definition hook_returns {A} (h : hook H A) : Prop := ∀ me hw, ∃ a hw', h me hw = HRet a hw'.

(** A hook that does not fault need not return where [E] admits every way to
    end. *)
Definition live {A} (h : hook H A) : Prop := hook_returns h ∨ hook_safe h ∧ ∀ s, E s.

Definition opt_live {A} (o : option (hook H A)) : Prop := ∀ h, o = Some h → live h.

Definition quiet {A} (m : PM (H:=H) A) : Prop :=
  ∀ me s, wp E m me s (λ _ s', upto s s').

Lemma wp_quiet {A} (m : PM A) me s (Q : A → psci_state H → Prop) :
  quiet m → (∀ a s', upto s s' → Q a s') → wp E m me s Q.
Proof. intros Hm HQ. eapply wp_mono; [apply Hm|done]. Qed.

Lemma quiet_ret {A} (a : A) : quiet (ret a).
Proof. intros me s. by apply wp_ret. Qed.

Lemma quiet_bind {A B} (m : PM A) (f : A → PM B) :
  quiet m → (∀ a, quiet (f a)) → quiet (bind m f).
Proof.
  intros Hm Hf me s. apply wp_bind. eapply wp_quiet; [done|]. intros a s1 Hu.
  eapply wp_quiet; [apply Hf|]. intros b s2 Hu2. by etrans.
Qed.

Lemma quiet_emit ev : quiet (emit ev).
Proof. intros me s. by apply wp_emit. Qed.

Lemma quiet_gets {A} (f : psci_state H → A) : quiet (gets f).
Proof. intros me s. by apply wp_gets. Qed.

Lemma quiet_my_core_pos : quiet my_core_pos.
Proof. intros me s. by apply wp_my_core_pos. Qed.

Lemma quiet_hook {A} (h : hook H A) : live h → quiet (call_hook h).
Proof.
  intros Hl me s. apply wp_call_hook_ret; [|done]. destruct Hl; auto.
Qed.

Lemma live_cases {A} (h : hook H A) me hw :
  live h → (∃ a h', h me hw = HRet a h') ∨ hook_safe h ∧ ∀ s, E s.
Proof. intros [Hr|Hs]; [left; apply Hr|by right]. Qed.

Lemma opt_live_app {X A} (o : option X) (k : X → hook H A) f :
  opt_live (k <$> o) → o = Some f → live (k f).
Proof. intros Ho ->. by apply Ho. Qed.

Lemma quiet_if {A} (b : bool) (m1 m2 : PM A) : quiet m1 → quiet m2 → quiet (if b then m1 else m2).
Proof. by destruct b. Qed.

Lemma quiet_opt {A B} (o : option A) (f : A → PM B) (m : PM B) :
  (∀ a, quiet (f a)) → quiet m → quiet (match o with Some a => f a | None => m end).
Proof. intros. by destruct o. Qed.

Lemma quiet_call_spd {A} ev (h : hook H A) : live h → quiet (call_spd ev h).
Proof. intros Hl. apply quiet_bind; [apply quiet_emit|intros; by apply quiet_hook]. Qed.

Lemma quiet_call_plat {A} ev (h : hook H A) : live h → quiet (call_plat ev (Some h)).
Proof.
  intros Hl. unfold call_plat. intros me s. apply wp_bind. eapply wp_some; [done|].
  eapply wp_quiet; [|done]. apply quiet_bind; [apply quiet_emit|]. intros _. by apply quiet_hook.
Qed.

Lemma quiet_opt_plat {A} ev (h : option (hook H A)) :
  opt_live h → quiet (opt_plat ev h).
Proof.
  intros Hl. destruct h as [g|]; [|apply quiet_ret].
  apply quiet_bind; [apply quiet_emit|]. intros _. apply quiet_bind; [|intros; apply quiet_ret].
  by apply quiet_hook, Hl.
Qed.

Lemma wp_notify_spd {A} ev (f : spd_pm_ops_t H → option (hook H A)) spd me s
    (Q : unit → psci_state H → Prop) :
  psci_spd_pm s = spd → (∀ pm, spd = Some pm → opt_live (f pm)) →
  (∀ s', upto s s' → Q tt s') → wp E (notify_spd ev f) me s Q.
Proof.
  intros Hs Hl HQ. unfold notify_spd, spd_hook. apply wp_bind, wp_bind, wp_gets, wp_ret. rewrite Hs.
  destruct spd as [pm|]; [|by apply wp_ret, HQ].
  destruct (f pm) as [g|] eqn:Hg; [|by apply wp_ret, HQ].
  apply wp_bind. eapply wp_quiet; [by eapply quiet_call_spd, Hl|]. intros _ s' Hu. by apply wp_ret, HQ.
Qed.
End Quiet.

(** Where every end is admitted, every hook that does not fault is live. *)
Lemma live_any {H A} (h : hook H A) : hook_safe h → live (λ _, True) h.
Proof. by right. Qed.

Lemma opt_live_any {H A} (o : option (hook H A)) : opt_safe o → opt_live (λ _, True) o.
Proof. intros Ho h Hh. by apply live_any, Ho. Qed.

Lemma opt_safe_app {H X A} (o : option X) (k : X → hook H A) f :
  opt_safe (k <$> o) → o = Some f → hook_safe (k f).
Proof. intros Ho ->. by apply Ho. Qed.

Lemma opt_wsafe_app {H X A} (o : option X) (k : X → whook H A) f :
  opt_wsafe (k <$> o) → o = Some f → whook_safe (k f).
Proof. intros Ho ->. by apply Ho. Qed.

Lemma quiet_panic `{cfg : Config} {H} `{plat : !Platform H} {A} : quiet (A:=A) (λ _ : psci_state H, True) panic.
Proof. intros me s. by apply wp_panic. Qed.

#[export] Hint Resolve quiet_ret quiet_bind quiet_emit quiet_gets quiet_my_core_pos quiet_panic
  quiet_hook quiet_if quiet_opt quiet_call_spd quiet_call_plat quiet_opt_plat live_any opt_live_any : quiet.

Section QuietOps.
Context `{cfg : Config} {H : Type} `{plat : !Platform H} (E : psci_state H → Prop).
Implicit Types (s : psci_state H).

Lemma quiet_arch_setup : quiet E psci_arch_setup.
Proof. unfold psci_arch_setup. auto 10 with quiet. Qed.

Lemma quiet_flush_cpu_data : quiet E psci_flush_cpu_data.
Proof. unfold psci_flush_cpu_data. auto 10 with quiet. Qed.

Lemma quiet_inv_cpu_data : quiet E psci_inv_cpu_data.
Proof. unfold psci_inv_cpu_data. auto 10 with quiet. Qed.

Lemma quiet_dsbish : quiet E psci_dsbish.
Proof. unfold psci_dsbish. auto 10 with quiet. Qed.

Lemma quiet_flush_by_index i : quiet E (flush_cpu_data_by_index i).
Proof. unfold flush_cpu_data_by_index. auto 10 with quiet. Qed.

(** The handlers of the CPU driver. *)
Definition cpu_ops_live : Prop := ∀ l, opt_live E (cpu_pwr_dwn_op (H:=H) l).

Lemma wp_get_cpu_pwr_dwn l me s (Q : Z * hook H Z → psci_state H → Prop) :
  plat_ok (H:=H) → cpu_ops_live → 0 ≤ l → (∀ l' f, live E f → Q (l', f) s) →
  wp E (get_cpu_pwr_dwn (H:=H) l) me s Q.
Proof.
  intros Hp Hlive Hl HQ. unfold get_cpu_pwr_dwn.
  set (l' := if CPU_MAX_PWR_DWN_OPS - 1 <? l then _ else l).
  destruct (ok_cpu_ops Hp l') as [f Hf].
  { unfold l', CPU_MAX_PWR_DWN_OPS. destruct (Z.ltb_spec (2 - 1) l); lia. }
  apply wp_bind, wp_assert; [by rewrite Hf|].
  apply wp_bind. eapply wp_some; [done|]. by apply wp_ret, HQ, (Hlive l').
Qed.

Lemma quiet_pwrdown_cpu_start l :
  plat_ok (H:=H) → cpu_ops_live → 0 ≤ l → quiet E (psci_pwrdown_cpu_start (H:=H) l).
Proof.
  intros Hp Hlive Hl. unfold psci_pwrdown_cpu_start.
  apply quiet_bind; [auto with quiet|]. intros _ me s. apply wp_bind, wp_get_cpu_pwr_dwn; [done..|].
  intros l' f Hf. eapply wp_quiet; [auto 15 with quiet|done].
Qed.

End QuietOps.

Lemma cpu_ops_live_any `{cfg : Config} {H} `{plat : !Platform H} :
  plat_ok (H:=H) → cpu_ops_live (λ _ : psci_state H, True).
Proof. intros Hp l. apply opt_live_any, (ok_cpu_ops_safe Hp). Qed.

Lemma quiet_prepare_cpu_pwr_up `{cfg : Config} {H} `{plat : !Platform H} l :
  plat_ok (H:=H) → 0 ≤ l → quiet (λ _ : psci_state H, True) (prepare_cpu_pwr_up (H:=H) l).
Proof.
  intros Hp Hl me s. unfold prepare_cpu_pwr_up.
  apply wp_bind, wp_get_cpu_pwr_dwn; [done|by apply cpu_ops_live_any|done|].
  intros l' f Hf. eapply wp_quiet; [auto 15 with quiet|done].
Qed.

#[export] Hint Resolve quiet_arch_setup quiet_flush_cpu_data
  quiet_inv_cpu_data quiet_dsbish quiet_flush_by_index quiet_pwrdown_cpu_start
  quiet_prepare_cpu_pwr_up cpu_ops_live_any : quiet.
#[export] Hint Resolve sf_standby sf_on sf_off sf_off_early sf_pwrdown_early sf_suspend sf_on_finish
  sf_on_finish_late sf_suspend_finish sf_pwr_down sf_system_off sf_system_reset sf_system_reset2
  sf_validate sf_ns_entrypoint sf_sys_suspend sf_node_hw_state sf_mem_chk sf_read_mem sf_write_mem
  ok_safe : quiet.

(** ** The handlers *)

Section Safe.
Context `{cfg : Config} `{cok : !ConfigOk} {H : Type} `{plat : !Platform H} `{laws : !CoordinationLaws H}.
Context (T : topo) (ops : plat_psci_ops_t H) (spd : option (spd_pm_ops_t H)) (caps : Z).
Context (Hw : topo_wf T) (Hops : ops_ok ops) (Hspd : ∀ pm, spd = Some pm → spd_ok pm).
Context (Hplat : plat_ok (H:=H)) (Hcaps : caps_ok caps ops spd).
Context (Hstat : ENABLE_PSCI_STAT = false) (Hos : PSCI_OS_INIT_MODE = false).
Implicit Types (s : psci_state H) (d : psci_cpu_data_t).
Abbreviation inv := (inv T ops spd caps).
Abbreviation guar := (guar T).
Abbreviation wpt := (wp (λ _ : psci_state H, True)).
Abbreviation quiet := (quiet (λ _ : psci_state H, True)).

(** How a handler of CPU [me] leaves the state of its last stretch. *)
Definition finished (me : Z) s s' : Prop := inv s' ∧ guar me s s' ∧ running me s'.

(** A change no CPU notices in what it owns. *)
Definition calm s s' : Prop := inv s' ∧ ∀ c, stable c s s'.

Abbreviation rgs me := (rg inv (guar me) (stable me)).

Lemma running_stable c s s' : running c s → stable c s s' → running c s'.
Proof.
  intros [Hd Hr] [Hr' Hd']. destruct (Hd' _ Hd) as ([a t l] & Hs' & Ht & Hl & Ha).
  simpl in *. split.
  - rewrite Hs'. rewrite Ha by done. by subst.
  - intros k Hk. rewrite Hr'. by apply Hr.
Qed.

Lemma calm_finished me s s' : running me s → calm s s' → finished me s s'.
Proof.
  intros Hr [Hi Hs]. split_and!; [done| |by eapply running_stable].
  intros c _ _. apply Hs.
Qed.

Lemma calm_upto s s' : inv s → upto s s' → calm s s'.
Proof. intros Hi Hu. split; [by rewrite <- Hu|]. intros c. by rewrite <- Hu. Qed.

Lemma calm_refl s : inv s → calm s s.
Proof. intros Hi. apply calm_upto; [done|]. reflexivity. Qed.

Lemma calm_trans s1 s2 s3 : calm s1 s2 → calm s2 s3 → calm s1 s3.
Proof. intros [_ H1] [Hi H2]. split; [done|]. intros c. etrans; [apply H1|apply H2]. Qed.

Lemma calm_eps s eps : inv s → zlen eps = PLATFORM_CORE_COUNT → calm s (set_warmboot_ep_info eps s).
Proof.
  intros [] He. split; [by constructor|]. intros c. exact (stable_refl c s).
Qed.

(** Changing the affinity state of a CPU that is not on. *)
Lemma calm_aff s c d a :
  inv s → zget (psci_svc_cpu_data s) c = Some d → aff_info_state d ≠ AFF_STATE_ON →
  a ≠ AFF_STATE_ON → (a = AFF_STATE_ON_PENDING → is_Some (pwr_domain_on_finish ops)) →
  calm s (set_psci_svc_cpu_data (zset (psci_svc_cpu_data s) c (with_aff_info_state a d)) s).
Proof.
  intros Hi Hd Hne Ha Hpend. pose proof (zget_Some_range _ _ _ Hd) as Hr.
  assert (Hlt : c < tp_cores T).
  { destruct (decide (c < tp_cores T)); [done|]. exfalso. apply Hne.
    eapply (iv_absent _ _ _ _ _ Hi); [|done]. lia. }
  pose proof (iv_cpu _ _ _ _ _ Hi) as Hall. pose proof (iv_absent _ _ _ _ _ Hi) as Habs.
  pose proof (Hall c d ltac:(lia) Hd) as Hcpu.
  split.
  - destruct Hi. split; ssimpl; try done.
    + by rewrite zlen_zset.
    + intros c' d' Hc'. rewrite zget_zset by done. case_decide as Hcc; [|by apply Hall].
      subst c'. intros [= <-]. destruct Hcpu. split; simpl; try done.
      intros _. by apply ci_down.
    + intros c' d' Hc'. rewrite zget_zset_ne by lia. by apply Habs.
  - intros c'. split; ssimpl; [done|]. intros d' Hd'. rewrite zget_zset by done.
    case_decide as Hcc; [|by eauto]. subst c'. simplify_eq. eexists. split; [done|].
    split_and!; [done..|]. intros; done.
Qed.

Lemma inv_cpu_node s c :
  inv s → 0 ≤ c < PLATFORM_CORE_COUNT →
  ∃ n, zget (psci_cpu_pd_nodes s) c = Some n ∧ cpu_lock n = false.
Proof.
  intros Hi Hc. pose proof (iv_topo _ _ _ _ _ Hi) as HT.
  destruct (topo_cpu_node_lt s c) as (n & Hn & _); [by rewrite HT|done|].
  exists n. split; [done|]. by eapply (iv_cpu_locks _ _ _ _ _ Hi).
Qed.

Lemma wp_pm_ops {E} s me (Q : plat_psci_ops_t H → psci_state H → Prop) :
  psci_plat_pm_ops s = Some ops → Q ops s → wp E pm_ops me s Q.
Proof. intros Ho HQ. apply wp_bind, wp_gets. by eapply wp_some. Qed.

(** ** Entry points *)

Lemma wp_validate_entry_point c e x me s :
  inv s → 0 ≤ c < PLATFORM_CORE_COUNT →
  wpt (psci_validate_entry_point c e x) me s (λ _ s', calm s s').
Proof.
  intros Hi Hc. unfold psci_validate_entry_point.
  apply wp_bind, wp_pm_ops; [by apply (iv_ops _ _ _ _ _ Hi)|].
  apply wp_bind. eapply (wp_mono _ _ _ _ (λ _ s', upto s s')).
  { pose proof (sf_ns_entrypoint _ (ok_safe _ Hops) e) as Hsafe.
    destruct (validate_ns_entrypoint ops) as [f|]; [|by apply wp_ret].
    eapply wp_quiet; [|done]. apply quiet_bind; [by apply quiet_hook, live_any, Hsafe|]. auto with quiet. }
  intros rc s1 Hu. assert (inv s1) as Hi1 by (by rewrite <- Hu).
  destruct (negb (rc =? PSCI_E_SUCCESS)); [by apply wp_ret, calm_upto|].
  apply wp_bind, wp_gets.
  destruct (zget_is_Some (warmboot_ep_info s1) c) as [ep Hep].
  { rewrite (iv_eps _ _ _ _ _ Hi1). done. }
  apply wp_bind. eapply wp_some; [done|].
  apply wp_bind. eapply wp_quiet; [unfold psci_get_ns_ep_info; auto 10 with quiet|].
  intros [rc' ep'] s2 Hu2. assert (inv s2) as Hi2 by (by rewrite <- Hu2).
  apply wp_bind, wp_modify. apply wp_ret.
  eapply calm_trans; [by apply (calm_upto s s2); [|etrans]|].
  apply calm_eps; [done|]. rewrite zlen_zset. by apply (iv_eps _ _ _ _ _ Hi2).
Qed.

(** ** CPU_ON *)

Lemma wp_spin_lock {E} c n me s (Q : unit → psci_state H → Prop) :
  zget (psci_cpu_pd_nodes s) c = Some n → cpu_lock n = false →
  (∀ s', upto (set_psci_cpu_pd_nodes (zset (psci_cpu_pd_nodes s) c (with_cpu_lock true n)) s) s' →
         Q tt s') →
  wp E (psci_spin_lock_cpu c) me s Q.
Proof.
  intros Hn Hl HQ. apply wp_bind. eapply wp_get_cpu_node; [done|]. rewrite Hl.
  apply wp_bind, wp_emit. intros s' (h & t & ->). eapply wp_upd_cpu_node; [done|].
  apply HQ. by exists h, t.
Qed.

Lemma wp_spin_unlock {E} c n me s (Q : unit → psci_state H → Prop) :
  zget (psci_cpu_pd_nodes s) c = Some n →
  (∀ s', upto (set_psci_cpu_pd_nodes (zset (psci_cpu_pd_nodes s) c (with_cpu_lock false n)) s) s' →
         Q tt s') →
  wp E (psci_spin_unlock_cpu c) me s Q.
Proof.
  intros Hn HQ. apply wp_bind, wp_emit. intros s' (h & t & ->).
  eapply wp_upd_cpu_node; [done|]. apply HQ. by exists h, t.
Qed.

Lemma relock (l : list cpu_pd_node_t) c n :
  zget l c = Some n → cpu_lock n = false →
  zset (zset l c (with_cpu_lock true n)) c (with_cpu_lock false (with_cpu_lock true n)) = l.
Proof.
  intros Hn Hl. rewrite zset_zset. apply zset_same. rewrite Hn. by destruct n; simpl in *; subst.
Qed.

Lemma with_aff_twice a a' d : with_aff_info_state a (with_aff_info_state a' d) = with_aff_info_state a d.
Proof. done. Qed.

Lemma with_aff_same d a : aff_info_state d = a → with_aff_info_state a d = d.
Proof. destruct d. simpl. by intros ->. Qed.

(** The answer [rc] is one the platform gives when asked to power up [m]. *)
Definition plat_answers (m me rc : Z) : Prop :=
  ∃ f h h', pwr_domain_on ops = Some f ∧ f m me h = HRet rc h'.

(** What CPU_ON for [m], called by [me], answers and does to the data of CPU
    [c], its entry point aside. *)
Inductive on_outcome (m me c : Z) (data : list psci_cpu_data_t) : Z → list psci_cpu_data_t → Prop :=
| OnRefused d : zget data c = Some d → aff_info_state d ≠ AFF_STATE_OFF →
    on_outcome m me c data (cpu_on_validate_state (aff_info_state d)) data
| OnStarted d : zget data c = Some d → aff_info_state d = AFF_STATE_OFF →
    plat_answers m me PSCI_E_SUCCESS →
    on_outcome m me c data PSCI_E_SUCCESS (zset data c (with_aff_info_state AFF_STATE_ON_PENDING d))
| OnFailed d : zget data c = Some d → aff_info_state d = AFF_STATE_OFF →
    plat_answers m me PSCI_E_INTERN_FAIL →
    on_outcome m me c data PSCI_E_INTERN_FAIL data.

Lemma wp_on_committed {E} m c d fon me s (Q : Z → psci_state H → Prop) :
  psci_spd_pm s = spd → is_valid_mpidr (H:=H) m = true → pwr_domain_on ops = Some fon → live E (fon m) →
  (∀ pm, spd = Some pm → opt_live E ((λ f, f m) <$> svc_on pm)) →
  zget (psci_svc_cpu_data s) c = Some d → aff_info_state d = AFF_STATE_OFF →
  (∀ rc data s', on_outcome m me c (psci_svc_cpu_data s) rc data → upto (set_psci_svc_cpu_data data s) s' → Q rc s') →
  wp E (notify_spd (SvcOn m) (λ pm, (λ f, f m) <$> svc_on pm);;
        psci_set_aff_info_state_by_idx c AFF_STATE_ON_PENDING;;
        flush_cpu_data_by_index c;;
        target_aff_state ← psci_get_aff_info_state_by_idx c;
        when (bool_decide (target_aff_state ≠ AFF_STATE_ON_PENDING))
          (c_assert (bool_decide (target_aff_state = AFF_STATE_OFF));;
           psci_set_aff_info_state_by_idx c AFF_STATE_ON_PENDING;;
           flush_cpu_data_by_index c;;
           a' ← psci_get_aff_info_state_by_idx c;
           c_assert (bool_decide (a' = AFF_STATE_ON_PENDING)));;
        rc ← call_plat (PlatDomainOn m) ((λ f, f m) <$> pwr_domain_on ops);
        c_assert ((rc =? PSCI_E_SUCCESS) || (rc =? PSCI_E_INTERN_FAIL));;
        when (negb (rc =? PSCI_E_SUCCESS))
          (psci_set_aff_info_state_by_idx c AFF_STATE_OFF;;
           flush_cpu_data_by_index c);;
        ret rc) me s Q.
Proof using Hops.
  intros Hspm Hv Hon Hlive Hspl Hd Haff HQ. pose proof (zget_Some_range _ _ _ Hd) as Hdr.
  apply wp_bind. eapply wp_notify_spd; [exact Hspm|exact Hspl|].
  intros s3 (h3 & t3 & ->). apply wp_bind. eapply wp_upd_cpu_data; [done|].
  apply wp_bind. eapply wp_quiet; [apply quiet_flush_by_index|]. intros _ s4 (h4 & t4 & ->).
  apply wp_bind. apply wp_bind. eapply wp_get_cpu_data; [ssimpl; by apply zget_zset_eq|].
  apply wp_ret. apply wp_bind. rewrite bool_decide_false by (by simpl; intros ?).
  apply wp_ret. rewrite Hon. apply wp_bind. unfold call_plat. apply wp_bind.
  eapply wp_some; [done|]. apply wp_bind, wp_emit. intros s5 (h5 & t5 & ->).
  apply wp_call_hook_ret; [destruct Hlive as [Hl|]; [left; apply Hl|by right]|].
  intros rc h' Hrc s6 (h6 & t6 & ->).
  destruct (ok_on _ Hops _ _ _ _ _ _ Hon Hv Hrc) as [-> | ->].
  - apply wp_bind, wp_assert; [done|]. apply wp_bind. apply wp_ret, wp_ret.
    eapply HQ; [apply (OnStarted _ _ _ _ d); [done..|by eexists _, _, _]|]. by exists h6, t6.
  - apply wp_bind, wp_assert; [done|]. apply wp_bind. apply wp_bind.
    eapply wp_upd_cpu_data; [ssimpl; by apply zget_zset_eq|].
    eapply wp_quiet; [apply quiet_flush_by_index|]. intros _ s7 (h7 & t7 & ->).
    apply wp_ret. eapply HQ; [apply (OnFailed _ _ _ _ d); [done..|by eexists _, _, _]|]. exists h7, t7. ssimpl.
    rewrite zset_zset, with_aff_twice, with_aff_same by done. by rewrite zset_same.
Qed.

Lemma wp_cpu_on_start_spec {E} m fon me s (Q : Z → psci_state H → Prop) :
  let c := u32 (plat_core_pos_by_mpidr (H:=H) m) in
  inv s → is_valid_mpidr (H:=H) m = true →
  pwr_domain_on ops = Some fon → is_Some (pwr_domain_on_finish ops) → live E (fon m) →
  (∀ pm, spd = Some pm → opt_live E ((λ f, f m) <$> svc_on pm)) →
  (∀ rc data s', on_outcome m me c (psci_svc_cpu_data s) rc data → upto (set_psci_svc_cpu_data data s) s' → Q rc s') →
  wp E (psci_cpu_on_start m) me s Q.
Proof using Hops Hw.
  intros c Hi Hv Hon [fin Hfin] Hlive Hspl HQ. unfold psci_cpu_on_start. fold c.
  assert (Hc : 0 ≤ c < PLATFORM_CORE_COUNT).
  { unfold is_valid_mpidr in Hv. apply negb_true_iff, orb_false_iff in Hv as [_ Hv].
    pose proof (u32_range (plat_core_pos_by_mpidr (H:=H) m)). unfold c. lia. }
  apply wp_bind, wp_pm_ops; [by apply (iv_ops _ _ _ _ _ Hi)|].
  apply wp_bind, wp_assert; [by rewrite Hon, Hfin|].
  destruct (inv_cpu_node s c Hi Hc) as (n & Hn & Hln).
  destruct (inv_cpu_data _ _ _ _ s c Hi Hw Hc) as [d Hd]. pose proof (zget_Some_range _ _ _ Hn) as Hnr.
  apply wp_bind. eapply wp_spin_lock; [done..|]. intros s1 (h1 & t1 & ->).
  apply wp_bind. eapply wp_quiet; [apply quiet_flush_by_index|]. intros _ s2 (h2 & t2 & ->).
  apply wp_bind. apply wp_bind. eapply wp_get_cpu_data; [done|]. apply wp_ret.
  set (s0 := set_psci_cpu_pd_nodes (zset (psci_cpu_pd_nodes s) c (with_cpu_lock true n)) s).
  apply wp_bind. eapply (wp_mono _ _ _ _ (λ rc s', ∃ data, on_outcome m me c (psci_svc_cpu_data s) rc data ∧
    upto (set_psci_svc_cpu_data data s0) s')).
  - destruct (decide (aff_info_state d = AFF_STATE_OFF)) as [Hoff|Hne].
    + rewrite Hoff. change (negb (cpu_on_validate_state AFF_STATE_OFF =? PSCI_E_SUCCESS)) with false. cbv iota.
      eapply (wp_on_committed m c d fon); [apply (iv_spd _ _ _ _ _ Hi)|done..|].
      intros rc data s' Ho (h & t & ->). exists data. split; [exact Ho|]. by exists h, t.
    + assert (negb (cpu_on_validate_state (aff_info_state d) =? PSCI_E_SUCCESS) = true) as ->
        by (by destruct (aff_info_state d)).
      apply wp_ret. exists (psci_svc_cpu_data s). split; [by apply OnRefused|]. exists h2, t2. by destruct s.
  - intros rc s3 (data & Ho & h3 & t3 & ->).
    apply wp_bind. eapply wp_spin_unlock; [unfold s0; ssimpl; by apply zget_zset_eq|].
    intros s4 (h4 & t4 & ->). apply wp_ret. unfold s0. ssimpl. rewrite relock by done.
    eapply HQ; [exact Ho|]. exists h4, t4. by destruct s.
Qed.

Lemma wp_cpu_on_start m me s :
  inv s → is_valid_mpidr (H:=H) m = true →
  is_Some (pwr_domain_on ops) → is_Some (pwr_domain_on_finish ops) →
  wpt (psci_cpu_on_start m) me s (λ _ s', calm s s').
Proof using Hops Hspd Hw.
  intros Hi Hv [fon Hon] Hfin. eapply wp_cpu_on_start_spec; [done..| | |].
  { apply live_any, (opt_safe_app _ (λ f, f m) fon (sf_on _ (ok_safe _ Hops) m Hv) Hon). }
  { intros pm Hs. by apply opt_live_any, ok_svc_on_safe, Hspd. }
  intros rc data s' Ho Hu. eapply calm_trans; [|apply calm_upto; [|exact Hu]].
  all: enough (calm s (set_psci_svc_cpu_data data s)) as Hcalm by (done || apply Hcalm).
  all: inversion Ho as [d Hd Hne|d Hd Hoff _|d Hd Hoff _]; subst.
  all: try (apply calm_upto; [done|]; by destruct s).
  all: apply calm_aff; [done..|congruence|done|done].
Qed.

Lemma wp_cpu_on m e x me s :
  inv s → has_cap caps PSCI_CPU_ON_AARCH64 = true →
  wpt (psci_cpu_on m e x) me s (λ _ s', calm s s').
Proof.
  intros Hi Hcap. unfold psci_cpu_on. destruct (is_valid_mpidr m) eqn:Hv; simpl.
  2: { apply wp_ret, calm_refl. exact Hi. }
  destruct (cap_on _ _ _ Hcaps Hcap) as [Ho Hf].
  apply wp_bind. eapply wp_mono; [apply wp_validate_entry_point; [done|]|].
  { unfold is_valid_mpidr in Hv. apply negb_true_iff, orb_false_iff in Hv as [_ Hv].
    pose proof (u32_range (plat_core_pos_by_mpidr (H:=H) m)). lia. }
  intros rc s1 Hcalm. destruct (negb (rc =? PSCI_E_SUCCESS)); [by apply wp_ret|].
  eapply wp_mono; [apply wp_cpu_on_start; [apply Hcalm|done..]|].
  intros rc' s2 Hc2. exact (calm_trans _ _ _ Hcalm Hc2).
Qed.

(** ** Critical sections *)

Definition free_locks : list bool := replicate (length (tp_nodes T)) false.

(** The invariant, apart from the locks being free. *)
Definition invl s : Prop := inv (set_psci_locks free_locks s).

(** [s'] is [s] with the locks of the first [l] ancestors of [me] taken. *)
Definition locked (me l : Z) s s' : Prop :=
  upto (set_psci_locks (lock_all true (ancs T me l) free_locks) s) s'.

Lemma inv_set_free s : inv s → set_psci_locks free_locks s = s.
Proof. intros Hi. unfold free_locks. rewrite <- (iv_locks _ _ _ _ _ Hi). by destruct s. Qed.

Lemma inv_invl s : inv s → invl s.
Proof. intros Hi. unfold invl. by rewrite inv_set_free. Qed.

Lemma invl_hw h t s : invl s → invl (set_hw h (set_trace t s)).
Proof. intros Hi. exact (proj1 (inv_proper _ _ _ _ _ _ ltac:(by exists h, t)) Hi). Qed.

Lemma locked_invl me l s s' : invl s → locked me l s s' → invl s'.
Proof. intros Hi (h & t & ->). exact (proj1 (inv_proper _ _ _ _ _ _ ltac:(by exists h, t)) Hi). Qed.

Lemma free_locks_anc l c :
  0 ≤ c < tp_cores T → l ≤ PLAT_MAX_PWR_LVL →
  Forall (λ i, zget free_locks i = Some false) (ancs T c l).
Proof.
  intros Hc Hl. apply Forall_forall. intros i Hin.
  apply elem_of_ancs in Hin as (k & Hk & Ha); [|done..].
  destruct (tw_anc _ Hw c k) as (p & n & Hok); [done|lia|].
  rewrite (ao_anc _ _ _ _ _ Hok) in Ha. simplify_eq.
  pose proof (zget_Some_range _ _ _ (ao_node _ _ _ _ _ Hok)) as Hr.
  unfold free_locks, zget, zlen in *. rewrite decide_True by lia.
  apply lookup_replicate_2. lia.
Qed.

Lemma wp_acquire_inv {E} l me s (Q : unit → psci_state H → Prop) :
  inv s → 0 ≤ me < tp_cores T → 0 ≤ l ≤ PLAT_MAX_PWR_LVL →
  (∀ s', locked me l s s' → Q tt s') →
  wp E (psci_acquire_pwr_domain_locks l (ancs T me l)) me s Q.
Proof.
  intros Hi Hc Hl HQ. pose proof (iv_topo _ _ _ _ _ Hi) as HT.
  pose proof (iv_locks _ _ _ _ _ Hi) as HL. rewrite <- HT. apply wp_acquire; rewrite ?HT; try done.
  - rewrite HL. apply free_locks_anc; (done || lia).
  - intros s' Hu. apply HQ. unfold locked, free_locks. by rewrite <- HL.
Qed.

Lemma wp_release_T {E} l me s (Q : unit → psci_state H → Prop) :
  topo_of s = T → 0 ≤ me < tp_cores T → 0 ≤ l ≤ PLAT_MAX_PWR_LVL →
  zlen (psci_locks s) = zlen (tp_nodes T) →
  (∀ s', upto (set_psci_locks (lock_all false (rev (ancs T me l)) (psci_locks s)) s) s' → Q tt s') →
  wp E (psci_release_pwr_domain_locks l (ancs T me l)) me s Q.
Proof. intros HT. rewrite <- HT. intros. apply wp_release; try done. by rewrite HT. Qed.

Lemma wp_release_inv {E} l me sF s (Q : unit → psci_state H → Prop) :
  locked me l sF s → topo_of sF = T → psci_locks sF = free_locks →
  0 ≤ me < tp_cores T → 0 ≤ l ≤ PLAT_MAX_PWR_LVL →
  (∀ s', upto sF s' → Q tt s') →
  wp E (psci_release_pwr_domain_locks l (ancs T me l)) me s Q.
Proof.
  intros (h & t & ->) HT HL Hc Hl HQ. apply wp_release_T; try done.
  - ssimpl. rewrite zlen_lock_all. unfold free_locks, zlen. by rewrite length_replicate.
  - intros s' (h' & t' & ->). apply HQ. exists h', t'. ssimpl.
    rewrite lock_unlock.
    + rewrite <- HL. by destruct sF.
    + apply free_locks_anc; (done || lia).
    + intros i. by rewrite list_elem_of_In, <- in_rev, <- list_elem_of_In.
Qed.

(** ** Waiting *)

(** [m] may give up the CPU, but changes nothing the library keeps. *)
Definition lull {A} (m : PM (H:=H) A) : Prop :=
  ∀ me s0 s, inv s → guar me s0 s →
    rgs me s0 (m me s) (λ s1 _ s', inv s' ∧ guar me s1 s' ∧ stable me s s').

Lemma lull_quiet {A} (m : PM A) : quiet m → lull m.
Proof.
  intros Hm me s0 s Hi Hg. apply rg_wp. eapply wp_quiet; [done|]. intros a s' Hu.
  split_and!; [by rewrite <- Hu|by rewrite <- Hu|by rewrite <- Hu].
Qed.

Lemma lull_bind {A B} (m : PM A) (f : A → PM B) : lull m → (∀ a, lull (f a)) → lull (bind m f).
Proof.
  intros Hm Hf me s0 s Hi Hg. apply rg_bind. eapply rg_mono; [by apply Hm|].
  intros s1 a s' (Hi' & Hg' & Hs'). simpl. eapply rg_mono; [by apply Hf|].
  intros s2 b s2' (? & ? & ?). split_and!; [done..|]. etrans; [exact Hs'|done].
Qed.

Lemma lull_wfi : lull wfi.
Proof.
  intros me s0 s Hi Hg. simpl. split_and!; [done..|]. intros s' Hi' Hs'.
  split_and!; [done|reflexivity|done].
Qed.

Lemma lull_wfi_n n : lull (wfi_n n).
Proof. induction n; simpl; [apply lull_quiet, quiet_ret|]. apply lull_bind; [apply lull_wfi|done]. Qed.

Lemma lull_whook {A} (h : whook H A) : whook_safe h → lull (call_whook h).
Proof.
  intros Hsafe me s0 s Hi Hg. unfold call_whook. specialize (Hsafe me (hw s)). revert Hsafe.
  set (r := h me (hw s)). clearbody r. intros Hsafe.
  assert (Hset : ∀ (s : psci_state H) h', upto s (set_hw h' s)).
  { intros s' h'. exists h', (trace s'). by destruct s'. }
  revert s0 s Hi Hg. induction r as [[a h'|h'|h'|]|h' k IH]; intros s0 s Hi Hg; simpl; try done.
  - rewrite <- (Hset s h'). done.
  - rewrite <- (Hset s h'). split_and!; [done..|]. intros s' Hi' Hs'.
    eapply rg_mono; [apply IH; [apply Hsafe|done|reflexivity]|].
    intros s1 a s2 (? & ? & ?). split_and!; [done..|]. etrans; [|done]. by rewrite (Hset s h').
Qed.

Lemma lull_opt_wplat {A} ev (o : option (whook H A)) : opt_wsafe o → lull (opt_wplat ev o).
Proof.
  intros Hsafe. unfold opt_wplat. destruct o; [|apply lull_quiet; auto with quiet].
  apply lull_bind; [apply lull_quiet; auto with quiet|]. intros _.
  apply lull_bind; [by apply lull_whook, Hsafe|]. intros _. apply lull_quiet; auto with quiet.
Qed.

(** It never returns. *)
Lemma rg_end_terminal {A} me s0 s (Q : psci_state H → A → psci_state H → Prop) :
  inv s → guar me s0 s → rgs me s0 (psci_pwrdown_cpu_end_terminal me s) Q.
Proof.
  intros Hi Hg. unfold psci_pwrdown_cpu_end_terminal.
  apply rg_bind, rg_wp. eapply wp_quiet; [auto with quiet|]. intros _ s1 Hu1.
  apply rg_bind, rg_wp. eapply wp_quiet; [auto with quiet|]. intros _ s2 Hu2.
  apply rg_bind. eapply rg_mono; [apply lull_wfi_n|done].
  - by rewrite <- Hu2, <- Hu1.
  - by rewrite <- Hu2, <- Hu1.
Qed.

Lemma lull_end_wakeup l : 0 ≤ l → lull (psci_pwrdown_cpu_end_wakeup l).
Proof.
  intros Hl. unfold psci_pwrdown_cpu_end_wakeup.
  apply lull_bind; [apply lull_quiet; auto with quiet|]. intros _.
  apply lull_bind; [apply lull_wfi|]. intros _. apply lull_quiet; auto 10 with quiet.
Qed.

(** ** CPU_OFF *)

(** The hooks CPU_OFF calls return, or any end is admitted. *)
Record off_live (E : psci_state H → Prop) : Prop := {
  fl_off_early st : ps_dims st → opt_live E ((λ f, f st) <$> pwr_domain_off_early ops);
  fl_off st : ps_dims st → opt_live E ((λ f, f st) <$> pwr_domain_off ops);
  fl_svc_off pm : spd = Some pm → opt_live E (svc_off pm);
  fl_cpu_ops : cpu_ops_live E;
}.

Lemma off_live_any : off_live (λ _, True).
Proof.
  split; [intros; eauto with quiet..| |by apply cpu_ops_live_any].
  intros pm Hs. by apply opt_live_any, ok_svc_off_safe, Hspd.
Qed.

Lemma wp_set_power_off_state {E} st me s (Q : psci_power_state_t → psci_state H → Prop) :
  ps_dims st →
  (∀ st', ps_dims st' → (∀ l, 0 ≤ l ≤ PLAT_MAX_PWR_LVL → pds st' l = PLAT_MAX_OFF_STATE) → Q st' s) →
  wp E (psci_set_power_off_state st) me s Q.
Proof.
  intros Hd HQ. unfold psci_set_power_off_state, PSCI_CPU_PWR_LVL. pose proof max_pwr_lvl_ok.
  eapply (wp_for_to _ (λ i st' s', s' = s ∧ ps_dims st' ∧
            ∀ l, 0 ≤ l < i → pds st' l = PLAT_MAX_OFF_STATE)).
  - split_and!; [done..|lia].
  - intros i st' s' Hi (-> & Hd' & Hp). apply wp_bind. eapply wp_some.
    { unfold zput. unfold ps_dims in Hd'. rewrite decide_True by lia. done. }
    apply wp_ret.
    change (PowerState (zset (pwr_domain_state st') i PLAT_MAX_OFF_STATE) (last_at_pwrlvl st'))
      with (set_pwr_domain_state st' i PLAT_MAX_OFF_STATE).
    split_and!; [done|by apply ps_dims_set|]. intros l Hl. rewrite pds_set by (done || lia).
    case_decide; [done|]. apply Hp. lia.
  - intros st' s' (-> & Hd' & Hp). apply HQ; [done|]. intros l Hl. apply Hp. lia.
Qed.

(** The state a coordinated power-down of the levels [0 .. l] ends in, for the
    new data [d] of the CPU. *)
Definition downed me l st st' d s : psci_state H :=
  with_power (req_levels (psci_req_local_pwr_states s) me (pds st) (Z.to_nat l))
    (node_levels T me (pds st') (Z.to_nat l) (psci_non_cpu_pd_nodes s))
    (zset (psci_svc_cpu_data s) me d) s.

Definition coordinated_st me l st st' s : Prop :=
  ps_dims st' ∧ ∀ k, 0 ≤ k ≤ PLAT_MAX_PWR_LVL →
    pds st' k = coord_ref (H:=H) T
      (req_levels (psci_req_local_pwr_states s) me (pds st) (Z.to_nat l)) me l st k.

Lemma wp_coordinate {E} l st me s (Q : psci_power_state_t → psci_state H → Prop) :
  invl s → 0 ≤ me < tp_cores T → 0 ≤ l ≤ PLAT_MAX_PWR_LVL → ps_dims st →
  (∀ st', coordinated_st me l st st' s →
     Q st' (set_psci_req_local_pwr_states
              (req_levels (psci_req_local_pwr_states s) me (pds st) (Z.to_nat l)) s)) →
  wp E (psci_do_state_coordination me l st) me s Q.
Proof.
  intros Hi Hc Hl Hst HQ. pose proof (iv_topo _ _ _ _ _ Hi) as HT.
  change (topo_of s = T) in HT. apply wp_do_coordination; rewrite ?HT; try done.
  - apply (iv_req _ _ _ _ _ Hi).
  - intros st' Hd' _ Hp. apply HQ. split; [done|]. done.
Qed.

Lemma wp_apply {E} l st st' d me s (Q : unit → psci_state H → Prop) :
  invl s → 0 ≤ me < tp_cores T → 0 ≤ l ≤ PLAT_MAX_PWR_LVL → ps_dims st' →
  zget (psci_svc_cpu_data s) me = Some d →
  (∀ s', upto (downed me l st st' (with_local_state (pds st' 0) d) s) s' → Q tt s') →
  wp E (psci_set_target_local_pwr_states me l st') me
    (set_psci_req_local_pwr_states
       (req_levels (psci_req_local_pwr_states s) me (pds st) (Z.to_nat l)) s) Q.
Proof.
  intros Hi Hc Hl Hst Hd HQ. pose proof (iv_topo _ _ _ _ _ Hi) as HT.
  change (topo_of s = T) in HT. eapply wp_set_target; try done.
  - by change (topo_wf (topo_of s)); rewrite HT.
  - by change (0 ≤ me < tp_cores (topo_of s)); rewrite HT.
  - intros s' (h & t & ->). apply HQ. exists h, t. unfold downed. by rewrite <- HT.
Qed.

Lemma find_max_off_nonneg st : 0 ≤ psci_find_max_off_lvl st.
Proof.
  unfold psci_find_max_off_lvl, PSCI_INVALID_PWR_LVL. pose proof max_pwr_lvl_ok.
  induction (Z.to_nat (PLAT_MAX_PWR_LVL + 1)) as [|n IH]; cbn [find_down]; [simpl; lia|].
  destruct (is_local_state_off _); simpl; [lia|done].
Qed.

Lemma spd_hook_ok {E A} (f : spd_pm_ops_t H → option A) me s (Q : option A → psci_state H → Prop) :
  psci_spd_pm s = spd → Q (match spd with Some pm => f pm | None => None end) s →
  wp E (spd_hook f) me s Q.
Proof. intros Hs HQ. apply wp_bind, wp_gets, wp_ret. by rewrite Hs. Qed.

Lemma wp_cpu_off_locked {E} l st d me s :
  off_live E → invl s → 0 ≤ me < tp_cores T → 0 ≤ l ≤ PLAT_MAX_PWR_LVL → ps_dims st →
  zget (psci_svc_cpu_data s) me = Some d → is_Some (pwr_domain_off ops) →
  wp E (cpu_off_locked ops me l PSCI_E_SUCCESS st) me s (λ x s',
    x.1 = PSCI_E_DENIED ∧ upto s s' ∨
    x.1 = PSCI_E_SUCCESS ∧ coordinated_st me l st x.2 s ∧
    upto (downed me l st x.2 (with_local_state (pds x.2 0) d) s) s').
Proof.
  intros Hlive Hi Hc Hl Hst Hd [foff Hoff]. unfold cpu_off_locked.
  apply wp_bind. eapply spd_hook_ok; [apply (iv_spd _ _ _ _ _ Hi)|].
  apply wp_bind. set (h := match spd with Some pm => svc_off pm | None => None end).
  eapply (wp_mono _ _ _ _ (λ rc s', upto s s' ∧
            (rc = PSCI_E_SUCCESS ∨ rc = PSCI_E_DENIED ∧ is_Some h))).
  { destruct h as [g|] eqn:Hh; [|by apply wp_ret; split; [reflexivity|left]]. apply wp_bind, wp_emit. intros s1 Hu.
    unfold h in Hh. destruct spd as [pm|] eqn:Hs; [|done].
    apply wp_call_hook_ret; [by apply live_cases, (fl_svc_off _ Hlive pm Hs)|].
    intros rc h' Hrc s2 Hu2. split; [by etrans|].
    destruct (ok_svc_off pm (Hspd _ eq_refl) _ _ _ _ _ Hh Hrc) as [-> | ->]; eauto. }
  intros rc s1 [(h1 & t1 & ->) Hrc].
  destruct Hrc as [-> | [-> [g ->]]]; [|by apply wp_ret; left; split; [|exists h1, t1]].
  rewrite andb_false_r.
  apply wp_bind. apply wp_coordinate; [by apply invl_hw|done..|]. intros st' Hco.
  apply wp_bind. eapply wp_apply; [by apply invl_hw|done|done|apply Hco|done|].
  intros s2 (h2 & t2 & ->). rewrite Hstat.
  apply wp_bind, wp_ret.
  apply wp_bind. eapply wp_quiet; [apply quiet_pwrdown_cpu_start; [done|apply Hlive|apply find_max_off_nonneg]|].
  intros _ s3 (h3 & t3 & ->).
  apply wp_bind. eapply wp_quiet; [auto 10 with quiet|]. intros _ s4 (h4 & t4 & ->).
  apply wp_bind. eapply wp_quiet.
  { pose proof (fl_off _ Hlive st' (proj1 Hco)) as Hl'. rewrite Hoff in Hl' |- *.
    by apply quiet_call_plat, Hl'. }
  intros _ s5 (h5 & t5 & ->). apply wp_bind, wp_ret, wp_ret. right.
  split_and!; [done|done|]. by exists h5, t5.
Qed.

(** What is left of psci_do_cpu_off() once the CPU counts as off. *)
Definition cpu_off_tail (st : psci_power_state_t) : PM Z :=
  psci_dsbish;;
  psci_inv_cpu_data;;
  when ENABLE_RUNTIME_INSTRUMENTATION (emit EvTimestamp);;
  opt_wplat (PlatPwrDown st) ((λ f, f st) <$> pwr_domain_pwr_down ops);;
  psci_pwrdown_cpu_end_terminal.

(** The state in which it does: every level was asked to power off, and the
    coordinated states are in place. *)
Definition off_committed me s s' : Prop := ∃ st st',
  ps_dims st ∧ (∀ l, 0 ≤ l ≤ PLAT_MAX_PWR_LVL → pds st l = PLAT_MAX_OFF_STATE) ∧
  coordinated_st me PLAT_MAX_PWR_LVL st st' s ∧
  upto (downed me PLAT_MAX_PWR_LVL st st' (CpuData AFF_STATE_OFF PLAT_MAX_PWR_LVL (pds st' 0)) s) s'.

Section CpuOffRun.
Context (E : psci_state H → Prop) (me : Z) (s : psci_state H) (P : res (psci_state H) Z → Prop).
Context (Hlive : off_live E) (Hend : ∀ s', E s' → P (Dead s') ∧ P (Panic s')).
Context (Hi : inv s) (Hrun : running me s) (Hc : 0 ≤ me < tp_cores T).
Context (Hdenied : ∀ s', upto s s' → P (Ret PSCI_E_DENIED s')).
Context (Htail : ∀ st s', ps_dims st → off_committed me s s' → P (cpu_off_tail st me s')).

Lemma cpu_off_release st st' h t s3 :
  ps_dims st → (∀ l, 0 ≤ l ≤ PLAT_MAX_PWR_LVL → pds st l = PLAT_MAX_OFF_STATE) →
  coordinated_st me PLAT_MAX_PWR_LVL st st' s →
  upto (downed me PLAT_MAX_PWR_LVL st st' (CpuData AFF_STATE_ON PLAT_MAX_PWR_LVL (pds st' 0))
    (set_hw h (set_trace t (set_psci_locks (lock_all true (ancs T me PLAT_MAX_PWR_LVL) free_locks) s)))) s3 →
  P ((psci_release_pwr_domain_locks PLAT_MAX_PWR_LVL (ancs T me PLAT_MAX_PWR_LVL);;
      if PSCI_E_SUCCESS =? PSCI_E_SUCCESS then
        psci_flush_cpu_data;; psci_set_aff_info_state AFF_STATE_OFF;; cpu_off_tail st'
      else ret PSCI_E_SUCCESS) me s3).
Proof using Hi Hrun Hc Hend Htail Hw cok laws.
  intros Hst Hpds Hco Hu3. pose proof max_pwr_lvl_ok.
  set (d := CpuData AFF_STATE_OFF PLAT_MAX_PWR_LVL (pds st' 0)).
  destruct (inv_down T ops spd caps Hw s me PLAT_MAX_PWR_LVL st st' d) as [Hinv _];
    [done|done|done|lia|apply Hco|simpl; lia|by right|].
  set (sF := downed me PLAT_MAX_PWR_LVL st st' (CpuData AFF_STATE_ON PLAT_MAX_PWR_LVL (pds st' 0)) s).
  apply (run_bind E); [done|]. eapply (wp_release_inv _ _ sF); [| | |done|lia|].
  { destruct Hu3 as (h3 & t3 & ->). by exists h3, t3. }
  { rewrite <- (iv_topo _ _ _ _ _ Hinv). done. }
  { apply (iv_locks _ _ _ _ _ Hi). }
  intros s4 (h4 & t4 & ->). change (PSCI_E_SUCCESS =? PSCI_E_SUCCESS) with true. cbv iota.
  apply (run_bind E); [done|]. eapply wp_quiet; [apply quiet_flush_cpu_data|]. intros _ s5 (h5 & t5 & ->).
  apply (run_bind E); [done|]. apply wp_bind, wp_my_core_pos. eapply wp_upd_cpu_data.
  { unfold sF, downed, with_power. ssimpl. apply zget_zset_eq.
    rewrite (iv_data _ _ _ _ _ Hi). pose proof (tw_cores _ Hw). lia. }
  apply Htail; [apply Hco|]. exists st, st'. split_and!; [done..|]. exists h5, t5.
  unfold sF, downed, with_power. ssimpl. by rewrite zset_zset.
Qed.

(** Every run of psci_do_cpu_off(): it is denied, or the CPU is committed. *)
Lemma cpu_off_run : is_Some (pwr_domain_off ops) → P (psci_do_cpu_off PLAT_MAX_PWR_LVL me s).
Proof using Hi Hrun Hc Hlive Hend Hdenied Htail Hw Hops Hspd Hplat Hcaps Hstat cok laws.
  intros Hoff. pose proof max_pwr_lvl_ok as Hmax. unfold psci_do_cpu_off.
  apply (run_bind E); [done|]. apply wp_my_core_pos. apply (run_bind E); [done|]. apply wp_gets.
  apply (run_bind E); [done|]. apply wp_pm_ops; [apply (iv_ops _ _ _ _ _ Hi)|].
  apply (run_bind E); [done|]. apply wp_assert; [by destruct Hoff as [f ->]|].
  apply (run_bind E); [done|]. apply wp_set_power_off_state; [apply (ok_uninit Hplat)|]. intros st Hst Hpds.
  apply (run_bind E); [done|].
  eapply (wp_mono _ _ _ _ (λ rc s', upto s s' ∧ (rc = PSCI_E_SUCCESS ∨ rc = PSCI_E_DENIED))).
  { destruct (pwr_domain_off_early ops) as [f|] eqn:Hf; [|by apply wp_ret; split; [reflexivity|left]].
    apply wp_bind, wp_emit. intros s1 Hu. apply wp_call_hook_ret.
    { apply live_cases, (opt_live_app _ _ (λ f, f st) f (fl_off_early _ Hlive st Hst) Hf). }
    intros rc h' Hrc s2 Hu2. split; [by etrans|]. by eapply ok_off_early. }
  intros rc s1 [Hu [-> | ->]]; [|by apply Hdenied].
  change (PSCI_E_SUCCESS =? PSCI_E_DENIED) with false. cbv iota.
  assert (Hi1 : inv s1) by (by rewrite <- Hu). pose proof (iv_topo _ _ _ _ _ Hi1) as HT.
  apply (run_bind E); [done|]. apply wp_get_parents; rewrite ?HT; try done; [lia|].
  apply (run_bind E); [done|]. apply wp_acquire_inv; [done|done|lia|]. intros s2 Hlk.
  assert (Hi2 : invl s2) by (eapply locked_invl; [by apply inv_invl|done]).
  destruct Hu as (h1 & t1 & ->). destruct Hlk as (h2 & t2 & ->). ssimpl.
  apply (run_bind E); [done|]. eapply wp_mono; [eapply wp_cpu_off_locked; [done|done|done|lia|done|apply Hrun|done]|].
  intros [rc st'] s3 [[Hrc Hu3]|(Hrc & Hco & Hu3)]; simpl in Hrc; subst rc.
  - apply (run_bind E); [done|]. eapply (wp_release_inv _ _ s); [|by rewrite <- HT|apply (iv_locks _ _ _ _ _ Hi)|done|lia|].
    { destruct Hu3 as (h3 & t3 & ->). by exists h3, t3. }
    intros s4 Hu4. by apply Hdenied.
  - eapply (cpu_off_release st st'); [done|done|exact Hco|exact Hu3].
Qed.
End CpuOffRun.

Lemma rg_do_cpu_off me s :
  inv s → running me s → 0 ≤ me < tp_cores T → is_Some (pwr_domain_off ops) →
  rgs me s (psci_do_cpu_off PLAT_MAX_PWR_LVL me s)
    (λ s1 rc s', rc = PSCI_E_DENIED ∧ finished me s1 s').
Proof.
  intros Hi Hrun Hc Hoff. pose proof max_pwr_lvl_ok.
  apply (cpu_off_run (λ _, True) me s (λ r, rgs me s r (λ s1 rc s', rc = PSCI_E_DENIED ∧ finished me s1 s')));
    [apply off_live_any|done..| | |done].
  - intros s' Hu. simpl. split; [done|]. eapply calm_finished; [done|]. by apply calm_upto.
  - intros st0 s6 Hst0 (st & st' & Hst & Hpds & Hco & Hu6). set (d := CpuData _ _ _) in Hu6.
    destruct (inv_down T ops spd caps Hw s me PLAT_MAX_PWR_LVL st st' d) as [Hinv Hguar];
      [done|done|done|lia|apply Hco|simpl; lia|by right|].
    assert (Hi6 : inv s6) by (by rewrite <- Hu6). assert (Hg6 : guar me s s6) by (by rewrite <- Hu6).
    unfold cpu_off_tail. apply rg_bind. eapply rg_mono; [apply (lull_quiet psci_dsbish); [auto with quiet|done..]|].
    intros s7 _ s8 (Hi8 & Hg8 & _).
    apply rg_bind. eapply rg_mono; [apply (lull_quiet psci_inv_cpu_data); [auto with quiet|done..]|].
    intros s9 _ s10 (Hi10 & Hg10 & _).
    apply rg_bind. eapply rg_mono; [apply (lull_quiet (when ENABLE_RUNTIME_INSTRUMENTATION (emit EvTimestamp))); [auto with quiet|done..]|].
    intros s11 _ s12 (Hi12 & Hg12 & _).
    apply rg_bind. eapply rg_mono; [apply lull_opt_wplat; [eauto with quiet|done..]|].
    intros s13 _ s14 (Hi14 & Hg14 & _). by apply rg_end_terminal.
Qed.

Lemma rg_cpu_off me s :
  inv s → running me s → 0 ≤ me < tp_cores T → is_Some (pwr_domain_off ops) →
  rgs me s (psci_cpu_off me s) (λ s1 _ s', finished me s1 s').
Proof.
  intros. apply rg_bind. eapply rg_mono; [by apply rg_do_cpu_off|].
  intros s1 rc s' [-> Hf]. apply rg_bind, rg_wp, wp_assert; done.
Qed.

(** ** CPU_SUSPEND *)

Lemma wp_pwrdown_start l m st d me s (Q : unit → psci_state H → Prop) :
  psci_plat_pm_ops s = Some ops → psci_spd_pm s = spd → ps_dims st → 0 ≤ m →
  zget (psci_svc_cpu_data s) me = Some d →
  (∀ s', upto (set_psci_svc_cpu_data (zset (psci_svc_cpu_data s) me (with_target_pwrlvl l d)) s) s' →
         Q tt s') →
  wpt (psci_suspend_to_pwrdown_start me l m st) me s Q.
Proof.
  intros Ho Hsp Hst Hm Hd HQ. unfold psci_suspend_to_pwrdown_start. rewrite Hos.
  apply wp_bind, wp_emit. intros s1 (h1 & t1 & ->).
  apply wp_bind, wp_gets. simpl. apply wp_bind, wp_bind, wp_my_core_pos.
  eapply wp_upd_cpu_data; [done|].
  apply wp_bind. eapply wp_quiet; [apply quiet_flush_cpu_data|]. intros _ s2 (h2 & t2 & ->).
  apply wp_bind. eapply wp_notify_spd; [exact Hsp| |].
  { intros pm Hs. by apply opt_live_any, ok_svc_suspend_safe, Hspd. }
  intros s3 (h3 & t3 & ->). apply wp_bind, wp_pm_ops; [done|].
  apply wp_bind. eapply wp_quiet; [eauto 6 with quiet|]. intros _ s4 (h4 & t4 & ->).
  eapply wp_quiet; [apply quiet_pwrdown_cpu_start; [done|by apply cpu_ops_live_any|done]|]. intros [] s5 (h5 & t5 & ->).
  apply HQ. by exists h5, t5.
Qed.

Lemma wp_suspend_coordinate l st me s (Q : Z * psci_power_state_t → psci_state H → Prop) :
  invl s → 0 ≤ me < tp_cores T → 0 ≤ l ≤ PLAT_MAX_PWR_LVL → ps_dims st →
  (∀ st', coordinated_st me l st st' s →
     Q (PSCI_E_SUCCESS, st')
       (set_psci_req_local_pwr_states
          (req_levels (psci_req_local_pwr_states s) me (pds st) (Z.to_nat l)) s)) →
  wpt (suspend_coordinate me l st) me s Q.
Proof.
  intros Hi Hc Hl Hst HQ. unfold suspend_coordinate. rewrite Hos. simpl.
  apply wp_bind, wp_gets. apply wp_bind. apply wp_bind.
  apply wp_coordinate; [done..|]. intros st' Hco. apply wp_ret. simpl.
  apply wp_bind, wp_pm_ops; [apply (iv_ops _ _ _ _ _ Hi)|]. by apply wp_ret, HQ.
Qed.

(** The target level a suspending CPU records. *)
Definition suspend_target (pd l : Z) : Z := if negb (pd =? 0) then l else PLAT_MAX_PWR_LVL.

Lemma wp_suspend_enter l st st' pd me s (Q : Z → psci_state H → Prop) :
  invl s → running me s → 0 ≤ me < tp_cores T → 0 ≤ l ≤ PLAT_MAX_PWR_LVL → ps_dims st' →
  is_Some (pwr_domain_suspend ops) →
  (∀ m s', 0 ≤ m →
     upto (downed me l st st' (CpuData AFF_STATE_ON (suspend_target pd l) (pds st' 0)) s) s' →
     Q m s') →
  wpt (suspend_enter me l st' pd) me
    (set_psci_req_local_pwr_states
       (req_levels (psci_req_local_pwr_states s) me (pds st) (Z.to_nat l)) s) Q.
Proof.
  intros Hi [Hd _] Hc Hl Hst' [f Hf] HQ. unfold suspend_enter. rewrite Hstat.
  pose proof (zget_Some_range _ _ _ Hd) as Hr.
  apply wp_bind. eapply wp_apply; [done|done|done|done|exact Hd|]. intros s1 (h1 & t1 & ->).
  apply wp_bind, wp_ret. apply wp_bind.
  set (d := CpuData AFF_STATE_ON (suspend_target pd l) (pds st' 0)).
  eapply (wp_mono _ _ _ _ (λ m s', 0 ≤ m ∧ upto (downed me l st st' d s) s')).
  { unfold d, suspend_target. destruct (negb (pd =? 0)).
    - apply wp_bind. eapply wp_pwrdown_start.
      + by apply (iv_ops _ _ _ _ _ Hi).
      + by apply (iv_spd _ _ _ _ _ Hi).
      + exact Hst'.
      + lia.
      + unfold downed, with_power. ssimpl. by apply zget_zset_eq.
      + intros s2 (h2 & t2 & ->). apply wp_ret. split; [apply find_max_off_nonneg|].
        exists h2, t2. unfold downed, with_power. ssimpl. by rewrite zset_zset.
    - apply wp_ret. split; [lia|]. by exists h1, t1. }
  intros m s2 [Hm (h2 & t2 & ->)].
  apply wp_bind. eapply wp_quiet; [auto with quiet|]. intros _ s3 (h3 & t3 & ->).
  apply wp_bind, wp_pm_ops; [by apply (iv_ops _ _ _ _ _ Hi)|].
  apply wp_bind. eapply wp_quiet.
  { rewrite Hf. apply quiet_call_plat, live_any.
    exact (opt_safe_app _ (λ f, f st') f (sf_suspend _ (ok_safe _ Hops) st' Hst') Hf). }
  intros _ s4 (h4 & t4 & ->). apply wp_bind, wp_ret, wp_ret. apply HQ; [done|]. by exists h4, t4.
Qed.

(** The state after bringing the levels [0 .. l] back. *)
Definition upped me l s : psci_state H :=
  let f := λ _ : Z, PSCI_LOCAL_STATE_RUN in
  with_power (req_levels (psci_req_local_pwr_states s) me f (Z.to_nat l))
    (node_levels T me f (Z.to_nat l) (psci_non_cpu_pd_nodes s))
    (zset (psci_svc_cpu_data s) me (CpuData AFF_STATE_ON PLAT_MAX_PWR_LVL PSCI_LOCAL_STATE_RUN)) s.

Lemma wp_to_run {E} l d me s0 s (Q : unit → psci_state H → Prop) :
  invl s0 → 0 ≤ me < tp_cores T → 0 ≤ l ≤ PLAT_MAX_PWR_LVL →
  upto (set_psci_svc_cpu_data (zset (psci_svc_cpu_data s0) me d) s0) s →
  target_pwrlvl d = PLAT_MAX_PWR_LVL →
  (∀ s', upto (upped me l s0) s' → Q tt s') →
  wp E (psci_set_pwr_domains_to_run me l) me s Q.
Proof.
  intros Hi Hc Hl (h & t & ->) Ht HQ. pose proof (iv_topo _ _ _ _ _ Hi) as HT.
  change (topo_of s0 = T) in HT. pose proof (tw_cores _ Hw).
  pose proof (iv_data _ _ _ _ _ Hi) as Hlen. change (zlen (psci_svc_cpu_data s0) = PLATFORM_CORE_COUNT) in Hlen.
  eapply wp_set_run; try done.
  - by change (topo_wf (topo_of s0)); rewrite HT.
  - by change (0 ≤ me < tp_cores (topo_of s0)); rewrite HT.
  - apply (iv_req _ _ _ _ _ Hi).
  - ssimpl. apply zget_zset_eq. lia.
  - intros s' (h' & t' & ->). apply HQ. exists h', t'. unfold upped, with_power. ssimpl.
    rewrite zset_zset, Ht. unfold topo_of; ssimpl. by rewrite <- HT.
Qed.

Lemma wp_powerdown_finish {E} m st ab d f me s (Q : unit → psci_state H → Prop) :
  psci_plat_pm_ops s = Some ops → pwr_domain_suspend_finish ops = Some f → live E (f st) →
  (∀ pm, psci_spd_pm s = Some pm → opt_live E ((λ g, g m ab) <$> svc_suspend_finish pm)) →
  zget (psci_svc_cpu_data s) me = Some d → aff_info_state d = AFF_STATE_ON →
  is_local_state_off (pds st 0) = true →
  (∀ s', upto (set_psci_svc_cpu_data
                 (zset (psci_svc_cpu_data s) me (with_target_pwrlvl PLAT_MAX_PWR_LVL d)) s) s' → Q tt s') →
  wp E (psci_cpu_suspend_to_powerdown_finish me m st ab) me s Q.
Proof.
  intros Ho Hf Hlive Hspl Hd Ha Hoff HQ. unfold psci_cpu_suspend_to_powerdown_finish.
  apply wp_bind, wp_bind, wp_my_core_pos, wp_bind. eapply wp_get_cpu_data; [done|]. apply wp_ret.
  apply wp_bind, wp_assert. { by rewrite Ha, bool_decide_true. }
  apply wp_bind, wp_pm_ops; [done|].
  apply wp_bind. eapply wp_quiet; [rewrite Hf; by apply quiet_call_plat|]. intros _ s1 (h1 & t1 & ->).
  apply wp_bind. eapply wp_quiet; [auto with quiet|]. intros _ s2 (h2 & t2 & ->).
  apply wp_bind. eapply wp_quiet; [auto with quiet|]. intros _ s3 (h3 & t3 & ->).
  apply wp_bind. eapply wp_quiet; [auto with quiet|]. intros _ s4 (h4 & t4 & ->).
  apply wp_bind. eapply wp_notify_spd; [reflexivity|exact Hspl|].
  intros s5 (h5 & t5 & ->).
  apply wp_bind, wp_bind, wp_my_core_pos. eapply wp_upd_cpu_data; [done|].
  apply wp_emit. intros s6 (h6 & t6 & ->). apply HQ. by exists h6, t6.
Qed.

Lemma power_state_run_dims : ps_dims power_state_run.
Proof.
  unfold ps_dims, power_state_run, zlen. simpl. rewrite length_replicate.
  pose proof max_pwr_lvl_ok. lia.
Qed.

Lemma wp_suspend_exit l m st pd d me s (Q : unit → psci_state H → Prop) :
  invl s → 0 ≤ me < tp_cores T → 0 ≤ l ≤ PLAT_MAX_PWR_LVL → ps_dims st →
  is_Some (pwr_domain_suspend_finish ops) →
  zget (psci_svc_cpu_data s) me = Some d → aff_info_state d = AFF_STATE_ON →
  (pd ≠ 0 → is_local_state_off (local_state d) = true) →
  (∀ s', upto (upped me l s) s' → Q tt s') →
  wpt (suspend_exit me l m st pd) me s Q.
Proof.
  intros Hi Hc Hl Hst [f Hf] Hd Ha Hoff HQ. unfold suspend_exit. rewrite Hstat.
  pose proof (iv_topo _ _ _ _ _ Hi) as HT. change (topo_of s = T) in HT.
  apply wp_bind. eapply wp_get_target; rewrite ?HT; try done.
  intros s1 st1 (h1 & t1 & ->) Hd1 Hp0 _ _.
  apply wp_bind, wp_ret. apply wp_bind.
  set (d' := with_target_pwrlvl PLAT_MAX_PWR_LVL d).
  assert (Hsafe : hook_safe (f st1)).
  { exact (opt_safe_app _ (λ f, f st1) f (sf_suspend_finish _ (ok_safe _ Hops) st1 Hd1) Hf). }
  eapply (wp_mono _ _ _ _ (λ _ s', upto (set_psci_svc_cpu_data (zset (psci_svc_cpu_data s) me d') s) s')).
  { destruct (Z.eqb_spec pd 0) as [->|Hne]; simpl.
    - unfold psci_cpu_suspend_to_standby_finish.
      apply wp_bind, wp_pm_ops; [by apply (iv_ops _ _ _ _ _ Hi)|].
      apply wp_bind. eapply wp_quiet; [rewrite Hf; by apply quiet_call_plat, live_any|].
      intros _ s2 (h2 & t2 & ->). apply wp_bind, wp_my_core_pos.
      eapply wp_upd_cpu_data; [done|]. by exists h2, t2.
    - eapply wp_powerdown_finish; [by apply (iv_ops _ _ _ _ _ Hi)|exact Hf|by apply live_any| |done|done| |].
      + intros pm Hs. apply opt_live_any, ok_svc_suspend_finish_safe, Hspd.
        rewrite <- (iv_spd _ _ _ _ _ Hi). exact Hs.
      + rewrite Hp0. by apply Hoff.
      + intros s2 (h2 & t2 & ->). by exists h2, t2. }
  intros [] s2 Hu2.
  apply wp_bind. eapply wp_quiet; [auto with quiet|]. intros _ s3 Hu3.
  eapply (wp_to_run l d' me s); [done|done|done|by etrans|done|done].
Qed.

(** What is known when a suspended CPU runs again. *)
Lemma suspended_back me l st st' pd s1 s2 s :
  running me s1 → upto (downed me l st st' (CpuData AFF_STATE_ON (suspend_target pd l) (pds st' 0)) s1) s2 →
  inv s1 → 0 ≤ me < tp_cores T → 0 ≤ l ≤ PLAT_MAX_PWR_LVL → stable me s2 s →
  zget (psci_svc_cpu_data s) me =
    Some (CpuData AFF_STATE_ON (suspend_target pd l) (pds st' 0)) ∧
  ∀ k, l < k ≤ PLAT_MAX_PWR_LVL →
    req_at (psci_req_local_pwr_states s) k me = Some PSCI_LOCAL_STATE_RUN.
Proof.
  intros [Hd Hreq] (h & t & ->) Hi Hc Hl [Hr Hdata]. pose proof (tw_cores _ Hw).
  pose proof (zget_Some_range _ _ _ Hd).
  destruct (Hdata (CpuData AFF_STATE_ON (suspend_target pd l) (pds st' 0))) as ([a t' l'] & Hd' & Ht & Hl' & Ha).
  { unfold downed, with_power. ssimpl. by apply zget_zset_eq. }
  simpl in *. split; [rewrite Hd', Ha by done; by subst|].
  intros k Hk. rewrite Hr. unfold downed, with_power. ssimpl.
  rewrite req_at_levels by ((by apply (iv_req _ _ _ _ _ Hi)) || lia).
  rewrite decide_False by lia. apply Hreq. lia.
Qed.

(** From the wake-up to the return of psci_cpu_suspend_start(). *)
Lemma wp_suspend_resume me l m st d pd (rc : Z) s0 s :
  inv s → guar me s0 s → 0 ≤ me < tp_cores T → 0 ≤ l ≤ PLAT_MAX_PWR_LVL → ps_dims st →
  is_Some (pwr_domain_suspend_finish ops) →
  zget (psci_svc_cpu_data s) me = Some d → aff_info_state d = AFF_STATE_ON →
  (pd ≠ 0 → is_local_state_off (local_state d) = true) →
  (∀ k, l < k ≤ PLAT_MAX_PWR_LVL →
        req_at (psci_req_local_pwr_states s) k me = Some PSCI_LOCAL_STATE_RUN) →
  wpt (psci_acquire_pwr_domain_locks l (ancs T me l);;
       suspend_exit me l m st pd;;
       psci_release_pwr_domain_locks l (ancs T me l);;
       ret rc) me s (λ _ s', finished me s0 s').
Proof.
  intros Hi Hg Hc Hl Hst Hfin Hd Ha Hoff Habove.
  apply wp_bind, wp_acquire_inv; [done..|]. intros s1 Hlk.
  assert (Hi1 : invl s1) by (eapply locked_invl; [by apply inv_invl|done]).
  pose proof Hlk as (h1 & t1 & ->).
  apply wp_bind. eapply wp_suspend_exit; [done|done|done|done|done|exact Hd|done..|].
  intros s2 (h2 & t2 & ->).
  destruct (inv_up T ops spd caps Hw s me l) as (Hinv' & Hguar' & Hrun'); [done..|].
  apply wp_bind. eapply (wp_release_inv _ _ (upped me l s)); [by exists h2, t2| | |done|done|].
  { by rewrite <- (iv_topo _ _ _ _ _ Hinv'). }
  { apply (iv_locks _ _ _ _ _ Hi). }
  intros s3 Hu3. apply wp_ret. unfold finished. rewrite <- Hu3. split_and!; [done| |done].
  etrans; done.
Qed.

Lemma rg_cpu_suspend_start me l st pd s0 s :
  inv s → calm s0 s → running me s → 0 ≤ me < tp_cores T → 0 ≤ l ≤ PLAT_MAX_PWR_LVL → ps_dims st →
  is_Some (pwr_domain_suspend ops) → is_Some (pwr_domain_suspend_finish ops) →
  (pd ≠ 0 → is_local_state_off (pds st 0) = true) →
  rgs me s0 (psci_cpu_suspend_start me l st pd me s) (λ s1 _ s', finished me s1 s').
Proof.
  intros Hi Hcalm Hrun Hc Hl Hst Hsus Hfin Hoff. unfold psci_cpu_suspend_start.
  apply rg_bind, rg_wp, wp_pm_ops; [apply (iv_ops _ _ _ _ _ Hi)|].
  apply rg_bind, rg_wp, wp_assert.
  { destruct Hsus as [f ->], Hfin as [g ->]. done. }
  pose proof (iv_topo _ _ _ _ _ Hi) as HT.
  apply rg_bind, rg_wp, wp_get_parents; rewrite ?HT; try done.
  apply rg_bind, rg_wp, wp_acquire_inv; [done..|]. intros s1 Hlk.
  assert (Hi1 : invl s1) by (eapply locked_invl; [by apply inv_invl|done]).
  pose proof Hlk as (h1 & t1 & ->).
  apply rg_bind. simpl. apply rg_bind. simpl.
  destruct (negb (read_isr_el1 _ _ =? 0)).
  { apply rg_bind, rg_wp. eapply (wp_release_inv _ _ s); [done|done|apply (iv_locks _ _ _ _ _ Hi)|done..|].
    intros s2 Hu. simpl. unfold finished. rewrite <- Hu. split_and!; [done| |done].
    intros c _ _. apply Hcalm. }
  apply rg_bind, rg_wp, wp_suspend_coordinate; [done..|]. intros st' Hco.
  change (negb (PSCI_E_SUCCESS =? PSCI_E_SUCCESS)) with false. cbv iota.
  apply rg_bind, rg_wp. eapply wp_suspend_enter; [done|done|done|done|apply Hco|done|].
  intros m s2 Hm (h2 & t2 & ->).
  set (d := CpuData AFF_STATE_ON (suspend_target pd l) (pds st' 0)).
  assert (Hp0 : pds st' 0 = pds st 0).
  { destruct Hco as [_ Hco]. rewrite Hco by lia. unfold coord_ref. by rewrite decide_False by lia. }
  destruct (inv_down T ops spd caps Hw s me l st st' d) as [Hinv Hguar];
    [done|done|done|done|apply Hco| |left; split; [done|by intros _]|].
  { unfold d, suspend_target. simpl. destruct (negb _); lia. }
  apply rg_bind, rg_wp. eapply (wp_release_inv _ _ (downed me l st st' d s)); [by exists h2, t2| | |done|done|].
  { by rewrite <- (iv_topo _ _ _ _ _ Hinv). }
  { apply (iv_locks _ _ _ _ _ Hi). }
  intros s3 Hu3. assert (Hi3 : inv s3) by (by rewrite <- Hu3).
  assert (Hg3 : guar me s0 s3).
  { etrans; [intros c _ _; apply Hcalm|]. by rewrite <- Hu3. }
  apply rg_bind. eapply rg_mono; [apply (lull_quiet (when ENABLE_RUNTIME_INSTRUMENTATION (emit EvTimestamp))); [auto with quiet|done..]|].
  intros s4 _ s5 (Hi5 & Hg5 & Hs5).
  apply rg_bind. eapply rg_mono.
  { refine ((_ : lull _) me s4 s5 Hi5 Hg5). destruct (negb (pd =? 0)); [|apply lull_wfi].
    apply lull_bind; [apply lull_opt_wplat, sf_pwr_down; [by apply ok_safe|apply Hco]|].
    intros _. by apply lull_end_wakeup. }
  intros s6 _ s7 (Hi7 & Hg7 & Hs7).
  apply rg_bind. eapply rg_mono; [apply (lull_quiet (when ENABLE_RUNTIME_INSTRUMENTATION (emit EvTimestamp))); [auto with quiet|done..]|].
  intros s8 _ s9 (Hi9 & Hg9 & Hs9).
  destruct (suspended_back me l st st' pd s s3 s9) as [Hd9 Hr9]; [done..|by do 2 (etrans; [done|])|].
  apply rg_wp. eapply wp_suspend_resume; [done|done|done|done|apply Hco|done|exact Hd9|done| |done].
  simpl. by rewrite Hp0.
Qed.

Lemma find_down_range n P i : find_down n P = Some i → 0 ≤ i < Z.of_nat n.
Proof.
  induction n as [|n IH]; cbn [find_down]; [done|]. destruct (P _).
  - intros [= <-]. lia.
  - intros Hi. specialize (IH Hi). lia.
Qed.

Lemma find_target_range st :
  psci_find_target_suspend_lvl st ≠ PSCI_INVALID_PWR_LVL →
  0 ≤ psci_find_target_suspend_lvl st ≤ PLAT_MAX_PWR_LVL.
Proof.
  unfold psci_find_target_suspend_lvl. pose proof max_pwr_lvl_ok.
  destruct (find_down _ _) as [i|] eqn:Hf; [|done]. intros _.
  apply find_down_range in Hf. simpl. lia.
Qed.

Lemma wp_validate_power_state ps me s (Q : Z * psci_power_state_t → psci_state H → Prop) :
  psci_plat_pm_ops s = Some ops → is_Some (validate_power_state ops) →
  (∀ s' rc st, upto s s' →
     rc = PSCI_E_INVALID_PARAMS ∨
     rc = PSCI_E_SUCCESS ∧ ps_dims st ∧
     psci_validate_suspend_req st (psci_get_pstate_type ps) = PSCI_E_SUCCESS ∧
     (psci_get_pstate_type ps ≠ 0 → is_local_state_off (pds st 0) = true) →
     Q (rc, st) s') →
  wpt (psci_validate_power_state ps power_state_run) me s Q.
Proof.
  intros Ho [f Hf] HQ. unfold psci_validate_power_state.
  destruct (Z.eqb_spec (psci_check_power_state ps) 0) as [Hck|]; simpl.
  2: { apply wp_ret, HQ; [reflexivity|by left]. }
  apply wp_bind, wp_pm_ops; [done|]. apply wp_bind, wp_assert; [by rewrite Hf|].
  apply wp_bind. eapply wp_some; [done|]. apply wp_call_hook; [|done|].
  { exact (opt_safe_app _ (λ f, f ps power_state_run) f (sf_validate _ (ok_safe _ Hops) ps Hck) Hf). }
  intros [rc st] h' Hr s' Hu. apply HQ; [done|]. by eapply ok_validate.
Qed.

(** A CPU changing its own power state only. *)
Lemma inv_own_data s c d :
  inv s → 0 ≤ c < tp_cores T → cpu_inv ops (psci_req_local_pwr_states s) c d →
  inv (set_psci_svc_cpu_data (zset (psci_svc_cpu_data s) c d) s) ∧
  guar c s (set_psci_svc_cpu_data (zset (psci_svc_cpu_data s) c d) s).
Proof.
  intros Hi Hc Hd.
  destruct (with_power_inv T ops spd caps Hw s (psci_req_local_pwr_states s)
              (psci_non_cpu_pd_nodes s) c d) as [Hinv Hguar]; try done.
  - apply (iv_req _ _ _ _ _ Hi).
  - by rewrite <- (iv_topo _ _ _ _ _ Hi).
  - apply (iv_safe _ _ _ _ _ Hi).
Qed.

Lemma rg_standby st me s0 s :
  inv s → guar me s0 s → running me s → 0 ≤ me < tp_cores T →
  is_Some (pwr_domain_suspend_finish ops) →
  rgs me s0 (cpu_standby_path ops me st me s) (λ s1 _ s', finished me s1 s').
Proof.
  intros Hi Hg [Hd Hreq] Hc Hfin. unfold cpu_standby_path. rewrite Hstat.
  pose proof (sf_standby _ (ok_safe _ Hops) (pds st PSCI_CPU_PWR_LVL)) as Hsafe.
  destruct (cpu_standby ops) as [f|]; [|by simpl].
  pose proof (zget_Some_range _ _ _ Hd) as Hlen. pose proof max_pwr_lvl_ok. pose proof ret_off_ok.
  destruct (inv_own_data s me (CpuData AFF_STATE_ON PLAT_MAX_PWR_LVL (pds st 0))) as [Hi1 Hg1]; [done|done| |].
  { split; simpl; [lia|lia|done|done|done]. }
  apply rg_bind, rg_wp, wp_bind, wp_my_core_pos. eapply wp_upd_cpu_data; [done|].
  set (s1 := set_psci_svc_cpu_data _ s) in *. change (inv s1) in Hi1.
  assert (Hg01 : guar me s0 s1) by (by etrans).
  apply rg_bind. eapply rg_mono; [apply (lull_quiet (ret tt)); [auto with quiet|done..]|].
  intros s2 _ s3 (Hi3 & Hg3 & Hs3).
  apply rg_bind. eapply rg_mono; [apply (lull_quiet (when ENABLE_RUNTIME_INSTRUMENTATION (emit EvTimestamp))); [auto with quiet|done..]|].
  intros s4 _ s5 (Hi5 & Hg5 & Hs5).
  apply rg_bind. eapply rg_mono; [apply (lull_quiet (emit (EvPlat (PlatCpuStandby (pds st PSCI_CPU_PWR_LVL))))); [auto with quiet|done..]|].
  intros s6 _ s7 (Hi7 & Hg7 & Hs7).
  apply rg_bind. eapply rg_mono; [by apply lull_whook; [apply Hsafe|..]|].
  intros s8 _ s9 (Hi9 & Hg9 & Hs9).
  assert (Hs : stable me s1 s9) by (do 3 (etrans; [done|]); done).
  destruct Hs as [Hr' Hd'].
  destruct (Hd' (CpuData AFF_STATE_ON PLAT_MAX_PWR_LVL (pds st 0))) as ([a t' l'] & Hd9 & Ht & Hl & Ha).
  { unfold s1. ssimpl. by apply zget_zset_eq. }
  simpl in *. subst. rewrite Ha in Hd9 by done.
  destruct (inv_own_data s9 me (CpuData AFF_STATE_ON PLAT_MAX_PWR_LVL PSCI_LOCAL_STATE_RUN)) as [Hi10 Hg10]; [done|done| |].
  { split; simpl; [lia|lia|done|done|done]. }
  apply rg_bind, rg_wp, wp_bind, wp_my_core_pos. eapply wp_upd_cpu_data; [done|].
  apply rg_bind, rg_wp. eapply wp_quiet; [auto with quiet|]. intros _ s11 Hu11. simpl.
  unfold finished. rewrite <- Hu11.
  split_and!; [done|by etrans|]. split; ssimpl.
  - apply zget_zset_eq. by eapply zget_Some_range.
  - intros k Hk. rewrite Hr'. by apply Hreq.
Qed.

Lemma rg_calm {A} (m : PM A) me s0 s :
  guar me s0 s → running me s → wpt m me s (λ _ s', calm s s') →
  rgs me s0 (m me s) (λ s1 _ s', finished me s1 s').
Proof.
  intros Hg Hr Hm. apply rg_wp. eapply wp_mono; [done|]. intros a s' Hc.
  destruct (calm_finished me s s' Hr Hc) as (? & ? & ?). split_and!; [done| |done]. by etrans.
Qed.

Lemma rg_cpu_suspend ps e x me s :
  inv s → running me s → 0 ≤ me < tp_cores T → has_cap caps PSCI_CPU_SUSPEND_AARCH64 = true →
  rgs me s (psci_cpu_suspend ps e x me s) (λ s1 _ s', finished me s1 s').
Proof.
  intros Hi Hrun Hc Hcap. destruct (cap_suspend _ _ _ Hcaps Hcap) as (Hsus & Hfin & Hval).
  unfold psci_cpu_suspend. apply rg_bind. simpl. apply rg_bind. simpl.
  set (ps' := if _ && _ then _ else ps). clearbody ps'.
  apply rg_bind, rg_wp, wp_validate_power_state; [apply (iv_ops _ _ _ _ _ Hi)|done|].
  intros s1 rc st Hu Hrc.
  assert (Hi1 : inv s1) by (by rewrite <- Hu). assert (Hrun1 : running me s1) by (by rewrite <- Hu).
  assert (Hg1 : guar me s s1) by (by rewrite <- Hu).
  destruct Hrc as [-> |(-> & Hst & Hreq & Hoff)].
  { apply rg_calm; [done|done|]. apply wp_bind, wp_assert; [done|]. by apply wp_ret, calm_refl. }
  change (negb (PSCI_E_SUCCESS =? PSCI_E_SUCCESS)) with false. cbv iota.
  apply rg_bind, rg_wp, wp_assert; [by rewrite Hreq|].
  destruct (Z.eqb_spec (psci_find_target_suspend_lvl st) PSCI_INVALID_PWR_LVL) as [|Hne]; [done|].
  pose proof (find_target_range st Hne) as Hl.
  apply rg_bind, rg_wp, wp_pm_ops; [apply (iv_ops _ _ _ _ _ Hi1)|].
  destruct (is_cpu_standby_req _ _); [by apply rg_standby|].
  pose proof (tw_cores _ Hw).
  apply rg_bind, rg_wp. eapply (wp_mono _ _ _ _ (λ _ s', calm s1 s')).
  { destruct (negb (_ =? 0)); [apply wp_validate_entry_point; [done|lia]|].
    by apply wp_ret, calm_refl. }
  intros rc s2 Hcalm. assert (Hcalm' : calm s s2).
  { eapply calm_trans; [by apply calm_upto|done]. }
  destruct (negb (rc =? PSCI_E_SUCCESS)); [by apply calm_finished|].
  apply rg_cpu_suspend_start; [apply Hcalm|done| |done..].
  eapply running_stable; [exact Hrun1|apply Hcalm].
Qed.

(** ** SYSTEM_SUSPEND *)

(** psci_is_last_on_cpu() says whether every other CPU is off. *)
Lemma wp_is_last_on_cpu me s (Q : bool → psci_state H → Prop) :
  topo_of s = T → zlen (psci_svc_cpu_data s) = PLATFORM_CORE_COUNT → 0 ≤ me < tp_cores T →
  (∃ d, zget (psci_svc_cpu_data s) me = Some d ∧ aff_info_state d = AFF_STATE_ON) →
  (∀ b : bool, (b ↔ ∀ c d, 0 ≤ c < tp_cores T → c ≠ me → zget (psci_svc_cpu_data s) c = Some d →
                      aff_info_state d = AFF_STATE_OFF) → Q b s) →
  wpt (psci_is_last_on_cpu me) me s Q.
Proof.
  intros HT Hlen Hc (dm & Hdm & Hon) HQ. unfold psci_is_last_on_cpu. pose proof (tw_cores _ Hw).
  apply wp_bind, wp_gets. assert (psci_plat_core_count s = tp_cores T) as -> by (by rewrite <- HT).
  apply wp_bind.
  eapply (wp_for_brk_to _ (λ i r s', s' = s ∧ r = true ∧
    ∀ c d, 0 ≤ c < i → c ≠ me → zget (psci_svc_cpu_data s) c = Some d → aff_info_state d = AFF_STATE_OFF)).
  - split_and!; [done|done|lia].
  - intros i r s' Hi (-> & -> & Hall). destruct (Z.eqb_spec i me) as [->|Hne].
    + apply wp_bind, wp_bind, wp_my_core_pos, wp_bind. eapply wp_get_cpu_data; [done|]. apply wp_ret.
      apply wp_bind, wp_assert; [by rewrite Hon, bool_decide_true|]. apply wp_ret.
      split_and!; [done..|]. intros c d Hc' Hne. apply Hall; lia.
    + destruct (zget_is_Some (psci_svc_cpu_data s) i) as [d Hd]; [lia|].
      apply wp_bind, wp_bind. eapply wp_get_cpu_data; [done|]. apply wp_ret.
      case_bool_decide as Hoff.
      * apply wp_ret. apply wp_ret, HQ. split; [done|]. intros Hall'.
        destruct Hoff. apply (Hall' i); [lia|done|done].
      * apply wp_ret. split_and!; [done..|]. intros c d' Hc' Hnc Hd'.
        destruct (decide (c = i)) as [->|]; [|apply (Hall c); [lia|done..]].
        assert (d' = d) as -> by congruence. done.
  - intros r s' (-> & -> & Hall). apply wp_ret, HQ. split; [|done]. intros _ c d Hc' Hne Hd.
    apply (Hall c); [lia|done..].
Qed.

Lemma rg_system_suspend e x me s :
  inv s → running me s → 0 ≤ me < tp_cores T → has_cap caps PSCI_SYSTEM_SUSPEND_AARCH64 = true →
  rgs me s (psci_system_suspend e x me s) (λ s1 _ s', finished me s1 s').
Proof.
  intros Hi Hrun Hc Hcap. destruct (cap_sys_suspend _ _ _ Hcaps Hcap) as (Hsus & Hfin & [f Hf]).
  pose proof max_pwr_lvl_ok. pose proof (tw_cores _ Hw).
  unfold psci_system_suspend. apply rg_bind. simpl. apply rg_bind. simpl.
  apply rg_bind, rg_wp, wp_is_last_on_cpu; [apply (iv_topo _ _ _ _ _ Hi)|apply (iv_data _ _ _ _ _ Hi)|done| |].
  { eexists. split; [apply Hrun|done]. }
  intros [|] _; simpl; [|by eapply calm_finished; [|apply calm_refl]].
  apply rg_bind, rg_wp. eapply wp_mono; [apply wp_validate_entry_point; [done|lia]|].
  intros rc s1 Hcalm. destruct (negb (rc =? PSCI_E_SUCCESS)); [by apply calm_finished|].
  apply rg_bind, rg_wp. unfold psci_query_sys_suspend_pwrstate.
  apply wp_bind, wp_pm_ops; [apply (iv_ops _ _ _ _ _ (proj1 Hcalm))|].
  apply wp_bind, wp_assert; [by rewrite Hf|]. apply wp_bind. eapply wp_some; [done|].
  apply wp_call_hook; [|done|].
  { eapply (opt_safe_app _ (λ f, f _) f (sf_sys_suspend _ (ok_safe _ Hops) _ (ok_uninit Hplat _ _)) Hf). }
  intros st h' Hr s2 Hu.
  destruct (ok_sys_suspend _ Hops _ _ _ _ _ _ Hf (ok_uninit Hplat _ _) Hr) as (Hst & Hval & Hoff).
  assert (Hcalm2 : calm s s2) by (eapply calm_trans; [exact Hcalm|]; by apply calm_upto; [apply Hcalm|]).
  destruct (_ <? _); [by apply calm_finished|].
  apply rg_bind, rg_wp, wp_assert; [by rewrite Hval|].
  apply rg_bind, rg_wp, wp_assert; [apply Hoff; lia|].
  apply rg_cpu_suspend_start; [apply Hcalm2|done| |done|lia|done|done|done|].
  - eapply running_stable; [exact Hrun|apply Hcalm2].
  - intros _. apply Hoff. lia.
Qed.

(** ** Queries *)

Lemma valid_mpidr_idx m :
  is_valid_mpidr (H:=H) m = true → 0 ≤ u32 (plat_core_pos_by_mpidr (H:=H) m) < PLATFORM_CORE_COUNT.
Proof.
  unfold is_valid_mpidr. intros [_ Hv]%negb_true_iff%orb_false_iff.
  pose proof (u32_range (plat_core_pos_by_mpidr (H:=H) m)). lia.
Qed.

Lemma wp_affinity_info m l me s :
  inv s → wpt (psci_affinity_info m l) me s (λ _ s', calm s s').
Proof.
  intros Hi. unfold psci_affinity_info. destruct (is_valid_mpidr m) eqn:Hv; simpl.
  2: by apply wp_ret, calm_refl.
  destruct (_ <? l); [by apply wp_ret, calm_refl|].
  destruct (inv_cpu_data _ _ _ _ s _ Hi Hw (valid_mpidr_idx m Hv)) as [d Hd].
  apply wp_bind. eapply wp_quiet; [auto with quiet|]. intros _ s1 Hu.
  apply wp_bind, wp_bind. eapply wp_get_cpu_data; [by destruct Hu as (h & t & ->)|].
  apply wp_ret, wp_ret. by apply calm_upto.
Qed.

Lemma wp_spd_migrate_info x me s (Q : Z * Z → psci_state H → Prop) :
  inv s → (∀ r s', upto s s' → Q r s') → wpt (psci_spd_migrate_info x) me s Q.
Proof.
  intros Hi HQ. unfold psci_spd_migrate_info. apply wp_bind, wp_gets.
  rewrite (iv_spd _ _ _ _ _ Hi). destruct spd as [pm|] eqn:Hs; [|by apply wp_ret, HQ].
  destruct (svc_migrate_info pm) as [f|] eqn:Hf; [|by apply wp_ret, HQ].
  apply wp_bind, wp_call_hook; [|done|].
  { exact (opt_safe_app _ (λ f, f _) f (ok_svc_migrate_info_safe _ (Hspd _ eq_refl) _) Hf). }
  intros [rc m'] h' Hr s1 Hu.
  apply wp_bind, wp_assert; [|by apply wp_ret, HQ].
  destruct (ok_svc_migrate_info pm (Hspd _ eq_refl) _ _ _ _ _ _ _ Hf Hr) as [->|[->|[->| ->]]]; done.
Qed.

Lemma wp_migrate m me s :
  inv s → has_cap caps PSCI_MIG_AARCH64 = true → wpt (psci_migrate m) me s (λ _ s', calm s s').
Proof.
  intros Hi Hcap. unfold psci_migrate. destruct (is_valid_mpidr m) eqn:Hv; simpl.
  2: by apply wp_ret, calm_refl.
  apply wp_bind, wp_spd_migrate_info; [done|]. intros [rc r] s1 Hu.
  destruct (negb (rc =? _)); [by apply wp_ret, calm_upto|].
  apply wp_bind, wp_my_core_pos, wp_bind, wp_gets.
  destruct (negb (r =? _)); [by apply wp_ret, calm_upto|].
  destruct (cap_migrate _ _ _ Hcaps Hcap) as (pm & Hs & [f Hf]).
  apply wp_bind. eapply spd_hook_ok; [destruct Hu as (h & t & ->); by apply (iv_spd _ _ _ _ _ Hi)|].
  rewrite Hs, Hf. apply wp_bind, wp_assert; [done|]. apply wp_bind. eapply wp_some; [done|].
  apply wp_bind. apply wp_bind, wp_emit. intros s2 Hu2. apply wp_call_hook; [|done|].
  { exact (opt_safe_app _ (λ f, f _ _) f (ok_svc_migrate_safe _ (Hspd _ Hs) _ _) Hf). }
  intros rc' h' Hr s3 Hu3. apply wp_bind, wp_assert.
  { destruct (ok_svc_migrate pm (Hspd _ Hs) _ _ _ _ _ _ _ Hf Hr) as [-> | ->]; done. }
  apply wp_ret, calm_upto; [done|]. do 2 (etrans; [done|]). done.
Qed.

Lemma wp_migrate_info_type me s :
  inv s → wpt psci_migrate_info_type me s (λ _ s', calm s s').
Proof.
  intros Hi. apply wp_bind, wp_spd_migrate_info; [done|]. intros [rc r] s1 Hu.
  by apply wp_ret, calm_upto.
Qed.

Lemma wp_migrate_info_up_cpu me s :
  inv s → wpt psci_migrate_info_up_cpu me s (λ _ s', calm s s').
Proof.
  intros Hi. apply wp_bind, wp_spd_migrate_info; [done|]. intros [rc r] s1 Hu.
  by apply wp_ret, calm_upto.
Qed.

Lemma wp_node_hw_state m l me s :
  inv s → has_cap caps PSCI_NODE_HW_STATE_AARCH64 = true →
  wpt (psci_node_hw_state m l) me s (λ _ s', calm s s').
Proof.
  intros Hi Hcap. unfold psci_node_hw_state. destruct (is_valid_mpidr m); simpl.
  2: by apply wp_ret, calm_refl.
  destruct (_ <? l); [by apply wp_ret, calm_refl|].
  destruct (cap_node_hw_state _ _ _ Hcaps Hcap) as [f Hf].
  apply wp_bind, wp_pm_ops; [apply (iv_ops _ _ _ _ _ Hi)|].
  apply wp_bind, wp_assert; [by rewrite Hf|]. apply wp_bind. eapply wp_some; [done|].
  apply wp_bind, wp_call_hook; [|done|].
  { exact (opt_safe_app _ (λ f, f _ _) f (sf_node_hw_state _ (ok_safe _ Hops) _ _) Hf). }
  intros rc h' Hr s1 Hu. apply wp_bind, wp_assert; [|by apply wp_ret, calm_upto].
  destruct (ok_node_hw_state _ Hops _ _ _ _ _ _ _ Hf Hr) as [Hrc|[-> | ->]]; [|done..].
  unfold HW_ON, HW_STANDBY in *. lia.
Qed.

Lemma wp_mem_protect v me s :
  inv s → has_cap caps PSCI_MEM_PROTECT = true →
  wpt (psci_mem_protect v) me s (λ _ s', calm s s').
Proof.
  intros Hi Hcap. destruct (cap_mem_protect _ _ _ Hcaps Hcap) as [[f Hf] [g Hg]].
  unfold psci_mem_protect. apply wp_bind, wp_pm_ops; [apply (iv_ops _ _ _ _ _ Hi)|].
  apply wp_bind, wp_assert; [by rewrite Hf|]. apply wp_bind, wp_assert; [by rewrite Hg|].
  apply wp_bind. eapply wp_some; [done|].
  apply wp_bind. eapply wp_quiet; [by apply quiet_hook, live_any, (sf_read_mem _ (ok_safe _ Hops))|].
  intros [rc x] s1 Hu.
  destruct (rc <? 0); [by apply wp_ret, calm_upto|].
  apply wp_bind. eapply wp_some; [done|].
  assert (hook_safe (g v)) by exact (opt_safe_app _ (λ f, f v) g (sf_write_mem _ (ok_safe _ Hops) v) Hg).
  eapply wp_quiet; [auto 10 with quiet|]. intros _ s2 Hu2. apply calm_upto; [done|]. by etrans.
Qed.

Lemma wp_mem_chk_range b n me s :
  inv s → has_cap caps PSCI_MEM_CHK_RANGE_AARCH64 = true →
  wpt (psci_mem_chk_range b n) me s (λ _ s', calm s s').
Proof.
  intros Hi Hcap. destruct (cap_mem_chk _ _ _ Hcaps Hcap) as [f Hf].
  unfold psci_mem_chk_range. apply wp_bind, wp_pm_ops; [apply (iv_ops _ _ _ _ _ Hi)|].
  apply wp_bind, wp_assert; [by rewrite Hf|].
  destruct (_ || _); [by apply wp_ret, calm_refl|].
  apply wp_bind. eapply wp_some; [done|].
  assert (hook_safe (f b n)) by exact (opt_safe_app _ (λ f, f b n) f (sf_mem_chk _ (ok_safe _ Hops) b n) Hf).
  eapply wp_quiet; [auto 10 with quiet|]. intros _ s2 Hu2. by apply calm_upto.
Qed.

(** ** System power-off and reset *)

Lemma wp_system_off_prologue ev f me s (Q : unit → psci_state H → Prop) :
  inv s → (∀ pm, spd_ok pm → opt_safe (f pm)) → (∀ s', upto s s' → Q tt s') →
  wpt (system_off_prologue (H:=H) ev f) me s Q.
Proof.
  intros Hi Hsafe HQ. unfold system_off_prologue. apply wp_bind, wp_my_core_pos, wp_bind.
  eapply wp_notify_spd; [apply (iv_spd _ _ _ _ _ Hi)| |].
  { intros pm Hs. by apply opt_live_any, Hsafe, Hspd. }
  intros s1 Hu1. eapply wp_quiet; [auto 15 with quiet|]. intros [] s2 Hu2. apply HQ. by etrans.
Qed.

(** After the prologue: the platform's hook, then a wait that never ends. *)
Lemma rg_system_hook {A} ev (o : option (whook H A)) (k : A → PM Z) me s0 s :
  inv s → guar me s0 s → running me s → is_Some o → opt_wsafe o →
  (∀ a s0 s, inv s → guar me s0 s → running me s →
     rgs me s0 (k a me s) (λ s1 _ s', finished me s1 s')) →
  rgs me s0 (bind (call_wplat ev o) k me s) (λ s1 _ s', finished me s1 s').
Proof.
  intros Hi Hg Hr [f ->] Hsafe Hk. apply rg_bind. unfold call_wplat.
  apply rg_bind. simpl. apply rg_bind, rg_wp. eapply wp_quiet; [auto with quiet|]. intros _ s1 Hu.
  eapply rg_mono; [apply lull_whook; [by apply Hsafe|..]|].
  - by rewrite <- Hu.
  - by rewrite <- Hu.
  - intros s2 a s3 (Hi3 & Hg3 & Hs3). apply Hk; [done..|].
    eapply running_stable; [|exact Hs3]. by rewrite <- Hu.
Qed.

Lemma rg_system_off me s :
  inv s → running me s → has_cap caps PSCI_SYSTEM_OFF = true →
  rgs me s (psci_system_off me s) (λ s1 _ s', finished me s1 s').
Proof.
  intros Hi Hrun Hcap. pose proof (cap_system_off _ _ _ Hcaps Hcap) as Hf.
  unfold psci_system_off. apply rg_bind, rg_wp, wp_pm_ops; [apply (iv_ops _ _ _ _ _ Hi)|].
  apply rg_bind, rg_wp, wp_assert; [by destruct Hf as [f ->]|].
  apply rg_bind, rg_wp, wp_system_off_prologue; [done|apply ok_svc_system_off_safe|]. intros s1 Hu.
  apply rg_system_hook; [by rewrite <- Hu..|done|by apply sf_system_off, ok_safe|].
  intros; by apply rg_end_terminal.
Qed.

Lemma rg_system_reset me s :
  inv s → running me s → has_cap caps PSCI_SYSTEM_RESET = true →
  rgs me s (psci_system_reset me s) (λ s1 _ s', finished me s1 s').
Proof.
  intros Hi Hrun Hcap. pose proof (cap_system_reset _ _ _ Hcaps Hcap) as Hf.
  unfold psci_system_reset. apply rg_bind, rg_wp, wp_pm_ops; [apply (iv_ops _ _ _ _ _ Hi)|].
  apply rg_bind, rg_wp, wp_assert; [by destruct Hf as [f ->]|].
  apply rg_bind, rg_wp, wp_system_off_prologue; [done|apply ok_svc_system_reset_safe|]. intros s1 Hu.
  apply rg_system_hook; [by rewrite <- Hu..|done|by apply sf_system_reset, ok_safe|].
  intros; by apply rg_end_terminal.
Qed.

Lemma rg_system_reset2 r k me s :
  inv s → running me s → has_cap caps PSCI_SYSTEM_RESET2_AARCH64 = true →
  rgs me s (psci_system_reset2 r k me s) (λ s1 _ s', finished me s1 s').
Proof.
  intros Hi Hrun Hcap. destruct (cap_reset2 _ _ _ Hcaps Hcap) as [f Hf].
  unfold psci_system_reset2. apply rg_bind, rg_wp, wp_pm_ops; [apply (iv_ops _ _ _ _ _ Hi)|].
  apply rg_bind, rg_wp, wp_assert; [by rewrite Hf|]. cbv zeta.
  assert (Hwr : ∀ g, write_mem_protect ops = Some g → hook_safe (g 0)).
  { intros g Hg. exact (opt_safe_app _ (λ f, f 0) g (sf_write_mem _ (ok_safe _ Hops) 0) Hg). }
  apply rg_bind, rg_wp. eapply wp_quiet.
  { destruct (write_mem_protect ops) as [g|]; [specialize (Hwr g eq_refl)|]; auto 10 with quiet. }
  intros [rc|] s1 Hu.
  { apply rg_calm; [by rewrite <- Hu..|]. apply wp_ret, calm_refl. by rewrite <- Hu. }
  apply rg_bind, rg_wp, wp_system_off_prologue; [by rewrite <- Hu|apply ok_svc_system_reset_safe|]. intros s2 Hu2.
  assert (upto s s2) as Hu' by (by etrans).
  apply rg_system_hook; [by rewrite <- Hu'..|rewrite Hf; by eexists|by apply sf_system_reset2, ok_safe|].
  intros rc s3 s4 Hi4 Hg4 Hr4. destruct (negb _); [|by apply rg_end_terminal].
  apply rg_calm; [done..|]. by apply wp_ret, calm_refl.
Qed.

(** ** The dispatcher *)

Lemma rg_as_reg (m : PM Z) me s0 s :
  rgs me s0 (m me s) (λ s1 _ s', finished me s1 s') →
  rgs me s0 (as_reg m me s) (λ s1 _ s', finished me s1 s').
Proof. intros Hm. by apply rg_bind. Qed.

Lemma rg_calm' {A} (m : PM A) me s :
  running me s → wpt m me s (λ _ s', calm s s') →
  rgs me s (m me s) (λ s1 _ s', finished me s1 s').
Proof. apply rg_calm. reflexivity. Qed.

Lemma rg_features f me s :
  inv s → running me s → rgs me s (psci_features f me s) (λ s1 _ s', finished me s1 s').
Proof. intros. apply rg_calm'; [done|]. apply wp_bind, wp_gets. by apply wp_ret, calm_refl. Qed.

Lemma rg_ret (v : Z) me s :
  inv s → running me s → rgs me s (ret v me s) (λ s1 _ s', finished me s1 s').
Proof. intros. apply rg_calm'; [done|]. by apply wp_ret, calm_refl. Qed.
End Safe.

#[export] Hint Resolve rg_as_reg rg_calm' rg_features rg_ret rg_cpu_off rg_cpu_suspend wp_cpu_on
  wp_affinity_info wp_migrate wp_migrate_info_type wp_migrate_info_up_cpu wp_node_hw_state
  rg_system_suspend rg_system_off rg_system_reset rg_system_reset2 wp_mem_protect
  wp_mem_chk_range cap_off : psci_safe.

Section Dispatch.
Context `{cfg : Config} `{cok : !ConfigOk} {H : Type} `{plat : !Platform H} `{laws : !CoordinationLaws H}.
Context (T : topo) (ops : plat_psci_ops_t H) (spd : option (spd_pm_ops_t H)) (caps : Z).
Context (Hw : topo_wf T) (Hops : ops_ok ops) (Hspd : ∀ pm, spd = Some pm → spd_ok pm).
Context (Hplat : plat_ok (H:=H)) (Hcaps : caps_ok caps ops spd).
Context (Hstat : ENABLE_PSCI_STAT = false) (Hos : PSCI_OS_INIT_MODE = false).
Implicit Types (s : psci_state H).
Abbreviation inv := (inv T ops spd caps).
Abbreviation rgs me := (rg inv (guar T me) (stable me)).
Abbreviation finished := (finished T ops spd caps).

(** One branch of the dispatcher: in it the function identifier is known, so
    the capability bit that was checked is that function's. *)
Ltac branch fid Hcap :=
  lazymatch goal with
  | |- context [if fid =? ?k then _ else _] =>
      destruct (Z.eqb_spec fid k) as [->|];
      [eauto 6 with psci_safe|]
  end.

Lemma rg_handler_32 fid r1 r2 r3 me s :
  inv s → running me s → 0 ≤ me < tp_cores T → has_cap caps fid = true →
  rgs me s (psci_smc_handler_32 fid r1 r2 r3 me s) (λ s1 _ s', finished me s1 s').
Proof.
  intros Hi Hr Hc Hcap. unfold psci_smc_handler_32. rewrite Hstat, Hos, !andb_false_l.
  repeat branch fid Hcap. apply rg_ret; done.
Qed.

Lemma rg_handler_64 fid x1 x2 x3 me s :
  inv s → running me s → 0 ≤ me < tp_cores T → has_cap caps fid = true →
  rgs me s (psci_smc_handler_64 fid x1 x2 x3 me s) (λ s1 _ s', finished me s1 s').
Proof.
  intros Hi Hr Hc Hcap. unfold psci_smc_handler_64. rewrite Hstat, !andb_false_l.
  repeat branch fid Hcap. apply rg_ret; done.
Qed.

Lemma rg_smc_handler fid x1 x2 x3 flags me s :
  inv s → running me s → 0 ≤ me < tp_cores T →
  rgs me s (psci_smc_handler fid x1 x2 x3 flags me s) (λ s1 _ s', finished me s1 s').
Proof.
  intros Hi Hr Hc. unfold psci_smc_handler.
  destruct (negb (is_caller_non_secure flags)); [by apply rg_ret|].
  apply rg_bind, rg_wp, wp_gets. rewrite (iv_caps _ _ _ _ _ Hi).
  destruct (Z.land caps (define_psci_cap fid) =? 0) eqn:Hcap; [by apply rg_ret|].
  assert (has_cap caps fid = true) by (unfold has_cap; by rewrite Hcap).
  destruct (GET_SMC_CC fid =? SMC_32); [by apply rg_handler_32|by apply rg_handler_64].
Qed.
End Dispatch.
