(* ===== verification/PsciWarm.v ===== *)
(** * Warm boot

    The path a CPU takes when it comes back from being off: whether it was
    turned on or wakes from a power-down suspend, it ends up running, with all
    its power domains running. *)

From stdpp Require Import base sets list numbers list_numbers.
From Stdlib Require Import ZArith Lia.
From S2P Require Import Prelude PsciTypes PsciCommon PsciStat PsciPower PsciSetup PsciMain.
From S2P Require Import PsciTopo PsciCoord PsciInv PsciSafe.
Open Scope Z_scope.
Open Scope mon_scope.

Section Warmboot.
Context `{cfg : Config} `{cok : !ConfigOk} {H : Type} `{plat : !Platform H} `{laws : !CoordinationLaws H}.
Context (T : topo) (ops : plat_psci_ops_t H) (spd : option (spd_pm_ops_t H)) (caps : Z).
Context (Hw : topo_wf T) (Hstat : ENABLE_PSCI_STAT = false).
Implicit Types (s : psci_state H) (d : psci_cpu_data_t).
Abbreviation inv := (inv T ops spd caps).
Abbreviation invl := (invl T ops spd caps).
Abbreviation guar := (guar T).
Abbreviation finished := (finished T ops spd caps).

(** The hooks on the way up of a CPU in affinity state [a] return, or any end
    is admitted. *)
Record warm_live (E : psci_state H → Prop) (a : aff_info_state_t) : Prop := {
  wl_on_finish st : a = AFF_STATE_ON_PENDING → ps_dims st → is_local_state_off (pds st 0) = true →
    opt_live E ((λ f, f st) <$> pwr_domain_on_finish ops);
  wl_on_finish_late st : a = AFF_STATE_ON_PENDING → ps_dims st →
    opt_live E ((λ f, f st) <$> pwr_domain_on_finish_late ops);
  wl_suspend_finish st : a = AFF_STATE_ON → ps_dims st → is_local_state_off (pds st 0) = true →
    opt_live E ((λ f, f st) <$> pwr_domain_suspend_finish ops);
  wl_svc_on_finish pm : a = AFF_STATE_ON_PENDING → spd = Some pm → opt_live E (svc_on_finish pm);
  wl_svc_suspend_finish pm m : a = AFF_STATE_ON → spd = Some pm →
    opt_live E ((λ f, f m false) <$> svc_suspend_finish pm);
}.

Lemma warm_live_any a :
  ops_ok ops → (∀ pm, spd = Some pm → spd_ok pm) → warm_live (λ _, True) a.
Proof.
  intros Hops Hspd. split; intros; apply opt_live_any; eauto with quiet.
  - by apply ok_svc_on_finish_safe, Hspd.
  - by apply ok_svc_suspend_finish_safe, Hspd.
Qed.

Lemma wp_on_finish {E} st n d me s (Q : unit → psci_state H → Prop) :
  warm_live E AFF_STATE_ON_PENDING → ps_dims st → is_local_state_off (pds st 0) = true → psci_spd_pm s = spd →
  psci_plat_pm_ops s = Some ops → is_Some (pwr_domain_on_finish ops) →
  zget (psci_cpu_pd_nodes s) me = Some n → cpu_lock n = false →
  zget (psci_svc_cpu_data s) me = Some d → aff_info_state d = AFF_STATE_ON_PENDING →
  (∀ m s', upto (set_psci_cpu_pd_nodes (zset (psci_cpu_pd_nodes s) me (with_mpidr m n)) s) s' → Q tt s') →
  wp E (psci_cpu_on_finish me st) me s Q.
Proof.
  intros Hlive Hst Hst0 Hsp Ho [f Hf] Hn Hl Hd Ha HQ. unfold psci_cpu_on_finish.
  pose proof (zget_Some_range _ _ _ Hn) as Hr.
  apply wp_bind, (wp_pm_ops ops); [done|].
  apply wp_bind. eapply wp_quiet; [rewrite Hf; apply quiet_call_plat|].
  { exact (opt_live_app _ _ (λ f, f st) f (wl_on_finish _ _ Hlive st eq_refl Hst Hst0) Hf). }
  intros _ s1 (h1 & t1 & ->).
  apply wp_bind. eapply wp_quiet; [auto with quiet|]. intros _ s2 (h2 & t2 & ->).
  apply wp_bind. eapply wp_quiet; [by apply quiet_opt_plat, (wl_on_finish_late _ _ Hlive)|]. intros _ s3 (h3 & t3 & ->).
  apply wp_bind. eapply wp_quiet; [auto 10 with quiet|]. intros _ s4 (h4 & t4 & ->).
  apply wp_bind. eapply wp_quiet; [auto with quiet|]. intros _ s5 (h5 & t5 & ->).
  apply wp_bind. eapply wp_spin_lock; [done..|]. intros s6 (h6 & t6 & ->).
  apply wp_bind. eapply wp_spin_unlock; [ssimpl; by apply zget_zset_eq|]. intros s7 (h7 & t7 & ->).
  apply wp_bind, wp_bind, wp_my_core_pos, wp_bind. eapply wp_get_cpu_data; [done|]. apply wp_ret.
  apply wp_bind, wp_assert; [by rewrite Ha, bool_decide_true|].
  apply wp_bind. eapply wp_notify_spd; [exact Hsp|intros; by eapply (wl_svc_on_finish _ _ Hlive)|]. intros s8 (h8 & t8 & ->).
  apply wp_bind. eapply wp_quiet; [auto with quiet|]. intros _ s9 (h9 & t9 & ->).
  apply wp_bind, wp_my_core_pos, wp_bind, wp_gets. ssimpl. rewrite relock by done.
  eapply wp_upd_cpu_node; [exact Hn|]. eapply HQ. exists h9, t9. reflexivity.
Qed.

(** Recording the MPIDR of a CPU. *)
Lemma invl_mpidr s c n m :
  invl s → zget (psci_cpu_pd_nodes s) c = Some n →
  invl (set_psci_cpu_pd_nodes (zset (psci_cpu_pd_nodes s) c (with_mpidr m n)) s).
Proof.
  intros Hi Hn. pose proof (zget_Some_range _ _ _ Hn) as Hr.
  pose proof (iv_topo _ _ _ _ _ Hi) as HT. pose proof (iv_cpu_locks _ _ _ _ _ Hi) as Hlocks.
  unfold PsciSafe.invl in *. destruct Hi. constructor; try done.
  - rewrite <- HT. unfold topo_of. ssimpl. f_equal. by eapply fmap_zset_same.
  - intros c' n'. ssimpl. rewrite zget_zset by done. case_decide; [|by apply Hlocks].
    intros [= <-]. exact (Hlocks c n Hn).
Qed.

Lemma set_data_same s c d :
  zget (psci_svc_cpu_data s) c = Some d →
  set_psci_svc_cpu_data (zset (psci_svc_cpu_data s) c d) s = s.
Proof. intros Hd. rewrite zset_same by done. by destruct s. Qed.

Lemma find_down_first n P : (0 < n)%nat → P 0 = true → ∃ i, find_down n P = Some i.
Proof.
  intros Hn HP. induction n as [|n IH]; [lia|]. cbn [find_down].
  destruct (P (Z.of_nat n)) eqn:Hk; [eauto|]. destruct n; [|apply IH; lia].
  change (Z.of_nat 0) with 0 in Hk. by rewrite HP in Hk.
Qed.

(** What the finisher leaves for psci_set_pwr_domains_to_run(). *)
Lemma wp_warm_finisher {E} st me d s (Q : unit → psci_state H → Prop) :
  warm_live E (aff_info_state d) → invl s → 0 ≤ me < tp_cores T → zget (psci_svc_cpu_data s) me = Some d →
  aff_info_state d ≠ AFF_STATE_OFF → is_local_state_off (local_state d) = true → ps_dims st →
  pds st 0 = local_state d →
  (∀ N d' s', topo_of (set_psci_cpu_pd_nodes N s) = T → invl (set_psci_cpu_pd_nodes N s) →
     target_pwrlvl d' = PLAT_MAX_PWR_LVL →
     upto (set_psci_svc_cpu_data (zset (psci_svc_cpu_data s) me d') (set_psci_cpu_pd_nodes N s)) s' →
     Q tt s') →
  wp E (if bool_decide (aff_info_state d = AFF_STATE_ON_PENDING) then psci_cpu_on_finish me st
       else
         c_assert (negb (psci_find_max_off_lvl st =? PSCI_INVALID_PWR_LVL));;
         psci_cpu_suspend_to_powerdown_finish me (psci_find_max_off_lvl st) st false) me s Q.
Proof.
  intros Hlive Hi Hc Hd Hne Hoff Hst Hp0 HQ. pose proof (tw_cores _ Hw).
  pose proof (iv_cpu _ _ _ _ _ Hi me d Hc Hd) as Hcpu. ssimpl.
  pose proof (iv_topo _ _ _ _ _ Hi) as HT. change (topo_of s = T) in HT.
  case_bool_decide as Ha.
  - destruct (topo_cpu_node_lt s me) as (n & Hn & _); [by rewrite HT|lia|].
    eapply wp_on_finish; [by rewrite <- Ha|done|by rewrite Hp0|by apply (iv_spd _ _ _ _ _ Hi)|by apply (iv_ops _ _ _ _ _ Hi)|by eapply ci_pending|done| |done|done|].
    { by apply (iv_cpu_locks _ _ _ _ _ Hi me). }
    intros m s' Hu. eapply (HQ _ d); [| |eapply ci_down; [done|congruence]|].
    + by apply (iv_topo _ _ _ _ _ (invl_mpidr s me n m Hi Hn)).
    + by apply invl_mpidr.
    + by rewrite (set_data_same (set_psci_cpu_pd_nodes _ s)).
  - assert (aff_info_state d = AFF_STATE_ON) as Hon by (by destruct (aff_info_state d)).
    apply wp_bind, wp_assert.
    { unfold psci_find_max_off_lvl, PSCI_INVALID_PWR_LVL. apply negb_true_iff, Z.eqb_neq.
      pose proof max_pwr_lvl_ok.
      enough (∃ i, find_down (Z.to_nat (PLAT_MAX_PWR_LVL + 1)) (λ i, is_local_state_off (pds st i)) = Some i) as [i Hi'].
      { rewrite Hi'. apply find_down_range in Hi'. simpl. lia. }
      apply find_down_first; [lia|]. by rewrite Hp0. }
    destruct (ci_suspended _ _ _ _ Hcpu Hon Hoff) as [f Hf].
    eapply wp_powerdown_finish; [by apply (iv_ops _ _ _ _ _ Hi)|exact Hf| | |done|done|by rewrite Hp0|].
    { refine (opt_live_app _ _ (λ f, f st) f (wl_suspend_finish _ _ Hlive st Hon Hst _) Hf). by rewrite Hp0. }
    { intros pm Hs. eapply wl_svc_suspend_finish; [done|done|]. rewrite <- Hs. symmetry. apply (iv_spd _ _ _ _ _ Hi). }
    intros s' Hu. eapply (HQ (psci_cpu_pd_nodes s)); [..|exact Hu]; by destruct s.
Qed.

Lemma wp_warmboot {E} me d s :
  warm_live E (aff_info_state d) → (aff_info_state d = AFF_STATE_OFF → ∀ s, E s) → inv s → 0 ≤ me < tp_cores T → zget (psci_svc_cpu_data s) me = Some d →
  is_local_state_off (local_state d) = true →
  wp E (psci_warmboot_entrypoint me) me s (λ _ s', finished me s s').
Proof.
  intros Hlive Hpanic Hi Hc Hd Hoff. unfold psci_warmboot_entrypoint. rewrite Hstat.
  pose proof (iv_topo _ _ _ _ _ Hi) as HT. pose proof (tw_cores _ Hw).
  pose proof (iv_cpu _ _ _ _ _ Hi me d Hc Hd) as Hcpu. pose proof (ci_target _ _ _ _ Hcpu) as Htgt.
  apply wp_bind, wp_bind, wp_my_core_pos, wp_bind. eapply wp_get_cpu_data; [done|]. apply wp_ret.
  case_bool_decide as Hnoff; [by apply wp_panic, Hpanic|].
  apply wp_bind, wp_bind, wp_bind, wp_my_core_pos, wp_bind. eapply wp_get_cpu_data; [done|]. apply wp_ret.
  apply wp_bind, wp_assert; [unfold PSCI_INVALID_PWR_LVL; lia|]. apply wp_ret.
  set (l := target_pwrlvl d) in *.
  apply wp_bind, wp_get_parents; rewrite ?HT; try done.
  apply wp_bind. eapply wp_acquire_inv; [done..|]. intros s1 Hlk.
  assert (Hi1 : invl s1) by (eapply locked_invl; [by apply inv_invl|done]).
  pose proof Hlk as (h1 & t1 & ->).
  apply wp_bind. eapply wp_get_target; [|..|exact Hd|].
  { change (topo_wf (topo_of s)). by rewrite HT. }
  { change (0 ≤ me < tp_cores (topo_of s)). by rewrite HT. }
  { done. }
  { apply power_state_run_dims. }
  intros s2 st (h2 & t2 & ->) Hst Hp0 _ _.
  apply wp_bind, wp_ret.
  apply wp_bind, wp_bind, wp_my_core_pos, wp_bind. eapply wp_get_cpu_data; [done|]. apply wp_ret.
  apply wp_bind. eapply (wp_warm_finisher _ _ d); [done|by apply invl_hw|done..|].
  intros N d' s3 HN HiN Hd' (h3 & t3 & ->).
  apply wp_bind, wp_my_core_pos, wp_bind, wp_gets.
  destruct (zget_is_Some (warmboot_ep_info s) me) as [ep Hep]; [rewrite (iv_eps _ _ _ _ _ Hi); lia|].
  apply wp_bind. eapply wp_some; [exact Hep|].
  apply wp_bind, wp_emit. intros s4 (h4 & t4 & ->).
  apply wp_bind, wp_emit. intros s5 (h5 & t5 & ->).
  apply wp_bind. eapply (wp_to_run T ops spd caps Hw l d' me); [exact HiN|done|done|by exists h5, t5|done|].
  intros s6 (h6 & t6 & ->). apply wp_bind, wp_ret.
  assert (HiN' : inv (set_psci_cpu_pd_nodes N s)).
  { unfold PsciSafe.invl in HiN.
    eapply (inv_proper T ops spd caps); [|exact HiN]. exists h2, t2.
    unfold free_locks. by rewrite <- (iv_locks _ _ _ _ _ Hi). }
  destruct (inv_up T ops spd caps Hw (set_psci_cpu_pd_nodes N s) me l) as (Hinv & Hguar & Hrun); [done..| |].
  { intros k Hk. by apply (ci_above _ _ _ _ Hcpu). }
  eapply (wp_release_inv T Hw _ _ (upped T me l (set_psci_cpu_pd_nodes N s))); [by exists h6, t6| | |done|done|].
  { exact (iv_topo _ _ _ _ _ Hinv). }
  { apply (iv_locks _ _ _ _ _ Hi). }
  intros s7 Hu7. unfold PsciSafe.finished. rewrite <- Hu7. split_and!; [done| |done]. exact Hguar.
Qed.
End Warmboot.
