(* ===== verification/PsciTree.v ===== *)
(** * Construction of the power domain tree

    populate_power_domain_tree() turns the platform's breadth-first list of
    child counts into the node arrays, and psci_update_pwrlvl_limits() records
    which CPUs each node contains.  For every well-formed description the
    result is a well-formed tree. *)

From stdpp Require Import base sets list numbers list_numbers.
From Stdlib Require Import ZArith Lia.
From S2P Require Import Prelude PsciTypes PsciCommon PsciStat PsciPower PsciSetup PsciTopo.
From S2P Require Import PsciCoord.
Open Scope Z_scope.
Open Scope mon_scope.

(** ** Well-formed descriptions *)

Section Desc.
Context `{cfg : Config}.

(** The sum of the entries [e .. e + n), [None] outside the array or for a
    negative entry. *)
Fixpoint desc_sum (n : nat) (desc : list Z) (e : Z) : option Z :=
  match n with
  | O => Some 0
  | S n' =>
      match zget desc e, desc_sum n' desc (e + 1) with
      | Some v, Some t => if 0 <=? v then Some (v + t) else None
      | _, _ => None
      end
  end.

(** The levels [n - 1] down to 0, of which the first has [num] parent entries
    from index [e] on, with [nodes] non-CPU nodes allocated before: every
    entry exists, and the nodes and CPUs fit their arrays. *)
Fixpoint desc_levels_wf (n : nat) (desc : list Z) (e : Z) (num : nat) (nodes : Z) : bool :=
  match n with
  | O => true
  | S n' =>
      match desc_sum num desc e with
      | Some total =>
          match n' with
          | O => (0 <? total) && (total <=? PLATFORM_CORE_COUNT)
          | S _ => (nodes + total <=? PSCI_NUM_NON_CPU_PWR_DOMAINS) && (nodes + total <=? 65536)
          end && desc_levels_wf n' desc (e + Z.of_nat num) (Z.to_nat total) (nodes + total)
      | None => false
      end
  end.

Definition desc_wf (desc : list Z) : bool :=
  desc_levels_wf (Z.to_nat (PLAT_MAX_PWR_LVL + 1)) desc 0 1 0.

(** The number of CPUs described. *)
Fixpoint desc_cores (n : nat) (desc : list Z) (e : Z) (num : nat) : Z :=
  match n with
  | O => Z.of_nat num
  | S n' => desc_cores n' desc (e + Z.of_nat num) (Z.to_nat (default 0 (desc_sum num desc e)))
  end.

Definition desc_ncpus (desc : list Z) : Z :=
  desc_cores (Z.to_nat (PLAT_MAX_PWR_LVL + 1)) desc 0 1.

Lemma desc_sum_nonneg n desc e t : desc_sum n desc e = Some t → 0 ≤ t.
Proof.
  revert e t. induction n as [|n IH]; intros e t; cbn [desc_sum]; [intros [= <-]; lia|].
  destruct (zget desc e) as [v|]; [|done].
  destruct (desc_sum n desc (e + 1)) as [t'|] eqn:Ht; [|done].
  destruct (Z.leb_spec 0 v); [|done]. intros [= <-]. specialize (IH _ _ Ht). lia.
Qed.

(** The tree described: the parents of the children that the [num] entries
    from [e] on describe, in order (the entry after the root's belongs to node
    0, and the roots have no parent: the index wraps), and from them the
    parent and level of every non-CPU node and the parent of every CPU, level
    by level from the top. *)
Fixpoint bfs_parents (num : nat) (desc : list Z) (e : Z) : list Z :=
  match num with
  | O => []
  | S n => replicate (Z.to_nat (default 0 (zget desc e))) (u32 (e - 1)) ++ bfs_parents n desc (e + 1)
  end.

Fixpoint tree_levels (n : nat) (desc : list Z) (e : Z) (num : nat) : list (Z * Z) * list Z :=
  match n with
  | O => ([], [])
  | S n' =>
      let parents := bfs_parents num desc e in
      match n' with
      | O => ([], parents)
      | S _ =>
          let below := tree_levels n' desc (e + Z.of_nat num) (length parents) in
          (((λ p, (p, Z.of_nat n')) <$> parents) ++ below.1, below.2)
      end
  end.

Definition described_tree (desc : list Z) : list (Z * Z) * list Z :=
  tree_levels (Z.to_nat (PLAT_MAX_PWR_LVL + 1)) desc 0 1.

(** The node arrays hold that tree, in its order. *)
Definition tree_as_described (desc : list Z) (T : topo) : Prop :=
  take (length (described_tree desc).1) ((λ t, (tn_parent t, tn_level t)) <$> tp_nodes T) =
    (described_tree desc).1 ∧
  take (Z.to_nat (tp_cores T)) (tp_parents T) = (described_tree desc).2.

Lemma bfs_parents_snoc n desc e :
  bfs_parents (S n) desc e = bfs_parents n desc e ++
    replicate (Z.to_nat (default 0 (zget desc (e + Z.of_nat n)))) (u32 (e + Z.of_nat n - 1)).
Proof.
  revert e. induction n as [|n IH]; intros e.
  - cbn [bfs_parents]. by rewrite app_nil_r, Z.add_0_r.
  - change (bfs_parents (S (S n)) desc e) with
      (replicate (Z.to_nat (default 0 (zget desc e))) (u32 (e - 1)) ++ bfs_parents (S n) desc (e + 1)).
    rewrite IH. cbn [bfs_parents]. rewrite <- app_assoc.
    by replace (e + 1 + Z.of_nat n) with (e + Z.of_nat (S n)) by lia.
Qed.

Lemma bfs_parents_length n desc e t : desc_sum n desc e = Some t → length (bfs_parents n desc e) = Z.to_nat t.
Proof.
  revert e t. induction n as [|n IH]; intros e t; cbn [desc_sum bfs_parents]; [by intros [= <-]|].
  destruct (zget desc e) as [v|]; [|done]. destruct (desc_sum n desc (e + 1)) as [t'|] eqn:Ht; [|done].
  destruct (Z.leb_spec 0 v); [|done]. intros [= <-]. rewrite length_app, length_replicate, (IH _ _ Ht).
  pose proof (desc_sum_nonneg _ _ _ _ Ht). cbn [default from_option id]. lia.
Qed.

(** The parents and levels of the first [N] nodes, and the parents of the
    first [C] CPUs. *)
Definition shape_upto (nodes : list non_cpu_pd_node_t) (N : Z) : list (Z * Z) :=
  take (Z.to_nat N) ((λ nd, (parent_node nd, level nd)) <$> nodes).
Definition cpus_upto (cpus : list cpu_pd_node_t) (C : Z) : list Z :=
  take (Z.to_nat C) (cpu_parent_node <$> cpus).

Lemma take_zset {A B} (f : A → B) l i x :
  0 ≤ i < zlen l → take (Z.to_nat (i + 1)) (f <$> zset l i x) = take (Z.to_nat i) (f <$> l) ++ [f x].
Proof.
  intros Hi. unfold zset, zlen in *. rewrite list_fmap_insert.
  replace (Z.to_nat (i + 1)) with (S (Z.to_nat i)) by lia.
  rewrite (take_S_r _ _ (f x)); [by rewrite take_insert_ge by lia|].
  apply list_lookup_insert_eq. rewrite length_fmap. lia.
Qed.

(** ** Nodes under construction *)

(** The first [N] non-CPU nodes are initialised; parents precede their
    children, are one level up, and appear in the same order. *)
Record nodes_built (nodes : list non_cpu_pd_node_t) (N : Z) : Prop := {
  nb_len : zlen nodes = PSCI_NUM_NON_CPU_PWR_DOMAINS;
  nb_N : 0 ≤ N ≤ PSCI_NUM_NON_CPU_PWR_DOMAINS;
  nb_fresh i nd : zget nodes i = Some nd → cpu_start_idx nd = 0 ∧ ncpus nd = 0;
  nb_node i nd : i < N → zget nodes i = Some nd →
    lock_index nd = i ∧ 1 ≤ level nd ≤ PLAT_MAX_PWR_LVL ∧ nc_local_state nd = PLAT_MAX_OFF_STATE;
  nb_parent i nd : i < N → zget nodes i = Some nd → level nd < PLAT_MAX_PWR_LVL →
    ∃ pn, zget nodes (parent_node nd) = Some pn ∧ parent_node nd < i ∧ level pn = level nd + 1;
  nb_mono i j ni nj : i ≤ j < N → zget nodes i = Some ni → zget nodes j = Some nj →
    level ni = level nj → level ni < PLAT_MAX_PWR_LVL → parent_node ni ≤ parent_node nj;
}.

(** A parent for a new node of level [lvl]: an initialised node one level up,
    or anything for a root. *)
Definition parent_ok (nodes : list non_cpu_pd_node_t) (N lvl p : Z) : Prop :=
  lvl < PLAT_MAX_PWR_LVL → p < N ∧ ∃ pn, zget nodes p = Some pn ∧ level pn = lvl + 1.

(** The nodes of level [lvl] so far have parents up to [p]. *)
Definition parents_upto (nodes : list non_cpu_pd_node_t) (N lvl p : Z) : Prop :=
  ∀ i nd, i < N → zget nodes i = Some nd →
    lvl ≤ level nd ∧ (level nd = lvl → lvl < PLAT_MAX_PWR_LVL → parent_node nd ≤ p).

Definition new_node (lvl p i : Z) : non_cpu_pd_node_t :=
  NonCpuNode 0 0 p PLAT_MAX_OFF_STATE lvl i.

Lemma nodes_built_add nodes N lvl p :
  nodes_built nodes N → N < PSCI_NUM_NON_CPU_PWR_DOMAINS → 1 ≤ lvl ≤ PLAT_MAX_PWR_LVL →
  parent_ok nodes N lvl p → parents_upto nodes N lvl p →
  nodes_built (zset nodes N (new_node lvl p N)) (N + 1) ∧
  parents_upto (zset nodes N (new_node lvl p N)) (N + 1) lvl p.
Proof.
  intros Hb HN Hl Hp Hup. pose proof (nb_len _ _ Hb). pose proof (nb_N _ _ Hb).
  assert (Hget : ∀ i, zget (zset nodes N (new_node lvl p N)) i =
                      if decide (N = i) then Some (new_node lvl p N) else zget nodes i).
  { intros i. apply zget_zset. lia. }
  split; [split|].
  - by rewrite zlen_zset.
  - lia.
  - intros i nd. rewrite Hget. case_decide; [by intros [= <-]|apply Hb].
  - intros i nd Hi. rewrite Hget. case_decide as Hd; [intros [= <-]; by subst|].
    apply (nb_node _ _ Hb). lia.
  - intros i nd Hi. rewrite Hget. case_decide as Hd.
    + intros [= <-] Hlt. destruct Hp as (HpN & pn & Hpn & Hlv); [done|].
      exists pn. rewrite Hget, decide_False by (simpl; lia). simpl. split_and!; [done|lia|done].
    + intros Hi' Hlt. destruct (nb_parent _ _ Hb i nd) as (pn & Hpn & Hlt' & Hlv); [lia|done..|].
      exists pn. rewrite Hget, decide_False by lia. done.
  - intros i j ni nj Hij. rewrite !Hget. repeat case_decide; intros; simplify_eq; simpl in *; try lia.
    + destruct (Hup i ni) as [_ Hle]; [lia|done|]. apply Hle; lia.
    + eapply (nb_mono _ _ Hb i j); (done || lia).
  - intros i nd Hi. rewrite Hget. case_decide; [intros [= <-]; simpl; lia|]. apply Hup. lia.
Qed.

(** The first [C] CPU nodes are initialised. *)
Record cpus_built (nodes : list non_cpu_pd_node_t) (N : Z) (cpus cpus0 : list cpu_pd_node_t)
    (data data0 : list psci_cpu_data_t) (C : Z) : Prop := {
  cb_len : zlen cpus = PLATFORM_CORE_COUNT;
  cb_dlen : zlen data = PLATFORM_CORE_COUNT;
  cb_C : 0 ≤ C ≤ PLATFORM_CORE_COUNT;
  cb_lock c n : zget cpus c = Some n → ∃ n0, zget cpus0 c = Some n0 ∧ cpu_lock n = cpu_lock n0;
  cb_parent c n : c < C → zget cpus c = Some n → parent_ok nodes N 0 (cpu_parent_node n);
  cb_data c d : c < C → zget data c = Some d →
    d = CpuData AFF_STATE_OFF PLAT_MAX_PWR_LVL PLAT_MAX_OFF_STATE;
  cb_rest c d : C ≤ c → zget data c = Some d → zget data0 c = Some d;
  cb_mono c c' n n' : c ≤ c' < C → zget cpus c = Some n → zget cpus c' = Some n' →
    0 < PLAT_MAX_PWR_LVL → cpu_parent_node n ≤ cpu_parent_node n';
}.

Lemma cpus_built_add nodes N cpus cpus0 data data0 C p n :
  cpus_built nodes N cpus cpus0 data data0 C → C < PLATFORM_CORE_COUNT →
  parent_ok nodes N 0 p → zget cpus C = Some n →
  (∀ c n, c < C → zget cpus c = Some n → 0 < PLAT_MAX_PWR_LVL → cpu_parent_node n ≤ p) →
  let cpus' := zset cpus C (CpuNode PSCI_INVALID_MPIDR p (cpu_lock n)) in
  let data' := zset data C (CpuData AFF_STATE_OFF PLAT_MAX_PWR_LVL PLAT_MAX_OFF_STATE) in
  cpus_built nodes N cpus' cpus0 data' data0 (C + 1) ∧
  (∀ c n, c < C + 1 → zget cpus' c = Some n → 0 < PLAT_MAX_PWR_LVL → cpu_parent_node n ≤ p).
Proof.
  intros Hb HC Hp Hn Hup cpus' data'. pose proof (cb_len _ _ _ _ _ _ _ Hb).
  pose proof (cb_dlen _ _ _ _ _ _ _ Hb). pose proof (cb_C _ _ _ _ _ _ _ Hb).
  assert (Hget : ∀ i, zget cpus' i = if decide (C = i) then Some (CpuNode PSCI_INVALID_MPIDR p (cpu_lock n)) else zget cpus i).
  { intros i. apply zget_zset. lia. }
  assert (Hgetd : ∀ i, zget data' i = if decide (C = i) then Some (CpuData AFF_STATE_OFF PLAT_MAX_PWR_LVL PLAT_MAX_OFF_STATE) else zget data i).
  { intros i. apply zget_zset. lia. }
  split; [split|].
  - unfold cpus'. by rewrite zlen_zset.
  - unfold data'. by rewrite zlen_zset.
  - lia.
  - intros c n'. rewrite Hget. case_decide; [|apply Hb]. subst c. intros [= <-]. simpl.
    by apply (cb_lock _ _ _ _ _ _ _ Hb).
  - intros c n' Hc. rewrite Hget. case_decide; [by intros [= <-]|].
    apply (cb_parent _ _ _ _ _ _ _ Hb). lia.
  - intros c d Hc. rewrite Hgetd. case_decide; [by intros [= <-]|].
    apply (cb_data _ _ _ _ _ _ _ Hb). lia.
  - intros c d Hc. rewrite Hgetd, decide_False by lia. apply (cb_rest _ _ _ _ _ _ _ Hb). lia.
  - intros c c' n1 n2 Hcc. rewrite !Hget. repeat case_decide; intros; simplify_eq; simpl in *; try lia.
    + apply (Hup c); (done || lia).
    + eapply (cb_mono _ _ _ _ _ _ _ Hb c c'); (done || lia).
  - intros c n1 Hc. rewrite Hget. case_decide; [by intros [= <-]|]. intros. apply (Hup c); (done || lia).
Qed.
End Desc.

Section Populate.
Context `{cfg : Config} `{cok : !ConfigOk} {H : Type} `{plat : !Platform H}.
Context (s0 : psci_state H) (desc : list Z).
Implicit Types (E : psci_state H → Prop) (s : psci_state H).

(** [s] is [s0] with other nodes and CPU data. *)
Definition shaped nodes cpus data s : Prop :=
  upto (set_psci_non_cpu_pd_nodes nodes (set_psci_cpu_pd_nodes cpus
          (set_psci_svc_cpu_data data s0))) s.

Lemma u16_small x : 0 ≤ x < 65536 → u16 x = x.
Proof. apply Z.mod_small. Qed.

(** The children of one parent at a level above the CPUs. *)
Lemma wp_children E nodes cpus data N m lvl p me s (Q : unit → psci_state H → Prop) :
  shaped nodes cpus data s → nodes_built nodes N → 0 ≤ m →
  N + m ≤ PSCI_NUM_NON_CPU_PWR_DOMAINS → N + m ≤ 65536 → 1 ≤ lvl ≤ PLAT_MAX_PWR_LVL →
  parent_ok nodes N lvl p → parents_upto nodes N lvl p →
  (∀ nodes' s', shaped nodes' cpus data s' → nodes_built nodes' (N + m) →
     parents_upto nodes' (N + m) lvl p → (∀ i, i < N → zget nodes' i = zget nodes i) →
     (∀ i nd, N ≤ i < N + m → zget nodes' i = Some nd → level nd = lvl) →
     shape_upto nodes' (N + m) = shape_upto nodes N ++ replicate (Z.to_nat m) (p, lvl) → Q tt s') →
  wp E (for_to N (N + m - 1) (λ j _, psci_init_pwr_domain_node (u16 j) p lvl) tt) me s Q.
Proof.
  intros Hs Hb Hm HN H16 Hl Hp Hup HQ. pose proof (nb_N _ _ Hb) as HNr.
  eapply (wp_for_to _ (λ j _ s', ∃ nodes', shaped nodes' cpus data s' ∧ nodes_built nodes' j ∧
     parents_upto nodes' j lvl p ∧ (∀ i, i < N → zget nodes' i = zget nodes i) ∧
     (∀ i nd, N ≤ i < j → zget nodes' i = Some nd → level nd = lvl) ∧
     shape_upto nodes' j = shape_upto nodes N ++ replicate (Z.to_nat (j - N)) (p, lvl))).
  - exists nodes. split_and!; [done..|lia|]. by rewrite Z.sub_diag, app_nil_r.
  - intros j [] s' Hj (nodes' & (h & t & ->) & Hb' & Hup' & Hold & Hnew & Hsh).
    unfold psci_init_pwr_domain_node, PSCI_CPU_PWR_LVL.
    rewrite u16_small by lia. replace (0 <? lvl) with true by lia.
    apply wp_bind, wp_assert; [lia|].
    destruct (zget_is_Some nodes' j) as [nd Hnd]; [rewrite (nb_len _ _ Hb'); lia|].
    eapply wp_upd_non_cpu_node; [exact Hnd|].
    destruct (nb_fresh _ _ Hb' j nd Hnd) as [-> ->].
    destruct (nodes_built_add nodes' j lvl p) as [Hb2 Hup2]; [done|lia|done| |done|].
    { intros Hlt. destruct (Hp Hlt) as (HpN & pn & Hpn & Hlv). split; [lia|].
      exists pn. by rewrite Hold. }
    exists (zset nodes' j (new_node lvl p j)). split_and!; [by exists h, t|done|done| | |].
    + intros i Hi. rewrite zget_zset_ne by lia. by apply Hold.
    + intros i nd' Hi. rewrite zget_zset by (rewrite (nb_len _ _ Hb'); lia).
      case_decide; [by intros [= <-]|]. apply Hnew. lia.
    + unfold shape_upto in *. rewrite take_zset, Hsh by (rewrite (nb_len _ _ Hb'); lia).
      replace (Z.to_nat (j + 1 - N)) with (S (Z.to_nat (j - N))) by lia.
      by rewrite <- app_assoc, replicate_S_end.
  - intros [] s' (nodes' & Hs' & Hb' & Hup' & Hold & Hnew & Hsh).
    replace (Z.max N (N + m - 1 + 1)) with (N + m) in * by lia.
    replace (N + m - N) with m in Hsh by lia. eauto.
Qed.

(** The CPUs of one parent. *)
Lemma wp_children_cpu E nodes N cpus cpus0 data data0 C m p me s (Q : unit → psci_state H → Prop) :
  shaped nodes cpus data s → cpus_built nodes N cpus cpus0 data data0 C → 0 ≤ m →
  C + m ≤ PLATFORM_CORE_COUNT → parent_ok nodes N 0 p →
  (∀ c n, c < C → zget cpus c = Some n → 0 < PLAT_MAX_PWR_LVL → cpu_parent_node n ≤ p) →
  (∀ cpus' data' s', shaped nodes cpus' data' s' →
     cpus_built nodes N cpus' cpus0 data' data0 (C + m) →
     (∀ c n, c < C + m → zget cpus' c = Some n → 0 < PLAT_MAX_PWR_LVL → cpu_parent_node n ≤ p) →
     cpus_upto cpus' (C + m) = cpus_upto cpus C ++ replicate (Z.to_nat m) p →
     Q tt s') →
  wp E (for_to C (C + m - 1) (λ j _, psci_init_pwr_domain_node (u16 j) p 0) tt) me s Q.
Proof.
  intros Hs Hb Hm HC Hp Hup HQ. pose proof (cb_C _ _ _ _ _ _ _ Hb) as HCr. pose proof core_count_ok.
  eapply (wp_for_to _ (λ j _ s', ∃ cpus' data', shaped nodes cpus' data' s' ∧
     cpus_built nodes N cpus' cpus0 data' data0 j ∧
     (∀ c n, c < j → zget cpus' c = Some n → 0 < PLAT_MAX_PWR_LVL → cpu_parent_node n ≤ p) ∧
     cpus_upto cpus' j = cpus_upto cpus C ++ replicate (Z.to_nat (j - C)) p)).
  - exists cpus, data. split_and!; [done..|]. by rewrite Z.sub_diag, app_nil_r.
  - intros j [] s' Hj (cpus' & data' & (h & t & ->) & Hb' & Hup' & Hsh).
    unfold psci_init_pwr_domain_node, PSCI_CPU_PWR_LVL.
    rewrite u16_small by lia. simpl (0 <? 0). cbv iota.
    apply wp_bind, wp_assert; [lia|].
    destruct (zget_is_Some cpus' j) as [n Hn]; [rewrite (cb_len _ _ _ _ _ _ _ Hb'); lia|].
    destruct (zget_is_Some data' j) as [d Hd]; [rewrite (cb_dlen _ _ _ _ _ _ _ Hb'); lia|].
    apply wp_bind. eapply wp_upd_cpu_node; [exact Hn|].
    apply wp_bind. eapply wp_upd_cpu_data; [exact Hd|].
    destruct (cpus_built_add nodes N cpus' cpus0 data' data0 j p n Hb') as [Hb2 Hup2];
      [lia|done..|].
    assert (Hsh2 : cpus_upto (zset cpus' j (CpuNode PSCI_INVALID_MPIDR p (cpu_lock n))) (j + 1) =
      cpus_upto cpus C ++ replicate (Z.to_nat (j + 1 - C)) p).
    { unfold cpus_upto in *. rewrite take_zset, Hsh by (rewrite (cb_len _ _ _ _ _ _ _ Hb'); lia).
      replace (Z.to_nat (j + 1 - C)) with (S (Z.to_nat (j - C))) by lia.
      by rewrite <- app_assoc, replicate_S_end. }
    apply wp_bind. unfold psci_flush_dcache_range.
    apply wp_when; intros _; [apply wp_emit; intros s1 (h1 & t1 & ->)|]; apply wp_emit;
      intros s2 (h2 & t2 & ->);
      exists (zset cpus' j (CpuNode PSCI_INVALID_MPIDR p (cpu_lock n))),
        (zset data' j (CpuData AFF_STATE_OFF PLAT_MAX_PWR_LVL PLAT_MAX_OFF_STATE));
      (split_and!; [exists h2, t2; reflexivity|exact Hb2|exact Hup2|exact Hsh2]).
  - intros [] s' (cpus' & data' & Hs' & Hb' & Hup' & Hsh).
    replace (Z.max C (C + m - 1 + 1)) with (C + m) in * by lia.
    replace (C + m - C) with m in Hsh by lia. eauto.
Qed.

Lemma desc_sum_step n e t :
  desc_sum (S n) desc e = Some t →
  ∃ v t', zget desc e = Some v ∧ 0 ≤ v ∧ desc_sum n desc (e + 1) = Some t' ∧ t = v + t'.
Proof.
  cbn [desc_sum]. destruct (zget desc e) as [v|]; [|done].
  destruct (desc_sum n desc (e + 1)) as [t'|]; [|done].
  destruct (Z.leb_spec 0 v); [|done]. intros [= <-]. by exists v, t'.
Qed.

Lemma desc_sum_from num e total i acc :
  0 ≤ i < num → desc_sum (Z.to_nat (num - i)) desc (e + i) = Some (total - acc) →
  ∃ v, zget desc (e + i) = Some v ∧ 0 ≤ v ∧ acc + v ≤ total ∧
       desc_sum (Z.to_nat (num - (i + 1))) desc (e + (i + 1)) = Some (total - (acc + v)).
Proof.
  intros Hi Hs. replace (Z.to_nat (num - i)) with (S (Z.to_nat (num - (i + 1)))) in Hs by lia.
  apply desc_sum_step in Hs as (v & t' & Hv & Hv0 & Ht & Heq).
  pose proof (desc_sum_nonneg _ _ _ _ Ht).
  exists v. split_and!; [done..|lia|]. replace (e + (i + 1)) with (e + i + 1) by lia.
  rewrite Ht. f_equal. lia.
Qed.

(** The layer of the parents: the nodes [e - 1 .. N), all one level up. *)
Definition layer nodes lvl e N : Prop :=
  lvl < PLAT_MAX_PWR_LVL → 1 ≤ e ∧ ∀ k nd, e - 1 ≤ k < N → zget nodes k = Some nd → level nd = lvl + 1.

Definition levels_from nodes N lvl : Prop :=
  ∀ i nd, i < N → zget nodes i = Some nd → lvl ≤ level nd.

Lemma layer_parent nodes lvl e N M i :
  nodes_built nodes M → layer nodes lvl e N → N ≤ M → 0 ≤ i → e + i - 1 < N → M < 2 ^ 32 →
  parent_ok nodes M lvl (u32 (e + i - 1)) ∧ (lvl < PLAT_MAX_PWR_LVL → u32 (e + i - 1) = e + i - 1).
Proof.
  intros Hb Hlay HNM Hi Hlt HM32.
  assert (lvl < PLAT_MAX_PWR_LVL → u32 (e + i - 1) = e + i - 1) as Hu.
  { intros Hl. destruct (Hlay Hl) as [He _]. apply u32_small. lia. }
  split; [|done]. intros Hl. destruct (Hlay Hl) as [He Hlv]. rewrite Hu by done.
  split; [lia|]. pose proof (nb_N _ _ Hb). pose proof (nb_len _ _ Hb).
  destruct (zget_is_Some nodes (e + i - 1)) as [pn Hpn]; [lia|].
  exists pn. split; [done|]. eapply Hlv; [|done]. lia.
Qed.

Lemma wp_level E nodes cpus data N lvl e num total j me s (Q : tree_vars → psci_state H → Prop) :
  shaped nodes cpus data s → nodes_built nodes N → 1 ≤ lvl ≤ PLAT_MAX_PWR_LVL → 0 ≤ num →
  N = e + num - 1 → layer nodes lvl e N → levels_from nodes N (lvl + 1) →
  desc_sum (Z.to_nat num) desc e = Some total →
  N + total ≤ PSCI_NUM_NON_CPU_PWR_DOMAINS → N + total ≤ 65536 →
  (∀ nodes' j' s', shaped nodes' cpus data s' → nodes_built nodes' (N + total) →
     levels_from nodes' (N + total) lvl →
     (∀ k nd, N ≤ k < N + total → zget nodes' k = Some nd → level nd = lvl) →
     shape_upto nodes' (N + total) =
       shape_upto nodes N ++ ((λ p, (p, lvl)) <$> bfs_parents (Z.to_nat num) desc e) →
     Q (TreeVars j' (N + total) (e + num) total) s') →
  wp E (for_to 0 (num - 1) (λ _ v, populate_parent desc lvl v) (TreeVars j N e 0)) me s Q.
Proof.
  intros Hs Hb Hl Hnum HN Hlay Hfrom Hsum Hcap H16 HQ.
  eapply (wp_for_to _ (λ i v s', ∃ nodes' acc, 0 ≤ acc ∧ tv_node_index v = N + acc ∧
    tv_parent_node_index v = e + i ∧ tv_num_nodes_at_next_lvl v = acc ∧
    desc_sum (Z.to_nat (num - i)) desc (e + i) = Some (total - acc) ∧
    shaped nodes' cpus data s' ∧ nodes_built nodes' (N + acc) ∧
    parents_upto nodes' (N + acc) lvl (e + i - 1) ∧ (∀ k, k < N → zget nodes' k = zget nodes k) ∧
    (∀ k nd, N ≤ k < N + acc → zget nodes' k = Some nd → level nd = lvl) ∧
    shape_upto nodes' (N + acc) =
      shape_upto nodes N ++ ((λ p, (p, lvl)) <$> bfs_parents (Z.to_nat i) desc e))).
  - exists nodes, 0. rewrite !Z.add_0_r, !Z.sub_0_r. split_and!; try done; [|lia|by rewrite app_nil_r].
    intros i nd Hi Hnd. pose proof (Hfrom i nd Hi Hnd). lia.
  - intros i [j1 n1 e1 a1] s' Hi (nodes' & acc & Hacc & Hn1 & He1 & Ha1 & Hsum' & Hs' & Hb' & Hup & Hold & Hnew & Hsh).
    cbn [tv_node_index tv_parent_node_index tv_num_nodes_at_next_lvl] in *. subst n1 e1 a1.
    destruct (desc_sum_from num e total i acc) as (m & Hm & Hm0 & Hle & Hrest); [lia|done|].
    pose proof (nb_N _ _ Hb').
    unfold populate_parent. cbn [tv_node_index tv_parent_node_index tv_num_nodes_at_next_lvl].
    apply wp_bind, wp_assert; [lia|]. apply wp_bind. eapply wp_some; [done|].
    destruct (layer_parent nodes' lvl e N (N + acc) i) as [Hpok Hpu]; [done| |lia..|].
    { intros Hlt. destruct (Hlay Hlt) as [He Hlv]. split; [done|]. intros k nd Hk.
      rewrite Hold by lia. apply Hlv. lia. }
    apply wp_bind. eapply wp_children; [done|done|done|lia|lia|done|done| |].
    { intros k nd Hk Hnd. destruct (Hup k nd Hk Hnd) as [Hge Hle']. split; [done|].
      intros Heq Hlt. rewrite Hpu by done. auto. }
    intros nodes2 s2 Hs2 Hb2 Hup2 Hold2 Hnew2 Hsh2. apply wp_ret.
    exists nodes2, (acc + m). cbn [tv_node_index tv_parent_node_index tv_num_nodes_at_next_lvl].
    rewrite !Z.add_assoc in *. split_and!; try done; try lia.
    + intros k nd Hk Hnd. destruct (Hup2 k nd Hk Hnd) as [Hge Hle']. split; [done|].
      intros Heq Hlt. specialize (Hle' Heq Hlt). rewrite Hpu in Hle' by done. lia.
    + intros k Hk. rewrite Hold2 by lia. by apply Hold.
    + intros k nd Hk Hnd. destruct (decide (k < N + acc)).
      * rewrite Hold2 in Hnd by lia. eapply Hnew; [|done]. lia.
      * eapply Hnew2; [|done]. lia.
    + rewrite Hsh2, Hsh. replace (Z.to_nat (i + 1)) with (S (Z.to_nat i)) by lia.
      rewrite bfs_parents_snoc, fmap_app, Z2Nat.id, Hm, <- app_assoc by lia. by rewrite fmap_replicate.
  - intros [j1 n1 e1 a1] s' (nodes' & acc & Hacc & Hn1 & He1 & Ha1 & Hsum' & Hs' & Hb' & Hup & Hold & Hnew & Hsh).
    cbn [tv_node_index tv_parent_node_index tv_num_nodes_at_next_lvl] in *. subst n1 e1 a1.
    replace (Z.max 0 (num - 1 + 1)) with num in * by lia.
    replace (num - num) with 0 in Hsum' by lia. simpl in Hsum'. assert (acc = total) as -> by (injection Hsum'; lia).
    apply (HQ nodes'); [done..| |done|done]. intros k nd Hk Hnd. by destruct (Hup k nd Hk Hnd).
Qed.

Lemma wp_level_cpu E nodes N cpus0 data0 lvl e num total j me s (Q : tree_vars → psci_state H → Prop) :
  shaped nodes cpus0 data0 s → nodes_built nodes N → 0 ≤ num → lvl = 0 →
  zlen cpus0 = PLATFORM_CORE_COUNT → zlen data0 = PLATFORM_CORE_COUNT →
  N = e + num - 1 → layer nodes 0 e N → N < 2 ^ 32 →
  desc_sum (Z.to_nat num) desc e = Some total → 0 < total ≤ PLATFORM_CORE_COUNT →
  (∀ cpus' data' e' a' s', shaped nodes cpus' data' s' →
     cpus_built nodes N cpus' cpus0 data' data0 total →
     cpus_upto cpus' total = bfs_parents (Z.to_nat num) desc e → Q (TreeVars total total e' a') s') →
  wp E (for_to 0 (num - 1) (λ _ v, populate_parent desc lvl v) (TreeVars j 0 e 0)) me s Q.
Proof.
  intros Hs Hb Hnum -> Hlc Hld HN Hlay HN32 Hsum Hcap HQ. pose proof core_count_ok.
  pose proof (nb_N _ _ Hb).
  eapply (wp_for_to _ (λ i v s', ∃ cpus' data' acc, 0 ≤ acc ∧ tv_node_index v = acc ∧
    (0 < i → tv_j v = acc) ∧ tv_parent_node_index v = e + i ∧
    desc_sum (Z.to_nat (num - i)) desc (e + i) = Some (total - acc) ∧
    shaped nodes cpus' data' s' ∧ cpus_built nodes N cpus' cpus0 data' data0 acc ∧
    (∀ c n, c < acc → zget cpus' c = Some n → 0 < PLAT_MAX_PWR_LVL → cpu_parent_node n ≤ e + i - 1) ∧
    cpus_upto cpus' acc = bfs_parents (Z.to_nat i) desc e)).
  - exists cpus0, data0, 0. rewrite !Z.sub_0_r, !Z.add_0_r. split_and!; try done.
    + split; try done; try lia; eauto.
      * intros c n Hc Hn. apply zget_Some_range in Hn. lia.
      * intros c d Hc Hd. apply zget_Some_range in Hd. lia.
      * intros c c' n n' Hcc Hn. apply zget_Some_range in Hn. lia.
    + intros c n Hc Hn. apply zget_Some_range in Hn. lia.
  - intros i [j1 n1 e1 a1] s' Hi (cpus' & data' & acc & Hacc & Hn1 & Hj1 & He1 & Hsum' & Hs' & Hb' & Hup & Hsh).
    cbn [tv_j tv_node_index tv_parent_node_index tv_num_nodes_at_next_lvl] in *. subst n1 e1.
    destruct (desc_sum_from num e total i acc) as (m & Hm & Hm0 & Hle & Hrest); [lia|done|].
    unfold populate_parent. cbn [tv_node_index tv_parent_node_index tv_num_nodes_at_next_lvl].
    apply wp_bind, wp_assert; [lia|]. apply wp_bind. eapply wp_some; [done|].
    destruct (layer_parent nodes 0 e N N i) as [Hpok Hpu]; [done|done|lia..|].
    apply wp_bind. eapply wp_children_cpu; [done|done|done|lia|done| |].
    { intros c n Hc Hn Hlt. rewrite Hpu by done. eapply Hup; done. }
    intros cpus2 data2 s2 Hs2 Hb2 Hup2 Hsh2. apply wp_ret.
    exists cpus2, data2, (acc + m). cbn [tv_j tv_node_index tv_parent_node_index].
    split_and!; try done; try lia.
    + intros c n Hc Hn Hlt. specialize (Hup2 c n Hc Hn Hlt). rewrite Hpu in Hup2 by done. lia.
    + rewrite Hsh2, Hsh. replace (Z.to_nat (i + 1)) with (S (Z.to_nat i)) by lia.
      by rewrite bfs_parents_snoc, Z2Nat.id, Hm by lia.
  - intros [j1 n1 e1 a1] s' (cpus' & data' & acc & Hacc & Hn1 & Hj1 & He1 & Hsum' & Hs' & Hb' & Hup & Hsh).
    cbn [tv_j tv_node_index tv_parent_node_index] in *. subst n1.
    replace (Z.max 0 (num - 1 + 1)) with num in * by lia.
    replace (num - num) with 0 in Hsum' by lia. simpl in Hsum'. assert (acc = total) as -> by (injection Hsum'; lia).
    destruct (decide (num = 0)) as [->|]; [simpl in Hsum; simplify_eq; lia|].
    rewrite Hj1 by lia. by apply (HQ cpus' data').
Qed.

Lemma wp_levels E n nodes cpus0 data0 N e num v me s (Q : tree_vars → psci_state H → Prop) :
  shaped nodes cpus0 data0 s → nodes_built nodes N → Z.of_nat n ≤ PLAT_MAX_PWR_LVL → 0 ≤ num →
  zlen cpus0 = PLATFORM_CORE_COUNT → zlen data0 = PLATFORM_CORE_COUNT →
  N = e + num - 1 → layer nodes (Z.of_nat n) e N → levels_from nodes N (Z.of_nat n + 1) →
  tv_node_index v = (if decide (n = 0%nat) then 0 else N) → tv_parent_node_index v = e →
  desc_levels_wf (S n) desc e (Z.to_nat num) N = true →
  (∀ nodes' N' cpus' data' v' s', shaped nodes' cpus' data' s' → nodes_built nodes' N' →
     0 < tv_j v' ≤ PLATFORM_CORE_COUNT → tv_j v' = desc_cores (S n) desc e (Z.to_nat num) →
     cpus_built nodes' N' cpus' cpus0 data' data0 (tv_j v') →
     shape_upto nodes' N' = shape_upto nodes N ++ (tree_levels (S n) desc e (Z.to_nat num)).1 →
     cpus_upto cpus' (tv_j v') = (tree_levels (S n) desc e (Z.to_nat num)).2 → Q v' s') →
  wp E (populate_levels (S n) desc num v) me s Q.
Proof.
  revert nodes N e num v s. induction n as [|n IH];
    intros nodes N e num v s Hs Hb Hn Hnum Hlc Hld HN Hlay Hfrom Hni Hpi Hwf HQ;
    pose proof (nb_N _ _ Hb); pose proof num_domains_ok; pose proof core_count_ok;
    unfold PSCI_NUM_NON_CPU_PWR_DOMAINS in *.
  - cbn [desc_levels_wf] in Hwf. destruct (desc_sum _ desc e) as [total|] eqn:Hsum; [|done].
    cbn [populate_levels]. rewrite Hni, Hpi. apply wp_bind.
    eapply wp_level_cpu; try done; [lia|lia|].
    intros cpus' data' e' a' s' Hs' Hc' Hsh. apply wp_ret.
    eapply (HQ nodes N cpus' data'); [done|done| | | |by rewrite app_nil_r|].
    + destruct (_ - 1 =? _); simpl; lia.
    + cbn [desc_cores]. rewrite Hsum. destruct (_ - 1 =? _); simpl; lia.
    + destruct (_ - 1 =? _); done.
    + destruct (_ - 1 =? _); exact Hsh.
  - change (desc_levels_wf (S (S n)) desc e (Z.to_nat num) N) with
      (match desc_sum (Z.to_nat num) desc e with
       | Some total =>
           ((N + total <=? PSCI_NUM_NON_CPU_PWR_DOMAINS) && (N + total <=? 65536)) &&
           desc_levels_wf (S n) desc (e + Z.of_nat (Z.to_nat num)) (Z.to_nat total) (N + total)
       | None => false
       end) in Hwf.
    destruct (desc_sum _ desc e) as [total|] eqn:Hsum; [|done].
    apply andb_true_iff in Hwf as [Hcap Hwf]. rewrite Z2Nat.id in Hwf by lia.
    pose proof (desc_sum_nonneg _ _ _ _ Hsum). unfold PSCI_NUM_NON_CPU_PWR_DOMAINS in *.
    change (populate_levels (S (S n)) desc num v) with
      (v0 ← for_to 0 (num - 1) (λ _ v, populate_parent desc (Z.of_nat (S n)) v)
              (TreeVars (tv_j v) (tv_node_index v) (tv_parent_node_index v) 0);
       let v' := if Z.of_nat (S n) - 1 =? PSCI_CPU_PWR_LVL
                 then TreeVars (tv_j v0) 0 (tv_parent_node_index v0) (tv_num_nodes_at_next_lvl v0)
                 else v0 in
       populate_levels (S n) desc (tv_num_nodes_at_next_lvl v0) v').
    rewrite Hni, Hpi, decide_False by done. apply wp_bind.
    eapply wp_level; try done; [lia|by unfold PSCI_NUM_NON_CPU_PWR_DOMAINS; lia|lia|].
    intros nodes' j' s' Hs' Hb' Hfrom' Hnew Hsh. cbv zeta. cbn [tv_num_nodes_at_next_lvl tv_j tv_parent_node_index].
    eapply (IH nodes' (N + total) (e + num) total); try done; try lia.
    + intros Hlt. split; [lia|]. intros k nd Hk Hnd. rewrite (Hnew k nd) by (done || lia). lia.
    + by replace (Z.of_nat n + 1) with (Z.of_nat (S n)) by lia.
    + unfold PSCI_CPU_PWR_LVL. destruct (decide (n = 0%nat)) as [->|]; [done|].
      destruct (Z.eqb_spec (Z.of_nat (S n) - 1) 0); [lia|done].
    + by destruct (_ - 1 =? _).
    + assert (Htree : tree_levels (S (S n)) desc e (Z.to_nat num) =
        (((λ p, (p, Z.of_nat (S n))) <$> bfs_parents (Z.to_nat num) desc e) ++
           (tree_levels (S n) desc (e + num) (Z.to_nat total)).1,
         (tree_levels (S n) desc (e + num) (Z.to_nat total)).2)).
      { rewrite <- (bfs_parents_length _ _ _ _ Hsum). cbn [tree_levels]. by rewrite Z2Nat.id by lia. }
      intros nodes2 N2 cpus2 data2 v2 s2 ? ? ? Hj ? Hs2 Hc2. eapply HQ; try done;
        [|by rewrite Htree, Hs2, Hsh, <- app_assoc|by rewrite Htree, Hc2]. rewrite Hj.
      change (desc_cores (S (S n)) desc e (Z.to_nat num)) with
        (desc_cores (S n) desc (e + Z.of_nat (Z.to_nat num)) (Z.to_nat (default 0 (desc_sum (Z.to_nat num) desc e)))).
      rewrite Hsum, Z2Nat.id by lia. done.
Qed.

Lemma wp_populate E me s (Q : Z → psci_state H → Prop) :
  let nodes0 := replicate (Z.to_nat PSCI_NUM_NON_CPU_PWR_DOMAINS) (NonCpuNode 0 0 0 0 0 0) in
  shaped nodes0 (psci_cpu_pd_nodes s0) (psci_svc_cpu_data s0) s →
  zlen (psci_cpu_pd_nodes s0) = PLATFORM_CORE_COUNT →
  zlen (psci_svc_cpu_data s0) = PLATFORM_CORE_COUNT → desc_wf desc = true →
  (∀ nodes N cpus data C s', shaped nodes cpus data s' → nodes_built nodes N →
     0 < C ≤ PLATFORM_CORE_COUNT → C = desc_ncpus desc →
     cpus_built nodes N cpus (psci_cpu_pd_nodes s0) data (psci_svc_cpu_data s0) C →
     shape_upto nodes N = (described_tree desc).1 → cpus_upto cpus C = (described_tree desc).2 → Q C s') →
  wp E (populate_power_domain_tree desc) me s Q.
Proof.
  intros nodes0 Hs Hlc Hld Hwf HQ. pose proof max_pwr_lvl_ok. pose proof num_domains_ok.
  unfold populate_power_domain_tree, desc_wf, desc_ncpus, described_tree in *.
  replace (Z.to_nat (PLAT_MAX_PWR_LVL + 1)) with (S (Z.to_nat PLAT_MAX_PWR_LVL)) in * by lia.
  apply wp_bind. eapply (wp_levels _ _ nodes0 _ _ 0 0 1); try done; try lia.
  - split.
    + unfold zlen, nodes0, PSCI_NUM_NON_CPU_PWR_DOMAINS. rewrite length_replicate. lia.
    + unfold PSCI_NUM_NON_CPU_PWR_DOMAINS. lia.
    + intros i nd. unfold zget. case_decide; [|done].
      intros [-> _]%lookup_replicate_1. done.
    + intros i nd Hi Hz. apply zget_Some_range in Hz. lia.
    + intros i nd Hi Hz. apply zget_Some_range in Hz. lia.
    + intros i j ni nj Hij Hz Hz'. apply zget_Some_range in Hz. lia.
  - intros Hlt. lia.
  - intros i nd Hi Hz. apply zget_Some_range in Hz. lia.
  - simpl. by case_decide.
  - intros nodes' N' cpus' data' v' s' Hs' Hb' Hj Hjc Hc' Hsh Hcs.
    apply wp_bind, wp_assert; [lia|]. apply wp_ret. by eapply HQ.
Qed.
End Populate.

(** ** The CPUs of each node *)

Section Limits.
Context `{cfg : Config} `{cok : !ConfigOk} {H : Type} `{plat : !Platform H}.
Context (nodes0 : list non_cpu_pd_node_t) (N : Z) (cpus : list cpu_pd_node_t) (C : Z).
Context (cpus0 : list cpu_pd_node_t) (data data0 : list psci_cpu_data_t).
Context (Hb : nodes_built nodes0 N) (Hc : cpus_built nodes0 N cpus cpus0 data data0 C).
Implicit Types (E : psci_state H → Prop) (s : psci_state H) (nodes : list non_cpu_pd_node_t).

Definition T0 : topo := Topo (tnode_of <$> nodes0) (cpu_parent_node <$> cpus) C.

(** Every CPU's ancestors exist, at their levels. *)
Lemma built_anc c l :
  0 ≤ c < C → 1 ≤ l ≤ PLAT_MAX_PWR_LVL →
  ∃ p nd, anc T0 c l = Some p ∧ p < N ∧ zget nodes0 p = Some nd ∧ level nd = l.
Proof using Hb Hc.
  intros Hcc Hl. pose proof (cb_C _ _ _ _ _ _ _ Hc) as HC. pose proof (cb_len _ _ _ _ _ _ _ Hc) as Hlen.
  assert (∀ k : nat, Z.of_nat k < PLAT_MAX_PWR_LVL →
    ∃ p nd, ancn T0 c k = Some p ∧ p < N ∧ zget nodes0 p = Some nd ∧ level nd = Z.of_nat k + 1) as Hk.
  { induction k as [|k IH]; intros Hk.
    - simpl. rewrite zget_fmap. destruct (zget_is_Some cpus c) as [n Hn]; [lia|]. rewrite Hn. simpl.
      destruct (cb_parent _ _ _ _ _ _ _ Hc c n ltac:(lia) Hn ltac:(lia)) as (HpN & pn & Hpn & Hlv).
      exists (cpu_parent_node n), pn. split_and!; [done..|lia].
    - destruct IH as (p & nd & Hp & HpN & Hnd & Hlv); [lia|].
      cbn [ancn]. rewrite Hp. simpl. rewrite zget_fmap, Hnd. simpl.
      destruct (nb_parent _ _ Hb p nd HpN Hnd) as (pn & Hpn & Hlt & Hlv'); [lia|].
      exists (parent_node nd), pn. split_and!; [done|lia|done|lia]. }
  destruct (Hk (Z.to_nat (l - 1))) as (p & nd & Hp & HpN & Hnd & Hlv); [lia|].
  exists p, nd. unfold anc. rewrite decide_True by lia. split_and!; [done..|lia].
Qed.

(** CPUs in index order have ancestors in index order. *)
Lemma built_mono c c' l p p' :
  0 ≤ c → c ≤ c' < C → 1 ≤ l ≤ PLAT_MAX_PWR_LVL →
  anc T0 c l = Some p → anc T0 c' l = Some p' → p ≤ p'.
Proof using Hb Hc.
  intros H0 Hcc Hl. pose proof (cb_C _ _ _ _ _ _ _ Hc) as HC.
  revert p p'. replace l with (Z.of_nat (Z.to_nat (l - 1)) + 1) in * by lia.
  generalize dependent (Z.to_nat (l - 1)). intros k Hk. induction k as [|k IH]; intros p p'.
  - change (Z.of_nat 0 + 1) with 1. rewrite !anc_1. simpl. rewrite !zget_fmap.
    destruct (zget cpus c) as [n|] eqn:Hn, (zget cpus c') as [n'|] eqn:Hn'; try done.
    intros [= <-] [= <-]. eapply (cb_mono _ _ _ _ _ _ _ Hc c c'); (done || lia).
  - replace (Z.of_nat (S k) + 1) with (Z.of_nat k + 1 + 1) by lia.
    rewrite (anc_succ _ c), (anc_succ _ c') by lia.
    destruct (built_anc c (Z.of_nat k + 1)) as (q & nd & Hq & HqN & Hnd & Hlv); [lia..|].
    destruct (built_anc c' (Z.of_nat k + 1)) as (q' & nd' & Hq' & HqN' & Hnd' & Hlv'); [lia..|].
    rewrite Hq, Hq'. simpl. rewrite !zget_fmap, Hnd, Hnd'. simpl. intros [= <-] [= <-].
    assert (q ≤ q') by (eapply IH; (done || lia)).
    eapply (nb_mono _ _ Hb q q'); (done || lia).
Qed.

(** The CPUs below [cnt] are recorded in the nodes of level [l]. *)
Definition range_ok nodes l cnt : Prop :=
  ∀ p nd, p < N → zget nodes p = Some nd → level nd = l →
    0 ≤ cpu_start_idx nd ∧ 0 ≤ ncpus nd ∧ cpu_start_idx nd + ncpus nd ≤ cnt ∧
    ∀ c, 0 ≤ c < cnt → cpu_start_idx nd ≤ c < cpu_start_idx nd + ncpus nd ↔ anc T0 c l = Some p.

Definition with_range (a n : Z) (nd : non_cpu_pd_node_t) : non_cpu_pd_node_t :=
  NonCpuNode a n (parent_node nd) (nc_local_state nd) (level nd) (lock_index nd).

(** Everything but the ranges is as it was built. *)
Definition same_shape nodes : Prop := with_range 0 0 <$> nodes = with_range 0 0 <$> nodes0.

Lemma range_ok_step nodes l c t nd a :
  range_ok nodes l c → 0 ≤ c < C → 1 ≤ l ≤ PLAT_MAX_PWR_LVL →
  anc T0 c l = Some t → zget nodes t = Some nd → level nd = l → t < N →
  a = (if decide (0 < c ∧ anc T0 (c - 1) l = Some t) then cpu_start_idx nd else c) →
  range_ok (zset nodes t (with_range a (u32 (ncpus nd + 1)) nd)) l (c + 1).
Proof using Hb Hc cok.
  intros Hr Hcc Hl Ht Hnd Hlv HtN ->. pose proof (zget_Some_range _ _ _ Hnd) as Htr.
  pose proof (cb_C _ _ _ _ _ _ _ Hc) as HC. pose proof core_count_ok.
  intros p nd' HpN. rewrite zget_zset by done. destruct (decide (t = p)) as [<-|Hne].
  - intros [= <-] _. cbn [cpu_start_idx ncpus with_range].
    destruct (Hr t nd HtN Hnd Hlv) as (Hs0 & Hn0 & Hle & Hiff).
    rewrite u32_small by lia.
    destruct (decide (0 < c ∧ anc T0 (c - 1) l = Some t)) as [[Hc0 Hprev]|Hfirst].
    + assert (cpu_start_idx nd + ncpus nd = c).
      { apply Hiff in Hprev; lia. }
      split_and!; [lia..|]. intros c' Hc'. destruct (decide (c' = c)) as [->|]; [split; [done|lia]|].
      rewrite <- Hiff by lia. lia.
    + assert (ncpus nd = 0) as Hz.
      { destruct (decide (ncpus nd = 0)); [done|]. exfalso. apply Hfirst. split; [lia|].
        pose proof (proj1 (Hiff (cpu_start_idx nd) ltac:(lia)) ltac:(lia)) as Hst.
        destruct (built_anc (c - 1) l) as (q & nq & Hq & _); [lia..|].
        assert (t ≤ q) by (eapply (built_mono (cpu_start_idx nd) (c - 1)); (done || lia)).
        assert (q ≤ t) by (eapply (built_mono (c - 1) c); (done || lia)).
        rewrite Hq. f_equal. lia. }
      split_and!; [lia..|]. intros c' Hc'. destruct (decide (c' = c)) as [->|]; [split; [done|lia]|].
      rewrite <- Hiff by lia. lia.
  - intros Hnd' Hlv'. destruct (Hr p nd' HpN Hnd' Hlv') as (Hs0 & Hn0 & Hle & Hiff).
    split_and!; [lia..|]. intros c' Hc'. destruct (decide (c' = c)) as [->|].
    + split; [lia|]. rewrite Ht. congruence.
    + apply Hiff. lia.
Qed.

Lemma range_ok_other nodes l l' cnt t nd a n :
  range_ok nodes l' cnt → zget nodes t = Some nd → level nd = l → l ≠ l' →
  range_ok (zset nodes t (with_range a n nd)) l' cnt.
Proof.
  intros Hr Hnd Hlv Hne p nd' HpN. rewrite zget_zset by (by eapply zget_Some_range).
  case_decide; [|by apply Hr]. intros [= <-]. simpl. congruence.
Qed.

Lemma same_shape_set nodes t nd a n :
  same_shape nodes → zget nodes t = Some nd → same_shape (zset nodes t (with_range a n nd)).
Proof. unfold same_shape. intros <- Hnd. by eapply fmap_zset_same. Qed.

Lemma same_shape_get nodes p nd0 :
  same_shape nodes → zget nodes0 p = Some nd0 →
  ∃ nd, zget nodes p = Some nd ∧ with_range 0 0 nd = with_range 0 0 nd0.
Proof.
  unfold same_shape. intros Hs Hnd. apply (f_equal (λ l, zget l p)) in Hs.
  rewrite !zget_fmap, Hnd in Hs. destruct (zget nodes p) as [nd|]; [|done].
  exists nd. split; [done|]. by apply (inj Some).
Qed.

(** The ancestors do not depend on the ranges. *)
Lemma anc_same_shape nodes c l :
  same_shape nodes → anc (Topo (tnode_of <$> nodes) (cpu_parent_node <$> cpus) C) c l = anc T0 c l.
Proof.
  intros Hs. unfold anc. case_decide; [|done].
  induction (Z.to_nat (l - 1)) as [|k IH]; [done|]. cbn [ancn]. rewrite IH.
  destruct (ancn T0 c k) as [p|]; [|done]. simpl. rewrite !zget_fmap.
  unfold same_shape in Hs. apply (f_equal (λ l, zget l p)) in Hs. rewrite !zget_fmap in Hs.
  destruct (zget nodes p), (zget nodes0 p); try done. simpl in *. unfold with_range in Hs. congruence.
Qed.

(** The node of level [l] the previous CPU was in. *)
Definition prev_anc (c l : Z) : Z := if decide (0 < c) then default 0 (anc T0 (c - 1) l) else 0.

(** CPU [c] is recorded at the levels above [n], the CPUs before it at all. *)
Record counted (c n : Z) nodes (idx : list Z) : Prop := {
  ct_shape : same_shape nodes;
  ct_range l : 1 ≤ l ≤ PLAT_MAX_PWR_LVL → range_ok nodes l (if decide (n < l) then c + 1 else c);
  ct_idx l : 1 ≤ l ≤ PLAT_MAX_PWR_LVL →
    zget idx (l - 1) = Some (if decide (n < l) then default 0 (anc T0 c l) else prev_anc c l);
}.

Lemma counted_step c n nodes idx t nd a :
  counted c n nodes idx → 0 ≤ c < C → 1 ≤ n ≤ PLAT_MAX_PWR_LVL → anc T0 c n = Some t →
  zget nodes t = Some nd → level nd = n → t < N → zlen idx = PLAT_MAX_PWR_LVL →
  a = (if decide (t = prev_anc c n) then cpu_start_idx nd else c) →
  counted c (n - 1) (zset nodes t (with_range a (u32 (ncpus nd + 1)) nd)) (zset idx (n - 1) t).
Proof using Hb Hc cok.
  intros Hct Hcc Hn Ht Hnd Hlv HtN Hlen Ha. split.
  - apply same_shape_set; [apply Hct|done].
  - intros l Hl. pose proof (ct_range _ _ _ _ Hct l Hl) as Hr. destruct (decide (l = n)) as [->|Hne].
    + rewrite decide_False in Hr by lia. rewrite decide_True by lia.
      eapply range_ok_step; try done. subst a. unfold prev_anc.
      destruct (decide (0 < c)) as [Hc0|Hc0].
      * destruct (built_anc (c - 1) n) as (q & nq & Hq & _); [lia..|]. rewrite Hq. simpl.
        destruct (decide (t = q)) as [->|]; [by rewrite decide_True|].
        rewrite decide_False; [done|]. intros [_ ?]. congruence.
      * rewrite (decide_False (P := 0 < c ∧ _)) by lia. case_decide; [|done].
        destruct (Hr t nd HtN Hnd Hlv) as (? & ? & ? & _). lia.
    + rewrite (decide_ext (n - 1 < l) (n < l)) by lia. by eapply range_ok_other.
  - intros l Hl. rewrite zget_zset by lia. destruct (decide (n - 1 = l - 1)) as [He|Hne].
    + assert (l = n) as -> by lia. rewrite decide_True by lia. by rewrite Ht.
    + rewrite (ct_idx _ _ _ _ Hct l Hl). by rewrite (decide_ext (n - 1 < l) (n < l)) by lia.
Qed.

Lemma wp_limits_levels E c (n : nat) idx temp me s (Q : list Z → psci_state H → Prop) :
  counted c (Z.of_nat n) (psci_non_cpu_pd_nodes s) idx → 0 ≤ c < C →
  Z.of_nat n ≤ PLAT_MAX_PWR_LVL → zlen idx = PLAT_MAX_PWR_LVL →
  (∀ l p, 1 ≤ l ≤ PLAT_MAX_PWR_LVL → anc T0 c l = Some p → zget temp (l - 1) = Some p) →
  (∀ nodes' idx', counted c 0 nodes' idx' → zlen idx' = PLAT_MAX_PWR_LVL →
     Q idx' (set_psci_non_cpu_pd_nodes nodes' s)) →
  wp E (pwrlvl_limits_levels n c temp idx) me s Q.
Proof using Hb Hc cok.
  revert idx s. induction n as [|n IH]; intros idx s Hct Hcc Hn Hlen Htemp HQ.
  { apply wp_ret. replace s with (set_psci_non_cpu_pd_nodes (psci_non_cpu_pd_nodes s) s) by (by destruct s).
    by apply HQ. }
  cbn [pwrlvl_limits_levels]. set (l := Z.of_nat (S n)) in *.
  destruct (built_anc c l) as (t & nd0 & Ht & HtN & Hnd0 & Hlv0); [lia..|].
  destruct (same_shape_get _ t nd0 (ct_shape _ _ _ _ Hct) Hnd0) as (nd & Hnd & Hshape).
  assert (Hlv : level nd = l) by (unfold with_range in Hshape; congruence).
  pose proof (ct_idx _ _ _ _ Hct l ltac:(lia)) as Hidx. rewrite decide_False in Hidx by lia.
  replace (Z.of_nat n) with (l - 1) by lia.
  apply wp_bind. eapply wp_some; [by apply Htemp; [lia|]|].
  apply wp_bind. eapply wp_some; [done|]. apply wp_bind.
  pose proof (zget_Some_range _ _ _ Hnd) as Htr.
  set (a := if decide (t = prev_anc c l) then cpu_start_idx nd else c).
  eapply (wp_mono _ _ _ _ (λ idx' s', idx' = zset idx (l - 1) t ∧
     s' = set_psci_non_cpu_pd_nodes (zset (psci_non_cpu_pd_nodes s) t (with_range a (ncpus nd) nd)) s)).
  { unfold a. destruct (Z.eqb_spec t (prev_anc c l)) as [He|Hne]; simpl.
    - apply wp_ret. rewrite decide_True by done. split.
      + symmetry. apply zset_same. by rewrite He.
      + rewrite zset_same by (by destruct nd). by destruct s.
    - apply wp_bind. eapply wp_upd_non_cpu_node; [done|]. apply wp_ret.
      by rewrite decide_False by done. }
  intros idx' s' [-> ->]. apply wp_bind. eapply wp_upd_non_cpu_node.
  { ssimpl. by apply zget_zset_eq. }
  ssimpl. rewrite zset_zset.
  change (wp E (pwrlvl_limits_levels n c temp (zset idx (l - 1) t)) me
    (set_psci_non_cpu_pd_nodes (zset (psci_non_cpu_pd_nodes s) t (with_range a (u32 (ncpus nd + 1)) nd)) s) Q).
  apply IH; [|done|lia|by rewrite zlen_zset|done|].
  - replace (Z.of_nat n) with (l - 1) by lia. eapply counted_step; try done. lia.
  - intros nodes' idx' Hct' Hlen'. by apply (HQ nodes' idx').
Qed.

Lemma counted_next c nodes idx : 0 ≤ c → counted c 0 nodes idx → counted (c + 1) PLAT_MAX_PWR_LVL nodes idx.
Proof.
  intros Hc0 [Hs Hr Hi]. split; [done| |].
  - intros l Hl. rewrite decide_False by lia. specialize (Hr l Hl). by rewrite decide_True in Hr by lia.
  - intros l Hl. rewrite (Hi l Hl), decide_True by lia. rewrite decide_False by lia.
    unfold prev_anc. rewrite decide_True by lia. by replace (c + 1 - 1) with c by lia.
Qed.

Lemma wp_update_limits E me s (Q : unit → psci_state H → Prop) :
  psci_non_cpu_pd_nodes s = nodes0 → psci_cpu_pd_nodes s = cpus → psci_plat_core_count s = C →
  (∀ nodes, same_shape nodes →
     (∀ l, 1 ≤ l ≤ PLAT_MAX_PWR_LVL → range_ok nodes l C) →
     Q tt (set_psci_non_cpu_pd_nodes nodes s)) →
  wp E psci_update_pwrlvl_limits me s Q.
Proof using Hb Hc cok.
  intros Hn0 Hcp HCC HQ. pose proof (cb_C _ _ _ _ _ _ _ Hc) as HCr. pose proof max_pwr_lvl_ok.
  unfold psci_update_pwrlvl_limits. apply wp_bind, wp_gets. rewrite HCC. apply wp_bind.
  eapply (wp_for_to _ (λ c idx s', ∃ nodes, s' = set_psci_non_cpu_pd_nodes nodes s ∧
            counted c PLAT_MAX_PWR_LVL nodes idx ∧ zlen idx = PLAT_MAX_PWR_LVL)).
  - exists nodes0. split_and!.
    + rewrite <- Hn0. by destruct s.
    + split; [done| |].
      * intros l Hl. rewrite decide_False by lia. intros p nd HpN Hnd _.
        destruct (nb_fresh _ _ Hb p nd Hnd) as [-> ->]. split_and!; [lia..|]. intros c Hc'. lia.
      * intros l Hl. rewrite decide_False by lia. unfold prev_anc, zget.
        rewrite (decide_False (P := 0 < 0)) by lia. rewrite decide_True by lia. apply lookup_replicate_2. lia.
    + unfold zlen. rewrite length_replicate. lia.
  - intros c idx s' Hcc (nodes & -> & Hct & Hlen). apply wp_bind.
    destruct (zget_is_Some cpus c) as [cn Hcn]; [rewrite (cb_len _ _ _ _ _ _ _ Hc); lia|].
    assert (HT : topo_of (set_psci_non_cpu_pd_nodes nodes s) = Topo (tnode_of <$> nodes) (cpu_parent_node <$> cpus) C).
    { unfold topo_of. ssimpl. by rewrite Hcp, HCC. }
    eapply wp_get_parents_walk; [by ssimpl; rewrite Hcp| |lia|].
    + rewrite HT. intros k Hk. rewrite anc_same_shape by apply Hct.
      destruct (built_anc c k) as (p & nd0 & Hp & HpN & Hnd0 & _); [lia..|]. exists p. split; [done|].
      destruct (same_shape_get nodes p nd0) as (nd & Hnd & _); [apply Hct|done|].
      simpl. rewrite zget_fmap, Hnd. by eexists.
    + eapply wp_limits_levels; [by rewrite Z2Nat.id by lia|lia|lia|done| |].
      * intros l p Hl Hp. apply zget_ancs_ok; [lia|]. rewrite HT, anc_same_shape by apply Hct.
        by replace (l - 1 + 1) with l by lia.
      * intros nodes' idx' Hct' Hlen'. exists nodes'. split_and!; [done|by apply counted_next; [lia|]|done].
  - intros idx s' (nodes & -> & Hct & _). apply wp_ret. apply HQ; [apply Hct|].
    intros l Hl. pose proof (ct_range _ _ _ _ Hct l Hl) as Hr. rewrite decide_False in Hr by lia.
    by replace (Z.max 0 (C - 1 + 1)) with C in Hr by lia.
Qed.

(** The ranges leave the parents and levels as they were built. *)
Lemma limits_described desc nodes :
  same_shape nodes → shape_upto nodes0 N = (described_tree desc).1 →
  cpus_upto cpus C = (described_tree desc).2 →
  tree_as_described desc (Topo (tnode_of <$> nodes) (cpu_parent_node <$> cpus) C).
Proof using Hb.
  intros Hs Hn Hcp. split; [|done]. cbn [tp_nodes]. rewrite <- Hn at 2. unfold shape_upto.
  pose proof (nb_len _ _ Hb). pose proof (nb_N _ _ Hb).
  assert (length (described_tree desc).1 = Z.to_nat N) as ->.
  { rewrite <- Hn. unfold shape_upto. rewrite length_take, length_fmap. unfold zlen in *. lia. }
  f_equal. rewrite <- list_fmap_compose.
  unfold same_shape in Hs. apply (f_equal (fmap (λ nd, (parent_node nd, level nd)))) in Hs.
  by rewrite <- !list_fmap_compose in Hs.
Qed.

(** The tree is well formed once the ranges are recorded. *)
Lemma limits_topo_wf nodes :
  same_shape nodes → (∀ l, 1 ≤ l ≤ PLAT_MAX_PWR_LVL → range_ok nodes l C) → 0 < C →
  topo_wf (Topo (tnode_of <$> nodes) (cpu_parent_node <$> cpus) C).
Proof using Hb Hc.
  intros Hs Hr HC0. pose proof (cb_C _ _ _ _ _ _ _ Hc) as HCr. split; simpl.
  - lia.
  - rewrite zlen_fmap. apply Hc.
  - rewrite zlen_fmap. rewrite <- (zlen_fmap (with_range 0 0)), Hs, zlen_fmap. apply Hb.
  - intros c l Hcc Hl. destruct (built_anc c l) as (p & nd0 & Hp & HpN & Hnd0 & Hlv); [lia..|].
    destruct (same_shape_get nodes p nd0) as (nd & Hnd & Hsh); [done..|].
    assert (level nd = level nd0 ∧ lock_index nd = lock_index nd0) as [Hl1 Hl2].
    { unfold with_range in Hsh. split; congruence. }
    destruct (Hr l Hl p nd HpN Hnd) as (H1 & H2 & H3 & H4); [congruence|].
    destruct (nb_node _ _ Hb p nd0 HpN Hnd0) as (Hlk & _ & _).
    exists p, (tnode_of nd). split; simpl; try done.
    + by rewrite anc_same_shape.
    + by rewrite zget_fmap, Hnd.
    + congruence.
    + congruence.
    + intros c' Hc'. rewrite anc_same_shape by done. by apply H4.
Qed.
End Limits.

