(* ===== verification/PsciBoot.v ===== *)
(** * Cold boot establishes the invariant

    psci_setup() on the statically initialised state, for any well-formed
    topology description, and psci_register_spd_pm_hook() after it. *)

From stdpp Require Import base sets list numbers list_numbers.
From Stdlib Require Import ZArith Lia.
From S2P Require Import Prelude PsciTypes PsciCommon PsciStat PsciPower PsciSetup PsciMain.
From S2P Require Import PsciTopo PsciCoord PsciInv PsciSafe PsciTree.
Open Scope Z_scope.
Open Scope mon_scope.

(** ** Capability bits *)

Definition cap_bit (fid : Z) : Z := Z.land fid 0x1f.

Lemma cap_bit_range fid : 0 ≤ cap_bit fid < 32.
Proof. unfold cap_bit. change 0x1f with (Z.ones 5). rewrite Z.land_ones by lia. by apply Z.mod_pos_bound. Qed.

Lemma has_cap_testbit caps fid : has_cap caps fid = Z.testbit caps (cap_bit fid).
Proof.
  unfold has_cap, define_psci_cap. fold (cap_bit fid). pose proof (cap_bit_range fid).
  rewrite Z.shiftl_1_l. apply eq_true_iff_eq. rewrite negb_true_iff, Z.eqb_neq. split.
  - intros Hne. destruct (Z.testbit caps (cap_bit fid)) eqn:Hb; [done|]. destruct Hne.
    apply Z.bits_inj'. intros n Hn. rewrite Z.land_spec, Z.bits_0, Z.pow2_bits_eqb by lia.
    destruct (Z.eqb_spec (cap_bit fid) n) as [<-|]; [by rewrite Hb|apply andb_false_r].
  - intros Hb Hz. apply (f_equal (λ x, Z.testbit x (cap_bit fid))) in Hz.
    rewrite Z.land_spec, Hb, Z.pow2_bits_true, Z.bits_0 in Hz by lia. done.
Qed.

Lemma has_cap_add (b : bool) caps f g :
  has_cap (if b then Z.lor caps (define_psci_cap f) else caps) g =
    has_cap caps g || (b && (cap_bit f =? cap_bit g)).
Proof.
  rewrite !has_cap_testbit. destruct b; [|by rewrite orb_false_r].
  unfold define_psci_cap. fold (cap_bit f). pose proof (cap_bit_range f). pose proof (cap_bit_range g).
  by rewrite Z.lor_spec, Z.shiftl_1_l, Z.pow2_bits_eqb by lia.
Qed.

Section Caps.
Context `{cfg : Config} {H : Type}.

(** The capabilities psci_setup() computes from the hooks, one by one. *)
Lemma caps_of_ops_spec (ops : plat_psci_ops_t H) fid :
  let set {A} (o : option A) := bool_decide (is_Some o) in
  let susp := set (pwr_domain_suspend ops) && set (pwr_domain_suspend_finish ops) in
  let fn k := cap_bit k =? cap_bit fid in
  has_cap (caps_of_ops ops) fid =
    (fn PSCI_VERSION || fn PSCI_AFFINITY_INFO_AARCH64 || fn PSCI_FEATURES)
    || set (pwr_domain_off ops) && fn PSCI_CPU_OFF
    || set (pwr_domain_on ops) && set (pwr_domain_on_finish ops) && fn PSCI_CPU_ON_AARCH64
    || susp && set (validate_power_state ops) && fn PSCI_CPU_SUSPEND_AARCH64
    || susp && set (get_sys_suspend_power_state ops) && fn PSCI_SYSTEM_SUSPEND_AARCH64
    || susp && PSCI_OS_INIT_MODE && fn PSCI_SET_SUSPEND_MODE
    || set (system_off ops) && fn PSCI_SYSTEM_OFF
    || set (system_reset ops) && fn PSCI_SYSTEM_RESET
    || set (get_node_hw_state ops) && fn PSCI_NODE_HW_STATE_AARCH64
    || set (read_mem_protect ops) && set (write_mem_protect ops) && fn PSCI_MEM_PROTECT
    || set (mem_protect_chk ops) && fn PSCI_MEM_CHK_RANGE_AARCH64
    || set (system_reset2 ops) && fn PSCI_SYSTEM_RESET2_AARCH64
    || ENABLE_PSCI_STAT && fn PSCI_STAT_RESIDENCY_AARCH64
    || ENABLE_PSCI_STAT && fn PSCI_STAT_COUNT_AARCH64.
Proof.
  intros set susp fn. unfold caps_of_ops, set, susp, fn. cbv zeta. rewrite !has_cap_add.
  unfold PSCI_GENERIC_CAP.
  assert (has_cap (Z.lor (Z.lor (define_psci_cap PSCI_VERSION) (define_psci_cap PSCI_AFFINITY_INFO_AARCH64))
            (define_psci_cap PSCI_FEATURES)) fid =
    (cap_bit PSCI_VERSION =? cap_bit fid) || (cap_bit PSCI_AFFINITY_INFO_AARCH64 =? cap_bit fid)
    || (cap_bit PSCI_FEATURES =? cap_bit fid)) as ->; [|done].
  rewrite has_cap_testbit. pose proof (cap_bit_range fid).
  unfold define_psci_cap. rewrite !Z.lor_spec, !Z.shiftl_1_l.
  by rewrite !Z.pow2_bits_eqb by (vm_compute; discriminate).
Qed.

Ltac cap_tac Hcap :=
  rewrite caps_of_ops_spec in Hcap;
  repeat match type of Hcap with
  | context [?a =? ?b] =>
      let v := eval vm_compute in (a =? b) in change (a =? b) with v in Hcap
  end;
  rewrite ?andb_false_r, ?andb_true_r, ?orb_false_r, ?orb_false_l in Hcap;
  rewrite ?andb_true_iff, ?bool_decide_eq_true in Hcap; tauto.

Lemma caps_of_ops_ok (ops : plat_psci_ops_t H) : caps_ok (caps_of_ops ops) ops None.
Proof.
  split; intros Hcap; try cap_tac Hcap.
  exfalso. rewrite caps_of_ops_spec in Hcap.
  repeat match type of Hcap with
  | context [?a =? ?b] =>
      let v := eval vm_compute in (a =? b) in change (a =? b) with v in Hcap
  end.
  by rewrite !andb_false_r in Hcap.
Qed.
End Caps.

(** ** psci_setup() *)

Section Boot.
Context `{cfg : Config} `{cok : !ConfigOk} {H : Type} `{plat : !Platform H}.
Implicit Types (s : psci_state H).
Abbreviation wpt := (wp (λ _ : psci_state H, True)).

Lemma wp_write_req E l c v me s (Q : unit → psci_state H → Prop) :
  req_dims (psci_req_local_pwr_states s) → 1 ≤ l ≤ PLAT_MAX_PWR_LVL → 0 ≤ c < PLATFORM_CORE_COUNT →
  Q tt (set_psci_req_local_pwr_states (req_upd (psci_req_local_pwr_states s) l c v) s) →
  wp E (write_req l c v) me s Q.
Proof.
  intros Hd Hl Hc HQ. destruct (req_dims_row _ l Hd Hl) as (row & Hr & Hlen).
  unfold write_req. apply wp_bind, wp_gets, wp_bind. eapply wp_some; [done|].
  apply wp_bind. eapply wp_some.
  { unfold zput. rewrite decide_True by lia. done. }
  apply wp_modify. unfold req_upd in HQ. by rewrite Hr in HQ.
Qed.

(** Every CPU starts out requesting the deepest state at every level. *)
Lemma wp_init_req E me s (Q : unit → psci_state H → Prop) :
  req_dims (psci_req_local_pwr_states s) → psci_plat_core_count s ≤ PLATFORM_CORE_COUNT →
  (∀ rq, req_dims rq →
     (∀ l c, 1 ≤ l ≤ PLAT_MAX_PWR_LVL → 0 ≤ c < psci_plat_core_count s →
             req_at rq l c = Some PLAT_MAX_OFF_STATE) →
     Q tt (set_psci_req_local_pwr_states rq s)) →
  wp E psci_init_req_local_pwr_states me s Q.
Proof.
  intros Hd HC HQ. unfold psci_init_req_local_pwr_states. apply wp_bind, wp_gets.
  set (C := psci_plat_core_count s) in *.
  eapply (wp_for_to _ (λ k _ s', ∃ rq, s' = set_psci_req_local_pwr_states rq s ∧ req_dims rq ∧
    ∀ l c, 1 ≤ l ≤ k → 0 ≤ c < C → req_at rq l c = Some PLAT_MAX_OFF_STATE)).
  - exists (psci_req_local_pwr_states s). split_and!; [by destruct s|done|lia].
  - intros k [] s' Hk (rq & -> & Hrd & Hall).
    eapply (wp_for_to _ (λ c _ s', ∃ rq, s' = set_psci_req_local_pwr_states rq s ∧ req_dims rq ∧
      ∀ l c', 1 ≤ l ≤ k + 1 → 0 ≤ c' < C → l ≤ k ∨ c' < c → req_at rq l c' = Some PLAT_MAX_OFF_STATE)).
    + exists rq. split_and!; [done..|]. intros l c' Hl Hc' [?|?]; [apply Hall; lia|lia].
    + intros c [] s' Hc (rq' & -> & Hrd' & Hall'). apply wp_write_req; [done|lia|lia|]. ssimpl.
      exists (req_upd rq' (k + 1) c PLAT_MAX_OFF_STATE). split_and!; [done|by apply req_dims_upd|].
      intros l c' Hl Hc' Hor. rewrite req_at_upd by (done || lia). case_decide; [done|].
      apply Hall'; [done..|]. lia.
    + intros [] s' (rq' & -> & Hrd' & Hall'). exists rq'. split_and!; [done..|].
      intros l c Hl Hc. apply Hall'; [lia|done|]. lia.
  - intros [] s' (rq & -> & Hrd & Hall). apply HQ; [done|]. intros l c Hl Hc. apply Hall; lia.
Qed.

Lemma wp_arch_setup E me s (Q : unit → psci_state H → Prop) :
  (∀ s', upto s s' → Q tt s') → wp E psci_arch_setup me s Q.
Proof.
  intros HQ. unfold psci_arch_setup.
  apply wp_bind, wp_emit. intros s1 ?. apply wp_bind, wp_emit. intros s2 ?.
  apply wp_bind, wp_emit. intros s3 ?. apply wp_emit. intros s4 ?.
  apply HQ. by do 3 (etrans; [done|]).
Qed.

Lemma wp_flush_var E me s (Q : unit → psci_state H → Prop) :
  (∀ s', upto s s' → Q tt s') → wp E psci_flush_dcache_range me s Q.
Proof.
  intros HQ. unfold psci_flush_dcache_range. apply wp_when; intros _; [by apply wp_emit|].
  apply HQ. reflexivity.
Qed.

(** What psci_setup() needs of the platform. *)
Record boot_ok (boot : Z) : Prop := {
  bo_desc : desc_wf (plat_get_power_domain_tree_desc (H:=H)) = true;
  bo_boot : 0 ≤ boot < desc_ncpus (plat_get_power_domain_tree_desc (H:=H));
  bo_setup_safe ep : hook_safe (plat_setup_psci_ops (H:=H) ep);
  bo_ops ep h o h' : plat_setup_psci_ops ep boot h = HRet o h' → ∃ ops, o = Some ops ∧ ops_ok ops;
}.

(** The state the boot CPU runs psci_set_pwr_domains_to_run() in, once the
    hooks and capabilities that are set later are filled in. *)
Lemma inv_before_run T ops s rq N0 N cpus data C me m :
  cpus_built N0 N cpus (psci_cpu_pd_nodes s) data (psci_svc_cpu_data s) C →
  topo_wf T → tp_cores T = C → req_dims rq →
  (∀ l c, 1 ≤ l ≤ PLAT_MAX_PWR_LVL → 0 ≤ c < C → req_at rq l c = Some PLAT_MAX_OFF_STATE) →
  zlen (warmboot_ep_info s) = PLATFORM_CORE_COUNT →
  psci_locks s = replicate (length (tp_nodes T)) false →
  (∀ c n, zget (psci_cpu_pd_nodes s) c = Some n → cpu_lock n = false) →
  (∀ c d, zget (psci_svc_cpu_data s) c = Some d → aff_info_state d = AFF_STATE_ON) →
  psci_spd_pm s = None → 0 ≤ me < C →
  ∀ nodes cn, zget cpus me = Some cn →
  let s' := set_psci_plat_core_count C (set_psci_non_cpu_pd_nodes nodes
     (set_psci_cpu_pd_nodes (zset cpus me (with_mpidr m cn)) (set_psci_svc_cpu_data data
     (set_psci_req_local_pwr_states rq (set_psci_plat_pm_ops (Some ops)
     (set_psci_caps (caps_of_ops ops) s)))))) in
  topo_of s' = T → inv T ops None (caps_of_ops ops) s'.
Proof.
  intros Hc Hw HC Hrd Hrq Heps Hlocks Hcl Hon Hspd Hme nodes cn Hcn s' HT.
  pose proof (zget_Some_range _ _ _ Hcn). pose proof ret_off_ok. pose proof max_pwr_lvl_ok. split; try done.
  - apply Hc.
  - intros c n. unfold s'. ssimpl. rewrite zget_zset by done.
    assert (∀ c n, zget cpus c = Some n → cpu_lock n = false) as Hfree.
    { intros c' n' Hn. destruct (cb_lock _ _ _ _ _ _ _ Hc c' n' Hn) as (n0 & Hn0 & ->). by eapply Hcl. }
    case_decide; [|apply Hfree]. intros [= <-]. exact (Hfree me cn Hcn).
  - intros c l p Hcc Hl _ Hr. unfold s' in Hr. ssimpl. rewrite HC in Hcc. rewrite Hrq in Hr by done.
    unfold PSCI_LOCAL_STATE_RUN in Hr. simplify_eq. lia.
  - intros c d Hcc Hd. unfold s' in *. ssimpl.
    rewrite (cb_data _ _ _ _ _ _ _ Hc c d) by (done || lia).
    split; simpl; [lia|lia|done|done|done].
  - intros c d Hcc Hd. unfold s' in Hd. ssimpl. eapply Hon, (cb_rest _ _ _ _ _ _ _ Hc); [|done]. lia.
Qed.

Lemma wp_setup E ep me h :
  boot_ok me →
  (∀ h, (∃ o h', plat_setup_psci_ops ep me h = HRet o h') ∨ hook_safe (plat_setup_psci_ops (H:=H) ep) ∧ ∀ s, E s) →
  wp E (psci_setup true ep) me (psci_state_init h) (λ rc s,
    rc = 0 ∧ ∃ T ops, topo_wf T ∧ tp_cores T = desc_ncpus (plat_get_power_domain_tree_desc (H:=H)) ∧
      tree_as_described (plat_get_power_domain_tree_desc (H:=H)) T ∧
      ops_ok ops ∧ inv T ops None (caps_of_ops ops) s ∧ running me s).
Proof.
  intros Hbo HE. pose proof max_pwr_lvl_ok. pose proof core_count_ok. pose proof num_domains_ok.
  unfold psci_setup. set (s0 := psci_state_init h).
  assert (Hl1 : zlen (psci_cpu_pd_nodes s0) = PLATFORM_CORE_COUNT).
  { unfold zlen. simpl. rewrite length_replicate. lia. }
  assert (Hl2 : zlen (psci_svc_cpu_data s0) = PLATFORM_CORE_COUNT).
  { unfold zlen. simpl. rewrite length_replicate. lia. }
  apply wp_bind, wp_my_core_pos. apply wp_bind, wp_assert; [done|].
  apply wp_bind, wp_arch_setup. intros s1 Hu1.
  apply wp_bind. eapply (wp_populate s0); [|done|done|apply Hbo|].
  { destruct Hu1 as (h1 & t1 & ->). by exists h1, t1. }
  intros nodes N cpus data C s2 (h2 & t2 & ->) Hb HC HCd Hc Hshape Hcshape.
  pose proof (bo_boot _ Hbo) as Hme. rewrite <- HCd in Hme.
  apply wp_bind, wp_modify. apply wp_bind.
  eapply (wp_update_limits nodes N cpus C _ _ _ Hb Hc); [done..|].
  intros nodes' Hsh Hrange.
  pose proof (limits_topo_wf nodes N cpus C _ _ _ Hb Hc nodes' Hsh Hrange ltac:(lia)) as Hw.
  pose proof (limits_described nodes N cpus C Hb _ nodes' Hsh Hshape Hcshape) as Hdesc.
  set (T := Topo (tnode_of <$> nodes') (cpu_parent_node <$> cpus) C) in *.
  apply wp_bind, wp_gets. ssimpl.
  destruct (zget_is_Some cpus me) as [cn Hcn]; [rewrite (cb_len _ _ _ _ _ _ _ Hc); lia|].
  apply wp_bind. eapply wp_upd_cpu_node; [exact Hcn|]. ssimpl.
  set (cpus' := zset cpus me _).
  apply wp_bind, wp_init_req.
  { split; simpl.
    - unfold zlen. rewrite length_replicate. lia.
    - intros l row. unfold zget, zlen. case_decide; [|done]. intros [-> _]%lookup_replicate_1.
      rewrite length_replicate. lia. }
  { simpl. lia. }
  intros rq Hrd Hrq. ssimpl.
  match goal with |- wp _ _ _ ?x _ => set (sB := x) end.
  assert (HT : topo_of sB = T).
  { unfold sB, topo_of, T. simpl. f_equal. by eapply fmap_zset_same. }
  destruct (zget_is_Some data me) as [d Hd]; [rewrite (cb_dlen _ _ _ _ _ _ _ Hc); lia|].
  assert (Hdd : d = CpuData AFF_STATE_OFF PLAT_MAX_PWR_LVL PLAT_MAX_OFF_STATE).
  { eapply (cb_data _ _ _ _ _ _ _ Hc me); [lia|done]. }
  apply wp_bind. eapply (wp_set_run _ _ d); rewrite ?HT; [done|done|lia|done|done|].
  intros s3 (h3 & t3 & ->).
  apply wp_bind, wp_call_hook_ret; [apply HE|]. intros o h' Ho s4 (h4 & t4 & ->).
  destruct (bo_ops _ Hbo _ _ _ _ Ho) as (ops & -> & Hops).
  apply wp_bind, wp_modify. apply wp_bind, wp_assert; [done|].
  apply wp_bind, wp_flush_var. intros s5 (h5 & t5 & ->). apply wp_bind. eapply wp_some; [done|].
  apply wp_bind, wp_modify, wp_ret. split; [done|].
  exists T, ops. assert (HiC : inv T ops None (caps_of_ops ops)
    (set_psci_plat_pm_ops (Some ops) (set_psci_caps (caps_of_ops ops) sB))).
  { eapply (inv_before_run T ops (set_hw h2 (set_trace t2 s0)) rq nodes N cpus data C me); try done; try exact Hcn; try exact HT.
    - unfold zlen. simpl. rewrite length_replicate. lia.
    - simpl. f_equal. pose proof (tw_nodes _ Hw) as Hnl. unfold zlen in Hnl. simpl in Hnl. lia.
    - intros c n. simpl. unfold zget. case_decide; [|done]. by intros [-> _]%lookup_replicate_1.
    - intros c n. simpl. unfold zget. case_decide; [|done]. by intros [-> _]%lookup_replicate_1. }
  destruct (inv_up T ops None (caps_of_ops ops) Hw _ me PLAT_MAX_PWR_LVL HiC) as (Hi & _ & Hr); [done|lia|lia|].
  rewrite Hdd in *. cbn [target_pwrlvl] in *.
  split_and!; [done|by simpl; rewrite HCd|done|done|..].
  - eapply inv_proper; [|exact Hi]. symmetry. exists h5, t5. reflexivity.
  - eapply running_proper; [|exact Hr]. symmetry. exists h5, t5. reflexivity.
Qed.

(** ** Registering a Secure Payload Dispatcher *)

Lemma wp_register_spd T ops caps pm me s :
  inv T ops None caps s → caps_ok caps ops None → running me s →
  wpt (psci_register_spd_pm_hook pm) me s (λ _ s', ∃ caps', running me s' ∧
    inv T ops (Some pm) caps' s' ∧ caps_ok caps' ops (Some pm)).
Proof.
  intros Hi Hcaps Hr. unfold psci_register_spd_pm_hook.
  assert (Hset : ∀ caps', inv T ops (Some pm) caps' (set_psci_spd_pm (Some pm) (set_psci_caps caps' s))).
  { intros caps'. destruct Hi. by constructor. }
  set (c1 := if bool_decide (is_Some (svc_migrate pm)) then Z.lor caps (define_psci_cap PSCI_MIG_AARCH64) else caps).
  set (c2 := if bool_decide (is_Some (svc_migrate_info pm))
             then Z.lor (Z.lor c1 (define_psci_cap PSCI_MIG_INFO_UP_CPU_AARCH64)) (define_psci_cap PSCI_MIG_INFO_TYPE)
             else c1).
  assert (Hck : caps_ok c2 ops (Some pm)).
  { assert (∀ f, has_cap c2 f = has_cap caps f
        || bool_decide (is_Some (svc_migrate pm)) && (cap_bit PSCI_MIG_AARCH64 =? cap_bit f)
        || bool_decide (is_Some (svc_migrate_info pm)) &&
           ((cap_bit PSCI_MIG_INFO_UP_CPU_AARCH64 =? cap_bit f) || (cap_bit PSCI_MIG_INFO_TYPE =? cap_bit f))) as Hspec.
    { intros f. unfold c2. destruct (bool_decide (is_Some (svc_migrate_info pm))).
      - rewrite (has_cap_add true), (has_cap_add true). unfold c1. rewrite has_cap_add.
        by rewrite !andb_true_l, <- !orb_assoc.
      - unfold c1. rewrite has_cap_add. by rewrite andb_false_l, orb_false_r. }
    split; intros Hcap; rewrite Hspec in Hcap;
      repeat match type of Hcap with
      | context [?a =? ?b] =>
          let v := eval vm_compute in (a =? b) in change (a =? b) with v in Hcap
      end; rewrite ?orb_false_r, ?andb_false_r, ?orb_false_r in Hcap; try by apply Hcaps.
    rewrite andb_true_r, orb_true_iff, bool_decide_eq_true in Hcap. destruct Hcap as [Hcap|Hm].
    - destruct (cap_migrate _ _ _ Hcaps Hcap) as (? & ? & _). done.
    - eauto. }
  apply wp_bind, wp_modify. apply wp_bind.
  eapply (wp_mono _ _ _ _ (λ _ s', s' = set_psci_caps c1 (set_psci_spd_pm (Some pm) s))).
  { apply wp_when; intros Hb; [apply wp_modify|]; unfold c1; rewrite Hb.
    - ssimpl. by rewrite (iv_caps _ _ _ _ _ Hi).
    - rewrite <- (iv_caps _ _ _ _ _ Hi). by destruct s. }
  intros _ s1 ->.
  eapply (wp_mono _ _ _ _ (λ _ s', s' = set_psci_caps c2 (set_psci_spd_pm (Some pm) s))).
  { apply wp_when; intros Hb; [apply wp_modify|]; unfold c2; rewrite Hb; [|done].
    ssimpl. by rewrite Z.lor_assoc. }
  intros _ s2 ->. exists c2. split_and!; [exact Hr| |done].
  exact (Hset c2).
Qed.
End Boot.
