(* ===== verification/PsciSystem.v ===== *)
(** * The multiprocessor system

    CPUs that execute the operating system, wait inside a handler or are not
    running; the steps they take (an SMC, a wake-up, a warm boot, a change of
    the hardware); and what holds of every state such a system can reach from
    a cold boot. *)

From stdpp Require Import base sets list numbers list_numbers relations.
From Stdlib Require Import ZArith Lia.
From S2P Require Import Prelude PsciTypes PsciCommon PsciStat PsciPower PsciSetup PsciMain.
From S2P Require Import PsciTopo PsciCoord PsciInv PsciSafe PsciWarm PsciTree PsciBoot.
Open Scope Z_scope.
Open Scope mon_scope.

Section System.
Context `{cfg : Config} {H : Type} `{plat : !Platform H}.

Inductive cpu_ctx :=
| InOS (** executes outside the firmware *)
| Parked (k : psci_state H → res (psci_state H) Z) (** waits in a handler *)
| NotRunning. (** was never started *)

Record sys := Sys { ps : psci_state H; ctxs : list cpu_ctx }.

Inductive action :=
| ASmc (smc_fid x1 x2 x3 flags : Z) (** the OS issues an SMC *)
| AWake (** a wfi completes *)
| AWarmBoot. (** power is restored: the warm boot entry point runs *)

(** What CPU [c] does; [None] if the action is not possible for it.  Only a
    CPU whose power state is OFF can lose its context and boot warm. *)
Definition run_cpu (σ : sys) (c : Z) (a : action) : option (res (psci_state H) Z) :=
  match zget (ctxs σ) c, a with
  | Some InOS, ASmc fid x1 x2 x3 flags => Some (psci_smc_handler fid x1 x2 x3 flags c (ps σ))
  | Some (Parked k), AWake => Some (k (ps σ))
  | Some (Parked _ | NotRunning), AWarmBoot =>
      match zget (psci_svc_cpu_data (ps σ)) c with
      | Some d => if is_local_state_off (local_state d)
                  then Some ((psci_warmboot_entrypoint c;; ret 0) c (ps σ)) else None
      | None => None
      end
  | _, _ => None
  end.

(** One uninterrupted stretch of one CPU, or a change of the hardware.  An
    execution ends where a CPU panics or hands over for ever. *)
Inductive sys_step : relation sys :=
| StepRet σ c a v s :
    run_cpu σ c a = Some (Ret v s) → sys_step σ (Sys s (zset (ctxs σ) c InOS))
| StepWfi σ c a s k :
    run_cpu σ c a = Some (Wfi s k) → sys_step σ (Sys s (zset (ctxs σ) c (Parked k)))
| StepHw σ h :
    sys_step σ (Sys (set_hw h (ps σ)) (ctxs σ)).

(** Cold boot: psci_setup() on CPU [boot], the other CPUs not running. *)
Definition boot_state (boot : Z) (s : psci_state H) : sys :=
  Sys s (zset (replicate (Z.to_nat (psci_plat_core_count s)) NotRunning) boot InOS).
End System.
Arguments cpu_ctx : clear implicits.
Arguments sys : clear implicits.

Section Reach.
Context `{cfg : Config} `{cok : !ConfigOk} {H : Type} `{plat : !Platform H} `{laws : !CoordinationLaws H}.
Context (T : topo) (ops : plat_psci_ops_t H) (spd : option (spd_pm_ops_t H)) (caps : Z).
Context (Hw : topo_wf T) (Hops : ops_ok ops) (Hspd : ∀ pm, spd = Some pm → spd_ok pm).
Context (Hplat : plat_ok (H:=H)) (Hcaps : caps_ok caps ops spd).
Context (Hstat : ENABLE_PSCI_STAT = false) (Hos : PSCI_OS_INIT_MODE = false).
Abbreviation inv := (inv T ops spd caps).
Abbreviation finished := (finished T ops spd caps).
Abbreviation rgs me := (rg inv (guar T me) (stable me)).

(** What a CPU's context promises about the state. *)
Definition ctx_ok (c : Z) (x : cpu_ctx H) (s : psci_state H) : Prop :=
  match x with
  | InOS => running c s
  | Parked k => ∀ s', inv s' → stable c s s' → rgs c s' (k s') (λ s1 _ s2, finished c s1 s2)
  | NotRunning => True
  end.

Record sys_inv (σ : sys H) : Prop := {
  si_inv : inv (ps σ);
  si_len : zlen (ctxs σ) = tp_cores T;
  si_ctx c x : zget (ctxs σ) c = Some x → ctx_ok c x (ps σ);
}.

Lemma ctx_ok_stable c x s s' : stable c s s' → ctx_ok c x s → ctx_ok c x s'.
Proof.
  intros Hs. destruct x as [|k|]; simpl; [|..|done].
  - intros Hr. by eapply running_stable.
  - intros Hk s2 Hi2 Hs2. apply Hk; [done|]. by etrans.
Qed.

(** Every action of a CPU is safe. *)
Lemma run_cpu_rg σ c a r :
  sys_inv σ → run_cpu σ c a = Some r → 0 ≤ c < tp_cores T ∧
  rgs c (ps σ) r (λ s1 _ s2, finished c s1 s2).
Proof.
  intros [Hi Hlen Hctx] Hr. unfold run_cpu in Hr.
  destruct (zget (ctxs σ) c) as [x|] eqn:Hx; [|done].
  pose proof (zget_Some_range _ _ _ Hx) as Hc. rewrite Hlen in Hc. split; [done|].
  specialize (Hctx c x Hx).
  assert (Hwarm : ∀ d, zget (psci_svc_cpu_data (ps σ)) c = Some d →
            is_local_state_off (local_state d) = true →
            rgs c (ps σ) ((psci_warmboot_entrypoint c;; ret 0) c (ps σ)) (λ s1 _ s2, finished c s1 s2)).
  { intros d Hd Hoff. apply rg_bind, rg_wp. eapply wp_mono; [by eapply wp_warmboot; try apply (warm_live_any _ _ _ Hops Hspd)|].
    intros [] s' Hf. done. }
  destruct x as [|k|], a; simplify_eq.
  - by apply rg_smc_handler.
  - by apply Hctx.
  - destruct (zget (psci_svc_cpu_data (ps σ)) c) as [d|] eqn:Hd; [|done].
    destruct (is_local_state_off _) eqn:Hoff; simplify_eq. by apply (Hwarm d).
  - destruct (zget (psci_svc_cpu_data (ps σ)) c) as [d|] eqn:Hd; [|done].
    destruct (is_local_state_off _) eqn:Hoff; simplify_eq. by apply (Hwarm d).
Qed.

Lemma sys_inv_set σ c x s :
  sys_inv σ → 0 ≤ c < tp_cores T → inv s → guar T c (ps σ) s → ctx_ok c x s →
  sys_inv (Sys s (zset (ctxs σ) c x)).
Proof.
  intros [_ Hlen Hctx] Hc Hi Hg Hx. split; simpl; [done|by rewrite zlen_zset|].
  intros c' x' Hx'. rewrite zget_zset in Hx' by lia. case_decide as Hcc; [by simplify_eq|].
  eapply ctx_ok_stable; [|by apply Hctx]. apply Hg; [|done].
  rewrite <- Hlen. by eapply zget_Some_range.
Qed.

Lemma sys_inv_step σ σ' : sys_inv σ → sys_step σ σ' → sys_inv σ'.
Proof.
  intros Hsi Hstep. destruct Hstep as [σ c a v s Hr|σ c a s k Hr|σ h].
  - destruct (run_cpu_rg σ c a _ Hsi Hr) as [Hc (Hi & Hg & Hrun)]. by apply sys_inv_set.
  - destruct (run_cpu_rg σ c a _ Hsi Hr) as [Hc (Hi & Hg & Hk)]. by apply sys_inv_set.
  - assert (Hu : upto (ps σ) (set_hw h (ps σ))).
    { exists h, (trace (ps σ)). by destruct (ps σ). }
    destruct Hsi as [Hi Hlen Hctx]. split; simpl; [by rewrite <- Hu|done|].
    intros c x Hx. eapply ctx_ok_stable; [|by apply Hctx]. by rewrite <- Hu.
Qed.

Lemma sys_inv_reachable σ σ' : sys_inv σ → rtc sys_step σ σ' → sys_inv σ'.
Proof. intros Hi Hs. induction Hs; [done|]. by apply IHHs, (sys_inv_step x). Qed.

Lemma sys_inv_boot boot s :
  inv s → running boot s → 0 ≤ boot < tp_cores T → sys_inv (boot_state boot s).
Proof.
  intros Hi Hr Hb. pose proof (iv_topo _ _ _ _ _ Hi) as HT.
  assert (Hcore : psci_plat_core_count s = tp_cores T) by (by rewrite <- HT).
  split; simpl; [done| |].
  - rewrite zlen_zset. unfold zlen. rewrite length_replicate. lia.
  - intros c x Hx. rewrite zget_zset in Hx.
    + case_decide as Hc; [by simplify_eq|]. unfold zget in Hx. case_decide; [|done].
      apply lookup_replicate_1 in Hx as [-> _]. done.
    + unfold zlen. rewrite length_replicate. lia.
Qed.
End Reach.
