(* ===== verification/MtkLaws.v ===== *)
(** * The MT7981 port meets the library's contracts

    The power-state and coordination requirements of the PSCI library, proved
    of the hooks of MtkPlat, so that the theorems about the library apply to
    the firmware of this board. *)

From stdpp Require Import base gmap list vector numbers list_numbers.
From Stdlib Require Import ZArith Lia.
From S2P Require Import Prelude PsciTypes PsciCommon PsciStat PsciPower PsciTopo PsciCoord.
From S2P Require Import PsciInv PsciTree PsciBoot MtkPlat.
Open Scope Z_scope.

(** ** Coordination: the shallowest requested state *)

(** The states [n] CPUs asked for, from the pointer on, as the uint8_t they
    are, together with the deepest state. *)
Definition shallowest (deepest : Z) (states : list Z) (n : Z) : Z :=
  foldl Z.min deepest (u8 <$> zslice states 0 n).

Lemma u8_range x : 0 ≤ u8 x < 256.
Proof. by apply Z.mod_pos_bound. Qed.

Lemma zslice_cons {A} (x : A) l n : 0 < n → zslice (x :: l) 0 n = x :: zslice l 0 (n - 1).
Proof.
  intros Hn. unfold zslice. replace (Z.to_nat n) with (S (Z.to_nat (n - 1))) by lia. done.
Qed.

Lemma min_as_branch x t : (if x <? t then x else t) = Z.min t x.
Proof. destruct (Z.ltb_spec x t); lia. Qed.

Lemma foldl_min_le t l : foldl Z.min t l ≤ t.
Proof.
  revert t. induction l as [|y l IH]; intros t; simpl; [done|]. specialize (IH (Z.min t y)). lia.
Qed.

Lemma foldl_min_elem x t l : x ∈ l → foldl Z.min t l ≤ x.
Proof.
  intros Hx. revert t. induction Hx as [|x y l Hx IH]; intros t; simpl; [|by apply IH].
  pose proof (foldl_min_le (Z.min t x) l). lia.
Qed.

Lemma foldl_min_in t l : foldl Z.min t l = t ∨ foldl Z.min t l ∈ l.
Proof.
  revert t. induction l as [|y l IH]; intros t; simpl; [by left|].
  destruct (IH (Z.min t y)) as [->|Hin]; [|right; by apply list_elem_of_further].
  destruct (Z.min_spec t y) as [[_ ->]|[_ ->]]; [by left|right; apply list_elem_of_here].
Qed.

(** The do-while loop of the port and of the default implementation. *)
Lemma mtk_target_loop_spec states n t :
  0 < n ≤ zlen states → n < 2 ^ 32 → mtk_target_loop states n t = Some (shallowest t states n).
Proof.
  revert n t. induction states as [|x states IH]; intros n t Hn H32; [unfold zlen in Hn; simpl in Hn; lia|].
  cbn [mtk_target_loop]. rewrite min_as_branch, u32_small by lia. unfold shallowest.
  rewrite zslice_cons by lia. cbn [fmap list_fmap foldl].
  unfold zlen in Hn. cbn [length] in Hn. unfold cbool. destruct (Z.eqb_spec (n - 1) 0) as [He|He]; cbn [negb].
  - by rewrite He.
  - apply IH; unfold zlen; lia.
Qed.

Lemma default_target_loop_spec states n t :
  0 < n ≤ zlen states → n < 2 ^ 32 → target_pwr_state_loop states n t = Some (shallowest t states n).
Proof.
  revert n t. induction states as [|x states IH]; intros n t Hn H32; [unfold zlen in Hn; simpl in Hn; lia|].
  cbn [target_pwr_state_loop]. rewrite min_as_branch, u32_small by lia. unfold shallowest.
  rewrite zslice_cons by lia. cbn [fmap list_fmap foldl].
  unfold zlen in Hn. cbn [length] in Hn. destruct (Z.ltb_spec 0 (n - 1)) as [He|He].
  - apply IH; unfold zlen; lia.
  - by replace (n - 1) with 0 by lia.
Qed.

(** A CPU that asks for RUN makes the shallowest state RUN. *)
Lemma shallowest_run t states n i :
  0 ≤ t → 0 ≤ i < n → zget states i = Some PSCI_LOCAL_STATE_RUN →
  shallowest t states n = PSCI_LOCAL_STATE_RUN.
Proof.
  intros Ht Hi Hs. unfold shallowest, PSCI_LOCAL_STATE_RUN in *.
  assert (0 ∈ u8 <$> zslice states 0 n) as Hin.
  { apply list_elem_of_fmap. exists 0. split; [done|]. apply zslice_elem; [lia|]. exists i. split; [lia|done]. }
  pose proof (foldl_min_elem 0 t _ Hin). enough (0 ≤ foldl Z.min t (u8 <$> zslice states 0 n)) by lia.
  destruct (foldl_min_in t (u8 <$> zslice states 0 n)) as [->|Hmin]; [lia|].
  apply list_elem_of_fmap in Hmin as (y & -> & _). apply u8_range.
Qed.

#[export] Instance mtk_coordination `{cfg : Config} `{cok : !ConfigOk} `{env : MtkEnv} :
  CoordinationLaws mtk_hw.
Proof.
  pose proof ret_off_ok. split.
  - intros lvl cells n Hn H32. eexists. by apply mtk_target_loop_spec.
  - intros lvl cells n i Hn H32 Hi Hc. simpl. unfold mtk_get_target_pwr_state.
    rewrite mtk_target_loop_spec by done. f_equal. eapply shallowest_run; [lia|done|done].
Qed.

(** ** Topology *)

Lemma land_nonneg_le x m : 0 ≤ m → 0 ≤ Z.land x m ≤ m.
Proof.
  intros Hm. split; [apply Z.land_nonneg; by right|].
  destruct (Z.eq_dec m 0) as [->|]; [by rewrite Z.land_0_r|].
  assert (Z.land x m = m - Z.ldiff m x) as ->.
  { rewrite Z.sub_nocarry_ldiff.
    - apply Z.bits_inj'. intros k Hk. rewrite Z.land_spec, !Z.ldiff_spec.
      destruct (Z.testbit x k), (Z.testbit m k); done.
    - apply Z.bits_inj'. intros k Hk. rewrite !Z.ldiff_spec, Z.bits_0.
      destruct (Z.testbit x k), (Z.testbit m k); done. }
  enough (0 ≤ Z.ldiff m x) by lia. apply Z.ldiff_nonneg. by left.
Qed.

(** The affinity fields of an MPIDR below the cluster and CPU numbers. *)
Lemma mpidr_high_bits m :
  0 ≤ m < 2 ^ 64 → Z.land m (not64 (Z.lor MPIDR_CLUSTER_MASK MPIDR_CPU_MASK)) = 0 → m < 2 ^ 16.
Proof.
  intros Hm Hz. destruct (Z.lt_ge_cases m (2 ^ 16)) as [|Hge]; [done|exfalso].
  change (not64 (Z.lor MPIDR_CLUSTER_MASK MPIDR_CPU_MASK)) with (Z.shiftl (Z.ones 48) 16) in Hz.
  assert (Hs : Z.shiftr m 16 = 0).
  { apply (f_equal (λ x, Z.shiftr x 16)) in Hz. rewrite Z.shiftr_land, Z.shiftr_shiftl_l in Hz by lia.
    change (Z.shiftl (Z.ones 48) (16 - 16)) with (Z.ones 48) in Hz.
    rewrite Z.land_ones in Hz by lia. rewrite Z.mod_small in Hz; [done|].
    rewrite Z.shiftr_div_pow2 by lia. split; [apply Z.div_pos; lia|].
    apply Z.div_lt_upper_bound; lia. }
  rewrite Z.shiftr_div_pow2 in Hs by lia. apply Z.div_small_iff in Hs; lia.
Qed.

(** The port numbers the two cores of cluster 0 and refuses every other
    affinity value. *)
Lemma mtk_core_pos_spec m :
  let aff := Z.land m MPIDR_AFFINITY_MASK in
  mtk_core_pos_by_mpidr m = if decide (aff = 0 ∨ aff = 1) then aff else -1.
Proof.
  intros aff. unfold mtk_core_pos_by_mpidr. fold aff.
  assert (Haff : 0 ≤ aff < 2 ^ 64).
  { pose proof (land_nonneg_le m MPIDR_AFFINITY_MASK). unfold MPIDR_AFFINITY_MASK in *. lia. }
  unfold cbool. destruct (Z.eqb_spec (Z.land aff (not64 (Z.lor MPIDR_CLUSTER_MASK MPIDR_CPU_MASK))) 0)
    as [Hz|Hz]; cbn [negb].
  - apply mpidr_high_bits in Hz; [|done].
    unfold MPIDR_AFF1_SHIFT, MPIDR_AFF0_SHIFT, MPIDR_AFFLVL_MASK, PLATFORM_CLUSTER_COUNT,
      PLATFORM_MAX_CPUS_PER_CLUSTER.
    change 0xff with (Z.ones 8). rewrite Z.shiftr_0_r, !Z.land_ones, Z.shiftr_div_pow2 by lia.
    change (2 ^ 8) with 256. change (2 ^ 16) with 65536 in Hz.
    assert (Hd : aff / 256 < 256) by (apply Z.div_lt_upper_bound; lia).
    assert (Hd0 : 0 ≤ aff / 256) by (apply Z.div_pos; lia).
    rewrite (Z.mod_small (aff / 256)) by lia.
    pose proof (Z.div_mod aff 256). pose proof (Z.mod_pos_bound aff 256).
    repeat case_match; lia.
  - rewrite decide_False; [done|]. intros [He|He]; rewrite He in Hz; by apply Hz.
Qed.

(** ** Hooks that do not fault *)

Create HintDb hsafe.

Section HookSafety.
Context {H : Type}.

Lemma hsafe_ret {A} (a : A) : hook_safe (H:=H) (hret a).
Proof. done. Qed.

Lemma hsafe_mod f : hook_safe (H:=H) (hmod f).
Proof. done. Qed.

Lemma hsafe_get {A} (f : Z → H → A) : hook_safe (hget f).
Proof. done. Qed.

Lemma hsafe_bind {A B} (m : hook H A) (f : A → hook H B) :
  hook_safe m → (∀ a, hook_safe (f a)) → hook_safe (hbind m f).
Proof.
  intros Hm Hf me h. unfold hbind. specialize (Hm me h). destruct (m me h); try done. apply Hf.
Qed.

(** A hook that continues with something it read. *)
Lemma hsafe_get_bind {A B} (g : Z → H → A) (f : A → hook H B) :
  (∀ me h, hook_safe (f (g me h))) → hook_safe (hbind (hget g) f).
Proof. intros Hf me h. apply Hf. Qed.

Lemma hsafe_some_bind {A B} (o : option A) (f : A → hook H B) :
  is_Some o → (∀ a, o = Some a → hook_safe (f a)) → hook_safe (hbind (hsome o) f).
Proof. intros [a ->] Hf me h. by apply (Hf a). Qed.

Lemma hsafe_if {A} (b : bool) (m1 m2 : hook H A) :
  hook_safe m1 → hook_safe m2 → hook_safe (if b then m1 else m2).
Proof. by destruct b. Qed.

Lemma wsafe_wfi {A B} (m : hook H A) (k : A → hook H B) :
  hook_safe m → (∀ a, hook_safe (k a)) → whook_safe (hwfi m k).
Proof.
  intros Hm Hk me h. unfold hwfi. specialize (Hm me h). destruct (m me h); try done.
  intros h'. apply Hk.
Qed.

Lemma hsafe_panic {A} : hook_safe (H:=H) (A:=A) hpanic.
Proof. done. Qed.
End HookSafety.

#[export] Hint Resolve hsafe_ret hsafe_mod hsafe_get hsafe_bind hsafe_if wsafe_wfi hsafe_panic : hsafe.

Lemma hsafe_upd_sysregs f : hook_safe (upd_sysregs f).
Proof. done. Qed.

Lemma hsafe_poll `{env : MtkEnv} n cond : hook_safe (poll_until n cond).
Proof.
  intros me. induction n as [|n IH]; intros h; cbn [poll_until]; destruct (cond h); done.
Qed.

Lemma hsafe_mmio_rw a v : hook_safe (mmio_read_32 a) ∧ hook_safe (mmio_write_32 a v).
Proof. done. Qed.

#[export] Hint Resolve hsafe_upd_sysregs hsafe_poll : hsafe.
#[export] Hint Extern 1 (hook_safe (mmio_read_32 _)) => apply (hsafe_mmio_rw _ 0) : hsafe.
#[export] Hint Extern 1 (hook_safe (mmio_write_32 _ _)) => apply hsafe_mmio_rw : hsafe.

Lemma hsafe_spmc `{env : MtkEnv} id st mode : hook_safe (spmc_cpu_corex_onoff id st mode).
Proof.
  unfold spmc_cpu_corex_onoff. destruct (spmc_regs id) as [[ctl con] wfi].
  unfold mmio_clrbits_32, mmio_setbits_32, set_cpu_retention_control, read_sysreg. auto 15 with hsafe.
Qed.

Lemma hsafe_wdt : hook_safe mtk_wdt_soft_reset.
Proof. unfold mtk_wdt_soft_reset, wdt_rmw. auto 15 with hsafe. Qed.

#[export] Hint Resolve hsafe_spmc hsafe_wdt : hsafe.

(** Arrays of fixed size. *)
Lemma vget_is_Some {A n} (v : vec A n) i : 0 ≤ i < Z.of_nat n → is_Some (vget v i).
Proof. intros Hi. apply zget_is_Some. unfold zlen. by rewrite length_vec_to_list. Qed.

Lemma vput_is_Some {A n} (v : vec A n) i x : 0 ≤ i < Z.of_nat n → is_Some (vput v i x).
Proof. intros Hi. unfold vput. rewrite decide_True by done. by eexists. Qed.

Lemma vec_to_list_vset {A n} (v : vec A n) i x : vec_to_list (vset v i x) = <[i := x]> (vec_to_list v).
Proof. revert i. induction v as [|y n v IH]; intros [|i]; cbn; [done..|]. by rewrite IH. Qed.

Lemma vget_vput {A n} (v v' : vec A n) i x j :
  vput v i x = Some v' → vget v' j = if decide (i = j) then Some x else vget v j.
Proof.
  unfold vput. case_decide as Hi; [|done]. intros [= <-]. unfold vget. rewrite vec_to_list_vset.
  apply (zget_zset (vec_to_list v) i j x). unfold zlen. by rewrite length_vec_to_list.
Qed.

Lemma stp_is_Some {n} i a b (v : vec Z n) : 0 ≤ i → i + 1 < Z.of_nat n → is_Some (stp i a b v).
Proof.
  intros Hi Hn. unfold stp. destruct (vput_is_Some v i a) as [v' Hv]; [lia|]. rewrite Hv. apply vput_is_Some. lia.
Qed.

Lemma ldp_is_Some {n} i (v : vec Z n) : 0 ≤ i → i + 1 < Z.of_nat n → is_Some (ldp i v).
Proof.
  intros Hi Hn. unfold ldp. destruct (vget_is_Some v i) as [a Ha]; [lia|].
  destruct (vget_is_Some v (i + 1)) as [b Hb]; [lia|]. cbn. rewrite Ha. cbn. rewrite Hb. by eexists.
Qed.

#[export] Instance mt7981_config_ok a i e : @ConfigOk (mt7981_config a i e).
Proof. split; simpl; unfold PLATFORM_CLUSTER1_CORE_COUNT, PLATFORM_CLUSTER0_CORE_COUNT; lia. Qed.

Section Port.
Context (assertions instrumentation extended_id : bool) `{env : MtkEnv}.
#[local] Hint Extern 0 Config =>
  exact (mt7981_config assertions instrumentation extended_id) : typeclass_instances.

Lemma mtk_valid_mpidr m :
  is_valid_mpidr (H:=mtk_hw) m = true →
  Z.land m MPIDR_CPU_MASK = mtk_core_pos_by_mpidr m ∧
  (mtk_core_pos_by_mpidr m = 0 ∨ mtk_core_pos_by_mpidr m = 1).
Proof.
  unfold is_valid_mpidr. change (plat_core_pos_by_mpidr m) with (mtk_core_pos_by_mpidr m).
  rewrite mtk_core_pos_spec. cbv zeta.
  assert (Hcpu : Z.land m MPIDR_CPU_MASK = Z.land (Z.land m MPIDR_AFFINITY_MASK) MPIDR_CPU_MASK).
  { rewrite <- Z.land_assoc. done. }
  rewrite Hcpu. case_decide as Hd; [intros _|done].
  destruct Hd as [-> | ->]; split; auto.
Qed.

(** ** Power states *)

(** What the library asks of a power state the platform accepted. *)
Definition accepted (ps : Z) (st : psci_power_state_t) : Prop :=
  ps_dims st ∧ psci_validate_suspend_req st (psci_get_pstate_type ps) = PSCI_E_SUCCESS ∧
  (psci_get_pstate_type ps ≠ 0 → is_local_state_off (pds st 0) = true).

Lemma idle_state_search_elem states ps :
  idle_state_search states ps ≠ 0 → ps ∈ states ∧ ps ≠ 0.
Proof.
  induction states as [|x states IH]; cbn [idle_state_search]; [done|].
  destruct (Z.eqb_spec x 0); [done|]. destruct (Z.eqb_spec ps x) as [->|].
  - intros _. split; [apply list_elem_of_here|done].
  - intros Hs. destruct (IH Hs). split; [by apply list_elem_of_further|done].
Qed.

Lemma pwrlvl_range ps : 0 ≤ psci_get_pstate_pwrlvl ps ≤ 3.
Proof. unfold psci_get_pstate_pwrlvl, PSTATE_PWR_LVL_MASK. by apply land_nonneg_le. Qed.

Lemma pstate_type_range ps : psci_get_pstate_type ps = 0 ∨ psci_get_pstate_type ps = 1.
Proof.
  unfold psci_get_pstate_type, PSTATE_TYPE_MASK.
  pose proof (land_nonneg_le (Z.shiftr ps PSTATE_TYPE_SHIFT) 1). lia.
Qed.

Lemma mtk_validate_orig ps :
  ∃ rc st, plat_validate_power_state_orig ps power_state_run = Some (rc, st) ∧
    (rc = PSCI_E_INVALID_PARAMS ∨ rc = PSCI_E_SUCCESS ∧ accepted ps st).
Proof.
  unfold plat_validate_power_state_orig. pose proof (pwrlvl_range ps) as Hl.
  pose proof (pstate_type_range ps) as Ht.
  destruct (Z.ltb_spec PLAT_MAX_PWR_LVL (psci_get_pstate_pwrlvl ps)) as [|Hle];
    [by eauto 6|].
  assert (psci_get_pstate_pwrlvl ps = 0 ∨ psci_get_pstate_pwrlvl ps = 1 ∨ psci_get_pstate_pwrlvl ps = 2)
    as Hcase by (simpl in Hle; lia).
  unfold accepted.
  destruct (cbool (psci_get_pstate_id ps)); destruct Ht as [Ht | Ht]; rewrite Ht;
    destruct Hcase as [Hc | [Hc | Hc]]; rewrite Hc;
    simpl; eexists _, _; (split; [reflexivity|]); ((left; reflexivity) || (right; split_and!; done)).
Qed.

Lemma mtk_validate_ext ps :
  extended_id = true →
  ∃ rc st, plat_validate_power_state_ext ps power_state_run = Some (rc, st) ∧
    (rc = PSCI_E_INVALID_PARAMS ∨ rc = PSCI_E_SUCCESS ∧ accepted ps st).
Proof.
  intros He. unfold plat_validate_power_state_ext.
  destruct (Z.eqb_spec (idle_state_search mtk_pm_idle_states ps) 0) as [|Hs]; [by eauto 6|].
  apply idle_state_search_elem in Hs as [Hs Hz]. unfold accepted. rewrite He in *. clear He.
  unfold mtk_pm_idle_states in Hs. simpl in Hs.
  rewrite !elem_of_cons in Hs. destruct Hs as [H|[H|[H|[H|[H|Hn]]]]]; [..|done|by apply not_elem_of_nil in Hn]; subst ps;
    (eexists _, _; split; [reflexivity|]; right; split_and!; vm_compute; done).
Qed.

(** A hook that is a composition returns what its last part returns. *)
Lemma hbind_HRet {A B} (m : hook mtk_hw A) (f : A → hook mtk_hw B) me h b h' :
  hbind m f me h = HRet b h' → ∃ a h1, m me h = HRet a h1 ∧ f a me h1 = HRet b h'.
Proof. unfold hbind. destruct (m me h); naive_solver. Qed.

(** A psci_power_state_t has three cells. *)
Lemma mtk_dims st : ps_dims st → ∃ x y z la, st = PowerState [x; y; z] la.
Proof.
  unfold ps_dims, zlen. cbn [PLAT_MAX_PWR_LVL mt7981_config]. intros Hst.
  destruct st as [[|x [|y [|z [|w l]]]] la]; cbn in Hst; try lia. by eexists _, _, _, _.
Qed.

Lemma mtk_sys_suspend_eq x y z la me h :
  plat_get_sys_suspend_power_state (PowerState [x; y; z] la) me h = HRet (PowerState [2; 2; 2] la) h.
Proof.
  unfold plat_get_sys_suspend_power_state, hassert. cbn [PLAT_MAX_PWR_LVL mt7981_config].
  change (negb (2 <=? 2)) with false. by rewrite andb_false_r.
Qed.

(** The MPIDRs the port knows index the context array. *)
Lemma mtk_core_data_ok m h d :
  is_valid_mpidr (H:=mtk_hw) m = true → is_Some (get_core_data m h) ∧ is_Some (set_core_data m d h).
Proof.
  intros Hv. destruct (mtk_valid_mpidr m Hv) as [Hcpu Hpos].
  assert (Hcl : Z.shiftr (Z.land m MPIDR_CLUSTER_MASK) MPIDR_AFFINITY_BITS = 0).
  { unfold is_valid_mpidr in Hv. change (plat_core_pos_by_mpidr m) with (mtk_core_pos_by_mpidr m) in Hv.
    rewrite mtk_core_pos_spec in Hv. cbv zeta in Hv. case_decide as Hd; [|done].
    assert (Z.land m MPIDR_CLUSTER_MASK = Z.land (Z.land m MPIDR_AFFINITY_MASK) MPIDR_CLUSTER_MASK) as ->
      by (by rewrite <- Z.land_assoc).
    by destruct Hd as [-> | ->]. }
  unfold get_core_data, set_core_data. rewrite Hcl, Hcpu.
  destruct (vget_is_Some (dormant_data h) 0) as [cl Hc]; [done|]. rewrite Hc. cbn [mbind option_bind].
  split.
  - apply vget_is_Some. unfold PLATFORM_MAX_CPUS_PER_CLUSTER. lia.
  - destruct (vput_is_Some cl (mtk_core_pos_by_mpidr m) d) as [cl' ->].
    { unfold PLATFORM_MAX_CPUS_PER_CLUSTER. lia. }
    cbn [mbind option_bind]. destruct (vput_is_Some (dormant_data h) 0 cl') as [sys ->]; [done|]. by eexists.
Qed.

Lemma hsafe_save m : is_valid_mpidr (H:=mtk_hw) m = true → hook_safe (mt_platform_save_context m).
Proof.
  intros Hv. unfold mt_platform_save_context, mt_cpu_save, stop_generic_timer, mt_save_generic_timer.
  apply hsafe_get_bind. intros me h. apply hsafe_some_bind; [by apply (mtk_core_data_ok m h (CoreContext (vreplicate 8 0) 0 0 0 0))|].
  intros core _. apply hsafe_bind; [|unfold read_sysreg; auto with hsafe].
  apply hsafe_bind; [auto with hsafe|]. intros r.
  do 3 (apply hsafe_some_bind; [by apply stp_is_Some|]; intros ? _).
  apply hsafe_get_bind. intros me' h'. apply hsafe_some_bind; [by apply mtk_core_data_ok|]. auto with hsafe.
Qed.

Lemma hsafe_restore m : is_valid_mpidr (H:=mtk_hw) m = true → hook_safe (mt_platform_restore_context m).
Proof.
  intros Hv. unfold mt_platform_restore_context, mt_cpu_restore, mt_restore_generic_timer.
  apply hsafe_get_bind. intros me h. apply hsafe_some_bind; [by apply (mtk_core_data_ok m h (CoreContext (vreplicate 8 0) 0 0 0 0))|].
  intros core _. do 3 (apply hsafe_some_bind; [by apply ldp_is_Some|]; intros ? _). auto with hsafe.
Qed.

(** What the port relies on: every CPU that executes it has an MPIDR the port
    knows. *)
Context (Hmpidr : ∀ me, is_valid_mpidr (H:=mtk_hw) (mpidr_el1 me) = true).

Lemma mtk_ops_safe : ops_safe (plat_plat_pm_ops (H0:=env)).
Proof using Hmpidr.
  split; try done.
  - intros x f [= <-]. apply wsafe_wfi; unfold read_sysreg; auto with hsafe.
  - intros m _ f [= <-]. unfold mtk_plat_power_domain_on.
    apply hsafe_bind; [auto with hsafe|]. intros _.
    set (rv := if _ =? 0 then _ else _). destruct rv; auto 10 with hsafe.
  - intros st (x & y & z & la & ->)%mtk_dims f [= <-]. unfold mtk_plat_power_domain_off.
    apply hsafe_get_bind. intros me h. apply hsafe_bind; [done|]. auto with hsafe.
  - intros st (x & y & z & la & ->)%mtk_dims f [= <-]. unfold mtk_plat_power_domain_suspend.
    apply hsafe_get_bind. intros me h. apply hsafe_bind; [done|]. intros _.
    apply hsafe_bind; [by apply hsafe_save|]. intros _. do 2 (apply hsafe_bind; [done|]; intros _). done.
  - intros st (x & y & z & la & ->)%mtk_dims Hoff f [= <-]. unfold mtk_plat_power_domain_on_finish, hassert.
    assert (x = MTK_LOCAL_STATE_OFF) as ->.
    { unfold is_local_state_off, pds, MTK_LOCAL_STATE_OFF in *. simpl in Hoff. lia. }
    apply hsafe_bind; [destruct ENABLE_ASSERTIONS; done|]. intros _.
    apply hsafe_bind; [|done]. cbn. apply hsafe_bind; [done|]. unfold mtk_system_pwr_domain_resume. auto with hsafe.
  - intros st (x & y & z & la & ->)%mtk_dims f [= <-]. unfold mtk_plat_power_domain_suspend_finish.
    apply hsafe_get_bind. intros me h. apply hsafe_bind; [done|]. intros s0. apply hsafe_if; [done|].
    do 2 (apply hsafe_bind; [done|]; intros _). apply hsafe_bind; [by apply hsafe_restore|]. intros _. done.
  - intros f [= <-]. apply wsafe_wfi; auto with hsafe.
  - intros f [= <-]. apply wsafe_wfi; auto with hsafe.
  - intros v r c f [= <-]. apply wsafe_wfi; [|auto with hsafe]. unfold mmio_setbits_32. auto with hsafe.
  - intros ps _ f [= <-] me h. unfold plat_validate_power_state.
    change PSCI_EXTENDED_STATE_ID with extended_id.
    destruct (Sumbool.sumbool_of_bool extended_id) as [He|He].
    + destruct (mtk_validate_ext ps He) as (rc' & st' & Hv & _). rewrite Hv. by rewrite He.
    + destruct (mtk_validate_orig ps) as (rc' & st' & Hv & _). rewrite Hv. by rewrite He.
  - intros st (x & y & z & la & ->)%mtk_dims f [= <-] me h. by rewrite mtk_sys_suspend_eq.
Qed.

Lemma mtk_ops_ok : ops_ok (plat_plat_pm_ops (H0:=env)).
Proof using Hmpidr.
  split; try done; [apply mtk_ops_safe|..].
  - intros f m me h rc h' [= <-] Hm Hf. left. destruct (mtk_valid_mpidr _ Hm) as [Hcpu Hpos].
    unfold mtk_plat_power_domain_on in Hf. rewrite Hcpu in Hf. apply hbind_HRet in Hf as (_ & h1 & _ & Hf).
    destruct Hpos as [Hp | Hp]; rewrite Hp in Hf; cbn in Hf;
      repeat (apply hbind_HRet in Hf as (? & ? & _ & Hf)); by injection Hf.
  - intros f ps me h rc st h' [= <-] _ Hf. unfold plat_validate_power_state in Hf.
    assert (Hif : ∀ b A (x y : A), extended_id = b →
      (if PSCI_EXTENDED_STATE_ID then x else y) = (if b then x else y)) by (by intros ? ? ? ? <-).
    destruct (Sumbool.sumbool_of_bool extended_id) as [He|He]; rewrite (Hif _ _ _ _ He) in Hf; clear Hif.
    + destruct (mtk_validate_ext ps He) as (rc' & st' & Hv & Hok).
      rewrite Hv in Hf. injection Hf as -> -> _. exact Hok.
    + destruct (mtk_validate_orig ps) as (rc' & st' & Hv & Hok).
      rewrite Hv in Hf. injection Hf as -> -> _. exact Hok.
  - intros f st me h st' h' [= <-] Hst Hf.
    destruct (mtk_dims st Hst) as (x & y & z & la & ->).
    rewrite mtk_sys_suspend_eq in Hf. injection Hf as <- _.
    split_and!; [done|done|]. intros l Hl. simpl in Hl.
    assert (l = 0 ∨ l = 1 ∨ l = 2) as [-> | [-> | ->]] by lia; done.
Qed.

Lemma mtk_boot_ok boot : 0 ≤ boot < 2 → boot_ok (H:=mtk_hw) boot.
Proof using Hmpidr.
  intros Hb. split; [done|exact Hb|done|]. intros ep h o h' Hs. injection Hs as <- <-.
  eexists. split; [done|]. apply mtk_ops_ok.
Qed.

Lemma mtk_plat_ok :
  (∀ l, 0 ≤ l < CPU_MAX_PWR_DWN_OPS → is_Some (env_cpu_pwr_dwn l)) →
  (∀ l, opt_safe (env_cpu_pwr_dwn l)) → plat_ok (H:=mtk_hw).
Proof. intros He Hs. split; [exact He|exact Hs|]. intros me h. done. Qed.
End Port.

(** ** Waiting for the power controller *)

Section Poll.
Context `{env : MtkEnv}.

(** The hardware after [k] polls. *)
Definition polled (k : nat) (h : mtk_hw) : mtk_hw := Nat.iter k poll_step h.

Lemma polled_S k h : polled (S k) h = polled k (poll_step h).
Proof. unfold polled. by rewrite Nat.iter_succ_r. Qed.

(** A loop that polls until [cond] stops at the first poll that shows it. *)
Lemma poll_until_returns n cond me h :
  (∃ k, (k ≤ n)%nat ∧ cond (polled k h) = true) →
  ∃ k, (k ≤ n)%nat ∧ cond (polled k h) = true ∧ poll_until n cond me h = HRet tt (polled k h).
Proof.
  revert h. induction n as [|n IH]; intros h (k & Hk & Hc).
  - destruct k; [|lia]. exists 0%nat. cbn [poll_until]. change (polled 0 h) with h in *. by rewrite Hc.
  - cbn [poll_until]. destruct (cond h) eqn:Hh.
    + exists 0%nat. split_and!; [lia|done|done].
    + destruct k as [|k]; [change (polled 0 h) with h in Hc; congruence|].
      rewrite polled_S in Hc. destruct (IH (poll_step h)) as (j & Hj & Hcj & Hr); [exists k; split; [lia|done]|].
      exists (S j). rewrite polled_S. split_and!; [lia|done|done].
Qed.

(** What the driver relies on: a core that is powered on is acknowledged
    within the time the driver waits for. *)
Definition spmc_acknowledges : Prop := ∀ cpu h, cpu = 0 ∨ cpu = 1 →
  Z.land (reg_of (MP0_CPUx_SPMC_PWR_CON cpu) h) PWR_ON ≠ 0 →
  ∃ k, (k ≤ poll_bound)%nat ∧
    Z.land (reg_of (MP0_CPUx_SPMC_PWR_CON cpu) (polled k h)) PWR_ACK = PWR_ACK.

Definition write_reg (addr val : Z) (h : mtk_hw) : mtk_hw := set_regs (<[addr := u32 val]> (regs h)) h.

Lemma reg_of_write addr val h : reg_of addr (write_reg addr val h) = u32 val.
Proof. unfold reg_of, write_reg. simpl. by rewrite lookup_insert_eq. Qed.

(** The hardware when the wait for core [cpu] begins. *)
Definition power_on_started (cpu : Z) (h : mtk_hw) : mtk_hw :=
  let rv := if cpu =? 0 then mp0_misc_config2 else mp0_misc_config4 in
  let h := write_reg rv (secure_entrypoint h) (write_reg mp0_misc_config3 MP0_CPUCFG_64BIT h) in
  write_reg (MP0_CPUx_SPMC_PWR_CON cpu) (Z.lor (reg_of (MP0_CPUx_SPMC_PWR_CON cpu) h) PWR_ON) h.

Lemma power_on_asserted cpu h :
  Z.land (reg_of (MP0_CPUx_SPMC_PWR_CON cpu) (power_on_started cpu h)) PWR_ON ≠ 0.
Proof.
  unfold power_on_started. rewrite reg_of_write. unfold u32, PWR_ON.
  rewrite <- Z.land_ones by lia. intros Hz. apply (f_equal (λ x, Z.testbit x 1)) in Hz.
  rewrite !Z.land_spec, Z.lor_spec, Z.bits_0 in Hz. by rewrite orb_true_r in Hz.
Qed.

Lemma mtk_power_on_eq m cpu me h :
  spmc_acknowledges → Z.land m MPIDR_CPU_MASK = cpu → cpu = 0 ∨ cpu = 1 →
  ∃ k, (k ≤ poll_bound)%nat ∧ let h1 := polled k (power_on_started cpu h) in
    Z.land (reg_of (MP0_CPUx_SPMC_PWR_CON cpu) h1) PWR_ACK = PWR_ACK ∧
    mtk_plat_power_domain_on m me h =
      HRet PSCI_E_SUCCESS (set_cpu_bitmask (u32 (Z.lor (cpu_bitmask h1) (Z.shiftl 1 cpu))) h1).
Proof.
  intros Hack Hm Hcpu.
  destruct (Hack cpu (power_on_started cpu h) Hcpu (power_on_asserted cpu h)) as (k & Hk & Ha).
  destruct (poll_until_returns poll_bound
    (λ h, Z.land (reg_of (MP0_CPUx_SPMC_PWR_CON cpu) h) PWR_ACK =? PWR_ACK) me (power_on_started cpu h))
    as (j & Hj & Hc & Hr); [exists k; split; [done|by apply Z.eqb_eq]|].
  apply Z.eqb_eq in Hc. exists j. split; [done|]. cbv zeta. split; [done|].
  transitivity (match poll_until poll_bound
      (λ h, Z.land (reg_of (MP0_CPUx_SPMC_PWR_CON cpu) h) PWR_ACK =? PWR_ACK) me (power_on_started cpu h) with
    | HRet _ h' => HRet PSCI_E_SUCCESS (set_cpu_bitmask (u32 (Z.lor (cpu_bitmask h') (Z.shiftl 1 cpu))) h')
    | HDead h' => HDead h'
    | HPanic h' => HPanic h'
    | HFault => HFault
    end); [|by rewrite Hr].
  unfold mtk_plat_power_domain_on. rewrite Hm. destruct Hcpu as [-> | ->].
  all: unfold hbind; cbv beta iota delta [mmio_write_32 hmod hget]; cbn [Z.eqb].
  all: unfold spmc_cpu_corex_onoff, spmc_regs, mmio_setbits_32, hbind, mmio_read_32, mmio_write_32, hmod, hget; cbn.
  all: unfold power_on_started, write_reg, reg_of; cbn.
  all: match goal with |- context [poll_until ?n ?c ?me ?h] => destruct (poll_until n c me h) end; reflexivity.
Qed.
End Poll.
