(* ===== verification/MtkDemo.v ===== *)
(** * A concrete MT7981

    An environment in which the power controller acknowledges after one poll,
    the state after a cold boot on core 0, and the state in which core 0 has
    turned core 1 on and core 1 has booted: concrete inputs for the theorems. *)

From stdpp Require Import base gmap list vector numbers list_numbers.
From Stdlib Require Import ZArith Lia.
From S2P Require Import Prelude PsciTypes PsciCommon PsciStat PsciPower PsciSetup PsciMain.
From S2P Require Import PsciTopo PsciCoord PsciInv PsciSafe PsciWarm PsciTree PsciBoot.
From S2P Require Import PsciSystem MtkPlat MtkLaws.
Open Scope Z_scope.

(** The power controller drives PWR_ACK to follow PWR_ON. *)
Definition ack (cpu : Z) (h : mtk_hw) : mtk_hw :=
  let r := MP0_CPUx_SPMC_PWR_CON cpu in
  let v := reg_of r h in
  set_regs (<[r := if cbool (Z.land v PWR_ON) then Z.lor v PWR_ACK else Z.land v (not32 PWR_ACK)]>
              (regs h)) h.

#[export] Instance demo_env : MtkEnv := {
  poll_step := λ h, ack 1 (ack 0 h);
  poll_bound := 1;
  env_event := λ _ _ h, h;
  env_cpu_pwr_dwn := λ _, Some (λ _ h, HRet PABANDON_ACK h);
  env_stack := λ _ _, [];
  mpidr_el1 := λ me, if me =? 1 then 0x80000001 else 0x80000000;
}.

#[export] Instance demo_config : Config := mt7981_config true false false.

#[export] Instance demo_config_ok : ConfigOk.
Proof. apply mt7981_config_ok. Qed.

(** AArch64 non-secure world with EL2: SCR_EL3.{RW, HCE, NS}. *)
Definition demo_sysregs : cpu_sysregs :=
  CpuSysregs 3 1000 500 1 700 2 0x43 0x501 0x30c50830 0x30c50830 0.

Definition demo_context : core_context := CoreContext (vreplicate 8 0) 0 0 0 0.

Definition demo_hw : mtk_hw :=
  MtkHw ∅ [demo_sysregs; demo_sysregs] [# [# demo_context; demo_context]] 1 0 true.

Lemma demo_mpidr me : is_valid_mpidr (H:=mtk_hw) (mpidr_el1 me) = true.
Proof. cbn [mpidr_el1 demo_env]. by destruct (me =? 1). Qed.

Definition state_of {A} (r : res (psci_state mtk_hw) A) (s : psci_state mtk_hw) : psci_state mtk_hw :=
  match r with Ret _ s' => s' | _ => s end.

Definition returns (r : res (psci_state mtk_hw) Z) (v : Z) : bool :=
  match r with Ret a _ => a =? v | _ => false end.

Lemma returns_Ret r v s : returns r v = true → r = Ret v (state_of r s).
Proof. destruct r; simpl; try done. intros ->%Z.eqb_eq. done. Qed.

Definition demo_boot : psci_state mtk_hw :=
  let s0 := psci_state_init demo_hw in state_of (psci_setup true 0x43e01000 0 s0) s0.

(** Core 0 calls CPU_ON for core 1, which then boots warm. *)
Definition demo_on_call : M (psci_state mtk_hw) Z :=
  psci_smc_handler PSCI_CPU_ON_AARCH64 1 0x41080000 0 1.
Definition demo_pending : psci_state mtk_hw := state_of (demo_on_call 0 demo_boot) demo_boot.
Definition demo_both : psci_state mtk_hw :=
  state_of ((psci_warmboot_entrypoint 1;; ret 0)%mon 1 demo_pending) demo_pending.

Lemma demo_boot_ret : psci_setup true 0x43e01000 0 (psci_state_init demo_hw) = Ret 0 demo_boot.
Proof. apply (returns_Ret _ 0 (psci_state_init demo_hw)). vm_compute. reflexivity. Qed.

Lemma demo_pending_ret : demo_on_call 0 demo_boot = Ret 0 demo_pending.
Proof. apply (returns_Ret _ 0 demo_boot). vm_compute. reflexivity. Qed.

Lemma demo_both_ret : (psci_warmboot_entrypoint 1;; ret 0)%mon 1 demo_pending = Ret 0 demo_both.
Proof. apply (returns_Ret _ 0 demo_pending). vm_compute. reflexivity. Qed.

Lemma demo_boot_ok : boot_ok (H:=mtk_hw) 0.
Proof. by apply (mtk_boot_ok true false false demo_mpidr). Qed.

Lemma demo_plat_ok : plat_ok (H:=mtk_hw).
Proof. apply (mtk_plat_ok true false false); [intros l _; by eexists|by intros l f [= <-]]. Qed.

Lemma demo_ops_ok : ops_ok (plat_plat_pm_ops (H0:=demo_env)).
Proof. apply (mtk_ops_ok true false false demo_mpidr). Qed.

Lemma demo_boot_ops : psci_plat_pm_ops demo_boot = Some plat_plat_pm_ops.
Proof. lazy delta [demo_boot state_of] beta zeta iota. reflexivity. Qed.

Lemma demo_both_ops : psci_plat_pm_ops demo_both = Some plat_plat_pm_ops.
Proof. lazy delta [demo_both demo_pending demo_boot state_of] beta zeta iota. reflexivity. Qed.

#[global] Opaque demo_boot demo_pending demo_both.

(** This power controller acknowledges. *)
Lemma land_lor_same v a : Z.land (Z.lor v a) a = a.
Proof.
  apply Z.bits_inj'. intros k Hk. rewrite Z.land_spec, Z.lor_spec.
  by destruct (Z.testbit v k), (Z.testbit a k).
Qed.

Lemma reg_of_ack cpu h :
  Z.land (reg_of (MP0_CPUx_SPMC_PWR_CON cpu) h) PWR_ON ≠ 0 →
  Z.land (reg_of (MP0_CPUx_SPMC_PWR_CON cpu) (ack cpu h)) PWR_ACK = PWR_ACK.
Proof.
  intros Hon. unfold reg_of at 1, ack. cbn [regs set_regs]. rewrite lookup_insert_eq. cbn [default].
  unfold cbool. rewrite (proj2 (Z.eqb_neq _ 0)) by done. apply land_lor_same.
Qed.

Lemma reg_of_ack_ne cpu cpu' h :
  cpu ≠ cpu' → reg_of (MP0_CPUx_SPMC_PWR_CON cpu) (ack cpu' h) = reg_of (MP0_CPUx_SPMC_PWR_CON cpu) h.
Proof.
  intros Hne. unfold reg_of, ack. cbn [regs set_regs]. rewrite lookup_insert_ne; [done|].
  unfold MP0_CPUx_SPMC_PWR_CON. lia.
Qed.

Lemma demo_acknowledges : spmc_acknowledges.
Proof.
  intros cpu h Hcpu Hon. exists 1%nat. split; [done|]. change (polled 1 h) with (ack 1 (ack 0 h)).
  destruct Hcpu as [-> | ->].
  - rewrite reg_of_ack_ne by done. by apply reg_of_ack.
  - apply reg_of_ack. by rewrite reg_of_ack_ne.
Qed.

Lemma demo_power_on_returns : hook_returns (mtk_plat_power_domain_on 1).
Proof.
  intros me h. destruct (mtk_power_on_eq 1 1 me h demo_acknowledges) as (k & _ & _ & Heq); [done|by right|].
  by eexists _, _.
Qed.

(** The system after boot, and with both cores in the OS. *)
Definition demo_sys0 : sys mtk_hw := boot_state 0 demo_boot.
Definition demo_sys1 : sys mtk_hw := Sys demo_pending [InOS; NotRunning].
Definition demo_sys2 : sys mtk_hw := Sys demo_both [InOS; InOS].

Lemma demo_reach1 : sys_step demo_sys0 demo_sys1.
Proof.
  assert (Hc : zset (ctxs demo_sys0) 0 InOS = [@InOS mtk_hw; NotRunning]) by (vm_compute; reflexivity).
  pose proof (StepRet demo_sys0 0 (ASmc PSCI_CPU_ON_AARCH64 1 0x41080000 0 1) 0 demo_pending) as Hs.
  rewrite Hc in Hs. clear Hc.
  unfold demo_sys1. apply Hs. unfold run_cpu.
  replace (zget (ctxs demo_sys0) 0) with (Some (@InOS mtk_hw)) by (vm_compute; reflexivity).
  pose proof demo_pending_ret as Hr. unfold demo_on_call in Hr.
  change (ps demo_sys0) with demo_boot. rewrite Hr. reflexivity.
Qed.

Lemma demo_reach2 : rtc sys_step demo_sys0 demo_sys2.
Proof.
  eapply rtc_l; [apply demo_reach1|]. apply rtc_once.
  apply (StepRet demo_sys1 1 AWarmBoot 0 demo_both). unfold run_cpu, demo_sys1. cbn [ctxs ps].
  change (zget [@InOS mtk_hw; NotRunning] 1) with (Some (@NotRunning mtk_hw)). cbv iota.
  replace (zget (psci_svc_cpu_data demo_pending) 1) with (Some (CpuData AFF_STATE_ON_PENDING 2 2))
    by (vm_compute; reflexivity).
  change (is_local_state_off (local_state (CpuData AFF_STATE_ON_PENDING 2 2))) with true. cbv iota.
  rewrite demo_both_ret. reflexivity.
Qed.
