(* ===== verification/PsciReach.v ===== *)
(** * Safety of the running system

    What holds of every state the multiprocessor system reaches after a cold
    boot, whatever SMCs the operating systems on the CPUs issue, in whatever
    order the CPUs run. *)

From stdpp Require Import base sets list numbers list_numbers relations.
From Stdlib Require Import ZArith Lia.
From S2P Require Import Prelude PsciTypes PsciCommon PsciStat PsciPower PsciSetup PsciMain.
From S2P Require Import PsciTopo PsciCoord PsciInv PsciSafe PsciWarm PsciTree PsciBoot.
From S2P Require Import PsciSystem MtkPlat MtkLaws MtkDemo.
Open Scope Z_scope.
Open Scope mon_scope.

(** ** Cold boot *)

(** The states in which the boot CPU leaves BL31: after psci_setup(), and
    possibly after a Secure Payload Dispatcher registered its hooks. *)
Inductive booted `{cfg : Config} {H : Type} `{plat : !Platform H} (boot : Z)
    : option (spd_pm_ops_t H) → psci_state H → Prop :=
| BootedPlain ep h s :
    psci_setup true ep boot (psci_state_init h) = Ret 0 s → booted boot None s
| BootedSpd pm s s' :
    booted boot None s → psci_register_spd_pm_hook pm boot s = Ret tt s' →
    booted boot (Some pm) s'.

(** Neither undefined behaviour nor a failed assertion. *)
Definition sound_res {S A} (r : res S A) : Prop :=
  match r with AssertFail | Fault => False | _ => True end.

Section Reachable.
Context `{cfg : Config} `{cok : !ConfigOk} {H : Type} `{plat : !Platform H} `{laws : !CoordinationLaws H}.
Context (boot : Z) (spd : option (spd_pm_ops_t H)).
Context (Hboot : boot_ok (H:=H) boot) (Hplat : plat_ok (H:=H)).
Context (Hspd : ∀ pm, spd = Some pm → spd_ok pm).
Context (Hstat : ENABLE_PSCI_STAT = false) (Hos : PSCI_OS_INIT_MODE = false).

Lemma booted_inv s :
  booted boot spd s → ∃ T ops caps, topo_wf T ∧ ops_ok ops ∧ caps_ok caps ops spd ∧
    inv T ops spd caps s ∧ running boot s ∧ 0 ≤ boot < tp_cores T.
Proof using Hboot cok.
  assert (Hplain : ∀ s, booted boot None s → ∃ T ops caps, topo_wf T ∧ ops_ok ops ∧
    caps_ok caps ops None ∧ inv T ops None caps s ∧ running boot s ∧ 0 ≤ boot < tp_cores T).
  { intros s' Hb. inversion Hb as [ep h s'' Hs|]; subst.
    pose proof (wp_setup (λ _, True) ep boot h Hboot ltac:(right; split; [apply (bo_setup_safe _ Hboot)|done])) as Hwp. unfold wp in Hwp. rewrite Hs in Hwp.
    destruct Hwp as (_ & T & ops & Hw & HC & _ & Hops & Hi & Hr).
    exists T, ops, (caps_of_ops ops). pose proof (bo_boot _ Hboot).
    split_and!; try done; [apply caps_of_ops_ok|lia..]. }
  intros Hb. clear Hspd. destruct Hb as [ep h s Hs|pm s s' Hb Hreg]; [by apply Hplain; econstructor|].
  destruct (Hplain s Hb) as (T & ops & caps & Hw & Hops & Hcaps & Hi & Hr & Hc).
  pose proof (wp_register_spd T ops caps pm boot s Hi Hcaps Hr) as Hwp. unfold wp in Hwp.
  rewrite Hreg in Hwp. destruct Hwp as (caps' & Hr' & Hi' & Hcaps'). by exists T, ops, caps'.
Qed.

(** The invariant holds in every reachable state. *)
Lemma reachable_inv s σ :
  booted boot spd s → rtc sys_step (boot_state boot s) σ →
  ∃ T ops caps, topo_wf T ∧ ops_ok ops ∧ caps_ok caps ops spd ∧ sys_inv T ops spd caps σ.
Proof using Hboot Hplat Hspd Hstat Hos cok laws.
  intros Hb Hr. destruct (booted_inv s Hb) as (T & ops & caps & Hw & Hops & Hcaps & Hi & Hrun & Hc).
  exists T, ops, caps. split_and!; [done..|].
  eapply (sys_inv_reachable T ops spd caps); [try done..|exact Hr]. by apply sys_inv_boot.
Qed.

(** A CPU in the OS, and what runs above it. *)
Lemma reachable_running s σ c :
  booted boot spd s → rtc sys_step (boot_state boot s) σ → zget (ctxs σ) c = Some InOS →
  running c (ps σ) ∧
  ∀ l, 1 ≤ l ≤ PLAT_MAX_PWR_LVL →
    ∃ p, anc (topo_of (ps σ)) c l = Some p ∧
         nc_state (psci_non_cpu_pd_nodes (ps σ)) p = Some PSCI_LOCAL_STATE_RUN.
Proof using Hboot Hplat Hspd Hstat Hos cok laws.
  intros Hb Hr Hx. destruct (reachable_inv s σ Hb Hr) as (T & ops & caps & Hw & _ & _ & [Hi Hlen Hctx]).
  pose proof (Hctx c InOS Hx) as Hrun. simpl in Hrun. split; [done|].
  intros l Hl. rewrite (iv_topo _ _ _ _ _ Hi).
  assert (Hc : 0 ≤ c < tp_cores T) by (rewrite <- Hlen; by eapply zget_Some_range).
  destruct (tw_anc _ Hw c l Hc Hl) as (p & n & Hok). exists p. split; [apply Hok|].
  eapply running_ancestors; [done..|apply Hok].
Qed.

Lemma reachable_sound s σ c a r :
  booted boot spd s → rtc sys_step (boot_state boot s) σ → run_cpu σ c a = Some r → sound_res r.
Proof using Hboot Hplat Hspd Hstat Hos cok laws.
  intros Hb Hr Hrun. destruct (reachable_inv s σ Hb Hr) as (T & ops & caps & Hw & Hops & Hcaps & Hsi).
  destruct (run_cpu_rg T ops spd caps Hw Hops Hspd Hplat Hcaps Hstat Hos σ c a r Hsi Hrun) as [_ Hrg].
  by destruct r.
Qed.

(** C1: in builds without PSCI statistics and without OS-initiated mode
    (ENABLE_PSCI_STAT and PSCI_OS_INIT_MODE unset, as by default), for a
    platform, CPU driver and dispatcher that keep their contracts (boot_ok,
    plat_ok, spd_ok) and a platform whose coordinated state is RUN as soon as
    one request is (CoordinationLaws): in every state reachable from a cold
    boot, a CPU that executes the operating system is recorded as ON and running, and every power domain
    above it, at every level, is recorded as running: no sequence of
    CPU_SUSPEND, CPU_OFF, SYSTEM_SUSPEND or other calls by the other CPUs, in
    any interleaving, lets a cluster or the system be coordinated into a
    low-power state while one of its CPUs is in use. *)
Theorem running_cpus_keep_their_domains_running s σ c :
  booted boot spd s → rtc sys_step (boot_state boot s) σ → zget (ctxs σ) c = Some InOS →
  zget (psci_svc_cpu_data (ps σ)) c =
    Some (CpuData AFF_STATE_ON PLAT_MAX_PWR_LVL PSCI_LOCAL_STATE_RUN) ∧
  ∀ l, 1 ≤ l ≤ PLAT_MAX_PWR_LVL →
    ∃ p, anc (topo_of (ps σ)) c l = Some p ∧
         nc_state (psci_non_cpu_pd_nodes (ps σ)) p = Some PSCI_LOCAL_STATE_RUN.
Proof using Hboot Hplat Hspd Hstat Hos cok laws.
  intros Hb Hr Hx. destruct (reachable_running s σ c Hb Hr Hx) as [[Hd _] Hl]. done.
Qed.

(** C2: in the same builds (neither PSCI statistics nor OS-initiated mode, so
    that PSCI_STAT_* and SET_SUSPEND_MODE are not offered) and for platforms,
    CPU drivers and dispatchers that keep their contracts, no action any CPU
    can take in a reachable state (an SMC with any arguments, returning from a
    wfi, a warm boot) does anything C leaves undefined (a NULL hook, an access
    outside the power domain, request, CPU data or lock arrays) or fails one of
    the library's assertions. *)
Theorem handlers_never_fault s σ c a r :
  booted boot spd s → rtc sys_step (boot_state boot s) σ → run_cpu σ c a = Some r → sound_res r.
Proof using Hboot Hplat Hspd Hstat Hos cok laws. apply reachable_sound. Qed.

(** C3: in the same builds and under the same contracts, in every reachable
    state in which no CPU executes in the library (between the calls, and while
    CPUs wait in wfi inside a handler), every power domain lock and every
    CPU_ON lock is free, so no CPU can wait for ever for one of them. *)
Theorem no_lock_held_at_rest s σ :
  booted boot spd s → rtc sys_step (boot_state boot s) σ →
  (∀ i, zget (psci_locks (ps σ)) i ≠ Some true) ∧
  (∀ c n, zget (psci_cpu_pd_nodes (ps σ)) c = Some n → cpu_lock n = false).
Proof using Hboot Hplat Hspd Hstat Hos cok laws.
  intros Hb Hr. destruct (reachable_inv s σ Hb Hr) as (T & ops & caps & Hw & _ & _ & [Hi _ _]).
  split; [|apply (iv_cpu_locks _ _ _ _ _ Hi)].
  intros i Hl. rewrite (iv_locks _ _ _ _ _ Hi) in Hl. unfold zget in Hl. case_decide; [|done].
  apply lookup_replicate_1 in Hl as [? _]. done.
Qed.
End Reachable.

(** ** Concrete instances on the MT7981 *)

Lemma demo_booted : booted (H:=mtk_hw) 0 None demo_boot.
Proof. eapply BootedPlain, demo_boot_ret. Qed.

(** The invariant of the state with both cores in the OS. *)
Lemma demo_both_inv :
  ∃ T ops caps, topo_wf T ∧ ops_ok ops ∧ caps_ok caps ops None ∧ inv T ops None caps demo_both ∧
    running 0 demo_both ∧ running 1 demo_both.
Proof.
  destruct (reachable_inv 0 None demo_boot_ok demo_plat_ok ltac:(discriminate) eq_refl eq_refl
    demo_boot demo_sys2 demo_booted demo_reach2) as (T & ops & caps & Hw & Hops & Hcaps & [Hi _ Hctx]).
  exists T, ops, caps. split_and!; [done..| |].
  - exact (Hctx 0 InOS eq_refl).
  - exact (Hctx 1 InOS eq_refl).
Qed.

Lemma running_cpus_keep_their_domains_running_witness :
  zget (ctxs demo_sys2) 1 = Some InOS ∧
  zget (psci_svc_cpu_data (ps demo_sys2)) 1 =
    Some (CpuData AFF_STATE_ON PLAT_MAX_PWR_LVL PSCI_LOCAL_STATE_RUN).
Proof.
  split; [reflexivity|].
  apply (running_cpus_keep_their_domains_running 0 None demo_boot_ok demo_plat_ok
           ltac:(discriminate) eq_refl eq_refl demo_boot demo_sys2 1 demo_booted demo_reach2).
  reflexivity.
Defined.

Lemma handlers_never_fault_witness :
  ∃ r, run_cpu demo_sys2 1 (ASmc PSCI_CPU_OFF 0 0 0 1) = Some r ∧ sound_res r.
Proof.
  eexists. split; [reflexivity|].
  apply (handlers_never_fault 0 None demo_boot_ok demo_plat_ok
           ltac:(discriminate) eq_refl eq_refl demo_boot demo_sys2 1 (ASmc PSCI_CPU_OFF 0 0 0 1)
           _ demo_booted demo_reach2).
  reflexivity.
Defined.

Lemma no_lock_held_at_rest_witness :
  zlen (psci_locks (ps demo_sys2)) = 2 ∧ zget (psci_locks (ps demo_sys2)) 1 ≠ Some true.
Proof.
  split; [vm_compute; reflexivity|].
  apply (no_lock_held_at_rest 0 None demo_boot_ok demo_plat_ok
           ltac:(discriminate) eq_refl eq_refl demo_boot demo_sys2 demo_booted demo_reach2).
Defined.
