(* ===== verification/PsciSpec.v ===== *)
(** * Functional correctness of the common routines

    State coordination against its reference, construction of the power
    domain tree, lock discipline, validation of suspend requests, OS-initiated
    coordination, and the queries over all CPUs. *)

From stdpp Require Import base sets list numbers list_numbers.
From Stdlib Require Import ZArith Lia.
From S2P Require Import Prelude PsciTypes PsciCommon PsciStat PsciPower PsciSetup PsciMain.
From S2P Require Import PsciTopo PsciCoord PsciInv PsciSafe PsciTree PsciBoot MtkPlat MtkLaws.
From S2P Require Import MtkDemo PsciReach.
Open Scope Z_scope.
Open Scope mon_scope.

(** ** Coordination and setup *)

Section Coord.
Context `{cfg : Config} `{cok : !ConfigOk} {H : Type} `{plat : !Platform H}.
Implicit Types (s : psci_state H).

(** C5: platform-coordinated negotiation.  psci_do_state_coordination()
    returns, records the caller's requests for the levels up to [end_pwrlvl]
    and nothing else, and computes exactly the reference: a level gets what
    the platform makes of the requests of the CPUs below that node, unless a
    lower level stays in RUN, in which case it stays in RUN too; the CPU level
    and the levels above are left as requested. *)
Theorem coordination_meets_reference `{laws : !CoordinationLaws H} s c end_pwrlvl st me :
  topo_wf (topo_of s) → req_dims (psci_req_local_pwr_states s) →
  0 ≤ c < tp_cores (topo_of s) → 0 ≤ end_pwrlvl ≤ PLAT_MAX_PWR_LVL → ps_dims st →
  let rq' := req_levels (psci_req_local_pwr_states s) c (pds st) (Z.to_nat end_pwrlvl) in
  ∃ st', psci_do_state_coordination c end_pwrlvl st me s = Ret st' (set_psci_req_local_pwr_states rq' s) ∧
    ps_dims st' ∧ last_at_pwrlvl st' = last_at_pwrlvl st ∧
    ∀ l, 0 ≤ l ≤ PLAT_MAX_PWR_LVL →
      pds st' l = coord_ref (H:=H) (topo_of s) rq' c end_pwrlvl st l.
Proof.
  intros Hw Hd Hc Hend Hst rq'.
  destruct (wp_total (psci_do_state_coordination c end_pwrlvl st) me s
    (λ st' s', s' = set_psci_req_local_pwr_states rq' s ∧ ps_dims st' ∧
      last_at_pwrlvl st' = last_at_pwrlvl st ∧ ∀ l, 0 ≤ l ≤ PLAT_MAX_PWR_LVL →
      pds st' l = coord_ref (H:=H) (topo_of s) rq' c end_pwrlvl st l)) as (st' & s' & Heq & -> & HQ).
  { by apply wp_do_coordination. }
  by exists st'.
Qed.

(** C6: cold boot.  For every well-formed breadth-first description of the
    power domains, if the platform's setup hook returns, psci_setup() returns
    0.  The node arrays then hold the tree described: the non-CPU nodes have,
    in order, the parents and levels that expanding the child counts level by
    level from the top gives, and the CPUs the parents that the last level
    gives.  In it every CPU has an ancestor at every level, and each such node
    records exactly the contiguous range of CPUs below it and has a lock of its
    own; all the CPUs described are counted; and the boot CPU is ON with every
    domain above it running. *)
Theorem setup_builds_the_tree ep boot h :
  boot_ok (H:=H) boot →
  (∀ h, ∃ o h', plat_setup_psci_ops ep boot h = HRet o h') →
  ∃ s, psci_setup true ep boot (psci_state_init h) = Ret 0 s ∧
    topo_wf (topo_of s) ∧
    tree_as_described (plat_get_power_domain_tree_desc (H:=H)) (topo_of s) ∧
    psci_plat_core_count s = desc_ncpus (plat_get_power_domain_tree_desc (H:=H)) ∧
    running boot s ∧
    (∀ l, 1 ≤ l ≤ PLAT_MAX_PWR_LVL → ∃ p, anc (topo_of s) boot l = Some p ∧
       nc_state (psci_non_cpu_pd_nodes s) p = Some PSCI_LOCAL_STATE_RUN) ∧
    ∃ ops, psci_plat_pm_ops s = Some ops ∧ psci_caps s = caps_of_ops ops.
Proof.
  intros Hb Hh. destruct (wp_total (psci_setup true ep) boot (psci_state_init h) _
    (wp_setup (λ _, False) ep boot h Hb ltac:(by left))) as (rc & s & Heq & -> & T & ops & Hw & HC & Hdesc & Hops & Hi & Hr).
  pose proof (iv_topo _ _ _ _ _ Hi) as HT. exists s. rewrite HT. split_and!; [done|done|done| |done| |].
  - rewrite <- HC, <- HT. done.
  - pose proof (bo_boot _ Hb). intros l Hl. destruct (tw_anc _ Hw boot l) as (p & n & Hok); [lia|done|].
    exists p. split; [apply Hok|]. eapply running_ancestors; [done|done|lia|done|apply Hok].
  - exists ops. split; apply Hi.
Qed.
End Coord.

Lemma demo_topo_wf : topo_wf (topo_of demo_both).
Proof. destruct demo_both_inv as (T & ops & caps & Hw & _ & _ & Hi & _). by rewrite (iv_topo _ _ _ _ _ Hi). Qed.

Lemma demo_req_dims : req_dims (psci_req_local_pwr_states demo_both).
Proof. destruct demo_both_inv as (T & ops & caps & Hw & _ & _ & Hi & _). apply Hi. Qed.

(** Core 1 asks to power everything off while core 0 runs: only core 1's own
    level is powered off. *)
Lemma coordination_meets_reference_witness :
  ∃ st', psci_do_state_coordination 1 2 (PowerState [2; 2; 2] 0) 1 demo_both =
    Ret st' (set_psci_req_local_pwr_states [[0; 2]; [0; 2]] demo_both) ∧ pds st' 1 = 0 ∧ pds st' 2 = 0.
Proof.
  destruct (coordination_meets_reference demo_both 1 2 (PowerState [2; 2; 2] 0) 1)
    as (st' & Heq & _ & _ & Hp).
  - exact demo_topo_wf.
  - exact demo_req_dims.
  - vm_compute. split; [discriminate|reflexivity].
  - vm_compute. split; discriminate.
  - reflexivity.
  - exists st'. rewrite (Hp 1), (Hp 2) by (vm_compute; split; discriminate).
    split; [|vm_compute; split; reflexivity]. rewrite Heq. do 2 f_equal.
Defined.

Lemma setup_builds_the_tree_witness :
  ∃ s, psci_setup (plat:=mtk_platform) true 0x43e01000 0 (psci_state_init demo_hw) = Ret 0 s ∧
    topo_wf (topo_of s) ∧ take 2 ((λ t, (tn_parent t, tn_level t)) <$> tp_nodes (topo_of s)) = [(2 ^ 32 - 1, 2); (0, 1)] ∧
    psci_plat_core_count s = 2.
Proof.
  destruct (setup_builds_the_tree (H:=mtk_hw) 0x43e01000 0 demo_hw demo_boot_ok) as (s & Heq & Hw & Hd & Hc & _).
  - intros h. eexists _, _. reflexivity.
  - exists s. split; [exact Heq|]. split; [exact Hw|]. split; [exact (proj1 Hd)|exact Hc].
Defined.

(** ** Lock discipline *)

Section Locks.
Context `{cfg : Config} {H : Type} `{plat : !Platform H}.
Implicit Types (s : psci_state H).

(** [s] with other locks and a longer record of calls. *)
Definition lock_state (L : list bool) (t : list event) s s' : Prop :=
  ∃ h, s' = set_hw h (set_trace t (set_psci_locks L s)).

Lemma wp_lock_get_trace E p n L t me s s' (Q : unit → psci_state H → Prop) :
  lock_state L t s s' → zget (psci_non_cpu_pd_nodes s) p = Some n → lock_index n = p →
  zget L p = Some false →
  (∀ s'', lock_state (zset L p true) (EvLockGet p :: t) s s'' → Q tt s'') →
  wp E (psci_lock_get p) me s' Q.
Proof.
  intros (h & ->) Hn Hli Hl HQ. unfold psci_lock_get. apply wp_bind.
  eapply wp_get_non_cpu_node; [done|]. rewrite Hli.
  apply wp_bind, wp_gets, wp_bind. eapply wp_some; [done|].
  apply wp_bind. unfold wp, emit, modify. apply HQ. eexists. reflexivity.
Qed.

Lemma wp_lock_release_trace E p n b L t me s s' (Q : unit → psci_state H → Prop) :
  lock_state L t s s' → zget (psci_non_cpu_pd_nodes s) p = Some n → lock_index n = p →
  zget L p = Some b →
  (∀ s'', lock_state (zset L p false) (EvLockRelease p :: t) s s'' → Q tt s'') →
  wp E (psci_lock_release p) me s' Q.
Proof.
  intros (h & ->) Hn Hli Hl HQ. unfold psci_lock_release. apply wp_bind.
  eapply wp_get_non_cpu_node; [done|]. rewrite Hli.
  apply wp_bind, wp_gets, wp_bind. eapply wp_some; [done|].
  apply wp_bind. unfold wp, emit, modify. apply HQ. eexists. reflexivity.
Qed.

Section Chain.
Context (s : psci_state H) (c l : Z).
Let T := topo_of s.
Context (Hw : topo_wf T) (Hc : 0 ≤ c < tp_cores T) (Hl : 0 ≤ l ≤ PLAT_MAX_PWR_LVL).
Context (Hlen : zlen (psci_locks s) = zlen (tp_nodes T)).

Lemma ancs_in_locks k : k ≤ PLAT_MAX_PWR_LVL → Forall (λ i, 0 ≤ i < zlen (psci_locks s)) (ancs T c k).
Proof using Hw Hc Hlen.
  intros Hk. rewrite Forall_forall. intros i. rewrite (elem_of_ancs T) by done.
  intros (j & Hj & Ha). destruct (tw_anc _ Hw c j) as (p & n & Hok); [done|lia|].
  pose proof (ao_anc _ _ _ _ _ Hok). simplify_eq. rewrite Hlen. eapply zget_Some_range, Hok.
Qed.

Lemma wp_acquire_trace E me (Q : unit → psci_state H → Prop) :
  Forall (λ i, zget (psci_locks s) i = Some false) (ancs T c l) →
  (∀ s', lock_state (lock_all true (ancs T c l) (psci_locks s))
           (rev (EvLockGet <$> ancs T c l) ++ trace s) s s' → Q tt s') →
  wp E (psci_acquire_pwr_domain_locks l (ancs T c l)) me s Q.
Proof using Hw Hc Hl Hlen.
  intros Hfree HQ. unfold psci_acquire_pwr_domain_locks, PSCI_CPU_PWR_LVL.
  eapply (wp_for_to _ (λ i _ s', lock_state (lock_all true (ancs T c (i - 1)) (psci_locks s))
            (rev (EvLockGet <$> ancs T c (i - 1)) ++ trace s) s s')).
  - exists (hw s). by destruct s.
  - intros i [] s' Hi Hls. destruct (topo_anc s c i Hw Hc) as (p & n & Hok & Hn & _); [lia|].
    pose proof (ao_anc _ _ _ _ _ Hok) as Ha. fold T in Ha, Hok.
    apply wp_bind. eapply wp_some.
    { apply zget_ancs_ok; [lia|]. by replace (i - 1 + 1) with i by lia. }
    eapply wp_lock_get_trace; [exact Hls|done|apply Hok| |].
    + rewrite zget_lock_all by (apply ancs_in_locks; lia). rewrite decide_False.
      { rewrite Forall_forall in Hfree. apply Hfree. rewrite (elem_of_ancs T) by (done || lia). eauto with lia. }
      rewrite (elem_of_ancs T) by (done || lia). intros (k & Hk & Ha').
      enough (k = i) by lia. by eapply (anc_inj_level T c c); try lia.
    + intros s'' Hs''. replace (i + 1 - 1) with i by lia.
      rewrite (ancs_snoc T c i p), fmap_app, rev_app_distr, lock_all_app by (done || lia). exact Hs''.
  - intros [] s' Hs'. replace (Z.max (0 + 1) (l + 1) - 1) with l in Hs' by lia. by apply HQ.
Qed.

Lemma wp_release_trace E (k : nat) L t me s' (Q : unit → psci_state H → Prop) :
  Z.of_nat k ≤ l → lock_state L t s s' → zlen L = zlen (tp_nodes T) →
  (∀ s'', lock_state (lock_all false (rev (ancs T c (Z.of_nat k))) L)
            ((EvLockRelease <$> ancs T c (Z.of_nat k)) ++ t) s s'' → Q tt s'') →
  wp E (release_from k (ancs T c l)) me s' Q.
Proof using Hw Hc Hl Hlen.
  revert L t s'. induction k as [|k IH]; intros L t s' Hk Hls HL HQ; [by apply wp_ret, HQ|].
  cbn [release_from].
  destruct (topo_anc s c (Z.of_nat (S k)) Hw Hc) as (p & n & Hok & Hn & _); [lia|].
  pose proof (ao_anc _ _ _ _ _ Hok) as Ha. fold T in Ha, Hok.
  apply wp_bind. eapply wp_some.
  { apply zget_ancs_ok; [lia|]. by replace (Z.of_nat (S k) - 1 + 1) with (Z.of_nat (S k)) by lia. }
  destruct (zget_is_Some L p) as [b Hb]; [rewrite HL; eapply zget_Some_range, Hok|].
  apply wp_bind. eapply wp_lock_release_trace; [exact Hls|done|apply Hok|done|].
  intros s'' Hs''. eapply IH; [lia|exact Hs''|by rewrite zlen_zset|].
  intros s3 Hs3. apply HQ. rewrite (ancs_snoc T c (Z.of_nat (S k)) p) by (done || lia).
  replace (Z.of_nat (S k) - 1) with (Z.of_nat k) by lia.
  rewrite rev_unit, fmap_app, <- app_assoc. exact Hs3.
Qed.
End Chain.

(** C7: lock discipline.  From free locks, taking the locks of a CPU's power
    domains up to a level and releasing them returns, takes exactly the locks
    of the CPU's ancestors, from the lowest level to the highest, releases
    them in the opposite order, and leaves the library's state as it was. *)
Theorem locks_nest_in_level_order s c l me :
  topo_wf (topo_of s) → 0 ≤ c < tp_cores (topo_of s) → 0 ≤ l ≤ PLAT_MAX_PWR_LVL →
  zlen (psci_locks s) = zlen (tp_nodes (topo_of s)) →
  Forall (λ i, zget (psci_locks s) i = Some false) (ancs (topo_of s) c l) →
  let chain := ancs (topo_of s) c l in
  ∃ h, (nodes ← psci_get_parent_pwr_domain_nodes c l;
        psci_acquire_pwr_domain_locks l nodes;; psci_release_pwr_domain_locks l nodes) me s =
    Ret tt (set_hw h (set_trace
      ((EvLockRelease <$> chain) ++ rev (EvLockGet <$> chain) ++ trace s) s)).
Proof.
  intros Hw Hc Hl Hlen Hfree chain.
  destruct (wp_total (nodes ← psci_get_parent_pwr_domain_nodes c l;
     psci_acquire_pwr_domain_locks l nodes;; psci_release_pwr_domain_locks l nodes) me s
     (λ _ s', ∃ h, s' = set_hw h (set_trace
        ((EvLockRelease <$> chain) ++ rev (EvLockGet <$> chain) ++ trace s) s)))
    as ([] & s' & Heq & h & ->); [|by exists h].
  apply wp_bind, wp_get_parents; [done..|]. apply wp_bind.
  eapply wp_acquire_trace; [done..|]. intros s1 Hs1. unfold psci_release_pwr_domain_locks.
  eapply (wp_release_trace s c l Hw Hc Hl Hlen _ (Z.to_nat l)); [lia|exact Hs1|by rewrite zlen_lock_all|].
  rewrite Z2Nat.id by lia. intros s2 (h & ->). exists h.
  rewrite lock_unlock; [by destruct s|done|]. intros i. rewrite rev_alt. apply elem_of_reverse.
Qed.
End Locks.

Lemma locks_nest_in_level_order_witness :
  ∃ h, (nodes ← psci_get_parent_pwr_domain_nodes 1 2;
        psci_acquire_pwr_domain_locks 2 nodes;; psci_release_pwr_domain_locks 2 nodes) 1 demo_both =
    Ret tt (set_hw h (set_trace
      ([EvLockRelease 1; EvLockRelease 0; EvLockGet 0; EvLockGet 1] ++ trace demo_both) demo_both)).
Proof.
  destruct (locks_nest_in_level_order demo_both 1 2 1) as [h Heq].
  - exact demo_topo_wf.
  - vm_compute. split; [discriminate|reflexivity].
  - vm_compute. split; discriminate.
  - vm_compute. reflexivity.
  - vm_compute. repeat constructor.
  - exists h. rewrite Heq. do 3 f_equal.
Defined.

(** ** Validation of suspend requests *)

Lemma find_down_spec n P i :
  find_down n P = Some i ↔ 0 ≤ i < Z.of_nat n ∧ P i = true ∧ ∀ j, i < j < Z.of_nat n → P j = false.
Proof.
  induction n as [|n IH]; cbn [find_down]; [split; [done|lia]|].
  destruct (P (Z.of_nat n)) eqn:Hn.
  - split.
    + intros [= <-]. split_and!; [lia|lia|done|lia].
    + intros (Hi & HP & Hall). f_equal. destruct (Z.lt_ge_cases i (Z.of_nat n)) as [Hlt|]; [|lia].
      rewrite Hall in Hn by lia. done.
  - rewrite IH. split; intros (Hi & HP & Hall); split_and!; try done; try lia.
    + intros j Hj. destruct (decide (j = Z.of_nat n)) as [->|]; [done|]. apply Hall. lia.
    + destruct (decide (i = Z.of_nat n)) as [->|]; [congruence|lia].
    + intros j Hj. apply Hall. lia.
Qed.

Lemma find_down_None n P : find_down n P = None ↔ ∀ j, 0 ≤ j < Z.of_nat n → P j = false.
Proof.
  induction n as [|n IH]; cbn [find_down]; [split; [intros; lia|done]|].
  destruct (P (Z.of_nat n)) eqn:Hn.
  - split; [done|]. intros Hall. rewrite Hall in Hn by lia. done.
  - rewrite IH. split; intros Hall j Hj; [|apply Hall; lia].
    destruct (decide (j = Z.of_nat n)) as [->|]; [done|]. apply Hall. lia.
Qed.

Section SuspendReq.
Context `{cfg : Config} `{cok : !ConfigOk}.

Abbreviation depth st k := (state_type_code (find_local_state_type (pds st k))).

(** [t] is the highest level that does not stay in RUN. *)
Definition is_target_lvl (st : psci_power_state_t) (t : Z) : Prop :=
  0 ≤ t ≤ PLAT_MAX_PWR_LVL ∧ pds st t ≠ PSCI_LOCAL_STATE_RUN ∧
  ∀ k, t < k ≤ PLAT_MAX_PWR_LVL → pds st k = PSCI_LOCAL_STATE_RUN.

Lemma find_target_spec st t :
  is_target_lvl st t ↔ psci_find_target_suspend_lvl st = t ∧ t ≠ PSCI_INVALID_PWR_LVL.
Proof.
  pose proof max_pwr_lvl_ok as Hmax. unfold psci_find_target_suspend_lvl, is_target_lvl, PSCI_INVALID_PWR_LVL.
  assert (Hrun : ∀ v, negb (is_local_state_run v) = false ↔ v = PSCI_LOCAL_STATE_RUN).
  { intros v. unfold is_local_state_run. rewrite negb_false_iff. apply Z.eqb_eq. }
  assert (Hno : ∀ v, negb (is_local_state_run v) = true ↔ v ≠ PSCI_LOCAL_STATE_RUN).
  { intros v. rewrite <- Hrun. by destruct (negb _). }
  destruct (find_down _ _) as [i|] eqn:Hf; cbn [default from_option id].
  - apply find_down_spec in Hf as (Hi & HP & Hall). rewrite Hno in HP. split.
    + intros (Ht & Hne & Hup). split; [|lia].
      destruct (Z.lt_trichotomy i t) as [Hlt|[->|Hlt]]; [|done|].
      * exfalso. apply Hne, Hrun, Hall. lia.
      * exfalso. apply HP, Hup. lia.
    + intros [<- _]. split_and!; [lia|lia|done|]. intros k Hk. apply Hrun, Hall. lia.
  - rewrite find_down_None in Hf. split.
    + intros (Ht & Hne & _). exfalso. apply Hne, Hrun, Hf. lia.
    + intros [<- ?]. done.
Qed.

Lemma find_max_off_none st :
  psci_find_max_off_lvl st = PSCI_INVALID_PWR_LVL ↔
  ∀ k, 0 ≤ k ≤ PLAT_MAX_PWR_LVL → is_local_state_off (pds st k) = false.
Proof.
  pose proof max_pwr_lvl_ok. unfold psci_find_max_off_lvl, PSCI_INVALID_PWR_LVL.
  destruct (find_down _ _) as [i|] eqn:Hf; cbn [default from_option id].
  - apply find_down_spec in Hf as (Hi & HP & _). split; [lia|]. intros Hall. rewrite Hall in HP by lia. done.
  - rewrite find_down_None in Hf. split; [|done]. intros _ k Hk. apply Hf. lia.
Qed.

(** No level asks for a shallower kind of state than the level above it. *)
Lemma suspend_req_levels_spec n d st :
  suspend_req_levels_ok n d st = true ↔
  (∀ k, k = Z.of_nat n - 1 → 0 ≤ k → state_type_code d ≤ depth st k) ∧
  (∀ k, 0 ≤ k < Z.of_nat n - 1 → depth st (k + 1) ≤ depth st k).
Proof.
  revert d. induction n as [|n IH]; intros d; cbn [suspend_req_levels_ok]; [split; [split; lia|done]|].
  destruct (Z.ltb_spec (depth st (Z.of_nat n)) (state_type_code d)) as [Hlt|Hge].
  - split; [done|]. intros [Hd _]. specialize (Hd (Z.of_nat n)). lia.
  - rewrite IH. split; intros [H1 H2]; split.
    + intros k -> Hk. by replace (Z.of_nat (S n) - 1) with (Z.of_nat n) by lia.
    + intros k Hk. destruct (decide (k = Z.of_nat n - 1)) as [->|]; [|apply H2; lia].
      replace (Z.of_nat n - 1 + 1) with (Z.of_nat n) by lia. apply H1; lia.
    + intros k -> Hk. replace (Z.of_nat n) with (Z.of_nat n - 1 + 1) at 1 by lia. apply H2. lia.
    + intros k Hk. apply H2. lia.
Qed.

(** C8: psci_validate_suspend_req() accepts exactly the power states in which
    some level leaves RUN, no level asks for a shallower kind of state (run,
    retention, off) than the level above it, and, for a standby request, no
    level is powered off; everything else is PSCI_E_INVALID_PARAMS. *)
Theorem suspend_req_accepted_iff st is_power_down_state :
  (psci_validate_suspend_req st is_power_down_state = PSCI_E_SUCCESS ∨
   psci_validate_suspend_req st is_power_down_state = PSCI_E_INVALID_PARAMS) ∧
  (psci_validate_suspend_req st is_power_down_state = PSCI_E_SUCCESS ↔
   (∃ t, is_target_lvl st t ∧ ∀ k, 0 ≤ k < t → depth st (k + 1) ≤ depth st k) ∧
   (is_power_down_state = 0 →
      ∀ k, 0 ≤ k ≤ PLAT_MAX_PWR_LVL → is_local_state_off (pds st k) = false)).
Proof.
  pose proof max_pwr_lvl_ok as Hmax. unfold psci_validate_suspend_req. set (t := psci_find_target_suspend_lvl st).
  destruct (Z.eqb_spec t PSCI_INVALID_PWR_LVL) as [Ht|Ht].
  { split; [by right|]. split; [done|]. intros [(t' & Ht' & _) _].
    apply find_target_spec in Ht' as [<- Ht']. done. }
  assert (Htgt : is_target_lvl st t) by (by apply find_target_spec).
  assert (Huniq : ∀ t', is_target_lvl st t' → t' = t).
  { intros t' Ht'. apply find_target_spec in Ht' as [<- _]. done. }
  pose proof (suspend_req_levels_spec (Z.to_nat (t + 1)) STATE_TYPE_RUN st) as Hlv.
  destruct Htgt as [Hr Htgt]. replace (Z.of_nat (Z.to_nat (t + 1)) - 1) with t in Hlv by lia.
  destruct (suspend_req_levels_ok _ _ _); cbn [negb].
  - destruct Hlv as [Hlv _]. destruct (Hlv eq_refl) as [_ Hmono].
    assert (Hex : ∃ t, is_target_lvl st t ∧ ∀ k, 0 ≤ k < t → depth st (k + 1) ≤ depth st k) by by exists t.
    assert (Hoff : psci_find_max_off_lvl st = PSCI_INVALID_PWR_LVL ↔
      ∀ k, 0 ≤ k ≤ PLAT_MAX_PWR_LVL → is_local_state_off (pds st k) = false) by apply find_max_off_none.
    destruct (Z.eqb_spec is_power_down_state 0) as [->|Hpd]; cbn [andb].
    + destruct (Z.eqb_spec (psci_find_max_off_lvl st) PSCI_INVALID_PWR_LVL) as [Hm|Hm]; cbn [negb orb].
      * rewrite Hm. rewrite (proj2 (Z.eqb_neq t _)) by done. cbn [negb]. rewrite (proj2 (Z.eqb_neq t _)) by done.
        split; [by left|]. split; [|done]. intros _. split; [done|]. intros _. by apply Hoff.
      * split; [by right|]. split; [done|]. intros [_ Hall]. exfalso. by apply Hm, Hoff, Hall.
    + split; [by left|]. split; [|done]. intros _. split; [done|]. by intros ->.
  - split; [by right|]. split; [done|]. intros [(t' & Ht' & Hmono) _].
    rewrite (Huniq _ Ht') in Hmono. exfalso.
    assert (false = true) as [=]. apply Hlv. split; [|done].
    intros k -> _. unfold find_local_state_type. by repeat case_match.
Qed.
End SuspendReq.

(** Powering down a core and its cluster is accepted. *)
Lemma suspend_req_accepted_iff_witness :
  psci_validate_suspend_req (PowerState [2; 2; 0] 0) 1 = PSCI_E_SUCCESS.
Proof.
  apply (suspend_req_accepted_iff (PowerState [2; 2; 0] 0) 1). split; [|discriminate].
  exists 1. split; [split; [vm_compute; split; discriminate|]|].
  - split; [discriminate|]. intros k Hk. change PLAT_MAX_PWR_LVL with 2 in Hk.
    replace k with 2 by lia. reflexivity.
  - intros k Hk. replace k with 0 by lia. vm_compute. discriminate.
Defined.

(** ** OS-initiated coordination *)

Section OsInit.
Context `{cfg : Config} `{cok : !ConfigOk} {H : Type} `{plat : !Platform H} `{laws : !CoordinationLaws H}.
Implicit Types (s : psci_state H).

(** What the caller asks for level [l] when its request ends at [end_pwrlvl]. *)
Definition os_request (st : psci_power_state_t) (end_pwrlvl l : Z) : Z :=
  pds st (if l <=? end_pwrlvl then l else end_pwrlvl).

Lemma req_levels_restore rq c f g n :
  req_dims rq → Z.of_nat n ≤ PLAT_MAX_PWR_LVL → 0 ≤ c < PLATFORM_CORE_COUNT →
  (∀ l, 1 ≤ l ≤ Z.of_nat n → req_at rq l c = Some (g l)) →
  req_levels (req_levels rq c f n) c g n = rq.
Proof.
  intros Hd Hn Hc Hg.
  assert (Hd1 : req_dims (req_levels rq c f n)) by (by apply req_dims_levels).
  assert (Hd2 : req_dims (req_levels (req_levels rq c f n) c g n)) by (by apply req_dims_levels).
  apply zget_ext; [by rewrite (rd_levels _ Hd), (rd_levels _ Hd2)|].
  intros i Hi. rewrite (rd_levels _ Hd2) in Hi.
  destruct (req_dims_row _ (i + 1) Hd2 ltac:(lia)) as (r2 & Hr2 & Hl2).
  destruct (req_dims_row _ (i + 1) Hd ltac:(lia)) as (r & Hr & Hl).
  assert (Hreq : ∀ k, req_at (req_levels (req_levels rq c f n) c g n) (i + 1) k = req_at rq (i + 1) k).
  { intros k. rewrite !req_at_levels by done. case_decide as Hk; [|done].
    destruct Hk as [Hk ->]. by rewrite Hg. }
  unfold req_at in Hreq. rewrite Hr, Hr2 in Hreq. replace (i + 1 - 1) with i in Hr, Hr2 by lia.
  rewrite Hr, Hr2. f_equal. apply zget_ext; [congruence|]. intros j _. apply Hreq.
Qed.

Lemma zget_drop_0 {A} (l : list A) i : 0 ≤ i → zget (drop (Z.to_nat i) l) 0 = zget l i.
Proof.
  intros Hi. unfold zget. rewrite decide_True, (decide_True (P:=0 ≤ i)), lookup_drop by lia.
  f_equal. lia.
Qed.

Section Validate.
Context (s : psci_state H) (c end_pwrlvl : Z) (st : psci_power_state_t).
Let T := topo_of s.
Let rq := psci_req_local_pwr_states s.
Context (Hw : topo_wf T) (Hd : req_dims rq) (Hc : 0 ≤ c < tp_cores T).
Context (Hend : 0 ≤ end_pwrlvl ≤ PLAT_MAX_PWR_LVL) (Hst : ps_dims st).
Context (Hmax : 0 ≤ max_suspend_pwrlvl ≤ PLAT_MAX_PWR_LVL).
Let M := Z.to_nat max_suspend_pwrlvl.
Let rq' := req_levels rq c (os_request st end_pwrlvl) M.

Lemma core_bound : 0 ≤ c < PLATFORM_CORE_COUNT.
Proof using Hw Hc. pose proof (tw_cores _ Hw). lia. Qed.

Lemma wp_update_req E prev me (Q : list Z → psci_state H → Prop) :
  zlen prev = PLAT_MAX_PWR_LVL →
  (∀ prev', zlen prev' = PLAT_MAX_PWR_LVL →
     (∀ k, 1 ≤ k ≤ max_suspend_pwrlvl → zget prev' (k - 1) = req_at rq k c) →
     Q prev' (set_psci_req_local_pwr_states rq' s)) →
  wp E (psci_update_req_local_pwr_states end_pwrlvl c st prev) me s Q.
Proof using Hw Hd Hc Hend Hst Hmax.
  intros Hp HQ. pose proof core_bound as Hcb. pose proof (tw_cores _ Hw) as Hcores.
  unfold psci_update_req_local_pwr_states, PSCI_CPU_PWR_LVL.
  eapply (wp_for_to _ (λ i prev s', zlen prev = PLAT_MAX_PWR_LVL ∧
    (∀ k, 1 ≤ k < i → zget prev (k - 1) = req_at rq k c) ∧
    s' = set_psci_req_local_pwr_states (req_levels rq c (os_request st end_pwrlvl) (Z.to_nat (i - 1))) s)).
  - split_and!; [done|lia|by destruct s].
  - intros i pv s' Hi (Hlp & Hpv & ->).
    assert (Hdi : req_dims (req_levels rq c (os_request st end_pwrlvl) (Z.to_nat (i - 1))))
      by (by apply req_dims_levels).
    destruct (req_dims_row _ i Hdi) as (row & Hr & Hlr); [lia|].
    apply wp_bind. eapply wp_get_req; [exact Hr|lia|done|].
    apply wp_bind. eapply wp_some; [done|].
    destruct (zget_is_Some row c) as [v Hv]; [lia|].
    apply wp_bind. eapply wp_some.
    { rewrite zget_drop_0 by lia. exact Hv. }
    apply wp_bind. eapply wp_some; [unfold zput; by rewrite decide_True by lia|].
    apply wp_bind. eapply wp_some.
    { apply pds_get; [done|]. destruct (i <=? end_pwrlvl); lia. }
    apply wp_bind, wp_set_req; [done|lia|done|apply Hcores|]. ssimpl. apply wp_ret.
    split_and!; [by rewrite zlen_zset| |].
    + intros k Hk. rewrite zget_zset by lia. case_decide as Hki; [|apply Hpv; lia].
      assert (k = i) as -> by lia. transitivity (req_at (req_levels rq c (os_request st end_pwrlvl) (Z.to_nat (i - 1))) i c).
      { unfold req_at. by rewrite Hr. }
      rewrite req_at_levels by (done || lia). by rewrite decide_False by lia.
    + replace (Z.to_nat (i + 1 - 1)) with (S (Z.to_nat (i - 1))) by lia. cbn [req_levels].
      by replace (Z.of_nat (S (Z.to_nat (i - 1)))) with i by lia.
  - intros pv s' (Hlp & Hpv & ->). unfold rq', M in HQ.
    replace (Z.max (0 + 1) (max_suspend_pwrlvl + 1) - 1) with max_suspend_pwrlvl by lia.
    apply HQ; [done|]. intros k Hk. apply Hpv. lia.
Qed.

Lemma wp_restore_req E prev me (Q : unit → psci_state H → Prop) :
  zlen prev = PLAT_MAX_PWR_LVL →
  (∀ k, 1 ≤ k ≤ max_suspend_pwrlvl → zget prev (k - 1) = req_at rq k c) →
  Q tt s →
  wp E (psci_restore_req_local_pwr_states c prev) me (set_psci_req_local_pwr_states rq' s) Q.
Proof using Hw Hd Hc Hmax Hend.
  intros Hlp Hpv HQ. pose proof core_bound as Hcb. pose proof (tw_cores _ Hw) as Hcores.
  set (g := λ k, default 0 (zget prev (k - 1))).
  unfold psci_restore_req_local_pwr_states, PSCI_CPU_PWR_LVL.
  eapply (wp_for_to _ (λ i _ s',
    s' = set_psci_req_local_pwr_states (req_levels rq' c g (Z.to_nat (i - 1))) s)).
  - by destruct s.
  - intros i [] s' Hi ->. destruct (zget_is_Some prev (i - 1)) as [v Hv]; [lia|].
    apply wp_bind. eapply wp_some; [done|].
    apply wp_set_req; [by do 2 apply req_dims_levels|lia|done|apply Hcores|]. ssimpl.
    replace (Z.to_nat (i + 1 - 1)) with (S (Z.to_nat (i - 1))) by lia. cbn [req_levels].
    replace (Z.of_nat (S (Z.to_nat (i - 1)))) with i by lia.
    assert (g i = v) as -> by (unfold g; by rewrite Hv). done.
  - intros [] s' ->. replace (Z.max (0 + 1) (max_suspend_pwrlvl + 1) - 1) with max_suspend_pwrlvl by lia.
    fold M. unfold rq'. rewrite req_levels_restore; [by destruct s|done|unfold M; lia|done|].
    intros l Hl. unfold M in Hl. rewrite <- Hpv by lia. unfold g.
    destruct (zget_is_Some prev (l - 1)) as [v ->]; [lia|done].
Qed.

(** The levels of the request agree with what the platform would negotiate. *)
Definition os_agrees : Prop :=
  ∀ k, 1 ≤ k ≤ end_pwrlvl → dom_target (H:=H) T rq' c k = Some (pds st k).

(** The caller is the last running CPU of its domain at the level it claims
    to be the last at. *)
Definition last_to_idle (lvl : Z) : Prop :=
  lvl = 0 ∨ ∀ c' d, 0 ≤ c' < tp_cores T → c' ≠ c → anc T c' lvl = anc T c lvl →
    zget (psci_svc_cpu_data s) c' = Some d → local_state d ≠ PSCI_LOCAL_STATE_RUN.

Lemma wp_validate_levels E me p0 (Q : Z * (Z * Z) → psci_state H → Prop) :
  anc T c 1 = Some p0 → 
  (∀ x rc, rc = PSCI_E_SUCCESS ∧ os_agrees ∨ (rc = PSCI_E_DENIED ∨ rc = PSCI_E_INVALID_PARAMS) ∧ ¬ os_agrees →
     Q (x.1, (rc, x.2)) (set_psci_req_local_pwr_states rq' s)) →
  wp E (for_brk_to 1 end_pwrlvl (validate_level st) (PSCI_E_SUCCESS, p0)) me
     (set_psci_req_local_pwr_states rq' s) Q.
Proof using Hw Hd Hc Hend Hst Hmax cok laws.
  intros Hp0 HQ. pose proof (tw_cores _ Hw) as Hcores.
  eapply (wp_for_brk_to _ (λ i (x : Z * Z) s', s' = set_psci_req_local_pwr_states rq' s ∧
    x.1 = PSCI_E_SUCCESS ∧ anc T c i = Some x.2 ∧
    ∀ k, 1 ≤ k < i → dom_target (H:=H) T rq' c k = Some (pds st k))).
  - split_and!; [done|done|done|lia].
  - intros i [rc0 p] s' Hi (-> & Hrc & Ha & Hag). cbn [fst snd] in *. subst rc0.
    destruct (topo_anc s c i Hw Hc) as (q & n & Hok & Hn & Hup); [lia|].
    fold T in Hok, Hup. pose proof (ao_anc _ _ _ _ _ Hok) as Hq. rewrite Ha in Hq. simplify_eq.
    pose proof (ao_range _ _ _ _ _ Hok) as Hrange. pose proof (anc_cpu_in _ _ _ _ _ Hok Hc) as Hin.
    assert (Hrd : req_dims rq') by (by apply req_dims_levels).
    destruct (req_dims_row rq' i Hrd) as (row & Hr & Hlr); [lia|].
    destruct (dom_target_is_Some T rq' c i Hw Hrd Hc) as [t Ht]; [lia|].
    unfold validate_level. apply wp_bind. eapply wp_get_non_cpu_node; [done|].
    apply wp_bind. eapply wp_get_req; [exact Hr|lia|simpl in *; lia|].
    apply wp_bind. eapply wp_some; [done|]. apply wp_bind. eapply wp_some.
    { revert Ht. unfold dom_target. rewrite Ha. cbn [mbind option_bind].
      rewrite (ao_node _ _ _ _ _ Hok). cbn [mbind option_bind]. rewrite Hr. done. }
    apply wp_bind. eapply wp_some; [apply pds_get; [done|lia]|].
    destruct (Z.eqb_spec (pds st i) t) as [He|He]; cbn [negb]; apply wp_ret.
    + split_and!; [done|done|exact Hup|]. intros k Hk.
      destruct (decide (k = i)) as [->|]; [congruence|apply Hag; lia].
    + eapply (HQ (i, q)). right. split.
      * destruct (t =? PSCI_LOCAL_STATE_RUN); auto.
      * intros Hall. specialize (Hall i ltac:(lia)). congruence.
  - intros [rc0 p] s' (-> & Hrc & _ & Hag). cbn [fst snd] in Hrc. subst rc0. eapply (HQ (_, p)). left. split; [done|].
    intros k Hk. apply Hag. lia.
Qed.

(** psci_is_last_cpu_to_idle_at_pwrlvl(). *)
Lemma wp_last_to_idle E lvl d me s' (Q : bool → psci_state H → Prop) :
  topo_of s' = T → psci_svc_cpu_data s' = psci_svc_cpu_data s →
  0 ≤ lvl ≤ PLAT_MAX_PWR_LVL → zlen (psci_svc_cpu_data s) = PLATFORM_CORE_COUNT →
  zget (psci_svc_cpu_data s) c = Some d → local_state d = PSCI_LOCAL_STATE_RUN →
  (∀ b, b = true ↔ last_to_idle lvl → Q b s') →
  wp E (psci_is_last_cpu_to_idle_at_pwrlvl c lvl) me s' Q.
Proof using Hw Hc.
  intros HT Hdata Hl Hdl Hcd Hrun HQ. unfold psci_is_last_cpu_to_idle_at_pwrlvl, PSCI_CPU_PWR_LVL.
  pose proof (tw_cores _ Hw) as Hcores. unfold last_to_idle in HQ.
  destruct (Z.eqb_spec lvl 0) as [->|Hl0]; [apply wp_ret, HQ; split; [by left|done]|].
  assert (Hw' : topo_wf (topo_of s')) by (by rewrite HT).
  assert (Hc' : 0 ≤ c < tp_cores (topo_of s')) by (by rewrite HT).
  destruct (topo_cpu_parent s' c Hw' Hc') as (cn & Hcn & Hp1).
  apply wp_bind. eapply wp_get_cpu_node; [done|].
  apply wp_bind. eapply (wp_walk_up _ c lvl); [done|done|lia|done|]. intros p Hp.
  destruct (topo_anc s' c lvl Hw' Hc') as (q & n & Hok & Hn & _); [lia|].
  pose proof (ao_anc _ _ _ _ _ Hok) as Hq. assert (p = q) as -> by congruence. clear Hq.
  pose proof (ao_range _ _ _ _ _ Hok) as Hrange. pose proof (ao_cpus _ _ _ _ _ Hok) as Hin.
  rewrite HT in Hp, Hrange, Hin. cbn [tnode_of tn_start tn_ncpus] in *.
  apply wp_bind. eapply wp_get_non_cpu_node; [done|]. apply wp_bind.
  set (lo := cpu_start_idx n) in *. set (hi := lo + ncpus n) in *.
  eapply (wp_for_brk_to _ (λ i b s'', s'' = s' ∧ b = true ∧ lo ≤ i ∧ ∀ c' dd, lo ≤ c' < i → c' ≠ c →
    zget (psci_svc_cpu_data s) c' = Some dd → local_state dd ≠ PSCI_LOCAL_STATE_RUN)).
  - split_and!; [done|done|lia|lia].
  - intros i b s'' Hi (-> & -> & _ & Hall). destruct (zget_is_Some (psci_svc_cpu_data s) i) as [di Hdi]; [lia|].
    apply wp_bind, wp_bind. eapply wp_get_cpu_data; [by rewrite Hdata|]. apply wp_ret.
    destruct (Z.eqb_spec i c) as [->|Hne].
    + assert (di = d) as -> by congruence. apply wp_bind, wp_assert; [by rewrite Hrun|]. apply wp_ret.
      split_and!; [done|done|lia|]. intros c' dd Hc'' Hne. apply Hall; [lia|done].
    + unfold is_local_state_run. destruct (Z.eqb_spec (local_state di) PSCI_LOCAL_STATE_RUN) as [Hr|Hr]; apply wp_ret.
      * apply wp_ret, HQ. split; [done|]. intros [?|Hl']; [done|exfalso].
        apply (Hl' i di); [lia|done| |done|done]. rewrite Hp. apply Hin; lia.
      * split_and!; [done|done|lia|]. intros c' dd Hc'' Hne' Hdd.
        destruct (decide (c' = i)) as [->|]; [by simplify_eq|]. apply (Hall c'); [lia|done..].
  - intros b s'' (-> & -> & _ & Hall). apply wp_ret, HQ. split; [|done]. intros _. right.
    intros c' dd Hc'' Hne Ha Hdd. rewrite Hp in Ha. apply Hin in Ha; [|lia]. apply (Hall c'); [lia|done..].
Qed.
End Validate.

(** C9: OS-initiated negotiation.  psci_validate_state_coordination() returns
    PSCI_E_SUCCESS exactly if, with the caller's requests recorded, every
    level up to [end_pwrlvl] would be negotiated to the state the caller asked
    for and the caller is the last running CPU of its domain at the level it
    named; then the requests stay recorded.  Otherwise it returns
    PSCI_E_DENIED or PSCI_E_INVALID_PARAMS and the library's state, the
    requests included, is exactly what it was. *)
Theorem os_initiated_validation s c end_pwrlvl st d me :
  topo_wf (topo_of s) → req_dims (psci_req_local_pwr_states s) →
  0 ≤ c < tp_cores (topo_of s) → 0 ≤ end_pwrlvl ≤ PLAT_MAX_PWR_LVL → ps_dims st →
  0 ≤ max_suspend_pwrlvl ≤ PLAT_MAX_PWR_LVL → 0 ≤ last_at_pwrlvl st ≤ PLAT_MAX_PWR_LVL →
  zlen (psci_svc_cpu_data s) = PLATFORM_CORE_COUNT →
  zget (psci_svc_cpu_data s) c = Some d → local_state d = PSCI_LOCAL_STATE_RUN →
  let rq' := req_levels (psci_req_local_pwr_states s) c (os_request st end_pwrlvl)
               (Z.to_nat max_suspend_pwrlvl) in
  ∃ rc s', psci_validate_state_coordination c end_pwrlvl st me s = Ret rc s' ∧
    (rc = PSCI_E_SUCCESS ∧ os_agrees s c end_pwrlvl st ∧ last_to_idle s c (last_at_pwrlvl st) ∧
       s' = set_psci_req_local_pwr_states rq' s ∨
     (rc = PSCI_E_DENIED ∨ rc = PSCI_E_INVALID_PARAMS) ∧
       ¬ (os_agrees s c end_pwrlvl st ∧ last_to_idle s c (last_at_pwrlvl st)) ∧ s' = s).
Proof.
  intros Hw Hd Hc Hend Hst Hmax Hla Hdl Hcd Hrun rq'. apply wp_total.
  pose proof max_pwr_lvl_ok. destruct (topo_cpu_parent s c Hw Hc) as (cn & Hcn & Hp1).
  unfold psci_validate_state_coordination, PSCI_CPU_PWR_LVL. apply wp_bind, wp_assert; [lia|].
  apply wp_bind. eapply wp_get_cpu_node; [done|]. apply wp_bind.
  eapply (wp_update_req s c end_pwrlvl st); [done..|unfold zlen; rewrite length_replicate; lia|].
  intros prev Hlp Hpv. apply wp_bind.
  eapply (wp_validate_levels s c end_pwrlvl st Hw Hd Hc Hend Hst Hmax); [exact Hp1|]. fold rq'.
  intros x rc Hrc. 
  assert (Hfail : ∀ rc, rc = PSCI_E_DENIED ∨ rc = PSCI_E_INVALID_PARAMS →
    ¬ (os_agrees s c end_pwrlvl st ∧ last_to_idle s c (last_at_pwrlvl st)) →
    wp (λ _, False) (if negb (rc =? PSCI_E_SUCCESS)
                     then psci_restore_req_local_pwr_states c prev;; ret rc else ret rc) me
      (set_psci_req_local_pwr_states rq' s) (λ rc s',
      rc = PSCI_E_SUCCESS ∧ os_agrees s c end_pwrlvl st ∧ last_to_idle s c (last_at_pwrlvl st) ∧
       s' = set_psci_req_local_pwr_states rq' s ∨
     (rc = PSCI_E_DENIED ∨ rc = PSCI_E_INVALID_PARAMS) ∧
       ¬ (os_agrees s c end_pwrlvl st ∧ last_to_idle s c (last_at_pwrlvl st)) ∧ s' = s)).
  { intros rc' Hrc' Hno. assert (negb (rc' =? PSCI_E_SUCCESS) = true) as -> by (by destruct Hrc' as [-> | ->]).
    apply wp_bind. eapply (wp_restore_req s c end_pwrlvl st); [done..|]. apply wp_ret. by right. }
  destruct Hrc as [[-> Hag]|[Hrc Hno]].
  - apply wp_bind. change (negb (PSCI_E_SUCCESS =? PSCI_E_SUCCESS)) with false. cbv iota.
    apply wp_bind. eapply (wp_last_to_idle s c Hw Hc); [done|done|done|done|done|done|].
    intros [|] Hb; apply wp_ret; cbv iota beta; cbn [negb].
    + apply wp_ret. left. split_and!; [done..|by apply Hb|done].
    + apply Hfail; [by left|]. intros [_ Hl]. by apply Hb in Hl.
  - apply wp_bind. assert (negb (rc =? PSCI_E_SUCCESS) = true) as -> by (by destruct Hrc as [-> | ->]).
    apply wp_ret. apply Hfail; [done|]. by intros [? _].
Qed.
End OsInit.

(** Core 1 claims to power the cluster down while core 0 runs: refused, and
    nothing changes. *)
Lemma os_initiated_validation_witness :
  ∃ rc, psci_validate_state_coordination 1 2 (PowerState [2; 2; 2] 2) 1 demo_both = Ret rc demo_both.
Proof.
  destruct (os_initiated_validation demo_both 1 2 (PowerState [2; 2; 2] 2) (CpuData AFF_STATE_ON 2 0) 1)
    as (rc & s' & Heq & Hcase).
  - exact demo_topo_wf.
  - exact demo_req_dims.
  - vm_compute. split; [discriminate|reflexivity].
  - vm_compute. split; discriminate.
  - reflexivity.
  - vm_compute. split; discriminate.
  - vm_compute. split; discriminate.
  - vm_compute. reflexivity.
  - vm_compute. reflexivity.
  - reflexivity.
  - exists rc. destruct Hcase as [(_ & Hag & _)|(_ & _ & ->)]; [exfalso|exact Heq].
    specialize (Hag 1 ltac:(lia)). vm_compute in Hag. discriminate.
Defined.

(** ** Queries over all CPUs *)

Section Queries.
Context `{cfg : Config} {H : Type} `{plat : !Platform H}.
Implicit Types (s : psci_state H).

(** The affinity states of the CPUs of the platform. *)
Definition aff_states s : list aff_info_state_t :=
  aff_info_state <$> zslice (psci_svc_cpu_data s) 0 (psci_plat_core_count s).

Definition cpus_present s : Prop := 0 ≤ psci_plat_core_count s ≤ zlen (psci_svc_cpu_data s).

Lemma zslice_snoc {A} (l : list A) n x :
  0 ≤ n → zget l n = Some x → zslice l 0 (n + 1) = zslice l 0 n ++ [x].
Proof.
  intros Hn Hx. unfold zslice. simpl. unfold zget in Hx. rewrite decide_True in Hx by lia.
  replace (Z.to_nat (n + 1)) with (S (Z.to_nat n)) by lia. by apply take_S_r.
Qed.

Definition is_off (a : aff_info_state_t) : bool := bool_decide (a = AFF_STATE_OFF).

Lemma wp_get_aff_by_idx E i d me s (Q : aff_info_state_t → psci_state H → Prop) :
  zget (psci_svc_cpu_data s) i = Some d → Q (aff_info_state d) s →
  wp E (psci_get_aff_info_state_by_idx i) me s Q.
Proof. intros Hd HQ. apply wp_bind. eapply wp_get_cpu_data; [done|]. by apply wp_ret. Qed.

Section State.
Context (s : psci_state H) (Hpres : cpus_present s).
Abbreviation n := (psci_plat_core_count s).
Abbreviation data := (psci_svc_cpu_data s).

Lemma wp_last_on E me d (Q : bool → psci_state H → Prop) :
  zget data me = Some d → aff_info_state d = AFF_STATE_ON →
  (∀ b, b = true ↔ (∀ c d, 0 ≤ c < n → c ≠ me → zget data c = Some d → aff_info_state d = AFF_STATE_OFF) →
     Q b s) →
  wp E (psci_is_last_on_cpu me) me s Q.
Proof using Hpres.
  intros Hme Hon HQ. unfold psci_is_last_on_cpu. apply wp_bind, wp_gets, wp_bind.
  eapply (wp_for_brk_to _ (λ i b s', s' = s ∧ b = true ∧ ∀ c d, 0 ≤ c < i → c ≠ me →
            zget data c = Some d → aff_info_state d = AFF_STATE_OFF)); [split_and!; [done|done|lia]| |].
  - intros i b s' Hi (-> & -> & Hall). destruct (zget_is_Some data i) as [di Hdi]; [destruct Hpres; lia|].
    destruct (Z.eqb_spec i me) as [->|Hne].
    + apply wp_bind, wp_bind, wp_my_core_pos. eapply wp_get_aff_by_idx; [exact Hme|].
      apply wp_bind, wp_assert; [by rewrite Hon|]. apply wp_ret. split_and!; [done|done|].
      intros c dd Hc Hne. apply Hall; [lia|done].
    + apply wp_bind. eapply wp_get_aff_by_idx; [done|]. case_bool_decide as Ha; apply wp_ret.
      * apply wp_ret, HQ. split; [done|]. intros Hl. exfalso. apply Ha, (Hl i); [lia|done|done].
      * split_and!; [done|done|]. intros c dd Hc Hne' Hdd. destruct (decide (c = i)) as [->|].
        { assert (dd = di) as -> by congruence. by destruct (aff_info_state di). }
        apply (Hall c); [lia|done..].
  - intros b s' (-> & -> & Hall). apply wp_ret, HQ. split; [|done]. intros _ c dd Hc. apply Hall. lia.
Qed.

Lemma wp_all_on E me (Q : bool → psci_state H → Prop) :
  (∀ b, b = true ↔ AFF_STATE_OFF ∉ aff_states s → Q b s) →
  wp E psci_are_all_cpus_on me s Q.
Proof using Hpres.
  intros HQ. unfold psci_are_all_cpus_on. apply wp_bind, wp_gets, wp_bind.
  assert (Hel : AFF_STATE_OFF ∈ aff_states s ↔
    ∃ i d, 0 ≤ i < n ∧ zget data i = Some d ∧ aff_info_state d = AFF_STATE_OFF).
  { unfold aff_states. rewrite list_elem_of_fmap. split.
    - intros (d & Hd & Hin). apply zslice_elem in Hin as (i & Hi & Hg); [|lia]. exists i, d. split_and!; [lia|lia|done|done].
    - intros (i & d & Hi & Hg & Hd). exists d. split; [done|]. apply zslice_elem; [lia|]. exists i. split; [lia|done]. }
  eapply (wp_for_brk_to _ (λ i b s', s' = s ∧ b = true ∧ ∀ c d, 0 ≤ c < i →
            zget data c = Some d → aff_info_state d ≠ AFF_STATE_OFF)); [split_and!; [done|done|lia]| |].
  - intros i b s' Hi (-> & -> & Hall). destruct (zget_is_Some data i) as [di Hdi]; [destruct Hpres; lia|].
    apply wp_bind. eapply wp_get_aff_by_idx; [done|]. case_bool_decide as Ha; apply wp_ret.
    + apply wp_ret, HQ. split; [done|]. intros Hno. exfalso. apply Hno, Hel. exists i, di. split_and!; [lia|lia|done|done].
    + split_and!; [done|done|]. intros c dd Hc Hdd. destruct (decide (c = i)) as [->|]; [congruence|].
      apply (Hall c); [lia|done].
  - intros b s' (-> & -> & Hall). apply wp_ret, HQ. split; [|done]. intros _.
    rewrite Hel. intros (i & d & Hi & Hg & Hd). apply (Hall i d); [lia|done..].
Qed.

Lemma wp_num_running E me (Q : Z → psci_state H → Prop) :
  n < 2 ^ 32 → Q (zlen (filter (λ a, is_off a = false) (aff_states s))) s →
  wp E psci_num_cpus_running me s Q.
Proof using Hpres.
  intros Hn HQ. unfold psci_num_cpus_running. apply wp_bind, wp_gets.
  pose (cnt i := zlen (filter (λ a, is_off a = false) (aff_info_state <$> zslice data 0 i))).
  assert (Hcnt : ∀ i, 0 ≤ i → 0 ≤ cnt i ≤ i).
  { intros i Hi. unfold cnt, zlen. split; [lia|].
    pose proof (length_filter (λ a, is_off a = false) (aff_info_state <$> zslice data 0 i)) as Hlf.
    rewrite length_fmap in Hlf. unfold zslice in *. rewrite length_take in Hlf. lia. }
  eapply (wp_for_to _ (λ i k s', s' = s ∧ k = cnt i)).
  - split; [done|]. reflexivity.
  - intros i k s' Hi [-> ->]. destruct (zget_is_Some data i) as [di Hdi]; [destruct Hpres; lia|].
    apply wp_bind. eapply wp_get_aff_by_idx; [done|]. apply wp_ret. split; [done|].
    assert (Hs : cnt (i + 1) = cnt i + if is_off (aff_info_state di) then 0 else 1).
    { unfold cnt, zlen. rewrite (zslice_snoc _ i di), fmap_app, filter_app, length_app by (done || lia).
      cbn [fmap list_fmap]. destruct (aff_info_state di).
      - rewrite filter_cons_True by done. simpl. lia.
      - rewrite filter_cons_False by done. simpl. lia.
      - rewrite filter_cons_True by done. simpl. lia. }
    specialize (Hcnt i ltac:(lia)). rewrite Hs. clearbody cnt. rewrite u32_small by lia.
    destruct (aff_info_state di); [reflexivity|symmetry; apply Z.add_0_r|reflexivity].
  - intros k s' [-> ->]. destruct Hpres. replace (Z.max 0 (n - 1 + 1)) with n by lia. exact HQ.
Qed.
End State.

(** The questions the library asks about all CPUs.  On the CPU [me],
    which is ON, psci_is_last_on_cpu() says whether every other CPU of the
    platform is OFF (neither ON nor about to be turned on),
    psci_are_all_cpus_on() whether none is OFF, and psci_num_cpus_running()
    how many are not OFF; none of them changes the state. *)
Theorem cpu_queries_correct s me d :
  cpus_present s → psci_plat_core_count s < 2 ^ 32 →
  zget (psci_svc_cpu_data s) me = Some d → aff_info_state d = AFF_STATE_ON →
  (∃ b, psci_is_last_on_cpu me me s = Ret b s ∧
     (b = true ↔ ∀ c d, 0 ≤ c < psci_plat_core_count s → c ≠ me →
        zget (psci_svc_cpu_data s) c = Some d → aff_info_state d = AFF_STATE_OFF)) ∧
  (∃ b, psci_are_all_cpus_on me s = Ret b s ∧ (b = true ↔ AFF_STATE_OFF ∉ aff_states s)) ∧
  psci_num_cpus_running me s = Ret (zlen (filter (λ a, is_off a = false) (aff_states s))) s.
Proof.
  intros Hp Hn Hd Ha. split_and!.
  - destruct (wp_total (psci_is_last_on_cpu me) me s (λ b s', s' = s ∧ (b = true ↔
      ∀ c d, 0 ≤ c < psci_plat_core_count s → c ≠ me → zget (psci_svc_cpu_data s) c = Some d →
        aff_info_state d = AFF_STATE_OFF))) as (b & s' & Heq & -> & Hb); [by eapply wp_last_on|eauto].
  - destruct (wp_total psci_are_all_cpus_on me s (λ b s', s' = s ∧ (b = true ↔ AFF_STATE_OFF ∉ aff_states s)))
      as (b & s' & Heq & -> & Hb); [by eapply wp_all_on|eauto].
  - destruct (wp_total psci_num_cpus_running me s (λ k s', s' = s ∧
      k = zlen (filter (λ a, is_off a = false) (aff_states s)))) as (k & s' & Heq & -> & ->);
      [by apply wp_num_running|done].
Qed.
End Queries.

Lemma cpu_queries_correct_witness : psci_num_cpus_running 0 demo_both = Ret 2 demo_both.
Proof.
  destruct (cpu_queries_correct demo_both 0 (CpuData AFF_STATE_ON 2 0)) as (_ & _ & Hn).
  - vm_compute. split; discriminate.
  - vm_compute. reflexivity.
  - vm_compute. reflexivity.
  - reflexivity.
  - rewrite Hn. f_equal.
Defined.
