(* ===== verification/MtkSpec.v ===== *)
(** * The MT7981 port: functional correctness

    Core numbering, power state validation, coordination, power-up of a core
    through the SPMC, the timer context across a suspend, and CPU standby; and
    the safety of the firmware the port and the library make together. *)

From stdpp Require Import base gmap list vector numbers list_numbers relations.
From Stdlib Require Import ZArith Lia.
From S2P Require Import Prelude PsciTypes PsciCommon PsciStat PsciPower PsciSetup PsciMain.
From S2P Require Import PsciTopo PsciCoord PsciInv PsciSafe PsciTree PsciBoot PsciSystem MtkPlat.
From S2P Require Import MtkLaws MtkDemo PsciReach.
Open Scope Z_scope.

(** ** The firmware *)

Section Firmware.
Context (assertions instrumentation extended_id : bool) `{env : MtkEnv}.
#[local] Hint Extern 0 Config =>
  exact (mt7981_config assertions instrumentation extended_id) : typeclass_instances.

(** C4: the MT7981 firmware is safe.  In the configuration of this board
    (mt7981_config: no PSCI statistics, no OS-initiated mode, no Secure Payload
    Dispatcher), with either power state format, with or without assertions and
    instrumentation, booted on either core, and however the hardware behaves,
    as long as the CPU driver has its two power-down handlers and they do
    nothing undefined, and the MPIDR of every CPU is one of the two cores': in
    every reachable state no call does anything undefined or fails an
    assertion, in the PSCI library or in the hooks of the port (an access
    outside an array or through NULL and a failed assert() are both outcomes of
    the model that are excluded, as opposed to the deliberate panic() after a
    reset that did not happen); and a core that executes the operating system
    has its cluster and the system recorded as running. *)
Theorem mt7981_firmware_safe boot s σ c act r :
  0 ≤ boot < 2 → (∀ l, 0 ≤ l < CPU_MAX_PWR_DWN_OPS → is_Some (env_cpu_pwr_dwn l)) →
  (∀ l, opt_safe (env_cpu_pwr_dwn l)) → (∀ me, is_valid_mpidr (H:=mtk_hw) (mpidr_el1 me) = true) →
  booted (H:=mtk_hw) boot None s → rtc sys_step (boot_state boot s) σ →
  (run_cpu σ c act = Some r → sound_res r) ∧
  (zget (ctxs σ) c = Some InOS → ∀ l, l = 1 ∨ l = 2 →
     ∃ p, anc (topo_of (ps σ)) c l = Some p ∧
          nc_state (psci_non_cpu_pd_nodes (ps σ)) p = Some PSCI_LOCAL_STATE_RUN).
Proof.
  intros Hb Hcpu Hcs Hmp Hbt Hr. pose proof (mtk_boot_ok assertions instrumentation extended_id Hmp boot Hb) as Hbo.
  pose proof (mtk_plat_ok assertions instrumentation extended_id Hcpu Hcs) as Hpo. split.
  - by apply (reachable_sound boot None Hbo Hpo ltac:(done) eq_refl eq_refl s).
  - intros Hx l Hl. destruct (reachable_running boot None Hbo Hpo ltac:(done) eq_refl eq_refl s σ c Hbt Hr Hx) as [_ Hdom].
    apply Hdom. change PLAT_MAX_PWR_LVL with 2. lia.
Qed.
End Firmware.

Lemma mt7981_firmware_safe_witness :
  ∃ p, anc (topo_of demo_both) 1 1 = Some p ∧
       nc_state (psci_non_cpu_pd_nodes demo_both) p = Some PSCI_LOCAL_STATE_RUN.
Proof.
  destruct (mt7981_firmware_safe true false false 0 demo_boot demo_sys2 1 AWake Fault) as [_ Hdom].
  - lia.
  - intros l _. by eexists.
  - by intros l f [= <-].
  - exact demo_mpidr.
  - exact demo_booted.
  - exact demo_reach2.
  - apply (Hdom eq_refl 1). by left.
Defined.

(** ** Topology *)

(** Core numbering.  plat_core_pos_by_mpidr() gives the cores of cluster
    0 the numbers 0 and 1, whatever the other bits of the register (U, MT,
    reserved) are, and refuses every other affinity with -1; so the library's
    validity check accepts exactly these two, and different cores get
    different numbers. *)
Theorem mtk_core_numbering a i e `{env : MtkEnv} m m' :
  let aff x := Z.land x MPIDR_AFFINITY_MASK in
  let valid x := is_valid_mpidr (cfg := mt7981_config a i e) (H:=mtk_hw) x in
  (valid m = true ↔ aff m = 0 ∨ aff m = 1) ∧
  mtk_core_pos_by_mpidr m = (if valid m then aff m else -1) ∧
  (valid m = true → valid m' = true → mtk_core_pos_by_mpidr m = mtk_core_pos_by_mpidr m' → aff m = aff m').
Proof.
  intros aff valid.
  assert (Hv : ∀ x, valid x = bool_decide (aff x = 0 ∨ aff x = 1)).
  { intros x. unfold valid, is_valid_mpidr. cbn [plat_core_pos_by_mpidr mtk_platform].
    rewrite (mtk_core_pos_spec x). fold (aff x). case_decide as Hd; [|by rewrite bool_decide_false].
    rewrite bool_decide_true by done. by destruct Hd as [-> | ->]. }
  assert (Hp : ∀ x, mtk_core_pos_by_mpidr x = if valid x then aff x else -1).
  { intros x. rewrite Hv, (mtk_core_pos_spec x). fold (aff x).
    case_decide; [by rewrite bool_decide_true|by rewrite bool_decide_false]. }
  split_and!; [by rewrite Hv, bool_decide_eq_true|apply Hp|].
  intros H1 H2. by rewrite !Hp, H1, H2.
Qed.

(** ** Coordination *)

(** The coordinated state is the shallowest request.  For the requests
    of the [n] CPUs of a domain, the port's plat_get_target_pwr_state() and
    the generic default agree, read nothing beyond those requests, and return
    the least of them (or the deepest state, if all requests are beyond it). *)
Theorem target_is_shallowest `{cfg : Config} lvl lvl' states n :
  0 < n ≤ zlen states → n < 2 ^ 32 → Forall (λ v, 0 ≤ v < 256) states →
  ∃ t, mtk_get_target_pwr_state lvl states n = Some t ∧
    plat_get_target_pwr_state_default lvl' states n = Some t ∧
    (∀ i v, 0 ≤ i < n → zget states i = Some v → t ≤ v) ∧ t ≤ PLAT_MAX_OFF_STATE ∧
    (t = PLAT_MAX_OFF_STATE ∨ ∃ i, 0 ≤ i < n ∧ zget states i = Some t) ∧
    ∀ rest, mtk_get_target_pwr_state lvl (zslice states 0 n ++ rest) n = Some t.
Proof.
  intros Hn H32 Hall. exists (shallowest PLAT_MAX_OFF_STATE states n).
  assert (Hsl : u8 <$> zslice states 0 n = zslice states 0 n).
  { transitivity (id <$> zslice states 0 n); [|apply list_fmap_id]. apply list_fmap_ext. intros k v Hv. apply Z.mod_small.
    rewrite Forall_forall in Hall. apply Hall. unfold zslice in Hv. rewrite drop_0 in Hv.
    apply lookup_take_Some in Hv as [Hv _]. by eapply list_elem_of_lookup_2. }
  split_and!.
  - by apply mtk_target_loop_spec.
  - by apply default_target_loop_spec.
  - intros i v Hi Hv. unfold shallowest. rewrite Hsl. apply foldl_min_elem, zslice_elem; [lia|].
    exists i. split; [lia|done].
  - apply foldl_min_le.
  - unfold shallowest. rewrite Hsl. destruct (foldl_min_in PLAT_MAX_OFF_STATE (zslice states 0 n)) as [->|Hin]; [by left|].
    right. apply zslice_elem in Hin as (i & Hi & Hv); [|lia]. exists i. split; [lia|done].
  - intros rest. unfold mtk_get_target_pwr_state.
    assert (Hlen : zlen (zslice states 0 n) = n).
    { unfold zlen, zslice in *. rewrite drop_0, length_take. lia. }
    rewrite mtk_target_loop_spec; [|unfold zlen in *; rewrite length_app; lia|done]. f_equal.
    unfold shallowest. do 2 f_equal. unfold zslice at 1. rewrite drop_0, take_app_le, take_ge; [done|..];
      unfold zlen in Hlen; lia.
Qed.

Lemma target_is_shallowest_witness : mtk_get_target_pwr_state 1 [2; 1; 0] 2 = Some 1.
Proof.
  destruct (target_is_shallowest 1 1 [2; 1; 0] 2) as (t & Ht & _).
  - vm_compute. split; [reflexivity|discriminate].
  - reflexivity.
  - repeat constructor; lia.
  - rewrite Ht. vm_compute in Ht. symmetry. exact Ht.
Defined.

(** ** Power states *)

Section PowerStates.
Context (assertions instrumentation extended_id : bool) `{env : MtkEnv}.
#[local] Hint Extern 0 Config =>
  exact (mt7981_config assertions instrumentation extended_id) : typeclass_instances.

(** The local state the original format means for a level. *)
Definition orig_local_state (ps k : Z) : Z :=
  if psci_get_pstate_type ps =? PSTATE_TYPE_STANDBY then
    if k =? 0 then MTK_LOCAL_STATE_RET else MTK_LOCAL_STATE_RUN
  else if k <=? psci_get_pstate_pwrlvl ps then MTK_LOCAL_STATE_OFF else MTK_LOCAL_STATE_RUN.

(** Levels 0 to 2, one by one. *)
Lemma upto_level_2 (P : Z → Prop) : P 0 → P 1 → P 2 → ∀ k, 0 ≤ k ≤ 2 → P k.
Proof. intros ? ? ? k Hk. assert (k = 0 ∨ k = 1 ∨ k = 2) as [-> | [-> | ->]] by lia; done. Qed.

Lemma validate_orig_spec ps :
  ∃ rc st, plat_validate_power_state_orig ps power_state_run = Some (rc, st) ∧
  (rc = PSCI_E_SUCCESS ↔ psci_get_pstate_id ps = 0 ∧ psci_get_pstate_pwrlvl ps ≤ 2 ∧
     (psci_get_pstate_type ps = 0 → psci_get_pstate_pwrlvl ps = 0)) ∧
  (rc = PSCI_E_SUCCESS → ∀ k, 0 ≤ k ≤ 2 → pds st k = orig_local_state ps k).
Proof.
  unfold plat_validate_power_state_orig, orig_local_state, cbool.
  pose proof (pwrlvl_range ps) as Hl. pose proof (pstate_type_range assertions instrumentation extended_id ps) as Ht.
  change PLAT_MAX_PWR_LVL with 2.
  destruct (Z.eqb_spec (psci_get_pstate_id ps) 0) as [Hid|Hid]; destruct Ht as [Ht|Ht]; rewrite Ht;
    (assert (psci_get_pstate_pwrlvl ps = 0 ∨ psci_get_pstate_pwrlvl ps = 1 ∨ psci_get_pstate_pwrlvl ps = 2 ∨
       psci_get_pstate_pwrlvl ps = 3) as [Hc|[Hc|[Hc|Hc]]] by lia); rewrite Hc; simpl;
    eexists _, _; (split; [reflexivity|]);
    (split; [split; [try discriminate|]; intros; try lia; done || (split_and!; (done || lia))|]);
    try discriminate; intros _; apply upto_level_2; reflexivity.
Qed.

Lemma validate_ext_spec ps :
  extended_id = true →
  ∃ rc st, plat_validate_power_state_ext ps power_state_run = Some (rc, st) ∧
    (rc = PSCI_E_SUCCESS ↔ ps ≠ 0 ∧ ps ∈ mtk_pm_idle_states) ∧
    (rc = PSCI_E_SUCCESS → ∀ k, 0 ≤ k ≤ 2 →
       pds st k = Z.land (Z.shiftr (psci_get_pstate_id ps) (4 * k)) 0xf).
Proof.
  intros He. unfold plat_validate_power_state_ext.
  destruct (Z.eqb_spec (idle_state_search mtk_pm_idle_states ps) 0) as [Hs|Hs].
  - eexists _, _. split; [reflexivity|]. split; [|done]. split; [done|]. intros [Hz Hin]. exfalso.
    rewrite He in Hs, Hin. unfold mtk_pm_idle_states in Hin. simpl in Hin. rewrite !elem_of_cons in Hin.
    destruct Hin as [H|[H|[H|[H|[H|Hn]]]]]; [..|done|by apply not_elem_of_nil in Hn]; subst ps; vm_compute in Hs; done.
  - apply idle_state_search_elem in Hs as [Hs Hz]. assert (Hin := Hs).
    rewrite He in *. unfold mtk_pm_idle_states in Hs. simpl in Hs. rewrite !elem_of_cons in Hs.
    destruct Hs as [H|[H|[H|[H|[H|Hn]]]]]; [..|done|by apply not_elem_of_nil in Hn]; subst ps;
      (eexists _, _; split; [reflexivity|]; split; [done|]; intros _; apply upto_level_2; reflexivity).
Qed.

(** C21: validation of a power_state argument.  The hook returns with the
    hardware untouched.  In the original format it accepts exactly the values
    with state id 0, a level that exists, and level 0 if the type is standby,
    and powers off the levels up to the one named; in the extended format it
    accepts exactly the entries of mtk_pm_idle_states, and each level gets its
    4-bit field of the state id.  Whatever it accepts passes the library's own
    check, and a power-down state powers the CPU itself off. *)
Theorem mtk_validate_power_state_correct ps me h :
  ∃ rc st, plat_validate_power_state ps power_state_run me h = HRet (rc, st) h ∧
    (rc = PSCI_E_SUCCESS ∨ rc = PSCI_E_INVALID_PARAMS) ∧
    (rc = PSCI_E_SUCCESS → accepted assertions instrumentation extended_id ps st) ∧
    (extended_id = false →
       (rc = PSCI_E_SUCCESS ↔ psci_get_pstate_id ps = 0 ∧ psci_get_pstate_pwrlvl ps ≤ 2 ∧
          (psci_get_pstate_type ps = 0 → psci_get_pstate_pwrlvl ps = 0)) ∧
       (rc = PSCI_E_SUCCESS → ∀ k, 0 ≤ k ≤ 2 → pds st k = orig_local_state ps k)) ∧
    (extended_id = true →
       (rc = PSCI_E_SUCCESS ↔ ps ≠ 0 ∧ ps ∈ mtk_pm_idle_states) ∧
       (rc = PSCI_E_SUCCESS → ∀ k, 0 ≤ k ≤ 2 →
          pds st k = Z.land (Z.shiftr (psci_get_pstate_id ps) (4 * k)) 0xf)).
Proof.
  destruct (Sumbool.sumbool_of_bool extended_id) as [He|He].
  - destruct (validate_ext_spec ps He) as (rc & st & Hv & Hiff & Hst).
    destruct (mtk_validate_ext assertions instrumentation extended_id ps He) as (rc' & st' & Hv' & Hok).
    rewrite Hv in Hv'. injection Hv' as <- <-. exists rc, st. split_and!;
      [|destruct Hok as [-> |[-> _]]; auto|intros ->; by destruct Hok as [?|[_ ?]]|congruence|done].
    unfold plat_validate_power_state. rewrite Hv. change PSCI_EXTENDED_STATE_ID with extended_id. by rewrite He.
  - destruct (validate_orig_spec ps) as (rc & st & Hv & Hspec).
    destruct (mtk_validate_orig assertions instrumentation extended_id ps) as (rc' & st' & Hv' & Hok).
    rewrite Hv in Hv'. injection Hv' as <- <-. exists rc, st. split_and!;
      [|destruct Hok as [-> |[-> _]]; auto|intros ->; by destruct Hok as [?|[_ ?]]|done|congruence].
    unfold plat_validate_power_state. rewrite Hv. change PSCI_EXTENDED_STATE_ID with extended_id. by rewrite He.
Qed.
End PowerStates.

(** ** Powering a core up *)

(** C22: power-up of a core.  The pwr_domain_on hook selects AArch64 and then
    looks at the CPU field of the MPIDR alone.  For a core that does not exist
    (any number but 0 and 1) it returns PSCI_E_NOT_PRESENT, having done nothing
    else.  For core 0 or 1, provided that the power controller acknowledges
    within the time the driver polls (spmc_acknowledges) and that polling does
    not touch the driver's mask, it returns PSCI_E_SUCCESS, having programmed
    the core's boot address with the warm boot entry point, set PWR_ON and
    waited for PWR_ACK, in this order; afterwards the core's bit is set in the
    driver's mask and the other cores' bits are unchanged. *)
Theorem mtk_power_domain_on_correct `{env : MtkEnv} m me h :
  spmc_acknowledges → (∀ h, cpu_bitmask (poll_step h) = cpu_bitmask h) → 0 ≤ cpu_bitmask h < 2 ^ 32 →
  let cpu := Z.land m MPIDR_CPU_MASK in
  if decide (cpu = 0 ∨ cpu = 1) then
    ∃ k h1 h', h1 = polled k (power_on_started cpu h) ∧
      Z.land (reg_of (MP0_CPUx_SPMC_PWR_CON cpu) h1) PWR_ACK = PWR_ACK ∧
      mtk_plat_power_domain_on m me h = HRet PSCI_E_SUCCESS h' ∧ regs h' = regs h1 ∧
      ∀ j, 0 ≤ j < 32 → Z.testbit (cpu_bitmask h') j = (bool_decide (j = cpu) || Z.testbit (cpu_bitmask h) j)
  else
    mtk_plat_power_domain_on m me h =
      HRet PSCI_E_NOT_PRESENT (write_reg mp0_misc_config3 MP0_CPUCFG_64BIT h).
Proof.
  intros Hack Hmask Hrange cpu. case_decide as Hpos.
  2: { unfold mtk_plat_power_domain_on, hbind, mmio_write_32, hmod. fold cpu.
       by rewrite !(proj2 (Z.eqb_neq cpu _)) by tauto. }
  destruct (mtk_power_on_eq m cpu me h Hack eq_refl Hpos) as (k & _ & Ha & Heq).
  exists k. eexists _, _. split; [reflexivity|]. split; [exact Ha|]. split; [exact Heq|]. split; [done|].
  intros j Hj. cbn [cpu_bitmask set_cpu_bitmask].
  assert (Hb : ∀ k h, cpu_bitmask (polled k h) = cpu_bitmask h).
  { intros k'. induction k' as [|k' IH]; intros h'; [done|]. rewrite polled_S, IH. apply Hmask. }
  rewrite Hb. change (cpu_bitmask (power_on_started cpu h)) with (cpu_bitmask h).
  unfold u32. rewrite <- Z.land_ones, Z.land_spec, Z.ones_spec_low, andb_true_r, Z.lor_spec by lia.
  rewrite Z.shiftl_1_l, Z.pow2_bits_eqb by lia. rewrite orb_comm. f_equal.
  destruct (Z.eqb_spec cpu j) as [->|]; [by rewrite bool_decide_true|by rewrite bool_decide_false].
Qed.

Lemma mtk_power_domain_on_correct_witness :
  (∃ h', mtk_plat_power_domain_on 1 0 demo_hw = HRet PSCI_E_SUCCESS h' ∧ Z.testbit (cpu_bitmask h') 1 = true) ∧
  mtk_plat_power_domain_on 2 0 demo_hw =
    HRet PSCI_E_NOT_PRESENT (write_reg mp0_misc_config3 MP0_CPUCFG_64BIT demo_hw).
Proof.
  assert (Hr : 0 ≤ cpu_bitmask demo_hw < 2 ^ 32) by (vm_compute; split; [discriminate|reflexivity]).
  split.
  - destruct (mtk_power_domain_on_correct 1 0 demo_hw demo_acknowledges (λ _, eq_refl) Hr)
      as (k & h1 & h' & _ & _ & Heq & _ & Hb).
    exists h'. split; [exact Heq|]. rewrite (Hb 1) by lia. reflexivity.
  - exact (mtk_power_domain_on_correct 2 0 demo_hw demo_acknowledges (λ _, eq_refl) Hr).
Defined.

(** ** The timer across a power-down suspend *)

Definition timer_of (r : cpu_sysregs) : list Z :=
  [cntkctl_el1 r; cntp_cval_el0 r; cntp_tval_el0 r; cntp_ctl_el0 r; cntv_tval_el0 r; cntv_ctl_el0 r].

(** What losing power may do between the two hooks: anything to the timer
    registers of the CPU, and to the rest of the machine but the saved
    context. *)
Definition power_lost (h h' : mtk_hw) : Prop :=
  zlen (sysregs h') = zlen (sysregs h) ∧ dormant_data h' = dormant_data h.

Lemma sysregs_of_upd me f h :
  0 ≤ me < zlen (sysregs h) →
  sysregs_of me (set_sysregs (zset (sysregs h) me (f (sysregs_of me h))) h) = f (sysregs_of me h).
Proof. intros Hme. unfold sysregs_of at 1. cbn [sysregs set_sysregs]. by rewrite zget_zset_eq. Qed.

Lemma set_core_data_spec m d h h' :
  set_core_data m d h = Some h' → get_core_data m h' = Some d ∧ sysregs h' = sysregs h.
Proof.
  unfold set_core_data, get_core_data. set (c := Z.shiftr _ _).
  destruct (vget (dormant_data h) c) as [cl|]; [|done]. cbn [mbind option_bind].
  destruct (vput cl _ d) as [cl'|] eqn:Hcl; [|done]. cbn [mbind option_bind].
  destruct (vput (dormant_data h) c cl') as [sys|] eqn:Hsys; [|done]. intros [= <-].
  cbn [dormant_data set_dormant_data]. rewrite (vget_vput _ _ _ _ _ Hsys), decide_True by done.
  cbn [mbind option_bind]. by rewrite (vget_vput _ _ _ _ _ Hcl), decide_True by done.
Qed.

Lemma stp_spec {n} i a b (v v' : vec Z n) :
  stp i a b v = Some v' → ldp i v' = Some (a, b) ∧ ∀ j, j + 1 < i ∨ i + 1 < j → ldp j v' = ldp j v.
Proof.
  unfold stp, ldp. destruct (vput v i a) as [v1|] eqn:H1; [|done]. cbn [mbind option_bind]. intros H2.
  split; [|intros j Hj]; cbn [mbind option_bind]; rewrite !(vget_vput _ _ _ _ _ H2), !(vget_vput _ _ _ _ _ H1).
  - rewrite (decide_False (P := i + 1 = i)), !decide_True by lia. done.
  - rewrite !decide_False by lia. done.
Qed.

Section TimerContext.
Context (assertions instrumentation extended_id : bool) `{env : MtkEnv}.
#[local] Hint Extern 0 Config =>
  exact (mt7981_config assertions instrumentation extended_id) : typeclass_instances.

Lemma level_1_eq x y z la me h : MTK_CLUSTER_PWR_STATE (PowerState [x; y; z] la) me h = HRet y h.
Proof. done. Qed.
Lemma level_2_eq x y z la me h : MTK_SYSTEM_PWR_STATE (PowerState [x; y; z] la) me h = HRet z h.
Proof. done. Qed.

(** Saving: the context holds the six registers, and the timer is stopped. *)
Lemma save_context_eq m me h :
  0 ≤ me < zlen (sysregs h) → is_valid_mpidr (H:=mtk_hw) m = true →
  ∃ core h1, mt_platform_save_context m me h = HRet tt h1 ∧ get_core_data m h1 = Some core ∧
    zlen (sysregs h1) = zlen (sysregs h) ∧
    (let r := sysregs_of me h in
     ldp 0 (timer_data core) = Some (cntkctl_el1 r, cntp_cval_el0 r) ∧
     ldp 2 (timer_data core) = Some (cntp_tval_el0 r, cntp_ctl_el0 r) ∧
     ldp 4 (timer_data core) = Some (cntv_tval_el0 r, cntv_ctl_el0 r)) ∧
    cntp_ctl_el0 (sysregs_of me h1) = clr_cntp_ctl_enable (cntp_ctl_el0 (sysregs_of me h)).
Proof.
  intros Hme Hv. set (r := sysregs_of me h).
  destruct (mtk_core_data_ok assertions instrumentation extended_id m h (CoreContext (vreplicate 8 0) 0 0 0 0) Hv) as [[core Hcore] _].
  destruct (stp_is_Some 0 (cntkctl_el1 r) (cntp_cval_el0 r) (timer_data core)) as [c1 H1]; [lia..|].
  destruct (stp_is_Some 2 (cntp_tval_el0 r) (cntp_ctl_el0 r) c1) as [c2 H2]; [lia..|].
  destruct (stp_is_Some 4 (cntv_tval_el0 r) (cntv_ctl_el0 r) c2) as [c3 H3]; [lia..|].
  destruct (mtk_core_data_ok assertions instrumentation extended_id m h (with_timer_data c3 core) Hv) as [_ [hs Hset]].
  destruct (set_core_data_spec _ _ _ _ Hset) as [Hget Hregs].
  assert (Hr : sysregs_of me hs = r) by (unfold sysregs_of; by rewrite Hregs).
  pose proof (sysregs_of_upd me (with_cntp_ctl (clr_cntp_ctl_enable (cntp_ctl_el0 r))) hs) as Hupd.
  rewrite Hregs, Hr in Hupd. specialize (Hupd Hme).
  exists (with_timer_data c3 core), (set_sysregs (zset (sysregs hs) me (with_cntp_ctl (clr_cntp_ctl_enable (cntp_ctl_el0 r)) r)) hs).
  split_and!.
  - unfold mt_platform_save_context, mt_cpu_save, mt_save_generic_timer, hbind, hget.
    rewrite Hcore. cbn [hsome hret]. fold r. rewrite H1. cbn [hsome hret]. rewrite H2. cbn [hsome hret].
    rewrite H3. cbn [hsome hret]. rewrite Hset. cbn [hsome hret hmod].
    unfold stop_generic_timer, hbind, read_sysreg, hget, upd_sysregs. by rewrite Hr.
  - exact Hget.
  - cbn [sysregs set_sysregs]. by rewrite zlen_zset, Hregs.
  - cbv zeta. cbn [timer_data with_timer_data].
    destruct (stp_spec _ _ _ _ _ H1) as [L1 _], (stp_spec _ _ _ _ _ H2) as [L2 K2], (stp_spec _ _ _ _ _ H3) as [L3 K3].
    by rewrite (K3 0), (K3 2), (K2 0), L1, L2, L3 by lia.
  - rewrite Hregs, Hupd. done.
Qed.

(** The timer context survives.  For a CPU whose MPIDR the port knows,
    pwr_domain_suspend saves the six timer registers and stops the physical
    timer; after the power was lost and came back, pwr_domain_suspend_finish
    for a power-down state brings all six back to their values before the
    suspend; both hooks return. *)
Theorem timer_context_round_trip me h st st' :
  0 ≤ me < zlen (sysregs h) → is_valid_mpidr (H:=mtk_hw) (mpidr_el1 me) = true →
  ps_dims st → ps_dims st' → pds st' MTK_PWR_LVL0 ≠ MTK_LOCAL_STATE_RET →
  ∃ h1, mtk_plat_power_domain_suspend st me h = HRet tt h1 ∧
    cntp_ctl_el0 (sysregs_of me h1) = clr_cntp_ctl_enable (cntp_ctl_el0 (sysregs_of me h)) ∧
    ∀ h2, power_lost h1 h2 →
      ∃ h3, mtk_plat_power_domain_suspend_finish st' me h2 = HRet tt h3 ∧
        timer_of (sysregs_of me h3) = timer_of (sysregs_of me h).
Proof.
  intros Hme Hv Hst Hst' Hret.
  apply (mtk_dims assertions instrumentation extended_id) in Hst as (x & y & z & la & ->).
  apply (mtk_dims assertions instrumentation extended_id) in Hst' as (x' & y' & z' & la' & ->).
  destruct (save_context_eq (mpidr_el1 me) me h Hme Hv) as (core & h1 & Hsave & Hget & Hlen & (L1 & L2 & L3) & Hctl).
  exists h1. split; [|split; [done|]].
  { unfold mtk_plat_power_domain_suspend, hbind, hget. by rewrite level_2_eq, Hsave, level_1_eq, level_2_eq. }
  intros h2 [Hlen2 Hdd].
  assert (Hget2 : get_core_data (mpidr_el1 me) h2 = Some core) by (unfold get_core_data in *; by rewrite Hdd).
  change (pds _ MTK_PWR_LVL0) with x' in Hret.
  eexists. split.
  - unfold mtk_plat_power_domain_suspend_finish, hbind, hget, level_state.
    change (hsome (zget (pwr_domain_state (PowerState [x'; y'; z'] la')) MTK_PWR_LVL0) me h2) with (HRet x' h2).
    cbv iota beta. rewrite (proj2 (Z.eqb_neq _ _) Hret), level_2_eq, level_1_eq.
    unfold mt_platform_restore_context, mt_cpu_restore, mt_restore_generic_timer, hbind, hget.
    rewrite Hget2. cbn [hsome hret]. rewrite L1. cbn [hsome hret]. rewrite L2. cbn [hsome hret]. rewrite L3.
    cbn [hsome hret fst snd]. unfold upd_sysregs. by rewrite level_2_eq.
  - rewrite (sysregs_of_upd me (with_timer _ _ _ _ _ _)) by lia. done.
Qed.
End TimerContext.

Lemma timer_context_round_trip_witness :
  ∃ h1 h3, mtk_plat_power_domain_suspend (PowerState [2; 2; 2] 0) 1 demo_hw = HRet tt h1 ∧
    mtk_plat_power_domain_suspend_finish (PowerState [2; 2; 2] 0) 1 h1 = HRet tt h3 ∧
    timer_of (sysregs_of 1 h3) = timer_of (sysregs_of 1 demo_hw).
Proof.
  destruct (timer_context_round_trip true false false 1 demo_hw (PowerState [2; 2; 2] 0) (PowerState [2; 2; 2] 0))
    as (h1 & H1 & _ & Hback); [vm_compute; split; [discriminate|reflexivity]|reflexivity|reflexivity|reflexivity|discriminate|].
  destruct (Hback h1) as (h3 & H3 & Ht); [split; reflexivity|].
  exists h1, h3. split; [exact H1|]. split; [exact H3|exact Ht].
Defined.

(** ** CPU standby *)

(** CPU standby.  plat_cpu_standby() waits exactly once, with IRQs routed
    to EL3 so that they wake the CPU; when it continues, in whatever state the
    hardware then is, it returns with SCR_EL3 holding the low 32 bits of its
    value before, that is, exactly restored if and only if that value fits 32
    bits. *)
Theorem cpu_standby_restores_scr cpu_state me h :
  0 ≤ me < zlen (sysregs h) →
  ∃ h1 k, plat_cpu_standby cpu_state me h = WWfi h1 k ∧
    Z.testbit (scr_el3 (sysregs_of me h1)) 1 = true ∧
    ∀ h2, zlen (sysregs h2) = zlen (sysregs h) → ∃ h3, k h2 = WNow (HRet tt h3) ∧
      (scr_el3 (sysregs_of me h3) = scr_el3 (sysregs_of me h) ↔ 0 ≤ scr_el3 (sysregs_of me h) < 2 ^ 32).
Proof.
  intros Hme. unfold plat_cpu_standby, hwfi, hbind, read_sysreg, hget, upd_sysregs, hret.
  eexists _, _. split; [reflexivity|]. split.
  - rewrite (sysregs_of_upd me (with_scr _)) by done. cbn [scr_el3 with_scr]. rewrite Z.lor_spec.
    unfold SCR_IRQ_BIT. rewrite Z.shiftl_1_l, Z.pow2_bits_true by lia. apply orb_true_r.
  - intros h2 Hlen. eexists. split; [reflexivity|].
    rewrite (sysregs_of_upd me (with_scr _)) by lia. cbn [scr_el3 with_scr].
    pose proof (u32_range (scr_el3 (sysregs_of me h))). split; [lia|]. intros Hs. by apply u32_small.
Qed.

Lemma cpu_standby_restores_scr_witness :
  ∃ h1 k, plat_cpu_standby 1 0 demo_hw = WWfi h1 k ∧
    ∃ h3, k demo_hw = WNow (HRet tt h3) ∧ scr_el3 (sysregs_of 0 h3) = 0x501.
Proof.
  destruct (cpu_standby_restores_scr 1 0 demo_hw) as (h1 & k & Hw & _ & Hk).
  - vm_compute. split; [discriminate|reflexivity].
  - exists h1, k. split; [exact Hw|]. destruct (Hk demo_hw eq_refl) as (h3 & H3 & Hiff).
    exists h3. split; [exact H3|]. apply Hiff. vm_compute. split; [discriminate|reflexivity].
Defined.
