(* ===== verification/Bytes.v ===== *)
(** * Byte buffers

    The error numbers and the memory operations of C the storage code uses: memset, memcpy, memcmp
    and reads of little-endian integers, over buffers that are lists of bytes.
    An access outside a buffer is undefined in C and has no result here. *)

From stdpp Require Import base list numbers list_numbers.
From Stdlib Require Import ZArith Lia.
From S2P Require Import Prelude.
Open Scope Z_scope.

(** ** Error numbers (include/linux/errno.h) *)

Definition EIO : Z := 5.
Definition ENOMEM : Z := 12.
Definition ENODEV : Z := 19.
Definition EINVAL : Z := 22.
Definition EROFS : Z := 30.
Definition ENODATA : Z := 61.
Definition EBADMSG : Z := 74.
Definition EOVERFLOW : Z := 75.
Definition ENOBUFS : Z := 105.
Definition ENOTSUPP : Z := 524.

(** ** Integers *)

(** [int32_t]: the two's complement reading of the low 32 bits. *)
Definition s32 (x : Z) : Z := (x + 2 ^ 31) `mod` 2 ^ 32 - 2 ^ 31.

Lemma s32_small x : - 2 ^ 31 ≤ x < 2 ^ 31 → s32 x = x.
Proof. intros ?. unfold s32. rewrite Z.mod_small; lia. Qed.

Lemma add_disjoint a b : Z.land a b = 0 → Z.lor a b = a + b.
Proof. intros H. rewrite <- Z.lxor_lor by done. symmetry. by apply Z.add_nocarry_lxor. Qed.

Lemma lor_shiftl a b n : 0 ≤ n → 0 ≤ b < 2 ^ n → Z.lor (Z.shiftl a n) b = a * 2 ^ n + b.
Proof.
  intros Hn Hb. rewrite <- Z.shiftl_mul_pow2 by lia. apply add_disjoint. apply Z.bits_inj'. intros i Hi.
  rewrite Z.land_spec, Z.bits_0. destruct (decide (i < n)).
  - by rewrite Z.shiftl_spec_low by lia.
  - rewrite <- (Z.mod_small b (2 ^ n)), Z.mod_pow2_bits_high by lia. apply andb_false_r.
Qed.

Lemma s32_range x : - 2 ^ 31 ≤ s32 x < 2 ^ 31.
Proof. unfold s32. pose proof (Z.mod_pos_bound (x + 2 ^ 31) (2 ^ 32)). lia. Qed.

(** The size of a chunk of at most [chunk_sz] of [n] bytes, which the loops
    that trigger the watchdog keep in an int. *)
Lemma chunk_range chunk_sz n : 0 < chunk_sz < 2 ^ 31 → 0 < n < 2 ^ 32 →
  let chunk := if chunk_sz <? u32 (s32 n) then s32 chunk_sz else s32 n in 0 < chunk ≤ n ∧ chunk < 2 ^ 31.
Proof.
  intros Hc Hn. assert (Hu : u32 (s32 n) = n).
  { unfold u32, s32. rewrite Zminus_mod_idemp_l. rewrite Z.mod_small; lia. }
  rewrite Hu. destruct (Z.ltb_spec chunk_sz n); rewrite s32_small by lia; lia.
Qed.

Definition is_byte (b : Z) : Prop := 0 ≤ b < 256.

Lemma testbit_high x k i : 0 ≤ x < 2 ^ k → k ≤ i → Z.testbit x i = false.
Proof.
  intros Hx Hi. destruct (decide (0 ≤ k)); [|rewrite Z.pow_neg_r in Hx; lia].
  rewrite <- (Z.mod_small x (2 ^ k)) by done. by apply Z.mod_pow2_bits_high; lia.
Qed.

Lemma lxor_range k a b : 0 ≤ k → 0 ≤ a < 2 ^ k → 0 ≤ b < 2 ^ k → 0 ≤ Z.lxor a b < 2 ^ k.
Proof.
  intros Hk Ha Hb. assert (Z.lxor a b `mod` 2 ^ k = Z.lxor a b) as <-; [|apply Z.mod_pos_bound; lia].
  apply Z.bits_inj'. intros i Hi. destruct (decide (i < k)); [by rewrite Z.mod_pow2_bits_low by lia|].
  rewrite Z.mod_pow2_bits_high, Z.lxor_spec, (testbit_high a k), (testbit_high b k) by lia. done.
Qed.

(** ** memset, memcpy and reads *)

(** [memset(buf + off, v, n)]. *)
Definition mem_fill (buf : list Z) (off n v : Z) : option (list Z) :=
  if decide (0 ≤ off ∧ 0 ≤ n ∧ off + n ≤ zlen buf)
  then Some (take (Z.to_nat off) buf ++ replicate (Z.to_nat n) v ++ drop (Z.to_nat (off + n)) buf)
  else None.

(** [memcpy(dst + off, src, n)]. *)
Definition mem_copy (dst : list Z) (off : Z) (src : list Z) (n : Z) : option (list Z) :=
  if decide (0 ≤ off ∧ 0 ≤ n ≤ zlen src ∧ off + n ≤ zlen dst)
  then Some (take (Z.to_nat off) dst ++ take (Z.to_nat n) src ++ drop (Z.to_nat (off + n)) dst)
  else None.

(** The [n] bytes at [buf + off]. *)
Definition mem_read (buf : list Z) (off n : Z) : option (list Z) :=
  if decide (0 ≤ off ∧ 0 ≤ n ∧ off + n ≤ zlen buf) then Some (zslice buf off n) else None.

Lemma zlen_app {A} (l k : list A) : zlen (l ++ k) = zlen l + zlen k.
Proof. unfold zlen. rewrite length_app. lia. Qed.

Lemma zlen_nonneg {A} (l : list A) : 0 ≤ zlen l.
Proof. unfold zlen. lia. Qed.

Lemma zlen_take {A} (l : list A) n : 0 ≤ n ≤ zlen l → zlen (take (Z.to_nat n) l) = n.
Proof. unfold zlen. rewrite length_take. lia. Qed.

Lemma zlen_drop {A} (l : list A) n : 0 ≤ n ≤ zlen l → zlen (drop (Z.to_nat n) l) = zlen l - n.
Proof. unfold zlen. rewrite length_drop. lia. Qed.

Lemma zlen_replicate {A} n (x : A) : 0 ≤ n → zlen (replicate (Z.to_nat n) x) = n.
Proof. unfold zlen. rewrite length_replicate. lia. Qed.

Lemma zlen_zslice {A} (l : list A) off n :
  0 ≤ off → 0 ≤ n → off + n ≤ zlen l → zlen (zslice l off n) = n.
Proof. unfold zslice, zlen. rewrite length_take, length_drop. lia. Qed.

Lemma mem_fill_ok buf off n v :
  0 ≤ off → 0 ≤ n → off + n ≤ zlen buf →
  ∃ buf', mem_fill buf off n v = Some buf' ∧ zlen buf' = zlen buf.
Proof.
  intros. unfold mem_fill. rewrite decide_True by lia. eexists. split; [done|].
  rewrite !zlen_app, zlen_take, zlen_replicate, zlen_drop by lia. lia.
Qed.

Lemma mem_copy_ok dst off src n :
  0 ≤ off → 0 ≤ n ≤ zlen src → off + n ≤ zlen dst →
  ∃ dst', mem_copy dst off src n = Some dst' ∧ zlen dst' = zlen dst.
Proof.
  intros. unfold mem_copy. rewrite decide_True by lia. eexists. split; [done|].
  rewrite !zlen_app, !zlen_take, zlen_drop by lia. lia.
Qed.

Lemma mem_read_ok buf off n :
  0 ≤ off → 0 ≤ n → off + n ≤ zlen buf → mem_read buf off n = Some (zslice buf off n).
Proof. intros. unfold mem_read. by rewrite decide_True by lia. Qed.

(** What a copy left at the place it went to, and elsewhere. *)
Lemma mem_copy_read dst off src n dst' :
  mem_copy dst off src n = Some dst' → mem_read dst' off n = Some (take (Z.to_nat n) src).
Proof.
  unfold mem_copy. case_decide as Hd; [|done]. intros [= <-]. unfold mem_read.
  rewrite decide_True; last first.
  { rewrite !zlen_app, !zlen_take, zlen_drop by lia. lia. }
  f_equal. unfold zslice.
  rewrite drop_app_length' by (rewrite length_take; unfold zlen in *; lia).
  rewrite take_app_length' by (rewrite length_take; unfold zlen in *; lia). done.
Qed.

Lemma mem_copy_read_other dst off src n dst' off' n' :
  mem_copy dst off src n = Some dst' → 0 ≤ off' → 0 ≤ n' →
  off' + n' ≤ off ∨ off + n ≤ off' → mem_read dst' off' n' = mem_read dst off' n'.
Proof.
  unfold mem_copy. case_decide as Hd; [|done]. intros [= <-] Ho Hn Hsep. unfold mem_read.
  assert (Hlen : zlen (take (Z.to_nat off) dst ++ take (Z.to_nat n) src ++ drop (Z.to_nat (off + n)) dst)
                 = zlen dst).
  { rewrite !zlen_app, !zlen_take, zlen_drop by lia. lia. }
  rewrite Hlen. case_decide as Hb; [|done]. f_equal. unfold zslice. unfold zlen in *.
  apply list_eq. intros i. destruct (decide (i < Z.to_nat n')%nat) as [Hi|Hi].
  2:{ rewrite !lookup_take_ge by lia. done. }
  rewrite !lookup_take_lt, !lookup_drop by lia.
  destruct Hsep as [Hs|Hs].
  - rewrite lookup_app_l by (rewrite length_take; lia). by rewrite lookup_take_lt by lia.
  - rewrite lookup_app_r by (rewrite length_take; lia).
    rewrite lookup_app_r by (rewrite !length_take; lia).
    rewrite lookup_drop, !length_take. f_equal. lia.
Qed.

(** ** Little-endian integers *)

Fixpoint le_bytes (n : nat) (x : Z) : list Z :=
  match n with
  | O => []
  | S n' => x `mod` 256 :: le_bytes n' (x / 256)
  end.

Fixpoint le_val (l : list Z) : Z :=
  match l with
  | [] => 0
  | b :: l' => b + 256 * le_val l'
  end.

(** A 32-bit load from [buf + off]. *)
Definition rd32 (buf : list Z) (off : Z) : option Z := le_val <$> mem_read buf off 4.

Lemma length_le_bytes n x : length (le_bytes n x) = n.
Proof. revert x. induction n as [|n IH]; intros x; simpl; [done|]. by rewrite IH. Qed.

Lemma zlen_le_bytes n x : zlen (le_bytes n x) = Z.of_nat n.
Proof. unfold zlen. by rewrite length_le_bytes. Qed.

Lemma le_val_bytes n x : le_val (le_bytes n x) = x `mod` 256 ^ Z.of_nat n.
Proof.
  revert x. induction n as [|n IH]; intros x; [by rewrite Z.mod_1_r|].
  cbn [le_bytes le_val]. rewrite IH, Nat2Z.inj_succ, Z.pow_succ_r by lia.
  assert (0 < 256 ^ Z.of_nat n) by lia.
  rewrite Z.rem_mul_r by lia. done.
Qed.

Lemma le_bytes_val l : Forall is_byte l → le_bytes (length l) (le_val l) = l.
Proof.
  unfold is_byte. induction 1 as [|b l Hb Hl IH]; [done|]. cbn [length le_bytes le_val].
  rewrite Z.mul_comm, Z.mod_add, Z.div_add, Z.mod_small, Z.div_small by lia.
  by rewrite Z.add_0_l, IH.
Qed.

Lemma le_bytes_is_byte n x : Forall is_byte (le_bytes n x).
Proof.
  revert x. induction n as [|n IH]; intros x; simpl; constructor; [|done].
  unfold is_byte. pose proof (Z.mod_pos_bound x 256). lia.
Qed.

Lemma le_val_range l : Forall is_byte l → 0 ≤ le_val l < 256 ^ zlen l.
Proof.
  unfold is_byte. induction 1 as [|b l Hb Hl IH]; [done|]. cbn [le_val].
  replace (zlen (b :: l)) with (Z.succ (zlen l)) by (unfold zlen; simpl; lia).
  pose proof (zlen_nonneg l). rewrite Z.pow_succ_r by lia. lia.
Qed.

(** Arrays of 32-bit integers as memory. *)
Fixpoint bytes_of_words (l : list Z) : list Z :=
  match l with
  | [] => []
  | w :: l' => le_bytes 4 w ++ bytes_of_words l'
  end.

Fixpoint words_of_bytes (n : nat) (l : list Z) : list Z :=
  match n with
  | O => []
  | S n' => le_val (take 4 l) :: words_of_bytes n' (drop 4 l)
  end.

Lemma zlen_bytes_of_words l : zlen (bytes_of_words l) = 4 * zlen l.
Proof.
  induction l as [|w l IH]; [done|]. cbn [bytes_of_words].
  rewrite zlen_app, zlen_le_bytes, IH. unfold zlen. simpl. lia.
Qed.

Lemma words_of_bytes_of_words l :
  words_of_bytes (length l) (bytes_of_words l) = u32 <$> l.
Proof.
  induction l as [|w l IH]; [done|]. cbn [length words_of_bytes bytes_of_words].
  rewrite take_app_length' by (by rewrite length_le_bytes).
  rewrite drop_app_length' by (by rewrite length_le_bytes).
  by rewrite le_val_bytes, IH.
Qed.

Lemma length_words_of_bytes n l : length (words_of_bytes n l) = n.
Proof. revert l. induction n as [|n IH]; intros l; simpl; [done|]. by rewrite IH. Qed.

Lemma bytes_of_words_is_byte l : Forall is_byte (bytes_of_words l).
Proof.
  induction l as [|w l IH]; [constructor|]. cbn [bytes_of_words].
  apply Forall_app_2; [apply le_bytes_is_byte|done].
Qed.

(** ** Buffers in parts *)

Lemma mem_read_app_r a b off n :
  zlen a ≤ off → mem_read (a ++ b) off n = mem_read b (off - zlen a) n.
Proof.
  intros Ho. unfold mem_read. rewrite zlen_app. pose proof (zlen_nonneg a).
  case_decide as H1; case_decide as H2; try lia; [|done]. f_equal. unfold zslice.
  rewrite drop_app_ge by (unfold zlen in *; lia). do 2 f_equal. unfold zlen. lia.
Qed.

Lemma mem_read_here a b n : zlen a = n → mem_read (a ++ b) 0 n = Some a.
Proof.
  intros <-. unfold mem_read. rewrite zlen_app. pose proof (zlen_nonneg a). pose proof (zlen_nonneg b).
  rewrite decide_True by lia. unfold zslice, zlen.
  by rewrite drop_0, Nat2Z.id, take_app_length.
Qed.

Lemma mem_copy_here a old b src n :
  zlen old = n → zlen src = n → mem_copy (a ++ old ++ b) (zlen a) src n = Some (a ++ src ++ b).
Proof.
  intros Ho Hs. unfold mem_copy. rewrite !zlen_app.
  pose proof (zlen_nonneg a). pose proof (zlen_nonneg b). pose proof (zlen_nonneg src).
  rewrite decide_True by lia. unfold zlen in *. f_equal.
  rewrite take_app_length' by lia. rewrite (take_ge src) by lia.
  rewrite (app_assoc a old b), drop_app_length' by (rewrite length_app; lia). done.
Qed.

(** Only the first [n] bytes of the source count. *)
Lemma mem_copy_take dst off src n : n ≤ zlen src → mem_copy dst off src n = mem_copy dst off (take (Z.to_nat n) src) n.
Proof.
  intros Hn. unfold mem_copy. rewrite take_take, Nat.min_id. case_decide as H1.
  - rewrite decide_True; [done|]. rewrite zlen_take; lia.
  - rewrite decide_False; [done|]. intros H2. apply H1. unfold zlen in *. rewrite length_take in H2. lia.
Qed.

Lemma mem_fill_here a old b n v :
  zlen old = n → mem_fill (a ++ old ++ b) (zlen a) n v = Some (a ++ replicate (Z.to_nat n) v ++ b).
Proof.
  intros Ho. unfold mem_fill. rewrite !zlen_app. pose proof (zlen_nonneg a). pose proof (zlen_nonneg b).
  pose proof (zlen_nonneg old). rewrite decide_True by lia. unfold zlen in *. f_equal.
  rewrite take_app_length' by lia. rewrite (app_assoc a old b), drop_app_length' by (rewrite length_app; lia). done.
Qed.

Lemma mem_read_mid a b c off n : off = zlen a → n = zlen b → mem_read (a ++ b ++ c) off n = Some b.
Proof. intros -> ->. rewrite mem_read_app_r, Z.sub_diag by lia. by apply mem_read_here. Qed.

Lemma mem_copy_0 old b src n :
  zlen old = n → zlen src = n → mem_copy (old ++ b) 0 src n = Some (src ++ b).
Proof. apply (mem_copy_here [] old b src n). Qed.

Lemma mem_split (b : list Z) n : 0 ≤ n ≤ zlen b → ∃ x y, b = x ++ y ∧ zlen x = n ∧ zlen y = zlen b - n.
Proof.
  intros. exists (take (Z.to_nat n) b), (drop (Z.to_nat n) b).
  by rewrite take_drop, zlen_take, zlen_drop by lia.
Qed.

Lemma rd32_here x r : rd32 (le_bytes 4 x ++ r) 0 = Some (u32 x).
Proof.
  unfold rd32. rewrite mem_read_here by apply zlen_le_bytes. cbn [fmap option_fmap option_map]. by rewrite le_val_bytes.
Qed.

Lemma rd32_app_r a b off : zlen a ≤ off → rd32 (a ++ b) off = rd32 b (off - zlen a).
Proof. intros. unfold rd32. by rewrite mem_read_app_r. Qed.

Lemma rd32_skip x r off : 4 ≤ off → rd32 (le_bytes 4 x ++ r) off = rd32 r (off - 4).
Proof. intros. by rewrite rd32_app_r by (by rewrite zlen_le_bytes). Qed.

Lemma mem_copy_len dst off src n dst' : mem_copy dst off src n = Some dst' → zlen dst' = zlen dst.
Proof.
  unfold mem_copy. case_decide; [|done]. intros [= <-]. rewrite !zlen_app, !zlen_take, zlen_drop by lia. lia.
Qed.

Lemma mem_fill_len buf off n v buf' : mem_fill buf off n v = Some buf' → zlen buf' = zlen buf.
Proof.
  unfold mem_fill. case_decide; [|done]. intros [= <-].
  rewrite !zlen_app, zlen_take, zlen_replicate, zlen_drop by lia. lia.
Qed.
