(* ===== verification/Crc32.v ===== *)
(** * CRC-32 (u-boot lib/crc32.c)

    crc32_no_comp() processes a buffer 32 bits at a time between the bytes
    before the first aligned address and the last few bytes.  The table is the
    one make_crc_table() generates.  The main lemma is that the result is the
    byte-by-byte CRC, whatever the alignment. *)

From stdpp Require Import base list numbers list_numbers.
From Stdlib Require Import ZArith Lia.
From S2P Require Import Prelude Bytes.
Open Scope Z_scope.

(** The exclusive-or pattern from the terms of the polynomial. *)
Definition crc_poly : Z :=
  foldl (λ poly t, Z.lor poly (Z.shiftl 1 (31 - t))) 0 [0; 1; 2; 4; 5; 7; 8; 10; 11; 12; 16; 22; 23; 26].

Fixpoint crc_shift (k : nat) (c : Z) : Z :=
  match k with
  | O => c
  | S k' => crc_shift k' (if cbool (Z.land c 1) then Z.lxor crc_poly (Z.shiftr c 1) else Z.shiftr c 1)
  end.

Definition make_crc_table : list Z := map (λ n, crc_shift 8 (Z.of_nat n)) (seq 0 256).

Definition crc_table : list Z := Eval vm_compute in make_crc_table.

(** [DO_CRC(x)] on a little-endian machine. *)
Definition DO_CRC (crc x : Z) : Z :=
  Z.lxor (default 0 (zget crc_table (Z.land (Z.lxor crc x) 255))) (Z.shiftr crc 8).

(** The bytes before the first aligned address: a do-while loop. *)
Fixpoint crc_align (addr crc : Z) (buf : list Z) : Z * list Z :=
  match buf with
  | [] => (crc, [])
  | b :: buf' =>
      if cbool (Z.land addr 3) then crc_align (addr + 1) (DO_CRC crc b) buf' else (crc, buf)
  end.

(** [n] words. *)
Fixpoint crc_words (n : nat) (crc : Z) (buf : list Z) : Z * list Z :=
  match n with
  | O => (crc, buf)
  | S n' =>
      let crc := Z.lxor crc (le_val (take 4 buf)) in
      crc_words n' (DO_CRC (DO_CRC (DO_CRC (DO_CRC crc 0) 0) 0) 0) (drop 4 buf)
  end.

(** [addr] is the address of [buf], which holds the [len] bytes. *)
Definition crc32_no_comp (addr crc : Z) (buf : list Z) : Z :=
  let '(crc, buf) := crc_align addr crc buf in
  let rem_len := Z.land (zlen buf) 3 in
  let '(crc, buf) := crc_words (Z.to_nat (Z.shiftr (zlen buf) 2)) crc buf in
  foldl DO_CRC crc (take (Z.to_nat rem_len) buf).

(** The CRC with the initial and final complement. *)
Definition crc32 (addr crc : Z) (buf : list Z) : Z :=
  Z.lxor (crc32_no_comp addr (Z.lxor crc 0xffffffff) buf) 0xffffffff.

(** A round of the loop that triggers the watchdog; [curr] is an offset. *)
Definition crc_wd_step {St} (addr : Z) (buf : list Z) (chunk_sz : Z) (s : Z * Z) : M St (bool * (Z * Z)) :=
  let '(curr, crc) := s in
  if negb (curr <? zlen buf) then ret (true, s)
  else
    let chunk := s32 (zlen buf - curr) in
    let chunk := if chunk_sz <? u32 chunk then s32 chunk_sz else chunk in
    part ← some (mem_read buf curr (u32 chunk));
    ret (false, (curr + chunk, crc32 (addr + curr) crc part)).

(** [wdt] is whether the watchdog is configured. *)
Definition crc32_wd {St} (wdt : bool) (addr crc : Z) (buf : list Z) (chunk_sz : Z) : M St Z :=
  if wdt then '(_, crc) ← while_brk (S (length buf)) (crc_wd_step addr buf chunk_sz) (0, crc); ret crc
  else ret (crc32 addr crc buf).

(** nmbm_crc32() of include/nmbm/nmbm-os.h: chunks of at most UINT_MAX bytes. *)
Definition UINT_MAX : Z := 2 ^ 32 - 1.

Fixpoint nmbm_crc32_loop (n : nat) (addr crc : Z) (buf : list Z) : Z :=
  match n with
  | O => crc
  | S n' =>
      match buf with
      | [] => crc
      | _ =>
          let chksz := if UINT_MAX <? zlen buf then UINT_MAX else zlen buf in
          nmbm_crc32_loop n' (addr + chksz) (crc32_no_comp addr crc (take (Z.to_nat chksz) buf))
            (drop (Z.to_nat chksz) buf)
      end
  end.

Definition nmbm_crc32 (addr crc : Z) (buf : list Z) : Z :=
  nmbm_crc32_loop (length buf) addr crc buf.

(** ** The byte-by-byte definition *)

Definition crc32_bytes (crc : Z) (buf : list Z) : Z := foldl DO_CRC crc buf.

Lemma land_255_lxor c w : Z.land (Z.lxor c (w `mod` 256)) 255 = Z.land (Z.lxor c w) 255.
Proof.
  apply Z.bits_inj'. intros i Hi. rewrite !Z.land_spec, !Z.lxor_spec.
  change 256 with (2 ^ 8). change 255 with (Z.ones 8).
  destruct (decide (i < 8)).
  - by rewrite Z.mod_pow2_bits_low by lia.
  - rewrite Z.ones_spec_high by lia. by rewrite !andb_false_r.
Qed.

(** Four bytes exclusive-or'ed in at once are taken one per step. *)
Lemma DO_CRC_lxor c w : DO_CRC (Z.lxor c w) 0 = Z.lxor (DO_CRC c (w `mod` 256)) (Z.shiftr w 8).
Proof.
  unfold DO_CRC. rewrite Z.lxor_0_r, land_255_lxor, Z.shiftr_lxor.
  by rewrite Z.lxor_assoc.
Qed.

Lemma le_val_shift b l : 0 ≤ b < 256 → Z.shiftr (le_val (b :: l)) 8 = le_val l ∧ le_val (b :: l) `mod` 256 = b.
Proof.
  intros Hb. cbn [le_val]. rewrite Z.shiftr_div_pow2 by lia. change (2 ^ 8) with 256. split.
  - rewrite Z.mul_comm, Z.div_add, Z.div_small by lia. lia.
  - rewrite Z.mul_comm, Z.mod_add by lia. by apply Z.mod_small.
Qed.

Lemma crc_word_step crc a b c d :
  is_byte a → is_byte b → is_byte c → is_byte d →
  DO_CRC (DO_CRC (DO_CRC (DO_CRC (Z.lxor crc (le_val [a; b; c; d])) 0) 0) 0) 0 =
  DO_CRC (DO_CRC (DO_CRC (DO_CRC crc a) b) c) d.
Proof.
  unfold is_byte. intros Ha Hb Hc Hd.
  rewrite DO_CRC_lxor. destruct (le_val_shift a [b; c; d] Ha) as [-> ->].
  rewrite DO_CRC_lxor. destruct (le_val_shift b [c; d] Hb) as [-> ->].
  rewrite DO_CRC_lxor. destruct (le_val_shift c [d] Hc) as [-> ->].
  rewrite DO_CRC_lxor. destruct (le_val_shift d [] Hd) as [-> ->].
  by rewrite Z.lxor_0_r.
Qed.

Lemma crc_words_bytes n crc buf :
  Forall is_byte buf → 4 * Z.of_nat n ≤ zlen buf →
  crc_words n crc buf = (crc32_bytes crc (take (4 * n) buf), drop (4 * n) buf).
Proof.
  revert crc buf. induction n as [|n IH]; intros crc buf Hb Hlen; [done|].
  destruct buf as [|a [|b [|c [|d buf]]]]; unfold zlen in Hlen; cbn [length] in Hlen; try lia.
  rewrite !Forall_cons in Hb. destruct Hb as (Ha & Hb & Hc & Hd & Hbuf).
  replace (4 * S n)%nat with (S (S (S (S (4 * n))))) by lia.
  cbn [crc_words take drop]. rewrite drop_0, take_0, IH by (unfold zlen; auto; lia).
  unfold crc32_bytes. cbn [foldl]. by rewrite crc_word_step.
Qed.

Lemma crc_align_bytes addr crc buf :
  ∃ pre post, buf = pre ++ post ∧ crc_align addr crc buf = (crc32_bytes crc pre, post).
Proof.
  revert addr crc. induction buf as [|b buf IH]; intros addr crc; cbn [crc_align].
  - by exists [], [].
  - destruct (cbool _).
    + destruct (IH (addr + 1) (DO_CRC crc b)) as (pre & post & -> & ->).
      by exists (b :: pre), post.
    + by exists [], (b :: buf).
Qed.

Lemma crc32_bytes_app crc a b : crc32_bytes crc (a ++ b) = crc32_bytes (crc32_bytes crc a) b.
Proof. apply foldl_app. Qed.

Lemma crc32_no_comp_bytes addr crc buf :
  Forall is_byte buf → crc32_no_comp addr crc buf = crc32_bytes crc buf.
Proof.
  intros Hb. unfold crc32_no_comp.
  destruct (crc_align_bytes addr crc buf) as (pre & post & -> & ->).
  apply Forall_app in Hb as [_ Hpost].
  change 3 with (Z.ones 2). rewrite Z.land_ones, Z.shiftr_div_pow2 by lia. change (2 ^ 2) with 4.
  assert (H4 : 4 * Z.of_nat (Z.to_nat (zlen post / 4)) + zlen post `mod` 4 = zlen post)
    by (rewrite Z2Nat.id by (apply Z.div_pos; [apply zlen_nonneg|lia]);
        pose proof (Z.div_mod (zlen post) 4); lia).
  pose proof (Z.mod_pos_bound (zlen post) 4 ltac:(lia)) as Hm.
  rewrite crc_words_bytes; [|done|lia].
  rewrite (take_ge (drop _ _)) by (rewrite length_drop; unfold zlen in *; lia).
  fold (crc32_bytes (crc32_bytes (crc32_bytes crc pre) (take (4 * Z.to_nat (zlen post / 4)) post))
          (drop (4 * Z.to_nat (zlen post / 4)) post)).
  by rewrite <- !crc32_bytes_app, take_drop.
Qed.

Lemma crc32_app addr addr' crc a b : Forall is_byte a → Forall is_byte b →
  crc32 addr' (crc32 addr crc a) b = crc32 addr crc (a ++ b).
Proof.
  intros Ha Hb. unfold crc32. rewrite !crc32_no_comp_bytes by (rewrite ?Forall_app; done).
  by rewrite crc32_bytes_app, Z.lxor_assoc, Z.lxor_nilpotent, Z.lxor_0_r.
Qed.

(** The chunks make no difference. *)
Lemma crc32_wd_crc32 {St} wdt addr buf chunk_sz me (s : St) :
  Forall is_byte buf → zlen buf < 2 ^ 32 → 0 < chunk_sz < 2 ^ 31 →
  crc32_wd wdt addr 0 buf chunk_sz me s = Ret (crc32 0 0 buf) s.
Proof.
  intros Hb Hl Hc. assert (Hadr : crc32 addr 0 buf = crc32 0 0 buf) by (unfold crc32; by rewrite !crc32_no_comp_bytes).
  destruct wdt; [|by rewrite <- Hadr]. unfold crc32_wd, bind at 1.
  assert (Hloop : ∀ fuel curr crc, 0 ≤ curr ≤ zlen buf → zlen buf - curr < Z.of_nat fuel →
    crc = crc32 0 0 (take (Z.to_nat curr) buf) →
    ∃ c, while_brk fuel (crc_wd_step addr buf chunk_sz) (curr, crc) me s = Ret (c, crc32 0 0 buf) s).
  { induction fuel as [|fuel IH]; intros curr crc Hcur Hf ->; [lia|]. cbn [while_brk]. unfold bind at 1, crc_wd_step at 1.
    destruct (Z.ltb_spec curr (zlen buf)) as [Hlt|Hge]; cbn [negb].
    2:{ exists curr. by rewrite take_ge by (unfold zlen in *; lia). }
    set (n := zlen buf - curr) in *. set (chunk := if chunk_sz <? u32 (s32 n) then s32 chunk_sz else s32 n).
    assert (Hchunk : 0 < chunk ≤ n ∧ chunk < 2 ^ 31) by (apply chunk_range; lia).
    clearbody chunk. rewrite u32_small by lia. unfold bind. rewrite mem_read_ok by lia. cbn [some rbind ret].
    apply IH; [lia..|].
    rewrite (crc32_app 0) by (unfold zslice; auto using Forall_take, Forall_drop). f_equal. unfold zslice.
    rewrite Z2Nat.inj_add, <- take_take_drop by lia. done. }
  destruct (Hloop (S (length buf)) 0 0) as [c ->]; [unfold zlen; lia..|done|]. done.
Qed.

Lemma nmbm_crc32_bytes addr crc buf :
  Forall is_byte buf → nmbm_crc32 addr crc buf = crc32_bytes crc buf.
Proof.
  unfold nmbm_crc32. generalize (le_n (length buf)). generalize (length buf) at 2 3 as n.
  intros n. revert addr crc buf. induction n as [|n IH]; intros addr crc buf Hlen Hb.
  - by destruct buf; [|simpl in Hlen; lia].
  - cbn [nmbm_crc32_loop]. destruct buf as [|b buf]; [done|].
    set (l := b :: buf) in *. set (k := if UINT_MAX <? zlen l then UINT_MAX else zlen l).
    assert (Hk : 0 < k ≤ zlen l).
    { unfold k, UINT_MAX, zlen, l. cbn [length]. destruct (Z.ltb_spec (2 ^ 32 - 1) (Z.of_nat (S (length buf)))); lia. }
    rewrite crc32_no_comp_bytes by (by apply Forall_take).
    rewrite IH; [|rewrite length_drop; unfold zlen in Hk; lia|by apply Forall_drop].
    by rewrite <- crc32_bytes_app, take_drop.
Qed.

Lemma crc_table_range i : 0 ≤ default 0 (zget crc_table i) < 2 ^ 32.
Proof.
  assert (Hall : Forall (λ x, 0 ≤ x < 2 ^ 32) crc_table).
  { apply (bool_decide_unpack _). vm_compute. exact I. }
  unfold zget. case_decide; [|done].
  destruct (crc_table !! Z.to_nat i) as [x|] eqn:Hx; [|done].
  rewrite Forall_lookup in Hall. exact (Hall _ _ Hx).
Qed.

(** A CRC register stays 32 bits wide. *)
Lemma crc32_bytes_range crc buf : 0 ≤ crc < 2 ^ 32 → 0 ≤ crc32_bytes crc buf < 2 ^ 32.
Proof.
  revert crc. induction buf as [|b buf IH]; intros crc Hc; [done|].
  apply IH. unfold DO_CRC. apply lxor_range; [lia|apply crc_table_range|].
  rewrite Z.shiftr_div_pow2 by lia. split; [apply Z.div_pos; lia|].
  apply Z.div_lt_upper_bound; lia.
Qed.

(** ** The bit-by-bit definition

    Division of the message by the generator polynomial, one bit at a time,
    least significant bit first. *)

Definition crc_bit (c : Z) : Z :=
  if Z.testbit c 0 then Z.lxor crc_poly (Z.shiftr c 1) else Z.shiftr c 1.

Fixpoint crc_bits (k : nat) (c : Z) : Z :=
  match k with
  | O => c
  | S k' => crc_bits k' (crc_bit c)
  end.

Definition crc32_bitwise (crc : Z) (buf : list Z) : Z :=
  foldl (λ c b, crc_bits 8 (Z.lxor c b)) crc buf.

Lemma crc_shift_bits k c : crc_shift k c = crc_bits k c.
Proof.
  revert c. induction k as [|k IH]; intros c; [done|]. cbn [crc_shift crc_bits]. rewrite IH.
  f_equal. unfold crc_bit, cbool. change 1 with (Z.ones 1) at 1. rewrite Z.land_ones by lia.
  change (2 ^ 1) with 2. rewrite Z.bit0_odd, Zmod_odd. by destruct (Z.odd c).
Qed.

Lemma crc_bit_lxor a b : crc_bit (Z.lxor a b) = Z.lxor (crc_bit a) (crc_bit b).
Proof.
  unfold crc_bit. rewrite Z.lxor_spec, Z.shiftr_lxor.
  destruct (Z.testbit a 0), (Z.testbit b 0); cbn [xorb]; try done.
  - rewrite (Z.lxor_comm crc_poly (Z.shiftr b 1)), <- Z.lxor_assoc.
    rewrite (Z.lxor_comm _ crc_poly), <- !Z.lxor_assoc. by rewrite Z.lxor_nilpotent, Z.lxor_0_l.
  - by rewrite Z.lxor_assoc.
  - rewrite <- !Z.lxor_assoc. by rewrite (Z.lxor_comm crc_poly).
Qed.

Lemma crc_bits_lxor k a b : crc_bits k (Z.lxor a b) = Z.lxor (crc_bits k a) (crc_bits k b).
Proof.
  revert a b. induction k as [|k IH]; intros a b; [done|]. cbn [crc_bits]. by rewrite crc_bit_lxor, IH.
Qed.

Lemma crc_bits_shiftl k h : crc_bits k (Z.shiftl h (Z.of_nat k)) = h.
Proof.
  induction k as [|k IH]; [done|]. cbn [crc_bits].
  assert (He : crc_bit (Z.shiftl h (Z.of_nat (S k))) = Z.shiftl h (Z.of_nat k)); [|by rewrite He].
  unfold crc_bit. rewrite Z.shiftl_spec by lia. rewrite Z.testbit_neg_r by lia.
  rewrite Z.shiftr_shiftl_l by lia. f_equal. lia.
Qed.

(** The entry of the table for the low byte, and the rest shifted down. *)
Lemma crc_byte_split c : Z.lxor (Z.land c 255) (Z.shiftl (Z.shiftr c 8) 8) = c.
Proof.
  apply Z.bits_inj'. intros i Hi. rewrite Z.lxor_spec, Z.land_spec, Z.shiftl_spec by lia.
  change 255 with (Z.ones 8). destruct (decide (i < 8)).
  - rewrite Z.ones_spec_low by lia. rewrite (Z.testbit_neg_r _ (i - 8)) by lia.
    by rewrite andb_true_r, xorb_false_r.
  - rewrite Z.ones_spec_high, andb_false_r, xorb_false_l, Z.shiftr_spec by lia. f_equal. lia.
Qed.

Lemma crc_table_entry i : 0 ≤ i < 256 → default 0 (zget crc_table i) = crc_bits 8 i.
Proof.
  intros Hi. change crc_table with make_crc_table. unfold make_crc_table, zget.
  rewrite decide_True by lia. rewrite list_lookup_fmap, lookup_seq_lt by lia.
  cbn [fmap option_fmap option_map default]. rewrite crc_shift_bits. by replace (Z.of_nat (0 + Z.to_nat i)) with i by lia.
Qed.

Lemma DO_CRC_bits crc b : is_byte b → DO_CRC crc b = crc_bits 8 (Z.lxor crc b).
Proof.
  unfold is_byte. intros Hb. set (x := Z.lxor crc b).
  assert (Hland : 0 ≤ Z.land x 255 < 256).
  { change 255 with (Z.ones 8). rewrite Z.land_ones by lia. apply Z.mod_pos_bound. lia. }
  unfold DO_CRC. fold x. rewrite crc_table_entry by done.
  rewrite <- (crc_byte_split x) at 2. rewrite crc_bits_lxor.
  change (Z.shiftl (Z.shiftr x 8) 8) with (Z.shiftl (Z.shiftr x 8) (Z.of_nat 8)). rewrite crc_bits_shiftl.
  f_equal. unfold x. rewrite Z.shiftr_lxor. rewrite (Z.shiftr_div_pow2 b), Z.div_small by lia. by rewrite Z.lxor_0_r.
Qed.

Lemma crc32_bytes_bitwise crc buf : Forall is_byte buf → crc32_bytes crc buf = crc32_bitwise crc buf.
Proof.
  intros Hb. revert crc. induction Hb as [|b buf Hbyte _ IH]; intros crc; [done|].
  unfold crc32_bytes, crc32_bitwise in *. cbn [foldl]. by rewrite DO_CRC_bits, IH.
Qed.
