(* ===== verification/NmbmTypes.v ===== *)
(** * Data model of NMBM, the NAND mapped-block management of U-Boot

    The structures of include/nmbm/nmbm.h and drivers/mtd/nmbm/nmbm-private.h
    and their layout in memory.  The lower device is the NAND driver, code
    outside this component: its functions are members of the structure, over
    an abstract device state [D]. *)

From stdpp Require Import base list numbers list_numbers.
From Stdlib Require Import ZArith Lia.
From S2P Require Import Prelude Bytes Crc32.
Open Scope Z_scope.

(** ** Constants *)

Definition NMBM_MAGIC_SIGNATURE : Z := 0x304d4d4e.
Definition NMBM_MAGIC_INFO_TABLE : Z := 0x314d4d4e.
Definition NMBM_VERSION_MAKE (major minor : Z) : Z :=
  Z.lor (Z.land major 0xffff) (Z.shiftl (Z.land minor 0xffff) 16).
Definition NMBM_VER : Z := NMBM_VERSION_MAKE 1 0.

Definition NMBM_BITMAP_UNIT_SIZE : Z := 4.
Definition NMBM_BITMAP_BITS_PER_BLOCK : Z := 2.
Definition NMBM_BITMAP_BITS_PER_UNIT : Z := 8 * NMBM_BITMAP_UNIT_SIZE.
Definition NMBM_BITMAP_BLOCKS_PER_UNIT : Z := NMBM_BITMAP_BITS_PER_UNIT / NMBM_BITMAP_BITS_PER_BLOCK.

Definition NMBM_SPARE_BLOCK_MULTI : Z := 1.
Definition NMBM_SPARE_BLOCK_DIV : Z := 2.
Definition NMBM_SPARE_BLOCK_MIN : Z := 2.
Definition NMBM_MGMT_DIV : Z := 16.
Definition NMBM_MGMT_BLOCKS_MIN : Z := 32.
Definition NMBM_TRY_COUNT : Z := 3.

Definition BLOCK_ST_BAD : Z := 0.
Definition BLOCK_ST_NEED_REMAP : Z := 2.
Definition BLOCK_ST_GOOD : Z := 3.
Definition BLOCK_ST_MASK : Z := 3.

Definition NMBM_F_CREATE : Z := 0x01.
Definition NMBM_F_EMPTY_PAGE_ECC_OK : Z := 0x02.
Definition NMBM_F_READ_ONLY : Z := 0x04.

Definition NMBM_DEFAULT_LOG_LEVEL : Z := 1.
Definition NMBM_LOG_MAX : Z := 5.

Inductive nmbm_oob_mode := NMBM_MODE_PLACE_OOB | NMBM_MODE_AUTO_OOB | NMBM_MODE_RAW.

(** ** Structures *)

Record nmbm_header := NmbmHeader {
  magic : Z;
  version : Z;
  hdr_size : Z;
  checksum : Z;
}.

(** [sig_padding] is the member [padding] followed by the four bytes the
    compiler adds to align the structure to 8. *)
Record nmbm_signature := NmbmSignature {
  sig_header : nmbm_header;
  nand_size : Z;
  block_size : Z;
  page_size : Z;
  spare_size : Z;
  mgmt_start_pb : Z;
  max_try_count : Z;
  sig_padding : list Z;
}.

Record nmbm_info_table_header := NmbmInfoTableHeader {
  ift_header : nmbm_header;
  write_count : Z;
  state_table_off : Z;
  mapping_table_off : Z;
  ift_padding : Z;
}.

Definition sizeof_nmbm_header : Z := 16.
Definition sizeof_nmbm_signature : Z := 48.
Definition sizeof_nmbm_info_table_header : Z := 32.

(** The memory of the structures. *)
Definition header_bytes (h : nmbm_header) : list Z :=
  le_bytes 4 (magic h) ++ le_bytes 4 (version h) ++ le_bytes 4 (hdr_size h) ++ le_bytes 4 (checksum h).

Definition signature_bytes (s : nmbm_signature) : list Z :=
  header_bytes (sig_header s) ++ le_bytes 8 (nand_size s) ++ le_bytes 4 (block_size s) ++
  le_bytes 4 (page_size s) ++ le_bytes 4 (spare_size s) ++ le_bytes 4 (mgmt_start_pb s) ++
  le_bytes 1 (max_try_count s) ++ sig_padding s.

Definition info_table_header_bytes (h : nmbm_info_table_header) : list Z :=
  header_bytes (ift_header h) ++ le_bytes 4 (write_count h) ++ le_bytes 4 (state_table_off h) ++
  le_bytes 4 (mapping_table_off h) ++ le_bytes 4 (ift_padding h).

(** The structures a buffer holds, read member by member. *)
Definition header_at (b : list Z) : option nmbm_header :=
  (m ← rd32 b 0; v ← rd32 b 4; sz ← rd32 b 8; c ← rd32 b 12;
   Some (NmbmHeader m v sz c))%stdpp.

Definition signature_at (b : list Z) : option nmbm_signature :=
  (h ← header_at b;
   n ← mem_read b 16 8; bs ← rd32 b 24; ps ← rd32 b 28; ss ← rd32 b 32; mg ← rd32 b 36;
   tc ← mem_read b 40 1; pad ← mem_read b 41 7;
   Some (NmbmSignature h (le_val n) bs ps ss mg (le_val tc) pad))%stdpp.

Definition info_table_header_at (b : list Z) : option nmbm_info_table_header :=
  (h ← header_at b;
   wc ← rd32 b 16; so ← rd32 b 20; mo ← rd32 b 24; pad ← rd32 b 28;
   Some (NmbmInfoTableHeader h wc so mo pad))%stdpp.

(** The functions of the lower device.  A buffer argument is [None] for NULL;
    read_page is given the contents of the buffers and returns what it leaves
    in them. *)
Record nmbm_lower_device (D : Type) := NmbmLowerDevice {
  max_ratio : Z;
  max_reserved_blocks : Z;
  flags : Z;
  chip_size : Z; (** the member [size] *)
  erasesize : Z;
  writesize : Z;
  oobsize : Z;
  reset_chip : option (D → Z * D);
  read_page : option (Z → option (list Z) → option (list Z) → nmbm_oob_mode → D →
                      (Z * option (list Z) * option (list Z)) * D);
  write_page : option (Z → option (list Z) → option (list Z) → nmbm_oob_mode → D → Z * D);
  panic_write_page : option (Z → list Z → D → Z * D);
  erase_block : option (Z → D → Z * D);
  is_bad_block : option (Z → D → Z * D);
  mark_bad_block : option (Z → D → Z * D);
}.
Arguments max_ratio {D} n.
Arguments max_reserved_blocks {D} n.
Arguments flags {D} n.
Arguments chip_size {D} n.
Arguments erasesize {D} n.
Arguments writesize {D} n.
Arguments oobsize {D} n.
Arguments reset_chip {D} n.
Arguments read_page {D} n.
Arguments write_page {D} n.
Arguments panic_write_page {D} n.
Arguments erase_block {D} n.
Arguments is_bad_block {D} n.
Arguments mark_bad_block {D} n.

Definition set_max_ratio {D} (x : Z) (n : nmbm_lower_device D) : nmbm_lower_device D :=
  NmbmLowerDevice D x (max_reserved_blocks n) (flags n) (chip_size n) (erasesize n) (writesize n)
    (oobsize n) (reset_chip n) (read_page n) (write_page n) (panic_write_page n) (erase_block n)
    (is_bad_block n) (mark_bad_block n).

Record nmbm_instance (D : Type) := NmbmInstance {
  lower : nmbm_lower_device D; (** the lower device, copied at attach time *)
  rawpage_size : Z;
  rawblock_size : Z;
  rawchip_size : Z;
  writesize_mask : Z;
  erasesize_mask : Z;
  writesize_shift : Z;
  erasesize_shift : Z;
  signature : nmbm_signature;
  info_table_cache : list Z; (** [info_table_size] bytes *)
  info_table_size : Z;
  info_table_spare_blocks : Z;
  info_table : nmbm_info_table_header;
  block_state : list Z; (** two bits per block in 32-bit units *)
  block_state_changed : Z;
  state_table_size : Z;
  block_mapping : list Z; (** logic block to physical block, -1 if unusable *)
  block_mapping_changed : Z;
  mapping_table_size : Z;
  page_cache : list Z; (** [rawpage_size] bytes *)
  protected : Z;
  block_count : Z;
  data_block_count : Z;
  mgmt_start_ba : Z;
  main_table_ba : Z;
  backup_table_ba : Z;
  mapping_blocks_ba : Z;
  mapping_blocks_top_ba : Z;
  signature_ba : Z;
  log_display_level : Z;
}.
Arguments NmbmInstance {D}.
Arguments lower {D} n.
Arguments rawpage_size {D} n.
Arguments rawblock_size {D} n.
Arguments rawchip_size {D} n.
Arguments writesize_mask {D} n.
Arguments erasesize_mask {D} n.
Arguments writesize_shift {D} n.
Arguments erasesize_shift {D} n.
Arguments signature {D} n.
Arguments info_table_cache {D} n.
Arguments info_table_size {D} n.
Arguments info_table_spare_blocks {D} n.
Arguments info_table {D} n.
Arguments block_state {D} n.
Arguments block_state_changed {D} n.
Arguments state_table_size {D} n.
Arguments block_mapping {D} n.
Arguments block_mapping_changed {D} n.
Arguments mapping_table_size {D} n.
Arguments page_cache {D} n.
Arguments protected {D} n.
Arguments block_count {D} n.
Arguments data_block_count {D} n.
Arguments mgmt_start_ba {D} n.
Arguments main_table_ba {D} n.
Arguments backup_table_ba {D} n.
Arguments mapping_blocks_ba {D} n.
Arguments mapping_blocks_top_ba {D} n.
Arguments signature_ba {D} n.
Arguments log_display_level {D} n.

(** The instance and the device below it. *)
Record nmbm (D : Type) := Nmbm { ni : nmbm_instance D; dev : D }.
Arguments Nmbm {D}.
Arguments ni {D} n.
Arguments dev {D} n.

(** Member updates. *)
Section Setters.
Context {D : Type}.
Implicit Types n : nmbm_instance D.
Definition set_lower (x : nmbm_lower_device D) n : nmbm_instance D :=
  NmbmInstance x (rawpage_size n) (rawblock_size n) (rawchip_size n) (writesize_mask n)
    (erasesize_mask n) (writesize_shift n) (erasesize_shift n) (signature n) (info_table_cache
    n) (info_table_size n) (info_table_spare_blocks n) (info_table n) (block_state n)
    (block_state_changed n) (state_table_size n) (block_mapping n) (block_mapping_changed n)
    (mapping_table_size n) (page_cache n) (protected n) (block_count n) (data_block_count n)
    (mgmt_start_ba n) (main_table_ba n) (backup_table_ba n) (mapping_blocks_ba n)
    (mapping_blocks_top_ba n) (signature_ba n) (log_display_level n).
Definition set_signature (x : nmbm_signature) n : nmbm_instance D :=
  NmbmInstance (lower n) (rawpage_size n) (rawblock_size n) (rawchip_size n) (writesize_mask n)
    (erasesize_mask n) (writesize_shift n) (erasesize_shift n) x (info_table_cache n)
    (info_table_size n) (info_table_spare_blocks n) (info_table n) (block_state n)
    (block_state_changed n) (state_table_size n) (block_mapping n) (block_mapping_changed n)
    (mapping_table_size n) (page_cache n) (protected n) (block_count n) (data_block_count n)
    (mgmt_start_ba n) (main_table_ba n) (backup_table_ba n) (mapping_blocks_ba n)
    (mapping_blocks_top_ba n) (signature_ba n) (log_display_level n).
Definition set_info_table_cache (x : list Z) n : nmbm_instance D :=
  NmbmInstance (lower n) (rawpage_size n) (rawblock_size n) (rawchip_size n) (writesize_mask n)
    (erasesize_mask n) (writesize_shift n) (erasesize_shift n) (signature n) x (info_table_size
    n) (info_table_spare_blocks n) (info_table n) (block_state n) (block_state_changed n)
    (state_table_size n) (block_mapping n) (block_mapping_changed n) (mapping_table_size n)
    (page_cache n) (protected n) (block_count n) (data_block_count n) (mgmt_start_ba n)
    (main_table_ba n) (backup_table_ba n) (mapping_blocks_ba n) (mapping_blocks_top_ba n)
    (signature_ba n) (log_display_level n).
Definition set_info_table (x : nmbm_info_table_header) n : nmbm_instance D :=
  NmbmInstance (lower n) (rawpage_size n) (rawblock_size n) (rawchip_size n) (writesize_mask n)
    (erasesize_mask n) (writesize_shift n) (erasesize_shift n) (signature n) (info_table_cache
    n) (info_table_size n) (info_table_spare_blocks n) x (block_state n) (block_state_changed n)
    (state_table_size n) (block_mapping n) (block_mapping_changed n) (mapping_table_size n)
    (page_cache n) (protected n) (block_count n) (data_block_count n) (mgmt_start_ba n)
    (main_table_ba n) (backup_table_ba n) (mapping_blocks_ba n) (mapping_blocks_top_ba n)
    (signature_ba n) (log_display_level n).
Definition set_block_state (x : list Z) n : nmbm_instance D :=
  NmbmInstance (lower n) (rawpage_size n) (rawblock_size n) (rawchip_size n) (writesize_mask n)
    (erasesize_mask n) (writesize_shift n) (erasesize_shift n) (signature n) (info_table_cache
    n) (info_table_size n) (info_table_spare_blocks n) (info_table n) x (block_state_changed n)
    (state_table_size n) (block_mapping n) (block_mapping_changed n) (mapping_table_size n)
    (page_cache n) (protected n) (block_count n) (data_block_count n) (mgmt_start_ba n)
    (main_table_ba n) (backup_table_ba n) (mapping_blocks_ba n) (mapping_blocks_top_ba n)
    (signature_ba n) (log_display_level n).
Definition set_block_state_changed (x : Z) n : nmbm_instance D :=
  NmbmInstance (lower n) (rawpage_size n) (rawblock_size n) (rawchip_size n) (writesize_mask n)
    (erasesize_mask n) (writesize_shift n) (erasesize_shift n) (signature n) (info_table_cache
    n) (info_table_size n) (info_table_spare_blocks n) (info_table n) (block_state n) x
    (state_table_size n) (block_mapping n) (block_mapping_changed n) (mapping_table_size n)
    (page_cache n) (protected n) (block_count n) (data_block_count n) (mgmt_start_ba n)
    (main_table_ba n) (backup_table_ba n) (mapping_blocks_ba n) (mapping_blocks_top_ba n)
    (signature_ba n) (log_display_level n).
Definition set_block_mapping (x : list Z) n : nmbm_instance D :=
  NmbmInstance (lower n) (rawpage_size n) (rawblock_size n) (rawchip_size n) (writesize_mask n)
    (erasesize_mask n) (writesize_shift n) (erasesize_shift n) (signature n) (info_table_cache
    n) (info_table_size n) (info_table_spare_blocks n) (info_table n) (block_state n)
    (block_state_changed n) (state_table_size n) x (block_mapping_changed n) (mapping_table_size
    n) (page_cache n) (protected n) (block_count n) (data_block_count n) (mgmt_start_ba n)
    (main_table_ba n) (backup_table_ba n) (mapping_blocks_ba n) (mapping_blocks_top_ba n)
    (signature_ba n) (log_display_level n).
Definition set_block_mapping_changed (x : Z) n : nmbm_instance D :=
  NmbmInstance (lower n) (rawpage_size n) (rawblock_size n) (rawchip_size n) (writesize_mask n)
    (erasesize_mask n) (writesize_shift n) (erasesize_shift n) (signature n) (info_table_cache
    n) (info_table_size n) (info_table_spare_blocks n) (info_table n) (block_state n)
    (block_state_changed n) (state_table_size n) (block_mapping n) x (mapping_table_size n)
    (page_cache n) (protected n) (block_count n) (data_block_count n) (mgmt_start_ba n)
    (main_table_ba n) (backup_table_ba n) (mapping_blocks_ba n) (mapping_blocks_top_ba n)
    (signature_ba n) (log_display_level n).
Definition set_page_cache (x : list Z) n : nmbm_instance D :=
  NmbmInstance (lower n) (rawpage_size n) (rawblock_size n) (rawchip_size n) (writesize_mask n)
    (erasesize_mask n) (writesize_shift n) (erasesize_shift n) (signature n) (info_table_cache
    n) (info_table_size n) (info_table_spare_blocks n) (info_table n) (block_state n)
    (block_state_changed n) (state_table_size n) (block_mapping n) (block_mapping_changed n)
    (mapping_table_size n) x (protected n) (block_count n) (data_block_count n) (mgmt_start_ba
    n) (main_table_ba n) (backup_table_ba n) (mapping_blocks_ba n) (mapping_blocks_top_ba n)
    (signature_ba n) (log_display_level n).
Definition set_protected (x : Z) n : nmbm_instance D :=
  NmbmInstance (lower n) (rawpage_size n) (rawblock_size n) (rawchip_size n) (writesize_mask n)
    (erasesize_mask n) (writesize_shift n) (erasesize_shift n) (signature n) (info_table_cache
    n) (info_table_size n) (info_table_spare_blocks n) (info_table n) (block_state n)
    (block_state_changed n) (state_table_size n) (block_mapping n) (block_mapping_changed n)
    (mapping_table_size n) (page_cache n) x (block_count n) (data_block_count n) (mgmt_start_ba
    n) (main_table_ba n) (backup_table_ba n) (mapping_blocks_ba n) (mapping_blocks_top_ba n)
    (signature_ba n) (log_display_level n).
Definition set_data_block_count (x : Z) n : nmbm_instance D :=
  NmbmInstance (lower n) (rawpage_size n) (rawblock_size n) (rawchip_size n) (writesize_mask n)
    (erasesize_mask n) (writesize_shift n) (erasesize_shift n) (signature n) (info_table_cache
    n) (info_table_size n) (info_table_spare_blocks n) (info_table n) (block_state n)
    (block_state_changed n) (state_table_size n) (block_mapping n) (block_mapping_changed n)
    (mapping_table_size n) (page_cache n) (protected n) (block_count n) x (mgmt_start_ba n)
    (main_table_ba n) (backup_table_ba n) (mapping_blocks_ba n) (mapping_blocks_top_ba n)
    (signature_ba n) (log_display_level n).
Definition set_mgmt_start_ba (x : Z) n : nmbm_instance D :=
  NmbmInstance (lower n) (rawpage_size n) (rawblock_size n) (rawchip_size n) (writesize_mask n)
    (erasesize_mask n) (writesize_shift n) (erasesize_shift n) (signature n) (info_table_cache
    n) (info_table_size n) (info_table_spare_blocks n) (info_table n) (block_state n)
    (block_state_changed n) (state_table_size n) (block_mapping n) (block_mapping_changed n)
    (mapping_table_size n) (page_cache n) (protected n) (block_count n) (data_block_count n) x
    (main_table_ba n) (backup_table_ba n) (mapping_blocks_ba n) (mapping_blocks_top_ba n)
    (signature_ba n) (log_display_level n).
Definition set_main_table_ba (x : Z) n : nmbm_instance D :=
  NmbmInstance (lower n) (rawpage_size n) (rawblock_size n) (rawchip_size n) (writesize_mask n)
    (erasesize_mask n) (writesize_shift n) (erasesize_shift n) (signature n) (info_table_cache
    n) (info_table_size n) (info_table_spare_blocks n) (info_table n) (block_state n)
    (block_state_changed n) (state_table_size n) (block_mapping n) (block_mapping_changed n)
    (mapping_table_size n) (page_cache n) (protected n) (block_count n) (data_block_count n)
    (mgmt_start_ba n) x (backup_table_ba n) (mapping_blocks_ba n) (mapping_blocks_top_ba n)
    (signature_ba n) (log_display_level n).
Definition set_backup_table_ba (x : Z) n : nmbm_instance D :=
  NmbmInstance (lower n) (rawpage_size n) (rawblock_size n) (rawchip_size n) (writesize_mask n)
    (erasesize_mask n) (writesize_shift n) (erasesize_shift n) (signature n) (info_table_cache
    n) (info_table_size n) (info_table_spare_blocks n) (info_table n) (block_state n)
    (block_state_changed n) (state_table_size n) (block_mapping n) (block_mapping_changed n)
    (mapping_table_size n) (page_cache n) (protected n) (block_count n) (data_block_count n)
    (mgmt_start_ba n) (main_table_ba n) x (mapping_blocks_ba n) (mapping_blocks_top_ba n)
    (signature_ba n) (log_display_level n).
Definition set_mapping_blocks_ba (x : Z) n : nmbm_instance D :=
  NmbmInstance (lower n) (rawpage_size n) (rawblock_size n) (rawchip_size n) (writesize_mask n)
    (erasesize_mask n) (writesize_shift n) (erasesize_shift n) (signature n) (info_table_cache
    n) (info_table_size n) (info_table_spare_blocks n) (info_table n) (block_state n)
    (block_state_changed n) (state_table_size n) (block_mapping n) (block_mapping_changed n)
    (mapping_table_size n) (page_cache n) (protected n) (block_count n) (data_block_count n)
    (mgmt_start_ba n) (main_table_ba n) (backup_table_ba n) x (mapping_blocks_top_ba n)
    (signature_ba n) (log_display_level n).
Definition set_mapping_blocks_top_ba (x : Z) n : nmbm_instance D :=
  NmbmInstance (lower n) (rawpage_size n) (rawblock_size n) (rawchip_size n) (writesize_mask n)
    (erasesize_mask n) (writesize_shift n) (erasesize_shift n) (signature n) (info_table_cache
    n) (info_table_size n) (info_table_spare_blocks n) (info_table n) (block_state n)
    (block_state_changed n) (state_table_size n) (block_mapping n) (block_mapping_changed n)
    (mapping_table_size n) (page_cache n) (protected n) (block_count n) (data_block_count n)
    (mgmt_start_ba n) (main_table_ba n) (backup_table_ba n) (mapping_blocks_ba n) x
    (signature_ba n) (log_display_level n).
Definition set_signature_ba (x : Z) n : nmbm_instance D :=
  NmbmInstance (lower n) (rawpage_size n) (rawblock_size n) (rawchip_size n) (writesize_mask n)
    (erasesize_mask n) (writesize_shift n) (erasesize_shift n) (signature n) (info_table_cache
    n) (info_table_size n) (info_table_spare_blocks n) (info_table n) (block_state n)
    (block_state_changed n) (state_table_size n) (block_mapping n) (block_mapping_changed n)
    (mapping_table_size n) (page_cache n) (protected n) (block_count n) (data_block_count n)
    (mgmt_start_ba n) (main_table_ba n) (backup_table_ba n) (mapping_blocks_ba n)
    (mapping_blocks_top_ba n) x (log_display_level n).
Definition set_log_display_level (x : Z) n : nmbm_instance D :=
  NmbmInstance (lower n) (rawpage_size n) (rawblock_size n) (rawchip_size n) (writesize_mask n)
    (erasesize_mask n) (writesize_shift n) (erasesize_shift n) (signature n) (info_table_cache
    n) (info_table_size n) (info_table_spare_blocks n) (info_table n) (block_state n)
    (block_state_changed n) (state_table_size n) (block_mapping n) (block_mapping_changed n)
    (mapping_table_size n) (page_cache n) (protected n) (block_count n) (data_block_count n)
    (mgmt_start_ba n) (main_table_ba n) (backup_table_ba n) (mapping_blocks_ba n)
    (mapping_blocks_top_ba n) (signature_ba n) x.
Definition set_spare_blocks (x : Z) n : nmbm_instance D :=
  NmbmInstance (lower n) (rawpage_size n) (rawblock_size n) (rawchip_size n) (writesize_mask n)
    (erasesize_mask n) (writesize_shift n) (erasesize_shift n) (signature n) (info_table_cache
    n) (info_table_size n) x (info_table n) (block_state n) (block_state_changed n)
    (state_table_size n) (block_mapping n) (block_mapping_changed n) (mapping_table_size n)
    (page_cache n) (protected n) (block_count n) (data_block_count n) (mgmt_start_ba n)
    (main_table_ba n) (backup_table_ba n) (mapping_blocks_ba n) (mapping_blocks_top_ba n)
    (signature_ba n) (log_display_level n).
End Setters.

(** Small structure updates. *)
Definition with_checksum (c : Z) (h : nmbm_header) : nmbm_header :=
  NmbmHeader (magic h) (version h) (hdr_size h) c.
Definition with_write_count (c : Z) (h : nmbm_info_table_header) : nmbm_info_table_header :=
  NmbmInfoTableHeader (ift_header h) c (state_table_off h) (mapping_table_off h) (ift_padding h).
Definition with_ift_header (x : nmbm_header) (h : nmbm_info_table_header) : nmbm_info_table_header :=
  NmbmInfoTableHeader x (write_count h) (state_table_off h) (mapping_table_off h) (ift_padding h).
