(* ===== verification/NmbmCore.v ===== *)
(** * NMBM: access to the chip, block states, writing management data

    drivers/mtd/nmbm/nmbm-core.c from the address conversions to
    nmbm_generate_info_table_cache().  Log messages, the watchdog and the empty
    nmbm_mark_block_color_*() macros are left out.  An output parameter that is
    set only on success is an [option] result. *)

From stdpp Require Import base list numbers list_numbers.
From Stdlib Require Import ZArith Lia.
From S2P Require Import Prelude Bytes Crc32 NmbmTypes.
Open Scope Z_scope.

Section Core.
Context {D : Type}.
Abbreviation N := (M (nmbm D)).
Implicit Types n : nmbm_instance D.

Definition getn {A} (f : nmbm_instance D → A) : N A := gets (λ s, f (ni s)).
Definition modn (f : nmbm_instance D → nmbm_instance D) : N unit :=
  modify (λ s, Nmbm (f (ni s)) (dev s)).
(** A call of a function of the lower device. *)
Definition lower_call {A} (f : D → A * D) : N A :=
  λ _ s, let '(a, d) := f (dev s) in Ret a (Nmbm (ni s) d).

(** ** Address conversion functions *)

Definition addr2ba n (addr : Z) : Z := u32 (Z.shiftr addr (erasesize_shift n)).
Definition ba2addr n (ba : Z) : Z := u64 (Z.shiftl ba (erasesize_shift n)).
Definition size2blk n (size : Z) : Z :=
  u32 (Z.shiftr (u64 (size + erasesize (lower n) - 1)) (erasesize_shift n)).

(** ** High level NAND chip APIs *)

Definition nmbm_reset_chip : N unit :=
  l ← getn lower;
  match reset_chip l with
  | Some f => lower_call f;; ret tt
  | None => ret tt
  end.

(** The result, and what is left in the two buffers. *)
Definition nmbm_read_phys_page (addr : Z) (data oob : option (list Z)) (mode : nmbm_oob_mode)
    : N (Z * option (list Z) * option (list Z)) :=
  l ← getn lower;
  f ← some (read_page l);
  '(_, r) ← for_brk_to 0 (NMBM_TRY_COUNT - 1)
    (λ _ '(_, data, oob),
       r ← lower_call (f addr data oob mode);
       if 0 <=? r.1.1 then ret (true, r)
       else nmbm_reset_chip;; ret (false, r)) (0, data, oob);
  ret r.

Definition read_only n : bool := cbool (Z.land (flags (lower n)) NMBM_F_READ_ONLY).

(** At most NMBM_TRY_COUNT tries of a function that returns 0 for success. *)
Definition with_retry (f : D → Z * D) : N bool :=
  '(_, r) ← for_brk_to 0 (NMBM_TRY_COUNT - 1)
    (λ _ _,
       rc ← lower_call f;
       if rc =? 0 then ret (true, true)
       else nmbm_reset_chip;; ret (false, false)) false;
  ret r.

Definition nmbm_write_phys_page (addr : Z) (data oob : option (list Z)) (mode : nmbm_oob_mode) : N bool :=
  ro ← getn read_only;
  if ro : bool then ret false
  else
    l ← getn lower;
    f ← some (write_page l);
    with_retry (f addr data oob mode).

Definition nmbm_panic_write_phys_page (addr : Z) (data : list Z) : N bool :=
  ro ← getn read_only;
  if ro : bool then ret false
  else
    l ← getn lower;
    f ← some (panic_write_page l);
    with_retry (f addr data).

Definition nmbm_erase_phys_block (addr : Z) : N bool :=
  ro ← getn read_only;
  if ro : bool then ret false
  else
    l ← getn lower;
    f ← some (erase_block l);
    with_retry (f addr).

(** The main data and the spare area of the page cache. *)
Definition cache_data n : list Z := take (Z.to_nat (writesize (lower n))) (page_cache n).
Definition cache_oob n : list Z := drop (Z.to_nat (writesize (lower n))) (page_cache n).

Definition nmbm_check_bad_phys_block (ba : Z) : N bool :=
  addr ← getn (λ n, ba2addr n ba);
  l ← getn lower;
  match is_bad_block l with
  | Some f => r ← lower_call (f addr); ret (cbool r)
  | None =>
      oob ← getn cache_oob;
      '(rc, _, oob) ← nmbm_read_phys_page addr None (Some oob) NMBM_MODE_RAW;
      oob ← some oob;
      modn (λ n, set_page_cache (cache_data n ++ oob) n);;
      if (rc <? 0) && negb (rc =? - EBADMSG) then ret true
      else
        pc ← getn page_cache;
        b ← some (zget pc (writesize l));
        ret (negb (b =? 0xff))
  end.

(** [for (off = 0; off < erasesize; off += writesize)]. *)
Definition for_pages {A} (body : Z → A → N (bool * A)) (a : A) : N A :=
  l ← getn lower;
  '(_, a) ← for_brk_to 0 ((erasesize l + writesize l - 1) / writesize l - 1)
    (λ i a, body (i * writesize l) a) a;
  ret a.

Definition nmbm_set_log_level (level : Z) : N Z :=
  old ← getn log_display_level;
  modn (set_log_display_level level);;
  ret old.

Definition nmbm_mark_phys_bad_block (ba : Z) : N Z :=
  addr ← getn (λ n, ba2addr n ba);
  ro ← getn read_only;
  if ro : bool then ret 0
  else
    l ← getn lower;
    match mark_bad_block l with
    | Some f => lower_call (f addr)
    | None =>
        pc ← getn page_cache;
        raw ← getn rawpage_size;
        pc ← some (mem_fill pc 0 raw 0);
        modn (set_page_cache pc);;
        level ← nmbm_set_log_level NMBM_LOG_MAX;
        for_pages (λ off _,
          data ← getn cache_data;
          oob ← getn cache_oob;
          nmbm_write_phys_page (addr + off) (Some data) (Some oob) NMBM_MODE_RAW;;
          ret (false, tt)) tt;;
        nmbm_set_log_level level;;
        ret 0
    end.

(** ** Headers and checksums *)

(** [nmbm_crc32()] does not depend on the address of its buffer
    ([Crc32.nmbm_crc32_bytes]); 0 stands for it. *)
Definition nmbm_check_header (data : list Z) (size : Z) : option bool :=
  match header_at data with
  | None => None
  | Some header =>
      if size <? hdr_size header then Some false
      else
        let new_checksum := nmbm_crc32 0 0 (header_bytes (with_checksum 0 header)) in
        match (if sizeof_nmbm_header <? hdr_size header then
                 nmbm_crc32 0 new_checksum <$>
                   mem_read data sizeof_nmbm_header (hdr_size header - sizeof_nmbm_header)
               else Some new_checksum) with
        | None => None
        | Some new_checksum => Some (checksum header =? new_checksum)
        end
  end.

(** The structure with its header at the start of [b]. *)
Definition nmbm_update_checksum (b : list Z) : option (list Z) :=
  (header ← header_at b;
   b ← mem_copy b 12 (le_bytes 4 0) 4;
   d ← mem_read b 0 (hdr_size header);
   mem_copy b 12 (le_bytes 4 (nmbm_crc32 0 0 d)) 4)%stdpp.

Definition nmbm_get_spare_block_count (block_count : Z) : Z :=
  let val := u32 (block_count + NMBM_SPARE_BLOCK_DIV / 2) / NMBM_SPARE_BLOCK_DIV in
  let val := u32 (val * NMBM_SPARE_BLOCK_MULTI) in
  if val <? NMBM_SPARE_BLOCK_MIN then NMBM_SPARE_BLOCK_MIN else val.

(** ** Block states *)

Definition state_unit (ba : Z) : Z := ba / NMBM_BITMAP_BLOCKS_PER_UNIT.
Definition state_shift (ba : Z) : Z :=
  (ba `mod` NMBM_BITMAP_BLOCKS_PER_UNIT) * NMBM_BITMAP_BITS_PER_BLOCK.

Definition nmbm_get_block_state_raw (block_state : list Z) (ba : Z) : option Z :=
  (λ u, Z.land (Z.shiftr u (state_shift ba)) BLOCK_ST_MASK) <$> zget block_state (state_unit ba).

Definition nmbm_get_block_state (ba : Z) : N Z :=
  bs ← getn block_state;
  some (nmbm_get_block_state_raw bs ba).

Definition nmbm_set_block_state (ba state : Z) : N bool :=
  bs ← getn block_state;
  u ← some (zget bs (state_unit ba));
  let shift := state_shift ba in
  let orig := Z.land (Z.shiftr u shift) BLOCK_ST_MASK in
  let state := Z.land state BLOCK_ST_MASK in
  let uv := Z.land u (not32 (Z.shiftl BLOCK_ST_MASK shift)) in
  let uv := Z.lor uv (u32 (Z.shiftl state shift)) in
  modn (set_block_state (zset bs (state_unit ba) uv));;
  if negb (orig =? state) then
    modn (λ n, set_block_state_changed (u32 (block_state_changed n + 1)) n);;
    ret true
  else ret false.

(** ** Walking over good blocks *)

(** One block of a walk: [nblock] goes below zero at the block looked for. *)
Definition walk_block (ba nblock : Z) : N (bool * Z) :=
  st ← nmbm_get_block_state ba;
  let nblock := if st =? BLOCK_ST_GOOD then nblock - 1 else nblock in
  ret (nblock <? 0, nblock).

Definition walk_limit n (limit : Z) : Z :=
  if block_count n <=? limit then u32 (block_count n - 1) else limit.

Definition nmbm_block_walk_asc (ba count limit : Z) : N (option Z) :=
  limit ← getn (λ n, walk_limit n limit);
  '(_, (_, r)) ← for_brk_to ba (limit - 1)
    (λ ba '(nblock, _),
       '(found, nblock) ← walk_block ba nblock;
       ret (found, (nblock, if found then Some ba else None))) (s32 count, None);
  ret r.

(** The block address goes down: [ba - i] in round [i]. *)
Definition nmbm_block_walk_desc (ba count limit : Z) : N (option Z) :=
  limit ← getn (λ n, walk_limit n limit);
  '(_, (_, r)) ← for_brk_to 0 (ba - limit - 1)
    (λ i '(nblock, _),
       '(found, nblock) ← walk_block (ba - i) nblock;
       ret (found, (nblock, if found then Some (ba - i) else None))) (s32 count, None);
  ret r.

(** [count] and [limit] are signed here and unsigned in the two functions. *)
Definition nmbm_block_walk (ascending : bool) (ba count limit : Z) : N (option Z) :=
  if ascending then nmbm_block_walk_asc ba (u32 count) (u32 limit)
  else nmbm_block_walk_desc ba (u32 count) (u32 limit).

Definition nmbm_scan_badblocks : N unit :=
  cnt ← getn block_count;
  for_to 0 (cnt - 1)
    (λ ba _,
       bad ← nmbm_check_bad_phys_block ba;
       if bad : bool then nmbm_set_block_state ba BLOCK_ST_BAD;; ret tt else ret tt) tt.

Definition set_mapping (lb pb : Z) : N unit :=
  bm ← getn block_mapping;
  bm ← some (zput bm lb pb);
  modn (set_block_mapping bm).

Definition nmbm_build_mapping_table : N unit :=
  mgmt ← getn mgmt_start_ba;
  lb ← for_to 0 (mgmt - 1)
    (λ pb lb,
       st ← nmbm_get_block_state pb;
       if st =? BLOCK_ST_BAD then ret lb
       else set_mapping lb pb;; ret (lb + 1)) 0;
  modn (set_data_block_count lb);;
  cnt ← getn block_count;
  for_to lb (cnt - 1) (λ pb _, set_mapping pb (-1)) tt.

(** ** Erasing and writing management data *)

(** [nmbm_read_phys_page(ni, addr, ni->page_cache, NULL, NMBM_MODE_PLACE_OOB)]. *)
Definition read_to_cache (addr : Z) : N Z :=
  data ← getn cache_data;
  '(rc, data, _) ← nmbm_read_phys_page addr (Some data) None NMBM_MODE_PLACE_OOB;
  data ← some data;
  modn (λ n, set_page_cache (data ++ cache_oob n) n);;
  ret rc.

Definition nmbm_erase_block_and_check (ba : Z) : N bool :=
  addr ← getn (λ n, ba2addr n ba);
  success ← nmbm_erase_phys_block addr;
  if negb success then ret false
  else
    l ← getn lower;
    if negb (cbool (Z.land (flags l) NMBM_F_EMPTY_PAGE_ECC_OK)) then ret true
    else
      for_pages (λ off r,
        rc ← read_to_cache (addr + off);
        ret (if rc =? - EBADMSG then (true, false) else (false, r))) true.

Definition mark_bad (ba : Z) : N unit :=
  nmbm_mark_phys_bad_block ba;;
  nmbm_set_block_state ba BLOCK_ST_BAD;;
  ret tt.

(** The insurance against blocks marked bad meanwhile, shared by the loops
    that erase or write: whether the block may be used. *)
Definition block_usable (ba : Z) : N bool :=
  st ← nmbm_get_block_state ba;
  if negb (st =? BLOCK_ST_GOOD) then ret false
  else
    bad ← nmbm_check_bad_phys_block ba;
    if bad : bool then nmbm_set_block_state ba BLOCK_ST_BAD;; ret false
    else ret true.

Definition nmbm_erase_range (ba limit : Z) : N unit :=
  for_to ba (limit - 1)
    (λ ba _,
       ok ← block_usable ba;
       if negb ok then ret tt
       else
         success ← nmbm_erase_block_and_check ba;
         if success : bool then ret tt else mark_bad ba) tt.

Definition nmbm_write_repeated_data (ba : Z) (data : list Z) (size : Z) : N bool :=
  l ← getn lower;
  if writesize l <? size then ret false
  else
    addr ← getn (λ n, ba2addr n ba);
    for_pages (λ off _,
      pc ← getn page_cache;
      raw ← getn rawpage_size;
      pc ← some (mem_copy pc 0 data size);
      pc ← some (mem_fill pc size (raw - size) 0xff);
      modn (set_page_cache pc);;
      page ← getn cache_data;
      success ← nmbm_write_phys_page (addr + off) (Some page) None NMBM_MODE_PLACE_OOB;
      if negb success then ret (true, false)
      else
        rc ← read_to_cache (addr + off);
        if rc <? 0 then ret (true, false)
        else
          pc ← getn page_cache;
          got ← some (mem_read pc 0 size);
          ret (if bool_decide (got = take (Z.to_nat size) data) then (false, true) else (true, false))) true.

(** The block address goes down from the last block: [cnt - 1 - i]. *)
Definition nmbm_write_signature (limit : Z) (signature : nmbm_signature) : N (option Z) :=
  cnt ← getn block_count;
  let top := u32 (cnt - 1) in
  '(_, r) ← for_brk_to 0 (top - limit - 1)
    (λ i _,
       let ba := top - i in
       ok ← block_usable ba;
       if negb ok then ret (false, None)
       else
         success ← nmbm_erase_block_and_check ba;
         success ← (if success : bool then
                      nmbm_write_repeated_data ba (signature_bytes signature) sizeof_nmbm_signature
                    else ret false);
         if success : bool then ret (true, Some ba)
         else mark_bad ba;; ret (false, None)) None;
  ret r.

(** The chunk of a page at [off], of at most [sizeremain] bytes. *)
Definition page_chunk n (off sizeremain : Z) : Z * Z :=
  let leading := Z.land off (writesize_mask n) in
  let chunksize := u32 (writesize (lower n) - leading) in
  (leading, if sizeremain <? chunksize then sizeremain else chunksize).

(** [pos] bytes have been read: [off = addr + pos], [ptr = data + pos]. *)
Definition nmbn_read_data (addr : Z) (data : list Z) (size : Z) : N (Z * list Z) :=
  '(rc, _, data) ← while_brk (S (Z.to_nat size))
    (λ '(_, pos, data),
       if size - pos =? 0 then ret (true, (0, pos, data))
       else
         '(leading, chunksize) ← getn (λ n, page_chunk n (addr + pos) (size - pos));
         w ← getn (λ n, writesize (lower n));
         if chunksize =? w then
           old ← some (mem_read data pos w);
           '(rc, page, _) ← nmbm_read_phys_page (addr + pos - leading) (Some old) None NMBM_MODE_PLACE_OOB;
           page ← some page;
           data ← some (mem_copy data pos page w);
           ret (rc <? 0, (rc, pos + chunksize, data))
         else
           rc ← read_to_cache (addr + pos - leading);
           if rc <? 0 then ret (true, (rc, pos, data))
           else
             pc ← getn page_cache;
             part ← some (mem_read pc leading chunksize);
             data ← some (mem_copy data pos part chunksize);
             ret (false, (rc, pos + chunksize, data))) (0, 0, data);
  ret (rc, data).

Definition nmbn_write_verify_data (addr : Z) (data : list Z) (size : Z) : N bool :=
  '(r, _) ← while_brk (S (Z.to_nat size))
    (λ '(_, pos),
       if size - pos =? 0 then ret (true, (true, pos))
       else
         '(leading, chunksize) ← getn (λ n, page_chunk n (addr + pos) (size - pos));
         pc ← getn page_cache;
         raw ← getn rawpage_size;
         pc ← some (mem_fill pc 0 raw 0xff);
         part ← some (mem_read data pos chunksize);
         pc ← some (mem_copy pc leading part chunksize);
         modn (set_page_cache pc);;
         page ← getn cache_data;
         success ← nmbm_write_phys_page (addr + pos - leading) (Some page) None NMBM_MODE_PLACE_OOB;
         if negb success then ret (true, (false, pos))
         else
           rc ← read_to_cache (addr + pos - leading);
           if rc <? 0 then ret (true, (false, pos))
           else
             pc ← getn page_cache;
             got ← some (mem_read pc leading chunksize);
             if bool_decide (got = part) then ret (false, (true, pos + chunksize))
             else ret (true, (false, pos))) (true, 0);
  ret r.

(** The first block written and the block after the last one. *)
Definition nmbm_write_mgmt_range (ba limit : Z) (data : list Z) (size : Z) : N (option (Z * Z)) :=
  '(ba, (pos, start)) ← for_brk_to ba (limit - 1)
    (λ ba '(pos, start),
       if size - pos =? 0 then ret (true, (pos, start))
       else
         l ← getn lower;
         let chunksize := if erasesize l <? size - pos then erasesize l else size - pos in
         ok ← block_usable ba;
         if negb ok then ret (false, (pos, start))
         else
           success ← nmbm_erase_block_and_check ba;
           success ← (if success : bool then
                        addr ← getn (λ n, ba2addr n ba);
                        part ← some (mem_read data pos chunksize);
                        nmbn_write_verify_data addr part chunksize
                      else ret false);
           if success : bool then
             ret (false, (pos + chunksize, if pos =? 0 then Some ba else start))
           else mark_bad ba;; ret (false, (pos, start))) (0, None);
  if negb (size - pos =? 0) then ret None
  else start ← some start; ret (Some (start, ba)).

Definition nmbm_generate_info_table_cache : N bool :=
  n ← getn id;
  cache ← some (mem_fill (info_table_cache n) 0 (info_table_size n) 0xff);
  cache ← some (mem_copy cache (state_table_off (info_table n))
                  (bytes_of_words (block_state n)) (state_table_size n));
  cache ← some (mem_copy cache (mapping_table_off (info_table n))
                  (bytes_of_words (block_mapping n)) (mapping_table_size n));
  let h := ift_header (info_table n) in
  let ift := with_ift_header
    (NmbmHeader NMBM_MAGIC_INFO_TABLE NMBM_VER (info_table_size n) (checksum h)) (info_table n) in
  let changed := cbool (block_state_changed n) || cbool (block_mapping_changed n) in
  let ift := if changed then with_write_count (u32 (write_count ift + 1)) ift else ift in
  cache ← some (mem_copy cache 0 (info_table_header_bytes ift) sizeof_nmbm_info_table_header);
  cache ← some (nmbm_update_checksum cache);
  modn (λ n, set_info_table ift (set_info_table_cache cache n));;
  ret changed.

End Core.
