(* ===== verification/NmbmTables.v ===== *)
(** * NMBM: keeping the two info tables

    drivers/mtd/nmbm/nmbm-core.c from nmbm_write_info_table() to
    nmbm_create_new(): writing, rescuing and updating the main and the backup
    info table, mapping a block to a spare one, and creating the management
    area on a new chip.  [fuel] bounds the rounds of the loops that end only
    by what they find on the chip. *)

From stdpp Require Import base list numbers list_numbers.
From Stdlib Require Import ZArith Lia.
From S2P Require Import Prelude Bytes Crc32 NmbmTypes NmbmCore.
Open Scope Z_scope.

Section Tables.
Context {D : Type} (fuel : nat).
Abbreviation N := (M (nmbm D)).
Implicit Types n : nmbm_instance D.

Definition nmbm_write_info_table (ba limit : Z) : N (option (Z * Z)) :=
  cache ← getn info_table_cache;
  size ← getn info_table_size;
  nmbm_write_mgmt_range ba limit cache size.

Definition nmbm_mark_tables_clean : N unit :=
  modn (λ n, set_block_mapping_changed 0 (set_block_state_changed 0 n)).

(** [nblocks] from [count] down to [min_count]. *)
Definition nmbm_try_reserve_blocks (ba count min_count limit : Z) : N (option Z) :=
  '(_, r) ← for_brk_to 0 (s32 count - min_count)
    (λ i _,
       r ← nmbm_block_walk true ba (s32 count - i) limit;
       ret (bool_decide (is_Some r), r)) None;
  ret r.

(** The limit the callers pass: [mapping_blocks_top_ba] less the blocks of a
    table, converted to [int32_t]. *)
Definition reserve_limit n : Z :=
  s32 (u32 (mapping_blocks_top_ba n - size2blk n (info_table_size n))).

Definition nmbm_rebuild_info_table : N bool :=
  modn (λ n, set_mapping_blocks_ba (mapping_blocks_top_ba n)
               (set_backup_table_ba 0 (set_main_table_ba 0 n)));;
  mgmt ← getn mgmt_start_ba;
  top ← getn mapping_blocks_top_ba;
  w ← nmbm_write_info_table mgmt top;
  match w with
  | None => modn (set_protected 1);; ret false
  | Some (table_start_ba, main_table_end_ba) =>
      modn (set_main_table_ba table_start_ba);;
      modn (set_mapping_blocks_ba main_table_end_ba);;
      nmbm_mark_tables_clean;;
      spare ← getn info_table_spare_blocks;
      limit ← getn reserve_limit;
      next ← nmbm_try_reserve_blocks main_table_end_ba spare 0 limit;
      match next with
      | None => ret true
      | Some next_start_ba =>
          top ← getn mapping_blocks_top_ba;
          w ← nmbm_write_info_table next_start_ba top;
          match w with
          | None => ret true
          | Some (table_start_ba, table_end_ba) =>
              modn (set_backup_table_ba table_start_ba);;
              modn (set_mapping_blocks_ba table_end_ba);;
              nmbm_erase_range main_table_end_ba table_start_ba;;
              ret true
          end
      end
  end.

(** [while (write_ba >= lo) { success = nmbm_write_info_table(...); if (success)
    break; write_ba--; }], where [success] is true before the loop but the
    table addresses are not set. *)
Definition write_downwards (write_ba lo : Z) : N (option (Z * Z)) :=
  '(_, r) ← while_brk fuel
    (λ '(write_ba, r),
       if write_ba <? lo then ret (true, (write_ba, r))
       else
         top ← getn mapping_blocks_top_ba;
         w ← nmbm_write_info_table write_ba top;
         match w with
         | Some _ => ret (true, (write_ba, Some w))
         | None => ret (false, (u32 (write_ba - 1), Some None))
         end) (write_ba, None);
  some r.

Definition nmbm_rescue_single_info_table : N bool :=
  mgmt ← getn mgmt_start_ba;
  main ← getn main_table_ba;
  w ← nmbm_write_info_table mgmt main;
  match w with
  | Some (table_start_ba, table_end_ba) =>
      modn (λ n, set_backup_table_ba (main_table_ba n) n);;
      modn (set_main_table_ba table_start_ba);;
      nmbm_mark_tables_clean;;
      backup ← getn backup_table_ba;
      nmbm_erase_range table_end_ba backup;;
      ret true
  | None =>
      mb ← getn mapping_blocks_ba;
      spare ← getn info_table_spare_blocks;
      limit ← getn reserve_limit;
      r ← nmbm_try_reserve_blocks mb spare 0 limit;
      match r with
      | None => ret false
      | Some write_ba =>
          w ← write_downwards write_ba mb;
          match w with
          | None => ret false
          | Some (table_start_ba, table_end_ba) =>
              mb ← getn mapping_blocks_ba;
              nmbm_erase_range mb table_start_ba;;
              modn (set_backup_table_ba table_start_ba);;
              modn (set_mapping_blocks_ba table_end_ba);;
              nmbm_mark_tables_clean;;
              ret true
          end
      end
  end.

Definition nmbm_update_single_info_table (update_main_table : bool) : N bool :=
  write_start_ba ← getn (if update_main_table then main_table_ba else backup_table_ba);
  write_limit ← getn (if update_main_table then backup_table_ba else mapping_blocks_top_ba);
  w ← nmbm_write_info_table write_start_ba write_limit;
  match w with
  | Some (table_start_ba, table_end_ba) =>
      (if update_main_table then modn (set_main_table_ba table_start_ba)
       else
         modn (set_backup_table_ba table_start_ba);;
         modn (set_mapping_blocks_ba table_end_ba));;
      nmbm_mark_tables_clean;;
      ret true
  | None =>
      if update_main_table then
        modn (λ n, set_main_table_ba (backup_table_ba n) n);;
        modn (set_backup_table_ba 0);;
        nmbm_rescue_single_info_table
      else
        modn (λ n, set_mapping_blocks_ba (backup_table_ba n) n);;
        modn (set_backup_table_ba 0);;
        ret false
  end.

(** The backup table becomes the main table. *)
Definition backup_to_main : N bool :=
  modn (λ n, set_main_table_ba (backup_table_ba n) n);;
  modn (set_backup_table_ba 0);;
  ret true.

(** The end of nmbm_rescue_main_info_table(): the new main table has
    overwritten the temporary one, a backup table is written behind it. *)
Definition rescue_backup (main_table_end_ba : Z) : N bool :=
  modn (set_mapping_blocks_ba main_table_end_ba);;
  spare ← getn info_table_spare_blocks;
  limit ← getn reserve_limit;
  r ← nmbm_try_reserve_blocks main_table_end_ba spare 0 limit;
  match r with
  | None => modn (set_backup_table_ba 0);; ret true
  | Some write_ba =>
      w ← write_downwards write_ba main_table_end_ba;
      match w with
      | None => modn (set_backup_table_ba 0);; ret true
      | Some (tmp_table_start_ba, tmp_table_end_ba) =>
          modn (set_backup_table_ba tmp_table_start_ba);;
          modn (set_mapping_blocks_ba tmp_table_end_ba);;
          nmbm_erase_range main_table_end_ba tmp_table_start_ba;;
          ret true
      end
  end.

Definition nmbm_rescue_main_info_table : N bool :=
  mb ← getn mapping_blocks_ba;
  spare ← getn info_table_spare_blocks;
  limit ← getn reserve_limit;
  r ← nmbm_try_reserve_blocks mb spare 0 limit;
  match r with
  | None => backup_to_main
  | Some write_ba =>
      w ← write_downwards write_ba mb;
      match w with
      | None => backup_to_main
      | Some (tmp_table_start_ba, tmp_table_end_ba) =>
          modn (set_mapping_blocks_ba tmp_table_end_ba);;
          mgmt ← getn mgmt_start_ba;
          w ← nmbm_write_info_table mgmt tmp_table_start_ba;
          match w with
          | None =>
              modn (set_main_table_ba tmp_table_start_ba);;
              modn (set_backup_table_ba 0);;
              nmbm_mark_tables_clean;;
              ret true
          | Some (main_table_start_ba, main_table_end_ba) =>
              modn (set_main_table_ba main_table_start_ba);;
              nmbm_mark_tables_clean;;
              if main_table_end_ba <=? tmp_table_start_ba then
                modn (set_backup_table_ba tmp_table_start_ba);;
                ret true
              else rescue_backup main_table_end_ba
          end
      end
  end.

(** The part from [write_main_table] on. *)
Definition write_main_table (main_table_limit : Z) : N bool :=
  main ← getn main_table_ba;
  if main =? 0 then nmbm_rebuild_info_table
  else
    w ← nmbm_write_info_table main main_table_limit;
    backup ← getn backup_table_ba;
    match w with
    | None =>
        if backup =? 0 then nmbm_rebuild_info_table else nmbm_rescue_main_info_table
    | Some (table_start_ba, table_end_ba) =>
        modn (set_main_table_ba table_start_ba);;
        (if backup =? 0 then modn (set_mapping_blocks_ba table_end_ba) else ret tt);;
        nmbm_mark_tables_clean;;
        ret true
    end.

Definition nmbm_update_info_table_once (force : bool) : N bool :=
  changed ← nmbm_generate_info_table_cache;
  if negb changed && negb force then ret true
  else
    backup ← getn backup_table_ba;
    top ← getn mapping_blocks_top_ba;
    if backup =? 0 then write_main_table top
    else
      w ← nmbm_write_info_table backup top;
      match w with
      | None =>
          modn (λ n, set_mapping_blocks_ba (backup_table_ba n) n);;
          modn (set_backup_table_ba 0);;
          top ← getn mapping_blocks_top_ba;
          write_main_table top
      | Some (table_start_ba, table_end_ba) =>
          modn (set_backup_table_ba table_start_ba);;
          modn (set_mapping_blocks_ba table_end_ba);;
          nmbm_mark_tables_clean;;
          write_main_table table_start_ba
      end.

Definition tables_changed n : bool := cbool (block_state_changed n) || cbool (block_mapping_changed n).

Definition nmbm_update_info_table : N bool :=
  p ← getn protected;
  if cbool p then ret true
  else
    while_brk fuel
      (λ _,
         c ← getn tables_changed;
         if negb c then ret (true, true)
         else
           success ← nmbm_update_info_table_once false;
           if success : bool then ret (false, true) else ret (true, false)) true.

Definition nmbm_map_block (lb : Z) : N bool :=
  mb ← getn mapping_blocks_ba;
  top ← getn mapping_blocks_top_ba;
  if mb =? top then ret false
  else
    r ← nmbm_block_walk false top 0 mb;
    match r with
    | None =>
        nmbm_update_info_table;;
        modn (λ n, set_mapping_blocks_top_ba (mapping_blocks_ba n) n);;
        ret false
    | Some pb =>
        set_mapping lb pb;;
        modn (λ n, set_mapping_blocks_top_ba (u32 (mapping_blocks_top_ba n - 1)) n);;
        modn (λ n, set_block_mapping_changed (u32 (block_mapping_changed n + 1)) n);;
        ret true
    end.

Definition nmbm_create_info_table : N bool :=
  sba ← getn signature_ba;
  mgmt ← getn mgmt_start_ba;
  r ← nmbm_block_walk false sba 1 mgmt;
  match r with
  | None => ret false
  | Some top =>
      modn (set_mapping_blocks_top_ba top);;
      nmbm_generate_info_table_cache;;
      success ← nmbm_rebuild_info_table;
      if negb success then ret false
      else
        lb0 ← getn data_block_count;
        mgmt ← getn mgmt_start_ba;
        for_brk_to lb0 (mgmt - 1)
          (λ lb _,
             success ← nmbm_map_block lb;
             if negb success then ret (true, tt)
             else
               modn (λ n, set_data_block_count (u32 (data_block_count n + 1)) n);;
               ret (false, tt)) tt;;
        nmbm_update_info_table
  end.

(** The first block of the management area of a new chip. *)
Definition new_mgmt_start n : Z :=
  let start := u32 (block_count n * u32 (NMBM_MGMT_DIV - max_ratio (lower n))) / NMBM_MGMT_DIV in
  if cbool (max_reserved_blocks (lower n)) &&
     (max_reserved_blocks (lower n) <? u32 (block_count n - start))
  then u32 (block_count n - max_reserved_blocks (lower n)) else start.

Definition new_signature n : nmbm_signature :=
  NmbmSignature
    (NmbmHeader NMBM_MAGIC_SIGNATURE NMBM_VER sizeof_nmbm_signature (checksum (sig_header (signature n))))
    (chip_size (lower n)) (erasesize (lower n)) (writesize (lower n)) (oobsize (lower n))
    (mgmt_start_ba n) NMBM_TRY_COUNT (sig_padding (signature n)).

Definition nmbm_create_new : N bool :=
  modn (λ n, set_mgmt_start_ba (new_mgmt_start n) n);;
  nmbm_scan_badblocks;;
  nmbm_build_mapping_table;;
  sig ← getn new_signature;
  b ← some (nmbm_update_checksum (signature_bytes sig));
  sig ← some (signature_at b);
  modn (set_signature sig);;
  ro ← getn read_only;
  if ro : bool then ret true
  else
    mgmt ← getn mgmt_start_ba;
    r ← nmbm_write_signature mgmt sig;
    match r with
    | None => ret false
    | Some ba =>
        modn (set_signature_ba ba);;
        nmbm_create_info_table
    end.

End Tables.
