(* ===== verification/NmbmIo.v ===== *)
(** * NMBM: attaching to a chip and the operations on logic addresses

    drivers/mtd/nmbm/nmbm-core.c from nmbm_check_info_table_header() to the
    end: finding the signature and the info tables on a chip,
    nmbm_attach(), and erasing, reading and writing by logic address. *)

From stdpp Require Import base list numbers list_numbers.
From Stdlib Require Import ZArith Lia.
From S2P Require Import Prelude Bytes Crc32 NmbmTypes NmbmCore NmbmTables.
Open Scope Z_scope.

Section Io.
Context {D : Type} (fuel : nat).
Abbreviation N := (M (nmbm D)).
Implicit Types n : nmbm_instance D.

(** ** Loading the info tables *)

Definition nmbm_check_info_table_header n (ifthdr : nmbm_info_table_header) : bool :=
  (magic (ift_header ifthdr) =? NMBM_MAGIC_INFO_TABLE) &&
  (hdr_size (ift_header ifthdr) =? info_table_size n) &&
  negb (u32 (mapping_table_off ifthdr - state_table_off ifthdr) <? state_table_size n) &&
  negb (u32 (info_table_size n - mapping_table_off ifthdr) <? mapping_table_size n).

(** The tables in the buffer [data]: element [i] of each. *)
Definition mapping_at (data : list Z) (ifthdr : nmbm_info_table_header) (i : Z) : option Z :=
  s32 <$> rd32 data (mapping_table_off ifthdr + 4 * i).
Definition state_at (data : list Z) (ifthdr : nmbm_info_table_header) (ba : Z) : option Z :=
  (λ u, Z.land (Z.shiftr u (state_shift ba)) BLOCK_ST_MASK) <$>
    rd32 data (state_table_off ifthdr + 4 * state_unit ba).

(** The comparisons are unsigned: a negative entry counts as a large one. *)
Definition nmbm_check_info_table (start_ba end_ba : Z) (data : list Z)
    (ifthdr : nmbm_info_table_header) : N (option Z) :=
  cnt ← getn data_block_count;
  sba ← getn signature_ba;
  '(_, (ok, minimum_mapping_pb)) ← for_brk_to 0 (cnt - 1)
    (λ ba '(_, minimum_mapping_pb),
       m ← some (mapping_at data ifthdr ba);
       let m := u32 m in
       if ((cnt <=? m) && (m <? end_ba)) || (m =? sba) then ret (true, (false, minimum_mapping_pb))
       else ret (false, (true, if (end_ba <=? m) && (m <? minimum_mapping_pb) then m
                               else minimum_mapping_pb))) (true, sba);
  if negb ok then ret None
  else
    '(_, ok) ← for_brk_to start_ba (end_ba - 1)
      (λ ba _,
         st ← nmbm_get_block_state ba;
         if negb (st =? BLOCK_ST_GOOD) then ret (false, true)
         else
           raw ← some (state_at data ifthdr ba);
           if negb (raw =? BLOCK_ST_GOOD) then ret (true, false) else ret (false, true)) true;
    if negb ok then ret None else ret (Some (u32 (minimum_mapping_pb - 1))).

Inductive load_exit := LoadOn | LoadFail.

(** On success: the block after the table, its write count and the address of
    the top remapped block. *)
Definition nmbm_try_load_info_table (ba : Z) (table_loaded : bool) : N (option (Z * Z * Z)) :=
  size ← getn info_table_size;
  limit ← getn (λ n, u32 (ba + size2blk n size));
  '(ba, (exit, pos, start_ba)) ← for_brk_to ba (limit - 1)
    (λ ba '(_, pos, start_ba),
       if size - pos =? 0 then ret (true, (LoadOn, pos, start_ba))
       else
         ok ← block_usable ba;
         if negb ok then ret (false, (LoadOn, pos, start_ba))
         else
           l ← getn lower;
           let chunksize := if erasesize l <? size - pos then erasesize l else size - pos in
           addr ← getn (λ n, ba2addr n ba);
           cache ← getn info_table_cache;
           old ← some (mem_read cache pos chunksize);
           '(rc, part) ← nmbn_read_data addr old chunksize;
           cache ← some (mem_copy cache pos part chunksize);
           modn (set_info_table_cache cache);;
           if rc <? 0 then
             nmbm_set_block_state ba BLOCK_ST_BAD;;
             ret (false, (LoadOn, pos, start_ba))
           else if 0 <? rc then ret (true, (LoadFail, pos, start_ba))
           else
             (* the header is checked when the first block has been read *)
             if pos =? 0 then
               ifthdr ← some (info_table_header_at cache);
               good ← getn (λ n, nmbm_check_info_table_header n ifthdr);
               if negb good then ret (true, (LoadFail, pos, start_ba))
               else ret (false, (LoadOn, pos + chunksize, ba))
             else ret (false, (LoadOn, pos + chunksize, start_ba))) (LoadOn, 0, 0);
  match exit with
  | LoadFail => ret None
  | LoadOn =>
      if negb (size - pos =? 0) then ret None
      else
        cache ← getn info_table_cache;
        good ← some (nmbm_check_header cache size);
        if negb good then ret None
        else
          ifthdr ← some (info_table_header_at cache);
          r ← nmbm_check_info_table start_ba ba cache ifthdr;
          match r with
          | None => ret None
          | Some top =>
              n ← getn id;
              (if negb table_loaded || (write_count (info_table n) <? write_count ifthdr) then
                 st ← some (mem_read cache (state_table_off ifthdr) (state_table_size n));
                 mp ← some (mem_read cache (mapping_table_off ifthdr) (mapping_table_size n));
                 modn (set_info_table ifthdr);;
                 modn (set_block_state (words_of_bytes (Z.to_nat (state_table_size n / 4)) st));;
                 modn (set_block_mapping (s32 <$> words_of_bytes (Z.to_nat (mapping_table_size n / 4)) mp))
               else ret tt);;
              ret (Some (ba, write_count ifthdr, top))
          end
  end.

(** On success: the first block searched from which a table loaded, the block
    after the table, its write count and its top remapped block. *)
Definition nmbm_search_info_table (ba limit : Z) (table_loaded : bool) : N (option (Z * Z * Z * Z)) :=
  end_ba ← getn (λ n, u32 (limit - size2blk n (info_table_size n)));
  '(_, r) ← for_brk_to ba (end_ba - 1)
    (λ ba _,
       r ← nmbm_try_load_info_table ba table_loaded;
       match r with
       | Some (eba, wc, top) => ret (true, Some (ba, eba, wc, top))
       | None => ret (false, None)
       end) None;
  ret r.

(** [data_block_count] is one more than the last mapped logic block. *)
Fixpoint last_mapped (i : nat) : N unit :=
  match i with
  | O => ret tt
  | S i' =>
      bm ← getn block_mapping;
      m ← some (zget bm (Z.of_nat i'));
      if 0 <=? m then modn (set_data_block_count (Z.of_nat i)) else last_mapped i'
  end.

Definition nmbm_load_info_table (ba limit : Z) : N bool :=
  modn (set_main_table_ba 0);;
  modn (set_backup_table_ba 0);;
  modn (λ n, set_info_table (with_write_count 0 (info_table n)) n);;
  modn (λ n, set_mapping_blocks_top_ba (u32 (signature_ba n - 1)) n);;
  modn (λ n, set_data_block_count (mgmt_start_pb (signature n)) n);;
  first ← nmbm_search_info_table ba limit false;
  match first with
  | None => ret false
  | Some (main_ba, main_table_end_ba, main_wc, main_top) =>
      modn (set_main_table_ba main_ba);;
      second ← nmbm_search_info_table main_table_end_ba limit true;
      (match second with
       | None => ret tt
       | Some (backup_ba, _, _, _) => modn (set_backup_table_ba backup_ba)
       end);;
      backup ← getn backup_table_ba;
      (match second with
       | Some (_, _, backup_wc, backup_top) =>
           modn (set_mapping_blocks_top_ba
                   (if backup =? 0 then main_top
                    else if backup_wc <=? main_wc then main_top else backup_top))
       | None => modn (set_mapping_blocks_top_ba main_top)
       end);;
      modn (set_mapping_blocks_ba
              (match second with Some (_, eba, _, _) => eba | None => main_table_end_ba end));;
      pb ← getn (λ n, mgmt_start_pb (signature n));
      last_mapped (Z.to_nat pb);;
      nmbm_generate_info_table_cache;;
      ro ← getn read_only;
      if ro : bool then ret true
      else
        success ←
          (match second with
           | None => nmbm_rescue_single_info_table fuel
           | Some (_, _, backup_wc, _) =>
               if backup =? 0 then nmbm_rescue_single_info_table fuel
               else if negb (main_wc =? backup_wc) then
                 modn (λ n, set_block_mapping_changed 1 (set_block_state_changed 1 n));;
                 nmbm_update_single_info_table fuel (main_wc <? backup_wc)
               else ret true
           end);
        mb ← getn mapping_blocks_ba;
        top ← getn mapping_blocks_top_ba;
        (if (mb =? top) || negb success then modn (set_protected 1) else ret tt);;
        ret true
  end.

Definition nmbm_load_existing : N bool :=
  modn (λ n, set_mgmt_start_ba (mgmt_start_pb (signature n)) n);;
  mgmt ← getn mgmt_start_ba;
  sba ← getn signature_ba;
  success ← nmbm_load_info_table mgmt sba;
  if success : bool then ret true
  else
    fl ← getn (λ n, flags (lower n));
    if negb (cbool (Z.land fl NMBM_F_CREATE)) then ret false
    else
      nmbm_scan_badblocks;;
      nmbm_build_mapping_table;;
      ro ← getn read_only;
      if ro : bool then ret true else nmbm_create_info_table fuel.

(** ** Attaching *)

(** One page of a block looked through for the signature. *)
Definition signature_page (addr : Z) : N (option nmbm_signature) :=
  '(rc, b) ← nmbn_read_data addr (replicate (Z.to_nat sizeof_nmbm_signature) 0) sizeof_nmbm_signature;
  if negb (rc =? 0) then ret None
  else
    good ← some (nmbm_check_header b sizeof_nmbm_signature);
    if negb good then ret None
    else
      sig ← some (signature_at b);
      ret (if magic (sig_header sig) =? NMBM_MAGIC_SIGNATURE then Some sig else None).

Definition signature_limit n : Z :=
  let cnt := u32 (Z.shiftr (chip_size (lower n)) (erasesize_shift n)) in
  let limit := u32 (cnt / NMBM_MGMT_DIV * u32 (NMBM_MGMT_DIV - max_ratio (lower n))) in
  if cbool (max_reserved_blocks (lower n)) && (max_reserved_blocks (lower n) <? u32 (cnt - limit))
  then u32 (cnt - max_reserved_blocks (lower n)) else limit.

Definition nmbm_find_signature : N (option (nmbm_signature * Z)) :=
  cnt ← getn (λ n, u32 (Z.shiftr (chip_size (lower n)) (erasesize_shift n)));
  limit ← getn signature_limit;
  '(_, r) ← while_brk fuel
    (λ '(ba, _),
       if ba <? limit then ret (true, (ba, None))
       else
         let ba := u32 (ba - 1) in
         addr ← getn (λ n, ba2addr n ba);
         bad ← nmbm_check_bad_phys_block ba;
         if bad : bool then ret (false, (ba, None))
         else
           r ← for_pages (λ off _,
             sig ← signature_page (addr + off);
             ret (bool_decide (is_Some sig), sig)) None;
           match r with
           | Some sig => ret (true, (ba, Some (sig, ba)))
           | None => ret (false, (ba, None))
           end) (cnt, None);
  ret r.

Definition is_power_of_2_u64 (x : Z) : bool := negb (x =? 0) && (Z.land x (u64 (x - 1)) =? 0).
Definition is_power_of_2 (x : Z) : bool := negb (x =? 0) && (Z.land x (u64 (x - 1)) =? 0).

(** Whether the device is acceptable, and the device with a default ratio. *)
Definition nmbm_check_lower_members (nld : nmbm_lower_device D) : bool * nmbm_lower_device D :=
  if negb (is_power_of_2_u64 (chip_size nld)) then (false, nld)
  else if negb (is_power_of_2 (erasesize nld)) then (false, nld)
  else if negb (is_power_of_2 (writesize nld)) then (false, nld)
  else if oobsize nld =? 0 then (false, nld)
  else if bool_decide (read_page nld = None) then (false, nld)
  else if negb (cbool (Z.land (flags nld) NMBM_F_READ_ONLY)) &&
          (bool_decide (write_page nld = None) || bool_decide (erase_block nld = None)) then (false, nld)
  else
    let nld := if max_ratio nld =? 0 then set_max_ratio 1 nld else nld in
    if NMBM_MGMT_DIV - 1 <=? max_ratio nld then (false, nld)
    else if cbool (max_reserved_blocks nld) && (max_reserved_blocks nld <? NMBM_MGMT_BLOCKS_MIN) then (false, nld)
    else (true, nld).

Definition NMBM_ALIGN (v a : Z) : Z := Z.land (v + a - 1) (not32 (a - 1)).

(** The sizes of the state table, the mapping table and the info table with
    its two offsets, for [block_count] blocks and pages of [w] bytes. *)
Definition state_size (block_count : Z) : Z :=
  u32 (u32 (block_count + NMBM_BITMAP_BLOCKS_PER_UNIT - 1) / NMBM_BITMAP_BLOCKS_PER_UNIT * NMBM_BITMAP_UNIT_SIZE).
Definition mapping_size (block_count : Z) : Z := u32 (block_count * 4).
Definition state_off (w : Z) : Z := u32 (NMBM_ALIGN sizeof_nmbm_info_table_header w).
Definition mapping_off (block_count w : Z) : Z := u32 (state_off w + NMBM_ALIGN (state_size block_count) w).
Definition table_size (block_count w : Z) : Z :=
  u32 (mapping_off block_count w + NMBM_ALIGN (mapping_size block_count) w).

(** [sizeof_instance] is the size of struct nmbm_instance, a [size_t]; the
    other terms and their sum are [uint32_t]. *)
Definition nmbm_calc_structure_size (sizeof_instance : Z) (nld : nmbm_lower_device D) : Z :=
  let block_count := u32 (chip_size nld / erasesize nld) in
  u64 (u32 (table_size block_count (writesize nld) + state_size block_count + mapping_size block_count +
            writesize nld + oobsize nld) + sizeof_instance).

(** [ffs()], the index of the lowest one bit counted from 1, as generic_ffs()
    defines it (the ARM port uses the compiler's own, which is the same
    function).  One step of its binary search: shift the argument if its low
    bits are zero. *)
Definition ffs_step (mask k : Z) '(x, r) : Z * Z :=
  if Z.land x mask =? 0 then (Z.shiftr x k, r + k) else (x, r).

Definition ffs (x : Z) : Z :=
  let x := s32 x in
  if x =? 0 then 0
  else (ffs_step 1 1 (ffs_step 3 2 (ffs_step 0xf 4 (ffs_step 0xff 8 (ffs_step 0xffff 16 (x, 1)))))).2.

(** [mem] is the memory allocated behind the structure. *)
Definition nmbm_init_structure (mem : list Z) : N unit :=
  n ← getn id;
  let l := lower n in
  let pages_per_block := erasesize l / writesize l in
  let blocks_per_chip := u32 (chip_size l / erasesize l) in
  let rawpage := u32 (writesize l + oobsize l) in
  let rawblock := u32 (pages_per_block * rawpage) in
  let wshift := u16 (ffs (writesize l) - 1) in
  let eshift := u16 (ffs (erasesize l) - 1) in
  let cnt := u32 (Z.shiftr (chip_size l) eshift) in
  let isize := table_size cnt (writesize l) in
  let ssize := state_size cnt in
  let msize := mapping_size cnt in
  let h := info_table n in
  let ift := NmbmInfoTableHeader (ift_header h) (write_count h) (state_off (writesize l))
               (mapping_off cnt (writesize l)) (ift_padding h) in
  cache ← some (mem_read mem 0 isize);
  (* memory of the state table, which is then set to 0xff *)
  st ← some (mem_read mem isize ssize);
  mp ← some (mem_read mem (isize + ssize) msize);
  pc ← some (mem_read mem (isize + ssize + msize) rawpage);
  st ← some (mem_fill st 0 ssize 0xff);
  let n1 := NmbmInstance l rawpage rawblock (u32 (blocks_per_chip * rawblock))
    (u32 (writesize l - 1)) (u32 (erasesize l - 1)) wshift eshift (signature n) cache isize 0 ift
    (words_of_bytes (Z.to_nat (ssize / 4)) st) 0 ssize
    (s32 <$> words_of_bytes (Z.to_nat (msize / 4)) mp) 0 msize pc (protected n) cnt
    (data_block_count n) (mgmt_start_ba n) (main_table_ba n) (backup_table_ba n)
    (mapping_blocks_ba n) (mapping_blocks_top_ba n) (signature_ba n) (log_display_level n) in
  modn (λ _, set_spare_blocks (nmbm_get_spare_block_count (size2blk n1 isize)) n1).

(** The checks of a signature that was found. *)
Definition signature_matches (nld : nmbm_lower_device D) (sig : nmbm_signature) : bool :=
  (version (sig_header sig) =? NMBM_VER) &&
  (nand_size sig =? chip_size nld) && (block_size sig =? erasesize nld) &&
  (page_size sig =? writesize nld) && (spare_size sig =? oobsize nld).

(** Neither pointer is NULL. *)
Definition nmbm_attach (nld : nmbm_lower_device D) (mem : list Z) : N Z :=
  modn (set_log_display_level NMBM_DEFAULT_LOG_LEVEL);;
  let '(success, nld) := nmbm_check_lower_members nld in
  if negb success then ret (- EINVAL)
  else
    modn (set_lower nld);;
    nmbm_init_structure mem;;
    r ← nmbm_find_signature;
    match r with
    | None =>
        if negb (cbool (Z.land (flags nld) NMBM_F_CREATE)) then ret (- ENODEV)
        else
          success ← nmbm_create_new fuel;
          ret (if success : bool then 0 else - ENODEV)
    | Some (sig, ba) =>
        modn (set_signature sig);;
        modn (set_signature_ba ba);;
        if negb (signature_matches nld sig) then ret (- EINVAL)
        else
          success ← nmbm_load_existing;
          ret (if success : bool then 0 else - ENODEV)
    end.

Definition nmbm_detach : N Z :=
  ro ← getn read_only;
  (if negb ro then nmbm_update_info_table fuel else ret true);;
  ret 0.

End Io.
