(* ===== verification/NmbmOps.v ===== *)
(** * NMBM: operations on logic addresses

    drivers/mtd/nmbm/nmbm-core.c from nmbm_erase_logic_block() to the end and
    nmbm-debug.inl.  The pointer to the instance is never NULL here. *)

From stdpp Require Import base list numbers list_numbers.
From Stdlib Require Import ZArith Lia.
From S2P Require Import Prelude Bytes Crc32 NmbmTypes NmbmCore NmbmTables.
Open Scope Z_scope.

Section Ops.
Context {D : Type} (fuel : nat).
Abbreviation N := (M (nmbm D)).
Implicit Types n : nmbm_instance D.

(** The physical block of a logic block, negative if there is none. *)
Definition get_mapping (lb : Z) : N Z :=
  bm ← getn block_mapping;
  some (zget bm lb).

Definition is_writable n : bool := negb (cbool (protected n) || read_only n).

(** ** Erasing *)

(** The part from [remap_logic_block] on: whether to retry. *)
Definition remap_logic_block (block_addr pb : Z) : N (bool * Z) :=
  success ← nmbm_map_block fuel block_addr;
  (if negb success then set_mapping block_addr (-1) else ret tt);;
  st ← nmbm_get_block_state pb;
  (if negb (st =? BLOCK_ST_NEED_REMAP) then nmbm_set_block_state pb BLOCK_ST_BAD;; ret tt
   else ret tt);;
  nmbm_update_info_table fuel;;
  ret (if success then (false, 0) else (true, - EIO)).

Definition erase_logic_block_once (block_addr : Z) : N (bool * Z) :=
  pb ← get_mapping block_addr;
  if pb <? 0 then ret (true, - EIO)
  else
    st ← nmbm_get_block_state pb;
    if (st =? BLOCK_ST_BAD) || (st =? BLOCK_ST_NEED_REMAP) then remap_logic_block block_addr pb
    else
      bad ← nmbm_check_bad_phys_block pb;
      if bad : bool then
        nmbm_set_block_state pb BLOCK_ST_BAD;;
        remap_logic_block block_addr pb
      else
        success ← nmbm_erase_block_and_check pb;
        if success : bool then ret (true, 0)
        else
          mark_bad pb;;
          remap_logic_block block_addr pb.

Definition nmbm_erase_logic_block (block_addr : Z) : N Z :=
  while_brk fuel (λ _, erase_logic_block_once block_addr) 0.

(** The result, and the failed address if an erasure failed. *)
Definition nmbm_erase_block_range (addr size : Z) : N (Z * option Z) :=
  w ← getn is_writable;
  if negb w then ret (- EROFS, None)
  else
    avail ← getn (λ n, ba2addr n (data_block_count n));
    if avail <=? addr then ret (- EINVAL, None)
    else if avail <? u64 (addr + size) then ret (- EINVAL, None)
    else if size =? 0 then ret (0, None)
    else
      start_ba ← getn (λ n, addr2ba n addr);
      end_ba ← getn (λ n, addr2ba n (u64 (addr + size - 1)));
      '(_, r) ← for_brk_to start_ba end_ba
        (λ ba _,
           rc ← nmbm_erase_logic_block ba;
           if negb (rc =? 0) then
             failed ← getn (λ n, ba2addr n ba);
             ret (true, (rc, Some failed))
           else ret (false, (0, None))) (0, None);
      ret r.

(** ** Reading *)

(** The physical address of a logic address, unless the block is unusable. *)
Definition phys_addr (addr : Z) : N (option (Z * Z)) :=
  lb ← getn (λ n, addr2ba n addr);
  offset ← getn (λ n, Z.land addr (erasesize_mask n));
  pb ← get_mapping lb;
  if pb <? 0 then ret None
  else
    st ← nmbm_get_block_state pb;
    if st =? BLOCK_ST_BAD then ret None
    else getn (λ n, Some (pb, ba2addr n pb + offset)).

Definition nmbm_read_logic_page (addr : Z) (data oob : option (list Z)) (mode : nmbm_oob_mode)
    : N (Z * option (list Z) * option (list Z)) :=
  p ← phys_addr addr;
  match p with
  | None => ret (- EIO, data, oob)
  | Some (_, paddr) => nmbm_read_phys_page paddr data oob mode
  end.

Definition nmbm_read_single_page (addr : Z) (data oob : option (list Z)) (mode : nmbm_oob_mode)
    : N (Z * option (list Z) * option (list Z)) :=
  p ← getn protected;
  if cbool p then ret (- EROFS, data, oob)
  else
    avail ← getn (λ n, ba2addr n (data_block_count n));
    if avail <=? addr then ret (- EINVAL, data, oob)
    else nmbm_read_logic_page addr data oob mode.

(** [leading] and [chunksize] of the loops over 64-bit sizes. *)
Definition range_chunk n (off sizeremain : Z) : Z * Z :=
  let leading := Z.land off (writesize_mask n) in
  let chunksize := u64 (writesize (lower n) - leading) in
  (leading, if sizeremain <? chunksize then sizeremain else chunksize).

(** The loop variables of nmbm_read_range(); [rr_pos] bytes have been read. *)
Record read_state := ReadState {
  rr_ret : Z;
  rr_pos : Z;
  rr_data : list Z;
  rr_ecc : bool;
  rr_flips : Z;
}.

Definition fatal (rc : Z) : bool := (rc <? 0) && negb (rc =? - EBADMSG).

Definition read_range_step (addr size : Z) (mode : nmbm_oob_mode) (r : read_state) : N (bool * read_state) :=
  let pos := rr_pos r in
  if size - pos =? 0 then ret (true, r)
  else
    '(leading, chunksize) ← getn (λ n, range_chunk n (u64 (addr + pos)) (size - pos));
    w ← getn (λ n, writesize (lower n));
    '(rc, data) ←
      (if chunksize =? w then
         old ← some (mem_read (rr_data r) pos w);
         '(rc, page, _) ← nmbm_read_logic_page (u64 (addr + pos) - leading) (Some old) None mode;
         page ← some page;
         data ← some (mem_copy (rr_data r) pos page w);
         ret (rc, data)
       else
         old ← getn cache_data;
         '(rc, page, _) ← nmbm_read_logic_page (u64 (addr + pos) - leading) (Some old) None mode;
         page ← some page;
         modn (λ n, set_page_cache (page ++ cache_oob n) n);;
         if fatal rc then ret (rc, rr_data r)
         else
           pc ← getn page_cache;
           part ← some (mem_read pc leading chunksize);
           data ← some (mem_copy (rr_data r) pos part chunksize);
           ret (rc, data));
    if fatal rc then ret (true, ReadState rc pos data (rr_ecc r) (rr_flips r))
    else
      ret (false, ReadState rc (pos + chunksize) data (rr_ecc r || (rc =? - EBADMSG))
                    (Z.max (rr_flips r) rc)).

(** The result, [*retlen] and the buffer. *)
Definition nmbm_read_range (addr size : Z) (data : list Z) (mode : nmbm_oob_mode)
    : N (Z * option Z * list Z) :=
  p ← getn protected;
  if cbool p then ret (- EROFS, None, data)
  else
    avail ← getn (λ n, ba2addr n (data_block_count n));
    if avail <=? addr then ret (- EINVAL, None, data)
    else if avail <? u64 (addr + size) then ret (- EINVAL, None, data)
    else if size =? 0 then ret (0, None, data)
    else
      r ← while_brk (S (Z.to_nat size)) (read_range_step addr size mode) (ReadState 0 0 data false 0);
      ret (if fatal (rr_ret r) then rr_ret r else if rr_ecc r then - EBADMSG else rr_flips r,
           Some (rr_pos r), rr_data r).

(** ** Writing *)

Definition write_failed (pb : Z) : N Z :=
  nmbm_set_block_state pb BLOCK_ST_NEED_REMAP;;
  nmbm_update_info_table fuel;;
  ret (- EIO).

Definition nmbm_write_logic_page (addr : Z) (data oob : option (list Z)) (mode : nmbm_oob_mode) : N Z :=
  p ← phys_addr addr;
  match p with
  | None => ret (- EIO)
  | Some (pb, paddr) =>
      success ← nmbm_write_phys_page paddr data oob mode;
      if success : bool then ret 0 else write_failed pb
  end.

Definition nmbm_panic_write_logic_page (addr : Z) (data : list Z) : N Z :=
  p ← phys_addr addr;
  match p with
  | None => ret (- EIO)
  | Some (pb, paddr) =>
      success ← nmbm_panic_write_phys_page paddr data;
      if success : bool then ret 0 else write_failed pb
  end.

Definition nmbm_write_single_page (addr : Z) (data oob : option (list Z)) (mode : nmbm_oob_mode) : N Z :=
  w ← getn is_writable;
  if negb w then ret (- EROFS)
  else
    avail ← getn (λ n, ba2addr n (data_block_count n));
    if avail <=? addr then ret (- EINVAL)
    else nmbm_write_logic_page addr data oob mode.

Definition nmbm_panic_write_single_page (addr : Z) (data : list Z) : N Z :=
  w ← getn is_writable;
  if negb w then ret (- EROFS)
  else
    avail ← getn (λ n, ba2addr n (data_block_count n));
    if avail <=? addr then ret (- EINVAL)
    else nmbm_panic_write_logic_page addr data.

(** [pos] bytes have been written. *)
Definition write_range_step (addr size : Z) (data : list Z) (mode : nmbm_oob_mode) (r : Z * Z)
    : N (bool * (Z * Z)) :=
  let pos := r.2 in
  if size - pos =? 0 then ret (true, r)
  else
    '(leading, chunksize) ← getn (λ n, range_chunk n (u64 (addr + pos)) (size - pos));
    w ← getn (λ n, writesize (lower n));
    part ← some (mem_read data pos chunksize);
    rc ←
      (if chunksize =? w then
         nmbm_write_logic_page (u64 (addr + pos) - leading) (Some part) None mode
       else
         pc ← getn page_cache;
         pc ← some (mem_fill pc 0 leading 0xff);
         pc ← some (mem_copy pc leading part chunksize);
         modn (set_page_cache pc);;
         page ← getn cache_data;
         nmbm_write_logic_page (u64 (addr + pos) - leading) (Some page) None mode);
    if negb (rc =? 0) then ret (true, (rc, pos)) else ret (false, (rc, pos + chunksize)).

Definition nmbm_write_range (addr size : Z) (data : list Z) (mode : nmbm_oob_mode) : N (Z * option Z) :=
  w ← getn is_writable;
  if negb w then ret (- EROFS, None)
  else
    avail ← getn (λ n, ba2addr n (data_block_count n));
    if avail <=? addr then ret (- EINVAL, None)
    else if avail <? u64 (addr + size) then ret (- EINVAL, None)
    else if size =? 0 then ret (0, None)
    else
      '(rc, pos) ← while_brk (S (Z.to_nat size)) (write_range_step addr size data mode) (0, 0);
      ret (rc, Some pos).

(** ** Bad blocks and sizes *)

Definition nmbm_check_bad_block (addr : Z) : N Z :=
  avail ← getn (λ n, ba2addr n (data_block_count n));
  if avail <=? addr then ret (- EINVAL)
  else
    lb ← getn (λ n, addr2ba n addr);
    pb ← get_mapping lb;
    if pb <? 0 then ret 1
    else
      st ← nmbm_get_block_state pb;
      ret (if st =? BLOCK_ST_BAD then 1 else 0).

Definition nmbm_mark_bad_block (addr : Z) : N Z :=
  w ← getn is_writable;
  if negb w then ret (- EROFS)
  else
    avail ← getn (λ n, ba2addr n (data_block_count n));
    if avail <=? addr then ret (- EINVAL)
    else
      lb ← getn (λ n, addr2ba n addr);
      pb ← get_mapping lb;
      if pb <? 0 then ret 0
      else
        set_mapping lb (-1);;
        mark_bad pb;;
        nmbm_update_info_table fuel;;
        ret 0.

Definition nmbm_get_avail_size n : Z := u64 (Z.shiftl (data_block_count n) (erasesize_shift n)).
Definition nmbm_get_lower_device n : nmbm_lower_device D := lower n.

(** ** nmbm-debug.inl *)

Inductive nmmb_block_type :=
| NMBM_BLOCK_GOOD_DATA | NMBM_BLOCK_GOOD_MGMT | NMBM_BLOCK_BAD | NMBM_BLOCK_MAIN_INFO_TABLE
| NMBM_BLOCK_BACKUP_INFO_TABLE | NMBM_BLOCK_REMAPPED | NMBM_BLOCK_SIGNATURE.

Definition nmbm_debug_get_phys_block_type (ba : Z) : N nmmb_block_type :=
  st ← nmbm_get_block_state ba;
  n ← getn id;
  if st =? BLOCK_ST_BAD then ret NMBM_BLOCK_BAD
  else if ba <? data_block_count n then ret NMBM_BLOCK_GOOD_DATA
  else if ba =? signature_ba n then ret NMBM_BLOCK_SIGNATURE
  else
    in_main ←
      (if main_table_ba n =? 0 then ret false
       else
         let limit := if backup_table_ba n =? 0 then mapping_blocks_ba n else backup_table_ba n in
         r ← nmbm_block_walk_asc (main_table_ba n) (size2blk n (info_table_size n)) limit;
         ret (match r with
              | Some eba => (main_table_ba n <=? ba) && (ba <? eba)
              | None => false
              end));
    ret (if in_main : bool then NMBM_BLOCK_MAIN_INFO_TABLE
         else if (backup_table_ba n <=? ba) && (ba <? mapping_blocks_ba n) then NMBM_BLOCK_BACKUP_INFO_TABLE
         else if (mapping_blocks_top_ba n <? ba) && (ba <? signature_ba n) then NMBM_BLOCK_REMAPPED
         else NMBM_BLOCK_GOOD_MGMT).

End Ops.
