(* ===== verification/NmbmLayout.v ===== *)
(** * NMBM: layout of the on-chip structures

    The structures as they are stored: what a buffer holds can be read back
    member by member, and a checksum that nmbm_update_checksum() stored is
    accepted by nmbm_check_header(). *)

From stdpp Require Import base list numbers list_numbers.
From Stdlib Require Import ZArith Lia.
From S2P Require Import Prelude Bytes Crc32 NmbmTypes NmbmCore.
Open Scope Z_scope.

(** ** Headers *)

Definition u32_header (h : nmbm_header) : nmbm_header :=
  NmbmHeader (u32 (magic h)) (u32 (version h)) (u32 (hdr_size h)) (u32 (checksum h)).

Definition header_ok (h : nmbm_header) : Prop := u32_header h = h.

Lemma zlen_header_bytes h : zlen (header_bytes h) = sizeof_nmbm_header.
Proof. unfold header_bytes. by rewrite !zlen_app, !zlen_le_bytes. Qed.

Lemma header_at_bytes h r : header_at (header_bytes h ++ r) = Some (u32_header h).
Proof.
  unfold header_at, header_bytes. rewrite <- !app_assoc.
  rewrite rd32_here. cbn [mbind option_bind].
  rewrite !rd32_skip by lia. rewrite rd32_here. cbn [mbind option_bind].
  rewrite !rd32_skip by lia. rewrite rd32_here. cbn [mbind option_bind].
  rewrite !rd32_skip by lia. by rewrite rd32_here.
Qed.

Lemma word_bytes l : zlen l = 4 → Forall is_byte l → ∃ x, l = le_bytes 4 x ∧ u32 x = x.
Proof.
  intros Hl Hb. exists (le_val l). split.
  - symmetry. replace 4%nat with (length l) by (unfold zlen in Hl; lia). by apply le_bytes_val.
  - apply le_val_range in Hb. rewrite Hl in Hb. unfold u32. by apply Z.mod_small.
Qed.

(** A buffer of at least 16 bytes starts with a header. *)
Lemma header_split b : sizeof_nmbm_header ≤ zlen b → Forall is_byte b →
  ∃ h r, b = header_bytes h ++ r ∧ header_ok h.
Proof.
  unfold sizeof_nmbm_header. intros Hl Hb.
  destruct (mem_split b 4) as (w0 & b0 & -> & H0 & Hl0); [lia|].
  destruct (mem_split b0 4) as (w1 & b1 & -> & H1 & Hl1); [lia|].
  destruct (mem_split b1 4) as (w2 & b2 & -> & H2 & Hl2); [lia|].
  destruct (mem_split b2 4) as (w3 & b3 & -> & H3 & Hl3); [lia|].
  rewrite !Forall_app in Hb. destruct Hb as (B0 & B1 & B2 & B3 & _).
  destruct (word_bytes w0) as (x0 & -> & E0); [done..|].
  destruct (word_bytes w1) as (x1 & -> & E1); [done..|].
  destruct (word_bytes w2) as (x2 & -> & E2); [done..|].
  destruct (word_bytes w3) as (x3 & -> & E3); [done..|].
  exists (NmbmHeader x0 x1 x2 x3), b3. unfold header_bytes, header_ok, u32_header. simpl magic.
  simpl version. simpl hdr_size. simpl checksum. by rewrite <- !app_assoc, E0, E1, E2, E3.
Qed.

Lemma store_checksum h r c :
  mem_copy (header_bytes h ++ r) 12 (le_bytes 4 c) 4 = Some (header_bytes (with_checksum c h) ++ r).
Proof.
  unfold header_bytes. simpl magic. simpl version. simpl hdr_size. simpl checksum.
  set (a := le_bytes 4 (magic h) ++ le_bytes 4 (version h) ++ le_bytes 4 (hdr_size h)).
  assert (Ha : zlen a = 12) by (unfold a; by rewrite !zlen_app, !zlen_le_bytes).
  pose proof (mem_copy_here a (le_bytes 4 (checksum h)) r (le_bytes 4 c) 4
    (zlen_le_bytes _ _) (zlen_le_bytes _ _)) as Hm.
  rewrite Ha in Hm. unfold a in Hm. rewrite <- !app_assoc in *. exact Hm.
Qed.

(** Storing the checksum of a structure whose size its header gives. *)
Lemma update_checksum_spec h r :
  header_ok h → 0 ≤ hdr_size h ≤ zlen (header_bytes h ++ r) →
  ∃ c, nmbm_update_checksum (header_bytes h ++ r) = Some (header_bytes (with_checksum c h) ++ r) ∧
    c = nmbm_crc32 0 0 (take (Z.to_nat (hdr_size h)) (header_bytes (with_checksum 0 h) ++ r)).
Proof.
  intros Hok Hs. unfold nmbm_update_checksum. rewrite header_at_bytes, Hok. cbn [mbind option_bind].
  rewrite store_checksum. cbn [mbind option_bind].
  rewrite mem_read_ok; [|lia|lia|]. 2:{ rewrite zlen_app, zlen_header_bytes in *. lia. }
  cbn [mbind option_bind]. rewrite store_checksum. eexists. split; [done|].
  simpl. done.
Qed.

Lemma update_checksum_header h r b' :
  header_ok h → 0 ≤ hdr_size h ≤ zlen (header_bytes h ++ r) →
  nmbm_update_checksum (header_bytes h ++ r) = Some b' →
  ∃ c, b' = header_bytes (with_checksum c h) ++ r.
Proof.
  intros Hok Hs Hu. destruct (update_checksum_spec h r Hok Hs) as (c & Hc & _).
  exists c. congruence.
Qed.

#[local] Opaque crc32_bytes nmbm_crc32.

Lemma crc32_bytes_nil c : crc32_bytes c [] = c.
Proof. reflexivity. Qed.

(** The checksum stored by nmbm_update_checksum() over at least the header is
    the one nmbm_check_header() computes, in two parts. *)
Lemma update_then_check b h size :
  Forall is_byte b → header_at b = Some h →
  sizeof_nmbm_header ≤ hdr_size h ≤ zlen b → hdr_size h ≤ size →
  ∃ b', nmbm_update_checksum b = Some b' ∧ nmbm_check_header b' size = Some true.
Proof.
  intros Hb Hh Hs Hsz. pose proof Hb as Hb'.
  destruct (header_split b ltac:(lia) Hb) as (h' & r & -> & Hok).
  rewrite header_at_bytes, Hok in Hh. injection Hh as ->.
  apply Forall_app in Hb' as [_ Hr].
  destruct (update_checksum_spec h r Hok ltac:(unfold sizeof_nmbm_header in *; lia)) as (c & Hu & Hc).
  exists (header_bytes (with_checksum c h) ++ r). split; [done|].
  assert (Hhb : ∀ x, Forall is_byte (header_bytes x)).
  { intros x. unfold header_bytes. repeat apply Forall_app_2; apply le_bytes_is_byte. }
  rewrite zlen_app, zlen_header_bytes in Hs.
  set (rr := take (Z.to_nat (hdr_size h - sizeof_nmbm_header)) r).
  assert (Hrr : Forall is_byte rr) by (by apply Forall_take).
  assert (Hcr : c = crc32_bytes (crc32_bytes 0 (header_bytes (with_checksum 0 h))) rr).
  { rewrite Hc, nmbm_crc32_bytes by (apply Forall_take, Forall_app_2; [apply Hhb|done]).
    rewrite <- crc32_bytes_app. f_equal. rewrite take_app_ge; last first.
    { pose proof (zlen_header_bytes (with_checksum 0 h)) as Hz. unfold zlen in Hz. lia. }
    f_equal. unfold rr. f_equal. pose proof (zlen_header_bytes (with_checksum 0 h)) as Hz. unfold zlen in Hz. lia. }
  assert (Hu32 : u32 c = c).
  { unfold u32. apply Z.mod_small. rewrite Hcr. apply crc32_bytes_range, crc32_bytes_range. lia. }
  assert (Hok' : u32_header (with_checksum c h) = with_checksum c h).
  { unfold header_ok, u32_header in *. destruct h. simpl in *. injection Hok as -> -> -> _.
    by rewrite Hu32. }
  unfold nmbm_check_header. rewrite header_at_bytes, Hok'.
  replace (hdr_size (with_checksum c h)) with (hdr_size h) by done.
  replace (checksum (with_checksum c h)) with c by done.
  replace (with_checksum 0 (with_checksum c h)) with (with_checksum 0 h) by done.
  rewrite (proj2 (Z.ltb_ge _ _)) by lia.
  rewrite nmbm_crc32_bytes by apply Hhb.
  case Z.ltb_spec; intros Hlt.
  - rewrite mem_read_app_r by (by rewrite zlen_header_bytes).
    rewrite zlen_header_bytes, Z.sub_diag, mem_read_ok by lia. cbn [fmap option_fmap option_map].
    replace (zslice r 0 (hdr_size h - sizeof_nmbm_header)) with rr by done.
    rewrite nmbm_crc32_bytes, <- Hcr by done. by rewrite Z.eqb_refl.
  - assert (Hnil : rr = []) by (unfold rr; by replace (hdr_size h - sizeof_nmbm_header) with 0 by lia).
    rewrite Hnil, crc32_bytes_nil in Hcr. by rewrite <- Hcr, Z.eqb_refl.
Qed.
