(* ===== verification/NmbmWf.v ===== *)
(** * NMBM: block states and the well-formedness of an instance

    The block state table as a map from blocks to states, the number of good
    blocks (the variant of the loops over the chip), what an instance must
    satisfy for the code to be safe, and what the chip-level operations may
    change. *)

From stdpp Require Import base list numbers list_numbers.
From Stdlib Require Import ZArith Lia.
From S2P Require Import Prelude Bytes Crc32 NmbmTypes NmbmCore NmbmTables.
Open Scope Z_scope.

(** ** The block state table *)

Definition put_state (bs : list Z) (ba st u : Z) : list Z :=
  zset bs (state_unit ba)
    (Z.lor (Z.land u (not32 (Z.shiftl BLOCK_ST_MASK (state_shift ba))))
       (u32 (Z.shiftl (Z.land st BLOCK_ST_MASK) (state_shift ba)))).

Lemma state_unit_nonneg ba : 0 ≤ ba → 0 ≤ state_unit ba.
Proof. intros. apply Z.div_pos; [done|reflexivity]. Qed.

Lemma state_shift_range ba : 0 ≤ ba → ∃ k, state_shift ba = 2 * k ∧ 0 ≤ k < 16 ∧ ba = 16 * state_unit ba + k.
Proof.
  intros. exists (ba `mod` 16). unfold state_shift, state_unit.
  change NMBM_BITMAP_BLOCKS_PER_UNIT with 16. change NMBM_BITMAP_BITS_PER_BLOCK with 2.
  pose proof (Z.mod_pos_bound ba 16). pose proof (Z.div_mod ba 16). lia.
Qed.

Lemma testbit_mask3 i : 0 ≤ i → Z.testbit 3 i = bool_decide (i < 2).
Proof.
  intros. change 3 with (Z.ones 2). case_bool_decide.
  - apply Z.ones_spec_low. lia.
  - apply Z.ones_spec_high. lia.
Qed.

Lemma testbit_not32 x i : 0 ≤ i < 32 → Z.testbit (not32 x) i = negb (Z.testbit x i).
Proof.
  intros. unfold not32, u32. rewrite Z.lxor_spec, Z.mod_pow2_bits_low by lia.
  change (2 ^ 32 - 1) with (Z.ones 32). rewrite Z.ones_spec_low by lia. by destruct (Z.testbit x i).
Qed.

(** The two bits at [2 * j] after those at [2 * k] were replaced. *)
Lemma replace_bits u st j k :
  0 ≤ j < 16 → 0 ≤ k < 16 → 0 ≤ st ≤ 3 →
  Z.land (Z.shiftr (Z.lor (Z.land u (not32 (Z.shiftl 3 (2 * k)))) (u32 (Z.shiftl (Z.land st 3) (2 * k)))) (2 * j)) 3 =
  if decide (j = k) then st else Z.land (Z.shiftr u (2 * j)) 3.
Proof.
  intros Hj Hk Hst. apply Z.bits_inj'. intros i Hi.
  assert (Hst3 : Z.land st 3 = st).
  { change 3 with (Z.ones 2). rewrite Z.land_ones by lia. apply Z.mod_small. lia. }
  rewrite Hst3, Z.land_spec, testbit_mask3, Z.shiftr_spec by lia.
  case_bool_decide as Hi2; last first.
  { rewrite andb_false_r. case_decide.
    - symmetry. apply Z.bits_above_log2; [lia|].
      destruct (decide (st = 0)) as [->|]; [simpl; lia|]. apply Z.log2_lt_pow2; [lia|].
      apply Z.lt_le_trans with (2 ^ 2); [lia|]. apply Z.pow_le_mono_r; lia.
    - rewrite Z.land_spec, testbit_mask3 by lia. rewrite bool_decide_false by lia. by rewrite andb_false_r. }
  rewrite andb_true_r, Z.lor_spec, Z.land_spec, testbit_not32 by lia.
  unfold u32. rewrite Z.mod_pow2_bits_low, !Z.shiftl_spec by lia.
  case_decide as Hjk.
  - subst k. replace (i + 2 * j - 2 * j) with i by lia.
    rewrite testbit_mask3, bool_decide_true by lia. by rewrite andb_false_r.
  - rewrite Z.land_spec, (testbit_mask3 i), bool_decide_true, Z.shiftr_spec, andb_true_r by lia.
    assert (Hz : Z.testbit 3 (i + 2 * j - 2 * k) = false ∧ Z.testbit st (i + 2 * j - 2 * k) = false).
    { destruct (decide (i + 2 * j - 2 * k < 0)).
      - by rewrite !Z.testbit_neg_r by lia.
      - rewrite testbit_mask3, bool_decide_false by lia. split; [done|].
        destruct (decide (st = 0)) as [->|]; [apply Z.bits_0|].
        apply Z.bits_above_log2; [lia|]. apply Z.log2_lt_pow2; [lia|].
        apply Z.lt_le_trans with (2 ^ 2); [lia|]. apply Z.pow_le_mono_r; lia. }
    destruct Hz as [-> ->]. by rewrite andb_true_r, orb_false_r.
Qed.

Lemma get_put_state bs ba st u ba' :
  zget bs (state_unit ba) = Some u → 0 ≤ ba → 0 ≤ ba' → 0 ≤ st ≤ 3 →
  nmbm_get_block_state_raw (put_state bs ba st u) ba' =
  if decide (ba = ba') then Some st else nmbm_get_block_state_raw bs ba'.
Proof.
  intros Hu Hba Hba' Hst. unfold nmbm_get_block_state_raw, put_state.
  destruct (state_shift_range ba Hba) as (k & -> & Hk & Hbk).
  destruct (state_shift_range ba' Hba') as (j & -> & Hj & Hbj).
  rewrite zget_zset by (by eapply zget_Some_range). unfold BLOCK_ST_MASK.
  destruct (decide (state_unit ba = state_unit ba')) as [He|He].
  - cbn. rewrite replace_bits by lia. rewrite <- He, Hu. cbn.
    destruct (decide (j = k)), (decide (ba = ba')); lia || done.
  - by rewrite decide_False by (intros ->; lia).
Qed.

Lemma state_raw_range bs ba st : nmbm_get_block_state_raw bs ba = Some st → 0 ≤ st ≤ 3.
Proof.
  unfold nmbm_get_block_state_raw. destruct (zget _ _) as [u|]; [|done]. intros [= <-].
  change BLOCK_ST_MASK with (Z.ones 2). rewrite Z.land_ones by lia.
  pose proof (Z.mod_pos_bound (Z.shiftr u (state_shift ba)) (2 ^ 2)). lia.
Qed.

(** ** Good blocks *)

Definition is_good (bs : list Z) (ba : Z) : bool :=
  bool_decide (nmbm_get_block_state_raw bs ba = Some BLOCK_ST_GOOD).

(** The number of good blocks among the first [k]. *)
Fixpoint goods (bs : list Z) (k : nat) : Z :=
  match k with
  | O => 0
  | S k' => (if is_good bs (Z.of_nat k') then 1 else 0) + goods bs k'
  end.

Lemma goods_range bs k : 0 ≤ goods bs k ≤ Z.of_nat k.
Proof. induction k as [|k IH]; cbn [goods]; [lia|]. destruct (is_good _ _); lia. Qed.

Lemma goods_put bs ba st u k :
  zget bs (state_unit ba) = Some u → 0 ≤ ba → 0 ≤ st ≤ 3 →
  goods (put_state bs ba st u) k =
  goods bs k + (if bool_decide (ba < Z.of_nat k) then
                  (if st =? BLOCK_ST_GOOD then 1 else 0) - (if is_good bs ba then 1 else 0)
                else 0).
Proof.
  intros Hu Hba Hst. induction k as [|k IH]; cbn [goods].
  { by rewrite bool_decide_false by lia. }
  rewrite IH. clear IH.
  assert (Hg : is_good (put_state bs ba st u) (Z.of_nat k) =
               if decide (ba = Z.of_nat k) then st =? BLOCK_ST_GOOD else is_good bs (Z.of_nat k)).
  { unfold is_good. rewrite (get_put_state bs ba st u) by (done || lia). case_decide; [|done].
    case (Z.eqb_spec st BLOCK_ST_GOOD); intros; case_bool_decide; congruence. }
  rewrite Hg. clear Hg. case_decide as Hk.
  - subst ba. do 2 case_bool_decide; lia.
  - do 2 case_bool_decide; lia.
Qed.

(** ** What the lower device is assumed to do

    The functions the code relies on are there, a read leaves buffers of the
    same size, and a write, an erasure or a mark returns an integer; nothing
    is assumed about which of them fail. *)
Record lower_ok {D} (l : nmbm_lower_device D) : Prop := {
  lo_read : ∃ f, read_page l = Some f ∧
    ∀ addr data oob mode d, let '(rc, data', oob', _) := f addr data oob mode d in
      length <$> data' = length <$> data ∧ length <$> oob' = length <$> oob;
  lo_write : cbool (Z.land (flags l) NMBM_F_READ_ONLY) = false → is_Some (write_page l);
  lo_erase : cbool (Z.land (flags l) NMBM_F_READ_ONLY) = false → is_Some (erase_block l);
}.

(** The device states that reading pages and resetting the chip can lead to. *)
Inductive device_reads {D} (l : nmbm_lower_device D) (d : D) : D → Prop :=
| dr_refl : device_reads l d d
| dr_read f addr data oob mode d' :
    device_reads l d d' → read_page l = Some f → device_reads l d (f addr data oob mode d').2
| dr_reset f d' :
    device_reads l d d' → reset_chip l = Some f → device_reads l d (f d').2.

Lemma device_reads_trans {D} (l : nmbm_lower_device D) d1 d2 d3 :
  device_reads l d1 d2 → device_reads l d2 d3 → device_reads l d1 d3.
Proof. intros H12 H23. induction H23; [done|by eapply dr_read|by eapply dr_reset]. Qed.

(** ** Well-formed instances *)

Section Wf.
Context {D : Type}.
Implicit Types n : nmbm_instance D.

(** The geometry of the chip and the sizes of the buffers. *)
Record geom_ok n : Prop := {
  g_lower : lower_ok (lower n);
  g_page : 0 < writesize (lower n) < 2 ^ 32 ∧ ∃ k, 0 ≤ k ∧ writesize (lower n) = 2 ^ k;
  g_mask : writesize_mask n = writesize (lower n) - 1;
  g_erase : 0 < erasesize (lower n) < 2 ^ 32;
  g_shift : 0 ≤ erasesize_shift n ∧ erasesize (lower n) = 2 ^ erasesize_shift n;
  g_emask : erasesize_mask n = erasesize (lower n) - 1;
  g_chip : block_count n * erasesize (lower n) < 2 ^ 64;
  g_oob : 0 < oobsize (lower n);
  g_raw : rawpage_size n = writesize (lower n) + oobsize (lower n);
  g_cache : zlen (page_cache n) = rawpage_size n;
  g_blocks : 0 < block_count n < 2 ^ 31;
  g_state : block_count n ≤ 16 * zlen (block_state n);
  g_state_size : state_table_size n = 4 * zlen (block_state n);
  g_mapping : zlen (block_mapping n) = block_count n;
  g_mapping_size : mapping_table_size n = 4 * zlen (block_mapping n);
  g_table : zlen (info_table_cache n) = info_table_size n;
  g_table_size : 32 ≤ info_table_size n < 2 ^ 32;
  g_state_off : 32 ≤ state_table_off (info_table n) ∧
    state_table_off (info_table n) + state_table_size n ≤ mapping_table_off (info_table n);
  g_mapping_off : mapping_table_off (info_table n) + mapping_table_size n ≤ info_table_size n;
}.

(** A well-formed instance: the mapping and the addresses of the tables stay
    within the chip. *)
Record nwf n : Prop := {
  wf_geom : geom_ok n;
  wf_mapping : Forall (λ m, -1 ≤ m < block_count n) (block_mapping n);
  wf_data : 0 ≤ data_block_count n ≤ block_count n;
  wf_spare : 0 ≤ info_table_spare_blocks n < 2 ^ 31;
  wf_mgmt : 0 ≤ mgmt_start_ba n < block_count n;
  wf_main : 0 ≤ main_table_ba n < block_count n;
  wf_backup : 0 ≤ backup_table_ba n < block_count n;
  wf_mapping_ba : 1 ≤ mapping_blocks_ba n < block_count n;
  wf_top : 1 ≤ mapping_blocks_top_ba n < block_count n;
}.

(** What the operations on pages change: the contents of the page cache and
    the device. *)
Definition paged (s s' : nmbm D) : Prop :=
  ∃ pc, ni s' = set_page_cache pc (ni s) ∧ zlen pc = zlen (page_cache (ni s)).

(** What the operations on blocks change: the states of blocks as well.  No
    block becomes good, and the change counter moves only with the number of
    good blocks. *)
Record low (s s' : nmbm D) : Prop := {
  low_eq : ∃ pc bs ch,
    ni s' = set_page_cache pc (set_block_state_changed ch (set_block_state bs (ni s))) ∧
    zlen pc = zlen (page_cache (ni s)) ∧ zlen bs = zlen (block_state (ni s));
  low_good : ∀ ba, is_good (block_state (ni s')) ba = true → is_good (block_state (ni s)) ba = true;
  low_goods : let k := Z.to_nat (block_count (ni s)) in
    goods (block_state (ni s')) k ≤ goods (block_state (ni s)) k ∧
    (goods (block_state (ni s')) k = goods (block_state (ni s)) k →
     block_state_changed (ni s') = block_state_changed (ni s) ∧
     block_state (ni s') = block_state (ni s));
}.

Lemma paged_refl s : paged s s.
Proof. exists (page_cache (ni s)). split; [by destruct (ni s)|done]. Qed.

Lemma paged_trans s1 s2 s3 : paged s1 s2 → paged s2 s3 → paged s1 s3.
Proof.
  intros (pc & H12 & Hp) (pc' & H23 & Hp'). exists pc'. rewrite H23, H12. split; [done|].
  by rewrite Hp', H12.
Qed.

Lemma paged_dev s d : paged s (Nmbm (ni s) d).
Proof. exists (page_cache (ni s)). split; [by destruct (ni s)|done]. Qed.

Lemma low_refl s : low s s.
Proof.
  constructor; [|done|split; [lia|done]].
  exists (page_cache (ni s)), (block_state (ni s)), (block_state_changed (ni s)).
  by destruct (ni s).
Qed.

Lemma low_trans s1 s2 s3 : low s1 s2 → low s2 s3 → low s1 s3.
Proof.
  intros [(pc & bs & ch & H12 & Hp & Hb) Hg Hk] [(pc' & bs' & ch' & H23 & Hp' & Hb') Hg' Hk'].
  constructor.
  - exists pc', bs', ch'. rewrite H23, H12. split; [by destruct (ni s1)|].
    rewrite H12 in Hp', Hb'. destruct (ni s1); simpl in *. lia.
  - auto.
  - assert (Hc : block_count (ni s2) = block_count (ni s1)) by (rewrite H12; by destruct (ni s1)).
    rewrite Hc in Hk'. cbv zeta in *. destruct Hk as [Hk1 Hk2], Hk' as [Hk1' Hk2'].
    split; [lia|]. intros He. destruct Hk2 as [? ?], Hk2' as [? ?]; try lia.
    split; congruence.
Qed.

Lemma paged_low s s' : paged s s' → low s s'.
Proof.
  intros (pc & He & Hp). constructor.
  - exists pc, (block_state (ni s)), (block_state_changed (ni s)). rewrite He. by destruct (ni s).
  - by rewrite He.
  - cbv zeta. by rewrite He.
Qed.

Lemma low_paged s1 s2 s3 : low s1 s2 → paged s2 s3 → low s1 s3.
Proof. intros H12 H23. eapply low_trans; [exact H12|by apply paged_low]. Qed.

Lemma low_geom s s' : low s s' → geom_ok (ni s) → geom_ok (ni s').
Proof.
  intros [(pc & bs & ch & He & Hp & Hb) _ _] []. rewrite He. destruct (ni s).
  constructor; simpl in *; congruence || lia || done.
Qed.

Lemma paged_geom s s' : paged s s' → geom_ok (ni s) → geom_ok (ni s').
Proof. intros ?%paged_low. by apply low_geom. Qed.

(** The members no operation on blocks touches. *)
Lemma low_same s s' : low s s' →
  lower (ni s') = lower (ni s) ∧ block_count (ni s') = block_count (ni s) ∧
  info_table_size (ni s') = info_table_size (ni s) ∧
  info_table_cache (ni s') = info_table_cache (ni s).
Proof. intros [(pc & bs & ch & -> & _) _ _]. done. Qed.

Lemma paged_state s s' : paged s s' →
  block_state (ni s') = block_state (ni s) ∧ block_state_changed (ni s') = block_state_changed (ni s) ∧
  block_count (ni s') = block_count (ni s) ∧ lower (ni s') = lower (ni s) ∧
  rawpage_size (ni s') = rawpage_size (ni s) ∧ writesize_mask (ni s') = writesize_mask (ni s) ∧
  log_display_level (ni s') = log_display_level (ni s).
Proof. by intros (pc & -> & _). Qed.

Lemma goods_equal_good bs bs' k ba :
  (∀ ba, is_good bs' ba = true → is_good bs ba = true) → 0 ≤ ba < Z.of_nat k →
  is_good bs ba = true → is_good bs' ba = false → goods bs' k < goods bs k.
Proof.
  intros Hsub. induction k as [|k IH]; [lia|]. intros Hba Hg Hb. cbn [goods].
  assert (Hle : goods bs' k ≤ goods bs k).
  { clear -Hsub. induction k as [|k IH]; cbn [goods]; [lia|].
    specialize (Hsub (Z.of_nat k)). destruct (is_good bs' _); [rewrite Hsub by done|destruct (is_good bs _)]; lia. }
  destruct (decide (ba = Z.of_nat k)) as [->|Hne].
  - rewrite Hg, Hb. lia.
  - specialize (IH ltac:(lia) Hg Hb). specialize (Hsub (Z.of_nat k)).
    destruct (is_good bs' _); [rewrite Hsub by done|destruct (is_good bs _)]; lia.
Qed.

(** A good block turning bad. *)
Lemma low_bad s ba ch u :
  zget (block_state (ni s)) (state_unit ba) = Some u →
  0 ≤ ba < block_count (ni s) → is_good (block_state (ni s)) ba = true →
  low s (Nmbm (set_block_state_changed ch
                 (set_block_state (put_state (block_state (ni s)) ba BLOCK_ST_BAD u) (ni s))) (dev s)).
Proof.
  intros Hu Hba Hg. set (bs := block_state (ni s)) in *.
  assert (Hput : ∀ b, is_good (put_state bs ba BLOCK_ST_BAD u) b = true → is_good bs b = true).
  { intros b. unfold is_good. rewrite !bool_decide_eq_true. intros Hb.
    destruct (decide (0 ≤ b)) as [Hb0|Hb0].
    - rewrite (get_put_state bs ba BLOCK_ST_BAD u) in Hb by (done || lia). by case_decide.
    - exfalso. unfold nmbm_get_block_state_raw, zget in Hb. rewrite decide_False in Hb; [done|].
      unfold state_unit. change NMBM_BITMAP_BLOCKS_PER_UNIT with 16.
      pose proof (Z.div_lt_upper_bound b 16 0). lia. }
  constructor; [|exact Hput|].
  - exists (page_cache (ni s)), (put_state bs ba BLOCK_ST_BAD u), ch. simpl.
    unfold put_state. by rewrite zlen_zset.
  - simpl. assert (goods (put_state bs ba BLOCK_ST_BAD u) (Z.to_nat (block_count (ni s))) <
                   goods bs (Z.to_nat (block_count (ni s)))); [|subst bs; lia].
    apply (goods_equal_good _ _ _ ba); [exact Hput|lia|done|].
    unfold is_good. rewrite (get_put_state bs ba BLOCK_ST_BAD u) by (done || lia).
    rewrite decide_True by done. done.
Qed.
End Wf.
