(* ===== verification/NmbmSafe.v ===== *)
(** * NMBM: the chip-level operations are safe

    For a lower device of which nothing is known but its interface, every
    operation of NmbmCore.v on a well-formed instance returns, accesses no
    buffer outside its bounds and changes only what [paged] and [low] allow. *)

From stdpp Require Import base list numbers list_numbers.
From Stdlib Require Import ZArith Lia.
From S2P Require Import Prelude Bytes Crc32 NmbmTypes NmbmCore NmbmTables.
From S2P Require Import NmbmWf.
Open Scope Z_scope.

Section Wps.
Context {D : Type}.
Abbreviation F := (λ _ : nmbm D, False).
Implicit Types s : nmbm D.

Lemma wp_getn {A} (f : nmbm_instance D → A) me s Q : Q (f (ni s)) s → wp F (getn f) me s Q.
Proof. done. Qed.

Lemma wp_modn f me s (Q : unit → nmbm D → Prop) : Q tt (Nmbm (f (ni s)) (dev s)) → wp F (modn f) me s Q.
Proof. done. Qed.

Lemma wp_lower_call {A} (f : D → A * D) me s Q :
  (∀ a d, f (dev s) = (a, d) → Q a (Nmbm (ni s) d)) → wp F (lower_call f) me s Q.
Proof. unfold wp, lower_call. intros H. destruct (f (dev s)) as [a d] eqn:He. auto. Qed.
End Wps.

(** One step of straight-line code. *)
Ltac wstep :=
  lazymatch goal with
  | |- wp _ (bind _ _) _ _ _ => apply wp_bind
  | |- wp _ (ret _) _ _ _ => apply wp_ret
  | |- wp _ (getn _) _ _ _ => apply wp_getn
  | |- wp _ (modn _) _ _ _ => apply wp_modn
  end; cbv beta.
Ltac wsteps := repeat wstep.

Section Pages.
Context {D : Type}.
Abbreviation F := (λ _ : nmbm D, False).
Implicit Types s : nmbm D.

Lemma wp_reset_chip me s (Q : unit → nmbm D → Prop) :
  (∀ d, device_reads (lower (ni s)) (dev s) d → Q tt (Nmbm (ni s) d)) → wp F nmbm_reset_chip me s Q.
Proof.
  intros HQ. unfold nmbm_reset_chip. wsteps. destruct (reset_chip _) as [f|] eqn:Hf.
  - apply wp_bind, wp_lower_call. intros a d Hd. apply wp_ret, HQ.
    replace d with (f (dev s)).2 by (by rewrite Hd). eapply dr_reset; [constructor|done].
  - apply wp_ret. destruct s. apply HQ. constructor.
Qed.

Lemma wp_read_phys_page addr data oob mode me s Q :
  lower_ok (lower (ni s)) →
  (∀ rc data' oob' d, device_reads (lower (ni s)) (dev s) d →
     length <$> data' = length <$> data → length <$> oob' = length <$> oob →
     Q (rc, data', oob') (Nmbm (ni s) d)) →
  wp F (nmbm_read_phys_page addr data oob mode) me s Q.
Proof.
  intros [(f & Hf & Hlen) _ _] HQ. unfold nmbm_read_phys_page. wsteps.
  apply (wp_some _ _ f); [done|]. apply wp_bind.
  apply (wp_for_brk_to _ (λ _ '(_, data', oob') s', length <$> data' = length <$> data ∧
     length <$> oob' = length <$> oob ∧ ni s' = ni s ∧ device_reads (lower (ni s)) (dev s) (dev s')));
    [split_and!; done || constructor| |].
  - intros i [[rc data'] oob'] s' _ (Hd & Ho & Hn & Hr). apply wp_bind, wp_lower_call.
    intros [[rc' data''] oob''] d He. specialize (Hlen addr data' oob' mode (dev s')).
    assert (Hr' : device_reads (lower (ni s)) (dev s) d).
    { replace d with (f addr data' oob' mode (dev s')).2 by (by rewrite He). by eapply dr_read. }
    rewrite He in Hlen. destruct Hlen as [Hd' Ho']. cbn [fst]. destruct (0 <=? rc').
    + apply wp_ret. apply wp_ret. cbn [ni]. rewrite Hn. apply HQ; congruence.
    + apply wp_bind, wp_reset_chip. cbn [ni dev]. intros d' Hr2. apply wp_ret. cbn [ni dev].
      rewrite Hn in Hr2. split_and!; try congruence. by eapply device_reads_trans.
  - intros [[rc data'] oob'] [n' d'] (Hd & Ho & Hn & Hr). apply wp_ret. cbn [ni] in Hn. subst n'.
    apply HQ; done || congruence.
Qed.

Lemma wp_with_retry f me s (Q : bool → nmbm D → Prop) :
  (∀ b d, Q b (Nmbm (ni s) d)) → wp F (with_retry f) me s Q.
Proof.
  intros HQ. unfold with_retry. wsteps.
  apply (wp_for_brk_to _ (λ _ _ s', ni s' = ni s)); [done| |].
  - intros i b s' _ Hn. apply wp_bind, wp_lower_call. intros rc d _. destruct (rc =? 0).
    + apply wp_ret, wp_ret. cbn [ni]. rewrite Hn. apply HQ.
    + apply wp_bind, wp_reset_chip. intros d' _. by apply wp_ret.
  - intros b [n' d'] Hn. apply wp_ret. cbn [ni] in Hn. subst n'. apply HQ.
Qed.

Lemma wp_write_phys_page addr data oob mode me s (Q : bool → nmbm D → Prop) :
  lower_ok (lower (ni s)) → (∀ b d, Q b (Nmbm (ni s) d)) →
  wp F (nmbm_write_phys_page addr data oob mode) me s Q.
Proof.
  intros [_ Hw _] HQ. unfold nmbm_write_phys_page. wsteps. unfold read_only.
  destruct (cbool _) eqn:Hro; [apply wp_ret; destruct s; apply HQ|]. wsteps.
  destruct (Hw eq_refl) as [f Hf]. apply (wp_some _ _ f); [done|]. by apply wp_with_retry.
Qed.

Lemma wp_erase_phys_block addr me s (Q : bool → nmbm D → Prop) :
  lower_ok (lower (ni s)) → (∀ b d, Q b (Nmbm (ni s) d)) →
  wp F (nmbm_erase_phys_block addr) me s Q.
Proof.
  intros [_ _ He] HQ. unfold nmbm_erase_phys_block. wsteps. unfold read_only.
  destruct (cbool _) eqn:Hro; [apply wp_ret; destruct s; apply HQ|]. wsteps.
  destruct (He eq_refl) as [f Hf]. apply (wp_some _ _ f); [done|]. by apply wp_with_retry.
Qed.

(** From here on the page cache may change as well. *)

Context (s0 : nmbm D) (G : geom_ok (ni s0)).

Lemma paged_lower_ok s : paged s0 s → lower_ok (lower (ni s)).
Proof. intros (_ & _ & _ & -> & _)%paged_state. by destruct G. Qed.

Lemma cache_split s : geom_ok (ni s) →
  zlen (cache_data (ni s)) = writesize (lower (ni s)) ∧
  zlen (cache_oob (ni s)) = oobsize (lower (ni s)) ∧
  page_cache (ni s) = cache_data (ni s) ++ cache_oob (ni s).
Proof.
  intros []. unfold cache_data, cache_oob. rewrite take_drop.
  rewrite zlen_take, zlen_drop by lia. split_and!; [done|lia|done].
Qed.

Lemma paged_set_cache s pc d : paged s0 s → zlen pc = zlen (page_cache (ni s)) →
  paged s0 (Nmbm (set_page_cache pc (ni s)) d).
Proof. intros Hp Hl. eapply paged_trans; [exact Hp|]. by exists pc. Qed.

Lemma fmap_length_Some (x : option (list Z)) (l : list Z) :
  length <$> x = Some (length l) → ∃ l', x = Some l' ∧ zlen l' = zlen l.
Proof. destruct x as [l'|]; [|done]. simpl. intros [= He]. exists l'. unfold zlen. by rewrite He. Qed.

Lemma wp_read_to_cache addr me s (Q : Z → nmbm D → Prop) :
  paged s0 s → (∀ rc s', paged s0 s' → Q rc s') → wp F (read_to_cache addr) me s Q.
Proof.
  intros Hp HQ. unfold read_to_cache. wsteps.
  apply wp_read_phys_page; [by apply paged_lower_ok|].
  intros rc data' oob' d _ (data & -> & Hl)%fmap_length_Some _. cbv beta iota.
  destruct (cache_split s) as (Hd & Ho & Hc); [by eapply paged_geom|].
  wsteps. apply (wp_some _ _ data); [done|]. wsteps. apply HQ. cbn [ni dev].
  apply paged_set_cache; [done|]. rewrite Hc, !zlen_app. lia.
Qed.

Lemma wp_check_bad_phys_block ba me s (Q : bool → nmbm D → Prop) :
  paged s0 s → (∀ b s', paged s0 s' → Q b s') → wp F (nmbm_check_bad_phys_block ba) me s Q.
Proof.
  intros Hp HQ. unfold nmbm_check_bad_phys_block. wsteps. destruct (is_bad_block _) as [f|].
  - wsteps. apply wp_lower_call. intros r d _. wsteps. apply HQ.
    eapply paged_trans; [exact Hp|apply paged_dev].
  - assert (Gs : geom_ok (ni s)) by (by eapply paged_geom).
    destruct (cache_split s Gs) as (Hd & Ho & Hc). wsteps.
    apply wp_read_phys_page; [by apply paged_lower_ok|].
    intros rc data' oob' d _ _ (oob & -> & Hl)%fmap_length_Some. cbv beta iota. wsteps.
    apply (wp_some _ _ oob); [done|]. wsteps. cbn [ni dev].
    assert (Hp' : paged s0 (Nmbm (set_page_cache (cache_data (ni s) ++ oob) (ni s)) d)).
    { apply paged_set_cache; [done|]. rewrite Hc, !zlen_app. lia. }
    destruct (_ && _); [by apply wp_ret, HQ|]. wsteps. cbn [ni page_cache set_page_cache].
    destruct (zget_is_Some (cache_data (ni s) ++ oob) (writesize (lower (ni s)))) as [b Hb].
    { rewrite zlen_app, Hd, Hl, Ho. destruct Gs. lia. }
    apply (wp_some _ _ b); [done|]. by apply wp_ret, HQ.
Qed.

(** A loop over the pages of a block that keeps [paged]. *)
Lemma wp_for_pages {A} (body : Z → A → M (nmbm D) (bool * A)) (P : A → Prop) a me s Q :
  paged s0 s → P a →
  (∀ off a s (Q' : bool * A → nmbm D → Prop), paged s0 s → P a →
     (∀ r s', paged s0 s' → P r.2 → Q' r s') → wp F (body off a) me s Q') →
  (∀ a s', paged s0 s' → P a → Q a s') →
  wp F (for_pages body a) me s Q.
Proof.
  intros Hp HP Hb HQ. unfold for_pages. wsteps.
  apply (wp_for_brk_to _ (λ _ a s, paged s0 s ∧ P a)); [done| |].
  - intros i a' s' _ [Hp' HP']. apply Hb; [done..|]. intros [brk a''] s'' Hp'' HP''.
    destruct brk; [wsteps; by apply HQ|done].
  - intros a' s' [Hp' HP']. wsteps. by apply HQ.
Qed.

Lemma wp_mark_phys_bad_block ba me s (Q : Z → nmbm D → Prop) :
  paged s0 s → (∀ r s', paged s0 s' → Q r s') → wp F (nmbm_mark_phys_bad_block ba) me s Q.
Proof.
  intros Hp HQ. unfold nmbm_mark_phys_bad_block. wsteps.
  destruct (read_only _); [by apply wp_ret, HQ|]. wsteps. destruct (mark_bad_block _) as [f|].
  - apply wp_lower_call. intros r d _. apply HQ. eapply paged_trans; [exact Hp|apply paged_dev].
  - assert (Gs : geom_ok (ni s)) by (by eapply paged_geom). wsteps.
    destruct (mem_fill_ok (page_cache (ni s)) 0 (rawpage_size (ni s)) 0) as (pc & Hpc & Hl);
      [destruct Gs; lia..|].
    apply (wp_some _ _ pc); [done|]. wsteps. unfold nmbm_set_log_level. wsteps. cbn [ni dev].
    set (s1 := Nmbm _ _).
    apply (wp_mono _ _ _ _ (λ _ s', ∃ d, s' = Nmbm (ni s1) d)).
    + unfold for_pages. wsteps. apply (wp_for_brk_to _ (λ _ _ s', ∃ d, s' = Nmbm (ni s1) d)).
      * by exists (dev s1).
      * intros i [] s' _ [d ->]. wsteps. apply wp_write_phys_page.
        { cbn. by apply paged_lower_ok. }
        intros b d'. cbn [ni]. wsteps. eauto.
      * intros [] s' [d ->]. wsteps. eauto.
    + intros _ s' [d ->]. wsteps. apply HQ. eapply paged_trans; [exact Hp|].
      exists pc. split; [by destruct s as [[] ]|done].
Qed.

Lemma wp_erase_block_and_check ba me s (Q : bool → nmbm D → Prop) :
  paged s0 s → (∀ b s', paged s0 s' → Q b s') → wp F (nmbm_erase_block_and_check ba) me s Q.
Proof.
  intros Hp HQ. unfold nmbm_erase_block_and_check. wsteps.
  apply wp_erase_phys_block; [by apply paged_lower_ok|]. intros b d.
  assert (Hp' : paged s0 (Nmbm (ni s) d)) by (eapply paged_trans; [exact Hp|apply paged_dev]).
  destruct b; simpl; [|by apply wp_ret, HQ]. wsteps.
  destruct (negb _); [by apply wp_ret, HQ|].
  apply (wp_for_pages _ (λ _, True)); [done..| |auto].
  intros off a s' Q' Hps _ HQ'. wsteps. apply wp_read_to_cache; [done|]. intros rc s'' Hps'.
  wsteps. by apply HQ'.
Qed.

Lemma wp_write_repeated_data ba data size me s (Q : bool → nmbm D → Prop) :
  paged s0 s → 0 ≤ size ≤ zlen data → (∀ b s', paged s0 s' → Q b s') →
  wp F (nmbm_write_repeated_data ba data size) me s Q.
Proof.
  intros Hp Hsz HQ. unfold nmbm_write_repeated_data. wsteps.
  destruct (Z.ltb_spec (writesize (lower (ni s))) size) as [|Hw]; [by apply wp_ret, HQ|].
  destruct (paged_state _ _ Hp) as (_ & _ & _ & Hlow & _). rewrite Hlow in Hw. wsteps.
  apply (wp_for_pages _ (λ _, True)); [done..| |auto].
  intros off a s1 Q' Hp1 _ HQ'. wsteps.
  assert (G1 : geom_ok (ni s1)) by (by eapply paged_geom).
  destruct (paged_state _ _ Hp1) as (_ & _ & _ & Hlow1 & Hraw1 & _).
  assert (Hcap : size ≤ zlen (page_cache (ni s1)) ∧ zlen (page_cache (ni s1)) = rawpage_size (ni s1)).
  { rewrite <- Hlow1 in Hw. destruct G1. lia. }
  destruct (mem_copy_ok (page_cache (ni s1)) 0 data size) as (pc & Hpc & Hl); [lia..|].
  apply (wp_some _ _ pc); [done|]. wsteps.
  destruct (mem_fill_ok pc size (rawpage_size (ni s1) - size) 0xff) as (pc' & Hpc' & Hl'); [lia..|].
  apply (wp_some _ _ pc'); [done|]. wsteps. cbn [ni dev].
  assert (Hp2 : ∀ d, paged s0 (Nmbm (set_page_cache pc' (ni s1)) d)).
  { intros d. apply paged_set_cache; [done|congruence]. }
  apply wp_write_phys_page; [by apply (paged_lower_ok (Nmbm _ (dev s1)))|]. intros b d. cbn [ni].
  destruct b; simpl; [|by apply wp_ret, HQ']. wsteps. apply wp_read_to_cache; [apply Hp2|].
  intros rc s2 Hps2. destruct (rc <? 0); [by apply wp_ret, HQ'|]. wsteps.
  assert (G2 : geom_ok (ni s2)) by (by eapply paged_geom).
  destruct (paged_state _ _ Hps2) as (_ & _ & _ & _ & Hraw2 & _).
  apply (wp_some _ _ _ _ _ _ (mem_read_ok (page_cache (ni s2)) 0 size ltac:(lia) ltac:(lia) ltac:(destruct G2; lia))).
  by apply wp_ret, HQ'.
Qed.

Lemma page_chunk_bounds s off rem :
  geom_ok (ni s) → 0 < rem →
  let '(leading, chunk) := page_chunk (ni s) off rem in
  0 ≤ leading ∧ 0 < chunk ≤ rem ∧ leading + chunk ≤ writesize (lower (ni s)) ∧
  (chunk = writesize (lower (ni s)) → leading = 0).
Proof.
  intros [] Hrem. unfold page_chunk. rewrite g_mask. destruct g_page as [Hw (k & Hk & He)].
  rewrite He. rewrite He in Hw. replace (2 ^ k - 1) with (Z.ones k) by (rewrite Z.ones_equiv; lia).
  rewrite Z.land_ones by lia. pose proof (Z.mod_pos_bound off (2 ^ k)).
  unfold u32. rewrite (Z.mod_small (2 ^ k - off `mod` 2 ^ k)) by lia. case (Z.ltb_spec rem (2 ^ k - off `mod` 2 ^ k)); lia.
Qed.

Lemma wp_nmbn_read_data addr data size me s Q :
  paged s0 s → zlen data = size →
  (∀ rc data' s', paged s0 s' → zlen data' = size → Q (rc, data') s') →
  wp F (nmbn_read_data addr data size) me s Q.
Proof.
  intros Hp Hl HQ. unfold nmbn_read_data. wsteps. pose proof (zlen_nonneg data).
  apply (wp_while_brk _
    (λ '(rc, pos, data') s, paged s0 s ∧ 0 ≤ pos ≤ size ∧ zlen data' = size) _
    (λ '(_, pos, _) _, size - pos)); [split_and!; done || lia|lia|].
  intros [[rc pos] data'] s1 (Hp1 & Hpos & Hl1). split; [lia|].
  destruct (Z.eqb_spec (size - pos) 0); [wsteps; by apply HQ|].
  assert (G1 : geom_ok (ni s1)) by (by eapply paged_geom). wsteps.
  pose proof (page_chunk_bounds s1 (addr + pos) (size - pos) G1 ltac:(lia)) as Hc.
  destruct (page_chunk _ _ _) as [leading chunk]. destruct Hc as (Hlead & Hch & Hsum & Hfull). wsteps.
  destruct (Z.eqb_spec chunk (writesize (lower (ni s1)))) as [Hcw|].
  - wsteps. apply (wp_some _ _ _ _ _ _ (mem_read_ok data' pos (writesize (lower (ni s1)))
        ltac:(lia) ltac:(lia) ltac:(lia))). wsteps.
    apply wp_read_phys_page; [by apply paged_lower_ok|].
    intros rc' page' oob' d _ (page & -> & Hlp)%fmap_length_Some _. cbv beta iota. wsteps.
    apply (wp_some _ _ page); [done|]. wsteps.
    rewrite zlen_zslice in Hlp by lia.
    destruct (mem_copy_ok data' pos page (writesize (lower (ni s1)))) as (data'' & Hd & Hl''); [lia..|].
    apply (wp_some _ _ data''); [done|]. wsteps.
    assert (paged s0 (Nmbm (ni s1) d)) by (eapply paged_trans; [exact Hp1|apply paged_dev]).
    destruct (rc' <? 0); [wsteps; apply HQ; [done|lia]|split_and!; done || lia].
  - wsteps. apply wp_read_to_cache; [done|]. intros rc' s2 Hp2.
    destruct (rc' <? 0); [wsteps; by apply HQ|]. wsteps.
    assert (G2 : geom_ok (ni s2)) by (by eapply paged_geom).
    destruct (paged_state _ _ Hp1) as (_ & _ & _ & Hlow1 & _).
    destruct (paged_state _ _ Hp2) as (_ & _ & _ & Hlow2 & _).
    assert (Hin : leading + chunk ≤ zlen (page_cache (ni s2))).
    { rewrite Hlow1 in Hsum. destruct G2. rewrite g_cache, g_raw, Hlow2. destruct G. lia. }
    apply (wp_some _ _ _ _ _ _ (mem_read_ok (page_cache (ni s2)) leading chunk ltac:(lia) ltac:(lia) Hin)). wsteps.
    destruct (mem_copy_ok data' pos (zslice (page_cache (ni s2)) leading chunk) chunk)
      as (data'' & Hd & Hl''); [lia|rewrite zlen_zslice by lia; lia|lia|].
    apply (wp_some _ _ data''); [done|]. wsteps. split_and!; done || lia.
Qed.

Lemma wp_write_verify_data addr data size me s (Q : bool → nmbm D → Prop) :
  paged s0 s → zlen data = size → (∀ b s', paged s0 s' → Q b s') →
  wp F (nmbn_write_verify_data addr data size) me s Q.
Proof.
  intros Hp Hl HQ. unfold nmbn_write_verify_data. wsteps. pose proof (zlen_nonneg data).
  apply (wp_while_brk _ (λ '(_, pos) s, paged s0 s ∧ 0 ≤ pos ≤ size) _
    (λ '(_, pos) _, size - pos)); [split_and!; done || lia|lia|].
  intros [r pos] s1 (Hp1 & Hpos). split; [lia|].
  destruct (Z.eqb_spec (size - pos) 0); [wsteps; by apply HQ|].
  assert (G1 : geom_ok (ni s1)) by (by eapply paged_geom). wsteps.
  pose proof (page_chunk_bounds s1 (addr + pos) (size - pos) G1 ltac:(lia)) as Hc.
  destruct (page_chunk _ _ _) as [leading chunk]. destruct Hc as (Hlead & Hch & Hsum & _). wsteps.
  destruct (mem_fill_ok (page_cache (ni s1)) 0 (rawpage_size (ni s1)) 0xff) as (pc & Hpc & Hl1);
    [destruct G1; lia..|].
  apply (wp_some _ _ pc); [done|]. wsteps.
  apply (wp_some _ _ _ _ _ _ (mem_read_ok data pos chunk ltac:(lia) ltac:(lia) ltac:(lia))). wsteps.
  assert (Hraw : leading + chunk ≤ zlen (page_cache (ni s1))) by (destruct G1; lia).
  destruct (mem_copy_ok pc leading (zslice data pos chunk) chunk) as (pc' & Hpc' & Hl1');
    [lia|rewrite zlen_zslice by lia; lia|lia|].
  apply (wp_some _ _ pc'); [done|]. wsteps. cbn [ni dev].
  assert (Hp2 : ∀ d, paged s0 (Nmbm (set_page_cache pc' (ni s1)) d)).
  { intros d. apply paged_set_cache; [done|congruence]. }
  apply wp_write_phys_page; [by apply (paged_lower_ok (Nmbm _ (dev s1)))|]. intros b d. cbn [ni].
  destruct b; simpl; [|wsteps; by apply HQ]. wsteps. apply wp_read_to_cache; [apply Hp2|].
  intros rc s2 Hps2. destruct (rc <? 0); [wsteps; by apply HQ|]. wsteps.
  assert (G2 : geom_ok (ni s2)) by (by eapply paged_geom).
  destruct (paged_state _ _ Hps2) as (_ & _ & _ & Hlow2 & Hr2 & _).
  destruct (paged_state _ _ Hp1) as (_ & _ & _ & Hlow1 & Hr1 & _).
  apply (wp_some _ _ _ _ _ _ (mem_read_ok (page_cache (ni s2)) leading chunk ltac:(lia) ltac:(lia)
    ltac:(destruct G1, G2; lia))). wsteps.
  destruct (bool_decide _); wsteps; [split_and!; done || lia|by apply HQ].
Qed.
End Pages.
