(* ===== verification/NmbmImage.v ===== *)
(** * NMBM: the stored image of the info table

    nmbm_generate_info_table_cache() builds an image that the loading code
    accepts and that holds the block states and the mapping. *)

From stdpp Require Import base list numbers list_numbers.
From Stdlib Require Import ZArith Lia.
From S2P Require Import Prelude Bytes Crc32 NmbmTypes NmbmCore NmbmTables NmbmIo.
From S2P Require Import NmbmLayout NmbmWf NmbmSafe.
Open Scope Z_scope.

(** ** Buffers of bytes *)

Lemma mem_fill_bytes buf off n v buf' :
  mem_fill buf off n v = Some buf' → Forall is_byte buf → is_byte v → Forall is_byte buf'.
Proof.
  unfold mem_fill. case_decide; [|done]. intros [= <-] Hb Hv.
  repeat apply Forall_app_2; [by apply Forall_take|by apply Forall_replicate|by apply Forall_drop].
Qed.

Lemma mem_copy_bytes dst off src n dst' :
  mem_copy dst off src n = Some dst' → Forall is_byte dst → Forall is_byte src → Forall is_byte dst'.
Proof.
  unfold mem_copy. case_decide; [|done]. intros [= <-] Hd Hs.
  repeat apply Forall_app_2; [by apply Forall_take|by apply Forall_take|by apply Forall_drop].
Qed.

Lemma mem_fill_all buf v : mem_fill buf 0 (zlen buf) v = Some (replicate (length buf) v).
Proof.
  unfold mem_fill. pose proof (zlen_nonneg buf). rewrite decide_True by lia.
  rewrite take_0, Z.add_0_l. unfold zlen. rewrite Nat2Z.id, drop_all. by rewrite app_nil_r.
Qed.

Lemma le_bytes_u32 x : le_bytes 4 (u32 x) = le_bytes 4 x.
Proof.
  pose proof (le_bytes_val (le_bytes 4 x) (le_bytes_is_byte 4 x)) as H.
  rewrite length_le_bytes, le_val_bytes in H. exact H.
Qed.

Lemma header_bytes_u32 h : header_bytes (u32_header h) = header_bytes h.
Proof. unfold header_bytes, u32_header. cbn [magic version hdr_size checksum]. by rewrite !le_bytes_u32. Qed.

Lemma u32_idem x : u32 (u32 x) = u32 x.
Proof. unfold u32. by rewrite Z.mod_mod by lia. Qed.

Lemma u32_header_ok h : header_ok (u32_header h).
Proof. unfold header_ok, u32_header. cbn [magic version hdr_size checksum]. by rewrite !u32_idem. Qed.

Lemma header_bytes_is_byte h : Forall is_byte (header_bytes h).
Proof. unfold header_bytes. repeat apply Forall_app_2; apply le_bytes_is_byte. Qed.

Lemma info_table_header_bytes_is_byte h : Forall is_byte (info_table_header_bytes h).
Proof.
  unfold info_table_header_bytes.
  repeat apply Forall_app_2; apply le_bytes_is_byte || apply header_bytes_is_byte.
Qed.

Lemma zlen_info_table_header_bytes h : zlen (info_table_header_bytes h) = sizeof_nmbm_info_table_header.
Proof. unfold info_table_header_bytes. by rewrite !zlen_app, zlen_header_bytes, !zlen_le_bytes. Qed.

(** What a stored table header reads back as. *)
Definition u32_info_table_header (h : nmbm_info_table_header) : nmbm_info_table_header :=
  NmbmInfoTableHeader (u32_header (ift_header h)) (u32 (write_count h)) (u32 (state_table_off h))
    (u32 (mapping_table_off h)) (u32 (ift_padding h)).

Lemma info_table_header_at_bytes h r :
  info_table_header_at (info_table_header_bytes h ++ r) = Some (u32_info_table_header h).
Proof.
  unfold info_table_header_at, info_table_header_bytes. rewrite <- !app_assoc, header_at_bytes.
  cbn [mbind option_bind]. rewrite !(rd32_app_r (header_bytes (ift_header h))) by (rewrite zlen_header_bytes; unfold sizeof_nmbm_header; lia).
  rewrite zlen_header_bytes. unfold sizeof_nmbm_header.
  change (16 - 16) with 0. rewrite rd32_here. cbn [mbind option_bind].
  rewrite !rd32_skip by lia. rewrite rd32_here. cbn [mbind option_bind].
  rewrite !rd32_skip by lia. rewrite rd32_here. cbn [mbind option_bind].
  rewrite !rd32_skip by lia. by rewrite rd32_here.
Qed.

(** Storing the checksum in a table that starts with the header [h]. *)
Lemma store_image_header h r :
  sizeof_nmbm_info_table_header ≤ hdr_size (ift_header h) < 2 ^ 32 ∧
    hdr_size (ift_header h) = sizeof_nmbm_info_table_header + zlen r → Forall is_byte r →
  ∃ c, let h' := with_ift_header (with_checksum c (u32_header (ift_header h))) h in
    nmbm_update_checksum (info_table_header_bytes h ++ r) = Some (info_table_header_bytes h' ++ r) ∧
    ∀ size, hdr_size (ift_header h) ≤ size →
      nmbm_check_header (info_table_header_bytes h' ++ r) size = Some true.
Proof.
  unfold sizeof_nmbm_info_table_header. intros [Hs Hr] Hb. set (x := u32_header (ift_header h)).
  set (rest := (le_bytes 4 (write_count h) ++ le_bytes 4 (state_table_off h) ++
    le_bytes 4 (mapping_table_off h) ++ le_bytes 4 (ift_padding h)) ++ r).
  assert (Hrest : zlen rest = 16 + zlen r) by (unfold rest; by rewrite !zlen_app, !zlen_le_bytes).
  assert (Hx : hdr_size x = hdr_size (ift_header h)).
  { unfold x, u32_header. cbn [hdr_size]. unfold u32. apply Z.mod_small. lia. }
  assert (He : info_table_header_bytes h ++ r = header_bytes x ++ rest).
  { unfold info_table_header_bytes, rest, x. rewrite header_bytes_u32. by rewrite <- !app_assoc. }
  assert (Hlen : zlen (header_bytes x ++ rest) = hdr_size x).
  { rewrite zlen_app, zlen_header_bytes, Hrest, Hx. unfold sizeof_nmbm_header. lia. }
  destruct (update_checksum_spec x rest (u32_header_ok _) ltac:(lia)) as (c & Hu & _).
  assert (He' : header_bytes (with_checksum c x) ++ rest =
                info_table_header_bytes (with_ift_header (with_checksum c x) h) ++ r).
  { unfold info_table_header_bytes, rest. by rewrite <- !app_assoc. }
  exists c. cbv zeta. rewrite He, <- He'. split; [done|]. intros size Hsz.
  destruct (update_then_check (header_bytes x ++ rest) x size) as (b' & Hu' & Hc).
  - apply Forall_app_2; [apply header_bytes_is_byte|]. unfold rest.
    repeat apply Forall_app_2; done || apply le_bytes_is_byte.
  - rewrite header_at_bytes. f_equal. apply u32_header_ok.
  - unfold sizeof_nmbm_header. lia.
  - lia.
  - rewrite Hu in Hu'. by injection Hu' as <-.
Qed.

(** ** The image *)

Section Image.
Context {D : Type}.
Implicit Types s : nmbm D.

(** [cache] is an image of the tables of [n] with the header [hdr]. *)
Record image_of (n : nmbm_instance D) (cache : list Z) (hdr : nmbm_info_table_header) : Prop := {
  im_len : zlen cache = info_table_size n;
  im_header : info_table_header_at cache = Some hdr;
  im_magic : magic (ift_header hdr) = NMBM_MAGIC_INFO_TABLE;
  im_size : hdr_size (ift_header hdr) = info_table_size n;
  im_soff : state_table_off hdr = state_table_off (info_table n);
  im_moff : mapping_table_off hdr = mapping_table_off (info_table n);
  im_check : nmbm_check_header cache (info_table_size n) = Some true;
  im_state : mem_read cache (state_table_off hdr) (state_table_size n) = Some (bytes_of_words (block_state n));
  im_mapping : mem_read cache (mapping_table_off hdr) (mapping_table_size n) =
    Some (bytes_of_words (block_mapping n));
}.

(** The tables copied into a buffer and the header put before them. *)
Lemma image_written n ift c0 c1 old r :
  geom_ok n → zlen c0 = info_table_size n → Forall is_byte c0 →
  mem_copy c0 (state_table_off (info_table n)) (bytes_of_words (block_state n)) (state_table_size n) = Some c1 →
  mem_copy c1 (mapping_table_off (info_table n)) (bytes_of_words (block_mapping n)) (mapping_table_size n)
    = Some (old ++ r) →
  zlen (old ++ r) = info_table_size n → zlen old = 32 →
  state_table_off ift = state_table_off (info_table n) → mapping_table_off ift = mapping_table_off (info_table n) →
  ift_header ift = NmbmHeader NMBM_MAGIC_INFO_TABLE NMBM_VER (info_table_size n) (checksum (ift_header (info_table n))) →
  ∃ c, let ift' := with_ift_header (with_checksum c (u32_header (ift_header ift))) ift in
    nmbm_update_checksum (info_table_header_bytes ift ++ r) = Some (info_table_header_bytes ift' ++ r) ∧
    image_of n (info_table_header_bytes ift' ++ r) (u32_info_table_header ift').
Proof.
  intros G Hl0 B0 Hc1 Hc2 Hl2 Ho Hi1 Hi2 Hi3.
  pose proof (g_state_size _ G). pose proof (g_mapping_size _ G). pose proof (g_table_size _ G).
  pose proof (g_state_off _ G). pose proof (g_mapping_off _ G). rewrite zlen_app in Hl2.
  pose proof (zlen_bytes_of_words (block_state n)). pose proof (zlen_bytes_of_words (block_mapping n)).
  pose proof (zlen_nonneg (block_state n)). pose proof (zlen_nonneg (block_mapping n)).
  destruct (store_image_header ift r) as (c & Hu & Hchk).
  { rewrite Hi3. cbn [hdr_size]. unfold sizeof_nmbm_info_table_header. lia. }
  { assert (Hb : Forall is_byte (old ++ r)).
    { eapply mem_copy_bytes; [exact Hc2| |apply bytes_of_words_is_byte].
      eapply mem_copy_bytes; [exact Hc1|done|apply bytes_of_words_is_byte]. }
    by apply Forall_app in Hb as [_ ?]. }
  exists c. cbv zeta. split; [exact Hu|]. set (ift' := with_ift_header _ ift) in *.
  assert (Hread : ∀ off k, 32 ≤ off → mem_read (info_table_header_bytes ift' ++ r) off k = mem_read (old ++ r) off k).
  { intros off k Hoff. rewrite !mem_read_app_r by (rewrite ?zlen_info_table_header_bytes; unfold sizeof_nmbm_info_table_header; lia).
    by rewrite Ho, zlen_info_table_header_bytes. }
  constructor.
  - rewrite zlen_app, zlen_info_table_header_bytes. unfold sizeof_nmbm_info_table_header. lia.
  - apply info_table_header_at_bytes.
  - unfold ift'. cbn. by rewrite Hi3.
  - unfold ift'. cbn [ift_header u32_info_table_header with_ift_header u32_header hdr_size with_checksum].
    rewrite Hi3. cbn [hdr_size]. rewrite u32_idem. apply u32_small. lia.
  - cbn. rewrite Hi1. apply u32_small. lia.
  - cbn. rewrite Hi2. apply u32_small. lia.
  - rewrite Hi3 in Hchk. apply Hchk. cbn [hdr_size]. lia.
  - cbn [state_table_off u32_info_table_header ift' with_ift_header]. rewrite Hi1, u32_small, Hread by lia.
    rewrite (mem_copy_read_other _ _ _ _ _ _ _ Hc2) by lia. rewrite (mem_copy_read _ _ _ _ _ Hc1).
    f_equal. apply take_ge. unfold zlen in *. lia.
  - cbn [mapping_table_off u32_info_table_header ift' with_ift_header]. rewrite Hi2, u32_small, Hread by lia.
    rewrite (mem_copy_read _ _ _ _ _ Hc2). f_equal. apply take_ge. unfold zlen in *. lia.
Qed.

Lemma wp_generate me s (Q : bool → nmbm D → Prop) :
  geom_ok (ni s) →
  (∀ cache ift hdr,
     state_table_off ift = state_table_off (info_table (ni s)) →
     mapping_table_off ift = mapping_table_off (info_table (ni s)) →
     write_count hdr = u32 (write_count ift) →
     image_of (ni s) cache hdr →
     Q (tables_changed (ni s)) (Nmbm (set_info_table ift (set_info_table_cache cache (ni s))) (dev s))) →
  wp (λ _, False) nmbm_generate_info_table_cache me s Q.
Proof.
  destruct s as [n d]. cbn [ni dev]. intros G HQ.
  pose proof (g_state_size _ G). pose proof (g_mapping_size _ G). pose proof (g_table _ G) as Hlen.
  pose proof (g_table_size _ G). pose proof (g_state_off _ G). pose proof (g_mapping_off _ G).
  pose proof (zlen_bytes_of_words (block_state n)). pose proof (zlen_bytes_of_words (block_mapping n)).
  pose proof (zlen_nonneg (block_state n)). pose proof (zlen_nonneg (block_mapping n)).
  unfold nmbm_generate_info_table_cache. wsteps. cbn [ni]. unfold id.
  apply (wp_some _ _ (replicate (length (info_table_cache n)) 255)).
  { rewrite <- mem_fill_all. by rewrite Hlen. }
  set (c0 := replicate (length (info_table_cache n)) 255).
  assert (Hc0 : zlen c0 = info_table_size n).
  { unfold c0. rewrite <- Hlen. unfold zlen. by rewrite length_replicate. }
  assert (B0 : Forall is_byte c0) by (by apply Forall_replicate). clearbody c0. wsteps.
  destruct (mem_copy_ok c0 (state_table_off (info_table n)) (bytes_of_words (block_state n)) (state_table_size n))
    as (c1 & Hc1 & Hl1); [lia..|].
  apply (wp_some _ _ c1); [done|]. wsteps.
  destruct (mem_copy_ok c1 (mapping_table_off (info_table n)) (bytes_of_words (block_mapping n)) (mapping_table_size n))
    as (c2 & Hc2 & Hl2); [lia..|].
  apply (wp_some _ _ c2); [done|]. fold (tables_changed n).
  set (ift := if tables_changed n then _ else _).
  assert (Hift : state_table_off ift = state_table_off (info_table n) ∧
                 mapping_table_off ift = mapping_table_off (info_table n) ∧
                 ift_header ift = NmbmHeader NMBM_MAGIC_INFO_TABLE NMBM_VER (info_table_size n)
                                    (checksum (ift_header (info_table n)))).
  { unfold ift. by destruct (tables_changed n). }
  clearbody ift. destruct Hift as (Hi1 & Hi2 & Hi3). wsteps.
  destruct (mem_split c2 32) as (old & r & -> & Ho & Hr); [lia|].
  apply (wp_some _ _ (info_table_header_bytes ift ++ r)).
  { by apply mem_copy_0; [|apply zlen_info_table_header_bytes]. }
  wsteps. destruct (image_written n ift c0 c1 old r) as (c & Hu & Him); [done || lia..|].
  eapply wp_some; [exact Hu|]. wsteps. cbn [ni dev]. eapply (HQ _ ift _ Hi1 Hi2); [|exact Him]. done.
Qed.
End Image.

(** ** Reading the image back *)

Lemma mem_read_sub b off n d o k :
  mem_read b off n = Some d → 0 ≤ o → 0 ≤ k → o + k ≤ n → mem_read b (off + o) k = mem_read d o k.
Proof.
  unfold mem_read at 1. case_decide as Hd; [|done]. intros [= <-] Ho Hk Hok.
  rewrite !mem_read_ok by (try rewrite zlen_zslice; lia). f_equal. unfold zslice.
  rewrite skipn_firstn_comm, take_take, drop_drop. f_equal; [lia|]. f_equal. lia.
Qed.

Lemma rd32_word l i : 0 ≤ i → rd32 (bytes_of_words l) (4 * i) = u32 <$> zget l i.
Proof.
  revert i. induction l as [|w l IH]; intros i Hi.
  - unfold rd32, mem_read. rewrite decide_False by (unfold zlen; cbn [length bytes_of_words]; lia). unfold zget. by rewrite decide_True by lia.
  - cbn [bytes_of_words]. destruct (decide (i = 0)) as [->|].
    + by rewrite rd32_here.
    + rewrite rd32_skip by lia. replace (4 * i - 4) with (4 * (i - 1)) by lia. rewrite IH by lia.
      unfold zget. rewrite !decide_True by lia. by replace (Z.to_nat i) with (S (Z.to_nat (i - 1))) by lia.
Qed.

Lemma rd32_table b off n l i :
  mem_read b off n = Some (bytes_of_words l) → n = 4 * zlen l → 0 ≤ i < zlen l →
  rd32 b (off + 4 * i) = u32 <$> zget l i.
Proof.
  intros Hb Hn Hi. rewrite <- rd32_word by lia. unfold rd32. f_equal.
  eapply mem_read_sub; [exact Hb|lia..].
Qed.

Lemma s32_u32 x : - 2 ^ 31 ≤ x < 2 ^ 31 → s32 (u32 x) = x.
Proof.
  intros Hx. unfold s32, u32. rewrite Zplus_mod_idemp_l. rewrite Z.mod_small; lia.
Qed.
