(* ===== verification/NmbmWalk.v ===== *)
(** * NMBM: walking over the good blocks

    nmbm_block_walk_asc() and nmbm_block_walk_desc() against their
    specification: the element [count] of the list of good blocks between the
    start and the limit. *)

From stdpp Require Import base list numbers list_numbers.
From Stdlib Require Import ZArith Lia.
From S2P Require Import Prelude Bytes Crc32 NmbmTypes NmbmCore NmbmTables.
From S2P Require Import NmbmWf NmbmSafe.
Open Scope Z_scope.

(** The good blocks from [lo] up to, but not including, [hi]. *)
Definition good_blocks (bs : list Z) (lo hi : Z) : list Z :=
  filter (λ b, is_good bs b = true) (seqZ lo (hi - lo)).

Lemma good_blocks_nil bs lo hi : hi ≤ lo → good_blocks bs lo hi = [].
Proof. intros. unfold good_blocks. by rewrite seqZ_nil by lia. Qed.

Lemma good_blocks_split bs lo mid hi :
  lo ≤ mid ≤ hi → good_blocks bs lo hi = good_blocks bs lo mid ++ good_blocks bs mid hi.
Proof.
  intros. unfold good_blocks. rewrite <- filter_app. f_equal.
  replace (hi - lo) with (mid - lo + (hi - mid)) by lia. rewrite seqZ_app by lia.
  by replace (lo + (mid - lo)) with mid by lia.
Qed.

Lemma good_blocks_one bs b :
  good_blocks bs b (b + 1) = if is_good bs b then [b] else [].
Proof.
  unfold good_blocks. replace (b + 1 - b) with 1 by lia.
  rewrite seqZ_cons, seqZ_nil by lia. unfold filter. simpl.
  case_decide as Hd; destruct (is_good bs b); done.
Qed.

Lemma elem_of_good_blocks bs lo hi b :
  b ∈ good_blocks bs lo hi ↔ lo ≤ b < hi ∧ is_good bs b = true.
Proof.
  unfold good_blocks. rewrite list_elem_of_filter, elem_of_seqZ.
  split; intros []; split; done || lia.
Qed.

Section Walk.
Context {D : Type}.
Abbreviation F := (λ _ : nmbm D, False).
Implicit Types s : nmbm D.

Lemma state_known s ba :
  geom_ok (ni s) → 0 ≤ ba < block_count (ni s) →
  ∃ u st, zget (block_state (ni s)) (state_unit ba) = Some u ∧
    nmbm_get_block_state_raw (block_state (ni s)) ba = Some st ∧ 0 ≤ st ≤ 3.
Proof.
  intros G Hba. destruct (state_shift_range ba) as (k & _ & Hk & He); [lia|].
  destruct (zget_is_Some (block_state (ni s)) (state_unit ba)) as [u Hu].
  { pose proof (state_unit_nonneg ba). destruct G. lia. }
  assert (Hst : ∃ st, nmbm_get_block_state_raw (block_state (ni s)) ba = Some st).
  { unfold nmbm_get_block_state_raw. rewrite Hu. by eexists. }
  destruct Hst as [st Hst]. exists u, st.
  split; [done|]. split; [done|]. by apply state_raw_range in Hst.
Qed.

Lemma wp_get_block_state ba me s (Q : Z → nmbm D → Prop) :
  geom_ok (ni s) → 0 ≤ ba < block_count (ni s) →
  (∀ st, nmbm_get_block_state_raw (block_state (ni s)) ba = Some st → 0 ≤ st ≤ 3 →
     is_good (block_state (ni s)) ba = (st =? BLOCK_ST_GOOD) → Q st s) →
  wp F (nmbm_get_block_state ba) me s Q.
Proof.
  intros G Hba HQ. unfold nmbm_get_block_state. wsteps.
  destruct (state_known s ba G Hba) as (u & st & _ & Hst & Hr). apply (wp_some _ _ st); [done|].
  apply HQ; [done..|]. unfold is_good. rewrite Hst.
  case (Z.eqb_spec st BLOCK_ST_GOOD); intros; case_bool_decide; congruence.
Qed.

Lemma walk_limit_range s limit :
  geom_ok (ni s) → 0 ≤ limit → 0 ≤ walk_limit (ni s) limit < block_count (ni s).
Proof.
  intros [] Hl. unfold walk_limit. case Z.leb_spec; [|lia]. unfold u32.
  rewrite Z.mod_small; lia.
Qed.

Lemma wp_walk_block ba nblock me s (Q : bool * Z → nmbm D → Prop) :
  geom_ok (ni s) → 0 ≤ ba < block_count (ni s) → 0 ≤ nblock →
  (let left := nblock - zlen (good_blocks (block_state (ni s)) ba (ba + 1)) in Q (left <? 0, left) s) →
  wp F (walk_block ba nblock) me s Q.
Proof.
  intros G Hba Hn HQ. unfold walk_block. wsteps. apply wp_get_block_state; [done..|].
  intros st _ _ Hg. wsteps. cbv zeta in HQ. rewrite good_blocks_one, Hg in HQ.
  destruct (st =? BLOCK_ST_GOOD); unfold zlen in HQ; simpl in HQ; [done|].
  by rewrite Z.sub_0_r in HQ.
Qed.

Lemma wp_walk_asc ba count limit me s (Q : option Z → nmbm D → Prop) :
  geom_ok (ni s) → 0 ≤ ba → 0 ≤ count < 2 ^ 31 → 0 ≤ limit →
  Q (good_blocks (block_state (ni s)) ba (walk_limit (ni s) limit) !! Z.to_nat count) s →
  wp F (nmbm_block_walk_asc ba count limit) me s Q.
Proof.
  intros G Hba Hc Hl HQ. unfold nmbm_block_walk_asc. wsteps.
  pose proof (walk_limit_range s limit G Hl) as Hw. set (lim := walk_limit _ _) in *. clearbody lim.
  rewrite s32_small by lia. set (bs := block_state (ni s)) in *.
  apply (wp_for_brk_to _ (λ i '(nblock, r) s', s' = s ∧ r = None ∧
     nblock = count - zlen (good_blocks bs ba i) ∧ 0 ≤ nblock)).
  - rewrite good_blocks_nil by lia. unfold zlen. simpl. split_and!; done || lia.
  - intros i [nblock r] s' Hi (-> & -> & -> & Hn). wsteps. apply wp_walk_block; [done|lia|done|].
    cbv zeta. fold bs.
    pose proof (good_blocks_split bs ba i (i + 1) ltac:(lia)) as Hsp.
    assert (He : zlen (good_blocks bs ba (i + 1)) =
                 zlen (good_blocks bs ba i) + zlen (good_blocks bs i (i + 1))) by (by rewrite Hsp, zlen_app).
    case Z.ltb_spec; intros Hlt; wsteps.
    + rewrite (good_blocks_split bs ba i lim), (good_blocks_split bs i (i + 1) lim) in HQ by lia.
      rewrite good_blocks_one in Hlt, HQ. destruct (is_good bs i); unfold zlen in *; simpl in *; [|lia].
      rewrite lookup_app_r in HQ by lia.
      by replace (Z.to_nat count - length (good_blocks bs ba i))%nat with 0%nat in HQ by lia.
    + split_and!; done || lia.
  - intros [nblock r] s' (-> & -> & Hn & Hn'). wsteps.
    assert (Hnone : good_blocks bs ba lim !! Z.to_nat count = None).
    { apply lookup_ge_None_2. destruct (decide (ba < lim)).
      - replace (Z.max ba (lim - 1 + 1)) with lim in Hn by lia. unfold zlen in Hn. lia.
      - rewrite good_blocks_nil by lia. simpl. lia. }
    by rewrite Hnone in HQ.
Qed.

Lemma wp_walk_desc ba count limit me s (Q : option Z → nmbm D → Prop) :
  geom_ok (ni s) → ba < block_count (ni s) → 0 ≤ count < 2 ^ 31 → 0 ≤ limit →
  Q (reverse (good_blocks (block_state (ni s)) (walk_limit (ni s) limit + 1) (ba + 1)) !! Z.to_nat count) s →
  wp F (nmbm_block_walk_desc ba count limit) me s Q.
Proof.
  intros G Hba Hc Hl HQ. unfold nmbm_block_walk_desc. wsteps.
  pose proof (walk_limit_range s limit G Hl) as Hw. set (lim := walk_limit _ _) in *. clearbody lim.
  rewrite s32_small by lia. set (bs := block_state (ni s)) in *.
  apply (wp_for_brk_to _ (λ i '(nblock, r) s', s' = s ∧ r = None ∧
     nblock = count - zlen (good_blocks bs (ba - i + 1) (ba + 1)) ∧ 0 ≤ nblock)).
  - rewrite good_blocks_nil by lia. unfold zlen. simpl. split_and!; done || lia.
  - intros i [nblock r] s' Hi (-> & -> & -> & Hn). wsteps. apply wp_walk_block; [done|lia|done|].
    cbv zeta. fold bs.
    pose proof (good_blocks_split bs (ba - i) (ba - i + 1) (ba + 1) ltac:(lia)) as Hsp.
    assert (He : zlen (good_blocks bs (ba - i) (ba + 1)) =
                 zlen (good_blocks bs (ba - i) (ba - i + 1)) + zlen (good_blocks bs (ba - i + 1) (ba + 1)))
      by (by rewrite Hsp, zlen_app).
    case Z.ltb_spec; intros Hlt; wsteps.
    + rewrite (good_blocks_split bs (lim + 1) (ba - i) (ba + 1)), Hsp in HQ by lia.
      rewrite good_blocks_one in Hlt, HQ. destruct (is_good bs (ba - i)); unfold zlen in *; simpl in *; [|lia].
      rewrite reverse_app, reverse_cons, <- app_assoc, lookup_app_r in HQ by (rewrite length_reverse; lia).
      rewrite length_reverse in HQ.
      by replace (Z.to_nat count - length (good_blocks bs (ba - i + 1) (ba + 1)))%nat with 0%nat in HQ by lia.
    + replace (ba - (i + 1) + 1) with (ba - i) by lia. split_and!; done || lia.
  - intros [nblock r] s' (-> & -> & Hn & Hn'). wsteps.
    assert (Hnone : reverse (good_blocks bs (lim + 1) (ba + 1)) !! Z.to_nat count = None).
    { apply lookup_ge_None_2. rewrite length_reverse. destruct (decide (lim < ba)).
      - replace (ba - Z.max 0 (ba - lim - 1 + 1) + 1) with (lim + 1) in Hn by lia. unfold zlen in Hn. lia.
      - rewrite good_blocks_nil by lia. simpl. lia. }
    by rewrite Hnone in HQ.
Qed.
End Walk.
