(* ===== verification/NmbmBlocks.v ===== *)
(** * NMBM: the operations on blocks are safe

    Erasing and writing ranges of blocks: they return, stay within the chip
    and only take good blocks away ([low]). *)

From stdpp Require Import base list numbers list_numbers.
From Stdlib Require Import ZArith Lia.
From S2P Require Import Prelude Bytes Crc32 NmbmTypes NmbmCore NmbmTables.
From S2P Require Import NmbmWf NmbmSafe NmbmWalk.
Open Scope Z_scope.

Section Blocks.
Context {D : Type} (s0 : nmbm D) (G : geom_ok (ni s0)).
Abbreviation F := (λ _ : nmbm D, False).
Implicit Types s : nmbm D.

Lemma paged_good s s' ba : paged s s' →
  is_good (block_state (ni s')) ba = is_good (block_state (ni s)) ba.
Proof. by intros (-> & _)%paged_state. Qed.

(** Storing any state: only the state table and its counter change. *)
Lemma wp_set_block_state ba st me s (Q : bool → nmbm D → Prop) :
  geom_ok (ni s) → 0 ≤ ba < block_count (ni s) →
  (∀ b ch u, zget (block_state (ni s)) (state_unit ba) = Some u →
     Q b (Nmbm (set_block_state_changed ch (set_block_state (put_state (block_state (ni s)) ba st u) (ni s)))
            (dev s))) →
  wp F (nmbm_set_block_state ba st) me s Q.
Proof.
  intros Gs Hba HQ. unfold nmbm_set_block_state. wsteps.
  destruct (state_known s ba Gs Hba) as (u & st' & Hu & _). apply (wp_some _ _ u); [done|].
  wsteps. cbn [ni dev]. destruct (negb _); wsteps.
  - exact (HQ true _ u Hu).
  - exact (HQ false (block_state_changed (ni s)) u Hu).
Qed.

Lemma wp_set_bad ba me s (Q : bool → nmbm D → Prop) :
  low s0 s → 0 ≤ ba < block_count (ni s0) → is_good (block_state (ni s)) ba = true →
  (∀ b s', low s0 s' → Q b s') → wp F (nmbm_set_block_state ba BLOCK_ST_BAD) me s Q.
Proof.
  intros Hl Hba Hg HQ. destruct (low_same _ _ Hl) as (_ & Hc & _). rewrite <- Hc in Hba.
  apply wp_set_block_state; [by eapply low_geom|done|]. intros b ch u Hu. apply HQ.
  eapply low_trans; [exact Hl|]. by apply low_bad.
Qed.

Lemma wp_mark_bad ba me s (Q : unit → nmbm D → Prop) :
  low s0 s → 0 ≤ ba < block_count (ni s0) → is_good (block_state (ni s)) ba = true →
  (∀ s', low s0 s' → Q tt s') → wp F (mark_bad ba) me s Q.
Proof.
  intros Hl Hba Hg HQ. unfold mark_bad. wsteps.
  apply (wp_mark_phys_bad_block s); [by eapply low_geom|apply paged_refl|]. intros r s' Hp.
  wsteps. apply wp_set_bad; [by eapply low_paged|done|by rewrite (paged_good _ _ _ Hp)|].
  intros b s'' Hl'. wsteps. by apply HQ.
Qed.

Lemma wp_block_usable ba me s (Q : bool → nmbm D → Prop) :
  low s0 s → 0 ≤ ba < block_count (ni s0) →
  (∀ b s', low s0 s' → (b = true → is_good (block_state (ni s')) ba = true) → Q b s') →
  wp F (block_usable ba) me s Q.
Proof.
  intros Hl Hba HQ. unfold block_usable. wsteps.
  assert (Gs : geom_ok (ni s)) by (by eapply low_geom).
  destruct (low_same _ _ Hl) as (_ & Hc & _).
  apply wp_get_block_state; [done|lia|]. intros st _ _ Hg.
  destruct (st =? BLOCK_ST_GOOD); simpl; [|by apply wp_ret, HQ]. wsteps.
  apply (wp_check_bad_phys_block s); [done|apply paged_refl|]. intros bad s' Hp.
  assert (Hl' : low s0 s') by (by eapply low_paged). rewrite <- (paged_good _ _ ba Hp) in Hg.
  destruct bad; wsteps; [|by apply HQ]. apply wp_set_bad; [done..|]. intros b s'' Hl''. wsteps. by apply HQ.
Qed.

(** Erasing a good block: bad at worst. *)
Lemma wp_erase_check ba me s (Q : bool → nmbm D → Prop) :
  low s0 s → (∀ b s', low s0 s' → paged s s' → Q b s') → wp F (nmbm_erase_block_and_check ba) me s Q.
Proof.
  intros Hl HQ. apply (wp_erase_block_and_check s); [by eapply low_geom|apply paged_refl|].
  intros b s' Hp. apply HQ; [by eapply low_paged|done].
Qed.

Lemma wp_erase_range ba limit me s (Q : unit → nmbm D → Prop) :
  low s0 s → 0 ≤ ba → limit ≤ block_count (ni s0) →
  (∀ s', low s0 s' → Q tt s') → wp F (nmbm_erase_range ba limit) me s Q.
Proof.
  intros Hl Hba Hlim HQ. unfold nmbm_erase_range.
  apply (wp_for_to _ (λ _ _ s', low s0 s')); [done| |by intros []; apply HQ].
  intros i [] s1 Hi Hl1. wsteps. apply wp_block_usable; [done|lia|]. intros ok s2 Hl2 Hg2.
  destruct ok; simpl; [|by apply wp_ret]. wsteps. apply wp_erase_check; [done|].
  intros b s3 Hl3 Hp3. destruct b; [by apply wp_ret|].
  apply wp_mark_bad; [done|lia| |auto]. rewrite (paged_good _ _ _ Hp3). auto.
Qed.

Lemma wp_write_signature limit sig me s (Q : option Z → nmbm D → Prop) :
  low s0 s → 0 ≤ limit → zlen (sig_padding sig) = 7 →
  (∀ r s', low s0 s' → (∀ ba, r = Some ba → limit < ba < block_count (ni s0)) → Q r s') →
  wp F (nmbm_write_signature limit sig) me s Q.
Proof.
  intros Hl Hlim Hpad HQ. unfold nmbm_write_signature. wsteps.
  destruct (low_same _ _ Hl) as (_ & Hc & _).
  assert (Htop : u32 (block_count (ni s) - 1) = block_count (ni s0) - 1).
  { unfold u32. destruct G. rewrite Z.mod_small; lia. }
  rewrite Htop. apply (wp_for_brk_to _ (λ _ r s', low s0 s' ∧ r = None)); [done| |].
  2:{ intros r s' [Hl' ->]. wsteps. by apply HQ. }
  intros i r s1 Hi [Hl1 ->]. wsteps. apply wp_block_usable; [done|lia|]. intros ok s2 Hl2 Hg2.
  destruct ok; simpl; [|by apply wp_ret]. wsteps. apply wp_erase_check; [done|].
  intros b s3 Hl3 Hp3. wsteps.
  assert (Hw : wp F (if b then nmbm_write_repeated_data (block_count (ni s0) - 1 - i) (signature_bytes sig)
                            sizeof_nmbm_signature else ret false) me s3 (λ _ s4, paged s3 s4)).
  { destruct b; [|apply wp_ret, paged_refl].
    apply (wp_write_repeated_data s3); [by eapply low_geom|apply paged_refl| |auto].
    unfold signature_bytes, header_bytes, sizeof_nmbm_signature.
    rewrite !zlen_app, !zlen_le_bytes, Hpad. lia. }
  eapply wp_mono; [exact Hw|]. intros ok s4 Hp4. cbv beta.
  assert (Hl4 : low s0 s4) by (by eapply low_paged).
  destruct ok; [wsteps; apply HQ; [done|]; intros ba [= <-]; lia|]. wsteps.
  apply wp_mark_bad; [done|lia| |by intros; apply wp_ret].
  rewrite (paged_good _ _ _ Hp4), (paged_good _ _ _ Hp3). auto.
Qed.

Lemma wp_write_mgmt_range ba limit data size me s (Q : option (Z * Z) → nmbm D → Prop) :
  low s0 s → 0 ≤ ba → limit ≤ block_count (ni s0) → zlen data = size → 0 < size →
  (∀ r s', low s0 s' → (∀ st e, r = Some (st, e) → ba ≤ st < e ∧ e ≤ limit) → Q r s') →
  wp F (nmbm_write_mgmt_range ba limit data size) me s Q.
Proof.
  intros Hl Hba Hlim Hlen Hsz HQ. unfold nmbm_write_mgmt_range. wsteps.
  apply (wp_for_brk_to _ (λ i '(pos, start) s', low s0 s' ∧ 0 ≤ pos ≤ size ∧
    (0 < pos → ∃ st, start = Some st ∧ ba ≤ st < i ∧ i ≤ limit))).
  { split_and!; done || lia. }
  2:{ intros [pos start] s' (Hl' & Hpos & Hst). wsteps.
      destruct (Z.eqb_spec (size - pos) 0); simpl; wsteps; [|by apply HQ].
      destruct Hst as (st & -> & Hst); [lia|]. wsteps.
      apply (wp_some _ _ st); [done|]. wsteps. apply HQ; [done|]. intros ? ? [= <- <-]. lia. }
  intros i [pos start] s1 Hi (Hl1 & Hpos & Hst).
  destruct (Z.eqb_spec (size - pos) 0); simpl; wsteps.
  { destruct Hst as (st & -> & Hst); [lia|]. rewrite (proj2 (Z.eqb_eq _ _)) by done. simpl. wsteps. apply HQ; [done|]. intros ? ? [= <- <-]. lia. }
  destruct (low_same _ _ Hl1) as (Hlow & _). rewrite Hlow.
  set (chunk := if erasesize (lower (ni s0)) <? size - pos then _ else _).
  assert (Hchunk : 0 < chunk ≤ size - pos) by (subst chunk; destruct G; case Z.ltb_spec; lia).
  clearbody chunk. apply wp_block_usable; [done|lia|]. intros ok s2 Hl2 Hg2.
  destruct ok; simpl; [|wsteps; split_and!; [done|lia..|]; intros; destruct Hst as (st & -> & ?); [lia|];
    exists st; split; [done|lia]]. wsteps.
  apply wp_erase_check; [done|]. intros b s3 Hl3 Hp3. wsteps.
  match goal with |- wp _ ?m _ _ _ =>
    assert (Hw : wp F m me s3 (λ _ s4, paged s3 s4)) end.
  { destruct b; [|apply wp_ret, paged_refl]. wsteps.
    apply (wp_some _ _ _ _ _ _ (mem_read_ok data pos chunk ltac:(lia) ltac:(lia) ltac:(lia))).
    apply (wp_write_verify_data s3); [by eapply low_geom|apply paged_refl|by rewrite zlen_zslice by lia|auto]. }
  eapply wp_mono; [exact Hw|]. clear Hw. intros ok s4 Hp4. cbv beta.
  assert (Hl4 : low s0 s4) by (by eapply low_paged).
  destruct ok; wsteps.
  - split_and!; [done|lia..|]. intros _. case (Z.eqb_spec pos 0).
    + intros ->. exists i. split; [done|lia].
    + intros. destruct Hst as (st & -> & ?); [lia|]. exists st. split; [done|lia].
  - apply wp_mark_bad; [done|lia| |].
    { rewrite (paged_good _ _ _ Hp4), (paged_good _ _ _ Hp3). auto. }
    intros s5 Hl5. wsteps. split_and!; [done|lia..|]. intros. destruct Hst as (st & -> & ?); [lia|].
    exists st. split; [done|lia].
Qed.
End Blocks.
