(* ===== verification/NmbmTableSafe.v ===== *)
(** * NMBM: updating the info tables is safe and terminates

    Writing, rescuing and rebuilding the two info tables on a chip of which
    nothing is known: every function returns, keeps the instance well-formed
    and leaves the mapping alone, and nmbm_update_info_table() ends because
    every round that has to be repeated cost a good block. *)

From stdpp Require Import base list numbers list_numbers.
From Stdlib Require Import ZArith Lia.
From S2P Require Import Prelude Bytes Crc32 NmbmTypes NmbmCore NmbmTables.
From S2P Require Import NmbmLayout NmbmWf NmbmSafe NmbmImage NmbmWalk.
From S2P Require Import NmbmBlocks.
Open Scope Z_scope.

Section Defs.
Context {D : Type}.
Implicit Types (s : nmbm D) (n : nmbm_instance D).

(** What updating the tables leaves alone. *)
Definition fixed n :=
  (lower n, block_count n, block_mapping n, data_block_count n, mapping_blocks_top_ba n,
   mgmt_start_ba n, signature_ba n, erasesize_shift n, info_table_size n).

Definition goods_of n : Z := goods (block_state n) (Z.to_nat (block_count n)).

Record tbl s s' : Prop := {
  tb_wf : nwf (ni s');
  tb_fixed : fixed (ni s') = fixed (ni s);
  tb_good : ∀ ba, is_good (block_state (ni s')) ba = true → is_good (block_state (ni s)) ba = true;
  tb_goods : goods_of (ni s') ≤ goods_of (ni s);
}.

(** Unless good blocks were lost, nothing is left to be stored. *)
Definition cleaned s s' : Prop :=
  goods_of (ni s') = goods_of (ni s) → tables_changed (ni s') = false.

Lemma tbl_refl s : nwf (ni s) → tbl s s.
Proof. by constructor. Qed.

Lemma tbl_trans s1 s2 s3 : tbl s1 s2 → tbl s2 s3 → tbl s1 s3.
Proof. intros [] []. constructor; [done|congruence|auto|lia]. Qed.

Lemma fixed_count n n' : fixed n' = fixed n → block_count n' = block_count n.
Proof. by intros [=]. Qed.

Lemma low_nwf s s' : low s s' → nwf (ni s) → nwf (ni s').
Proof.
  intros Hl W. assert (geom_ok (ni s')) by (by eapply low_geom, W).
  destruct Hl as [(pc & bs & ch & He & _) _ _]. destruct W. rewrite He in *. destruct (ni s). by constructor.
Qed.

Lemma low_tbl s s' : low s s' → nwf (ni s) → tbl s s'.
Proof.
  intros Hl W. pose proof (low_nwf _ _ Hl W). destruct Hl as [(pc & bs & ch & He & _) Hg [Hk _]].
  constructor; [done| |done|]; [by rewrite He|].
  unfold goods_of. by replace (block_count (ni s')) with (block_count (ni s)) by (by rewrite He).
Qed.

Lemma tbl_low s1 s2 s3 : tbl s1 s2 → low s2 s3 → tbl s1 s3.
Proof. intros H12 H23. eapply tbl_trans; [exact H12|]. apply low_tbl; [done|apply H12]. Qed.

Lemma cleaned_low s1 s2 s3 : tbl s1 s2 → cleaned s1 s2 → low s2 s3 → cleaned s1 s3.
Proof.
  intros [_ Hf _ Hle] Hc [(pc & bs & ch & He & _) _ [Hk1 Hk2]] Heq.
  assert (Hcnt : block_count (ni s3) = block_count (ni s2)) by (by rewrite He).
  unfold goods_of in *. rewrite Hcnt in *. destruct Hk2 as [Hch _]; [lia|].
  unfold cleaned, goods_of, tables_changed in *. rewrite Hch.
  replace (block_mapping_changed (ni s3)) with (block_mapping_changed (ni s2)) by (by rewrite He).
  apply Hc. lia.
Qed.
End Defs.

Section Setters.
Context {D : Type} (s0 : nmbm D).
Implicit Types (s : nmbm D).

Lemma tbl_set (f : nmbm_instance D → nmbm_instance D) s d :
  tbl s0 s → fixed (f (ni s)) = fixed (ni s) → block_state (f (ni s)) = block_state (ni s) →
  nwf (f (ni s)) → tbl s0 (Nmbm (f (ni s)) d).
Proof.
  intros [W Hf Hg Hk] Hf' Hb W'. constructor; simpl.
  - done.
  - congruence.
  - by rewrite Hb.
  - unfold goods_of. rewrite Hb. by rewrite (fixed_count _ _ Hf').
Qed.

Lemma tbl_ranges s : tbl s0 s →
  block_count (ni s) = block_count (ni s0) ∧
  0 ≤ main_table_ba (ni s) < block_count (ni s0) ∧ 0 ≤ backup_table_ba (ni s) < block_count (ni s0) ∧
  1 ≤ mapping_blocks_ba (ni s) < block_count (ni s0) ∧
  1 ≤ mapping_blocks_top_ba (ni s) < block_count (ni s0) ∧
  0 ≤ mgmt_start_ba (ni s) < block_count (ni s0) ∧ 0 ≤ info_table_spare_blocks (ni s) < 2 ^ 31 ∧
  mapping_blocks_top_ba (ni s) = mapping_blocks_top_ba (ni s0).
Proof.
  intros [[] Hf _ _]. pose proof (fixed_count _ _ Hf) as Hc. rewrite Hc in *.
  injection Hf as _ _ _ _ Ht _ _ _ _. split_and!; done || lia.
Qed.

Ltac nwf_set W := destruct W as [G ? ? ? ? ? ? ? ?]; constructor; simpl; [by destruct G|done || lia..].

Lemma tbl_main s x : tbl s0 s → 0 ≤ x < block_count (ni s0) →
  tbl s0 (Nmbm (set_main_table_ba x (ni s)) (dev s)).
Proof.
  intros Ht Hx. destruct (tbl_ranges s Ht) as [Hc _]. rewrite <- Hc in Hx.
  apply tbl_set; [done..|]. pose proof (tb_wf _ _ Ht) as W. nwf_set W.
Qed.

Lemma tbl_backup s x : tbl s0 s → 0 ≤ x < block_count (ni s0) →
  tbl s0 (Nmbm (set_backup_table_ba x (ni s)) (dev s)).
Proof.
  intros Ht Hx. destruct (tbl_ranges s Ht) as [Hc _]. rewrite <- Hc in Hx.
  apply tbl_set; [done..|]. pose proof (tb_wf _ _ Ht) as W. nwf_set W.
Qed.

Lemma tbl_mapping_ba s x : tbl s0 s → 1 ≤ x < block_count (ni s0) →
  tbl s0 (Nmbm (set_mapping_blocks_ba x (ni s)) (dev s)).
Proof.
  intros Ht Hx. destruct (tbl_ranges s Ht) as [Hc _]. rewrite <- Hc in Hx.
  apply tbl_set; [done..|]. pose proof (tb_wf _ _ Ht) as W. nwf_set W.
Qed.

Lemma tbl_protected s x : tbl s0 s → tbl s0 (Nmbm (set_protected x (ni s)) (dev s)).
Proof. intros Ht. apply tbl_set; [done..|]. pose proof (tb_wf _ _ Ht) as W. nwf_set W. Qed.

Lemma tbl_changes s x y : tbl s0 s →
  tbl s0 (Nmbm (set_block_mapping_changed y (set_block_state_changed x (ni s))) (dev s)).
Proof.
  intros Ht. apply (tbl_set (λ n, set_block_mapping_changed y (set_block_state_changed x n))); [done..|].
  pose proof (tb_wf _ _ Ht) as W. nwf_set W.
Qed.

Lemma wp_mark_clean me s (Q : unit → nmbm D → Prop) :
  tbl s0 s →
  (tbl s0 (Nmbm (set_block_mapping_changed 0 (set_block_state_changed 0 (ni s))) (dev s)) →
   cleaned s0 (Nmbm (set_block_mapping_changed 0 (set_block_state_changed 0 (ni s))) (dev s)) →
   Q tt (Nmbm (set_block_mapping_changed 0 (set_block_state_changed 0 (ni s))) (dev s))) →
  wp (λ _, False) nmbm_mark_tables_clean me s Q.
Proof. intros Ht HQ. unfold nmbm_mark_tables_clean. wsteps. apply HQ; [by apply tbl_changes|done]. Qed.
End Setters.

Section Tables.
Context {D : Type} (fuel : nat) (s0 : nmbm D).
Context (Hfuel : block_count (ni s0) + 2 < Z.of_nat fuel).
Abbreviation F := (λ _ : nmbm D, False).
Abbreviation bc := (block_count (ni s0)).
Implicit Types s : nmbm D.

Lemma wp_write_info_table ba limit me s (Q : option (Z * Z) → nmbm D → Prop) :
  tbl s0 s → 0 ≤ ba → limit ≤ bc →
  (∀ r s', low s s' → tbl s0 s' → (∀ st e, r = Some (st, e) → ba ≤ st < e ∧ e ≤ limit) → Q r s') →
  wp F (nmbm_write_info_table ba limit) me s Q.
Proof.
  intros Ht Hba Hlim HQ. unfold nmbm_write_info_table. wsteps.
  destruct (tbl_ranges _ _ Ht) as [Hc _]. pose proof (wf_geom _ (tb_wf _ _ Ht)) as G.
  apply (wp_write_mgmt_range s); [done|apply low_refl|done|lia|by destruct G|destruct G; lia|].
  intros r s' Hl Hr. apply HQ; [done|by eapply tbl_low|done].
Qed.

Lemma wp_block_walk_up ba count limit me s (Q : option Z → nmbm D → Prop) :
  tbl s0 s → 0 ≤ ba → 0 ≤ count < 2 ^ 31 →
  (∀ r, (∀ b, r = Some b → ba ≤ b < bc) → Q r s) →
  wp F (nmbm_block_walk true ba count limit) me s Q.
Proof.
  intros Ht Hba Hcnt HQ. destruct (tbl_ranges _ _ Ht) as [Hc _].
  pose proof (wf_geom _ (tb_wf _ _ Ht)) as G. unfold nmbm_block_walk.
  pose proof (Z.mod_pos_bound limit (2 ^ 32)).
  apply wp_walk_asc; [done|done|unfold u32; rewrite Z.mod_small; lia|unfold u32; lia|].
  apply HQ. intros b Hb%list_elem_of_lookup_2. apply elem_of_good_blocks in Hb.
  pose proof (walk_limit_range s (u32 limit) G ltac:(unfold u32; lia)). lia.
Qed.

Lemma wp_try_reserve ba count limit me s (Q : option Z → nmbm D → Prop) :
  tbl s0 s → 0 ≤ ba → 0 ≤ count < 2 ^ 31 →
  (∀ r, (∀ b, r = Some b → ba ≤ b < bc) → Q r s) →
  wp F (nmbm_try_reserve_blocks ba count 0 limit) me s Q.
Proof.
  intros Ht Hba Hcnt HQ. unfold nmbm_try_reserve_blocks. wsteps. rewrite s32_small by lia.
  apply (wp_for_brk_to _ (λ _ r s', s' = s ∧ r = None)); [done| |].
  - intros i r s' Hi [-> ->]. wsteps. apply wp_block_walk_up; [done..|lia|]. intros r Hr. wsteps.
    destruct r; simpl; wsteps; [by apply HQ|done].
  - intros r s' [-> ->]. wsteps. by apply HQ.
Qed.

Lemma wp_write_downwards write_ba lo me s (Q : option (Z * Z) → nmbm D → Prop) :
  tbl s0 s → 1 ≤ lo ≤ write_ba → write_ba < bc →
  (∀ r s', low s s' → tbl s0 s' →
     (∀ st e, r = Some (st, e) → lo ≤ st < e ∧ e ≤ mapping_blocks_top_ba (ni s0)) → Q r s') →
  wp F (write_downwards fuel write_ba lo) me s Q.
Proof.
  intros Ht Hlo Hwb HQ. unfold write_downwards. wsteps.
  assert (Hbc : bc < 2 ^ 31) by (destruct (tbl_ranges _ _ Ht) as [<- _]; apply (tb_wf _ _ Ht)).
  apply (wp_while_brk _ (λ '(wb, r) s', low s s' ∧ tbl s0 s' ∧ lo - 1 ≤ wb ≤ write_ba ∧
      match r with None => wb = write_ba | Some x => x = None end) _ (λ '(wb, _) _, wb - lo + 1)).
  { split_and!; [apply low_refl|done|lia..|done]. }
  { lia. }
  intros [wb r] s1 (Hl1 & Ht1 & Hwb1 & Hr). split; [lia|].
  destruct (Z.ltb_spec wb lo); wsteps.
  { destruct r as [x|]; [subst x|lia]. apply (wp_some _ _ None); [done|]. by apply HQ. }
  destruct (tbl_ranges _ _ Ht1) as (_ & _ & _ & _ & Htop & _ & _ & He). rewrite He in *.
  apply wp_write_info_table; [done|lia|lia|]. intros w s2 Hl2 Ht2 Hw.
  assert (low s s2) by (by eapply low_trans).
  destruct w as [[st e]|]; wsteps.
  - apply (wp_some _ _ (Some (st, e))); [done|]. apply HQ; [done..|]. intros ? ? Hx.
    specialize (Hw _ _ Hx). lia.
  - unfold u32. rewrite Z.mod_small by lia. split_and!; done || lia.
Qed.

(** The result of an update: nothing left to be stored if it succeeded. *)
Abbreviation updated := (λ (r : bool) s', tbl s0 s' ∧ (r = true → cleaned s0 s')).

(** The addresses of the tables are reset first, so nothing is needed of them. *)
Lemma wp_rebuild_reset me s :
  tbl s0 (Nmbm (set_mapping_blocks_ba (mapping_blocks_top_ba (ni s))
                  (set_backup_table_ba 0 (set_main_table_ba 0 (ni s)))) (dev s)) →
  wp F nmbm_rebuild_info_table me s updated.
Proof.
  intros Ht1. unfold nmbm_rebuild_info_table. wsteps.
  destruct (tbl_ranges _ _ Ht1) as (_ & _ & _ & Hmb & Htop & Hmg & _). cbn in Hmb, Htop, Hmg.
  apply wp_write_info_table; [exact Ht1|simpl; lia|simpl; lia|]. cbn [ni dev].
  intros w s1 Hl1 Hts1 Hw.
  destruct w as [[st e]|]; wsteps; [|split; [by apply tbl_protected|done]].
  destruct (Hw st e eq_refl) as [Hst He]. cbn in Hst, He. cbn [ni dev].
  assert (Ht2 : tbl s0 (Nmbm (set_mapping_blocks_ba e (set_main_table_ba st (ni s1))) (dev s1))).
  { apply (tbl_mapping_ba s0 (Nmbm _ _)); [apply tbl_main; [done|lia]|lia]. }
  apply (wp_mark_clean s0); [done|]. clear Ht2. intros Ht2 Hcl2. wsteps.
  destruct (tbl_ranges _ _ Ht2) as (_ & _ & _ & _ & Htop2 & _ & Hsp2 & _).
  apply wp_try_reserve; [done|lia|done|]. intros next Hnext.
  destruct next as [nb|]; wsteps; [|done]. specialize (Hnext nb eq_refl).
  apply wp_write_info_table; [done|lia|lia|]. intros w2 s3 Hl3 Ht3 Hw2.
  pose proof (cleaned_low _ _ _ Ht2 Hcl2 Hl3) as Hcl3.
  destruct w2 as [[st2 e2]|]; wsteps; [|done]. destruct (Hw2 st2 e2 eq_refl) as [Hst2 He2]. cbn [ni dev].
  assert (Ht4 : tbl s0 (Nmbm (set_mapping_blocks_ba e2 (set_backup_table_ba st2 (ni s3))) (dev s3))).
  { apply (tbl_mapping_ba s0 (Nmbm _ _)); [apply tbl_backup; [done|lia]|lia]. }
  destruct (tbl_ranges _ _ Ht4) as (Hc4 & _).
  eapply (wp_erase_range (Nmbm _ _)); [apply (tb_wf _ _ Ht4)|apply low_refl|lia|lia|].
  intros s5 Hl5. wsteps. split; [by eapply tbl_low|]. intros _. by eapply cleaned_low.
Qed.

Lemma wp_rebuild me s : tbl s0 s → wp F nmbm_rebuild_info_table me s updated.
Proof.
  intros Ht. apply wp_rebuild_reset.
  destruct (tbl_ranges _ _ Ht) as (_ & _ & _ & Hmb & Htop & Hmg & _).
  apply (tbl_mapping_ba s0 (Nmbm _ _)); [|simpl; lia].
  apply (tbl_backup s0 (Nmbm _ _)); [|simpl; lia]. apply tbl_main; [done|lia].
Qed.

(** Erasing a range at the end of an update. *)
Lemma wp_erase_then ba limit (b : bool) me s :
  tbl s0 s → cleaned s0 s → 0 ≤ ba → limit ≤ bc →
  wp F (nmbm_erase_range ba limit) me s (λ _ s', wp F (ret b) me s' updated).
Proof.
  intros Ht Hcl Hba Hlim. destruct (tbl_ranges _ _ Ht) as (Hc & _).
  eapply (wp_erase_range s); [apply (tb_wf _ _ Ht)|apply low_refl|lia|lia|].
  intros s' Hl. wsteps. split; [by eapply tbl_low|]. intros _. by eapply cleaned_low.
Qed.

Lemma wp_rescue_single me s : tbl s0 s → wp F (nmbm_rescue_single_info_table fuel) me s updated.
Proof.
  intros Ht. unfold nmbm_rescue_single_info_table. wsteps.
  destruct (tbl_ranges _ _ Ht) as (_ & Hm & _ & _ & _ & Hmg & _).
  apply wp_write_info_table; [done|lia|lia|]. intros w s1 Hl1 Ht1 Hw.
  destruct (tbl_ranges _ _ Ht1) as (_ & Hm1 & _ & Hmb1 & Htop1 & _ & Hsp1 & He1).
  destruct w as [[st e]|]; wsteps.
  - destruct (Hw st e eq_refl) as [Hst He]. cbn [ni dev].
    assert (Ht2 : tbl s0 (Nmbm (set_main_table_ba st (set_backup_table_ba (main_table_ba (ni s1)) (ni s1)))
                            (dev s1))).
    { apply (tbl_main s0 (Nmbm _ _)); [apply tbl_backup; [done|lia]|lia]. }
    apply (wp_mark_clean s0); [done|]. intros Ht3 Hcl3. wsteps. apply wp_erase_then; [done..|lia|cbn; lia].
  - apply wp_try_reserve; [done|lia|done|]. intros r Hr. destruct r as [wb|]; wsteps; [|done].
    specialize (Hr wb eq_refl). apply wp_write_downwards; [done|lia|lia|]. intros w s2 Hl2 Ht2 Hw2.
    destruct w as [[st e]|]; wsteps; [|done]. destruct (Hw2 st e eq_refl) as [Hst He]. cbn [ni dev].
    destruct (tbl_ranges _ _ Ht2) as (Hc2 & _ & _ & Hmb2 & _).
    eapply (wp_erase_range s2); [apply (tb_wf _ _ Ht2)|apply low_refl|lia|lia|].
    intros s3 Hl3. wsteps. cbn [ni dev].
    assert (Ht4 : tbl s0 (Nmbm (set_mapping_blocks_ba e (set_backup_table_ba st (ni s3))) (dev s3))).
    { apply (tbl_mapping_ba s0 (Nmbm _ _)); [apply tbl_backup; [by eapply tbl_low|lia]|lia]. }
    apply (wp_mark_clean s0); [done|]. intros Ht5 Hcl5. wsteps. done.
Qed.

Lemma wp_update_single m me s :
  tbl s0 s → 1 ≤ backup_table_ba (ni s) → wp F (nmbm_update_single_info_table fuel m) me s updated.
Proof.
  intros Ht Hb. unfold nmbm_update_single_info_table. wsteps.
  destruct (tbl_ranges _ _ Ht) as (_ & Hm & Hbk & _ & Htop & _).
  apply wp_write_info_table; [done|destruct m; lia|destruct m; lia|]. intros w s1 Hl1 Ht1 Hw.
  destruct (tbl_ranges _ _ Ht1) as (_ & Hm1 & Hb1 & Hmb1 & Htop1 & _).
  assert (Hbe : backup_table_ba (ni s1) = backup_table_ba (ni s)).
  { destruct Hl1 as [(pc & bs & ch & -> & _) _ _]. done. }
  destruct w as [[st e]|], m; wsteps; cbn [ni dev].
  - destruct (Hw st e eq_refl) as [Hst He].
    apply (wp_mark_clean s0); [apply tbl_main; [done|lia]|]. intros Ht2 Hcl2. by wsteps.
  - destruct (Hw st e eq_refl) as [Hst He].
    apply (wp_mark_clean s0).
    { apply (tbl_mapping_ba s0 (Nmbm _ _)); [apply tbl_backup; [done|lia]|lia]. }
    intros Ht2 Hcl2. by wsteps.
  - apply wp_rescue_single. apply (tbl_backup s0 (Nmbm _ _)); [apply tbl_main; [done|lia]|lia].
  - split; [|done]. apply (tbl_backup s0 (Nmbm _ _)); [apply tbl_mapping_ba; [done|lia]|lia].
Qed.

Lemma wp_backup_to_main me s : tbl s0 s → cleaned s0 s → wp F backup_to_main me s updated.
Proof.
  intros Ht Hcl. unfold backup_to_main. wsteps. cbn [ni dev].
  destruct (tbl_ranges _ _ Ht) as (_ & _ & Hbk & _). split; [|done].
  apply (tbl_backup s0 (Nmbm _ _)); [apply tbl_main; [done|lia]|lia].
Qed.

Lemma wp_rescue_backup e me s :
  tbl s0 s → cleaned s0 s → 1 ≤ e < bc → wp F (rescue_backup fuel e) me s updated.
Proof.
  intros Ht Hcl He. unfold rescue_backup. wsteps. cbn [ni dev].
  pose proof (tbl_mapping_ba _ _ e Ht He) as Ht1.
  destruct (tbl_ranges _ _ Ht1) as (_ & _ & _ & _ & Htop & _ & Hsp & _).
  assert (H0 : 0 ≤ 0 < bc) by lia.
  apply wp_try_reserve; [done|lia|done|]. intros r Hr.
  destruct r as [wb|]; wsteps; [|split; [by apply (tbl_backup s0 (Nmbm _ _))|done]].
  specialize (Hr wb eq_refl). apply wp_write_downwards; [done|lia|lia|]. intros w s2 Hl2 Ht2 Hw.
  pose proof (cleaned_low s0 (Nmbm _ _) s2 Ht1 Hcl Hl2) as Hcl2.
  destruct w as [[st e']|]; wsteps; cbn [ni dev]; [|split; [by apply tbl_backup|done]].
  destruct (Hw st e' eq_refl) as [Hst He'].
  destruct (tbl_ranges _ _ Ht2) as (_ & _ & _ & _ & Htop2 & _ & _ & Hee).
  apply wp_erase_then; [|done|lia|lia].
  apply (tbl_mapping_ba s0 (Nmbm _ _)); [apply tbl_backup; [done|lia]|lia].
Qed.

Lemma wp_rescue_main me s :
  tbl s0 s → cleaned s0 s → wp F (nmbm_rescue_main_info_table fuel) me s updated.
Proof.
  intros Ht Hcl. unfold nmbm_rescue_main_info_table. wsteps.
  destruct (tbl_ranges _ _ Ht) as (_ & _ & _ & Hmb & Htop & _ & Hsp & _).
  apply wp_try_reserve; [done|lia|done|]. intros r Hr.
  destruct r as [wb|]; wsteps; [|by apply wp_backup_to_main].
  specialize (Hr wb eq_refl). apply wp_write_downwards; [done|lia|lia|]. intros w s1 Hl1 Ht1 Hw.
  pose proof (cleaned_low _ _ _ Ht Hcl Hl1) as Hcl1.
  destruct w as [[st e]|]; wsteps; [|by apply wp_backup_to_main].
  destruct (Hw st e eq_refl) as [Hst He]. cbn [ni dev].
  destruct (tbl_ranges _ _ Ht1) as (_ & _ & _ & _ & Htop1 & Hmg1 & _ & Hee).
  assert (Ht2 : tbl s0 (Nmbm (set_mapping_blocks_ba e (ni s1)) (dev s1))) by (apply tbl_mapping_ba; [done|lia]).
  apply wp_write_info_table; [done|simpl; lia|simpl; lia|]. cbn [ni dev]. intros w2 s2 Hl2 Hts2 Hw2.
  destruct w2 as [[st2 e2]|]; wsteps; cbn [ni dev].
  - destruct (Hw2 st2 e2 eq_refl) as [Hst2 He2]. cbn in Hst2.
    apply (wp_mark_clean s0); [apply tbl_main; [done|lia]|]. intros Ht3 Hcl3.
    destruct (_ <=? _); wsteps; cbn [ni dev].
    + split; [|done]. apply (tbl_backup s0 (Nmbm _ _)); [done|lia].
    + apply wp_rescue_backup; [done..|lia].
  - apply (wp_mark_clean s0).
    { apply (tbl_backup s0 (Nmbm _ _)); [apply tbl_main; [done|lia]|lia]. }
    intros Ht3 Hcl3. by wsteps.
Qed.

Lemma wp_write_main_table limit me s :
  tbl s0 s → limit < bc → (backup_table_ba (ni s) ≠ 0 → cleaned s0 s) →
  wp F (write_main_table fuel limit) me s updated.
Proof.
  intros Ht Hlim Hcl. unfold write_main_table. wsteps.
  destruct (_ =? 0); [by apply wp_rebuild|]. wsteps.
  destruct (tbl_ranges _ _ Ht) as (_ & Hm & _).
  apply wp_write_info_table; [done|lia|lia|]. intros w s1 Hl1 Ht1 Hw. wsteps.
  assert (Hb : backup_table_ba (ni s1) = backup_table_ba (ni s)).
  { destruct Hl1 as [(pc & bs & ch & -> & _) _ _]. done. }
  destruct w as [[st e]|].
  - destruct (Hw st e eq_refl) as [Hst He]. wsteps. cbn [ni dev].
    destruct (_ =? 0); wsteps; (apply (wp_mark_clean s0);
      [|intros Ht2 Hcl2; by wsteps]); cbn [ni dev].
    + apply (tbl_mapping_ba s0 (Nmbm _ _)); [apply tbl_main; [done|lia]|lia].
    + apply tbl_main; [done|lia].
  - case (Z.eqb_spec (backup_table_ba (ni s1)) 0); intros Hb0; [by apply wp_rebuild|].
    apply wp_rescue_main; [done|]. eapply cleaned_low; [exact Ht| |exact Hl1]. apply Hcl. lia.
Qed.

Lemma wp_generate_tbl me s (Q : bool → nmbm D → Prop) :
  tbl s0 s → (∀ s', tbl s0 s' → Q (tables_changed (ni s')) s') →
  wp F nmbm_generate_info_table_cache me s Q.
Proof.
  intros Ht HQ. pose proof (tb_wf _ _ Ht) as W.
  apply wp_generate; [apply W|]. intros cache ift hdr H1 H2 _ I.
  refine (HQ (Nmbm (set_info_table ift (set_info_table_cache cache (ni s))) (dev s)) _).
  apply (tbl_set s0 (λ n, set_info_table ift (set_info_table_cache cache n))); [done..|].
  destruct W as [G ? ? ? ? ? ? ? ?]. constructor; simpl; [|done..].
  pose proof (im_len _ _ _ I). destruct G. constructor; simpl; rewrite ?H1, ?H2; done.
Qed.

Lemma wp_update_once me s : tbl s0 s → wp F (nmbm_update_info_table_once fuel false) me s updated.
Proof.
  intros Ht. unfold nmbm_update_info_table_once. wsteps. apply wp_generate_tbl; [done|].
  intros s1 Ht1. rewrite andb_true_r. destruct (tables_changed (ni s1)) eqn:Hch; simpl; [|wsteps; split; [done|]].
  2:{ by intros _ _. }
  wsteps. destruct (tbl_ranges _ _ Ht1) as (_ & _ & Hb & _ & Htop & _).
  case (Z.eqb_spec (backup_table_ba (ni s1)) 0); intros Hb0.
  { apply wp_write_main_table; [done|lia|done]. }
  wsteps. apply wp_write_info_table; [done|lia|lia|]. intros w s2 Hl2 Ht2 Hw.
  destruct (tbl_ranges _ _ Ht2) as (_ & _ & Hb2 & _ & Htop2 & _).
  assert (Hbe : backup_table_ba (ni s2) = backup_table_ba (ni s1)).
  { destruct Hl2 as [(pc & bs & ch & -> & _) _ _]. done. }
  destruct w as [[st e]|]; wsteps; cbn [ni dev].
  - destruct (Hw st e eq_refl) as [Hst He]. apply (wp_mark_clean s0).
    { apply (tbl_mapping_ba s0 (Nmbm _ _)); [apply tbl_backup; [done|lia]|lia]. }
    intros Ht3 Hcl3. apply wp_write_main_table; [done|lia|done].
  - apply wp_write_main_table; [|cbn; lia|by cbn].
    apply (tbl_backup s0 (Nmbm _ _)); [apply tbl_mapping_ba; [done|lia]|lia].
Qed.
End Tables.

(** The update as a whole. *)
Section Update.
Context {D : Type} (fuel : nat).
Abbreviation F := (λ _ : nmbm D, False).
Implicit Types s : nmbm D.

Lemma wp_update me s (Q : bool → nmbm D → Prop) :
  nwf (ni s) → block_count (ni s) + 2 < Z.of_nat fuel →
  (∀ r s', tbl s s' → (r = true → protected (ni s) = 0 → tables_changed (ni s') = false) → Q r s') →
  wp F (nmbm_update_info_table fuel) me s Q.
Proof.
  intros W Hfuel HQ. unfold nmbm_update_info_table. wsteps. unfold cbool.
  case (Z.eqb_spec (protected (ni s)) 0); intros Hp; simpl.
  2:{ wsteps. apply HQ; [by apply tbl_refl|done]. }
  apply (wp_while_brk _ (λ _ s', tbl s s') _
    (λ _ s', goods_of (ni s') + (if tables_changed (ni s') then 1 else 0))).
  - by apply tbl_refl.
  - pose proof (goods_range (block_state (ni s)) (Z.to_nat (block_count (ni s)))). unfold goods_of.
    pose proof (g_blocks _ (wf_geom _ W)). destruct (tables_changed _); lia.
  - intros _ s1 Ht1. split.
    { pose proof (goods_range (block_state (ni s1)) (Z.to_nat (block_count (ni s1)))). unfold goods_of.
      destruct (tables_changed _); lia. }
    wsteps. destruct (tables_changed (ni s1)) eqn:Hch; simpl; [|wsteps; by apply HQ]. wsteps.
    destruct (tbl_ranges _ _ Ht1) as (Hc1 & _).
    eapply wp_mono; [apply (wp_update_once fuel s1); [lia|apply tbl_refl, Ht1]|].
    intros [] s2 [Ht2 Hcl]; wsteps.
    + split; [by eapply tbl_trans|]. specialize (Hcl eq_refl). unfold cleaned in Hcl.
      destruct Ht2 as [_ _ _ Hle]. destruct (decide (goods_of (ni s2) = goods_of (ni s1))) as [He|].
      * rewrite Hcl by done. lia.
      * destruct (tables_changed (ni s2)); lia.
    + apply HQ; [by eapply tbl_trans|done].
Qed.
End Update.
