(* ===== verification/NmbmApi.v ===== *)
(** * NMBM: the operations on logic addresses are safe and terminate

    Every function other code calls, on a well-formed instance over a chip of
    which nothing is known but its interface: it returns, accesses no table or
    buffer outside its bounds, and leaves a well-formed instance. *)

From stdpp Require Import base list numbers list_numbers.
From Stdlib Require Import ZArith Lia.
From S2P Require Import Prelude Bytes Crc32 NmbmTypes NmbmCore NmbmTables.
From S2P Require Import NmbmIo NmbmOps NmbmLayout NmbmWf NmbmSafe NmbmImage.
From S2P Require Import NmbmWalk NmbmBlocks NmbmTableSafe.
Open Scope Z_scope.

Section Addresses.
Context {D : Type}.
Implicit Types n : nmbm_instance D.

(** Addresses below the available size lie in mapped blocks. *)
Lemma avail_eq n : nwf n → ba2addr n (data_block_count n) = data_block_count n * erasesize (lower n).
Proof.
  intros W. pose proof (wf_data _ W). destruct (wf_geom _ W). destruct g_shift as [Hs He].
  unfold ba2addr, u64. rewrite Z.shiftl_mul_pow2, <- He by lia. apply Z.mod_small. nia.
Qed.

Lemma addr2ba_lt n addr : nwf n → 0 ≤ addr < ba2addr n (data_block_count n) →
  addr2ba n addr = addr / erasesize (lower n) ∧ 0 ≤ addr2ba n addr < data_block_count n.
Proof.
  intros W Ha. rewrite (avail_eq n W) in Ha. pose proof (wf_data _ W). destruct (wf_geom _ W).
  destruct g_shift as [Hs He]. unfold addr2ba, u32. rewrite Z.shiftr_div_pow2, <- He by lia.
  assert (0 ≤ addr / erasesize (lower n) < data_block_count n).
  { split; [apply Z.div_pos; lia|]. apply Z.div_lt_upper_bound; lia. }
  rewrite Z.mod_small; lia.
Qed.
End Addresses.

Section Api.
Context {D : Type} (fuel : nat).
Abbreviation F := (λ _ : nmbm D, False).
Implicit Types (s : nmbm D) (n : nmbm_instance D).

(** What no operation changes. *)
Definition op_fixed n :=
  (lower n, block_count n, data_block_count n, mgmt_start_ba n, signature_ba n, erasesize_shift n).

Definition opd s s' : Prop := nwf (ni s') ∧ op_fixed (ni s') = op_fixed (ni s).

Lemma opd_refl s : nwf (ni s) → opd s s.
Proof. done. Qed.

Lemma opd_trans s1 s2 s3 : opd s1 s2 → opd s2 s3 → opd s1 s3.
Proof. intros [_ H1] [W H2]. split; [done|congruence]. Qed.

Lemma tbl_opd s s' : tbl s s' → opd s s'.
Proof. intros [W Hf _ _]. split; [done|]. injection Hf as ? ? ? ? ? ? ? ? ?. unfold op_fixed. congruence. Qed.

Lemma low_opd s s' : low s s' → nwf (ni s) → opd s s'.
Proof. intros. by apply tbl_opd, low_tbl. Qed.

Lemma paged_opd s s' : paged s s' → nwf (ni s) → opd s s'.
Proof. intros ?%paged_low. by apply low_opd. Qed.

Lemma opd_count s s' : opd s s' → block_count (ni s') = block_count (ni s).
Proof. by intros [_ [=]]. Qed.

Ltac nwf_set W := destruct W as [G ? ? ? ? ? ? ? ?]; constructor; simpl; [by destruct G|done || lia..].

Lemma nwf_set_mapping n lb pb :
  nwf n → -1 ≤ pb < block_count n → nwf (set_block_mapping (zset (block_mapping n) lb pb) n).
Proof.
  intros [G ? ? ? ? ? ? ? ?] Hpb. constructor; simpl; [|by apply Forall_insert|done..].
  destruct G. constructor; simpl; rewrite ?zlen_zset; done.
Qed.

Lemma nwf_put_state n ba st u ch :
  nwf n → nwf (set_block_state_changed ch (set_block_state (put_state (block_state n) ba st u) n)).
Proof.
  intros [G ? ? ? ? ? ? ? ?]. constructor; simpl; [|done..].
  unfold put_state. destruct G. constructor; simpl; rewrite ?zlen_zset; done.
Qed.

Lemma wp_set_mapping lb pb me s (Q : unit → nmbm D → Prop) :
  nwf (ni s) → 0 ≤ lb < block_count (ni s) → -1 ≤ pb < block_count (ni s) →
  (opd s (Nmbm (set_block_mapping (zset (block_mapping (ni s)) lb pb) (ni s)) (dev s)) →
   Q tt (Nmbm (set_block_mapping (zset (block_mapping (ni s)) lb pb) (ni s)) (dev s))) →
  wp F (set_mapping lb pb) me s Q.
Proof.
  intros W Hlb Hpb HQ. unfold set_mapping. wsteps.
  apply (wp_some _ _ (zset (block_mapping (ni s)) lb pb)).
  { unfold zput. rewrite decide_True; [done|]. pose proof (g_mapping _ (wf_geom _ W)). lia. }
  wsteps. apply HQ. split; [by apply nwf_set_mapping|done].
Qed.

Lemma wp_set_state ba st me s (Q : bool → nmbm D → Prop) :
  nwf (ni s) → 0 ≤ ba < block_count (ni s) →
  (∀ b s', opd s s' → mapping_blocks_top_ba (ni s') = mapping_blocks_top_ba (ni s) → Q b s') →
  wp F (nmbm_set_block_state ba st) me s Q.
Proof.
  intros W Hba HQ. apply wp_set_block_state; [apply W|done|]. intros b ch u _.
  apply HQ; [|done]. split; [by apply nwf_put_state|done].
Qed.

Lemma wp_get_mapping lb me s (Q : Z → nmbm D → Prop) :
  nwf (ni s) → 0 ≤ lb < block_count (ni s) →
  (∀ pb, zget (block_mapping (ni s)) lb = Some pb → -1 ≤ pb < block_count (ni s) → Q pb s) →
  wp F (get_mapping lb) me s Q.
Proof.
  intros W Hlb HQ. unfold get_mapping. wsteps.
  destruct (zget_is_Some (block_mapping (ni s)) lb) as [pb Hpb].
  { pose proof (g_mapping _ (wf_geom _ W)). lia. }
  apply (wp_some _ _ pb); [done|]. apply HQ; [done|].
  pose proof (wf_mapping _ W) as Hf. rewrite Forall_lookup in Hf. unfold zget in Hpb.
  case_decide; [|done]. by eapply Hf.
Qed.

Lemma wp_map_block lb me s (Q : bool → nmbm D → Prop) :
  nwf (ni s) → block_count (ni s) + 2 < Z.of_nat fuel → 0 ≤ lb < block_count (ni s) →
  (∀ r s', opd s s' → (r = true → mapping_blocks_top_ba (ni s') < mapping_blocks_top_ba (ni s)) → Q r s') →
  wp F (nmbm_map_block fuel lb) me s Q.
Proof.
  intros W Hfuel Hlb HQ. unfold nmbm_map_block. wsteps.
  pose proof (wf_mapping_ba _ W) as Hmb. pose proof (wf_top _ W) as Htop.
  pose proof (g_blocks _ (wf_geom _ W)) as Hbc.
  destruct (_ =? _); [apply wp_ret, HQ; [by apply opd_refl|done]|]. wsteps.
  unfold nmbm_block_walk. unfold u32 at 1 2. rewrite !Z.mod_small by lia.
  apply wp_walk_desc; [apply W|lia|lia|lia|].
  destruct (_ !! _) as [pb|] eqn:Hpb.
  - apply list_elem_of_lookup_2 in Hpb. rewrite elem_of_reverse, elem_of_good_blocks in Hpb.
    assert (Hlim : walk_limit (ni s) (mapping_blocks_ba (ni s)) = mapping_blocks_ba (ni s)).
    { unfold walk_limit. case Z.leb_spec; [lia|done]. }
    rewrite Hlim in Hpb. wsteps. apply wp_set_mapping; [done|done|lia|]. intros [W1 Hf1].
    wsteps. cbn [ni dev mapping_blocks_top_ba set_block_mapping set_mapping_blocks_top_ba].
    assert (Hu : u32 (mapping_blocks_top_ba (ni s) - 1) = mapping_blocks_top_ba (ni s) - 1)
      by (unfold u32; rewrite Z.mod_small; lia).
    apply HQ; [|simpl; rewrite Hu; lia]. split; [|done]. cbn [ni] in *.
    destruct W1 as [G ? ? ? ? ? ? ? ?]. constructor; simpl in *; [by destruct G|done || lia..].
  - wsteps. apply wp_update; [done..|]. intros r s1 [W1 Hf1 _ _] _. wsteps.
    apply HQ; [|done]. cbn [ni dev]. split.
    + cbn [ni]. nwf_set W1.
    + injection Hf1 as ? ? ? ? ? ? ? ? ?. unfold op_fixed. simpl. congruence.
Qed.

(** An update at the end of an operation. *)
Lemma wp_update_then me s0 s (Q : bool → nmbm D → Prop) :
  opd s0 s → block_count (ni s0) + 2 < Z.of_nat fuel →
  (∀ r s', opd s0 s' → mapping_blocks_top_ba (ni s') = mapping_blocks_top_ba (ni s) → Q r s') →
  wp F (nmbm_update_info_table fuel) me s Q.
Proof.
  intros Ho Hfuel HQ. apply wp_update; [apply Ho|by rewrite (opd_count _ _ Ho)|].
  intros r s' Ht _. apply HQ; [eapply opd_trans; [exact Ho|by apply tbl_opd]|].
  destruct Ht as [_ [=] _ _]. done.
Qed.

Section Ops.
Context (s0 : nmbm D) (Hfuel : block_count (ni s0) + 2 < Z.of_nat fuel).

(** A call of a function that only touches the page cache. *)
Lemma opd_paged s s' : opd s0 s → paged s s' → opd s0 s'.
Proof. intros Ho Hp. eapply opd_trans; [exact Ho|]. apply paged_opd; [done|apply Ho]. Qed.

Lemma top_paged s s' : paged s s' → mapping_blocks_top_ba (ni s') = mapping_blocks_top_ba (ni s).
Proof. by intros (pc & -> & _). Qed.

Lemma wp_remap lb pb me s (Q : bool * Z → nmbm D → Prop) :
  opd s0 s → 0 ≤ lb < block_count (ni s0) → 0 ≤ pb < block_count (ni s0) →
  (∀ r s', opd s0 s' → (r.1 = false → mapping_blocks_top_ba (ni s') < mapping_blocks_top_ba (ni s)) → Q r s') →
  wp F (remap_logic_block fuel lb pb) me s Q.
Proof.
  intros Ho Hlb Hpb HQ. pose proof (opd_count _ _ Ho) as Hc. unfold remap_logic_block. wsteps.
  apply wp_map_block; [apply Ho|lia|lia|]. intros ok s1 Ho1 Htop.
  assert (Ho1' : opd s0 s1) by (by eapply opd_trans). pose proof (opd_count _ _ Ho1') as Hc1. wsteps.
  match goal with |- wp _ ?m _ _ _ =>
    assert (Hm : wp F m me s1 (λ _ s2, opd s0 s2 ∧ mapping_blocks_top_ba (ni s2) = mapping_blocks_top_ba (ni s1))) end.
  { destruct ok; simpl; [by apply wp_ret|]. apply wp_set_mapping; [apply Ho1|lia|lia|].
    intros Hm. split; [by eapply opd_trans|done]. }
  eapply wp_mono; [exact Hm|]. clear Hm. intros _ s2 [Ho2 Ht2]. wsteps.
  pose proof (opd_count _ _ Ho2) as Hc2.
  apply wp_get_block_state; [apply Ho2|lia|]. intros st _ _ _. wsteps.
  match goal with |- wp _ ?m _ _ _ =>
    assert (Hm : wp F m me s2 (λ _ s3, opd s0 s3 ∧ mapping_blocks_top_ba (ni s3) = mapping_blocks_top_ba (ni s2))) end.
  { destruct (negb _); wsteps; [|done]. apply wp_set_state; [apply Ho2|lia|]. intros b s3 Ho3 Ht3. wsteps.
    split; [by eapply opd_trans|done]. }
  eapply wp_mono; [exact Hm|]. clear Hm. intros _ s3 [Ho3 Ht3]. wsteps.
  apply (wp_update_then me s0); [done..|]. intros r s4 Ho4 Ht4. wsteps. apply HQ; [done|].
  destruct ok; simpl; [|done]. intros _. specialize (Htop eq_refl). lia.
Qed.

Lemma wp_erase_logic_once lb me s (Q : bool * Z → nmbm D → Prop) :
  opd s0 s → 0 ≤ lb < block_count (ni s0) →
  (∀ r s', opd s0 s' → (r.1 = false → mapping_blocks_top_ba (ni s') < mapping_blocks_top_ba (ni s)) → Q r s') →
  wp F (erase_logic_block_once fuel lb) me s Q.
Proof.
  intros Ho Hlb HQ. pose proof (opd_count _ _ Ho) as Hc. unfold erase_logic_block_once. wsteps.
  apply wp_get_mapping; [apply Ho|lia|]. intros pb _ Hpb.
  case (Z.ltb_spec pb 0); intros Hpb0; [by apply wp_ret, HQ|]. wsteps.
  apply wp_get_block_state; [apply Ho|lia|]. intros st _ _ _.
  destruct (_ || _); [apply wp_remap; [done|lia|lia|done]|]. wsteps.
  apply (wp_check_bad_phys_block s); [apply Ho|apply paged_refl|]. intros bad s1 Hp1.
  pose proof (opd_paged _ _ Ho Hp1) as Ho1. pose proof (opd_count _ _ Ho1) as Hc1.
  destruct bad; wsteps.
  - apply wp_set_state; [apply Ho1|lia|]. intros b s2 Ho2 Ht2.
    apply wp_remap; [by eapply opd_trans|lia|lia|]. intros r s3 Ho3 Ht3. apply HQ; [done|].
    intros Hr. specialize (Ht3 Hr). rewrite (top_paged _ _ Hp1) in Ht2. lia.
  - apply (wp_erase_block_and_check s1); [apply Ho1|apply paged_refl|]. intros b s2 Hp2.
    pose proof (opd_paged _ _ Ho1 Hp2) as Ho2. pose proof (opd_count _ _ Ho2) as Hc2.
    destruct b; [by apply wp_ret, HQ|]. unfold mark_bad. wsteps.
    apply (wp_mark_phys_bad_block s2); [apply Ho2|apply paged_refl|]. intros r s3 Hp3.
    pose proof (opd_paged _ _ Ho2 Hp3) as Ho3. pose proof (opd_count _ _ Ho3) as Hc3. wsteps.
    apply wp_set_state; [apply Ho3|lia|]. intros b s4 Ho4 Ht4. wsteps.
    apply wp_remap; [by eapply opd_trans|lia|lia|]. intros r5 s5 Ho5 Ht5. apply HQ; [done|].
    intros Hr. specialize (Ht5 Hr).
    rewrite (top_paged _ _ Hp3), (top_paged _ _ Hp2), (top_paged _ _ Hp1) in Ht4. lia.
Qed.

Lemma wp_erase_logic lb me s (Q : Z → nmbm D → Prop) :
  opd s0 s → 0 ≤ lb < block_count (ni s0) → (∀ r s', opd s0 s' → Q r s') →
  wp F (nmbm_erase_logic_block fuel lb) me s Q.
Proof.
  intros Ho Hlb HQ. unfold nmbm_erase_logic_block.
  apply (wp_while_brk _ (λ _ s, opd s0 s) _ (λ _ s, mapping_blocks_top_ba (ni s))); [done| |].
  { pose proof (opd_count _ _ Ho). destruct Ho as [[] _]. lia. }
  intros _ s1 Ho1. split; [destruct Ho1 as [[] _]; lia|].
  apply wp_erase_logic_once; [done..|]. intros [[] r] s2 Ho2 Ht2; simpl in *; auto.
Qed.

(** What reading does: the page cache and reads of the chip. *)
Definition read_only_step s s' : Prop := paged s s' ∧ device_reads (lower (ni s)) (dev s) (dev s').

Lemma read_only_step_refl s : read_only_step s s.
Proof. split; [apply paged_refl|constructor]. Qed.

Lemma read_only_step_trans s1 s2 s3 : read_only_step s1 s2 → read_only_step s2 s3 → read_only_step s1 s3.
Proof.
  intros [Hp Hr] [Hp' Hr']. split; [by eapply paged_trans|].
  destruct Hp as (pc & He & _). rewrite He in Hr'. by eapply device_reads_trans.
Qed.

Lemma opd_avail s : opd s0 s →
  ba2addr (ni s) (data_block_count (ni s)) = ba2addr (ni s0) (data_block_count (ni s0)).
Proof. intros [_ [=]]. unfold ba2addr. congruence. Qed.

Lemma opd_block s addr : opd s0 s → 0 ≤ addr < ba2addr (ni s0) (data_block_count (ni s0)) →
  0 ≤ addr2ba (ni s) addr < block_count (ni s0).
Proof.
  intros Ho Ha. rewrite <- (opd_avail s Ho) in Ha. destruct (addr2ba_lt _ _ (proj1 Ho) Ha).
  pose proof (wf_data _ (proj1 Ho)). rewrite (opd_count _ _ Ho) in *. lia.
Qed.

Lemma wp_erase_block_range addr size me s Q :
  opd s0 s → 0 ≤ addr → 0 ≤ size → addr + size < 2 ^ 64 →
  (∀ r s', opd s0 s' → Q r s') → wp F (nmbm_erase_block_range fuel addr size) me s Q.
Proof.
  intros Ho Ha Hs Hw HQ. unfold nmbm_erase_block_range. wsteps.
  destruct (negb _); [by apply wp_ret, HQ|]. wsteps. rewrite (opd_avail s Ho).
  case Z.leb_spec; intros H1; [by apply wp_ret, HQ|].
  unfold u64 at 1. rewrite Z.mod_small by lia.
  case Z.ltb_spec; intros H2; [by apply wp_ret, HQ|].
  case Z.eqb_spec; intros H3; [by apply wp_ret, HQ|]. wsteps.
  pose proof (opd_block s addr Ho ltac:(lia)) as Hb1.
  unfold u64. rewrite Z.mod_small by lia.
  pose proof (opd_block s (addr + size - 1) Ho ltac:(lia)) as Hb2.
  apply (wp_for_brk_to _ (λ _ _ s', opd s0 s')); [done| |by intros; wsteps; apply HQ].
  intros i r s1 Hi Ho1. wsteps. apply wp_erase_logic; [done|lia|]. intros rc s2 Ho2.
  destruct (negb _); wsteps; [by apply HQ|done].
Qed.

Lemma wp_phys_addr addr me s (Q : option (Z * Z) → nmbm D → Prop) :
  opd s0 s → 0 ≤ addr < ba2addr (ni s0) (data_block_count (ni s0)) →
  (∀ r, (∀ pb a, r = Some (pb, a) → 0 ≤ pb < block_count (ni s0)) → Q r s) →
  wp F (phys_addr addr) me s Q.
Proof.
  intros Ho Ha HQ. unfold phys_addr. wsteps. pose proof (opd_block s addr Ho Ha).
  pose proof (opd_count _ _ Ho) as Hc. apply wp_get_mapping; [apply Ho|lia|]. intros pb _ Hpb.
  case Z.ltb_spec; intros Hn; [by apply wp_ret, HQ|]. wsteps.
  apply wp_get_block_state; [apply Ho|lia|]. intros st _ _ _.
  destruct (_ =? _); [by apply wp_ret, HQ|]. wsteps. apply HQ. intros ? ? [= <- <-]. lia.
Qed.

Lemma opd_lower_ok s : opd s0 s → lower_ok (lower (ni s)).
Proof. intros [W _]. apply W. Qed.

Lemma wp_read_logic_page addr data oob mode me s Q :
  opd s0 s → 0 ≤ addr < ba2addr (ni s0) (data_block_count (ni s0)) →
  (∀ rc data' oob' s', read_only_step s s' → length <$> data' = length <$> data →
     length <$> oob' = length <$> oob → Q (rc, data', oob') s') →
  wp F (nmbm_read_logic_page addr data oob mode) me s Q.
Proof.
  intros Ho Ha HQ. unfold nmbm_read_logic_page. wsteps. apply wp_phys_addr; [done..|].
  intros r Hr. destruct r as [[pb a]|]; [|apply wp_ret, HQ; [apply read_only_step_refl|done..]].
  apply wp_read_phys_page; [by apply opd_lower_ok|]. intros. apply HQ; [|done..].
  split; [apply paged_dev|done].
Qed.

Lemma range_chunk_bounds s off rem :
  opd s0 s → 0 < rem → 0 ≤ off →
  let '(leading, chunk) := range_chunk (ni s) off rem in
  0 ≤ leading ≤ off ∧ 0 < chunk ≤ rem ∧ leading + chunk ≤ writesize (lower (ni s)) ∧
  writesize (lower (ni s)) < zlen (page_cache (ni s)) ∧
  (chunk = writesize (lower (ni s)) → leading = 0).
Proof.
  intros [W _] Hrem Hoff. pose proof (page_chunk_bounds s off rem (wf_geom _ W) Hrem) as H.
  unfold page_chunk, range_chunk in *. destruct (wf_geom _ W).
  destruct g_page as [Hw (k & Hk & He)].
  replace (writesize_mask (ni s)) with (Z.ones k) in * by (rewrite g_mask, He, Z.ones_equiv; lia).
  rewrite Z.land_ones in * by lia. pose proof (Z.mod_pos_bound off (2 ^ k) ltac:(lia)).
  pose proof (Z.mod_le off (2 ^ k) Hoff ltac:(lia)). unfold u32, u64 in *.
  rewrite (Z.mod_small (writesize (lower (ni s)) - off `mod` 2 ^ k) (2 ^ 32)) in H by lia.
  rewrite (Z.mod_small (writesize (lower (ni s)) - off `mod` 2 ^ k) (2 ^ 64)) by lia.
  destruct H as (? & ? & ? & ?). split_and!; done || lia.
Qed.

Lemma wp_read_range addr size data mode me s Q :
  opd s0 s → 0 ≤ addr → 0 ≤ size → addr + size < 2 ^ 64 → zlen data = size →
  (∀ r s', read_only_step s s' → Q r s') → wp F (nmbm_read_range addr size data mode) me s Q.
Proof.
  intros Ho Ha Hs Hw Hlen HQ. unfold nmbm_read_range. wsteps. pose proof (read_only_step_refl s) as Hrefl.
  destruct (cbool _); [by apply wp_ret, HQ|]. wsteps. rewrite (opd_avail s Ho).
  case Z.leb_spec; intros H1; [by apply wp_ret, HQ|].
  unfold u64 at 1. rewrite Z.mod_small by lia.
  case Z.ltb_spec; intros H2; [by apply wp_ret, HQ|].
  case Z.eqb_spec; intros H3; [by apply wp_ret, HQ|]. wsteps.
  apply (wp_while_brk _ (λ r s', read_only_step s s' ∧ 0 ≤ rr_pos r ≤ size ∧ zlen (rr_data r) = size) _
    (λ r _, size - rr_pos r)); [split_and!; simpl; done || lia|simpl; lia|].
  rename s into s1, Ho into Ho1. intros r s (Hs1 & Hpos & Hl). split; [lia|]. unfold read_range_step.
  pose proof (opd_paged _ _ Ho1 (proj1 Hs1)) as Ho.
  case Z.eqb_spec; intros H4; [wsteps; by apply HQ|]. wsteps.
  assert (Hoff : u64 (addr + rr_pos r) = addr + rr_pos r) by (unfold u64; rewrite Z.mod_small; lia).
  rewrite Hoff.
  pose proof (range_chunk_bounds s (addr + rr_pos r) (size - rr_pos r) Ho ltac:(lia) ltac:(lia)) as Hb.
  destruct (range_chunk _ _ _) as [leading chunk]. destruct Hb as (Hld & Hch & Hsum & Hpc & _). wsteps.
  match goal with |- wp _ ?m _ _ _ =>
    assert (Hm : wp F m me s (λ x s', read_only_step s s' ∧ zlen x.2 = size)) end.
  { case Z.eqb_spec; intros Hcw; wsteps.
    - apply (wp_some _ _ _ _ _ _ (mem_read_ok (rr_data r) (rr_pos r) (writesize (lower (ni s)))
        ltac:(lia) ltac:(lia) ltac:(lia))). wsteps.
      apply wp_read_logic_page; [done|lia|]. intros rc data' oob' s' Hp (page & -> & Hlp)%fmap_length_Some _.
      rewrite zlen_zslice in Hlp by lia. wsteps. apply (wp_some _ _ page); [done|]. wsteps.
      destruct (mem_copy_ok (rr_data r) (rr_pos r) page (writesize (lower (ni s)))) as (d & Hd & Hld'); [lia..|].
      apply (wp_some _ _ d); [done|]. wsteps. split; [done|simpl; lia].
    - destruct (cache_split s) as (Hcd & Hco & Hc); [apply Ho|].
      apply wp_read_logic_page; [done|lia|]. intros rc data' oob' s' [Hp Hrd] (page & -> & Hlp)%fmap_length_Some _.
      wsteps. apply (wp_some _ _ page); [done|]. wsteps. cbn [ni dev].
      set (s'' := Nmbm _ _).
      assert (Hp' : paged s s'').
      { eapply paged_trans; [exact Hp|]. exists (page ++ cache_oob (ni s')). split; [done|].
        destruct Hp as (pc & He & Hpl). destruct (cache_split s') as (Hcd' & Hco' & Hc').
        { eapply paged_geom; [by exists pc|apply Ho]. }
        rewrite Hc', !zlen_app, Hlp, Hcd, Hcd'. by rewrite He. }
      assert (Hs'' : read_only_step s s'') by done.
      destruct (fatal rc); wsteps; [done|].
      assert (Hpl : zlen (page_cache (ni s'')) = zlen (page_cache (ni s))).
      { destruct Hp' as (pc & -> & Hpl). done. }
      apply (wp_some _ _ _ _ _ _ (mem_read_ok (page_cache (ni s'')) leading chunk
        ltac:(lia) ltac:(lia) ltac:(lia))). wsteps.
      destruct (mem_copy_ok (rr_data r) (rr_pos r) (zslice (page_cache (ni s'')) leading chunk) chunk)
        as (d & Hd & Hld'); [lia|rewrite zlen_zslice by lia; lia|lia|].
      apply (wp_some _ _ d); [done|]. wsteps. split; [done|simpl; lia]. }
  eapply wp_mono; [exact Hm|]. intros [rc d] s' [Hs' Hd]. simpl in Hd.
  pose proof (read_only_step_trans _ _ _ Hs1 Hs') as Hs1'.
  destruct (fatal rc); wsteps; [by apply HQ|]. simpl. split_and!; done || lia.
Qed.

Lemma wp_read_single_page addr data oob mode me s Q :
  opd s0 s → 0 ≤ addr →
  (∀ rc data' oob' s', read_only_step s s' → length <$> data' = length <$> data →
     length <$> oob' = length <$> oob → Q (rc, data', oob') s') →
  wp F (nmbm_read_single_page addr data oob mode) me s Q.
Proof.
  intros Ho Ha HQ. unfold nmbm_read_single_page. wsteps. pose proof (read_only_step_refl s).
  destruct (cbool _); [by apply wp_ret, HQ|]. wsteps. rewrite (opd_avail s Ho).
  case Z.leb_spec; intros H1; [by apply wp_ret, HQ|].
  apply wp_read_logic_page; [done|lia|]. intros. by apply HQ.
Qed.

(** A failed write marks the block and updates the tables. *)
Lemma wp_write_failed pb me s (Q : Z → nmbm D → Prop) :
  opd s0 s → 0 ≤ pb < block_count (ni s0) → (∀ r s', opd s0 s' → Q r s') →
  wp F (write_failed fuel pb) me s Q.
Proof.
  intros Ho Hpb HQ. unfold write_failed. wsteps. pose proof (opd_count _ _ Ho).
  apply wp_set_state; [apply Ho|lia|]. intros b s1 Ho1 _. wsteps.
  apply (wp_update_then me s0); [by eapply opd_trans|done|]. intros r s2 Ho2 _. wsteps. by apply HQ.
Qed.

Lemma wp_write_logic_page addr data oob mode me s (Q : Z → nmbm D → Prop) :
  opd s0 s → 0 ≤ addr < ba2addr (ni s0) (data_block_count (ni s0)) →
  (∀ r s', opd s0 s' → Q r s') → wp F (nmbm_write_logic_page fuel addr data oob mode) me s Q.
Proof.
  intros Ho Ha HQ. unfold nmbm_write_logic_page. wsteps. apply wp_phys_addr; [done..|].
  intros r Hr. destruct r as [[pb a]|]; [|by apply wp_ret, HQ]. wsteps.
  apply wp_write_phys_page; [by apply opd_lower_ok|]. intros b d.
  pose proof (opd_paged _ _ Ho (paged_dev s d)) as Ho1.
  destruct b; [by apply wp_ret, HQ|]. apply wp_write_failed; [done|by eapply Hr|done].
Qed.

Lemma wp_write_single_page addr data oob mode me s (Q : Z → nmbm D → Prop) :
  opd s0 s → 0 ≤ addr → (∀ r s', opd s0 s' → Q r s') →
  wp F (nmbm_write_single_page fuel addr data oob mode) me s Q.
Proof.
  intros Ho Ha HQ. unfold nmbm_write_single_page. wsteps.
  destruct (negb _); [by apply wp_ret, HQ|]. wsteps. rewrite (opd_avail s Ho).
  case Z.leb_spec; intros H1; [by apply wp_ret, HQ|]. apply wp_write_logic_page; [done|lia|done].
Qed.

Lemma wp_panic_write_single_page addr data me s (Q : Z → nmbm D → Prop) :
  opd s0 s → 0 ≤ addr → is_Some (panic_write_page (lower (ni s0))) → (∀ r s', opd s0 s' → Q r s') →
  wp F (nmbm_panic_write_single_page fuel addr data) me s Q.
Proof.
  intros Ho Ha [f Hf] HQ. unfold nmbm_panic_write_single_page. wsteps.
  destruct (negb _); [by apply wp_ret, HQ|]. wsteps. rewrite (opd_avail s Ho).
  case Z.leb_spec; intros H1; [by apply wp_ret, HQ|]. unfold nmbm_panic_write_logic_page. wsteps.
  apply wp_phys_addr; [done|lia|]. intros r Hr. destruct r as [[pb a]|]; [|by apply wp_ret, HQ]. wsteps.
  assert (Hp : wp F (nmbm_panic_write_phys_page a data) me s (λ _ s', ∃ d, s' = Nmbm (ni s) d)).
  { unfold nmbm_panic_write_phys_page. wsteps. destruct (read_only _); [apply wp_ret; exists (dev s); by destruct s|].
    wsteps. apply (wp_some _ _ f); [by destruct Ho as [_ [= ->]]|]. apply wp_with_retry. eauto. }
  eapply wp_mono; [exact Hp|]. intros b s' [d ->].
  pose proof (opd_paged _ _ Ho (paged_dev s d)) as Ho1.
  destruct b; [by apply wp_ret, HQ|]. apply wp_write_failed; [done|by eapply Hr|done].
Qed.

Lemma wp_write_range addr size data mode me s Q :
  opd s0 s → 0 ≤ addr → 0 ≤ size → addr + size < 2 ^ 64 → zlen data = size →
  (∀ r s', opd s0 s' → Q r s') → wp F (nmbm_write_range fuel addr size data mode) me s Q.
Proof.
  intros Ho Ha Hs Hw Hlen HQ. unfold nmbm_write_range. wsteps.
  destruct (negb _); [by apply wp_ret, HQ|]. wsteps. rewrite (opd_avail s Ho).
  case Z.leb_spec; intros H1; [by apply wp_ret, HQ|].
  unfold u64 at 1. rewrite Z.mod_small by lia.
  case Z.ltb_spec; intros H2; [by apply wp_ret, HQ|].
  case Z.eqb_spec; intros H3; [by apply wp_ret, HQ|]. wsteps.
  apply (wp_while_brk _ (λ r s', opd s0 s' ∧ 0 ≤ r.2 ≤ size) _ (λ r _, size - r.2));
    [split_and!; simpl; done || lia|simpl; lia|].
  clear Ho s. intros [rc pos] s (Ho & Hpos). simpl in Hpos. split; [simpl; lia|].
  unfold write_range_step. cbn [snd].
  case Z.eqb_spec; intros H4; [wsteps; by apply HQ|]. wsteps.
  assert (Hoff : u64 (addr + pos) = addr + pos) by (unfold u64; rewrite Z.mod_small; lia). rewrite Hoff.
  pose proof (range_chunk_bounds s (addr + pos) (size - pos) Ho ltac:(lia) ltac:(lia)) as Hb.
  destruct (range_chunk _ _ _) as [leading chunk]. destruct Hb as (Hld & Hch & Hsum & Hpc & _). wsteps.
  apply (wp_some _ _ _ _ _ _ (mem_read_ok data pos chunk ltac:(lia) ltac:(lia) ltac:(lia))). wsteps.
  match goal with |- wp _ ?m _ _ _ => assert (Hm : wp F m me s (λ _ s', opd s0 s')) end.
  { case Z.eqb_spec; intros Hcw; [apply wp_write_logic_page; [done|lia|done]|]. wsteps.
    destruct (mem_fill_ok (page_cache (ni s)) 0 leading 0xff) as (pc & Hf & Hl1); [lia..|].
    apply (wp_some _ _ pc); [done|]. wsteps.
    destruct (mem_copy_ok pc leading (zslice data pos chunk) chunk) as (pc' & Hf' & Hl2);
      [lia|rewrite zlen_zslice by lia; lia|lia|].
    apply (wp_some _ _ pc'); [done|]. wsteps. apply wp_write_logic_page; [|lia|done].
    eapply opd_paged; [exact Ho|]. exists pc'. split; [done|lia]. }
  eapply wp_mono; [exact Hm|]. intros rc' s' Ho'. destruct (negb _); wsteps; [by apply HQ|].
  simpl. split_and!; done || lia.
Qed.

Lemma wp_check_bad_block addr me s (Q : Z → nmbm D → Prop) :
  opd s0 s → 0 ≤ addr → (∀ r, Q r s) → wp F (nmbm_check_bad_block addr) me s Q.
Proof.
  intros Ho Ha HQ. unfold nmbm_check_bad_block. wsteps. rewrite (opd_avail s Ho).
  case Z.leb_spec; intros H1; [by apply wp_ret, HQ|]. wsteps.
  pose proof (opd_block s addr Ho ltac:(lia)). pose proof (opd_count _ _ Ho).
  apply wp_get_mapping; [apply Ho|lia|]. intros pb _ Hpb.
  case Z.ltb_spec; intros Hn; [by apply wp_ret, HQ|]. wsteps.
  apply wp_get_block_state; [apply Ho|lia|]. intros st _ _ _. wsteps. by apply HQ.
Qed.

Lemma wp_mark_bad_block addr me s (Q : Z → nmbm D → Prop) :
  opd s0 s → 0 ≤ addr → (∀ r s', opd s0 s' → Q r s') → wp F (nmbm_mark_bad_block fuel addr) me s Q.
Proof.
  intros Ho Ha HQ. unfold nmbm_mark_bad_block. wsteps.
  destruct (negb _); [by apply wp_ret, HQ|]. wsteps. rewrite (opd_avail s Ho).
  case Z.leb_spec; intros H1; [by apply wp_ret, HQ|]. wsteps.
  pose proof (opd_block s addr Ho ltac:(lia)). pose proof (opd_count _ _ Ho).
  apply wp_get_mapping; [apply Ho|lia|]. intros pb _ Hpb.
  case Z.ltb_spec; intros Hn; [by apply wp_ret, HQ|]. wsteps.
  apply wp_set_mapping; [apply Ho|lia|lia|]. intros Ho1. set (s1 := Nmbm _ _) in *. unfold mark_bad. wsteps.
  assert (Ho1' : opd s0 s1) by (by eapply opd_trans).
  apply (wp_mark_phys_bad_block s1); [apply Ho1|apply paged_refl|]. intros r s2 Hp2.
  pose proof (opd_paged _ _ Ho1' Hp2) as Ho2. pose proof (opd_count _ _ Ho2). wsteps.
  apply wp_set_state; [apply Ho2|lia|]. intros b s3 Ho3 _. wsteps.
  apply (wp_update_then me s0); [by eapply opd_trans|done|]. intros r' s4 Ho4 _. wsteps. by apply HQ.
Qed.

Lemma wp_detach me s (Q : Z → nmbm D → Prop) :
  opd s0 s → (∀ r s', opd s0 s' → Q r s') → wp F (nmbm_detach fuel) me s Q.
Proof.
  intros Ho HQ. unfold nmbm_detach. wsteps. destruct (negb _); wsteps; [|by apply HQ].
  apply (wp_update_then me s0); [done..|]. intros r s' Ho' _. wsteps. by apply HQ.
Qed.
End Ops.
End Api.

(** ** Sequences of calls *)

(** The calls of the interface of nmbm.h on an attached instance. *)
Inductive nmbm_call :=
| EraseBlockRange (addr size : Z)
| ReadSinglePage (addr : Z) (data oob : option (list Z)) (mode : nmbm_oob_mode)
| ReadRange (addr size : Z) (data : list Z) (mode : nmbm_oob_mode)
| WriteSinglePage (addr : Z) (data oob : option (list Z)) (mode : nmbm_oob_mode)
| PanicWriteSinglePage (addr : Z) (data : list Z)
| WriteRange (addr size : Z) (data : list Z) (mode : nmbm_oob_mode)
| CheckBadBlock (addr : Z)
| MarkBadBlock (addr : Z)
| Detach.

Section Calls.
Context {D : Type} (fuel : nat).
Implicit Types s : nmbm D.

Definition run_call (c : nmbm_call) : M (nmbm D) Z :=
  match c with
  | EraseBlockRange addr size => '(rc, _) ← nmbm_erase_block_range fuel addr size; ret rc
  | ReadSinglePage addr data oob mode => '(rc, _, _) ← nmbm_read_single_page addr data oob mode; ret rc
  | ReadRange addr size data mode => '(rc, _, _) ← nmbm_read_range addr size data mode; ret rc
  | WriteSinglePage addr data oob mode => nmbm_write_single_page fuel addr data oob mode
  | PanicWriteSinglePage addr data => nmbm_panic_write_single_page fuel addr data
  | WriteRange addr size data mode => '(rc, _) ← nmbm_write_range fuel addr size data mode; ret rc
  | CheckBadBlock addr => nmbm_check_bad_block addr
  | MarkBadBlock addr => nmbm_mark_bad_block fuel addr
  | Detach => nmbm_detach fuel
  end.

Fixpoint run_calls (cs : list nmbm_call) : M (nmbm D) (list Z) :=
  match cs with
  | [] => ret []
  | c :: cs' => rc ← run_call c; rcs ← run_calls cs'; ret (rc :: rcs)
  end.

(** What a caller has to respect: 64-bit addresses, ranges that do not wrap
    around, buffers of the size given, and no panic write without the function
    of the device it needs. *)
Definition call_ok (l : nmbm_lower_device D) (c : nmbm_call) : Prop :=
  match c with
  | EraseBlockRange addr size => 0 ≤ addr ∧ 0 ≤ size ∧ addr + size < 2 ^ 64
  | ReadRange addr size data _ | WriteRange addr size data _ =>
      0 ≤ addr ∧ 0 ≤ size ∧ addr + size < 2 ^ 64 ∧ zlen data = size
  | ReadSinglePage addr _ _ _ | WriteSinglePage addr _ _ _ | CheckBadBlock addr | MarkBadBlock addr => 0 ≤ addr
  | PanicWriteSinglePage addr _ => 0 ≤ addr ∧ is_Some (panic_write_page l)
  | Detach => True
  end.

Lemma wp_run_call c me s0 s :
  opd s0 s → block_count (ni s0) + 2 < Z.of_nat fuel → call_ok (lower (ni s0)) c →
  wp (λ _, False) (run_call c) me s (λ _ s', opd s0 s').
Proof.
  intros Ho Hfuel Hc. destruct c; simpl in *; unfold call_ok in Hc.
  - wsteps. apply (wp_erase_block_range fuel s0); [done..|tauto|tauto|tauto|]. intros [] s' Ho'. by wsteps.
  - wsteps. apply (wp_read_single_page fuel s0); [done..|]. intros rc data' oob' s' [Hp _] _ _. wsteps. by eapply opd_paged.
  - wsteps. apply (wp_read_range fuel s0); [done..|tauto|tauto|tauto|tauto|]. intros [[] ] s' [Hp _]. wsteps.
    by eapply opd_paged.
  - by apply (wp_write_single_page fuel s0).
  - apply (wp_panic_write_single_page fuel s0); [done..|tauto|tauto|done].
  - wsteps. apply (wp_write_range fuel s0); [done..|tauto|tauto|tauto|tauto|]. intros [] s' Ho'. by wsteps.
  - by apply (wp_check_bad_block fuel s0).
  - by apply (wp_mark_bad_block fuel s0).
  - by apply (wp_detach fuel s0).
Qed.
End Calls.
