(* ===== verification/NmbmStore.v ===== *)
(** * NMBM: the flash as a store of bytes

    What NMBM promises to its callers: over a chip that keeps what was written
    to it, logic addresses are a store.  The promise of the chip is the class
    [StableNand]; the store is [logic_byte]. *)

From stdpp Require Import base list numbers list_numbers.
From Stdlib Require Import ZArith Lia.
From S2P Require Import Prelude Bytes Crc32 NmbmTypes NmbmCore NmbmTables.
From S2P Require Import NmbmIo NmbmOps NmbmLayout NmbmWf NmbmSafe NmbmImage.
From S2P Require Import NmbmWalk NmbmBlocks NmbmTableSafe NmbmApi.
Open Scope Z_scope.

(** ** The chip *)

(** An erased page. *)
Definition erased {D} (l : nmbm_lower_device D) : list Z := replicate (Z.to_nat (writesize l)) 0xff.

(** What NMBM relies on.  Every operation may fail.  Reading and resetting the
    chip change no page, and a read that reports no error returns the page.
    Writing a page changes no other page; an erased page can be programmed
    with any contents, a failed write can be repeated with the same contents,
    and a page that could be programmed holds what a successful write was
    given.  After a successful erasure all pages of the block are erased. *)
Class StableNand {D} (l : nmbm_lower_device D) := {
  page_at : D → Z → list Z;
  programmable : D → Z → list Z → Prop;
  sn_read : ∀ f addr data oob mode d, read_page l = Some f →
    let '(rc, data', _, d') := f addr data oob mode d in
    (∀ a, page_at d' a = page_at d a) ∧
    (0 ≤ rc → ∀ buf, data = Some buf → zlen buf = writesize l → data' = Some (page_at d addr));
  sn_erased : ∀ d addr p, page_at d addr = erased l → zlen p = writesize l → programmable d addr p;
  sn_write : ∀ f addr p oob mode d, write_page l = Some f → zlen p = writesize l →
    let '(rc, d') := f addr (Some p) oob mode d in
    (∀ a, a ≠ addr → page_at d' a = page_at d a) ∧
    (programmable d addr p → if rc =? 0 then page_at d' addr = p else programmable d' addr p);
  sn_erase : ∀ f addr d, erase_block l = Some f →
    let '(rc, d') := f addr d in
    rc = 0 → ∀ o, 0 ≤ o < erasesize l → o `mod` writesize l = 0 → page_at d' (addr + o) = erased l;
  sn_reset : ∀ f d, reset_chip l = Some f →
    (∀ a, page_at (f d).2 a = page_at d a) ∧ (∀ a p, programmable d a p → programmable (f d).2 a p);
}.

(** Two device states with the same pages. *)
Definition same_pages {D} {l : nmbm_lower_device D} {SN : StableNand l} (d d' : D) : Prop :=
  ∀ a, page_at d' a = page_at d a.

(** ** Lists and chunks *)

Lemma zget_take (b : list Z) n j : 0 ≤ j < n → zget (take (Z.to_nat n) b) j = zget b j.
Proof. intros Hj. unfold zget. rewrite !decide_True by lia. by rewrite lookup_take_lt by lia. Qed.

Lemma zget_zslice (b : list Z) off n j : 0 ≤ off → 0 ≤ j < n → zget (zslice b off n) j = zget b (off + j).
Proof.
  intros Ho Hj. unfold zget, zslice. rewrite !decide_True by lia.
  rewrite lookup_take_lt, lookup_drop by lia. f_equal. lia.
Qed.

Lemma zget_mem_copy dst off src n dst' j :
  mem_copy dst off src n = Some dst' → 0 ≤ j < n → zget dst' (off + j) = zget src j.
Proof.
  intros Hc Hj. pose proof (mem_copy_read _ _ _ _ _ Hc) as Hr. unfold mem_read in Hr.
  case_decide as Hd; [|done]. injection Hr as Hr.
  rewrite <- (zget_zslice dst' off n) by lia. rewrite Hr. by apply zget_take.
Qed.

Lemma zget_mem_copy_other dst off src n dst' j :
  mem_copy dst off src n = Some dst' → 0 ≤ j → j < off ∨ off + n ≤ j → zget dst' j = zget dst j.
Proof.
  intros Hc Hj Ho. pose proof (mem_copy_len _ _ _ _ _ Hc) as Hl.
  destruct (decide (j < zlen dst)) as [Hin|Hin]; [|by rewrite !zget_None by lia].
  pose proof (mem_copy_read_other _ _ _ _ _ j 1 Hc Hj ltac:(lia) ltac:(lia)) as Hr.
  rewrite !mem_read_ok in Hr by lia. injection Hr as Hr.
  replace j with (j + 0) by lia. rewrite <- (zget_zslice dst' j 1), <- (zget_zslice dst j 1) by lia.
  by rewrite Hr.
Qed.

(** The page of the byte at [x] starts at [page_base w x]. *)
Definition page_base (w x : Z) : Z := x - x `mod` w.

Lemma page_base_chunk w off j :
  0 < w → 0 ≤ j → off `mod` w + j < w →
  page_base w (off + j) = page_base w off ∧ (off + j) `mod` w = off `mod` w + j.
Proof.
  intros Hw Hj Hlt. pose proof (Z.mod_pos_bound off w Hw).
  assert (He : (off + j) `mod` w = off `mod` w + j).
  { symmetry. apply (Z.mod_unique_pos _ _ (off / w)); [lia|]. pose proof (Z.div_mod off w). lia. }
  unfold page_base. rewrite He. lia.
Qed.

Lemma page_base_mod w E x : 0 < w → 0 < E → E `mod` w = 0 → page_base w x / E = x / E.
Proof.
  intros Hw HE Hdiv. unfold page_base. pose proof (Z.mod_pos_bound x w Hw) as Hm.
  apply Z.mod_divide in Hdiv as [q Hq]; [|lia].
  symmetry. apply (Z.div_unique_pos _ _ _ (x `mod` E - x `mod` w)).
  - pose proof (Z.mod_pos_bound x E HE).
    assert (x `mod` w = (x `mod` E) `mod` w).
    { rewrite (Z.div_mod x E) at 1 by lia. rewrite Hq at 1.
      replace (q * w * (x / E) + x `mod` E) with (x `mod` E + q * (x / E) * w) by ring.
      by rewrite Z.mod_add by lia. }
    pose proof (Z.mod_le (x `mod` E) w). lia.
  - pose proof (Z.div_mod x E). lia.
Qed.

Lemma page_base_aligned w x : 0 < w → page_base w x `mod` w = 0.
Proof.
  intros Hw. unfold page_base. replace (x - x `mod` w) with (x / w * w) by (pose proof (Z.div_mod x w); lia).
  apply Z.mod_mul. lia.
Qed.

Lemma page_base_mono w x y : 0 < w → x ≤ y → page_base w x ≤ page_base w y.
Proof.
  intros Hw Hxy. unfold page_base. pose proof (Z.div_le_mono x y w Hw Hxy).
  pose proof (Z.div_mod x w). pose proof (Z.div_mod y w). nia.
Qed.

(** ** Single pages *)

Ltac lstep :=
  lazymatch goal with
  | |- wlp (bind _ _) _ _ _ => apply wlp_bind
  | |- wlp (ret _) _ _ _ => apply wlp_ret
  | |- wlp (getn _) _ _ _ => apply wlp_gets
  | |- wlp (modn _) _ _ _ => apply wlp_modify
  | |- wlp (some _) _ _ _ => apply wlp_some; intros ? ?
  end; cbv beta.
Ltac lsteps := repeat lstep.

Section Pages.
Context {D : Type} (l : nmbm_lower_device D) {SN : StableNand l}.
Implicit Types (s : nmbm D) (n : nmbm_instance D).

Lemma wlp_lower_call {A} (f : D → A * D) me s (Q : A → nmbm D → Prop) :
  (∀ a d, f (dev s) = (a, d) → Q a (Nmbm (ni s) d)) → wlp (lower_call f) me s Q.
Proof. unfold wlp, lower_call. intros H. destruct (f (dev s)) as [a d] eqn:He. auto. Qed.

Lemma wlp_reset me s (Q : unit → nmbm D → Prop) :
  lower (ni s) = l →
  (∀ d, same_pages (dev s) d → (∀ a p, programmable (dev s) a p → programmable d a p) →
     Q tt (Nmbm (ni s) d)) →
  wlp nmbm_reset_chip me s Q.
Proof.
  intros Hl HQ. unfold nmbm_reset_chip. lsteps. rewrite Hl. destruct (reset_chip l) as [f|] eqn:Hf.
  - lsteps. apply wlp_lower_call. intros r d Hd. lsteps.
    pose proof (sn_reset f (dev s) Hf) as [Hs1 Hs2]. rewrite Hd in Hs1, Hs2. apply HQ; assumption.
  - lsteps. destruct s. by apply HQ.
Qed.

Lemma wlp_read_phys_page addr buf oob mode me s Q :
  lower (ni s) = l → zlen buf = writesize l → lower_ok l →
  (∀ rc p oob' d, same_pages (dev s) d → zlen p = writesize l → (0 ≤ rc → p = page_at (dev s) addr) →
     Q (rc, Some p, oob') (Nmbm (ni s) d)) →
  wlp (nmbm_read_phys_page addr (Some buf) oob mode) me s Q.
Proof.
  intros Hl Hb [(f & Hf & Hlen) _ _] HQ. unfold nmbm_read_phys_page. lsteps.
  match goal with H : read_page _ = Some _ |- _ => rewrite Hl, Hf in H; injection H as <- end.
  apply (wlp_for_brk_to (λ i r s', ni s' = ni s ∧ same_pages (dev s) (dev s') ∧
    (i ≠ 0 → r.1.1 < 0) ∧ length <$> r.1.2 = Some (length buf))); [done| |].
  - intros i [[rc data] oob1] s1 _ (Hn & Hp & _ & Hd). cbn [fst snd] in Hd. lsteps.
    apply wlp_lower_call. intros [[rc' data'] oob'] d Hc.
    pose proof (sn_read f addr data oob1 mode (dev s1) Hf) as Hr.
    specialize (Hlen addr data oob1 mode (dev s1)). rewrite Hc in Hr, Hlen.
    destruct Hr as [Hr1 Hr2], Hlen as [Hl1 _].
    assert (Hp' : same_pages (dev s) d) by (intros a; by rewrite Hr1, Hp). cbn [fst snd].
    case Z.leb_spec; intros Hrc; lsteps.
    + rewrite Hn. destruct data as [b|]; [|done]. injection Hd as Hd.
      pose proof (Hr2 Hrc b eq_refl ltac:(unfold zlen in *; lia)) as ->. injection Hl1 as Hl1.
      apply HQ; [done|unfold zlen in *; lia|]. intros _. by rewrite Hp.
    + apply wlp_reset; [by rewrite <- Hl, <- Hn|]. cbn [ni dev]. intros d' Hs' _. lsteps. cbn [ni dev fst snd].
      split_and!; [done|intros a; by rewrite Hs', Hp'|lia|congruence].
  - intros [[rc data] oob'] [n' d'] (Hn & Hp & Hrc & Hd). lsteps. cbn [ni dev fst snd] in *. subst n'.
    destruct data as [b|]; [|done]. injection Hd as Hd.
    apply HQ; [done|unfold zlen in *; lia|]. change (Z.max 0 (NMBM_TRY_COUNT - 1 + 1)) with NMBM_TRY_COUNT in Hrc.
    specialize (Hrc ltac:(done)). lia.
Qed.

(** A write or an erasure with its retries: [I] holds before every try and
    [J] after the one that succeeds. *)
Lemma wlp_with_retry (I J : D → Prop) f me s (Q : bool → nmbm D → Prop) :
  lower (ni s) = l → I (dev s) →
  (∀ d d', I d → same_pages d d' → (∀ a p, programmable d a p → programmable d' a p) → I d') →
  (∀ d, I d → let '(rc, d') := f d in if rc =? 0 then J d' else I d') →
  (∀ b d, (if b : bool then J d else I d) → Q b (Nmbm (ni s) d)) →
  wlp (with_retry f) me s Q.
Proof.
  intros Hl HI Hres Hf HQ. unfold with_retry. lsteps.
  apply (wlp_for_brk_to (λ _ b s', ni s' = ni s ∧ b = false ∧ I (dev s'))); [done| |].
  - intros i b s1 _ (Hn & _ & HI1). lsteps. apply wlp_lower_call. intros rc d Hd.
    specialize (Hf _ HI1). rewrite Hd in Hf. destruct (rc =? 0); lsteps.
    + rewrite Hn. by apply HQ.
    + apply wlp_reset; [by rewrite <- Hl, <- Hn|]. cbn [ni dev]. intros d' Hs Hp. lsteps.
      split_and!; [done..|by apply (Hres d)].
  - intros b [n' d'] (Hn & -> & HI1). lsteps. cbn [ni dev] in *. subst n'. by apply HQ.
Qed.

Lemma wlp_write_phys_page addr p oob mode me s (Q : bool → nmbm D → Prop) :
  lower (ni s) = l → zlen p = writesize l → page_at (dev s) addr = erased l →
  (∀ b d, (∀ a, a ≠ addr → page_at d a = page_at (dev s) a) → (b = true → page_at d addr = p) →
     Q b (Nmbm (ni s) d)) →
  wlp (nmbm_write_phys_page addr (Some p) oob mode) me s Q.
Proof.
  intros Hl Hp He HQ. unfold nmbm_write_phys_page. lsteps.
  destruct (read_only _); lsteps; [destruct s; by apply HQ|].
  match goal with H : write_page _ = Some ?f |- _ => rewrite Hl in H; rename f into g, H into Hg end.
  apply (wlp_with_retry
    (λ d, (∀ a, a ≠ addr → page_at d a = page_at (dev s) a) ∧ programmable d addr p)
    (λ d, (∀ a, a ≠ addr → page_at d a = page_at (dev s) a) ∧ page_at d addr = p)); [done| | | |].
  - split; [done|]. by apply sn_erased.
  - intros d d' [Hd Hpr] Hs Hpp. split; [|auto]. intros a Ha. by rewrite Hs, Hd.
  - intros d [Hd Hpr]. pose proof (sn_write g addr p oob mode d Hg Hp) as Hw.
    destruct (g addr (Some p) oob mode d) as [rc d']. destruct Hw as [Hw1 Hw2]. specialize (Hw2 Hpr).
    assert (∀ a, a ≠ addr → page_at d' a = page_at (dev s) a) by (intros a Ha; by rewrite Hw1, Hd).
    by destruct (rc =? 0).
  - intros b d Hb. apply HQ; destruct b; destruct Hb; (assumption || done || by intros).
Qed.
End Pages.

(** ** Logic addresses *)

Section Logic.
Context {D : Type} (l : nmbm_lower_device D) {SN : StableNand l}.
Implicit Types (s : nmbm D) (n : nmbm_instance D).

(** The physical address of the logic address [la]. *)
Definition phys_of (bm : list Z) (la : Z) : option Z :=
  match zget bm (la / erasesize l) with
  | Some pb => if 0 <=? pb then Some (pb * erasesize l + la `mod` erasesize l) else None
  | None => None
  end.

(** The byte at the logic address [x]. *)
Definition logic_byte (bm : list Z) (d : D) (x : Z) : option Z :=
  match phys_of bm (page_base (writesize l) x) with
  | Some pa => zget (page_at d pa) (x `mod` writesize l)
  | None => None
  end.

Lemma phys_of_inj bm la lb pa :
  0 < erasesize l → phys_of bm la = Some pa → phys_of bm lb = Some pa →
  (∀ m, zget bm (la / erasesize l) = Some m → zget bm (lb / erasesize l) = Some m → 0 ≤ m →
     la / erasesize l = lb / erasesize l) → la = lb.
Proof.
  intros HE Ha Hb Hinj. unfold phys_of in *.
  destruct (zget bm (la / _)) as [ma|] eqn:Hma; [|done]. destruct (zget bm (lb / _)) as [mb|] eqn:Hmb; [|done].
  destruct (Z.leb_spec 0 ma); [|done]. destruct (Z.leb_spec 0 mb); [|done].
  injection Ha as Ha. injection Hb as Hb.
  pose proof (Z.mod_pos_bound la _ HE). pose proof (Z.mod_pos_bound lb _ HE).
  destruct (Z.div_mod_unique (erasesize l) ma mb (la `mod` erasesize l) (lb `mod` erasesize l)) as [Hm Hr]; [lia..|].
  subst mb. rewrite (Z.div_mod la (erasesize l)), (Z.div_mod lb (erasesize l)) by lia.
  rewrite (Hinj ma) by done. by rewrite Hr.
Qed.

Lemma ba2addr_exact n ba : nwf n → lower n = l → 0 ≤ ba < block_count n → ba2addr n ba = ba * erasesize l.
Proof.
  intros W Hl Hba. destruct (wf_geom _ W). destruct g_shift as [Hs Hes]. rewrite Hl in *.
  unfold ba2addr, u64. rewrite Z.shiftl_mul_pow2, <- Hes by lia.
  assert (Hlt : ba * erasesize l < block_count n * erasesize l) by (apply Z.mul_lt_mono_pos_r; lia).
  pose proof (Z.mul_nonneg_nonneg ba (erasesize l) ltac:(lia) ltac:(lia)) as Hge.
  apply Z.mod_small. split; [exact Hge|exact (Z.lt_trans _ _ _ Hlt g_chip)].
Qed.

(** nmbm_*_logic_page() go to the physical address. *)
Lemma wlp_phys_addr la me s (Q : option (Z * Z) → nmbm D → Prop) :
  nwf (ni s) → lower (ni s) = l → 0 ≤ la < ba2addr (ni s) (data_block_count (ni s)) →
  Q None s →
  (∀ pb pa, phys_of (block_mapping (ni s)) la = Some pa → Q (Some (pb, pa)) s) →
  wlp (phys_addr la) me s Q.
Proof.
  intros W Hl Ha Hnone Hsome. unfold phys_addr, get_mapping, nmbm_get_block_state. lsteps.
  match goal with H : zget _ _ = Some ?x |- _ => rename H into Hpb, x into pb end.
  destruct (addr2ba_lt _ _ W Ha) as [He _]. rewrite He, Hl in Hpb.
  pose proof (wf_mapping _ W) as Hf. pose proof (g_mapping _ (wf_geom _ W)).
  assert (Hr : -1 ≤ pb < block_count (ni s)).
  { unfold zget in Hpb. case_decide; [|done]. rewrite Forall_lookup in Hf. by eapply Hf. }
  case Z.ltb_spec; intros Hn; lsteps; [done|].
  case Z.eqb_spec; intros Hst; lsteps; [done|]. apply Hsome. unfold phys_of. rewrite Hpb.
  destruct (Z.leb_spec 0 pb); [|lia]. f_equal. destruct (wf_geom _ W). destruct g_shift as [Hs Hes].
  rewrite (ba2addr_exact _ _ W Hl) by lia. f_equal. rewrite g_emask, Hl in *. rewrite Hes.
  replace (2 ^ erasesize_shift (ni s) - 1) with (Z.ones (erasesize_shift (ni s))) by (rewrite Z.ones_equiv; lia).
  by rewrite Z.land_ones by lia.
Qed.

Lemma wlp_read_logic_page la buf oob mode me s Q :
  nwf (ni s) → lower (ni s) = l → 0 ≤ la < ba2addr (ni s) (data_block_count (ni s)) → zlen buf = writesize l →
  (∀ rc p oob' d, same_pages (dev s) d → zlen p = writesize l →
     (0 ≤ rc → ∃ pa, phys_of (block_mapping (ni s)) la = Some pa ∧ p = page_at (dev s) pa) →
     Q (rc, Some p, oob') (Nmbm (ni s) d)) →
  wlp (nmbm_read_logic_page la (Some buf) oob mode) me s Q.
Proof.
  intros W Hl Ha Hb HQ. unfold nmbm_read_logic_page. lsteps. apply wlp_phys_addr; [done..| |].
  - lsteps. destruct s. by apply HQ.
  - intros pb pa Hpa. apply (wlp_read_phys_page l); [done..| |].
    + pose proof (g_lower _ (wf_geom _ W)) as H. by rewrite Hl in H.
    + intros rc p oob' d Hs Hp Hd. apply HQ; [done..|]. intros Hrc. exists pa. auto.
Qed.

Lemma wlp_write_logic_page fuel la p oob mode me s (Q : Z → nmbm D → Prop) :
  nwf (ni s) → lower (ni s) = l → 0 ≤ la < ba2addr (ni s) (data_block_count (ni s)) → zlen p = writesize l →
  (∀ pa, phys_of (block_mapping (ni s)) la = Some pa → page_at (dev s) pa = erased l) →
  (∀ rc s', (rc = 0 → ∃ pa, ni s' = ni s ∧ phys_of (block_mapping (ni s)) la = Some pa ∧
     page_at (dev s') pa = p ∧ ∀ a, a ≠ pa → page_at (dev s') a = page_at (dev s) a) → Q rc s') →
  wlp (nmbm_write_logic_page fuel la (Some p) oob mode) me s Q.
Proof.
  intros W Hl Ha Hp He HQ. unfold nmbm_write_logic_page. lsteps. apply wlp_phys_addr; [done..| |].
  - lsteps. by apply HQ.
  - intros pb pa Hpa. lsteps. apply (wlp_write_phys_page l); [done..|by apply He|].
    intros [] d Hd Hb; lsteps.
    + apply HQ. intros _. exists pa. auto.
    + unfold write_failed. lsteps. eapply wlp_mono; [apply wlp_any|]. intros b1 s1 _. lsteps.
      eapply wlp_mono; [apply wlp_any|]. intros b2 s2 _. lsteps. by apply HQ.
Qed.
End Logic.

(** ** Ranges *)

Section Ranges.
Context {D : Type} (l : nmbm_lower_device D) {SN : StableNand l}.
Implicit Types (s : nmbm D) (n : nmbm_instance D).
Abbreviation w := (writesize l).
Abbreviation E := (erasesize l).

Lemma range_chunk_exact n off rem :
  geom_ok n → lower n = l → 0 < rem → 0 ≤ off →
  range_chunk n off rem = (off `mod` w, Z.min rem (w - off `mod` w)).
Proof.
  intros [] Hl Hrem Hoff. rewrite Hl in *. unfold range_chunk. destruct g_page as [Hw (k & Hk & He)].
  assert (Hland : Z.land off (writesize_mask n) = off `mod` w).
  { rewrite g_mask, He. replace (2 ^ k - 1) with (Z.ones k) by (rewrite Z.ones_equiv; lia).
    by rewrite Z.land_ones by lia. }
  rewrite Hland, Hl. pose proof (Z.mod_pos_bound off w ltac:(lia)).
  unfold u64. rewrite (Z.mod_small (w - off `mod` w)) by lia. f_equal. case Z.ltb_spec; lia.
Qed.

Lemma mem_read_slice b off k r : mem_read b off k = Some r → r = zslice b off k ∧ 0 ≤ off ∧ 0 ≤ k ∧ off + k ≤ zlen b.
Proof. unfold mem_read. case_decide; [|done]. intros [= <-]. split_and!; [done|lia..]. Qed.

(** No two blocks of the range are mapped to the same physical block. *)
Definition range_injective (bm : list Z) (addr size : Z) : Prop :=
  ∀ i j m, addr / E ≤ i ≤ (addr + size - 1) / E → addr / E ≤ j ≤ (addr + size - 1) / E →
    zget bm i = Some m → zget bm j = Some m → 0 ≤ m → i = j.

(** The physical addresses of the pages of a range. *)
Definition in_range (bm : list Z) (addr size a : Z) : Prop :=
  ∃ la, page_base w addr ≤ la < addr + size ∧ la `mod` w = 0 ∧ 0 < size ∧ phys_of l bm la = Some a.

Context (s0 : nmbm D) (W : nwf (ni s0)) (Hl : lower (ni s0) = l) (Hdiv : E `mod` w = 0).
Context (addr size : Z) (Ha : 0 ≤ addr) (Hs : 0 < size).
Context (Hav : addr + size ≤ ba2addr (ni s0) (data_block_count (ni s0))).
Context (H64 : addr + size < 2 ^ 64).
Abbreviation bm := (block_mapping (ni s0)).

Lemma sizes_pos : 0 < w ∧ 0 < E.
Proof using W Hl. destruct (wf_geom _ W). rewrite Hl in *. lia. Qed.

Lemma page_base_le x : 0 ≤ x → 0 ≤ page_base w x ≤ x.
Proof using W Hl.
  destruct sizes_pos as [Hw _]. intros Hx. unfold page_base. pose proof (Z.mod_pos_bound x w Hw).
  pose proof (Z.mod_le x w Hx Hw). lia.
Qed.

(** Addresses of the pages of the range that share a physical address are equal. *)
Lemma range_phys_inj la x pa :
  range_injective bm addr size → addr ≤ x < addr + size → page_base w addr ≤ la < addr + size →
  phys_of l bm la = Some pa → phys_of l bm (page_base w x) = Some pa → la = page_base w x.
Proof using W Hl Hdiv Ha.
  destruct sizes_pos as [Hw HE]. intros Hinj Hx Hla Hpa Hpb. eapply phys_of_inj; [done..|].
  intros m Hma Hmb Hm. rewrite page_base_mod in * by done. eapply Hinj; [| |done..].
  - rewrite <- (page_base_mod w E addr) by done. split; apply Z.div_le_mono; lia.
  - split; apply Z.div_le_mono; lia.
Qed.

Lemma paged_facts s : paged s0 s →
  nwf (ni s) ∧ lower (ni s) = l ∧ block_mapping (ni s) = bm ∧
  ba2addr (ni s) (data_block_count (ni s)) = ba2addr (ni s0) (data_block_count (ni s0)).
Proof using W Hl. intros Hp. split; [by apply (paged_opd s0 s Hp)|]. by destruct Hp as (pc & -> & _). Qed.

Lemma logic_byte_page d x pa :
  phys_of l bm (page_base w x) = Some pa → logic_byte l bm d x = zget (page_at d pa) (x `mod` w).
Proof using. unfold logic_byte. by intros ->. Qed.

(** [pos] bytes of [data] have been stored. *)
Record stored (data : list Z) (pos : Z) s : Prop := {
  st_paged : paged s0 s;
  st_pos : 0 ≤ pos ≤ size;
  st_aligned : pos = 0 ∨ pos = size ∨ (addr + pos) `mod` w = 0;
  st_bytes : ∀ j, 0 ≤ j < pos → logic_byte l bm (dev s) (addr + j) = zget data j;
  st_other : ∀ a, ¬ in_range bm addr pos a → page_at (dev s) a = page_at (dev s0) a;
}.

(** Storing the chunk at [pos]: the page [p] holds it after [leading] bytes. *)
Lemma stored_step data pos s s' pa p :
  let chunk := Z.min (size - pos) (w - (addr + pos) `mod` w) in
  range_injective bm addr size → stored data pos s → pos < size → paged s0 s' →
  phys_of l bm (page_base w (addr + pos)) = Some pa → page_at (dev s') pa = p →
  (∀ a, a ≠ pa → page_at (dev s') a = page_at (dev s) a) →
  (∀ j, 0 ≤ j < chunk → zget p ((addr + pos) `mod` w + j) = zget data (pos + j)) →
  stored data (pos + chunk) s'.
Proof using W Hl Hdiv Ha Hs.
  intros chunk Hinj [_ Hpos Hal Hby Hot] Hlt Hp' Hpa Hp Hother Hdata.
  destruct sizes_pos as [Hw HE]. pose proof (Z.mod_pos_bound (addr + pos) w Hw) as Hm.
  pose proof (page_base_le (addr + pos) ltac:(lia)) as Hbase.
  pose proof (page_base_le addr ltac:(lia)) as Hbase0.
  assert (Hc : 0 < chunk ≤ size - pos) by lia.
  pose proof (page_base_mono w addr (addr + pos) Hw ltac:(lia)) as Hmono.
  constructor; [done|lia| | |].
  - destruct (decide (size - pos ≤ w - (addr + pos) `mod` w)); [lia|]. right. right.
    unfold chunk. rewrite Z.min_r by lia.
    replace (addr + (pos + (w - (addr + pos) `mod` w))) with ((addr + pos) / w * w + 1 * w)
      by (pose proof (Z.div_mod (addr + pos) w); lia).
    rewrite <- Z.mul_add_distr_r. by apply Z.mod_mul, Z.neq_sym, Z.lt_neq.
  - intros j Hj. destruct (decide (j < pos)) as [Hold|Hnew].
    + rewrite <- Hby by lia. unfold logic_byte. destruct (phys_of l bm (page_base w (addr + j))) as [pj|] eqn:Hpj; [|done].
      rewrite Hother; [done|]. intros ->.
      pose proof (page_base_le (addr + j) ltac:(lia)) as Hbj.
      assert (He : page_base w (addr + j) = page_base w (addr + pos)).
      { pose proof (page_base_mono w addr (addr + j) Hw ltac:(lia)).
        eapply range_phys_inj; [done|lia|lia|done..]. }
      destruct Hal as [?|[?|Hz]]; [lia|lia|]. unfold page_base in He at 2. lia.
    + destruct (page_base_chunk w (addr + pos) (j - pos)) as [He1 He2]; [lia..|].
      replace (addr + pos + (j - pos)) with (addr + j) in * by lia.
      rewrite (logic_byte_page _ _ pa) by congruence. rewrite He2, Hp, Hdata by lia. f_equal. lia.
  - intros a Hno. rewrite Hother.
    + apply Hot. intros (la & ? & ? & ? & ?). apply Hno. exists la. split_and!; [lia..|done].
    + intros ->. apply Hno. exists (page_base w (addr + pos)).
      split_and!; [lia|lia|by apply page_base_aligned|lia|done].
Qed.

Lemma wlp_store_page fuel data mode me pos pc p s :
  let chunk := Z.min (size - pos) (w - (addr + pos) `mod` w) in
  range_injective bm addr size → (∀ a, in_range bm addr size a → page_at (dev s0) a = erased l) →
  stored data pos s → pos < size → zlen pc = zlen (page_cache (ni s)) → zlen p = w →
  (∀ j, 0 ≤ j < chunk → zget p ((addr + pos) `mod` w + j) = zget data (pos + j)) →
  wlp (nmbm_write_logic_page fuel (page_base w (addr + pos)) (Some p) None mode) me
    (Nmbm (set_page_cache pc (ni s)) (dev s))
    (λ rc s', rc = 0 → stored data (pos + chunk) s').
Proof using W Hl Hdiv Ha Hs Hav.
  intros chunk Hinj Her Hst Hlt Hpc Hp Hdata. pose proof (st_pos _ _ _ Hst) as Hpos.
  destruct sizes_pos as [Hw HE]. pose proof (page_base_le (addr + pos) ltac:(lia)) as Hbase.
  assert (Hps : paged s0 (Nmbm (set_page_cache pc (ni s)) (dev s))).
  { eapply paged_trans; [apply Hst|]. by exists pc. }
  destruct (paged_facts _ Hps) as (Ws' & Hls' & Hbs' & Hav').
  eapply wlp_write_logic_page; [done..|lia|done| |].
  - rewrite Hbs'. cbn [dev]. intros pa Hpa. rewrite (st_other _ _ _ Hst).
    + apply Her. exists (page_base w (addr + pos)).
      split_and!; [by apply page_base_mono; lia|lia|by apply page_base_aligned|lia|done].
    + intros (la & Hla & _ & H0 & Hpa'). assert (Heq : la = page_base w (addr + pos)).
      { eapply range_phys_inj; [done|lia|lia|done..]. }
      destruct (st_aligned _ _ _ Hst) as [?|[?|Hz]]; [lia..|]. unfold page_base in Heq. lia.
  - intros rc s' Hok Hz. destruct (Hok Hz) as (pa & Hn & Hpa & Hpp & Hoth). rewrite Hbs' in Hpa.
    eapply stored_step; [done|exact Hst|lia| |exact Hpa|exact Hpp|done|done].
    eapply paged_trans; [exact Hps|]. exists pc. rewrite Hn. done.
Qed.

(** The position of a round of the loops and its chunk. *)
Lemma round_chunk s pos :
  paged s0 s → 0 ≤ pos < size →
  u64 (addr + pos) = addr + pos ∧
  range_chunk (ni s) (addr + pos) (size - pos) =
    ((addr + pos) `mod` w, Z.min (size - pos) (w - (addr + pos) `mod` w)).
Proof using W Hl Ha H64.
  intros Hp Hpos. destruct (paged_facts s Hp) as (Ws & Hls & _).
  split; [unfold u64; rewrite Z.mod_small; lia|]. apply range_chunk_exact; [apply Ws|done|lia..].
Qed.

Lemma wlp_write_step fuel data mode me pos s :
  range_injective bm addr size → zlen data = size →
  (∀ a, in_range bm addr size a → page_at (dev s0) a = erased l) → stored data pos s → pos ≠ size →
  wlp (write_range_step fuel addr size data mode (0, pos)) me s
    (λ '(brk, r) s', if brk then r.1 ≠ 0 else r.1 = 0 ∧ stored data r.2 s').
Proof using W Hl Hdiv Ha Hs Hav H64.
  intros Hinj Hlen Her Hst Hne. unfold write_range_step. cbn [snd]. pose proof (st_pos _ _ _ Hst) as Hpos.
  case Z.eqb_spec; intros Hrem; lsteps; [lia|].
  destruct (paged_facts s (st_paged _ _ _ Hst)) as (Ws & Hls & _).
  destruct (round_chunk s pos (st_paged _ _ _ Hst) ltac:(lia)) as [Hoff Hck]. rewrite Hoff, Hck. lsteps.
  match goal with H : mem_read data _ _ = Some ?p |- _ => rename H into Hpart, p into part end.
  apply mem_read_slice in Hpart as (-> & _ & _ & _).
  set (chunk := Z.min (size - pos) (w - (addr + pos) `mod` w)).
  destruct sizes_pos as [Hw HE]. pose proof (Z.mod_pos_bound (addr + pos) w Hw) as Hm.
  change (addr + pos - (addr + pos) `mod` w) with (page_base w (addr + pos)).
  match goal with |- wlp ?m _ _ _ => assert (Hm' : wlp m me s (λ rc s', rc = 0 → stored data (pos + chunk) s')) end.
  { rewrite Hls. case Z.eqb_spec; intros Hcw.
    - pose proof (wlp_store_page fuel data mode me pos (page_cache (ni s)) (zslice data pos chunk) s) as Hpage.
      replace (set_page_cache (page_cache (ni s)) (ni s)) with (ni s) in Hpage by (by destruct (ni s)).
      destruct s as [ns ds]. apply Hpage; [done..|lia|done| |].
      + rewrite zlen_zslice; lia.
      + intros j Hj. rewrite zget_zslice by lia. f_equal. lia.
    - lsteps.
      match goal with H : mem_fill _ _ _ _ = Some ?p |- _ => rename H into Hfill, p into pc1 end.
      match goal with H : mem_copy _ _ _ _ = Some ?p |- _ => rename H into Hcopy, p into pc2 end.
      pose proof (mem_fill_len _ _ _ _ _ Hfill). pose proof (mem_copy_len _ _ _ _ _ Hcopy).
      assert (Hcache : w ≤ zlen (page_cache (ni s))).
      { destruct (wf_geom _ Ws). rewrite Hls in *. lia. }
      unfold cache_data. cbn [ni lower set_page_cache page_cache]. rewrite Hls.
      apply wlp_store_page; [done..|lia|lia| |].
      + by apply zlen_take; lia.
      + intros j Hj. rewrite zget_take, (zget_mem_copy _ _ _ _ _ j Hcopy) by lia.
        rewrite zget_zslice by lia. done. }
  eapply wlp_mono; [exact Hm'|]. clear Hm'. intros rc s' Hok. cbv beta in Hok.
  case Z.eqb_spec; intros Hz; lsteps; [by split; [|apply Hok]|done].
Qed.

Lemma wlp_write_loop fuel data mode k me :
  range_injective bm addr size → zlen data = size →
  (∀ a, in_range bm addr size a → page_at (dev s0) a = erased l) →
  wlp (while_brk k (write_range_step fuel addr size data mode) (0, 0)) me s0
    (λ r s, r.1 = 0 → r.2 = size ∧ stored data size s).
Proof using W Hl Hdiv Ha Hs Hav H64.
  intros Hinj Hlen Her.
  apply (wlp_while_brk (λ r s, r.1 = 0 ∧ stored data r.2 s)).
  { split; [done|]. constructor; simpl; [apply paged_refl|lia|auto|lia|done]. }
  intros [rc pos] s [Hrc Hst]. simpl in Hrc, Hst. subst rc. destruct (decide (pos = size)) as [->|Hne].
  - unfold write_range_step. cbn [snd]. rewrite Z.sub_diag. lsteps. done.
  - eapply wlp_mono; [by apply wlp_write_step|]. intros [[] r] s'; [|done]. intros ? ?. done.
Qed.

(** The loop of nmbm_read_range(): unless an uncorrectable page was met, the
    bytes up to the position have been read. *)
Record fetched (r : read_state) s : Prop := {
  fe_paged : paged s0 s;
  fe_same : same_pages (dev s0) (dev s);
  fe_pos : 0 ≤ rr_pos r ≤ size;
  fe_len : zlen (rr_data r) = size;
  fe_ret : fatal (rr_ret r) = false;
  fe_bytes : rr_ecc r = false → ∀ j, 0 ≤ j < rr_pos r → zget (rr_data r) j = logic_byte l bm (dev s0) (addr + j);
}.

Lemma not_fatal rc : fatal rc = false → (rc =? - EBADMSG) = false → 0 ≤ rc.
Proof using. unfold fatal. case Z.ltb_spec; simpl; [|lia]. intros _ H1%negb_false_iff H2. congruence. Qed.

Lemma wlp_fetch_page mode me s buf pos Q :
  paged s0 s → same_pages (dev s0) (dev s) → 0 ≤ pos < size → zlen buf = w →
  (∀ rc p oob d, same_pages (dev s0) d → zlen p = w →
     (0 ≤ rc → ∀ j, 0 ≤ j → (addr + pos) `mod` w + j < w →
        zget p ((addr + pos) `mod` w + j) = logic_byte l bm (dev s0) (addr + (pos + j))) →
     Q (rc, Some p, oob) (Nmbm (ni s) d)) →
  wlp (nmbm_read_logic_page (page_base w (addr + pos)) (Some buf) None mode) me s Q.
Proof using W Hl Hdiv Ha Hs Hav.
  intros Hp Hsame Hpos Hb HQ. destruct (paged_facts s Hp) as (Ws & Hls & Hbs & Hav').
  destruct sizes_pos as [Hw HE]. pose proof (page_base_le (addr + pos) ltac:(lia)) as Hbase.
  eapply wlp_read_logic_page; [done..|lia|done|]. intros rc p oob d Hs' Hlp Hd. apply HQ; [|done|].
  - intros a. by rewrite Hs', Hsame.
  - intros Hrc j Hj Hjw. destruct (Hd Hrc) as (pa & Hpa & ->).
    destruct (page_base_chunk w (addr + pos) j) as [He1 He2]; [lia..|].
    replace (addr + pos + j) with (addr + (pos + j)) in * by lia. rewrite Hbs in Hpa.
    rewrite (logic_byte_page _ _ pa) by congruence. by rewrite He2, Hsame.
Qed.

(** A chunk copied into the buffer. *)
Lemma fetched_copy r s s' rc buf page data' chunk :
  fetched r s → paged s0 s' → same_pages (dev s0) (dev s') → 0 < chunk → rr_pos r + chunk ≤ size →
  mem_copy (rr_data r) (rr_pos r) buf chunk = Some data' → fatal rc = false →
  (0 ≤ rc → ∀ j, 0 ≤ j < chunk → zget buf j = page j) →
  (∀ j, 0 ≤ j < chunk → page j = logic_byte l bm (dev s0) (addr + (rr_pos r + j))) →
  fetched (ReadState rc (rr_pos r + chunk) data' (rr_ecc r || (rc =? - EBADMSG)) (Z.max (rr_flips r) rc)) s'.
Proof using.
  intros [_ _ Hpos Hlen Hret Hby] Hp' Hsame Hc Hsum Hcopy Hf Hbuf Hpage. constructor; simpl; [done|done|lia| |done|].
  - by rewrite (mem_copy_len _ _ _ _ _ Hcopy).
  - intros [Hecc Hrc]%orb_false_iff j Hj. destruct (decide (j < rr_pos r)).
    + rewrite (zget_mem_copy_other _ _ _ _ _ j Hcopy) by lia. by apply Hby; [|lia].
    + replace j with (rr_pos r + (j - rr_pos r)) at 1 by lia. rewrite (zget_mem_copy _ _ _ _ _ _ Hcopy) by lia.
      rewrite Hbuf, Hpage by (lia || by apply not_fatal). f_equal. lia.
Qed.

Lemma wlp_read_step mode me r s :
  fetched r s → rr_pos r ≠ size →
  wlp (read_range_step addr size mode r) me s
    (λ '(brk, r') s', if brk then fatal (rr_ret r') = true ∧ rr_ret r' < 0 else fetched r' s').
Proof using W Hl Hdiv Ha Hs Hav H64.
  intros Hfe Hne. unfold read_range_step. pose proof (fe_pos _ _ Hfe) as Hpos.
  pose proof (fe_paged _ _ Hfe) as Hp. pose proof (fe_same _ _ Hfe) as Hsame.
  case Z.eqb_spec; intros Hrem; lsteps; [lia|].
  destruct (paged_facts s Hp) as (Ws & Hls & _).
  destruct (round_chunk s (rr_pos r) Hp ltac:(lia)) as [Hoff Hck]. rewrite Hoff, Hck. lsteps.
  set (chunk := Z.min _ _). set (leading := (addr + rr_pos r) `mod` w).
  destruct sizes_pos as [Hw HE]. pose proof (Z.mod_pos_bound (addr + rr_pos r) w Hw) as Hm. fold leading in Hm.
  change (addr + rr_pos r - leading) with (page_base w (addr + rr_pos r)). rewrite Hls.
  set (page := λ j, logic_byte l bm (dev s0) (addr + (rr_pos r + j))).
  match goal with |- wlp ?m _ _ _ => assert (Hm' : wlp m me s (λ '(rc, data') s', paged s0 s' ∧
    same_pages (dev s0) (dev s') ∧ (fatal rc = false → ∃ buf, mem_copy (rr_data r) (rr_pos r) buf chunk = Some data' ∧
      (0 ≤ rc → ∀ j, 0 ≤ j < chunk → zget buf j = page j)))) end.
  { case Z.eqb_spec; intros Hcw; lsteps.
    - match goal with H : mem_read _ _ _ = Some _ |- _ => apply mem_read_slice in H as (-> & _ & _ & Hin) end.
      apply wlp_fetch_page; [done..|lia|rewrite zlen_zslice; lia|]. intros rc p oob d Hsd Hlp Hd. lsteps.
      match goal with H : Some p = Some _ |- _ => injection H as <- end.
      split_and!; [eapply paged_trans; [exact Hp|apply paged_dev]|done|]. intros _. exists p.
      split; [by rewrite Hcw|]. intros Hrc j Hj. unfold page. rewrite <- Hd by lia. f_equal. lia.
    - destruct (cache_split s (wf_geom _ Ws)) as (Hcd & Hco & Hcs). rewrite Hls in Hcd.
      apply wlp_fetch_page; [done..|lia|done|]. intros rc p oob d Hsd Hlp Hd. lsteps.
      match goal with H : Some p = Some _ |- _ => injection H as <- end. cbn [ni dev].
      assert (Hp' : paged s0 (Nmbm (set_page_cache (p ++ cache_oob (ni s)) (ni s)) d)).
      { eapply paged_trans; [exact Hp|]. eexists. split; [done|]. rewrite Hcs, !zlen_app. lia. }
      destruct (fatal rc) eqn:Hf; lsteps; [split_and!; [done..|]; by rewrite Hf|].
      match goal with H : mem_read _ _ _ = Some _ |- _ => apply mem_read_slice in H as (-> & _ & _ & _) end.
      split_and!; [done..|]. intros _. eexists. split; [done|]. intros Hrc j Hj.
      cbn [page_cache set_page_cache]. rewrite zget_zslice by lia. unfold page. rewrite <- Hd by lia.
      unfold zget. rewrite !decide_True by lia. apply lookup_app_l. unfold zlen in Hlp. lia. }
  eapply wlp_mono; [exact Hm'|]. clear Hm'. intros [rc data'] s' (Hp' & Hsame' & Hok).
  destruct (fatal rc) eqn:Hf; lsteps.
  - split; [done|]. unfold fatal in Hf. simpl. destruct (Z.ltb_spec rc 0); [done|discriminate].
  - destruct (Hok eq_refl) as (buf & Hcopy & Hbuf).
    eapply fetched_copy; [done..|lia|lia|exact Hcopy|done|exact Hbuf|done].
Qed.

Lemma wlp_read_loop data mode k me :
  zlen data = size →
  wlp (while_brk k (read_range_step addr size mode) (ReadState 0 0 data false 0)) me s0
    (λ r s, fatal (rr_ret r) = true ∧ rr_ret r < 0 ∨ rr_pos r = size ∧ fetched r s).
Proof using W Hl Hdiv Ha Hs Hav H64.
  intros Hlen. apply (wlp_while_brk fetched).
  { constructor; simpl; [apply paged_refl|done|lia|done|done|lia]. }
  intros r s Hfe. destruct (decide (rr_pos r = size)) as [He|Hne].
  - unfold read_range_step. rewrite He, Z.sub_diag. lsteps. by right.
  - eapply wlp_mono; [by apply wlp_read_step|]. intros [[] r'] s'; [|done]. by left.
Qed.
End Ranges.
