(* ===== verification/NmbmStoreOps.v ===== *)
(** * NMBM: erasing, writing and reading through logic addresses

    The functions of the interface as operations of the store of NmbmStore.v:
    what a successful nmbm_erase_block_range() of one block,
    nmbm_write_range() and nmbm_read_range() leave behind. *)

From stdpp Require Import base list numbers list_numbers.
From Stdlib Require Import ZArith Lia.
From S2P Require Import Prelude Bytes Crc32 NmbmTypes NmbmCore NmbmTables.
From S2P Require Import NmbmIo NmbmOps NmbmLayout NmbmWf NmbmSafe NmbmImage.
From S2P Require Import NmbmWalk NmbmBlocks NmbmTableSafe NmbmApi NmbmStore.
Open Scope Z_scope.

Section Erase.
Context {D : Type} (l : nmbm_lower_device D) {SN : StableNand l}.
Implicit Types (s : nmbm D) (n : nmbm_instance D).

(** All pages of the physical block [pb] are erased. *)
Definition block_erased (d : D) (pb : Z) : Prop :=
  ∀ o, 0 ≤ o < erasesize l → o `mod` writesize l = 0 → page_at d (pb * erasesize l + o) = erased l.

Lemma block_erased_same d d' pb : same_pages d d' → block_erased d pb → block_erased d' pb.
Proof. intros Hs Hb o Ho Hm. rewrite Hs. by apply Hb. Qed.

Lemma wlp_erase_phys_block ba me s (Q : bool → nmbm D → Prop) :
  nwf (ni s) → lower (ni s) = l → 0 ≤ ba < block_count (ni s) →
  (∀ b d, (b = true → block_erased d ba) → Q b (Nmbm (ni s) d)) →
  wlp (nmbm_erase_phys_block (ba2addr (ni s) ba)) me s Q.
Proof.
  intros W Hl Hba HQ. unfold nmbm_erase_phys_block. lsteps.
  destruct (read_only _); lsteps; [destruct s; by apply HQ|].
  match goal with H : erase_block _ = Some ?f |- _ => rewrite Hl in H; rename f into g, H into Hg end.
  apply (wlp_with_retry l (λ _, True) (λ d, block_erased d ba)); [done..| |].
  - intros d _. pose proof (sn_erase g (ba2addr (ni s) ba) d Hg) as He. destruct (g _ d) as [rc d'].
    case Z.eqb_spec; [|done]. intros Hrc o Ho Hm. rewrite <- (He Hrc o Ho Hm). f_equal.
    by rewrite (ba2addr_exact l) by done.
  - intros b d Hb. apply HQ. by intros ->.
Qed.

Lemma wlp_read_to_cache addr me s (Q : Z → nmbm D → Prop) :
  geom_ok (ni s) → lower (ni s) = l →
  (∀ rc s', paged s s' → same_pages (dev s) (dev s') → Q rc s') → wlp (read_to_cache addr) me s Q.
Proof.
  intros G Hl HQ. unfold read_to_cache. lsteps. destruct (cache_split s G) as (Hcd & Hco & Hcs). rewrite Hl in Hcd.
  apply (wlp_read_phys_page l); [done..| |].
  - rewrite <- Hl. apply G.
  - intros rc p oob d Hs Hp _. lsteps. match goal with H : Some p = Some _ |- _ => injection H as <- end.
    cbn [ni dev]. apply HQ; [|done]. eexists. split; [done|]. rewrite Hcs, !zlen_app. lia.
Qed.

Lemma wlp_erase_block_and_check ba me s (Q : bool → nmbm D → Prop) :
  nwf (ni s) → lower (ni s) = l → 0 ≤ ba < block_count (ni s) →
  (∀ b s', paged s s' → (b = true → block_erased (dev s') ba) → Q b s') →
  wlp (nmbm_erase_block_and_check ba) me s Q.
Proof.
  intros W Hl Hba HQ. unfold nmbm_erase_block_and_check. lsteps.
  apply wlp_erase_phys_block; [done..|]. intros b d Hb. pose proof (paged_dev s d) as Hp.
  destruct b; simpl negb; cbv iota; lsteps; [|by apply HQ]. specialize (Hb eq_refl).
  destruct (negb _); lsteps; [by apply HQ|]. unfold for_pages. lsteps. cbn [ni dev].
  apply (wlp_for_brk_to (λ _ _ s', paged s s' ∧ same_pages d (dev s'))); [done| |].
  - intros i r s' _ [Hp' Hs']. lsteps. destruct (paged_state _ _ Hp') as (_ & _ & _ & Hl' & _).
    apply wlp_read_to_cache; [by eapply paged_geom, W|congruence|]. intros rc s2 Hp2 Hs2.
    assert (Hpp : paged s s2) by (by eapply paged_trans).
    assert (Hss : same_pages d (dev s2)) by (intros a; by rewrite Hs2, Hs').
    lsteps. destruct (rc =? - EBADMSG); [lsteps|done].
    apply HQ; [done|]. done.
  - intros r s' [Hp' Hs']. lsteps. apply HQ; [done|]. intros _. by eapply block_erased_same.
Qed.

(** Leaving the loop from [remap_logic_block] is a failure. *)
Lemma wlp_remap_fails fuel lb pb me s :
  wlp (remap_logic_block fuel lb pb) me s (λ r _, r.1 = true → r.2 ≠ 0).
Proof.
  unfold remap_logic_block. lsteps. eapply wlp_mono; [apply wlp_any|]. intros ok s1 _. lsteps.
  eapply wlp_mono; [apply wlp_any|]. intros _ s2 _. lsteps.
  eapply wlp_mono; [apply wlp_any|]. intros st s3 _. lsteps.
  eapply wlp_mono; [apply wlp_any|]. intros _ s4 _. lsteps.
  eapply wlp_mono; [apply wlp_any|]. intros b s5 _. lsteps. by destruct ok.
Qed.

(** A logic block that is erased: it has a physical block, whose pages are. *)
Definition logic_erased (bm : list Z) (d : D) (lb : Z) : Prop :=
  ∃ pb, zget bm lb = Some pb ∧ 0 ≤ pb ∧ block_erased d pb.

Lemma wlp_erase_once_erased fuel lb me s :
  nwf (ni s) → lower (ni s) = l →
  wlp (erase_logic_block_once fuel lb) me s
    (λ r s', r.1 = true → r.2 = 0 → logic_erased (block_mapping (ni s')) (dev s') lb).
Proof.
  intros W Hl. unfold erase_logic_block_once, get_mapping. lsteps.
  match goal with H : zget _ _ = Some ?p |- _ => rename H into Hpb, p into pb end.
  assert (Hremap : ∀ s', wlp (remap_logic_block fuel lb pb) me s'
    (λ r s', r.1 = true → r.2 = 0 → logic_erased (block_mapping (ni s')) (dev s') lb)).
  { intros s'. eapply wlp_mono; [apply wlp_remap_fails|]. intros r s2 Hr Ht H0. by specialize (Hr Ht). }
  case Z.ltb_spec; intros Hn; lsteps; [done|]. unfold nmbm_get_block_state. lsteps.
  destruct (_ || _); [apply Hremap|]. lsteps.
  assert (Hr : 0 ≤ pb < block_count (ni s)).
  { pose proof (wf_mapping _ W) as Hf. rewrite Forall_lookup in Hf. unfold zget in Hpb. case_decide; [|done].
    specialize (Hf _ _ Hpb). lia. }
  eapply wlp_mono.
  { apply (wlp_of_wp _ _ _ (λ _, False)), (wp_check_bad_phys_block s (wf_geom _ W) pb me s (λ _ s', paged s s'));
      [apply paged_refl|done]. }
  intros bad s1 Hp1. destruct (paged_state _ _ Hp1) as (_ & _ & Hc1 & Hl1 & _).
  destruct bad; lsteps.
  - eapply wlp_mono; [apply wlp_any|]. intros b s2 _. apply Hremap.
  - apply wlp_erase_block_and_check; [by apply (paged_opd s s1 Hp1)|congruence|lia|].
    intros b s2 Hp2 Her. destruct b; lsteps.
    + intros _ _. exists pb. split; [|split; [lia|by apply Her]].
      destruct Hp1 as (pc1 & He1 & _), Hp2 as (pc2 & -> & _). by rewrite He1.
    + eapply wlp_mono; [apply wlp_any|]. intros _ s3 _. apply Hremap.
Qed.

Lemma wlp_erase_logic_block fuel s0 lb me s :
  block_count (ni s0) + 2 < Z.of_nat fuel → opd s0 s → lower (ni s0) = l → 0 ≤ lb < block_count (ni s0) →
  wlp (nmbm_erase_logic_block fuel lb) me s
    (λ rc s', opd s0 s' ∧ (rc = 0 → logic_erased (block_mapping (ni s')) (dev s') lb)).
Proof.
  intros Hfuel Ho Hl Hlb. unfold nmbm_erase_logic_block. apply (wlp_while_brk (λ _ s, opd s0 s)); [done|].
  intros _ s1 Ho1. assert (Hl1 : lower (ni s1) = l) by (destruct Ho1 as [_ [=]]; congruence).
  apply (wlp_and (λ r s', opd s0 s')).
  - apply (wlp_of_wp _ _ _ (λ _, False)). by apply (wp_erase_logic_once fuel s0).
  - eapply wlp_mono; [apply wlp_erase_once_erased; [apply Ho1|done]|].
    intros [[] rc] s2 Her Ho2; [|done]. split; [done|]. intros Hrc. by apply Her.
Qed.

(** Erasing one block. *)
Lemma wlp_erase_one_block fuel lb me s :
  nwf (ni s) → lower (ni s) = l → block_count (ni s) + 2 < Z.of_nat fuel → 0 ≤ lb →
  (lb + 1) * erasesize l < 2 ^ 64 →
  wlp (nmbm_erase_block_range fuel (lb * erasesize l) (erasesize l)) me s
    (λ r s', opd s s' ∧ (r.1 = 0 → (lb + 1) * erasesize l ≤ ba2addr (ni s') (data_block_count (ni s')) ∧
       logic_erased (block_mapping (ni s')) (dev s') lb)).
Proof.
  intros W Hl Hfuel Hlb H64. pose proof (g_erase _ (wf_geom _ W)) as HE. rewrite Hl in HE.
  pose proof (opd_refl s W) as Ho. unfold nmbm_erase_block_range. lsteps.
  destruct (negb _); lsteps; [done|]. case Z.leb_spec; intros H1; lsteps; [done|].
  unfold u64 at 1. rewrite Z.mod_small by lia. case Z.ltb_spec; intros H2; lsteps; [done|].
  case Z.eqb_spec; intros H3; [lia|]. lsteps.
  assert (Hpos : 0 ≤ lb * erasesize l) by (apply Z.mul_nonneg_nonneg; lia).
  destruct (addr2ba_lt _ (lb * erasesize l) W ltac:(lia)) as [He1 Hr1].
  unfold u64. rewrite Z.mod_small by lia.
  destruct (addr2ba_lt _ (lb * erasesize l + erasesize l - 1) W ltac:(lia)) as [He2 _].
  rewrite Hl in He1, He2. rewrite Z.div_mul in He1 by lia.
  assert (He2' : (lb * erasesize l + erasesize l - 1) / erasesize l = lb).
  { symmetry. apply (Z.div_unique_pos _ _ _ (erasesize l - 1)); lia. }
  rewrite He2' in He2. rewrite He1 in Hr1. rewrite He1, He2.
  set (R := λ (rc : Z) s', opd s s' ∧ (rc = 0 → logic_erased (block_mapping (ni s')) (dev s') lb)).
  apply (wlp_for_brk_to (λ i r s', if decide (i = lb) then s' = s else R r.1 s')).
  - by rewrite decide_True.
  - intros i r s' Hi. assert (i = lb) as -> by lia. rewrite decide_True by done. intros ->. lsteps.
    eapply wlp_mono; [apply (wlp_erase_logic_block fuel s); [done..|pose proof (wf_data _ W); lia]|].
    intros rc s2 HR. case Z.eqb_spec; intros Hz; simpl negb; cbv iota; lsteps.
    + rewrite decide_False by lia. subst rc. done.
    + split; [apply HR|done].
  - intros r s'. rewrite decide_False by lia. intros [Ho' HR]. lsteps. destruct r as [rc o]. simpl in *.
    split; [done|]. intros Hrc. split; [|by apply HR].
    rewrite (opd_avail s s' Ho'). lia.
Qed.
End Erase.

Section Store.
Context {D : Type} (l : nmbm_lower_device D) {SN : StableNand l}.
Implicit Types (s : nmbm D) (n : nmbm_instance D).

(** What the caller of a range has to respect. *)
Record range_ok s (addr size : Z) : Prop := {
  ro_wf : nwf (ni s);
  ro_lower : lower (ni s) = l;
  ro_pages : erasesize l `mod` writesize l = 0;
  ro_addr : 0 ≤ addr;
  ro_size : 0 ≤ size;
  ro_end : addr + size < 2 ^ 64;
}.

Lemma stored_0 s addr data : stored l s addr 0 data 0 s.
Proof. constructor; [apply paged_refl|lia|auto|lia|done]. Qed.

(** nmbm_write_range() that returns 0 has stored the data. *)
Lemma wlp_write_range fuel addr size data mode me s :
  range_ok s addr size → zlen data = size → range_injective l (block_mapping (ni s)) addr size →
  (∀ a, in_range l (block_mapping (ni s)) addr size a → page_at (dev s) a = erased l) →
  wlp (nmbm_write_range fuel addr size data mode) me s
    (λ r s', r.1 = 0 → stored l s addr size data size s' ∧ (0 < size → r.2 = Some size)).
Proof.
  intros [W Hl Hd Ha Hs H64] Hlen Hinj Her. unfold nmbm_write_range. lsteps.
  destruct (negb _); lsteps; [done|]. case Z.leb_spec; intros H1; lsteps; [done|].
  unfold u64 at 1. rewrite Z.mod_small by lia. case Z.ltb_spec; intros H2; lsteps; [done|].
  case Z.eqb_spec; intros H3; lsteps.
  { intros _. rewrite H3. split; [apply stored_0|simpl; lia]. }
  eapply wlp_mono; [apply wlp_write_loop; done || lia|]. intros [rc pos] s' Hst. lsteps. simpl in *.
  intros Hrc. destruct (Hst Hrc) as [-> ?]. done.
Qed.

(** nmbm_read_range() that returns no error has read the bytes. *)
Lemma wlp_read_range addr size data mode me s :
  range_ok s addr size → zlen data = size →
  wlp (nmbm_read_range addr size data mode) me s
    (λ '(rc, len, data') s', 0 ≤ rc → paged s s' ∧ same_pages (dev s) (dev s') ∧ zlen data' = size ∧
       (0 < size → len = Some size) ∧
       ∀ j, 0 ≤ j < size → zget data' j = logic_byte l (block_mapping (ni s)) (dev s) (addr + j)).
Proof.
  intros [W Hl Hd Ha Hs H64] Hlen. unfold nmbm_read_range. lsteps.
  destruct (cbool _); lsteps; [done|]. case Z.leb_spec; intros H1; lsteps; [done|].
  unfold u64 at 1. rewrite Z.mod_small by lia. case Z.ltb_spec; intros H2; lsteps; [done|].
  case Z.eqb_spec; intros H3; lsteps.
  { intros _. split_and!; [apply paged_refl|done|done|lia..]. }
  eapply wlp_mono; [apply wlp_read_loop; done || lia|]. intros r s' Hr. lsteps.
  destruct Hr as [[-> Hneg]|[Hpos [Hp Hsame _ Hl' Hret Hby]]]; [lia|]. rewrite Hret. rewrite Hpos in *.
  destruct (rr_ecc r); [done|]. intros _. split_and!; [done..|]. by apply Hby.
Qed.

(** A range within one block. *)
Lemma block_range_injective bm lb addr size :
  0 < erasesize l → lb * erasesize l ≤ addr → addr + size ≤ (lb + 1) * erasesize l → 0 < size →
  range_injective l bm addr size.
Proof.
  intros HE H1 H2 Hs i j m Hi Hj _ _ _.
  assert (addr / erasesize l = lb) by (symmetry; apply (Z.div_unique_pos _ _ _ (addr - lb * erasesize l)); lia).
  assert ((addr + size - 1) / erasesize l = lb)
    by (symmetry; apply (Z.div_unique_pos _ _ _ (addr + size - 1 - lb * erasesize l)); lia).
  lia.
Qed.

Lemma block_range_erased bm d lb addr size a :
  0 < writesize l → 0 < erasesize l → erasesize l `mod` writesize l = 0 →
  lb * erasesize l ≤ addr → addr + size ≤ (lb + 1) * erasesize l →
  logic_erased l bm d lb → in_range l bm addr size a → page_at d a = erased l.
Proof.
  intros Hw HE Hd H1 H2 (pb & Hpb & Hpos & Her) (la & Hla & Hm & Hs & Hpa).
  assert (Hq : la / erasesize l = lb).
  { pose proof (page_base_mod (writesize l) (erasesize l) addr Hw HE Hd) as Hb.
    assert (addr / erasesize l = lb) by (symmetry; apply (Z.div_unique_pos _ _ _ (addr - lb * erasesize l)); lia).
    pose proof (Z.div_le_mono (page_base (writesize l) addr) la _ HE ltac:(lia)).
    pose proof (Z.div_lt_upper_bound la (erasesize l) (lb + 1) HE ltac:(lia)). lia. }
  unfold phys_of in Hpa. rewrite Hq, Hpb in Hpa. destruct (Z.leb_spec 0 pb); [|done]. injection Hpa as <-.
  apply Her; [by apply Z.mod_pos_bound|].
  apply Z.mod_divide in Hd as [q Hq']; [|lia].
  rewrite Hq', Z.mul_comm, Z.rem_mul_r by lia. rewrite Hm. rewrite Z.mul_comm, Z.add_0_l.
  by apply Z.mod_mul, Z.neq_sym, Z.lt_neq.
Qed.
End Store.
