(* ===== verification/NmbmPersist.v ===== *)
(** * NMBM: what the management area holds

    The signature and the info tables are written block by block, each page
    read back and compared; a block that fails is marked bad and the next one
    is taken.  Over a chip on which an operation on a block leaves the other
    blocks alone ([IsolatedNand]), what the functions report as written is on
    the chip, in the blocks that are still good. *)

From stdpp Require Import base list numbers list_numbers.
From Stdlib Require Import ZArith Lia.
From S2P Require Import Prelude Bytes Crc32 NmbmTypes NmbmCore NmbmTables.
From S2P Require Import NmbmIo NmbmOps NmbmLayout NmbmWf NmbmSafe NmbmImage.
From S2P Require Import NmbmWalk NmbmBlocks NmbmTableSafe NmbmApi NmbmStore.
From S2P Require Import NmbmStoreOps.
Open Scope Z_scope.

(** ** The chip *)

(** What is relied on besides [StableNand]: an operation on a page or a block,
    whether it succeeds or not, leaves the pages elsewhere alone, and asking
    whether a block is bad changes none. *)
Class IsolatedNand {D} (l : nmbm_lower_device D) {SN : StableNand l} : Prop := {
  is_write : ∀ f addr data oob mode d a, write_page l = Some f → a ≠ addr →
    page_at (f addr data oob mode d).2 a = page_at d a;
  is_erase : ∀ f addr d a, erase_block l = Some f → ¬ (addr ≤ a < addr + erasesize l) →
    page_at (f addr d).2 a = page_at d a;
  is_mark : ∀ f addr d a, mark_bad_block l = Some f → ¬ (addr ≤ a < addr + erasesize l) →
    page_at (f addr d).2 a = page_at d a;
  is_asked : ∀ f addr d a, is_bad_block l = Some f → page_at (f addr d).2 a = page_at d a;
}.

Section Chip.
Context {D : Type} (l : nmbm_lower_device D) {SN : StableNand l} {IN : IsolatedNand l}.
Implicit Types (s : nmbm D) (n : nmbm_instance D).
Abbreviation w := (writesize l).
Abbreviation E := (erasesize l).

(** Only pages of the block [ba] differ. *)
Definition only_block (ba : Z) (d d' : D) : Prop :=
  ∀ a, ¬ (ba * E ≤ a < ba * E + E) → page_at d' a = page_at d a.

(** The byte at the physical address [x]. *)
Definition phys_byte (d : D) (x : Z) : option Z := zget (page_at d (page_base w x)) (x `mod` w).

Lemma only_block_refl ba d : only_block ba d d.
Proof. done. Qed.

Lemma only_block_same ba d d' : same_pages d d' → only_block ba d d'.
Proof. intros H a _. apply H. Qed.

Lemma only_block_trans ba d1 d2 d3 : only_block ba d1 d2 → only_block ba d2 d3 → only_block ba d1 d3.
Proof. intros H1 H2 a Ha. by rewrite H2, H1. Qed.

Lemma same_pages_trans (d1 d2 d3 : D) : same_pages d1 d2 → same_pages d2 d3 → same_pages d1 d3.
Proof. intros H1 H2 a. by rewrite H2, H1. Qed.

Lemma ba2addr_geom n ba : geom_ok n → lower n = l → 0 ≤ ba < block_count n → ba2addr n ba = ba * E.
Proof.
  intros [] Hl Hba. destruct g_shift as [Hs Hes]. rewrite Hl in *.
  unfold ba2addr, u64. rewrite Z.shiftl_mul_pow2, <- Hes by lia. apply Z.mod_small. nia.
Qed.

(** A read of any kind changes no page. *)
Lemma wlp_read_same addr data oob mode me s (Q : _ → nmbm D → Prop) :
  lower (ni s) = l → (∀ r d, same_pages (dev s) d → Q r (Nmbm (ni s) d)) →
  wlp (nmbm_read_phys_page addr data oob mode) me s Q.
Proof.
  intros Hl HQ. unfold nmbm_read_phys_page. lsteps.
  match goal with H : read_page _ = Some ?f |- _ => rewrite Hl in H; rename H into Hf, f into g end.
  apply (wlp_for_brk_to (λ _ _ s', ni s' = ni s ∧ same_pages (dev s) (dev s'))); [done| |].
  - intros i [[rc data1] oob1] s1 _ [Hn Hp]. lsteps. apply wlp_lower_call. intros [[rc' data'] oob'] d Hc.
    pose proof (sn_read g addr data1 oob1 mode (dev s1) Hf) as Hr. rewrite Hc in Hr. destruct Hr as [Hr _].
    assert (Hp' : same_pages (dev s) d) by (by eapply same_pages_trans). cbn [fst].
    destruct (0 <=? rc'); lsteps; [rewrite Hn; by apply HQ|].
    apply (wlp_reset l); [by rewrite <- Hl, <- Hn|]. cbn [ni dev]. intros d' Hs' _. lsteps.
    split; [done|]. by eapply same_pages_trans.
  - intros r [n' d'] [Hn Hp]. lsteps. cbn [ni dev] in *. subst n'. by apply HQ.
Qed.

(** A write or an erasure changes what each of its tries may change. *)
Lemma wlp_retry_frame (P : D → Prop) f me s (Q : bool → nmbm D → Prop) :
  lower (ni s) = l → P (dev s) → (∀ d d', P d → same_pages d d' → P d') → (∀ d, P d → P (f d).2) →
  (∀ b d, P d → Q b (Nmbm (ni s) d)) → wlp (with_retry f) me s Q.
Proof.
  intros Hl H0 Hsame Hf HQ. apply (wlp_with_retry l P P); [done|done| | |].
  - intros d d' Hd Hs _. by eapply Hsame.
  - intros d Hd. specialize (Hf d Hd). destruct (f d) as [rc d']. by destruct (rc =? 0).
  - intros b d Hd. apply HQ. by destruct b.
Qed.

Lemma wlp_write_frame addr data oob mode me s (Q : bool → nmbm D → Prop) :
  lower (ni s) = l → (∀ b d, (∀ a, a ≠ addr → page_at d a = page_at (dev s) a) → Q b (Nmbm (ni s) d)) →
  wlp (nmbm_write_phys_page addr data oob mode) me s Q.
Proof.
  intros Hl HQ. unfold nmbm_write_phys_page. lsteps.
  destruct (read_only _); lsteps; [destruct s; by apply HQ|].
  match goal with H : write_page _ = Some ?f |- _ => rewrite Hl in H; rename f into g, H into Hg end.
  apply (wlp_retry_frame (λ d, ∀ a, a ≠ addr → page_at d a = page_at (dev s) a)); [done|done| | |done].
  - intros d d' Hd Hs a Ha. by rewrite Hs, Hd.
  - intros d Hd a Ha. rewrite (is_write g) by done. by apply Hd.
Qed.

Lemma wlp_erase_frame ba me s (Q : bool → nmbm D → Prop) :
  geom_ok (ni s) → lower (ni s) = l → 0 ≤ ba < block_count (ni s) →
  (∀ b d, only_block ba (dev s) d → Q b (Nmbm (ni s) d)) →
  wlp (nmbm_erase_phys_block (ba2addr (ni s) ba)) me s Q.
Proof.
  intros G Hl Hba HQ. rewrite ba2addr_geom by done. unfold nmbm_erase_phys_block. lsteps.
  destruct (read_only _); lsteps; [destruct s; by apply HQ|].
  match goal with H : erase_block _ = Some ?f |- _ => rewrite Hl in H; rename f into g, H into Hg end.
  apply (wlp_retry_frame (λ d, only_block ba (dev s) d)); [done|done| | |done].
  - intros d d' Hd Hs. eapply only_block_trans; [done|by apply only_block_same].
  - intros d Hd a Ha. rewrite (is_erase g) by done. by apply Hd.
Qed.

(** Reading a page into the page cache: if there is no error, the cache holds
    the page. *)
Lemma wlp_read_cached addr me s (Q : Z → nmbm D → Prop) :
  geom_ok (ni s) → lower (ni s) = l →
  (∀ rc s', paged s s' → same_pages (dev s) (dev s') →
     (0 ≤ rc → cache_data (ni s') = page_at (dev s) addr) → Q rc s') → wlp (read_to_cache addr) me s Q.
Proof.
  intros G Hl HQ. unfold read_to_cache. lsteps. destruct (cache_split s G) as (Hcd & Hco & Hcs). rewrite Hl in Hcd.
  apply (wlp_read_phys_page l); [done..| |].
  - rewrite <- Hl. apply G.
  - intros rc p oob d Hs Hp Hd. lsteps. match goal with H : Some p = Some _ |- _ => injection H as <- end.
    cbn [ni dev]. apply HQ; [|done|].
    + eexists. split; [done|]. rewrite Hcs, !zlen_app. lia.
    + intros Hrc. rewrite <- Hd by done. unfold cache_data. cbn. rewrite Hl, <- Hp. unfold zlen.
      rewrite Nat2Z.id. apply take_app_length.
Qed.

Lemma for_pages_bound i : 0 < w → 0 ≤ i ≤ (E + w - 1) / w - 1 → 0 ≤ i * w < E.
Proof.
  intros Hw Hi. pose proof (Z.mul_div_le (E + w - 1) w Hw). nia.
Qed.

(** The loop over the pages of a block. *)
Lemma wlp_for_pages {A} (P : Z → A → nmbm D → Prop) (Q : A → nmbm D → Prop) body (a : A) me s :
  lower (ni s) = l → 0 < w → P 0 a s →
  (∀ i a s, 0 ≤ i * w < E → P i a s →
     wlp (body (i * w) a) me s (λ '(brk, a') s', if brk : bool then Q a' s' else P (i + 1) a' s')) →
  (∀ i a s, E ≤ i * w → P i a s → Q a s) →
  wlp (for_pages body a) me s Q.
Proof.
  intros Hl Hw H0 Hstep HQ. unfold for_pages. lsteps. rewrite Hl.
  apply (wlp_for_brk_to P); [done| |].
  - intros i a1 s1 Hi HP. eapply wlp_mono; [apply Hstep; [by apply for_pages_bound|done]|].
    intros [[] a2] s2 H2; [by apply wlp_ret|done].
  - intros a1 s1 HP. apply wlp_ret. eapply HQ; [|exact HP].
    pose proof (Z.mod_pos_bound (E + w - 1) w Hw). pose proof (Z.div_mod (E + w - 1) w). nia.
Qed.
End Chip.

(** ** Blocks *)

(** Of the states of the blocks, only that of [ba] may differ. *)
Definition only_state {D} (ba : Z) (s s' : nmbm D) : Prop :=
  ∀ b, 0 ≤ b → b ≠ ba → is_good (block_state (ni s')) b = is_good (block_state (ni s)) b.

Section Blocks.
Context {D : Type} (l : nmbm_lower_device D) {SN : StableNand l} {IN : IsolatedNand l}.
Implicit Types (s : nmbm D) (n : nmbm_instance D).
Abbreviation w := (writesize l).
Abbreviation E := (erasesize l).

Lemma only_state_paged ba s s' : paged s s' → only_state ba s s'.
Proof. intros Hp b _ _. by rewrite (paged_good s s' b Hp). Qed.

Lemma only_state_trans ba s1 s2 s3 : only_state ba s1 s2 → only_state ba s2 s3 → only_state ba s1 s3.
Proof. intros H1 H2 b Hb Hne. by rewrite H2, H1. Qed.

Lemma wlp_check_bad ba me s (Q : bool → nmbm D → Prop) :
  geom_ok (ni s) → lower (ni s) = l →
  (∀ b s', paged s s' → same_pages (dev s) (dev s') → Q b s') → wlp (nmbm_check_bad_phys_block ba) me s Q.
Proof.
  intros G Hl HQ. apply (wlp_and (λ _ s', paged s s')).
  { apply (wlp_of_wp _ _ _ (λ _, False)), (wp_check_bad_phys_block s G); [apply paged_refl|done]. }
  unfold nmbm_check_bad_phys_block. lsteps. rewrite Hl. destruct (is_bad_block l) as [f|] eqn:Hf.
  - lsteps. apply wlp_lower_call. intros r d Hd. lsteps. intros Hp. apply HQ; [done|].
    intros x. cbn [dev]. pose proof (is_asked f (ba2addr (ni s) ba) (dev s) x Hf) as Hx. by rewrite Hd in Hx.
  - lsteps. apply (wlp_read_same l); [done|]. intros [[rc p] oob] d Hs. lsteps. cbn [ni dev].
    destruct (_ && _); lsteps; intros Hp; by apply HQ.
Qed.

Lemma wlp_mark_phys_bad ba me s (Q : Z → nmbm D → Prop) :
  geom_ok (ni s) → lower (ni s) = l → 0 ≤ ba < block_count (ni s) →
  (∀ rc s', paged s s' → only_block l ba (dev s) (dev s') → Q rc s') → wlp (nmbm_mark_phys_bad_block ba) me s Q.
Proof.
  intros G Hl Hba HQ. apply (wlp_and (λ _ s', paged s s')).
  { apply (wlp_of_wp _ _ _ (λ _, False)), (wp_mark_phys_bad_block s G); [apply paged_refl|done]. }
  unfold nmbm_mark_phys_bad_block. lsteps. rewrite (ba2addr_geom l) by done.
  destruct (read_only _); lsteps; [intros; by apply HQ|]. rewrite Hl. destruct (mark_bad_block l) as [f|] eqn:Hf.
  - apply wlp_lower_call. intros r d Hd Hp. apply HQ; [done|]. intros x Hx. cbn [dev].
    pose proof (is_mark f (ba * E) (dev s) x Hf Hx) as He. by rewrite Hd in He.
  - destruct (g_page _ G) as [Hw _]. rewrite Hl in Hw. lsteps. unfold nmbm_set_log_level. lsteps. cbn [ni dev].
    apply (wlp_for_pages l (λ _ _ s', lower (ni s') = l ∧ only_block l ba (dev s) (dev s'))); [done|lia|done| |].
    + intros i [] s1 Hi [Hl1 Hp1]. lsteps. apply (wlp_write_frame l); [done|]. intros b d Hd. lsteps. cbn [ni dev].
      split; [done|]. intros x Hx. rewrite Hd by lia. by apply Hp1.
    + intros i [] s1 _ [_ Hp1]. lsteps. cbn [ni dev]. intros Hp. by apply HQ.
Qed.

(** A state that is stored changes that of the block only. *)
Lemma wlp_set_bad ba me s (Q : bool → nmbm D → Prop) :
  geom_ok (ni s) → 0 ≤ ba < block_count (ni s) →
  (∀ b s', dev s' = dev s → only_state ba s s' → is_good (block_state (ni s')) ba = false → Q b s') →
  wlp (nmbm_set_block_state ba BLOCK_ST_BAD) me s Q.
Proof.
  intros G Hba HQ. apply (wlp_of_wp _ _ _ (λ _, False)), wp_set_block_state; [done..|].
  intros b ch u Hu. assert (Hget : ∀ b', 0 ≤ b' → is_good (put_state (block_state (ni s)) ba BLOCK_ST_BAD u) b' =
    if decide (ba = b') then false else is_good (block_state (ni s)) b').
  { intros b' Hb'. unfold is_good. rewrite (get_put_state _ _ _ _ _ Hu) by (done || lia). by case_decide. }
  apply HQ; [done| |]; cbn.
  - intros b' Hb' Hne. cbn. rewrite Hget by done. by rewrite decide_False.
  - rewrite Hget by lia. by rewrite decide_True.
Qed.

Lemma wlp_mark_bad ba me s (Q : unit → nmbm D → Prop) :
  geom_ok (ni s) → lower (ni s) = l → 0 ≤ ba < block_count (ni s) →
  (∀ s', only_block l ba (dev s) (dev s') → only_state ba s s' →
     is_good (block_state (ni s')) ba = false → Q tt s') → wlp (mark_bad ba) me s Q.
Proof.
  intros G Hl Hba HQ. unfold mark_bad. lsteps. apply wlp_mark_phys_bad; [done..|]. intros rc s1 Hp1 Ho1. lsteps.
  destruct (paged_state _ _ Hp1) as (_ & _ & Hc1 & _).
  apply wlp_set_bad; [by eapply paged_geom|lia|]. intros b s2 Hd Hst Hg. lsteps. apply HQ; [by rewrite Hd| |done].
  eapply only_state_trans; [by apply only_state_paged|done].
Qed.

(** A block may be used exactly when it is still good. *)
Lemma wlp_block_usable ba me s (Q : bool → nmbm D → Prop) :
  geom_ok (ni s) → lower (ni s) = l → 0 ≤ ba < block_count (ni s) →
  (∀ b s', same_pages (dev s) (dev s') → only_state ba s s' → is_good (block_state (ni s')) ba = b → Q b s') →
  wlp (block_usable ba) me s Q.
Proof.
  intros G Hl Hba HQ. unfold block_usable. lsteps.
  eapply wlp_mono.
  { apply (wlp_of_wp _ _ _ (λ _, False)),
      (wp_get_block_state _ _ _ (λ st s', s' = s ∧ is_good (block_state (ni s)) ba = (st =? BLOCK_ST_GOOD)));
      [done..|]. intros st _ _ Hg. done. }
  intros st ? [-> Hg]. destruct (st =? BLOCK_ST_GOOD); cbn [negb]; lsteps; [|by apply HQ].
  apply wlp_check_bad; [done..|]. intros bad s1 Hp1 Hs1. destruct (paged_state _ _ Hp1) as (_ & _ & Hc1 & _).
  destruct bad; lsteps.
  - apply wlp_set_bad; [by eapply paged_geom|lia|]. intros b s2 Hd Hst Hb. lsteps. apply HQ; [by rewrite Hd| |done].
    eapply only_state_trans; [by apply only_state_paged|done].
  - apply HQ; [done|by apply only_state_paged|]. by rewrite (paged_good _ _ _ Hp1).
Qed.

Lemma wlp_erase_check ba me s (Q : bool → nmbm D → Prop) :
  geom_ok (ni s) → lower (ni s) = l → 0 ≤ ba < block_count (ni s) →
  (∀ b s', paged s s' → only_block l ba (dev s) (dev s') → Q b s') →
  wlp (nmbm_erase_block_and_check ba) me s Q.
Proof.
  intros G Hl Hba HQ. apply (wlp_and (λ _ s', paged s s')).
  { apply (wlp_of_wp _ _ _ (λ _, False)), (wp_erase_block_and_check s G); [apply paged_refl|done]. }
  destruct (g_page _ G) as [Hw _]. rewrite Hl in Hw.
  unfold nmbm_erase_block_and_check. lsteps. apply (wlp_erase_frame l); [done..|]. intros b d Hb.
  destruct b; cbn [negb]; lsteps; [|intros; by apply HQ]. cbn [ni].
  destruct (negb _); lsteps; [intros; by apply HQ|].
  apply (wlp_for_pages l (λ _ _ s', paged s s' ∧ only_block l ba (dev s) (dev s'))); [done|lia| | |].
  - split; [apply paged_dev|done].
  - intros i r s1 _ [Hp1 Ho1]. lsteps. destruct (paged_state _ _ Hp1) as (_ & _ & _ & Hl1 & _).
    apply (wlp_read_cached l); [by eapply paged_geom|congruence|]. intros rc s2 Hp2 Hs2 _. lsteps.
    assert (Ho2 : only_block l ba (dev s) (dev s2)).
    { eapply only_block_trans; [done|by apply only_block_same]. }
    destruct (rc =? - EBADMSG); [intros; by apply HQ|]. split; [by eapply paged_trans|done].
  - intros i r s1 _ [Hp1 Ho1] _. by apply HQ.
Qed.
End Blocks.

(** ** Writing with verification *)

Section Verify.
Context {D : Type} (l : nmbm_lower_device D) {SN : StableNand l} {IN : IsolatedNand l}.
Context (Hdiv : erasesize l `mod` writesize l = 0).
Implicit Types (s : nmbm D) (n : nmbm_instance D).
Abbreviation w := (writesize l).
Abbreviation E := (erasesize l).

(** The bytes of a page that is in the page cache. *)
Lemma cached_bytes s chunk got j :
  lower (ni s) = l → mem_read (page_cache (ni s)) 0 chunk = Some got → 0 ≤ j < chunk → chunk ≤ w →
  zget (cache_data (ni s)) j = zget got j.
Proof.
  intros Hl Hg Hj Hc. apply mem_read_slice in Hg as (-> & _ & _ & _). rewrite zget_zslice by lia.
  unfold cache_data. rewrite Hl. by rewrite zget_take by lia.
Qed.

Lemma page_in_block ba o : 0 < w → 0 < E → o `mod` w = 0 → (ba * E + o) `mod` w = 0.
Proof.
  intros Hw HE Ho. pose proof Hdiv as Hd. apply Z.mod_divide in Hd as [q Hq]; [|lia].
  rewrite Hq. replace (ba * (q * w) + o) with (o + ba * q * w) by ring. by rewrite Z.mod_add by lia.
Qed.

(** The bytes of the page at an aligned address. *)
Lemma phys_byte_page d a j : 0 < w → a `mod` w = 0 → 0 ≤ j < w → phys_byte l d (a + j) = zget (page_at d a) j.
Proof.
  intros Hw Ha Hj. destruct (page_base_chunk w a j) as [Hb Hm]; [lia..|]. unfold phys_byte. rewrite Hb, Hm, Ha.
  unfold page_base. rewrite Ha, Z.sub_0_r. done.
Qed.

Lemma page_chunk_aligned n off rem :
  geom_ok n → lower n = l → 0 < rem → off `mod` w = 0 → page_chunk n off rem = (0, Z.min rem w).
Proof.
  intros [] Hl Hrem Hoff. rewrite Hl in *. unfold page_chunk. destruct g_page as [Hw (k & Hk & He)].
  rewrite g_mask, He. replace (2 ^ k - 1) with (Z.ones k) by (rewrite Z.ones_equiv; lia).
  rewrite Z.land_ones, <- He, Hoff, Hl by lia. unfold u32. rewrite (Z.mod_small (w - 0)) by lia.
  f_equal. case Z.ltb_spec; lia.
Qed.

(** [pos] bytes of [data] are in the block [ba]. *)
Record verified (s0 : nmbm D) (ba : Z) (data : list Z) (size pos : Z) s : Prop := {
  vf_paged : paged s0 s;
  vf_pos : 0 ≤ pos ≤ size;
  vf_aligned : pos `mod` w = 0 ∨ pos = size;
  vf_only : only_block l ba (dev s0) (dev s);
  vf_bytes : ∀ j, 0 ≤ j < pos → phys_byte l (dev s) (ba * E + j) = zget data j;
}.

(** The page at [pos] has been written and read back. *)
Lemma verified_step s0 ba data size pos s s' :
  0 < w → 0 < E → size ≤ E → verified s0 ba data size pos s → pos < size → paged s0 s' →
  (∀ a, a ≠ ba * E + pos → page_at (dev s') a = page_at (dev s) a) →
  (∀ j, 0 ≤ j < Z.min (size - pos) w → zget (page_at (dev s') (ba * E + pos)) j = zget data (pos + j)) →
  verified s0 ba data size (pos + Z.min (size - pos) w) s'.
Proof using Hdiv.
  intros Hw HE Hsz [_ Hpos Hal Ho Hby] Hlt Hp' Hoth Hnew.
  assert (Hpw : pos `mod` w = 0) by (destruct Hal; [done|lia]).
  pose proof (page_in_block ba pos Hw HE Hpw) as Haw. constructor; [done|lia| | |].
  - destruct (decide (size - pos ≤ w)); [right; lia|left]. rewrite Z.min_r by lia.
    rewrite <- (Z.mul_1_l w) at 1. by rewrite Z.mod_add by lia.
  - intros a Ha. rewrite Hoth by lia. by apply Ho.
  - intros j Hj. destruct (decide (j < pos)) as [Hold|Hold].
    + rewrite <- Hby by lia. unfold phys_byte. rewrite Hoth; [done|]. intros He.
      pose proof (Z.mod_pos_bound (ba * E + j) w Hw) as Hm. unfold page_base in He. lia.
    + replace (ba * E + j) with (ba * E + pos + (j - pos)) by lia. rewrite phys_byte_page by (done || lia).
      rewrite Hnew by lia. f_equal. lia.
Qed.

(** nmbn_write_verify_data() to the start of a block. *)
Lemma wlp_write_verify ba data size me s (Q : bool → nmbm D → Prop) :
  geom_ok (ni s) → lower (ni s) = l → 0 ≤ size ≤ E →
  (∀ b s', only_block l ba (dev s) (dev s') → paged s s' →
     (b = true → ∀ j, 0 ≤ j < size → phys_byte l (dev s') (ba * E + j) = zget data j) → Q b s') →
  wlp (nmbn_write_verify_data (ba * E) data size) me s Q.
Proof using Hdiv IN.
  intros G Hl Hsz HQ. assert (Hw : 0 < w ∧ 0 < E) by (destruct G; rewrite Hl in *; lia).
  destruct Hw as [Hw HE]. unfold nmbn_write_verify_data. lsteps.
  apply (wlp_while_brk (λ '(_, pos) s', verified s ba data size pos s')).
  { constructor; [apply paged_refl|lia|by left|apply only_block_refl|lia]. }
  intros [r pos] s1 Hv. pose proof Hv as [Hp1 Hpos Hal Ho1 Hby1]. destruct (Z.eqb_spec (size - pos) 0) as [He|Hne].
  { lsteps. apply HQ; [done..|]. intros _ j Hj. apply Hby1. lia. }
  assert (Hpw : pos `mod` w = 0) by (destruct Hal; [done|lia]).
  pose proof (page_in_block ba pos Hw HE Hpw) as Haw.
  destruct (paged_state _ _ Hp1) as (_ & _ & _ & Hl1 & _).
  assert (G1 : geom_ok (ni s1)) by (by eapply paged_geom). lsteps.
  rewrite page_chunk_aligned by (done || lia || congruence). lsteps.
  match goal with H : mem_fill _ _ _ _ = Some ?p, H' : mem_read data _ _ = Some ?q, H'' : mem_copy ?p _ _ _ = Some ?c |- _ =>
    rename H into Hfill, p into pc0, H' into Hpart, q into part, H'' into Hcopy, c into pc end.
  rewrite Z.sub_0_r. cbn [ni dev].
  assert (Hlen : zlen pc = zlen (page_cache (ni s1))).
  { rewrite (mem_copy_len _ _ _ _ _ Hcopy). by apply mem_fill_len in Hfill. }
  assert (Hp2 : ∀ d, paged s1 (Nmbm (set_page_cache pc (ni s1)) d)) by (intros d; by exists pc).
  apply (wlp_write_frame l); [cbn; congruence|]. cbn [ni dev]. intros b d Hd.
  assert (Ho2 : only_block l ba (dev s) d).
  { intros a Ha. rewrite Hd by lia. by apply Ho1. }
  assert (Hpp : paged s (Nmbm (set_page_cache pc (ni s1)) d)) by (by eapply paged_trans).
  destruct b; cbn [negb]; lsteps; [|by apply HQ].
  apply (wlp_read_cached l); [by eapply paged_geom|cbn; congruence|]. cbn [ni dev]. intros rc s2 Hp3 Hs3 Hc3.
  assert (Hpp2 : paged s s2) by (by eapply paged_trans).
  assert (Ho3 : only_block l ba (dev s) (dev s2)) by (eapply only_block_trans; [done|by apply only_block_same]).
  destruct (Z.ltb_spec rc 0) as [|Hrc]; lsteps; [by apply HQ|].
  match goal with H : mem_read (page_cache _) _ _ = Some ?g |- _ => rename H into Hgot, g into got end.
  case_bool_decide as Heq; lsteps; [|by apply HQ]. subst got.
  eapply verified_step; [done..|lia|exact Hv|lia|done| |].
  - intros a Ha. by rewrite Hs3, Hd.
  - intros j Hj. destruct (paged_state _ _ Hpp2) as (_ & _ & _ & Hl2 & _).
    rewrite Hs3, <- Hc3 by done. rewrite (cached_bytes s2 _ part) by (done || lia || congruence).
    apply mem_read_slice in Hpart as (-> & _ & _ & _). by rewrite zget_zslice by lia.
Qed.

(** nmbm_write_repeated_data(): the data at the start of every page. *)
Definition repeated (ba : Z) (data : list Z) (size : Z) (d : D) : Prop :=
  ∀ o j, 0 ≤ o < E → o `mod` w = 0 → 0 ≤ j < size → phys_byte l d (ba * E + o + j) = zget data j.

Lemma wlp_write_repeated ba data size me s (Q : bool → nmbm D → Prop) :
  geom_ok (ni s) → lower (ni s) = l → 0 ≤ ba < block_count (ni s) → 0 ≤ size →
  (∀ b s', only_block l ba (dev s) (dev s') → paged s s' → (b = true → repeated ba data size (dev s')) → Q b s') →
  wlp (nmbm_write_repeated_data ba data size) me s Q.
Proof using Hdiv IN.
  intros G Hl Hba Hsz HQ. assert (Hw : 0 < w ∧ 0 < E) by (destruct G; rewrite Hl in *; lia).
  destruct Hw as [Hw HE]. unfold nmbm_write_repeated_data. lsteps. rewrite Hl.
  destruct (Z.ltb_spec w size) as [|Hle]; lsteps; [by apply HQ; [apply only_block_refl|apply paged_refl|]|].
  rewrite (ba2addr_geom l) by done.
  apply (wlp_for_pages l (λ i r s', paged s s' ∧ only_block l ba (dev s) (dev s') ∧
    ∀ k j, 0 ≤ k < i → 0 ≤ j < size → zget (page_at (dev s') (ba * E + k * w)) j = zget data j)); [done|done| | |].
  { split_and!; [apply paged_refl|apply only_block_refl|lia]. }
  2:{ intros i r s1 Hi (Hp1 & Ho1 & Hby1). apply HQ; [done..|]. intros _ o j Ho Hom Hj.
      rewrite phys_byte_page; [|done|by apply page_in_block|lia].
      assert (Hoe : o = o / w * w) by (pose proof (Z.div_mod o w); lia). rewrite Hoe.
      apply Hby1; [|done]. split; [apply Z.div_pos; lia|]. nia. }
  intros i r s1 Hi (Hp1 & Ho1 & Hby1). destruct (paged_state _ _ Hp1) as (_ & _ & _ & Hl1 & _).
  assert (G1 : geom_ok (ni s1)) by (by eapply paged_geom). lsteps.
  match goal with H : mem_copy _ _ _ _ = Some ?p, H' : mem_fill ?p _ _ _ = Some ?c |- _ =>
    rename H into Hcopy, p into pc0, H' into Hfill, c into pc end. cbn [ni dev].
  assert (Hlen : zlen pc = zlen (page_cache (ni s1))).
  { rewrite (mem_fill_len _ _ _ _ _ Hfill). by apply mem_copy_len in Hcopy. }
  assert (Hp2 : ∀ d, paged s1 (Nmbm (set_page_cache pc (ni s1)) d)) by (intros d; by exists pc).
  apply (wlp_write_frame l); [cbn; congruence|]. cbn [ni dev]. intros b d Hd.
  assert (Ho2 : only_block l ba (dev s) d).
  { intros a Ha. rewrite Hd by lia. by apply Ho1. }
  assert (Hpp : paged s (Nmbm (set_page_cache pc (ni s1)) d)) by (by eapply paged_trans).
  destruct b; cbn [negb]; lsteps; [|by apply HQ].
  apply (wlp_read_cached l); [by eapply paged_geom|cbn; congruence|]. cbn [ni dev]. intros rc s2 Hp3 Hs3 Hc3.
  assert (Hpp2 : paged s s2) by (by eapply paged_trans).
  assert (Ho3 : only_block l ba (dev s) (dev s2)) by (eapply only_block_trans; [done|by apply only_block_same]).
  destruct (Z.ltb_spec rc 0) as [|Hrc]; lsteps; [by apply HQ|].
  match goal with H : mem_read (page_cache _) _ _ = Some ?g |- _ => rename H into Hgot, g into got end.
  case_bool_decide as Heq; [|by apply HQ]. subst got. split_and!; [done..|].
  destruct (paged_state _ _ Hpp2) as (_ & _ & _ & Hl2 & _).
  intros k j Hk Hj. rewrite Hs3. destruct (decide (k = i)) as [->|Hne].
  - rewrite <- Hc3 by done. rewrite (cached_bytes s2 _ _ j) by (done || lia || congruence). by apply zget_take.
  - rewrite Hd; [apply Hby1; lia|]. nia.
Qed.
End Verify.

(** ** The management area *)

Section Area.
Context {D : Type} (l : nmbm_lower_device D) {SN : StableNand l} {IN : IsolatedNand l}.
Context (Hdiv : erasesize l `mod` writesize l = 0).
Context (s0 : nmbm D) (G : geom_ok (ni s0)) (Hl : lower (ni s0) = l).
Implicit Types (s : nmbm D) (n : nmbm_instance D).
Abbreviation w := (writesize l).
Abbreviation E := (erasesize l).

(** Only pages of the blocks from [lo] below [hi] differ. *)
Definition only_blocks (lo hi : Z) (d d' : D) : Prop :=
  ∀ a, ¬ (lo * E ≤ a < hi * E) → page_at d' a = page_at d a.

Lemma only_blocks_one lo hi ba d1 d2 d3 :
  0 < E → lo ≤ ba < hi → only_blocks lo hi d1 d2 → only_block l ba d2 d3 → only_blocks lo hi d1 d3.
Proof. intros HE Hba H1 H2 a Ha. rewrite H2 by nia. by apply H1. Qed.

(** The good blocks elsewhere do not depend on the state of [i]. *)
Lemma good_blocks_only lo hi i s s' :
  0 ≤ lo → i < lo ∨ hi ≤ i → only_state i s s' →
  good_blocks (block_state (ni s')) lo hi = good_blocks (block_state (ni s)) lo hi.
Proof using.
  intros Hlo Hi Ho. unfold good_blocks.
  assert (Hin : ∀ b, b ∈ seqZ lo (hi - lo) → is_good (block_state (ni s')) b = is_good (block_state (ni s)) b).
  { intros b Hb%elem_of_seqZ. apply Ho; lia. }
  revert Hin. generalize (seqZ lo (hi - lo)). intros L Hin. induction L as [|b L IH]; [done|].
  rewrite !filter_cons, IH by (intros; apply Hin; by right). specialize (Hin b ltac:(left)).
  do 2 case_decide; congruence.
Qed.

Lemma good_blocks_next lo i s s' :
  0 ≤ lo ≤ i → only_state i s s' →
  good_blocks (block_state (ni s')) lo (i + 1) =
  good_blocks (block_state (ni s)) lo i ++ if is_good (block_state (ni s')) i then [i] else [].
Proof using.
  intros Hlo Ho. rewrite (good_blocks_split _ lo i (i + 1)) by lia.
  by rewrite good_blocks_one, (good_blocks_only lo i i s s') by (done || lia).
Qed.

(** A byte of another block. *)
Lemma phys_byte_other b i r d d' :
  0 < w → 0 < E → b ≠ i → 0 ≤ r < E → only_block l i d d' →
  phys_byte l d' (b * E + r) = phys_byte l d (b * E + r).
Proof using Hdiv.
  intros Hw HE Hne Hr Ho. unfold phys_byte. rewrite Ho; [done|].
  pose proof (page_base_mod w E (b * E + r) Hw HE Hdiv) as Hq.
  assert (Hb : (b * E + r) / E = b) by (symmetry; apply (Z.div_unique_pos _ _ _ r); lia).
  rewrite Hb in Hq. intros Hin. apply Hne. rewrite <- Hq. symmetry.
  apply (Z.div_unique_pos _ _ _ (page_base w (b * E + r) - i * E)); lia.
Qed.

(** The first [pos] bytes of [data] are in the good blocks from [lo] below
    [i], in order. *)
Record filed (lo hi : Z) (data : list Z) (size i pos : Z) (start : option Z) s : Prop := {
  fi_low : low s0 s;
  fi_pos : pos = Z.min size (zlen (good_blocks (block_state (ni s)) lo i) * E);
  fi_need : zlen (good_blocks (block_state (ni s)) lo i) * E < size + E;
  fi_start : start = head (good_blocks (block_state (ni s)) lo i);
  fi_bytes : ∀ j, 0 ≤ j < pos → ∃ b, zget (good_blocks (block_state (ni s)) lo i) (j / E) = Some b ∧
    phys_byte l (dev s) (b * E + j `mod` E) = zget data j;
  fi_only : only_blocks lo hi (dev s0) (dev s);
}.

Lemma sizes : 0 < w ∧ 0 < E.
Proof using G Hl. destruct G. rewrite Hl in *. lia. Qed.

Lemma low_facts s : low s0 s → geom_ok (ni s) ∧ lower (ni s) = l ∧ block_count (ni s) = block_count (ni s0).
Proof using G Hl. intros Hs. destruct (low_same _ _ Hs) as (-> & -> & _). split; [by eapply low_geom|done]. Qed.

Lemma filed_bytes_kept lo i j data s s' :
  0 ≤ lo ≤ i → only_block l i (dev s) (dev s') →
  (∃ b, zget (good_blocks (block_state (ni s)) lo i) (j / E) = Some b ∧
     phys_byte l (dev s) (b * E + j `mod` E) = zget data j) →
  ∃ b, zget (good_blocks (block_state (ni s)) lo i) (j / E) = Some b ∧
     phys_byte l (dev s') (b * E + j `mod` E) = zget data j.
Proof using Hdiv G Hl.
  intros Hlo Ho (b & Hb & Hby). exists b. split; [done|]. rewrite <- Hby. destruct sizes as [Hw HE].
  apply (phys_byte_other b i); [done..| |by apply Z.mod_pos_bound|done].
  unfold zget in Hb. case_decide; [|done]. apply list_elem_of_lookup_2, elem_of_good_blocks in Hb. lia.
Qed.

(** The block [i] is not used. *)
Lemma filed_skip lo hi data size i pos start s s' :
  0 ≤ lo ≤ i → i < hi → filed lo hi data size i pos start s → low s0 s' → only_state i s s' →
  only_block l i (dev s) (dev s') → is_good (block_state (ni s')) i = false →
  filed lo hi data size (i + 1) pos start s'.
Proof using Hdiv G Hl.
  intros Hlo Hi [_ Hpos Hn Hst Hby Hon] Hlow Hos Hob Hg. destruct sizes as [Hw HE].
  pose proof (good_blocks_next lo i s s' Hlo Hos) as Hgb. rewrite Hg, app_nil_r in Hgb.
  constructor; rewrite ?Hgb; try done.
  - intros j Hj. apply filed_bytes_kept; auto.
  - eapply only_blocks_one; [done| |done|done]. lia.
Qed.

(** The block [i] takes the next chunk. *)
Lemma filed_add lo hi data size i pos start s s' :
  let chunk := if E <? size - pos then E else size - pos in
  0 ≤ lo ≤ i → i < hi → filed lo hi data size i pos start s → pos < size → low s0 s' → only_state i s s' →
  only_block l i (dev s) (dev s') → is_good (block_state (ni s')) i = true →
  (∀ j, 0 ≤ j < chunk → phys_byte l (dev s') (i * E + j) = zget data (pos + j)) →
  filed lo hi data size (i + 1) (pos + chunk) (if pos =? 0 then Some i else start) s'.
Proof using Hdiv G Hl.
  intros chunk Hlo Hi [_ Hpos Hn Hst Hby Hon] Hlt Hlow Hos Hob Hg Hnew. destruct sizes as [Hw HE].
  set (B := good_blocks (block_state (ni s)) lo i) in *.
  assert (Hgb : good_blocks (block_state (ni s')) lo (i + 1) = B ++ [i]).
  { rewrite (good_blocks_next lo i s s' Hlo Hos). by rewrite Hg. }
  pose proof (zlen_nonneg B) as HB. assert (Hpe : pos = zlen B * E) by lia.
  assert (Hc : chunk = Z.min E (size - pos)) by (unfold chunk; case Z.ltb_spec; lia).
  assert (Hlen : zlen (B ++ [i]) = zlen B + 1) by (rewrite zlen_app; done).
  constructor; rewrite ?Hgb; try done.
  - rewrite Hlen. lia.
  - rewrite Hlen. lia.
  - case Z.eqb_spec; intros Hz.
    + assert (zlen B = 0) by nia. by destruct B.
    + rewrite Hst. assert (zlen B ≠ 0) by nia. by destruct B.
  - intros j Hj. destruct (decide (j < pos)) as [Hold|Hold].
    + destruct (filed_bytes_kept lo i j data s s') as (b & Hb & Hbb); [done..|by apply Hby; lia|].
      exists b. split; [|done]. unfold zget in Hb |- *. case_decide; [|done]. by apply lookup_app_l_Some.
    + assert (Hq : j / E = zlen B) by (symmetry; apply (Z.div_unique_pos _ _ _ (j - pos)); lia).
      assert (Hr : j `mod` E = j - pos) by (symmetry; apply (Z.mod_unique_pos _ _ (zlen B)); lia).
      exists i. rewrite Hq, Hr. split.
      * unfold zget. rewrite decide_True by lia. unfold zlen. rewrite Nat2Z.id. by apply list_lookup_middle.
      * rewrite Hnew by lia. f_equal. lia.
  - eapply only_blocks_one; [done| |done|done]. lia.
Qed.

(** What nmbm_write_mgmt_range() leaves: the first block and the one after the
    last, with [data] in the good blocks between, or too few good blocks. *)
Definition area_written (ba limit : Z) (data : list Z) (size : Z) (r : option (Z * Z)) s : Prop :=
  let blocks e := good_blocks (block_state (ni s)) ba e in
  match r with
  | Some (start, e) =>
      ba ≤ start < e ∧ e ≤ limit ∧ head (blocks e) = Some start ∧ size ≤ zlen (blocks e) * E < size + E ∧
      ∀ j, 0 ≤ j < size → ∃ b, zget (blocks e) (j / E) = Some b ∧
        phys_byte l (dev s) (b * E + j `mod` E) = zget data j
  | None => zlen (blocks limit) * E < size
  end ∧ only_blocks ba limit (dev s0) (dev s).

Lemma filed_end lo hi data size i pos start me s :
  0 < size → filed lo hi data size i pos start s → i ≤ Z.max lo hi → (pos = size ∨ i = Z.max lo hi) →
  wlp (if negb (size - pos =? 0) then ret None else start ← some start; ret (Some (start, i))) me s
    (area_written lo hi data size).
Proof using G Hl.
  intros Hsz [_ Hpos Hn Hst Hby Hon] Hi Hend. destruct sizes as [Hw HE].
  set (B := good_blocks (block_state (ni s)) lo i) in *.
  destruct (Z.eqb_spec (size - pos) 0) as [He|Hne]; cbn [negb]; lsteps.
  - match goal with H : start = Some ?x |- _ => rename x into st, H into Hs' end.
    assert (Hin : st ∈ B) by (rewrite Hs' in Hst; destruct B; simplify_eq/=; left).
    apply elem_of_good_blocks in Hin as [Hin _]. split; [|done]. fold B.
    split_and!; [lia|lia|lia|by rewrite <- Hst|lia|lia|]. intros j Hj. apply Hby. lia.
  - split; [|done]. destruct Hend as [|Hend]; [lia|]. destruct (decide (lo ≤ hi)) as [Hlh|Hlh].
    + assert (i = hi) by lia. subst hi. fold B. lia.
    + rewrite good_blocks_nil by lia. done.
Qed.

(** One block is filled with the chunk of [data] at [pos]. *)
Lemma wlp_fill_block i data pos chunk erased me s :
  low s0 s → 0 ≤ i < block_count (ni s0) → 0 ≤ pos → 0 ≤ chunk ≤ E →
  wlp (if erased : bool then
         addr ← getn (λ n, ba2addr n i); part ← some (mem_read data pos chunk); nmbn_write_verify_data addr part chunk
       else ret false) me s
    (λ b s', only_block l i (dev s) (dev s') ∧ paged s s' ∧
       (b = true → ∀ j, 0 ≤ j < chunk → phys_byte l (dev s') (i * E + j) = zget data (pos + j))).
Proof using Hdiv G Hl IN.
  intros Hlow Hi Hpos Hc. destruct (low_facts s Hlow) as (G1 & Hl1 & Hc1).
  destruct erased; lsteps; [|split_and!; [apply only_block_refl|apply paged_refl|done]].
  match goal with H : mem_read data _ _ = Some ?p |- _ => apply mem_read_slice in H as (-> & _ & _ & _) end.
  rewrite (ba2addr_geom l) by (done || lia). apply (wlp_write_verify l Hdiv); [done|done|lia|].
  intros b s4 Ho4 Hp4 Hby4. split_and!; [done|done|]. intros Hb j Hj. rewrite Hby4 by done.
  by apply zget_zslice; lia.
Qed.

(** A block that could not be written becomes bad. *)
Lemma wlp_give_up i me s (Q : unit → nmbm D → Prop) :
  low s0 s → 0 ≤ i < block_count (ni s0) → is_good (block_state (ni s)) i = true →
  (∀ s', low s0 s' → only_block l i (dev s) (dev s') → only_state i s s' →
     is_good (block_state (ni s')) i = false → Q tt s') → wlp (mark_bad i) me s Q.
Proof using G Hl IN.
  intros Hlow Hi Hg HQ. destruct (low_facts s Hlow) as (G1 & Hl1 & Hc1). apply (wlp_and (λ _ s', low s0 s')).
  - by apply (wlp_of_wp _ _ _ (λ _, False)), (wp_mark_bad s0 G).
  - apply (wlp_mark_bad l); [done|done|lia|]. auto.
Qed.

(** A block is looked at, and erased if it is good. *)
Lemma wlp_usable i me s (Q : bool → nmbm D → Prop) :
  low s0 s → 0 ≤ i < block_count (ni s0) →
  (∀ b s', low s0 s' → same_pages (dev s) (dev s') → only_state i s s' →
     is_good (block_state (ni s')) i = b → Q b s') → wlp (block_usable i) me s Q.
Proof using G Hl IN.
  intros Hlow Hi HQ. destruct (low_facts s Hlow) as (G1 & Hl1 & Hc1). apply (wlp_and (λ _ s', low s0 s')).
  - by apply (wlp_of_wp _ _ _ (λ _, False)), (wp_block_usable s0 G).
  - apply (wlp_block_usable l); [done|done|lia|]. auto.
Qed.

Lemma wlp_write_mgmt_range ba limit data size me :
  0 ≤ ba → limit ≤ block_count (ni s0) → zlen data = size → 0 < size →
  wlp (nmbm_write_mgmt_range ba limit data size) me s0 (area_written ba limit data size).
Proof using Hdiv G Hl IN.
  intros Hba Hlim Hlen Hsz. destruct sizes as [Hw HE]. unfold nmbm_write_mgmt_range. lsteps.
  apply (wlp_for_brk_to (λ i '(pos, start) s', filed ba limit data size i pos start s')).
  { constructor; rewrite ?good_blocks_nil by lia; unfold zlen; simpl; try (done || lia). apply low_refl. }
  2:{ intros [pos start] s1 Hf. replace (limit - 1 + 1) with limit in * by lia.
      apply filed_end; [done|done|lia|by right]. }
  intros i [pos start] s1 Hi Hf. destruct (Z.eqb_spec (size - pos) 0) as [He|Hne]; lsteps.
  { apply filed_end; [done|done|lia|left; lia]. }
  pose proof (fi_low _ _ _ _ _ _ _ _ Hf) as Hlow1. destruct (low_same _ _ Hlow1) as (Hl1 & Hc1 & _).
  rewrite Hl1, Hl. pose proof (fi_pos _ _ _ _ _ _ _ _ Hf) as Hpos.
  assert (Hpos0 : 0 ≤ pos) by (pose proof (zlen_nonneg (good_blocks (block_state (ni s1)) ba i)); nia).
  set (chunk := if E <? size - pos then E else size - pos).
  assert (Hchunk : 0 < chunk ≤ size - pos ∧ chunk ≤ E) by (unfold chunk; case Z.ltb_spec; lia).
  apply wlp_usable; [done|lia|]. intros ok s2 Hlow2 Hs2 Hos2 Hg2. destruct ok; cbn [negb]; lsteps.
  2:{ eapply filed_skip; [lia|lia|done|done|done|by apply only_block_same|done]. }
  destruct (low_facts s2 Hlow2) as (G2 & Hl2 & Hc2).
  apply (wlp_erase_check l); [done|done|lia|]. intros b s3 Hp3 Ho3. lsteps.
  assert (Hlow3 : low s0 s3) by (by eapply low_paged).
  eapply wlp_mono; [apply wlp_fill_block; [done|lia..]|]. intros ok s4 (Ho4 & Hp4 & Hby4). cbv beta.
  assert (Hlow4 : low s0 s4) by (by eapply low_paged).
  assert (Hp24 : paged s2 s4) by (by eapply paged_trans).
  assert (Hos4 : only_state i s1 s4) by (eapply only_state_trans; [done|by apply only_state_paged]).
  assert (Hob4 : only_block l i (dev s1) (dev s4)).
  { eapply only_block_trans; [by apply only_block_same|]. by eapply only_block_trans. }
  rewrite <- (paged_good _ _ _ Hp24) in Hg2. destruct ok; lsteps.
  - eapply filed_add; [lia|lia|done|lia|done|done|done|done|by apply Hby4].
  - apply wlp_give_up; [done|lia|done|]. intros s5 Hlow5 Ho5 Hos5 Hg5. lsteps.
    eapply filed_skip; [lia|lia|done|done| | |done]; [by eapply only_state_trans|by eapply only_block_trans].
Qed.

(** What nmbm_write_signature() leaves: the highest block that is good, with
    the signature in all its pages, or no good block above [limit]. *)
Definition signature_written (limit : Z) (sig : nmbm_signature) (r : option Z) s : Prop :=
  match r with
  | Some ba =>
      limit < ba < block_count (ni s0) ∧ good_blocks (block_state (ni s)) ba (block_count (ni s0)) = [ba] ∧
      repeated l ba (signature_bytes sig) sizeof_nmbm_signature (dev s)
  | None => good_blocks (block_state (ni s)) (limit + 1) (block_count (ni s0)) = []
  end ∧ only_blocks (limit + 1) (block_count (ni s0)) (dev s0) (dev s).

(** One more block, from above. *)
Lemma good_blocks_below ba hi s s' :
  0 ≤ ba < hi → only_state ba s s' → good_blocks (block_state (ni s)) (ba + 1) hi = [] →
  good_blocks (block_state (ni s')) ba hi = if is_good (block_state (ni s')) ba then [ba] else [].
Proof using.
  intros Hba Ho Hn. rewrite (good_blocks_split _ ba (ba + 1) hi), good_blocks_one by lia.
  rewrite (good_blocks_only (ba + 1) hi ba s s'), Hn by (done || lia). by rewrite app_nil_r.
Qed.

Lemma wlp_write_signature limit sig me :
  0 ≤ limit < block_count (ni s0) →
  wlp (nmbm_write_signature limit sig) me s0 (signature_written limit sig).
Proof using Hdiv G Hl IN.
  intros Hlim. destruct sizes as [Hw HE]. set (cnt := block_count (ni s0)) in *.
  unfold nmbm_write_signature. lsteps. fold cnt.
  assert (Htop : u32 (cnt - 1) = cnt - 1)
    by (pose proof (g_blocks _ G) as Hb; fold cnt in Hb; unfold u32; apply Z.mod_small; lia).
  rewrite Htop. apply (wlp_for_brk_to (λ i r s', r = None ∧ low s0 s' ∧ only_blocks (limit + 1) cnt (dev s0) (dev s') ∧
    good_blocks (block_state (ni s')) (cnt - i) cnt = [])).
  { split_and!; [done|apply low_refl|done|]. by rewrite good_blocks_nil by lia. }
  2:{ intros r s1 (-> & _ & Ho & Hn). lsteps. split; [|done]. fold cnt.
      by replace (cnt - Z.max 0 (cnt - 1 - limit - 1 + 1)) with (limit + 1) in Hn by lia. }
  intros i r s1 Hi (-> & Hlow1 & Ho1 & Hn1). set (ba := cnt - 1 - i) in *.
  replace (cnt - i) with (ba + 1) in Hn1 by lia. replace (cnt - (i + 1)) with ba by lia. lsteps.
  apply wlp_usable; [done|fold cnt; lia|]. intros ok s2 Hlow2 Hs2 Hos2 Hg2. destruct ok; cbn [negb]; lsteps.
  2:{ split_and!; [done|done| |by rewrite (good_blocks_below _ _ s1), Hg2 by (done || lia)].
      eapply (only_blocks_one _ _ ba); [done|lia|done|by apply only_block_same]. }
  destruct (low_facts s2 Hlow2) as (G2 & Hl2 & Hc2). fold cnt in Hc2.
  apply (wlp_erase_check l); [done|done|lia|]. intros b s3 Hp3 Ho3. lsteps.
  assert (Hlow3 : low s0 s3) by (by eapply low_paged). destruct (low_facts s3 Hlow3) as (G3 & Hl3 & Hc3). fold cnt in Hc3.
  assert (Hw4 : wlp (if b then nmbm_write_repeated_data ba (signature_bytes sig) sizeof_nmbm_signature else ret false)
    me s3 (λ b s4, only_block l ba (dev s3) (dev s4) ∧ paged s3 s4 ∧
                   (b = true → repeated l ba (signature_bytes sig) sizeof_nmbm_signature (dev s4)))).
  { destruct b; lsteps; [|split_and!; [apply only_block_refl|apply paged_refl|done]].
    apply (wlp_write_repeated l Hdiv); [done|done|lia|done|auto]. }
  eapply wlp_mono; [exact Hw4|]. intros ok s4 (Ho4 & Hp4 & Hby4). cbv beta.
  assert (Hlow4 : low s0 s4) by (by eapply low_paged).
  assert (Hp24 : paged s2 s4) by (by eapply paged_trans).
  assert (Hos4 : only_state ba s1 s4) by (eapply only_state_trans; [done|by apply only_state_paged]).
  assert (Hob4 : only_blocks (limit + 1) cnt (dev s0) (dev s4)).
  { eapply (only_blocks_one _ _ ba); [done|lia|done|].
    eapply only_block_trans; [by apply only_block_same|]. by eapply only_block_trans. }
  rewrite <- (paged_good _ _ _ Hp24) in Hg2. destruct ok; lsteps.
  - split; [|done]. fold cnt. split_and!; [lia|lia| |by apply Hby4].
    by rewrite (good_blocks_below _ _ s1), Hg2 by (done || lia).
  - apply wlp_give_up; [done|fold cnt; lia|done|]. intros s5 Hlow5 Ho5 Hos5 Hg5. lsteps.
    split_and!; [done|done|by eapply (only_blocks_one _ _ ba); [|lia|..]|].
    rewrite (good_blocks_below _ _ s1), Hg5; [done|lia|by eapply only_state_trans|done].
Qed.
End Area.
