(* ===== verification/NmbmCreate.v ===== *)
(** * NMBM: attaching to a chip without a signature

    The geometry nmbm_init_structure() computes, the search for the signature,
    and the creation of the management area: nmbm_attach() on a new chip ends
    and gives a well-formed instance. *)

From stdpp Require Import base list numbers list_numbers.
From Stdlib Require Import ZArith Lia.
From S2P Require Import Prelude Bytes Crc32 NmbmTypes NmbmCore NmbmTables.
From S2P Require Import NmbmIo NmbmOps NmbmLayout NmbmWf NmbmSafe NmbmImage.
From S2P Require Import NmbmWalk NmbmBlocks NmbmTableSafe NmbmApi.
Open Scope Z_scope.

(** ** Powers of two *)

Lemma power_of_2_spec x : 0 ≤ x < 2 ^ 64 → is_power_of_2 x = true → ∃ k, 0 ≤ k < 64 ∧ x = 2 ^ k.
Proof.
  unfold is_power_of_2. intros Hx. destruct (Z.eqb_spec x 0); [done|]. simpl. intros Hl%Z.eqb_eq.
  unfold u64 in Hl. rewrite Z.mod_small in Hl by lia.
  pose proof (Z.log2_spec x ltac:(lia)) as Hs. pose proof (Z.log2_nonneg x) as Hk.
  exists (Z.log2 x). split; [split; [done|]|].
  { apply Z.log2_lt_pow2; lia. }
  destruct (decide (x = 2 ^ Z.log2 x)) as [|Hne]; [done|]. exfalso.
  assert (Hb : Z.testbit (Z.land x (x - 1)) (Z.log2 x) = true); [|by rewrite Hl, Z.bits_0 in Hb].
  rewrite Z.land_spec, Z.bit_log2 by lia. simpl.
  replace (Z.log2 x) with (Z.log2 (x - 1)); [apply Z.bit_log2; lia|].
  apply Z.log2_unique; [done|]. lia.
Qed.

Lemma ffs_pow2 k : 0 ≤ k < 32 → ffs (2 ^ k) = k + 1.
Proof.
  assert (H : Forall (λ k, ffs (2 ^ k) = k + 1) (seqZ 0 32)) by (apply (bool_decide_unpack _); by vm_compute).
  rewrite Forall_forall in H. intros Hk. apply H, elem_of_seqZ. lia.
Qed.

Lemma land_not_ones x k : 0 ≤ k < 32 → 0 ≤ x < 2 ^ 32 → Z.land x (not32 (Z.ones k)) = x - x `mod` 2 ^ k.
Proof.
  intros Hk Hx. transitivity (Z.ldiff x (Z.ones k)).
  - apply Z.bits_inj'. intros i Hi. rewrite Z.land_spec, Z.ldiff_spec.
    destruct (decide (i < 32)); [by rewrite testbit_not32 by lia|].
    replace (Z.testbit x i) with false; [done|]. symmetry.
    destruct (decide (x = 0)) as [->|]; [apply Z.bits_0|]. apply Z.bits_above_log2; [lia|].
    apply Z.log2_lt_pow2; [lia|]. apply Z.lt_le_trans with (2 ^ 32); [lia|]. apply Z.pow_le_mono_r; lia.
  - rewrite Z.ldiff_ones_r, Z.shiftr_div_pow2, Z.shiftl_mul_pow2 by lia.
    pose proof (Z.div_mod x (2 ^ k)). lia.
Qed.

Lemma NMBM_ALIGN_spec v k : 0 ≤ k < 32 → 0 ≤ v → v + 2 ^ k ≤ 2 ^ 32 →
  v ≤ NMBM_ALIGN v (2 ^ k) < v + 2 ^ k.
Proof.
  intros Hk Hv Hb. unfold NMBM_ALIGN. assert (0 < 2 ^ k) by lia.
  replace (2 ^ k - 1) with (Z.ones k) by (rewrite Z.ones_equiv; lia).
  rewrite land_not_ones by lia. pose proof (Z.mod_pos_bound (v + 2 ^ k - 1) (2 ^ k)). lia.
Qed.

(** ** The geometry *)

(** A device nmbm_attach() accepts, of a size for which the 32-bit sizes of
    the tables do not overflow. *)
Record device_ok {D} (l : nmbm_lower_device D) : Prop := {
  do_lower : lower_ok l;
  do_chip : 0 ≤ chip_size l < 2 ^ 63;
  do_erase : 0 ≤ erasesize l < 2 ^ 32;
  do_write : 0 ≤ writesize l ≤ 2 ^ 24;
  do_oob : 0 ≤ oobsize l ≤ 2 ^ 24;
  do_blocks : 32 ≤ chip_size l / erasesize l ≤ 2 ^ 24;
  do_ratio : 0 ≤ max_ratio l;
  do_reserved : 0 ≤ max_reserved_blocks l;
}.

Lemma check_lower_members {D} (l l' : nmbm_lower_device D) :
  device_ok l → nmbm_check_lower_members l = (true, l') →
  device_ok l' ∧ flags l' = flags l ∧ chip_size l' = chip_size l ∧ erasesize l' = erasesize l ∧
  writesize l' = writesize l ∧ oobsize l' = oobsize l ∧ 1 ≤ max_ratio l' ≤ 14 ∧ 1 ≤ oobsize l ∧
  (∃ c e w, 0 ≤ c ∧ 0 ≤ e < 32 ∧ 0 ≤ w ≤ 24 ∧ e ≤ c ∧
     chip_size l = 2 ^ c ∧ erasesize l = 2 ^ e ∧ writesize l = 2 ^ w).
Proof.
  intros [? ? ? ? ? ? ? ?]. unfold nmbm_check_lower_members.
  destruct (is_power_of_2_u64 (chip_size l)) eqn:Hc; simpl; [|done].
  destruct (is_power_of_2 (erasesize l)) eqn:He; simpl; [|done].
  destruct (is_power_of_2 (writesize l)) eqn:Hw; simpl; [|done].
  destruct (Z.eqb_spec (oobsize l) 0); simpl; [done|].
  destruct (bool_decide _); [done|]. destruct (_ && _); [done|].
  set (l1 := if max_ratio l =? 0 then _ else _).
  destruct (Z.leb_spec (NMBM_MGMT_DIV - 1) (max_ratio l1)) as [|Hr]; [done|].
  destruct (_ && _); [done|]. intros [= <-].
  apply power_of_2_spec in Hc as (c & Hc & Ec); [|lia].
  apply power_of_2_spec in He as (e & He & Ee); [|lia].
  apply power_of_2_spec in Hw as (w & Hw & Ew); [|lia].
  assert (He32 : e < 32) by (apply (Z.pow_lt_mono_r_iff 2); lia).
  assert (Hw24 : w ≤ 24) by (apply (Z.pow_le_mono_r_iff 2); lia).
  assert (Hec : e ≤ c).
  { destruct (decide (e ≤ c)); [done|]. rewrite Ec, Ee, Z.div_small in do_blocks0; [lia|].
    split; [lia|]. apply Z.pow_lt_mono_r; lia. }
  assert (Hl1 : device_ok l1 ∧ flags l1 = flags l ∧ chip_size l1 = chip_size l ∧ erasesize l1 = erasesize l ∧
    writesize l1 = writesize l ∧ oobsize l1 = oobsize l ∧ 1 ≤ max_ratio l1).
  { unfold l1. destruct (Z.eqb_spec (max_ratio l) 0).
    - split; [|simpl; split_and!; done || lia]. destruct do_lower0 as [? ? ?]. by constructor; simpl; try done; lia.
    - split; [by constructor|]. split_and!; done || lia. }
  unfold NMBM_MGMT_DIV in Hr. destruct Hl1 as (? & ? & ? & ? & ? & ? & ?).
  split_and!; try done; try lia. exists c, e, w. split_and!; done || lia.
Qed.

Lemma table_layout B k : 32 ≤ B ≤ 2 ^ 24 → 0 ≤ k ≤ 24 →
  state_size B = 4 * ((B + 15) / 16) ∧ mapping_size B = 4 * B ∧ 32 ≤ state_off (2 ^ k) ∧
  state_off (2 ^ k) + state_size B ≤ mapping_off B (2 ^ k) ∧
  mapping_off B (2 ^ k) + mapping_size B ≤ table_size B (2 ^ k) < 2 ^ 28.
Proof.
  intros HB Hk. assert (Hpow : 1 ≤ 2 ^ k ≤ 2 ^ 24).
  { split; [lia|]. apply Z.pow_le_mono_r; lia. }
  assert (Hdiv : 0 ≤ (B + 15) / 16 ≤ 2 ^ 21).
  { split; [apply Z.div_pos; lia|]. pose proof (Z.div_mod (B + 15) 16). pose proof (Z.mod_pos_bound (B + 15) 16). lia. }
  assert (Hss : state_size B = 4 * ((B + 15) / 16)).
  { unfold state_size, NMBM_BITMAP_BLOCKS_PER_UNIT, NMBM_BITMAP_BITS_PER_UNIT, NMBM_BITMAP_BITS_PER_BLOCK,
      NMBM_BITMAP_UNIT_SIZE, u32. change (8 * 4 / 2) with 16.
    rewrite (Z.mod_small (B + 16 - 1)) by lia. replace (B + 16 - 1) with (B + 15) by lia.
    rewrite Z.mod_small; lia. }
  assert (Hms : mapping_size B = 4 * B) by (unfold mapping_size, u32; rewrite Z.mod_small; lia).
  pose proof (NMBM_ALIGN_spec sizeof_nmbm_info_table_header k) as H1.
  pose proof (NMBM_ALIGN_spec (state_size B) k) as H2. pose proof (NMBM_ALIGN_spec (mapping_size B) k) as H3.
  unfold sizeof_nmbm_info_table_header in *.
  assert (Hso : 32 ≤ state_off (2 ^ k) < 32 + 2 ^ 24).
  { unfold state_off, sizeof_nmbm_info_table_header, u32. rewrite Z.mod_small; lia. }
  assert (Hmo : state_off (2 ^ k) + state_size B ≤ mapping_off B (2 ^ k) < 32 + 2 ^ 24 + 2 ^ 23 + 2 ^ 24).
  { unfold mapping_off, u32. rewrite Z.mod_small; lia. }
  assert (Hts : mapping_off B (2 ^ k) + mapping_size B ≤ table_size B (2 ^ k) < 2 ^ 28).
  { unfold table_size, u32. rewrite Z.mod_small; lia. }
  split_and!; done || lia.
Qed.

Lemma spare_range x : 0 ≤ nmbm_get_spare_block_count x < 2 ^ 31.
Proof.
  unfold nmbm_get_spare_block_count, NMBM_SPARE_BLOCK_MULTI, NMBM_SPARE_BLOCK_DIV, NMBM_SPARE_BLOCK_MIN.
  rewrite Z.mul_1_r. change (2 / 2) with 1. assert (Hb : 0 ≤ u32 (x + 1) < 2 ^ 32).
  { unfold u32. apply Z.mod_pos_bound. lia. }
  set (y := u32 (x + 1)) in *. clearbody y.
  assert (0 ≤ y / 2 < 2 ^ 31) by (split; [apply Z.div_pos; lia|apply Z.div_lt_upper_bound; lia]).
  unfold u32. rewrite Z.mod_small by lia. case Z.ltb_spec; lia.
Qed.

Section Init.
Context {D : Type}.
Abbreviation F := (λ _ : nmbm D, False).
Implicit Types (s : nmbm D) (l : nmbm_lower_device D).

(** What nmbm_init_structure() leaves. *)
Record inited (l : nmbm_lower_device D) (s s' : nmbm D) : Prop := {
  in_geom : geom_ok (ni s');
  in_lower : lower (ni s') = l;
  in_count : block_count (ni s') = chip_size l / erasesize l;
  in_spare : 0 ≤ info_table_spare_blocks (ni s') < 2 ^ 31;
  in_sig : signature (ni s') = signature (ni s);
  in_protected : protected (ni s') = protected (ni s);
}.

Lemma u32_sum_le x n : u64 (u32 x + 0) ≤ n → 0 ≤ x < 2 ^ 32 → x ≤ n.
Proof. intros H Hx. unfold u64, u32 in H. rewrite Z.add_0_r, !Z.mod_small in H; rewrite ?Z.mod_small; lia. Qed.

Lemma wp_init_structure l l0 mem me s (Q : unit → nmbm D → Prop) :
  device_ok l0 → nmbm_check_lower_members l0 = (true, l) → lower (ni s) = l →
  nmbm_calc_structure_size 0 l ≤ zlen mem →
  (∀ s', inited l s s' → Q tt s') →
  wp F (nmbm_init_structure mem) me s Q.
Proof.
  intros Hok0 Hcheck Hlow Hmem HQ.
  destruct (check_lower_members _ _ Hok0 Hcheck) as
    (Hok & _ & Hc & He & Hw & Hoob & _ & Hoob1 & (c & e & w & Hc0 & He0 & Hw0 & Hec & Ec & Ee & Ew)).
  rewrite <- Hc in Ec. rewrite <- He in Ee. rewrite <- Hw in Ew. rewrite <- Hoob in Hoob1.
  clear Hcheck Hok0 l0 Hc He Hw Hoob. destruct Hok as [Hlo Hchip Her Hwr Hob Hbl _ _].
  assert (Hcnt : Z.shiftr (chip_size l) e = chip_size l / erasesize l) by (rewrite Z.shiftr_div_pow2, Ee by lia; done).
  set (B := chip_size l / erasesize l) in *.
  assert (Hfe : u16 (ffs (erasesize l) - 1) = e).
  { rewrite Ee, ffs_pow2 by lia. unfold u16. rewrite Z.mod_small; lia. }
  assert (HBu : u32 B = B) by (unfold u32; rewrite Z.mod_small; lia).
  destruct (table_layout B w Hbl Hw0) as (Hss & Hms & Hso & Hmo & Hts).
  unfold nmbm_calc_structure_size in Hmem. fold B in Hmem. rewrite HBu, Ew in Hmem.
  assert (0 ≤ (B + 15) / 16) by (apply Z.div_pos; lia).
  apply u32_sum_le in Hmem; [|rewrite Ew in Hwr; lia].
  unfold nmbm_init_structure. wsteps. unfold id. rewrite Hlow. rewrite Hfe, Hcnt, HBu. fold B.
  rewrite Ew. set (isize := table_size B (2 ^ w)) in *.
  apply (wp_some _ _ _ _ _ _ (mem_read_ok mem 0 isize ltac:(lia) ltac:(lia) ltac:(lia))). wsteps.
  apply (wp_some _ _ _ _ _ _ (mem_read_ok mem isize (state_size B) ltac:(lia) ltac:(lia) ltac:(lia))). wsteps.
  apply (wp_some _ _ _ _ _ _ (mem_read_ok mem (isize + state_size B) (mapping_size B)
    ltac:(lia) ltac:(lia) ltac:(lia))). wsteps.
  assert (Hraw : u32 (2 ^ w + oobsize l) = 2 ^ w + oobsize l) by (unfold u32; rewrite Z.mod_small; lia).
  rewrite Hraw.
  apply (wp_some _ _ _ _ _ _ (mem_read_ok mem (isize + state_size B + mapping_size B) (2 ^ w + oobsize l)
    ltac:(lia) ltac:(lia) ltac:(lia))). wsteps.
  destruct (mem_fill_ok (zslice mem isize (state_size B)) 0 (state_size B) 255) as (st & Hst & _);
    [lia|lia|rewrite zlen_zslice by lia; lia|].
  apply (wp_some _ _ st); [done|]. wsteps.
  set (n1 := NmbmInstance _ _ _ _ _ _ _ _ _ _ _ _ _ _ _ _ _ _ _ _ _ _ _ _ _ _ _ _ _ _).
  apply HQ. pose proof (spare_range (size2blk n1 isize)) as Hsp.
  set (spare := nmbm_get_spare_block_count _) in *. clearbody spare.
  assert (Hq : state_size B / 4 = (B + 15) / 16).
  { rewrite Hss, Z.mul_comm. apply Z.div_mul. lia. }
  assert (Hq2 : mapping_size B / 4 = B) by (rewrite Hms, Z.mul_comm; apply Z.div_mul; lia).
  assert (Hzst : zlen (words_of_bytes (Z.to_nat (state_size B / 4)) st) = (B + 15) / 16).
  { unfold zlen. rewrite length_words_of_bytes. lia. }
  assert (Hzmp : ∀ mp, zlen (s32 <$> words_of_bytes (Z.to_nat (mapping_size B / 4)) mp) = B).
  { intros mp. unfold zlen. rewrite length_fmap, length_words_of_bytes. lia. }
  assert (Hu32w : u32 (2 ^ w - 1) = 2 ^ w - 1) by (unfold u32; rewrite Z.mod_small; lia).
  assert (Hu32e : u32 (erasesize l - 1) = erasesize l - 1) by (unfold u32; rewrite Z.mod_small; lia).
  assert (Hdiv : B + 15 < 16 * ((B + 15) / 16) + 16 ∧ B * erasesize l ≤ chip_size l).
  { pose proof (Z.div_mod (B + 15) 16). pose proof (Z.mod_pos_bound (B + 15) 16).
    split; [lia|]. subst B. rewrite Z.mul_comm. apply Z.mul_div_le. lia. }
  constructor; [|done..]. constructor; cbn -[Z.pow words_of_bytes zlen]; rewrite ?Ew, ?Hu32w, ?Hu32e, ?Hzst, ?Hzmp.
  all: try done; try lia.
  all: try (rewrite zlen_zslice by lia; lia).
  split; [lia|]. exists w. split; [lia|done].
Qed.
End Init.

(** ** The mapping of a new chip *)

(** The blocks from [lo] up to, but not including, [hi] not known to be bad. *)
Definition usable_blocks (bs : list Z) (lo hi : Z) : list Z :=
  filter (λ b, nmbm_get_block_state_raw bs b ≠ Some BLOCK_ST_BAD) (seqZ lo (hi - lo)).

Lemma usable_blocks_snoc bs hi : 0 ≤ hi →
  usable_blocks bs 0 (hi + 1) = usable_blocks bs 0 hi ++
    (if decide (nmbm_get_block_state_raw bs hi = Some BLOCK_ST_BAD) then [] else [hi]).
Proof.
  intros Hhi. unfold usable_blocks. replace (hi + 1 - 0) with (hi - 0 + 1) by lia.
  rewrite seqZ_app, filter_app by lia. f_equal. replace (0 + (hi - 0)) with hi by lia.
  rewrite seqZ_cons, seqZ_nil by lia. unfold filter. simpl. repeat case_decide; done.
Qed.

Lemma usable_blocks_len bs hi : 0 ≤ hi → zlen (usable_blocks bs 0 hi) ≤ hi.
Proof.
  intros Hhi. unfold usable_blocks, zlen. etransitivity; [apply inj_le, length_filter|].
  rewrite length_seqZ. lia.
Qed.

Lemma zset_append (a rest : list Z) y x :
  zset (a ++ y :: rest) (zlen a) x = a ++ x :: rest.
Proof.
  unfold zset, zlen. rewrite Nat2Z.id. replace (length a) with (length a + 0)%nat at 1 by lia.
  by rewrite insert_app_r.
Qed.

Section Create.
Context {D : Type} (fuel : nat).
Abbreviation F := (λ _ : nmbm D, False).
Implicit Types (s : nmbm D) (n : nmbm_instance D).

(** Filling the next entry of the mapping. *)
Lemma wp_set_next_mapping a y rest x me s (Q : unit → nmbm D → Prop) :
  block_mapping (ni s) = a ++ y :: rest →
  Q tt (Nmbm (set_block_mapping (a ++ x :: rest) (ni s)) (dev s)) →
  wp F (set_mapping (zlen a) x) me s Q.
Proof.
  intros Hb HQ. unfold set_mapping. wsteps. rewrite Hb.
  apply (wp_some _ _ (a ++ x :: rest)); [|by wsteps].
  unfold zput. rewrite decide_True; [by rewrite zset_append|].
  rewrite zlen_app. pose proof (zlen_nonneg a). unfold zlen. simpl. lia.
Qed.

Lemma drop_cons_ex {A} (l : list A) k : (k < length l)%nat → ∃ y, drop k l = y :: drop (S k) l.
Proof.
  intros Hk. destruct (lookup_lt_is_Some_2 l k Hk) as [y Hy]. exists y. by apply drop_S.
Qed.

Lemma wp_build_mapping me s (Q : unit → nmbm D → Prop) :
  geom_ok (ni s) → 0 ≤ mgmt_start_ba (ni s) ≤ block_count (ni s) →
  (let U := usable_blocks (block_state (ni s)) 0 (mgmt_start_ba (ni s)) in
   Q tt (Nmbm (set_data_block_count (zlen U)
      (set_block_mapping (U ++ replicate (Z.to_nat (block_count (ni s) - zlen U)) (-1)) (ni s))) (dev s))) →
  wp F nmbm_build_mapping_table me s Q.
Proof.
  intros G Hm HQ. unfold nmbm_build_mapping_table. wsteps.
  set (bs := block_state (ni s)) in *. pose proof (g_mapping _ G) as Hbm. pose proof (g_blocks _ G) as Hbc.
  apply (wp_for_to _ (λ i lb s', let U := usable_blocks bs 0 i in lb = zlen U ∧
    s' = Nmbm (set_block_mapping (U ++ drop (length U) (block_mapping (ni s))) (ni s)) (dev s))).
  { split; [done|]. unfold usable_blocks. rewrite seqZ_nil by lia. destruct s as [[] d]. done. }
  - intros i lb s1 Hi [-> ->]. wsteps.
    pose proof (usable_blocks_len bs i ltac:(lia)) as Hlen.
    destruct (drop_cons_ex (block_mapping (ni s)) (length (usable_blocks bs 0 i))) as [y Hy].
    { unfold zlen in *. lia. }
    rewrite (usable_blocks_snoc bs i) by lia. unfold nmbm_get_block_state. wsteps.
    cbn [ni block_state set_block_mapping]. fold bs.
    destruct (state_known s i G ltac:(lia)) as (u & st & _ & Hst & _). fold bs in Hst.
    apply (wp_some _ _ st); [done|]. rewrite Hst.
    case (Z.eqb_spec st BLOCK_ST_BAD); intros Hbad; wsteps.
    + rewrite decide_True by congruence. by rewrite app_nil_r.
    + rewrite decide_False by congruence.
      apply (wp_set_next_mapping _ y (drop (S (length (usable_blocks bs 0 i))) (block_mapping (ni s)))).
      { simpl. by rewrite Hy. }
      wsteps. split; [rewrite zlen_app; unfold zlen; simpl; lia|].
      f_equal. simpl. unfold set_block_mapping. simpl. f_equal.
      rewrite length_app, <- app_assoc. simpl. by rewrite Nat.add_1_r.
  - intros lb s1. replace (Z.max 0 (mgmt_start_ba (ni s) - 1 + 1)) with (mgmt_start_ba (ni s)) by lia.
    set (U := usable_blocks bs 0 (mgmt_start_ba (ni s))) in *. intros [-> ->]. wsteps. cbn [ni dev].
    assert (HU : zlen U ≤ mgmt_start_ba (ni s)) by (apply usable_blocks_len; lia).
    pose proof (zlen_nonneg U).
    apply (wp_for_to _ (λ i _ s', s' = Nmbm (set_data_block_count (zlen U) (set_block_mapping
      ((U ++ replicate (Z.to_nat (i - zlen U)) (-1)) ++ drop (Z.to_nat i) (block_mapping (ni s))) (ni s))) (dev s))).
    + rewrite Z.sub_diag. simpl. rewrite app_nil_r. unfold zlen. by rewrite Nat2Z.id.
    + intros i [] s2 Hi ->. cbn [block_count set_data_block_count set_block_mapping ni] in Hi.
      destruct (drop_cons_ex (block_mapping (ni s)) (Z.to_nat i)) as [y Hy]; [unfold zlen in *; lia|].
      assert (Hz : zlen (U ++ replicate (Z.to_nat (i - zlen U)) (-1)) = i).
      { rewrite zlen_app, zlen_replicate; lia. }
      rewrite <- Hz at 1.
      apply (wp_set_next_mapping _ y (drop (S (Z.to_nat i)) (block_mapping (ni s)))).
      { simpl. by rewrite Hy. }
      f_equal. simpl. unfold set_data_block_count, set_block_mapping. simpl. f_equal.
      replace (Z.to_nat (i + 1 - zlen U)) with (S (Z.to_nat (i - zlen U))) by lia.
      replace (Z.to_nat (i + 1)) with (S (Z.to_nat i)) by lia.
      rewrite replicate_S_end. by rewrite <- !app_assoc.
    + intros [] s2 ->. cbn [block_count set_data_block_count set_block_mapping ni].
      replace (Z.max (zlen U) (block_count (ni s) - 1 + 1)) with (block_count (ni s)) by lia.
      rewrite drop_ge by (unfold zlen in *; lia). rewrite app_nil_r. exact HQ.
Qed.

(** ** The search for the signature *)

Lemma header_at_some b : sizeof_nmbm_header ≤ zlen b → ∃ h, header_at b = Some h.
Proof.
  unfold sizeof_nmbm_header. intros Hb. unfold header_at, rd32.
  rewrite !mem_read_ok by lia. cbn. eauto.
Qed.

Lemma signature_at_some b : sizeof_nmbm_signature ≤ zlen b →
  ∃ sig, signature_at b = Some sig ∧ zlen (sig_padding sig) = 7.
Proof.
  unfold sizeof_nmbm_signature. intros Hb. unfold signature_at, rd32.
  destruct (header_at_some b) as [h ->]; [unfold sizeof_nmbm_header; lia|].
  rewrite !mem_read_ok by lia. cbn. eexists. split; [done|]. simpl. by rewrite zlen_zslice by lia.
Qed.

Lemma check_header_some b size : sizeof_nmbm_header ≤ size ≤ zlen b →
  ∃ r, nmbm_check_header b size = Some r.
Proof.
  intros Hb. unfold nmbm_check_header. destruct (header_at_some b) as [h ->]; [lia|].
  case Z.ltb_spec; intros; [eauto|]. case Z.ltb_spec; intros; [|eauto].
  rewrite mem_read_ok by (unfold sizeof_nmbm_header in *; lia). simpl. eauto.
Qed.

Lemma wp_signature_page s0 addr me s (Q : option nmbm_signature → nmbm D → Prop) :
  geom_ok (ni s0) → paged s0 s → (∀ r s', paged s0 s' → Q r s') → wp F (signature_page addr) me s Q.
Proof.
  intros G Hp HQ. unfold signature_page. wsteps.
  apply (wp_nmbn_read_data s0); [done..|]. intros rc b s1 Hp1 Hb.
  destruct (negb _); wsteps; [by apply HQ|].
  destruct (check_header_some b sizeof_nmbm_signature) as [good Hg]; [rewrite Hb; done|].
  apply (wp_some _ _ good); [done|]. destruct good; simpl; wsteps; [|by apply HQ].
  destruct (signature_at_some b) as (sig & Hsig & _); [by rewrite Hb|].
  apply (wp_some _ _ sig); [done|]. wsteps. by apply HQ.
Qed.

Lemma wp_find_signature me s (Q : option (nmbm_signature * Z) → nmbm D → Prop) :
  geom_ok (ni s) → block_count (ni s) + 2 < Z.of_nat fuel →
  u32 (Z.shiftr (chip_size (lower (ni s))) (erasesize_shift (ni s))) = block_count (ni s) →
  1 ≤ signature_limit (ni s) →
  (∀ r s', paged s s' → Q r s') → wp F (nmbm_find_signature fuel) me s Q.
Proof.
  intros G Hfuel Hcnt Hlim HQ. unfold nmbm_find_signature. wsteps. rewrite Hcnt.
  pose proof (g_blocks _ G) as Hbc.
  apply (wp_while_brk _ (λ '(ba, _) s', paged s s' ∧ 0 ≤ ba ≤ block_count (ni s)) _ (λ '(ba, _) _, ba)).
  { split; [apply paged_refl|lia]. }
  { lia. }
  intros [ba r] s1 [Hp1 Hba]. split; [lia|].
  case Z.ltb_spec; intros Hlt; [wsteps; by apply HQ|]. wsteps.
  unfold u32. rewrite Z.mod_small by lia.
  apply (wp_check_bad_phys_block s); [done..|]. intros bad s2 Hp2.
  destruct bad; wsteps; [split; [split; [done|lia]|lia]|].
  apply (wp_for_pages s _ (λ _, True)); [done..| |].
  { intros off a s3 Q' Hp3 _ HQ'. wsteps. apply (wp_signature_page s); [done..|]. intros sig s4 Hp4.
    wsteps. by apply HQ'. }
  intros a s3 Hp3 _. destruct a as [sig|]; wsteps; [by apply HQ|]. split; [split; [done|lia]|lia].
Qed.

Lemma limit_bounds s l l0 :
  device_ok l0 → nmbm_check_lower_members l0 = (true, l) → lower (ni s) = l → geom_ok (ni s) →
  block_count (ni s) = chip_size l / erasesize l →
  u32 (Z.shiftr (chip_size (lower (ni s))) (erasesize_shift (ni s))) = block_count (ni s) ∧
  1 ≤ signature_limit (ni s) ∧ 1 ≤ new_mgmt_start (ni s) < block_count (ni s).
Proof.
  intros Hok0 Hcheck Hl G Hcnt.
  destruct (check_lower_members _ _ Hok0 Hcheck) as (Hok & _ & _ & _ & _ & _ & Hr & _).
  pose proof (do_blocks _ Hok) as HB. pose proof (do_reserved _ Hok) as Hres.
  destruct (g_shift _ G) as [Hs He]. rewrite <- Hcnt in HB. rewrite Hl in *.
  set (B := block_count (ni s)) in *.
  assert (HcB : u32 (Z.shiftr (chip_size l) (erasesize_shift (ni s))) = B).
  { rewrite Z.shiftr_div_pow2, <- He, <- Hcnt by lia. unfold u32. apply Z.mod_small. lia. }
  split; [done|].
  assert (Hu16 : u32 (NMBM_MGMT_DIV - max_ratio l) = 16 - max_ratio l).
  { unfold u32, NMBM_MGMT_DIV. rewrite Z.mod_small; lia. }
  assert (Hmul : 2 * B ≤ B * (16 - max_ratio l) < 16 * B) by nia.
  assert (Hq : 2 ≤ B / 16 ∧ 16 * (B / 16) ≤ B).
  { split; [apply Z.div_le_lower_bound; lia|apply Z.mul_div_le; lia]. }
  assert (Hlim : 1 ≤ B / 16 * (16 - max_ratio l) < B) by nia.
  assert (Hst : 1 ≤ B * (16 - max_ratio l) / 16 < B).
  { split; [apply Z.div_le_lower_bound; lia|apply Z.div_lt_upper_bound; lia]. }
  unfold signature_limit, new_mgmt_start. rewrite Hl, HcB, Hu16. fold B.
  unfold NMBM_MGMT_DIV, u32. rewrite (Z.mod_small (B * _)), (Z.mod_small (B / 16 * _)) by lia.
  set (lim := B / 16 * (16 - max_ratio l)) in *. set (st := B * (16 - max_ratio l) / 16) in *.
  clearbody lim st. rewrite (Z.mod_small (B - lim)), (Z.mod_small (B - st)) by lia.
  unfold cbool. destruct (Z.eqb_spec (max_reserved_blocks l) 0); simpl; [lia|].
  split; case Z.ltb_spec; intros; try lia; rewrite Z.mod_small by lia; lia.
Qed.

(** ** Creating the management area *)

(** What a scan for bad blocks changes. *)
Definition scanned s s' : Prop :=
  ∃ pc bs ch, ni s' = set_page_cache pc (set_block_state_changed ch (set_block_state bs (ni s))) ∧
    zlen pc = zlen (page_cache (ni s)) ∧ zlen bs = zlen (block_state (ni s)).

Lemma scanned_geom s s' : scanned s s' → geom_ok (ni s) → geom_ok (ni s').
Proof.
  intros (pc & bs & ch & He & Hp & Hb) []. rewrite He. destruct (ni s).
  constructor; simpl in *; congruence || lia || done.
Qed.

Lemma wp_scan me s (Q : unit → nmbm D → Prop) :
  geom_ok (ni s) → (∀ s', scanned s s' → Q tt s') → wp F nmbm_scan_badblocks me s Q.
Proof.
  intros G HQ. unfold nmbm_scan_badblocks. wsteps.
  apply (wp_for_to _ (λ _ _ s', scanned s s')).
  - exists (page_cache (ni s)), (block_state (ni s)), (block_state_changed (ni s)). by destruct (ni s).
  - intros i [] s1 Hi Hs1. pose proof (scanned_geom _ _ Hs1 G) as G1. wsteps.
    apply (wp_check_bad_phys_block s1); [done|apply paged_refl|]. intros bad s2 Hp2.
    assert (Hs2 : scanned s s2).
    { destruct Hs1 as (pc & bs & ch & He & Hpl & Hbl), Hp2 as (pc2 & He2 & Hpl2).
      exists pc2, bs, ch. rewrite He2, He. split; [done|]. split; [|done]. rewrite Hpl2, He. simpl. done. }
    pose proof (scanned_geom _ _ Hs2 G) as G2.
    destruct bad; wsteps; [|done].
    apply wp_set_block_state; [done| |].
    { destruct Hs2 as (pc & bs & ch & -> & _). simpl. lia. }
    intros b ch u Hu. wsteps. destruct Hs2 as (pc & bs & ch2 & He & Hpl & Hbl).
    exists pc, (put_state bs i BLOCK_ST_BAD u), ch. rewrite He. simpl. split; [done|]. split; [done|].
    unfold put_state. by rewrite zlen_zset.
  - intros [] s1 Hs1. by apply HQ.
Qed.

(** The blocks up to [mgmt_start_ba] that had to be left out are mapped to
    spare blocks, as far as there are any. *)
Lemma wp_map_rest lb0 mgmt bc me s (Q : Z * unit → nmbm D → Prop) :
  nwf (ni s) → block_count (ni s) = bc → bc + 2 < Z.of_nat fuel →
  0 ≤ lb0 ≤ mgmt → mgmt < bc → data_block_count (ni s) = lb0 →
  (∀ r s', nwf (ni s') → block_count (ni s') = bc → Q r s') →
  wp F (for_brk_to lb0 (mgmt - 1)
          (λ lb _,
             success ← nmbm_map_block fuel lb;
             if negb success then ret (true, tt)
             else
               modn (λ n, set_data_block_count (u32 (data_block_count n + 1)) n);;
               ret (false, tt)) tt) me s Q.
Proof.
  intros W Hbc Hfuel Hlb Hm Hd HQ.
  apply (wp_for_brk_to _ (λ i _ s', nwf (ni s') ∧ block_count (ni s') = bc ∧ data_block_count (ni s') = i)).
  - done.
  - intros i [] s1 Hi (W1 & Hb1 & Hd1). wsteps. apply wp_map_block; [done|lia|lia|].
    intros ok s2 [W2 Hf2] _. injection Hf2 as ? Hb2 Hd2 _ _ _. pose proof (g_blocks _ (wf_geom _ W2)).
    destruct ok; simpl; wsteps; [|apply HQ; [done|lia]].
    cbn [ni dev]. unfold u32. rewrite Z.mod_small by lia. split_and!; [|simpl; lia..].
    destruct W2 as [G2 ? ? ? ? ? ? ? ?]. constructor; simpl; [by destruct G2|done || lia..].
  - intros [] s1 (W1 & Hb1 & _). by apply HQ.
Qed.

Lemma wp_create_info_table me s (Q : bool → nmbm D → Prop) :
  geom_ok (ni s) → block_count (ni s) + 2 < Z.of_nat fuel →
  0 ≤ info_table_spare_blocks (ni s) < 2 ^ 31 → 1 ≤ mgmt_start_ba (ni s) < block_count (ni s) →
  signature_ba (ni s) < block_count (ni s) →
  0 ≤ data_block_count (ni s) ≤ mgmt_start_ba (ni s) →
  Forall (λ m, -1 ≤ m < block_count (ni s)) (block_mapping (ni s)) →
  (∀ r s', (r = true → nwf (ni s')) → Q r s') →
  wp F (nmbm_create_info_table fuel) me s Q.
Proof.
  intros G Hfuel Hsp Hm Hsig Hd Hmap HQ. unfold nmbm_create_info_table. wsteps.
  pose proof (g_blocks _ G) as Hbc.
  unfold nmbm_block_walk. unfold u32. rewrite !Z.mod_small by lia.
  apply wp_walk_desc; [done|lia|lia|lia|].
  destruct (_ !! _) as [top|] eqn:Htop; [|by apply wp_ret, HQ].
  apply list_elem_of_lookup_2 in Htop. rewrite elem_of_reverse, elem_of_good_blocks in Htop.
  pose proof (walk_limit_range s (mgmt_start_ba (ni s)) G ltac:(lia)). wsteps.
  apply wp_generate; [cbn [ni]; by destruct G|]. intros cache ift hdr Hso Hmo _ Him. wsteps. cbn [ni dev] in *.
  set (s1 := Nmbm _ _).
  set (s2 := Nmbm (set_mapping_blocks_ba (mapping_blocks_top_ba (ni s1))
                     (set_backup_table_ba 0 (set_main_table_ba 0 (ni s1)))) (dev s1)).
  assert (W2 : nwf (ni s2)).
  { pose proof (im_len _ _ _ Him) as Hlen. cbn in Hlen, Hso, Hmo. unfold s2, s1.
    constructor; simpl; [|done || lia..]. destruct G. constructor; simpl; rewrite ?Hso, ?Hmo; done. }
  eapply wp_mono; [apply (wp_rebuild_reset fuel s2), tbl_refl, W2|].
  intros ok s3 [Ht3 _]. destruct ok; simpl; [|by apply wp_ret, HQ]. wsteps.
  destruct Ht3 as [W3 Hf3 _ _]. injection Hf3 as _ Hb3 _ Hd3 _ Hm3 _ _ _.
  cbn in Hb3, Hd3, Hm3. rewrite Hm3.
  apply (wp_map_rest _ _ (block_count (ni s))); [done..|lia|lia|done|].
  intros r s4 W4 Hb4. wsteps. apply wp_update; [done|by rewrite Hb4|]. intros r' s5 Ht5 _.
  apply HQ. intros _. apply Ht5.
Qed.

Lemma signature_store sig : zlen (sig_padding sig) = 7 → hdr_size (sig_header sig) = sizeof_nmbm_signature →
  ∃ b sig', nmbm_update_checksum (signature_bytes sig) = Some b ∧ signature_at b = Some sig' ∧
    zlen (sig_padding sig') = 7.
Proof.
  intros Hp Hs. unfold signature_bytes at 1. rewrite <- (header_bytes_u32 (sig_header sig)).
  set (x := u32_header (sig_header sig)). set (r := le_bytes 8 (nand_size sig) ++ _).
  assert (Hr : zlen r = 32) by (unfold r; rewrite !zlen_app, !zlen_le_bytes, Hp; lia).
  destruct (update_checksum_spec x r) as (c & Hc & _).
  - apply u32_header_ok.
  - rewrite zlen_app, zlen_header_bytes, Hr. unfold x. simpl. rewrite Hs. done.
  - destruct (signature_at_some (header_bytes (with_checksum c x) ++ r)) as (sig' & H1 & H2).
    { rewrite zlen_app, zlen_header_bytes, Hr. done. }
    eauto.
Qed.

Lemma wp_create_new me s (Q : bool → nmbm D → Prop) :
  geom_ok (ni s) → block_count (ni s) + 2 < Z.of_nat fuel →
  0 ≤ info_table_spare_blocks (ni s) < 2 ^ 31 → 1 ≤ new_mgmt_start (ni s) < block_count (ni s) →
  zlen (sig_padding (signature (ni s))) = 7 → read_only (ni s) = false →
  (∀ r s', (r = true → nwf (ni s')) → Q r s') →
  wp F (nmbm_create_new fuel) me s Q.
Proof.
  intros G Hfuel Hsp Hm Hpad Hro HQ. unfold nmbm_create_new. wsteps. set (s1 := Nmbm _ _).
  assert (G1 : geom_ok (ni s1)) by (unfold s1; by destruct G).
  apply wp_scan; [done|]. intros s2 Hs2. pose proof (scanned_geom _ _ Hs2 G1) as G2.
  assert (Hsame : block_count (ni s2) = block_count (ni s) ∧ mgmt_start_ba (ni s2) = new_mgmt_start (ni s) ∧
    info_table_spare_blocks (ni s2) = info_table_spare_blocks (ni s) ∧
    signature (ni s2) = signature (ni s) ∧ lower (ni s2) = lower (ni s)).
  { destruct Hs2 as (pc & bs & ch & -> & _). done. }
  destruct Hsame as (Hb2 & Hm2 & Hsp2 & Hsig2 & Hl2). wsteps.
  apply wp_build_mapping; [done|lia|]. cbv zeta.
  set (U := usable_blocks _ _ _). assert (HU : zlen U ≤ mgmt_start_ba (ni s2)) by (apply usable_blocks_len; lia).
  assert (HUm : Forall (λ m, -1 ≤ m < block_count (ni s2)) U).
  { apply Forall_forall. intros x. unfold U, usable_blocks. rewrite list_elem_of_filter, elem_of_seqZ. lia. }
  pose proof (zlen_nonneg U) as HU0. clearbody U. wsteps. cbn [ni dev].
  set (n3 := set_data_block_count _ _).
  assert (G3 : geom_ok n3).
  { unfold n3. pose proof (g_blocks _ G2). destruct G2. constructor; simpl; try done.
    - rewrite zlen_app, zlen_replicate; lia.
    - rewrite zlen_app, zlen_replicate; lia. }
  destruct (signature_store (new_signature n3)) as (b & sig & Hu & Hat & Hp7).
  { change (sig_padding (new_signature n3)) with (sig_padding (signature (ni s2))). by rewrite Hsig2. }
  { done. }
  apply (wp_some _ _ b); [done|]. wsteps. apply (wp_some _ _ sig); [done|]. wsteps. cbn [ni dev].
  replace (read_only (set_signature sig n3)) with false
    by (unfold read_only in *; simpl; by rewrite Hl2). wsteps.
  set (s4 := Nmbm (set_signature sig n3) (dev s2)).
  assert (G4 : geom_ok (ni s4)) by (unfold s4; by destruct G3).
  apply (wp_write_signature s4); [done|apply low_refl|simpl; lia|done|]. intros r s5 Hl5 Hr.
  pose proof (low_geom _ _ Hl5 G4) as G5.
  destruct r as [ba|]; [|by apply wp_ret, HQ]. specialize (Hr ba eq_refl). wsteps.
  destruct Hl5 as [(pc & bs & ch & He5 & _) _ _].
  apply wp_create_info_table; [|..|done]; cbn [ni].
  - by destruct G5.
  - rewrite He5. simpl. lia.
  - rewrite He5. simpl. lia.
  - rewrite He5. simpl. lia.
  - rewrite He5. simpl in *. lia.
  - rewrite He5. simpl. lia.
  - rewrite He5. simpl. apply Forall_app_2; [done|]. apply Forall_replicate. lia.
Qed.
End Create.

(** ** Attaching *)

Section Attach.
Context {D : Type} (fuel : nat).
Abbreviation F := (λ _ : nmbm D, False).
Implicit Types s : nmbm D.

Lemma wp_bind_assoc {A B C} (m : M (nmbm D) A) (f : A → M (nmbm D) B) (g : B → M (nmbm D) C) me s Q :
  wp F (bind (bind m f) g) me s Q → wp F (bind m (λ a, bind (f a) g)) me s Q.
Proof. unfold wp, bind. by destruct (m me s). Qed.

(** The part of nmbm_attach() up to the search for the signature. *)
Definition attach_search (l : nmbm_lower_device D) (mem : list Z) : M (nmbm D) (option (nmbm_signature * Z)) :=
  modn (set_log_display_level NMBM_DEFAULT_LOG_LEVEL);;
  modn (set_lower l);;
  (nmbm_init_structure mem;; nmbm_find_signature fuel).

(** What is known of the instance when the search is over. *)
Record searched (l : nmbm_lower_device D) s s2 : Prop := {
  se_geom : geom_ok (ni s2);
  se_lower : lower (ni s2) = l;
  se_count : block_count (ni s2) = chip_size l / erasesize l;
  se_spare : 0 ≤ info_table_spare_blocks (ni s2) < 2 ^ 31;
  se_sig : signature (ni s2) = signature (ni s);
}.

Lemma wp_attach_search l0 l mem me s :
  device_ok l0 → nmbm_check_lower_members l0 = (true, l) → nmbm_calc_structure_size 0 l ≤ zlen mem →
  chip_size l / erasesize l + 2 < Z.of_nat fuel →
  wp F (attach_search l mem) me s (λ _ s2, searched l s s2).
Proof.
  intros Hok Hcheck Hmem Hfuel. unfold attach_search. wsteps. cbn [ni dev].
  apply (wp_init_structure l l0); [done..|]. intros s1 [G1 Hl1 Hc1 Hsp1 Hsig1 _].
  destruct (limit_bounds s1 l l0) as (Hb1 & Hb2 & _); [done..|].
  apply wp_find_signature; [done|by rewrite Hc1|done..|]. intros r s2 Hp2.
  pose proof (paged_geom _ _ Hp2 G1) as G2. destruct Hp2 as (pc & He & _).
  constructor; [done|by rewrite He..].
Qed.

Lemma attach_new_spec l0 l mem me s :
  device_ok l0 → nmbm_check_lower_members l0 = (true, l) → nmbm_calc_structure_size 0 l ≤ zlen mem →
  chip_size l / erasesize l + 2 < Z.of_nat fuel →
  cbool (Z.land (flags l) NMBM_F_READ_ONLY) = false → zlen (sig_padding (signature (ni s))) = 7 →
  ∃ found s2, attach_search l mem me s = Ret found s2 ∧
    (found = None →
     ∃ rc s', nmbm_attach fuel l0 mem me s = Ret rc s' ∧ (rc = 0 ∨ rc = - ENODEV) ∧ (rc = 0 → nwf (ni s'))).
Proof.
  intros Hok Hcheck Hmem Hfuel Hro Hpad.
  destruct (wp_total _ _ _ _ (wp_attach_search l0 l mem me s Hok Hcheck Hmem Hfuel)) as (found & s2 & Hrun & Hs2).
  exists found, s2. split; [done|]. intros ->.
  assert (Hwp : wp F (nmbm_attach fuel l0 mem) me s
    (λ rc s', (rc = 0 ∨ rc = - ENODEV) ∧ (rc = 0 → nwf (ni s')))); [|by apply wp_total in Hwp].
  unfold nmbm_attach. wsteps. rewrite Hcheck. simpl negb. cbv beta iota.
  apply wp_bind, wp_modn. apply wp_bind_assoc. apply wp_bind.
  eapply wp_Ret; [exact Hrun|]. cbv beta iota.
  destruct (negb _); [by apply wp_ret; split; [right|]|]. wsteps. destruct Hs2.
  destruct (limit_bounds s2 l l0) as (_ & _ & Hb3); [done..|].
  apply wp_create_new; [done|by rewrite se_count0|done|done|by rewrite se_sig0|by unfold read_only; rewrite se_lower0|].
  intros [] s' Hr; wsteps; (split; [auto|]); [by intros _; apply Hr|done].
Qed.
End Attach.
