(* ===== verification/NmbmDemo.v ===== *)
(** * NMBM: a concrete chip

    A NAND chip of 64 blocks of 512 bytes with pages of 128 bytes, held in a
    map from page addresses to contents, on which the theorems about the
    component are instantiated. *)

From stdpp Require Import base list numbers list_numbers gmap.
From Stdlib Require Import ZArith Lia.
From S2P Require Import Prelude Bytes Crc32 NmbmTypes NmbmCore NmbmTables.
From S2P Require Import NmbmIo NmbmOps NmbmLayout NmbmWf NmbmSafe NmbmImage.
From S2P Require Import NmbmWalk NmbmBlocks NmbmTableSafe NmbmApi NmbmCreate.
Open Scope Z_scope.

(** The pages written since their block was erased, the blocks marked bad and
    the blocks that cannot be written. *)
Record nand := Nand { nand_pages : gmap Z (list Z); nand_bads : list Z; nand_worn : list Z }.

Definition nand_read (addr : Z) (data oob : option (list Z)) (mode : nmbm_oob_mode) (c : nand) :=
  ((0, (λ buf, match nand_pages c !! addr with
               | Some p => if decide (length p = length buf) then p else replicate (length buf) 0xff
               | None => replicate (length buf) 0xff
               end) <$> data, oob), c).
Definition nand_write (addr : Z) (data oob : option (list Z)) (mode : nmbm_oob_mode) (c : nand) :=
  if bool_decide (addr / 512 ∈ nand_worn c) then (- EIO, c)
  else (0, Nand (match data with Some p => <[addr := p]> (nand_pages c) | None => nand_pages c end)
             (nand_bads c) (nand_worn c)).
Definition nand_erase (addr : Z) (c : nand) :=
  (0, Nand (delete addr (delete (addr + 128) (delete (addr + 256) (delete (addr + 384) (nand_pages c)))))
        (nand_bads c) (nand_worn c)).
Definition nand_is_bad (addr : Z) (c : nand) := ((if bool_decide (addr / 512 ∈ nand_bads c) then 1 else 0), c).
Definition nand_mark_bad (addr : Z) (c : nand) :=
  (0, Nand (nand_pages c) ((addr / 512) :: nand_bads c) (nand_worn c)).

Definition demo_device (fl : Z) : nmbm_lower_device nand :=
  NmbmLowerDevice nand 4 0 fl 32768 512 128 16 None (Some nand_read) (Some nand_write) None
    (Some nand_erase) (Some nand_is_bad) (Some nand_mark_bad).

Definition demo_memory : list Z := replicate (Z.to_nat (nmbm_calc_structure_size 0 (demo_device 1))) 0.

(** The memory of an instance is zeroed. *)
Definition demo_zeroed (c : nand) : nmbm nand :=
  let h := NmbmHeader 0 0 0 0 in
  Nmbm (NmbmInstance (demo_device 1) 0 0 0 0 0 0 0 (NmbmSignature h 0 0 0 0 0 0 (replicate 7 0)) [] 0 0
          (NmbmInfoTableHeader h 0 0 0 0) [] 0 0 [] 0 0 [] 0 0 0 0 0 0 0 0 0 0) c.

Definition state_of {A} (d : nmbm nand) (r : res (nmbm nand) A) : nmbm nand :=
  match r with Ret _ s => s | _ => d end.
Definition code_of (r : res (nmbm nand) Z) : option Z :=
  match r with Ret a _ => Some a | _ => None end.

Definition demo_attach (c : nand) : res (nmbm nand) Z :=
  nmbm_attach 100 (demo_device 1) demo_memory 0 (demo_zeroed c).

(** A new chip with bad blocks 3, 50 and 60, and a chip on which block 2 is worn. *)
Definition demo_chip : nand := Nand ∅ [3; 60; 50] [].
Definition worn_chip : nand := Nand ∅ [3; 60; 50] [2].
Definition demo : nmbm nand := state_of (demo_zeroed demo_chip) (demo_attach demo_chip).

Lemma demo_lower_ok fl : lower_ok (demo_device fl).
Proof.
  constructor; [|by eexists..]. exists nand_read. split; [done|].
  intros addr data oob mode c. simpl. split; [|done]. destruct data as [b|]; [|done]. simpl.
  destruct (nand_pages c !! addr) as [p|]; [destruct (decide _) as [He|]|]; by rewrite ?length_replicate, ?He.
Qed.

Lemma demo_device_ok fl : device_ok (demo_device fl).
Proof. constructor; [apply demo_lower_ok|..]; split || idtac; by vm_compute. Qed.

Lemma demo_check : nmbm_check_lower_members (demo_device 1) = (true, demo_device 1).
Proof. reflexivity. Qed.

Lemma demo_memory_size : nmbm_calc_structure_size 0 (demo_device 1) ≤ zlen demo_memory.
Proof. by vm_compute. Qed.

(** A chip on which the search finds nothing and the creation succeeds. *)
Lemma demo_attach_nwf c :
  code_of (demo_attach c) = Some 0 →
  match attach_search 100 (demo_device 1) demo_memory 0 (demo_zeroed c) with Ret None _ => True | _ => False end →
  nwf (ni (state_of (demo_zeroed c) (demo_attach c))).
Proof.
  intros Hc Hs.
  pose proof (attach_new_spec 100 _ _ demo_memory 0 (demo_zeroed c) (demo_device_ok 1) demo_check
    demo_memory_size eq_refl eq_refl eq_refl) as (found & s2 & Hrun & H).
  rewrite Hrun in Hs. destruct found; [destruct Hs|]. destruct (H eq_refl) as (rc & s' & Hatt & _ & Hw).
  unfold demo_attach in *. rewrite Hatt in *. simpl in *. injection Hc as ->. by apply Hw.
Qed.

Lemma demo_nwf : nwf (ni demo).
Proof. apply demo_attach_nwf; by vm_compute. Qed.
