(* ===== verification/NmbmSpec.v ===== *)
(** * NMBM: the properties of the component

    The theorems about NMBM, with an instance of each on a concrete chip. *)

From stdpp Require Import base list numbers list_numbers gmap.
From Stdlib Require Import ZArith Lia.
From S2P Require Import Prelude Bytes Crc32 NmbmTypes NmbmCore NmbmTables.
From S2P Require Import NmbmIo NmbmOps NmbmLayout NmbmWf NmbmSafe NmbmImage.
From S2P Require Import NmbmWalk NmbmBlocks NmbmTableSafe NmbmApi NmbmCreate.
From S2P Require Import NmbmDemo.
Open Scope Z_scope.

(** ** Safety and termination *)

Section Safety.
Context {D : Type}.
Implicit Types s : nmbm D.

(** C25: over any chip, whatever its functions return, every sequence of
    calls of the interface on a well-formed instance comes to an end, each
    call returning, without an access outside a table or a buffer; the
    instance stays well-formed and its geometry and number of data blocks
    are unchanged.  The calls are those a caller may make ([call_ok]): ranges
    that do not wrap around at 2^64, buffers of the size that is passed, and
    a panic write only over a device that has a function for it (the code
    calls that pointer unchecked).  The rounds of the loops that repeat until
    the chip cooperates are bounded by the number of blocks. *)
Theorem nmbm_calls_safe fuel cs me s :
  nwf (ni s) → block_count (ni s) + 2 < Z.of_nat fuel → Forall (call_ok (lower (ni s))) cs →
  ∃ rcs s', run_calls fuel cs me s = Ret rcs s' ∧ length rcs = length cs ∧
    nwf (ni s') ∧ op_fixed (ni s') = op_fixed (ni s).
Proof.
  intros W Hfuel Hcs. assert (Hwp : ∀ s1, opd s s1 →
    wp (λ _, False) (run_calls fuel cs) me s1 (λ rcs s', length rcs = length cs ∧ opd s s')).
  { induction Hcs as [|c cs Hc Hcs IH]; intros s1 Ho; [done|]. cbn [run_calls]. wsteps.
    eapply wp_mono; [by apply (wp_run_call fuel c me s)|]. intros rc s2 Ho2. wsteps.
    eapply wp_mono; [by apply IH|]. intros rcs s3 [Hl Ho3]. wsteps. split; [simpl; lia|done]. }
  destruct (wp_total _ _ _ _ (Hwp s (opd_refl s W))) as (rcs & s' & Hrun & Hl & Ho).
  exists rcs, s'. destruct Ho. done.
Qed.
End Safety.

Definition demo_calls : list nmbm_call :=
  [EraseBlockRange 512 1024; WriteRange 600 200 (replicate 200 7) NMBM_MODE_PLACE_OOB;
   ReadRange 512 400 (replicate 400 0) NMBM_MODE_PLACE_OOB; CheckBadBlock 0; MarkBadBlock 1024; Detach].

Lemma demo_calls_ok : Forall (call_ok (lower (ni demo))) demo_calls.
Proof. repeat constructor; by vm_compute. Qed.

Lemma nmbm_calls_safe_witness :
  ∃ rcs s', run_calls 100 demo_calls 0 demo = Ret rcs s' ∧ length rcs = length demo_calls ∧
    nwf (ni s') ∧ op_fixed (ni s') = op_fixed (ni demo).
Proof. apply (nmbm_calls_safe 100 demo_calls 0 demo demo_nwf); [by vm_compute|apply demo_calls_ok]. Defined.

(** ** Block states and walks *)

Section States.
Context {D : Type}.
Implicit Types s : nmbm D.

(** The two-bit block states are a map from blocks to states: storing a
    state changes that block only, reports whether it was another state, and
    counts the change exactly then. *)
Theorem block_state_round_trip ba st ba' me s :
  geom_ok (ni s) → 0 ≤ ba < block_count (ni s) → 0 ≤ ba' < block_count (ni s) → 0 ≤ st ≤ 3 →
  ∃ old old' s', nmbm_get_block_state ba me s = Ret old s ∧ nmbm_get_block_state ba' me s = Ret old' s ∧
    nmbm_set_block_state ba st me s = Ret (negb (old =? st)) s' ∧
    nmbm_get_block_state ba' me s' = Ret (if decide (ba = ba') then st else old') s' ∧
    block_state_changed (ni s') =
      (if old =? st then block_state_changed (ni s) else u32 (block_state_changed (ni s) + 1)).
Proof.
  intros G Hba Hba' Hst.
  destruct (state_known s ba G Hba) as (u & old & Hu & Hold & _).
  destruct (state_known s ba' G Hba') as (u' & old' & _ & Hold' & _).
  set (bs := block_state (ni s)) in *.
  assert (Hst3 : Z.land st BLOCK_ST_MASK = st).
  { change BLOCK_ST_MASK with (Z.ones 2). rewrite Z.land_ones by lia. apply Z.mod_small. lia. }
  assert (Ho : Z.land (Z.shiftr u (state_shift ba)) BLOCK_ST_MASK = old).
  { unfold nmbm_get_block_state_raw in Hold. rewrite Hu in Hold. by injection Hold. }
  pose proof (get_put_state bs ba st u ba' Hu ltac:(lia) ltac:(lia) Hst) as Hget. rewrite Hold' in Hget.
  set (s1 := Nmbm (set_block_state (put_state bs ba st u) (ni s)) (dev s)).
  exists old, old', (if old =? st then s1
    else Nmbm (set_block_state_changed (u32 (block_state_changed (ni s) + 1)) (ni s1)) (dev s)).
  unfold nmbm_get_block_state, nmbm_set_block_state, bind, getn, gets, modn, modify.
  cbn [rbind]. fold bs. rewrite Hold, Hold', Hu. cbn [some ret rbind]. rewrite Ho, Hst3.
  fold (put_state bs ba st u).
  assert (Hpb : Z.lor (Z.land u (not32 (Z.shiftl BLOCK_ST_MASK (state_shift ba)))) (u32 (Z.shiftl st (state_shift ba))) =
    Z.lor (Z.land u (not32 (Z.shiftl BLOCK_ST_MASK (state_shift ba)))) (u32 (Z.shiftl (Z.land st BLOCK_ST_MASK) (state_shift ba))))
    by (by rewrite Hst3).
  rewrite Hpb. fold (put_state bs ba st u).
  destruct (Z.eqb_spec old st) as [He|He]; cbn [negb rbind ret ni dev block_state set_block_state set_block_state_changed
    block_state_changed s1]; rewrite Hget; split_and!; try done; by case_decide.
Qed.

(** C29: nmbm_block_walk() returns the block of index [count] among the good
    blocks from the start up to (down to) the limit, and changes nothing.  The
    limit itself is excluded; a limit that is not a block of the chip, also a
    negative one, stands for the last block.  So the last block is never
    returned by a walk upwards, and a walk downwards with a negative limit,
    which the comment of the function gives for no limit, finds nothing. *)
Theorem block_walks_find_good ascending ba count limit me s :
  geom_ok (ni s) → 0 ≤ ba < block_count (ni s) → 0 ≤ count < 2 ^ 31 → - 2 ^ 31 ≤ limit < 2 ^ 31 →
  let bs := block_state (ni s) in
  let last := block_count (ni s) - 1 in
  let limit' := if limit <? 0 then last else Z.min limit last in
  nmbm_block_walk ascending ba count limit me s =
    Ret ((if ascending then good_blocks bs ba limit' else reverse (good_blocks bs (limit' + 1) (ba + 1)))
           !! Z.to_nat count) s ∧
  (limit < 0 → nmbm_block_walk false ba count limit me s = Ret None s).
Proof.
  intros G Hba Hc Hl bs last limit'. pose proof (g_blocks _ G).
  assert (Hu : u32 count = count) by (unfold u32; apply Z.mod_small; lia).
  assert (Hu0 : 0 ≤ u32 limit) by (apply Z.mod_pos_bound; lia).
  assert (Hw : walk_limit (ni s) (u32 limit) = limit').
  { unfold walk_limit, limit', last, u32. rewrite (Z.mod_small (_ - 1)) by lia. case (Z.ltb_spec limit 0); intros.
    - rewrite <- (Z.mod_unique_pos limit (2 ^ 32) (-1) (limit + 2 ^ 32)) by lia. case Z.leb_spec; lia.
    - rewrite Z.mod_small by lia. case Z.leb_spec; lia. }
  assert (Hdesc : nmbm_block_walk false ba count limit me s =
    Ret (reverse (good_blocks bs (limit' + 1) (ba + 1)) !! Z.to_nat count) s).
  { cbn [nmbm_block_walk]. rewrite Hu.
    assert (Hwp : wp (λ _, False) (nmbm_block_walk_desc ba count (u32 limit)) me s
      (λ r s', r = reverse (good_blocks bs (limit' + 1) (ba + 1)) !! Z.to_nat count ∧ s' = s)).
    { apply wp_walk_desc; [done|lia|done|done|]. by rewrite Hw. }
    apply wp_total in Hwp as (r & s' & -> & -> & ->). done. }
  split; [destruct ascending; [|done]|].
  - cbn [nmbm_block_walk]. rewrite Hu.
    assert (Hwp : wp (λ _, False) (nmbm_block_walk_asc ba count (u32 limit)) me s
      (λ r s', r = good_blocks bs ba limit' !! Z.to_nat count ∧ s' = s)).
    { apply wp_walk_asc; [done|lia|done|done|]. by rewrite Hw. }
    apply wp_total in Hwp as (r & s' & -> & -> & ->). done.
  - intros Hneg. rewrite Hdesc. unfold limit', last. rewrite (proj2 (Z.ltb_lt _ _)) by done.
    by rewrite good_blocks_nil by lia.
Qed.

(** Logic blocks in use have different physical blocks. *)
Definition mapping_injective (bm : list Z) : Prop :=
  ∀ i j m, zget bm i = Some m → zget bm j = Some m → 0 ≤ m → i = j.

(** C30: the mapping of a new chip gives the logic blocks the blocks of the
    data area that are not bad, in order, and nothing else; no two logic
    blocks share a block. *)
Theorem build_mapping_enumerates me s :
  geom_ok (ni s) → 0 ≤ mgmt_start_ba (ni s) ≤ block_count (ni s) →
  ∃ s', nmbm_build_mapping_table me s = Ret tt s' ∧
    let U := usable_blocks (block_state (ni s)) 0 (mgmt_start_ba (ni s)) in
    block_mapping (ni s') = U ++ replicate (Z.to_nat (block_count (ni s) - zlen U)) (-1) ∧
    data_block_count (ni s') = zlen U ∧ mapping_injective (block_mapping (ni s')).
Proof.
  intros G Hm. cbv zeta. set (U := usable_blocks _ _ _).
  assert (Hwp : wp (λ _, False) nmbm_build_mapping_table me s (λ _ s',
    block_mapping (ni s') = U ++ replicate (Z.to_nat (block_count (ni s) - zlen U)) (-1) ∧
    data_block_count (ni s') = zlen U ∧ mapping_injective (block_mapping (ni s')))).
  2:{ apply wp_total in Hwp as ([] & s' & Hrun & H). by exists s'. }
  apply wp_build_mapping; [done..|]. cbn [ni block_mapping data_block_count set_data_block_count set_block_mapping].
  fold U. split_and!; [done..|]. intros i j m Hi Hj Hm0. unfold zget in *. do 2 (case_decide; [|done]).
  assert (HU : NoDup U) by (apply NoDup_filter, NoDup_seqZ).
  apply lookup_app_Some in Hi as [Hi|[_ Hi]]; [|apply lookup_replicate in Hi; lia].
  apply lookup_app_Some in Hj as [Hj|[_ Hj]]; [|apply lookup_replicate in Hj; lia].
  pose proof (NoDup_lookup _ _ _ _ HU Hi Hj). lia.
Qed.
End States.

(** ** Mapping to spare blocks *)

Section Mapping.
Context {D : Type}.
Implicit Types s : nmbm D.

(** The spare blocks between [mapping_blocks_ba] and [mapping_blocks_top_ba]
    are not in use. *)
Definition spare_unused (n : nmbm_instance D) : Prop :=
  ∀ i m, zget (block_mapping n) i = Some m → 0 ≤ m →
    ¬ (mapping_blocks_ba n < m ≤ mapping_blocks_top_ba n).

Lemma zset_injective bm lb pb :
  mapping_injective bm → (∀ i, zget bm i = Some pb → False) → 0 ≤ lb < zlen bm →
  mapping_injective (zset bm lb pb).
Proof.
  intros Hinj Hfresh Hlb i j m. rewrite !zget_zset by done.
  case_decide as Hi; case_decide as Hj; intros Ei Ej Hm; simplify_eq; try done.
  - by apply Hfresh in Ej.
  - by apply Hfresh in Ei.
  - by eapply Hinj.
Qed.

(** C31: while the spare blocks are not in use ([spare_unused]) and no two
    logic blocks share a block, nmbm_map_block() gives a logic block the
    highest good spare block: the mapping stays injective and the other
    entries stay; if the highest spare block is itself good, the remaining
    spare blocks are again unused (otherwise not: block [pb] stays among them
    while it is in use, see [attach_maps_two_logic_blocks_to_one]).  It fails, leaving the mapping, exactly when there is no good spare block. *)
Theorem map_block_takes_unused_spare fuel lb me s :
  nwf (ni s) → block_count (ni s) + 2 < Z.of_nat fuel → 0 ≤ lb < block_count (ni s) →
  mapping_injective (block_mapping (ni s)) → spare_unused (ni s) →
  let n := ni s in
  let spare := reverse (good_blocks (block_state n) (mapping_blocks_ba n + 1) (mapping_blocks_top_ba n + 1)) in
  ∃ r s', nmbm_map_block fuel lb me s = Ret r s' ∧
    mapping_injective (block_mapping (ni s')) ∧
    match head spare with
    | Some pb =>
        r = true ∧ block_mapping (ni s') = zset (block_mapping n) lb pb ∧
        mapping_blocks_top_ba (ni s') = mapping_blocks_top_ba n - 1 ∧
        (is_good (block_state n) (mapping_blocks_top_ba n) = true →
         pb = mapping_blocks_top_ba n ∧ spare_unused (ni s'))
    | None => r = false ∧ block_mapping (ni s') = block_mapping n
    end.
Proof.
  intros W Hfuel Hlb Hinj Hun n spare. fold n in Hlb.
  apply (wp_total _ _ _ (λ r s', _)). unfold nmbm_map_block. wsteps. fold n.
  pose proof (wf_mapping_ba _ W) as Hmb. pose proof (wf_top _ W) as Htop. fold n in Hmb, Htop.
  pose proof (g_blocks _ (wf_geom _ W)) as Hbc. pose proof (g_mapping _ (wf_geom _ W)) as Hlen. fold n in Hbc, Hlen.
  case (Z.eqb_spec (mapping_blocks_ba n) (mapping_blocks_top_ba n)); intros Heq.
  { wsteps. unfold spare. rewrite good_blocks_nil by lia. done. }
  wsteps. unfold nmbm_block_walk. unfold u32 at 1 2. rewrite !Z.mod_small by lia.
  apply wp_walk_desc; [apply W|fold n; lia|lia|lia|]. fold n.
  assert (Hlim : walk_limit n (mapping_blocks_ba n) = mapping_blocks_ba n).
  { unfold walk_limit. case Z.leb_spec; [lia|done]. }
  rewrite Hlim. fold spare. change (spare !! Z.to_nat 0) with (spare !! 0%nat). rewrite <- head_lookup.
  destruct (head spare) as [pb|] eqn:Hpb.
  - assert (Hin : pb ∈ spare) by (destruct spare; simplify_eq/=; left).
    unfold spare in Hin. rewrite elem_of_reverse, elem_of_good_blocks in Hin. destruct Hin as [Hr Hg].
    wsteps. apply wp_set_mapping; [done|done|fold n; lia|]. intros _. wsteps. cbn [ni dev].
    cbn [block_mapping set_block_mapping set_mapping_blocks_top_ba set_block_mapping_changed mapping_blocks_top_ba].
    fold n. assert (Hu : u32 (mapping_blocks_top_ba n - 1) = mapping_blocks_top_ba n - 1)
      by (unfold u32; rewrite Z.mod_small; lia).
    rewrite Hu. split_and!; [|done..|].
    + apply zset_injective; [done| |lia]. intros i Hi. eapply Hun; [exact Hi|lia|fold n; lia].
    + intros Hgt. assert (He : pb = mapping_blocks_top_ba n).
      { assert (Hsp : spare = mapping_blocks_top_ba n ::
            reverse (good_blocks (block_state n) (mapping_blocks_ba n + 1) (mapping_blocks_top_ba n))).
        { unfold spare. rewrite (good_blocks_split _ _ (mapping_blocks_top_ba n)) by lia.
          by rewrite good_blocks_one, Hgt, reverse_app. }
        rewrite Hsp in Hpb. by injection Hpb. }
      split; [done|]. intros i m. cbn. rewrite zget_zset by lia.
      case_decide; intros Hi Hm0; [simplify_eq; lia|]. specialize (Hun i m Hi Hm0). fold n in Hun. lia.
  - wsteps. apply wp_update; [done..|]. intros r s1 [_ Hf _ _] _. injection Hf as _ _ Hm _ _ _ _ _ _.
    wsteps. cbn. rewrite Hm. done.
Qed.
End Mapping.

(** ** The stored image *)

Section Stored.
Context {D : Type}.
Implicit Types (s t : nmbm D) (n : nmbm_instance D).

(** A table that the last check of the loading code lets pass: no logic block
    is mapped to the signature or to a block behind the data blocks and before
    the end of the table. *)
Definition mapping_loadable n (end_ba : Z) : Prop :=
  ∀ lb m, 0 ≤ lb < data_block_count n → zget (block_mapping n) lb = Some m →
    m ≠ signature_ba n ∧ ¬ (data_block_count n ≤ m < end_ba).

(** The top of the spare blocks a table gives: below the signature and every
    block behind the table that is in use. *)
Definition top_of_table n (end_ba top : Z) : Prop :=
  let used m := ∃ lb, 0 ≤ lb < data_block_count n ∧ zget (block_mapping n) lb = Some m ∧ end_ba ≤ m in
  top < signature_ba n ∧ (∀ m, used m → top < m) ∧ (top + 1 = signature_ba n ∨ used (top + 1)).

(** An instance that loads the table [image], which holds the tables of [n]. *)
Lemma check_info_table_passes n image hdr start_ba end_ba me t :
  nwf n → geom_ok (ni t) → block_count (ni t) = block_count n →
  data_block_count (ni t) = data_block_count n → signature_ba (ni t) = signature_ba n →
  0 < signature_ba n < block_count n → 0 ≤ start_ba → 0 < end_ba ≤ block_count n →
  (∀ ba, 0 ≤ ba < block_count n → state_at image hdr ba = nmbm_get_block_state_raw (block_state n) ba) →
  (∀ lb, 0 ≤ lb < block_count n → mapping_at image hdr lb = zget (block_mapping n) lb) →
  mapping_loadable n end_ba →
  (∀ b, start_ba ≤ b < end_ba → is_good (block_state (ni t)) b = true → is_good (block_state n) b = true) →
  ∃ top, nmbm_check_info_table start_ba end_ba image hdr me t = Ret (Some top) t ∧ top_of_table n end_ba top.
Proof.
  intros W G Hc Hd Hs Hsba Hst Hend Hstate Hmap Hload Hgood.
  set (Q := λ (r : option Z) (s' : nmbm D), ∃ top, r = Some top ∧ s' = t ∧ top_of_table n end_ba top).
  enough (Hwp : wp (λ _, False) (nmbm_check_info_table start_ba end_ba image hdr) me t Q).
  { apply wp_total in Hwp as (r & s' & Hrun & top & -> & -> & Htop). by exists top. }
  pose proof (wf_data _ W) as Hdata. pose proof (g_blocks _ (wf_geom _ W)) as Hbc.
  pose proof (g_mapping _ (wf_geom _ W)) as Hml. pose proof (wf_mapping _ W) as Hf.
  unfold nmbm_check_info_table. wsteps. rewrite Hd, Hs.
  apply (wp_for_brk_to _ (λ i '(ok, mn) s', ok = true ∧ s' = t ∧ mn ≤ signature_ba n ∧
    (∀ lb m, 0 ≤ lb < i → zget (block_mapping n) lb = Some m → end_ba ≤ m → mn ≤ m) ∧
    (mn = signature_ba n ∨ ∃ lb, 0 ≤ lb < i ∧ zget (block_mapping n) lb = Some mn ∧ end_ba ≤ mn))).
  { split_and!; [done|done|lia|lia|by left]. }
  - intros i [ok mn] s1 Hi (-> & -> & Hmn & Hlow & Hex).
    destruct (zget_is_Some (block_mapping n) i) as [m Hm]; [lia|].
    assert (Hr : -1 ≤ m < block_count n).
    { unfold zget in Hm. case_decide; [|done]. rewrite Forall_lookup in Hf. by eapply Hf. }
    destruct (Hload i m ltac:(lia) Hm) as [Hns Hnd]. wsteps.
    apply (wp_some _ _ m); [by rewrite Hmap by lia|]. cbv zeta.
    assert (Hu : u32 m = m ∨ m = -1 ∧ u32 m = 2 ^ 32 - 1).
    { unfold u32. destruct (decide (m = -1)) as [->|]; [by right|left]. apply Z.mod_small; lia. }
    assert (Hno : (data_block_count n <=? u32 m) && (u32 m <? end_ba) || (u32 m =? signature_ba n) = false).
    { apply orb_false_iff. rewrite andb_false_iff, Z.leb_gt, Z.ltb_ge, Z.eqb_neq. lia. }
    rewrite Hno. wsteps. split_and!; [done|done| | |].
    + case_match; lia.
    + intros lb m' Hlb Hm' He. destruct (decide (lb = i)) as [->|].
      * assert (m' = m) as -> by congruence.
        case (Z.leb_spec end_ba (u32 m)); case (Z.ltb_spec (u32 m) mn); simpl; lia.
      * specialize (Hlow lb m' ltac:(lia) Hm' He).
        case (Z.leb_spec end_ba (u32 m)); case (Z.ltb_spec (u32 m) mn); simpl; lia.
    + case (Z.leb_spec end_ba (u32 m)); case (Z.ltb_spec (u32 m) mn); simpl; intros H1 H2;
        [right; exists i; assert (u32 m = m) as -> by lia; split_and!; [lia|lia|done|lia]|..];
        (destruct Hex as [?|(lb & ? & ? & ?)]; [by left|right; exists lb; split_and!; [lia|lia|done|done]]).
  - intros [ok mn] s1 (-> & -> & Hmn & Hlow & Hex). rewrite Z.max_r in * by lia. cbn [negb]. wsteps.
    apply (wp_for_brk_to _ (λ _ ok s', ok = true ∧ s' = t)); [done| |].
    + intros b ok s2 Hb [-> ->]. wsteps. apply wp_get_block_state; [done|lia|]. intros st _ _ Hg.
      destruct (st =? BLOCK_ST_GOOD); simpl; wsteps; [|done].
      specialize (Hgood b ltac:(lia) Hg). apply bool_decide_eq_true in Hgood.
      apply (wp_some _ _ BLOCK_ST_GOOD); [by rewrite Hstate by lia|]. simpl. by wsteps.
    + intros ok s2 [-> ->]. wsteps. exists (mn - 1). assert (0 < mn) by (destruct Hex as [?|(? & ? & ? & ?)]; lia).
      split; [unfold u32; by rewrite Z.mod_small by lia|]. split; [done|]. unfold top_of_table. cbv zeta.
      split_and!; [lia| |].
      * intros m (lb & Hlb & Hm & He). specialize (Hlow lb m ltac:(lia) Hm He). lia.
      * replace (mn - 1 + 1) with mn by lia. destruct Hex as [?|(lb & ? & ? & ?)]; [by left|right].
        exists lb. split_and!; [lia|lia|done|done].
Qed.

(** C32: the image nmbm_generate_info_table_cache() builds passes the three
    checks of the loading code: checksum, header (magic, size and offsets) and
    contents.  The last one holds for every instance with the same number of
    blocks and data blocks and the same signature, if no logic block is mapped
    to the signature or to a block between the data blocks and the end of the
    table and the blocks of the table that are good for the loading instance
    were good when it was stored; it gives the right top of the spare blocks.
    The loading code reads back every block state and every entry of the
    mapping, and copies back both tables; the function says whether there was
    anything new to store. *)
Theorem info_table_round_trip me s :
  nwf (ni s) → Forall (λ u, 0 ≤ u < 2 ^ 32) (block_state (ni s)) →
  ∃ s' hdr, nmbm_generate_info_table_cache me s = Ret (tables_changed (ni s)) s' ∧
    let n := ni s in
    let image := info_table_cache (ni s') in
    info_table_header_at image = Some hdr ∧
    nmbm_check_header image (info_table_size n) = Some true ∧
    nmbm_check_info_table_header n hdr = true ∧
    (∀ ba, 0 ≤ ba < block_count n → state_at image hdr ba = nmbm_get_block_state_raw (block_state n) ba) ∧
    (∀ lb, 0 ≤ lb < block_count n → mapping_at image hdr lb = zget (block_mapping n) lb) ∧
    (∀ start_ba end_ba t,
       geom_ok (ni t) → block_count (ni t) = block_count n → data_block_count (ni t) = data_block_count n →
       signature_ba (ni t) = signature_ba n → 0 < signature_ba n < block_count n →
       0 ≤ start_ba → 0 < end_ba ≤ block_count n → mapping_loadable n end_ba →
       (∀ b, start_ba ≤ b < end_ba → is_good (block_state (ni t)) b = true → is_good (block_state n) b = true) →
       ∃ top, nmbm_check_info_table start_ba end_ba image hdr me t = Ret (Some top) t ∧ top_of_table n end_ba top) ∧
    words_of_bytes (Z.to_nat (state_table_size n / 4)) <$>
      mem_read image (state_table_off hdr) (state_table_size n) = Some (block_state n) ∧
    (λ b, s32 <$> words_of_bytes (Z.to_nat (mapping_table_size n / 4)) b) <$>
      mem_read image (mapping_table_off hdr) (mapping_table_size n) = Some (block_mapping n).
Proof.
  intros W Hbs. set (n := ni s) in *. pose proof (wf_geom _ W) as G.
  set (P := λ (r : bool) (s' : nmbm D), r = tables_changed n ∧ ∃ hdr, image_of n (info_table_cache (ni s')) hdr).
  assert (Hwp : wp (λ _, False) nmbm_generate_info_table_cache me s P).
  { apply wp_generate; [done|]. intros cache ift hdr _ _ _ Him. split; [done|]. by exists hdr. }
  apply wp_total in Hwp as (r & s' & Hrun & -> & hdr & Him). exists s', hdr. split; [done|]. cbv zeta.
  destruct Him as [Hlen Hh Hmg Hsz Hso Hmo Hck Hst Hmp].
  pose proof (g_state_size _ G) as Hss. pose proof (g_mapping_size _ G) as Hms.
  pose proof (g_mapping _ G) as Hml. pose proof (g_state _ G) as Hsl.
  assert (Hu : u32 <$> block_state n = block_state n).
  { clear -Hbs. induction Hbs as [|u l Hu _ IH]; [done|]. cbn. rewrite IH. unfold u32. by rewrite Z.mod_small. }
  assert (Hm : ∀ m, m ∈ block_mapping n → s32 (u32 m) = m).
  { intros m Hin. pose proof (wf_mapping _ W) as Hf. rewrite Forall_forall in Hf. specialize (Hf m Hin).
    apply s32_u32. pose proof (g_blocks _ G). lia. }
  assert (Hstate : ∀ ba, 0 ≤ ba < block_count n →
    state_at (info_table_cache (ni s')) hdr ba = nmbm_get_block_state_raw (block_state n) ba).
  { intros ba Hba. unfold state_at, nmbm_get_block_state_raw.
    destruct (state_shift_range ba) as (k & _ & Hk & He); [lia|].
    rewrite (rd32_table _ _ _ _ _ Hst Hss) by (pose proof (state_unit_nonneg ba); lia).
    rewrite <- Hu at 2. unfold zget. case_decide; [|done]. by rewrite list_lookup_fmap. }
  assert (Hmapping : ∀ lb, 0 ≤ lb < block_count n →
    mapping_at (info_table_cache (ni s')) hdr lb = zget (block_mapping n) lb).
  { intros lb Hlb. unfold mapping_at. rewrite (rd32_table _ _ _ _ _ Hmp Hms) by lia.
    destruct (zget (block_mapping n) lb) as [m|] eqn:Hz; [|done]. cbn. f_equal. apply Hm.
    unfold zget in Hz. case_decide; [|done]. by eapply list_elem_of_lookup_2. }
  split_and!; [done|done| |done|done| | |].
  - unfold nmbm_check_info_table_header. rewrite Hmg, Hsz, Z.eqb_refl, Z.eqb_refl, Hso, Hmo.
    destruct G as [_ _ _ _ _ _ _ _ _ _ _ _ _ _ _ _ Hts Hoff Hend]. unfold u32.
    pose proof (zlen_nonneg (block_state n)). pose proof (zlen_nonneg (block_mapping n)).
    rewrite !Z.mod_small by lia. rewrite !(proj2 (Z.ltb_ge _ _)) by lia. done.
  - intros start_ba end_ba t. intros. by apply check_info_table_passes.
  - rewrite Hst. cbn [fmap option_fmap option_map]. f_equal.
    replace (Z.to_nat (state_table_size n / 4)) with (length (block_state n)).
    2:{ rewrite Hss, Z.mul_comm, Z.div_mul by lia. unfold zlen. lia. }
    by rewrite words_of_bytes_of_words.
  - rewrite Hmp. cbn [fmap option_fmap option_map]. f_equal.
    replace (Z.to_nat (mapping_table_size n / 4)) with (length (block_mapping n)).
    2:{ rewrite Hms, Z.mul_comm, Z.div_mul by lia. unfold zlen. lia. }
    rewrite words_of_bytes_of_words, <- list_fmap_compose.
    rewrite <- (list_fmap_id (block_mapping n)) at 2. apply list_fmap_ext. intros i m Hi.
    apply Hm. by eapply list_elem_of_lookup_2.
Qed.

(** ** Access control and errors *)

(** C33: with a read-only lower device, no call reaches the functions of the
    device that write, erase or mark: whatever is called, the device has only
    been read and reset, and of the instance only the page cache differs. *)
Theorem read_only_device_is_only_read fuel cs me s :
  nwf (ni s) → block_count (ni s) + 2 < Z.of_nat fuel → Forall (call_ok (lower (ni s))) cs →
  read_only (ni s) = true →
  ∃ rcs s' pc, run_calls fuel cs me s = Ret rcs s' ∧ ni s' = set_page_cache pc (ni s) ∧
    device_reads (lower (ni s)) (dev s) (dev s').
Proof.
  intros W Hfuel Hcs Hro. assert (Hwp : ∀ s1, read_only_step s s1 →
    wp (λ _, False) (run_calls fuel cs) me s1 (λ rcs s', read_only_step s s')).
  { induction Hcs as [|c cs Hc Hcs IH]; intros s1 Hs1; [done|]. cbn [run_calls]. wsteps.
    assert (Hro1 : read_only (ni s1) = true) by (destruct Hs1 as [(pc & -> & _) _]; done).
    assert (Ho : opd s s1) by (destruct Hs1 as [Hp _]; by apply paged_opd).
    assert (Hw1 : is_writable (ni s1) = false) by (unfold is_writable; rewrite Hro1; by destruct (cbool _)).
    pose proof (read_only_step_refl s1) as Hrefl.
    assert (Hcall : wp (λ _, False) (run_call fuel c) me s1 (λ _ s', read_only_step s1 s')).
    { destruct c; cbn [run_call]; unfold call_ok in Hc.
      - unfold nmbm_erase_block_range. wsteps. rewrite Hw1. by wsteps.
      - wsteps. apply (wp_read_single_page fuel s); [done..|]. intros rc data' oob' s2 Hs2 _ _. by wsteps.
      - wsteps. apply (wp_read_range fuel s); [done..|tauto|tauto|tauto|tauto|]. intros [[] ] s2 Hs2. by wsteps.
      - unfold nmbm_write_single_page. wsteps. rewrite Hw1. by wsteps.
      - unfold nmbm_panic_write_single_page. wsteps. rewrite Hw1. by wsteps.
      - unfold nmbm_write_range. wsteps. rewrite Hw1. by wsteps.
      - by apply (wp_check_bad_block fuel s).
      - unfold nmbm_mark_bad_block. wsteps. rewrite Hw1. by wsteps.
      - unfold nmbm_detach. wsteps. rewrite Hro1. by wsteps. }
    eapply wp_mono; [exact Hcall|]. intros rc s2 Hs2. wsteps.
    eapply wp_mono; [apply IH; by eapply read_only_step_trans|]. intros rcs s3 Hs3. by wsteps. }
  destruct (wp_total _ _ _ _ (Hwp s (read_only_step_refl s))) as (rcs & s' & Hrun & (pc & He & _) & Hr).
  by exists rcs, s', pc.
Qed.
End Stored.

Section Errors.
Context {D : Type}.
Implicit Types s : nmbm D.

Lemma wp_eq {A} (m : M (nmbm D) A) me s a :
  wp (λ _, False) m me s (λ r s', r = a ∧ s' = s) → m me s = Ret a s.
Proof. intros H. by apply wp_total in H as (r & s' & -> & -> & ->). Qed.

(** C34: the range operations check their arguments first.  On an instance
    that is protected or over a read-only device, erasing, writing and marking
    return -EROFS; reading does so on a protected instance only.  Otherwise a
    range is refused with -EINVAL when it starts at or behind the available
    size, which is the number of data blocks times the block size, or when its
    end, computed modulo 2^64 as the code does, is behind it; an empty range
    that is not refused is accepted.  In all these cases nothing is done.  A
    range whose end does not wrap around passes exactly when it lies within
    the available size. *)
Theorem range_calls_check_arguments fuel addr size data mode me s :
  nwf (ni s) →
  let n := ni s in
  let avail := nmbm_get_avail_size n in
  let passes := (addr <? avail) && ((addr + size) `mod` 2 ^ 64 <=? avail) in
  avail = data_block_count n * erasesize (lower n) ∧
  (is_writable n = false →
     nmbm_erase_block_range fuel addr size me s = Ret (- EROFS, None) s ∧
     nmbm_write_range fuel addr size data mode me s = Ret (- EROFS, None) s ∧
     nmbm_mark_bad_block fuel addr me s = Ret (- EROFS) s) ∧
  (protected n ≠ 0 → nmbm_read_range addr size data mode me s = Ret (- EROFS, None, data) s) ∧
  (is_writable n = true → passes = false →
     nmbm_erase_block_range fuel addr size me s = Ret (- EINVAL, None) s ∧
     nmbm_write_range fuel addr size data mode me s = Ret (- EINVAL, None) s) ∧
  (protected n = 0 → passes = false →
     nmbm_read_range addr size data mode me s = Ret (- EINVAL, None, data) s) ∧
  (is_writable n = true → passes = true → size = 0 →
     nmbm_erase_block_range fuel addr size me s = Ret (0, None) s ∧
     nmbm_write_range fuel addr size data mode me s = Ret (0, None) s ∧
     nmbm_read_range addr size data mode me s = Ret (0, None, data) s) ∧
  (0 ≤ addr → 0 ≤ size → addr + size < 2 ^ 64 → passes = true ↔ addr < avail ∧ addr + size ≤ avail).
Proof.
  intros W n avail passes.
  assert (Hav : avail = data_block_count n * erasesize (lower n)) by (apply avail_eq, W).
  assert (Hb : ba2addr n (data_block_count n) = avail) by done.
  assert (Hin : passes = false → (avail <=? addr) = true ∨ (avail <=? addr) = false ∧ (avail <? u64 (addr + size)) = true).
  { unfold passes, u64. case (Z.leb_spec avail addr); [by left|]. intros H. rewrite (proj2 (Z.ltb_lt _ _)) by done.
    simpl. case Z.leb_spec; [done|]. right. split; [done|]. by apply Z.ltb_lt. }
  assert (Hin' : passes = true → (avail <=? addr) = false ∧ (avail <? u64 (addr + size)) = false).
  { unfold passes. intros [H1%Z.ltb_lt H2%Z.leb_le]%andb_prop. split; [by apply Z.leb_gt|by apply Z.ltb_ge]. }
  assert (Hlast : 0 ≤ addr → 0 ≤ size → addr + size < 2 ^ 64 → passes = true ↔ addr < avail ∧ addr + size ≤ avail).
  { intros. unfold passes. rewrite Z.mod_small by lia. by rewrite andb_true_iff, Z.ltb_lt, Z.leb_le. }
  assert (Hp : is_writable n = true → protected n = 0).
  { unfold is_writable, cbool. case (Z.eqb_spec (protected n) 0); [done|]. by intros. }
  split; [done|]. clearbody passes.
  split_and!; [intros Hwr|intros Hpr|intros Hwr Hi|intros Hpr Hi|intros Hwr Hi Hz|done];
    split_and?; apply wp_eq;
    unfold nmbm_erase_block_range, nmbm_write_range, nmbm_read_range, nmbm_mark_bad_block; wsteps; fold n;
    try rewrite (Hp Hwr); try rewrite Hwr; try rewrite Hpr;
    try (unfold cbool; rewrite (proj2 (Z.eqb_neq _ _)) by done); simpl negb;
    try change (cbool 0) with false; cbv iota; wsteps; try done; fold n;
    rewrite ?Hb.
  all: try (destruct (Hin Hi) as [->|[-> ->]]; by wsteps).
  all: destruct (Hin' Hi) as [-> ->]; rewrite Hz; by wsteps.
Qed.
End Errors.

(** ** Checksums *)

(** C35: crc32_no_comp(), which handles a buffer word by word with a table
    from the first aligned address on, and nmbm_crc32(), which cuts it into
    chunks, compute the bit-by-bit division by the generator polynomial, for
    every address, start value and length. *)
Theorem crc32_equals_bitwise addr crc buf :
  Forall is_byte buf →
  crc32_no_comp addr crc buf = crc32_bitwise crc buf ∧ nmbm_crc32 addr crc buf = crc32_bitwise crc buf.
Proof.
  intros Hb. by rewrite crc32_no_comp_bytes, nmbm_crc32_bytes, crc32_bytes_bitwise by done.
Qed.

Lemma crc32_equals_bitwise_witness :
  crc32_no_comp 3 0xffffffff [0x31; 0x32; 0x33; 0x34; 0x35; 0x36; 0x37; 0x38; 0x39] =
    crc32_bitwise 0xffffffff [0x31; 0x32; 0x33; 0x34; 0x35; 0x36; 0x37; 0x38; 0x39] ∧
  nmbm_crc32 3 0xffffffff [0x31; 0x32; 0x33; 0x34; 0x35; 0x36; 0x37; 0x38; 0x39] =
    crc32_bitwise 0xffffffff [0x31; 0x32; 0x33; 0x34; 0x35; 0x36; 0x37; 0x38; 0x39].
Proof. apply crc32_equals_bitwise. repeat constructor; by vm_compute. Defined.

(** ** The properties on the concrete chip *)

Lemma demo_geom : geom_ok (ni demo).
Proof. apply demo_nwf. Qed.

Lemma block_state_round_trip_witness :
  ∃ old old' s', nmbm_get_block_state 17 0 demo = Ret old demo ∧ nmbm_get_block_state 18 0 demo = Ret old' demo ∧
    nmbm_set_block_state 17 2 0 demo = Ret (negb (old =? 2)) s' ∧
    nmbm_get_block_state 18 0 s' = Ret (if decide (17 = 18) then 2 else old') s' ∧
    block_state_changed (ni s') =
      (if old =? 2 then block_state_changed (ni demo) else u32 (block_state_changed (ni demo) + 1)).
Proof. apply (block_state_round_trip 17 2 18 0 demo demo_geom); [split; by vm_compute..|lia]. Defined.

Lemma block_walks_find_good_witness :
  let bs := block_state (ni demo) in
  let last := block_count (ni demo) - 1 in
  let limit' := if -1 <? 0 then last else Z.min (-1) last in
  nmbm_block_walk true 2 1 (-1) 0 demo = Ret (good_blocks bs 2 limit' !! Z.to_nat 1) demo ∧
  (-1 < 0 → nmbm_block_walk false 2 1 (-1) 0 demo = Ret None demo).
Proof. apply (block_walks_find_good true 2 1 (-1) 0 demo demo_geom); [split; by vm_compute|lia|lia]. Defined.

Lemma build_mapping_enumerates_witness :
  ∃ s', nmbm_build_mapping_table 0 demo = Ret tt s' ∧
    let U := usable_blocks (block_state (ni demo)) 0 (mgmt_start_ba (ni demo)) in
    block_mapping (ni s') = U ++ replicate (Z.to_nat (block_count (ni demo) - zlen U)) (-1) ∧
    data_block_count (ni s') = zlen U ∧ mapping_injective (block_mapping (ni s')).
Proof. apply (build_mapping_enumerates 0 demo demo_geom). split; by vm_compute. Defined.

(** Decidable forms of the hypotheses about the mapping. *)
Definition mapping_injective_b (bm : list Z) : bool := bool_decide (NoDup (filter (λ m, 0 ≤ m) bm)).

Lemma mapping_injective_dec bm : mapping_injective_b bm = true → mapping_injective bm.
Proof.
  intros Hnd%bool_decide_eq_true. unfold mapping_injective. intros i j m Hi Hj Hm.
  unfold zget in *. do 2 (case_decide; [|done]).
  enough (Z.to_nat i = Z.to_nat j) by lia. clear -Hnd Hi Hj Hm.
  revert Hi Hj. generalize (Z.to_nat i) as a, (Z.to_nat j) as b.
  induction bm as [|x bm IH]; [done|]. intros a b Ha Hb. rewrite filter_cons in Hnd.
  assert (Hno : ∀ k, bm !! k = Some m → x = m → False).
  { intros k Hk ->. rewrite decide_True in Hnd by done. apply NoDup_cons in Hnd as [Hn _]. apply Hn.
    apply list_elem_of_filter. split; [done|]. by eapply list_elem_of_lookup_2. }
  destruct a as [|a], b as [|b]; simpl in *; [done|simplify_eq; by eapply Hno in Hb|simplify_eq; by eapply Hno in Ha|].
  f_equal. apply IH; [|done..]. case_decide; [by apply NoDup_cons in Hnd as [_ ?]|done].
Qed.

Lemma spare_unused_dec {D} (n : nmbm_instance D) :
  forallb (λ m, negb ((mapping_blocks_ba n <? m) && (m <=? mapping_blocks_top_ba n))) (block_mapping n) = true →
  spare_unused n.
Proof.
  rewrite forallb_forall. intros Hall i m Hi Hm [H1 H2].
  assert (Hin : In m (block_mapping n)).
  { unfold zget in Hi. case_decide; [|done]. apply list_elem_of_In. by eapply list_elem_of_lookup_2. }
  specialize (Hall m Hin). rewrite (proj2 (Z.ltb_lt _ _)), (proj2 (Z.leb_le _ _)) in Hall by done. done.
Qed.

Lemma map_block_takes_unused_spare_witness :
  let n := ni demo in
  let spare := reverse (good_blocks (block_state n) (mapping_blocks_ba n + 1) (mapping_blocks_top_ba n + 1)) in
  ∃ r s', nmbm_map_block 100 5 0 demo = Ret r s' ∧
    mapping_injective (block_mapping (ni s')) ∧
    match head spare with
    | Some pb =>
        r = true ∧ block_mapping (ni s') = zset (block_mapping n) 5 pb ∧
        mapping_blocks_top_ba (ni s') = mapping_blocks_top_ba n - 1 ∧
        (is_good (block_state n) (mapping_blocks_top_ba n) = true →
         pb = mapping_blocks_top_ba n ∧ spare_unused (ni s'))
    | None => r = false ∧ block_mapping (ni s') = block_mapping n
    end.
Proof.
  apply (map_block_takes_unused_spare 100 5 0 demo demo_nwf); [by vm_compute|split; by vm_compute|..].
  - apply mapping_injective_dec. by vm_compute.
  - apply spare_unused_dec. by vm_compute.
Defined.

Lemma info_table_round_trip_witness :
  ∃ s' hdr, nmbm_generate_info_table_cache 0 demo = Ret (tables_changed (ni demo)) s' ∧
    let n := ni demo in
    let image := info_table_cache (ni s') in
    info_table_header_at image = Some hdr ∧
    nmbm_check_header image (info_table_size n) = Some true ∧
    nmbm_check_info_table_header n hdr = true ∧
    (∀ ba, 0 ≤ ba < block_count n → state_at image hdr ba = nmbm_get_block_state_raw (block_state n) ba) ∧
    (∀ lb, 0 ≤ lb < block_count n → mapping_at image hdr lb = zget (block_mapping n) lb) ∧
    (∀ start_ba end_ba (t : nmbm nand),
       geom_ok (ni t) → block_count (ni t) = block_count n → data_block_count (ni t) = data_block_count n →
       signature_ba (ni t) = signature_ba n → 0 < signature_ba n < block_count n →
       0 ≤ start_ba → 0 < end_ba ≤ block_count n → mapping_loadable n end_ba →
       (∀ b, start_ba ≤ b < end_ba → is_good (block_state (ni t)) b = true → is_good (block_state n) b = true) →
       ∃ top, nmbm_check_info_table start_ba end_ba image hdr 0 t = Ret (Some top) t ∧ top_of_table n end_ba top) ∧
    words_of_bytes (Z.to_nat (state_table_size n / 4)) <$>
      mem_read image (state_table_off hdr) (state_table_size n) = Some (block_state n) ∧
    (λ b, s32 <$> words_of_bytes (Z.to_nat (mapping_table_size n / 4)) b) <$>
      mem_read image (mapping_table_off hdr) (mapping_table_size n) = Some (block_mapping n).
Proof.
  apply (info_table_round_trip 0 demo demo_nwf). apply (bool_decide_unpack _). vm_compute. exact I.
Defined.

(** The conditions of the last check hold for the tables of the concrete chip:
    they load again, with the top of the spare blocks in use. *)
Example demo_table_loads :
  match nmbm_generate_info_table_cache 0 demo with
  | Ret _ s' =>
      match info_table_header_at (info_table_cache (ni s')) with
      | Some hdr =>
          match nmbm_check_info_table (main_table_ba (ni demo)) (main_table_ba (ni demo) + 1)
                  (info_table_cache (ni s')) hdr 0 demo with
          | Ret r _ => r
          | _ => None
          end
      | None => None
      end
  | _ => None
  end = Some (mapping_blocks_top_ba (ni demo)).
Proof. by vm_compute. Qed.

Definition demo_read_only : nmbm nand :=
  Nmbm (set_lower (demo_device NMBM_F_READ_ONLY) (ni demo)) (dev demo).

Lemma demo_read_only_nwf : nwf (ni demo_read_only).
Proof.
  pose proof demo_nwf as W. pose proof (demo_lower_ok NMBM_F_READ_ONLY) as Hl.
  assert (He : lower (ni demo) = demo_device 1) by (by vm_compute).
  unfold demo_read_only. cbn [ni]. revert W He. generalize (ni demo). intros n [G ? ? ? ? ? ? ? ?] He.
  constructor; simpl; [|done..]. destruct G. rewrite He in *. by constructor; simpl in *.
Qed.

Lemma read_only_device_is_only_read_witness :
  ∃ rcs s' pc, run_calls 100 demo_calls 0 demo_read_only = Ret rcs s' ∧
    ni s' = set_page_cache pc (ni demo_read_only) ∧
    device_reads (lower (ni demo_read_only)) (dev demo_read_only) (dev s').
Proof.
  apply (read_only_device_is_only_read 100 demo_calls 0 demo_read_only demo_read_only_nwf); [by vm_compute| |by vm_compute].
  repeat constructor; by vm_compute.
Defined.

(** A range whose end wraps around to 1024. *)
Lemma range_calls_check_arguments_witness :
  let n := ni demo in
  let addr := 24576 in let size := 2 ^ 64 - 23552 in
  let avail := nmbm_get_avail_size n in
  let passes := (addr <? avail) && ((addr + size) `mod` 2 ^ 64 <=? avail) in
  avail = data_block_count n * erasesize (lower n) ∧
  (is_writable n = false →
     nmbm_erase_block_range 100 addr size 0 demo = Ret (- EROFS, None) demo ∧
     nmbm_write_range 100 addr size [] NMBM_MODE_RAW 0 demo = Ret (- EROFS, None) demo ∧
     nmbm_mark_bad_block 100 addr 0 demo = Ret (- EROFS) demo) ∧
  (protected n ≠ 0 → nmbm_read_range addr size [] NMBM_MODE_RAW 0 demo = Ret (- EROFS, None, []) demo) ∧
  (is_writable n = true → passes = false →
     nmbm_erase_block_range 100 addr size 0 demo = Ret (- EINVAL, None) demo ∧
     nmbm_write_range 100 addr size [] NMBM_MODE_RAW 0 demo = Ret (- EINVAL, None) demo) ∧
  (protected n = 0 → passes = false →
     nmbm_read_range addr size [] NMBM_MODE_RAW 0 demo = Ret (- EINVAL, None, []) demo) ∧
  (is_writable n = true → passes = true → size = 0 →
     nmbm_erase_block_range 100 addr size 0 demo = Ret (0, None) demo ∧
     nmbm_write_range 100 addr size [] NMBM_MODE_RAW 0 demo = Ret (0, None) demo ∧
     nmbm_read_range addr size [] NMBM_MODE_RAW 0 demo = Ret (0, None, []) demo) ∧
  (0 ≤ addr → 0 ≤ size → addr + size < 2 ^ 64 → passes = true ↔ addr < avail ∧ addr + size ≤ avail).
Proof. exact (range_calls_check_arguments 100 24576 (2 ^ 64 - 23552) [] NMBM_MODE_RAW 0 demo demo_nwf). Defined.

(** ** Where the code does not do what it means to *)

(** Spare block 61 is bad on this chip, so the walk for the second block to be
    remapped ends at block 60, but the top of the spare blocks only goes down
    by one: the third one gets block 60 as well. *)
Definition alias_chip : nand := Nand ∅ [3; 4; 5; 61] [].

Lemma attach_maps_two_logic_blocks_to_one :
  code_of (demo_attach alias_chip) = Some 0 ∧
  let n := ni (state_of (demo_zeroed alias_chip) (demo_attach alias_chip)) in
  data_block_count n = 48 ∧ zget (block_mapping n) 46 = Some 60 ∧ zget (block_mapping n) 47 = Some 60.
Proof. by vm_compute. Qed.

(** Writing ten bytes fills the rest of the page with what the page cache held
    before, here a part of the info table. *)
Lemma write_range_leaks_page_cache :
  let s' := state_of demo (nmbm_write_range 100 512 10 (replicate 10 7) NMBM_MODE_PLACE_OOB 0 demo) in
  (zget <$> nand_pages (dev s') !! 512) ≫= (λ get, get 12) = Some 36.
Proof. by vm_compute. Qed.

(** The end of this range wraps around: the range is accepted, nothing is
    erased and success is returned. *)
Lemma erase_range_accepts_wrapped_range :
  nmbm_get_avail_size (ni demo) < 2048 + (2 ^ 64 - 1024) ∧
  nmbm_erase_block_range 100 2048 (2 ^ 64 - 1024) 0 demo = Ret (0, None) demo.
Proof. split; by vm_compute. Qed.

(** Reading is refused on a protected instance, although it is only to be
    kept from being written. *)
Lemma protected_instance_cannot_be_read :
  let s := Nmbm (set_protected 1 (ni demo)) (dev demo) in
  nmbm_read_range 0 4 [0; 0; 0; 0] NMBM_MODE_PLACE_OOB 0 s = Ret (- EROFS, None, [0; 0; 0; 0]) s.
Proof. by vm_compute. Qed.

(** Both offsets lie behind the end of the table, and the header is accepted. *)
Lemma info_table_header_with_wrong_offsets_accepted :
  let size := info_table_size (ni demo) in
  nmbm_check_info_table_header (ni demo)
    (NmbmInfoTableHeader (NmbmHeader NMBM_MAGIC_INFO_TABLE NMBM_VER size 0) 1 (size + 4096) (size + 8192) 0) = true.
Proof. by vm_compute. Qed.
