(* ===== verification/NmbmStoreSpec.v ===== *)
(** * NMBM: logic addresses are a store

    The theorems about the contents of the flash, for every chip that
    satisfies [StableNand], with an instance of each on a concrete chip. *)

From stdpp Require Import base list numbers list_numbers gmap.
From Stdlib Require Import ZArith Lia.
From S2P Require Import Prelude Bytes Crc32 NmbmTypes NmbmCore NmbmTables.
From S2P Require Import NmbmIo NmbmOps NmbmLayout NmbmWf NmbmSafe NmbmImage.
From S2P Require Import NmbmWalk NmbmBlocks NmbmTableSafe NmbmApi NmbmStore.
From S2P Require Import NmbmStoreOps NmbmPersist NmbmCreate NmbmDemo NmbmSpec.
Open Scope Z_scope.

Section Store.
Context {D : Type} (l : nmbm_lower_device D) {SN : StableNand l}.
Implicit Types s : nmbm D.

(** The byte of the flash at a logic address. *)
Abbreviation byte_at s x := (logic_byte l (block_mapping (ni s)) (dev s) x).

Lemma mapping_range_injective bm addr size : mapping_injective bm → range_injective l bm addr size.
Proof. intros Hinj i j m _ _. apply Hinj. Qed.

(** The bytes of pages outside the range. *)
Lemma stored_other_bytes s s' addr size data x :
  range_ok l s addr size → mapping_injective (block_mapping (ni s)) →
  stored l s addr size data size s' →
  page_base (writesize l) x < page_base (writesize l) addr ∨ addr + size ≤ page_base (writesize l) x →
  byte_at s' x = byte_at s x.
Proof.
  intros [W Hl Hd Ha Hs H64] Hinj [Hp _ _ _ Hot] Hx.
  assert (Hbm : block_mapping (ni s') = block_mapping (ni s)) by (by destruct Hp as (pc & -> & _)).
  rewrite Hbm. unfold logic_byte. destruct (phys_of _ _ _) as [pa|] eqn:Hpa; [|done]. rewrite Hot; [done|].
  intros (la & Hla & _ & _ & Hpa'). pose proof (g_erase _ (wf_geom _ W)) as HE. rewrite Hl in HE.
  enough (la = page_base (writesize l) x) by lia.
  eapply phys_of_inj; [apply HE|done..|]. intros m Hm1 Hm2 Hm. by eapply Hinj.
Qed.

(** C36: nmbm_write_range() to erased pages returns; if the result is 0, every
    byte of the range holds the byte of the data and every byte of a page
    outside the range is unchanged, for a mapping under which no two logic
    blocks share a block ([mapping_injective]).  Nothing is assumed of which
    writes of the chip fail. *)
Theorem write_range_stores fuel addr size data mode me s :
  range_ok l s addr size → zlen data = size → mapping_injective (block_mapping (ni s)) →
  block_count (ni s) + 2 < Z.of_nat fuel →
  (∀ a, in_range l (block_mapping (ni s)) addr size a → page_at (dev s) a = erased l) →
  ∃ rc len s', nmbm_write_range fuel addr size data mode me s = Ret (rc, len) s' ∧
    (rc = 0 → (∀ j, 0 ≤ j < size → byte_at s' (addr + j) = zget data j) ∧
      (∀ x, page_base (writesize l) x < page_base (writesize l) addr ∨
            addr + size ≤ page_base (writesize l) x → byte_at s' x = byte_at s x) ∧
      (0 < size → len = Some size)).
Proof.
  intros Hr Hlen Hinj Hfuel Her. pose proof Hr as [W _ _ Ha Hs H64].
  assert (Hwp : wp (λ _, False) (nmbm_write_range fuel addr size data mode) me s (λ _ _, True))
    by (apply (wp_write_range fuel s); done).
  destruct (wp_wlp _ _ _ _ _ Hwp (wlp_write_range l fuel addr size data mode me s Hr Hlen
    (mapping_range_injective _ _ _ Hinj) Her)) as ([rc len] & s' & Hrun & _ & Hok).
  exists rc, len, s'. split; [done|]. intros Hrc. destruct (Hok Hrc) as [Hst Hl']. split_and!; [| |done].
  - intros j Hj. rewrite <- (st_bytes _ _ _ _ _ _ _ Hst j Hj).
    by destruct (st_paged _ _ _ _ _ _ _ Hst) as (pc & -> & _).
  - intros x Hx. by eapply stored_other_bytes.
Qed.

(** C37: nmbm_read_range() returns; if the result is not an error, the buffer
    holds the bytes of the range, also when pages had to be read again or bit
    flips were corrected, and no byte of the flash has changed. *)
Theorem read_range_reads addr size data mode me s :
  range_ok l s addr size → zlen data = size →
  ∃ rc len data' s', nmbm_read_range addr size data mode me s = Ret (rc, len, data') s' ∧
    (0 ≤ rc → zlen data' = size ∧ (0 < size → len = Some size) ∧
      (∀ j, 0 ≤ j < size → zget data' j = byte_at s (addr + j)) ∧ (∀ x, byte_at s' x = byte_at s x)).
Proof.
  intros Hr Hlen. pose proof Hr as [W _ _ Ha Hs H64].
  assert (Hwp : wp (λ _, False) (nmbm_read_range addr size data mode) me s (λ _ _, True))
    by (apply (wp_read_range 0 s); done).
  destruct (wp_wlp _ _ _ _ _ Hwp (wlp_read_range l addr size data mode me s Hr Hlen))
    as ([[rc len] data'] & s' & Hrun & _ & Hok).
  exists rc, len, data', s'. split; [done|]. intros Hrc. destruct (Hok Hrc) as (Hp & Hsame & Hl' & Hn & Hby).
  split_and!; [done..|]. intros x. destruct Hp as (pc & -> & _). unfold logic_byte. simpl.
  destruct (phys_of _ _ _); [|done]. by rewrite Hsame.
Qed.

(** Writing and reading back. *)
Lemma write_read_back fuel s0 addr size data buf mode me s :
  opd s0 s → block_count (ni s0) + 2 < Z.of_nat fuel → range_ok l s addr size →
  zlen data = size → zlen buf = size →
  ∃ rc len s1 rc' len' data' s2,
    nmbm_write_range fuel addr size data mode me s = Ret (rc, len) s1 ∧
    nmbm_read_range addr size buf mode me s1 = Ret (rc', len', data') s2 ∧
    (range_injective l (block_mapping (ni s)) addr size →
     (∀ a, in_range l (block_mapping (ni s)) addr size a → page_at (dev s) a = erased l) →
     rc = 0 → 0 ≤ rc' → data' = data).
Proof.
  intros Ho Hfuel Hr Hdata Hbuf. pose proof Hr as [_ Hl Hd Ha Hs H64].
  assert (Hwp1 : wp (λ _, False) (nmbm_write_range fuel addr size data mode) me s (λ _ s1, opd s0 s1))
    by (apply (wp_write_range fuel s0); done).
  destruct (wp_wlp _ _ _ _ _ Hwp1 (wlp_impl _ _ _ _ _ (λ Hinj, wlp_impl _ _ _ _ _ (λ Her,
    wlp_write_range l fuel addr size data mode me s Hr Hdata Hinj Her))))
    as ([rc len] & s1 & Hrun1 & Ho1 & Hok1).
  assert (Hl1 : lower (ni s1) = l) by (destruct Ho as [_ [=]], Ho1 as [_ [=]]; congruence).
  assert (Hr1 : range_ok l s1 addr size) by (constructor; done || apply Ho1).
  assert (Hwp2 : wp (λ _, False) (nmbm_read_range addr size buf mode) me s1 (λ _ _, True))
    by (apply (wp_read_range fuel s0); done).
  destruct (wp_wlp _ _ _ _ _ Hwp2 (wlp_read_range l addr size buf mode me s1 Hr1 Hbuf))
    as ([[rc' len'] data'] & s2 & Hrun2 & _ & Hok2).
  exists rc, len, s1, rc', len', data', s2. split_and!; [done..|]. intros Hinj Her Hz Hz'.
  destruct (Hok1 Hinj Her Hz) as [Hst _]. destruct (Hok2 Hz') as (_ & _ & Hl2 & _ & Hby).
  apply zget_ext; [lia|]. intros j Hj. rewrite Hby by lia. rewrite <- (st_bytes _ _ _ _ _ _ _ Hst) by lia.
  by destruct (st_paged _ _ _ _ _ _ _ Hst) as (pc & -> & _).
Qed.

(** C38: erasing a block, writing a range of it and reading the range back
    returns, and gives the data that was written if none of the three reports
    an error.  The erasure may find its block bad and move the logic block to
    spare blocks any number of times. *)
Theorem erase_write_read fuel lb addr size data buf mode me s :
  nwf (ni s) → lower (ni s) = l → erasesize l `mod` writesize l = 0 →
  block_count (ni s) + 2 < Z.of_nat fuel →
  0 ≤ lb → (lb + 1) * erasesize l < 2 ^ 64 →
  lb * erasesize l ≤ addr → addr + size ≤ (lb + 1) * erasesize l → 0 < size →
  zlen data = size → zlen buf = size →
  ∃ rc1 failed s1 rc2 len2 s2 rc3 len3 data' s3,
    nmbm_erase_block_range fuel (lb * erasesize l) (erasesize l) me s = Ret (rc1, failed) s1 ∧
    nmbm_write_range fuel addr size data mode me s1 = Ret (rc2, len2) s2 ∧
    nmbm_read_range addr size buf mode me s2 = Ret (rc3, len3, data') s3 ∧
    (rc1 = 0 → rc2 = 0 → 0 ≤ rc3 → data' = data).
Proof.
  intros W Hl Hd Hfuel Hlb H64 H1 H2 Hs Hdata Hbuf.
  destruct (wf_geom _ W) as [_ [Hw _] _ [HE _] _ _ _ _ _ _ _ _ _ _ _ _ _ _ _]. rewrite Hl in Hw, HE.
  assert (Hpos : 0 ≤ lb * erasesize l) by (apply Z.mul_nonneg_nonneg; lia).
  assert (Hwp1 : wp (λ _, False) (nmbm_erase_block_range fuel (lb * erasesize l) (erasesize l)) me s (λ _ _, True))
    by (apply (wp_erase_block_range fuel s); done || lia).
  destruct (wp_wlp _ _ _ _ _ Hwp1 (wlp_erase_one_block l fuel lb me s W Hl Hfuel Hlb H64))
    as ([rc1 failed] & s1 & Hrun1 & _ & Ho1 & Hok1).
  assert (Hl1 : lower (ni s1) = l) by (destruct Ho1 as [_ [=]]; congruence).
  assert (Hr1 : range_ok l s1 addr size) by (constructor; done || lia || apply Ho1).
  destruct (write_read_back fuel s addr size data buf mode me s1 Ho1 Hfuel Hr1 Hdata Hbuf)
    as (rc2 & len2 & s2 & rc3 & len3 & data' & s3 & Hrun2 & Hrun3 & Hok).
  exists rc1, failed, s1, rc2, len2, s2, rc3, len3, data', s3. split_and!; [done..|]. intros Hz.
  destruct (Hok1 Hz) as [_ Her]. apply (Hok (block_range_injective l _ lb addr size HE H1 H2 Hs)).
  intros a. exact (block_range_erased l _ _ lb addr size a (proj1 Hw) HE Hd H1 H2 Her).
Qed.
End Store.

(** ** The management area *)

Section Area.
Context {D : Type} (l : nmbm_lower_device D) {SN : StableNand l} {IN : IsolatedNand l}.
Implicit Types s : nmbm D.

(** C26: nmbm_write_signature(), over a chip with whole pages in a block, on
    which an operation on a block leaves the others alone and a read that
    reports no error gives the page, and whatever writes, erasures and reads
    fail on it, returns.  If it returns a block, that is the highest block that is
    still good, and every page of it starts with the signature; if it returns
    none, no block above the limit is good any more.  No page of a block up
    to the limit has changed. *)
Theorem write_signature_stores limit sig me s :
  geom_ok (ni s) → lower (ni s) = l → erasesize l `mod` writesize l = 0 →
  0 ≤ limit < block_count (ni s) → zlen (sig_padding sig) = 7 →
  ∃ r s', nmbm_write_signature limit sig me s = Ret r s' ∧
    match r with
    | Some ba =>
        limit < ba < block_count (ni s) ∧ good_blocks (block_state (ni s')) ba (block_count (ni s)) = [ba] ∧
        ∀ o j, 0 ≤ o < erasesize l → o `mod` writesize l = 0 → 0 ≤ j < sizeof_nmbm_signature →
          phys_byte l (dev s') (ba * erasesize l + o + j) = zget (signature_bytes sig) j
    | None => good_blocks (block_state (ni s')) (limit + 1) (block_count (ni s)) = []
    end ∧
    (∀ a, ¬ ((limit + 1) * erasesize l ≤ a < block_count (ni s) * erasesize l) →
       page_at (dev s') a = page_at (dev s) a).
Proof.
  intros G Hl Hd Hlim Hpad.
  assert (Hwp : wp (λ _, False) (nmbm_write_signature limit sig) me s (λ _ _, True)).
  { apply (wp_write_signature s G); [apply low_refl|lia|done|done]. }
  destruct (wp_wlp _ _ _ _ _ Hwp (wlp_write_signature l Hd s G Hl limit sig me Hlim)) as (r & s' & Hrun & _ & Hr).
  by exists r, s'.
Qed.

(** C27: nmbm_write_mgmt_range(), which writes an info table, over such a chip
    and whatever fails on it, returns.  If it reports the first block and the
    one after the last, the data is on the chip: it lies, in order and block
    by block, in the blocks from the first one on that are still good, as many
    as it takes.  If it fails, the blocks of the range that are still good are
    too few for the data.  No page outside the range has changed. *)
Theorem write_mgmt_range_stores ba limit data size me s :
  geom_ok (ni s) → lower (ni s) = l → erasesize l `mod` writesize l = 0 →
  0 ≤ ba → limit ≤ block_count (ni s) → zlen data = size → 0 < size →
  ∃ r s', nmbm_write_mgmt_range ba limit data size me s = Ret r s' ∧
    let blocks e := good_blocks (block_state (ni s')) ba e in
    match r with
    | Some (start, e) =>
        ba ≤ start < e ∧ e ≤ limit ∧ head (blocks e) = Some start ∧
        size ≤ zlen (blocks e) * erasesize l < size + erasesize l ∧
        ∀ j, 0 ≤ j < size → ∃ b, zget (blocks e) (j / erasesize l) = Some b ∧
          phys_byte l (dev s') (b * erasesize l + j `mod` erasesize l) = zget data j
    | None => zlen (blocks limit) * erasesize l < size
    end ∧
    (∀ a, ¬ (ba * erasesize l ≤ a < limit * erasesize l) → page_at (dev s') a = page_at (dev s) a).
Proof.
  intros G Hl Hd Hba Hlim Hlen Hsz.
  assert (Hwp : wp (λ _, False) (nmbm_write_mgmt_range ba limit data size) me s (λ _ _, True)).
  { apply (wp_write_mgmt_range s G); [apply low_refl|done..]. }
  destruct (wp_wlp _ _ _ _ _ Hwp (wlp_write_mgmt_range l Hd s G Hl ba limit data size me Hba Hlim Hlen Hsz))
    as (r & s' & Hrun & _ & Hr).
  by exists r, s'.
Qed.
End Area.

(** ** The concrete chip *)

Definition nand_page (c : nand) (a : Z) : list Z :=
  match nand_pages c !! a with
  | Some p => if decide (length p = 128%nat) then p else replicate 128 0xff
  | None => replicate 128 0xff
  end.

#[export] Instance demo_stable fl : StableNand (demo_device fl).
Proof.
  refine {| page_at := nand_page; programmable _ _ _ := True |}.
  - intros f addr data oob mode c [= <-]. simpl. split; [done|]. intros _ buf -> Hb. unfold zlen in Hb. simpl in *.
    unfold nand_page. assert (length buf = 128%nat) as -> by lia. done.
  - done.
  - intros f addr p oob mode c [= <-] Hp. unfold zlen in Hp. simpl in Hp. unfold nand_write.
    case_bool_decide; [by split|]. unfold nand_page. simpl. split.
    + intros a Ha. by rewrite lookup_insert_ne.
    + intros _. rewrite lookup_insert_eq. by rewrite decide_True by lia.
  - intros f addr c [= <-]. simpl. intros _ o Ho Hm. unfold nand_page, erased. simpl.
    assert (o = 0 ∨ o = 128 ∨ o = 256 ∨ o = 384) as Hc.
    { apply Z.mod_divide in Hm as [q Hq]; [|done]. lia. }
    assert (Hdel : delete addr (delete (addr + 128) (delete (addr + 256) (delete (addr + 384) (nand_pages c)))) !! (addr + o) = None).
    { rewrite !lookup_delete_None. destruct Hc as [->|[->|[->| ->]]]; rewrite ?Z.add_0_r; tauto. }
    by rewrite Hdel.
  - done.
Defined.

#[export] Instance demo_isolated fl : IsolatedNand (demo_device fl).
Proof.
  constructor.
  - intros f addr data oob mode c a [= <-] Ha. unfold nand_write. case_bool_decide; [done|]. simpl.
    unfold nand_page. destruct data; simpl; [|done]. by rewrite lookup_insert_ne.
  - intros f addr c a [= <-] Ha. simpl in *. unfold nand_page. simpl. by rewrite !lookup_delete_ne by lia.
  - by intros f addr c a [= <-] _.
  - by intros f addr c a [= <-].
Qed.

Definition demo_text : list Z := (λ i, Z.of_nat i) <$> seq 1 200.

Lemma demo_range_ok : range_ok (demo_device 1) demo 600 200.
Proof. constructor; [apply demo_nwf|by vm_compute..]. Qed.

Lemma demo_mapping_injective : mapping_injective (block_mapping (ni demo)).
Proof. apply mapping_injective_dec. by vm_compute. Qed.

Lemma demo_range_erased a :
  in_range (demo_device 1) (block_mapping (ni demo)) 600 200 a →
  @page_at _ _ (demo_stable 1) (dev demo) a = erased (demo_device 1).
Proof.
  intros (la & Hla & Hm & _ & Hpa). change (page_base (writesize (demo_device 1)) 600) with 512 in Hla.
  assert (la = 512 ∨ la = 640 ∨ la = 768) as Hc.
  { apply Z.mod_divide in Hm as [q Hq]; [|done]. change (writesize (demo_device 1)) with 128 in Hq. lia. }
  destruct Hc as [->|[->| ->]]; vm_compute in Hpa; injection Hpa as <-; by vm_compute.
Qed.

(** The bytes 600 to 799, in two blocks, are written, and the bytes of the
    other pages keep their values. *)
Lemma write_range_stores_witness :
  ∃ rc len s', nmbm_write_range 100 600 200 demo_text NMBM_MODE_PLACE_OOB 0 demo = Ret (rc, len) s' ∧
    (rc = 0 → (∀ j, 0 ≤ j < 200 → logic_byte (demo_device 1) (block_mapping (ni s')) (dev s') (600 + j) = zget demo_text j) ∧
      (∀ x, page_base 128 x < 512 ∨ 800 ≤ page_base 128 x →
        logic_byte (demo_device 1) (block_mapping (ni s')) (dev s') x =
        logic_byte (demo_device 1) (block_mapping (ni demo)) (dev demo) x) ∧
      (0 < 200 → len = Some 200)).
Proof.
  apply (write_range_stores (demo_device 1) 100 600 200 demo_text NMBM_MODE_PLACE_OOB 0 demo demo_range_ok
    eq_refl demo_mapping_injective).
  - by vm_compute.
  - apply demo_range_erased.
Defined.

Lemma read_range_reads_witness :
  ∃ rc len data' s',
    nmbm_read_range 600 200 (replicate 200 0) NMBM_MODE_PLACE_OOB 0 demo = Ret (rc, len, data') s' ∧
    (0 ≤ rc → zlen data' = 200 ∧ (0 < 200 → len = Some 200) ∧
      (∀ j, 0 ≤ j < 200 → zget data' j = logic_byte (demo_device 1) (block_mapping (ni demo)) (dev demo) (600 + j)) ∧
      (∀ x, logic_byte (demo_device 1) (block_mapping (ni s')) (dev s') x =
            logic_byte (demo_device 1) (block_mapping (ni demo)) (dev demo) x)).
Proof.
  apply (read_range_reads (demo_device 1) 600 200 (replicate 200 0) NMBM_MODE_PLACE_OOB 0 demo demo_range_ok).
  reflexivity.
Defined.

(** Logic block 4, which lies on a chip with bad blocks: all three calls
    succeed. *)
Lemma erase_write_read_witness :
  ∃ rc1 failed s1 rc2 len2 s2 rc3 len3 data' s3,
    nmbm_erase_block_range 100 2048 512 0 demo = Ret (rc1, failed) s1 ∧
    nmbm_write_range 100 2100 200 demo_text NMBM_MODE_PLACE_OOB 0 s1 = Ret (rc2, len2) s2 ∧
    nmbm_read_range 2100 200 (replicate 200 0) NMBM_MODE_PLACE_OOB 0 s2 = Ret (rc3, len3, data') s3 ∧
    (rc1 = 0 → rc2 = 0 → 0 ≤ rc3 → data' = demo_text).
Proof.
  apply (erase_write_read (demo_device 1) 100 4 2100 200 demo_text (replicate 200 0) NMBM_MODE_PLACE_OOB 0 demo
    demo_nwf); by vm_compute.
Defined.

(** The three calls do succeed on the concrete chip. *)
Example demo_erase_write_read :
  (let call {A} (r : res (nmbm nand) A) (k : A → nmbm nand → option (list Z)) :=
     match r with Ret a s => k a s | _ => None end in
   call (nmbm_erase_block_range 100 2048 512 0 demo) (λ r s1,
     if negb (r.1 =? 0) then None
     else call (nmbm_write_range 100 2100 200 demo_text NMBM_MODE_PLACE_OOB 0 s1) (λ r s2,
       if negb (r.1 =? 0) then None
       else call (nmbm_read_range 2100 200 (replicate 200 0) NMBM_MODE_PLACE_OOB 0 s2) (λ r _,
         if 0 <=? r.1.1 then Some r.2 else None)))) = Some demo_text.
Proof. by vm_compute. Qed.

(** The chip whose block 63 fails to be written: the signature goes to block
    62, and a table of 700 bytes from block 50 on, which is bad, to the blocks
    52 and 53, as 51 fails as well. *)
Definition weak_chip : nmbm nand := Nmbm (ni demo) (Nand ∅ [] [63; 51]).

Lemma weak_chip_geom : geom_ok (ni weak_chip).
Proof. apply (wf_geom _ demo_nwf). Qed.

Lemma write_signature_stores_witness :
  ∃ r s', nmbm_write_signature 48 (signature (ni demo)) 0 weak_chip = Ret r s' ∧
    match r with
    | Some ba =>
        48 < ba < block_count (ni weak_chip) ∧
        good_blocks (block_state (ni s')) ba (block_count (ni weak_chip)) = [ba] ∧
        ∀ o j, 0 ≤ o < 512 → o `mod` 128 = 0 → 0 ≤ j < sizeof_nmbm_signature →
          phys_byte (demo_device 1) (dev s') (ba * 512 + o + j) = zget (signature_bytes (signature (ni demo))) j
    | None => good_blocks (block_state (ni s')) 49 (block_count (ni weak_chip)) = []
    end ∧
    (∀ a, ¬ (49 * 512 ≤ a < block_count (ni weak_chip) * 512) → @page_at _ _ (demo_stable 1) (dev s') a = @page_at _ _ (demo_stable 1) (dev weak_chip) a).
Proof.
  apply (write_signature_stores (demo_device 1) 48 (signature (ni demo)) 0 weak_chip weak_chip_geom);
    by vm_compute.
Defined.

Lemma write_mgmt_range_stores_witness :
  let data := demo_text ++ demo_text ++ demo_text ++ replicate 100 5 in
  ∃ r s', nmbm_write_mgmt_range 50 60 data 700 0 weak_chip = Ret r s' ∧
    let blocks e := good_blocks (block_state (ni s')) 50 e in
    match r with
    | Some (start, e) =>
        50 ≤ start < e ∧ e ≤ 60 ∧ head (blocks e) = Some start ∧
        700 ≤ zlen (blocks e) * 512 < 700 + 512 ∧
        ∀ j, 0 ≤ j < 700 → ∃ b, zget (blocks e) (j / 512) = Some b ∧
          phys_byte (demo_device 1) (dev s') (b * 512 + j `mod` 512) = zget data j
    | None => zlen (blocks 60) * 512 < 700
    end ∧
    (∀ a, ¬ (50 * 512 ≤ a < 60 * 512) → @page_at _ _ (demo_stable 1) (dev s') a = @page_at _ _ (demo_stable 1) (dev weak_chip) a).
Proof.
  intros data.
  apply (write_mgmt_range_stores (demo_device 1) 50 60 data 700 0 weak_chip weak_chip_geom); by vm_compute.
Defined.

(** Both calls succeed on the concrete chip, after one failure each. *)
Example weak_chip_written :
  match nmbm_write_signature 48 (signature (ni demo)) 0 weak_chip with Ret r _ => r | _ => None end = Some 62 ∧
  match nmbm_write_mgmt_range 50 60 (replicate 700 7) 700 0 weak_chip with Ret r _ => r | _ => None end = Some (52, 54).
Proof. split; by vm_compute. Qed.
