(* ===== verification/CStr.v ===== *)
(** * C strings and numbers in text (u-boot lib/strto.c, lib/vsprintf.c)

    A string is what lies in memory from a pointer on: the bytes of the
    buffer it points into.  Reading past the end of the buffer has no
    result. *)

From stdpp Require Import base list numbers list_numbers strings.
From Stdlib Require Import ZArith Lia.
From S2P Require Import Prelude Bytes.
Open Scope Z_scope.

(** The bytes of a string literal, without the terminating zero. *)
Definition str (s : string) : list Z := (λ c, Z.of_nat (Ascii.nat_of_ascii c)) <$> String.list_ascii_of_string s.

(** ** Character classes *)

Definition isdigit (c : Z) : bool := (48 <=? c) && (c <=? 57).
Definition isxdigit (c : Z) : bool :=
  isdigit c || ((65 <=? c) && (c <=? 70)) || ((97 <=? c) && (c <=? 102)).
(** The upper case letters of Latin-1, as the table of lib/ctype.c has them. *)
Definition isupper (c : Z) : bool :=
  ((65 <=? c) && (c <=? 90)) || ((192 <=? c) && (c <=? 214)) || ((216 <=? c) && (c <=? 222)).
Definition tolower (c : Z) : Z := if isupper c then c + 32 else c.

(** ** Numbers from text *)

Definition decode_digit (ch : Z) : Z :=
  if negb (isxdigit ch) then 256
  else let ch := tolower ch in if ch <=? 57 then ch - 48 else ch - 97 + 10.

(** The string after a 0x prefix, and the base. *)
Definition _parse_integer_fixup_radix (s : list Z) (base : Z) : option (list Z * Z) :=
  match s with
  | [] => None
  | 48 :: s' =>
      match s' with
      | [] => None
      | c :: s'' =>
          if tolower c =? 120 then Some (s'', 16)
          else Some (s, if base =? 0 then 8 else base)
      end
  | _ => Some (s, if base =? 0 then 10 else base)
  end.

(** The loop over the digits: the value, with 64-bit wrap-around, and what is
    left of the string. *)
Fixpoint strtoul_digits (s : list Z) (base result : Z) : option (Z * list Z) :=
  match s with
  | [] => None
  | c :: s' =>
      let value := decode_digit c in
      if value <? base then strtoul_digits s' base (u64 (result * base + value)) else Some (result, s)
  end.

Definition simple_strtoul (s : list Z) (base : Z) : option (Z * list Z) :=
  match _parse_integer_fixup_radix s base with
  | Some (s, base) => strtoul_digits s base 0
  | None => None
  end.

(** ** Numbers to text *)

(** The digits before those already written; 20 digits are enough for 64 bits. *)
Fixpoint itoa_digits (n : nat) (i : Z) (acc : list Z) : list Z :=
  match n with
  | O => acc
  | S n' =>
      let acc := (48 + i `mod` 10) :: acc in
      let i := i / 10 in
      if 0 <? i then itoa_digits n' i acc else acc
  end.
Definition simple_itoa (i : Z) : list Z := itoa_digits 20 i [].

(** ** Round trip *)

Lemma decode_decimal d : 0 ≤ d < 10 → decode_digit (48 + d) = d.
Proof.
  intros Hd.
  assert (Hc : d = 0 ∨ d = 1 ∨ d = 2 ∨ d = 3 ∨ d = 4 ∨ d = 5 ∨ d = 6 ∨ d = 7 ∨ d = 8 ∨ d = 9) by lia.
  by destruct_or! Hc; subst d.
Qed.

Lemma strtoul_itoa_digits n i acc :
  0 ≤ i < 10 ^ Z.of_nat n → i < 2 ^ 64 → (0 < n)%nat →
  strtoul_digits (itoa_digits n i acc) 10 0 = strtoul_digits acc 10 i.
Proof.
  revert i acc. induction n as [|n IH]; intros i acc Hi H64 Hn; [lia|]. cbn [itoa_digits].
  pose proof (Z.mod_pos_bound i 10 ltac:(lia)) as Hm. pose proof (Z.div_mod i 10 ltac:(lia)) as Hdm.
  assert (Hstep : ∀ r, strtoul_digits ((48 + i `mod` 10) :: acc) 10 r = strtoul_digits acc 10 (u64 (r * 10 + i `mod` 10))).
  { intros r. cbn [strtoul_digits]. rewrite decode_decimal by lia. case Z.ltb_spec; [done|lia]. }
  assert (Hu : u64 (i / 10 * 10 + i `mod` 10) = i) by (unfold u64; rewrite Z.mod_small; lia).
  rewrite Nat2Z.inj_succ, Z.pow_succ_r in Hi by lia. case Z.ltb_spec; intros Hd.
  - assert (Hlt : i / 10 < 10 ^ Z.of_nat n) by (apply Z.div_lt_upper_bound; lia).
    rewrite IH; [by rewrite Hstep, Hu|lia|lia|].
    destruct n; [|lia]. simpl in Hlt. lia.
  - replace 0 with (i / 10) by lia. by rewrite Hstep, Hu.
Qed.

Lemma itoa_head n i acc : 0 < i → (0 < n)%nat → ∃ c r, itoa_digits n i acc = c :: r ∧ (c ≠ 48 ∨ 10 ^ Z.of_nat n ≤ i).
Proof.
  revert i acc. induction n as [|n IH]; intros i acc Hi Hn; [lia|]. cbn [itoa_digits].
  pose proof (Z.div_mod i 10 ltac:(lia)) as Hdm. case Z.ltb_spec; intros Hd.
  - destruct n as [|n].
    { eexists _, _. split; [done|]. right. change (10 ^ Z.of_nat 1) with 10.
      pose proof (Z.mod_pos_bound i 10 ltac:(lia)). lia. }
    destruct (IH (i / 10) ((48 + i `mod` 10) :: acc) Hd ltac:(lia)) as (c & r & Hc & Ho).
    exists c, r. split; [done|]. destruct Ho as [|Ho]; [by left|right].
    rewrite Nat2Z.inj_succ, Z.pow_succ_r by lia. pose proof (Z.mod_pos_bound i 10 ltac:(lia)). lia.
  - eexists _, _. split; [done|]. left. pose proof (Z.mod_pos_bound i 10 ltac:(lia)). lia.
Qed.

Lemma itoa_nonempty i : simple_itoa i ≠ [].
Proof.
  assert (Hc : ∀ n j c acc, itoa_digits n j (c :: acc) ≠ []).
  { induction n as [|n IH]; intros j c acc; [done|]. cbn [itoa_digits]. destruct (0 <? _); [apply IH|done]. }
  change (simple_itoa i) with (let acc := [48 + i `mod` 10] in if 0 <? i / 10 then itoa_digits 19 (i / 10) acc else acc).
  cbv zeta. destruct (0 <? _); [apply Hc|done].
Qed.

(** A number written by simple_itoa() and a terminating zero is read back. *)
Lemma strtoul_itoa i rest :
  0 ≤ i < 2 ^ 64 → simple_strtoul (simple_itoa i ++ 0 :: rest) 10 = Some (i, 0 :: rest).
Proof.
  intros Hi. assert (Happ : ∀ n j acc, itoa_digits n j [] ++ acc = itoa_digits n j acc).
  { intros n j acc. change acc with ([] ++ acc) at 2. generalize (@nil Z) as l. revert j.
    induction n as [|n IH]; intros j l; [done|]. cbn [itoa_digits]. destruct (0 <? j / 10); [|done].
    by rewrite IH. }
  unfold simple_itoa. rewrite Happ. unfold simple_strtoul.
  assert (Hd : strtoul_digits (itoa_digits 20 i (0 :: rest)) 10 0 = Some (i, 0 :: rest)).
  { rewrite strtoul_itoa_digits by (simpl; lia). done. }
  assert (H20 : i < 10 ^ Z.of_nat 20) by (simpl; lia).
  destruct (decide (i = 0)) as [->|Hne]; [done|].
  destruct (itoa_head 20 i (0 :: rest)) as (c & r & Hc & Ho); [lia..|]. rewrite Hc in *.
  assert (Hfix : _parse_integer_fixup_radix (c :: r) 10 = Some (c :: r, 10)).
  { unfold _parse_integer_fixup_radix. destruct Ho as [Ho|Ho]; [|lia].
    destruct c as [|p|p]; [done| |done]. do 6 (destruct p as [p|p|]; try done). }
  by rewrite Hfix.
Qed.
