(* ===== verification/BspConf.v ===== *)
(** * The boot configuration block (board/mediatek/common/bsp_conf.c)

    Two copies of a record are kept in the storage.  The newer of the valid
    ones is used; an update goes to the other copy, so that a loss of power
    while it is written leaves the one in use untouched.  Writing a copy is
    the function of the board, a parameter. *)

From stdpp Require Import base list numbers list_numbers.
From Stdlib Require Import ZArith Lia.
From S2P Require Import Prelude Bytes Crc32.
Open Scope Z_scope.

Definition MTK_BSP_CONF_VER : Z := 1.
Definition UINT32_MAX : Z := 2 ^ 32 - 1.

Record mtk_image_info := ImageInfo {
  ii_invalid : Z;
  ii_size : Z;
  ii_crc32 : Z;
  ii_upd_cnt : Z;
}.

Record mtk_bsp_conf_data := BspConfData {
  crc : Z;
  len : Z;
  ver : Z;
  upd_cnt : Z;
  current_fip_slot : Z;
  fip : mtk_image_info * mtk_image_info;
  current_image_slot : Z;
  image : mtk_image_info * mtk_image_info;
}.

(** ** The record in memory: 22 little-endian words *)

Definition sizeof_bsp_conf : Z := 88.

Definition info_words (i : mtk_image_info) : list Z := [ii_invalid i; ii_size i; ii_crc32 i; ii_upd_cnt i].

Definition conf_words (c : mtk_bsp_conf_data) : list Z :=
  [crc c; len c; ver c; upd_cnt c; current_fip_slot c] ++ info_words (fip c).1 ++ info_words (fip c).2 ++
  [current_image_slot c] ++ info_words (image c).1 ++ info_words (image c).2.

Definition conf_bytes (c : mtk_bsp_conf_data) : list Z := bytes_of_words (conf_words c).

(** The record at the start of [b]. *)
Definition conf_of_bytes (b : list Z) : option mtk_bsp_conf_data :=
  match words_of_bytes 22 b with
  | [c; l; v; u; fs; a1; a2; a3; a4; b1; b2; b3; b4; ms; c1; c2; c3; c4; d1; d2; d3; d4] =>
      Some (BspConfData c l v u fs (ImageInfo a1 a2 a3 a4, ImageInfo b1 b2 b3 b4) ms
                        (ImageInfo c1 c2 c3 c4, ImageInfo d1 d2 d3 d4))
  | _ => None
  end.

#[export] Instance mtk_image_info_eq : EqDecision mtk_image_info.
Proof. solve_decision. Defined.
#[export] Instance mtk_bsp_conf_data_eq : EqDecision mtk_bsp_conf_data.
Proof. solve_decision. Defined.

Definition set_crc x c := BspConfData x (len c) (ver c) (upd_cnt c) (current_fip_slot c) (fip c)
  (current_image_slot c) (image c).
Definition set_len_ver l v c := BspConfData (crc c) l v (upd_cnt c) (current_fip_slot c) (fip c)
  (current_image_slot c) (image c).
Definition set_upd_cnt x c := BspConfData (crc c) (len c) (ver c) x (current_fip_slot c) (fip c)
  (current_image_slot c) (image c).

(** The CRC over [n] bytes from the member [len] on, which is aligned. *)
Definition conf_crc (c : mtk_bsp_conf_data) (n : Z) : Z :=
  crc32 4 0 (take (Z.to_nat n) (drop 4 (conf_bytes c))).

Definition __update_bsp_conf (c : mtk_bsp_conf_data) : mtk_bsp_conf_data :=
  let c := set_len_ver sizeof_bsp_conf MTK_BSP_CONF_VER c in
  set_crc (conf_crc c (u32 (len c - 4))) c.

Definition check_bsp_conf (c : mtk_bsp_conf_data) : Z :=
  if len c <? 4 + 4 then - EBADMSG
  else if sizeof_bsp_conf <? len c then - EBADMSG
  else if negb (conf_crc c (u32 (len c - 4)) =? crc c) then - EBADMSG
  else if MTK_BSP_CONF_VER <? ver c then - EBADMSG
  else if (ver c =? MTK_BSP_CONF_VER) && (len c <? sizeof_bsp_conf) then - EBADMSG
  else 0.

(** ** The variables of the module *)

Record bsp := Bsp {
  curr_bspconf : mtk_bsp_conf_data;
  orig_bspconf : mtk_bsp_conf_data;
  curr_bspconf_index : Z;
  persist_bsp_conf_available : bool;
}.

Definition set_curr c s := Bsp c (orig_bspconf s) (curr_bspconf_index s) (persist_bsp_conf_available s).
Definition set_orig c s := Bsp (curr_bspconf s) c (curr_bspconf_index s) (persist_bsp_conf_available s).
Definition set_index i s := Bsp (curr_bspconf s) (orig_bspconf s) i (persist_bsp_conf_available s).
Definition set_persist p s := Bsp (curr_bspconf s) (orig_bspconf s) (curr_bspconf_index s) p.

Definition conf_usable (c : option mtk_bsp_conf_data) : bool :=
  match c with Some c => check_bsp_conf c =? 0 | None => false end.

(** The copy that is used, and its number. *)
Definition pick_conf (c1 c2 : option mtk_bsp_conf_data) : option (mtk_bsp_conf_data * Z) :=
  match c1, c2 with
  | Some b1, Some b2 =>
      match conf_usable c1, conf_usable c2 with
      | false, false => None
      | true, false => Some (b1, 1)
      | false, true => Some (b2, 2)
      | true, true =>
          if (upd_cnt b1 =? UINT32_MAX) && (upd_cnt b2 =? 0) then Some (b2, 2)
          else if (upd_cnt b2 =? UINT32_MAX) && (upd_cnt b1 =? 0) then Some (b1, 1)
          else if upd_cnt b2 <? upd_cnt b1 then Some (b1, 1)
          else if upd_cnt b1 <? upd_cnt b2 then Some (b2, 2)
          else Some (b1, 1)
      end
  | Some b1, None => if conf_usable c1 then Some (b1, 1) else None
  | None, Some b2 => if conf_usable c2 then Some (b2, 2) else None
  | None, None => None
  end.

(** A shorter record of an older version is filled up with zeros. *)
Definition extend_conf (c : mtk_bsp_conf_data) : option mtk_bsp_conf_data :=
  if len c <? sizeof_bsp_conf then
    mem_fill (conf_bytes c) (len c) (sizeof_bsp_conf - len c) 0 ≫= conf_of_bytes
  else Some c.

Definition import_bsp_conf (c1 c2 : option mtk_bsp_conf_data) (s : bsp) : option bsp :=
  let s := set_persist false s in
  match pick_conf c1 c2 with
  | None => Some s
  | Some (bc, i) =>
      (λ c, Bsp c c i true) <$> extend_conf bc
  end.

Section Save.
(** [board_save_bsp_conf] of the board over its storage. *)
Context {D : Type} (board_save_bsp_conf : mtk_bsp_conf_data → Z → D → Z * D).

Definition __save_bsp_conf (forced : bool) (s : bsp) (d : D) : Z * bsp * D :=
  let s := set_curr (__update_bsp_conf (curr_bspconf s)) s in
  if negb (curr_bspconf_index s =? 0) && negb forced && bool_decide (curr_bspconf s = orig_bspconf s)
  then (0, s, d)
  else
    let next_index := if curr_bspconf_index s =? 1 then 2 else 1 in
    let c := curr_bspconf s in
    let c := __update_bsp_conf (set_upd_cnt (u32 (upd_cnt c + 1)) c) in
    let s := set_curr c s in
    let '(rc, d) := board_save_bsp_conf c next_index d in
    if negb (rc =? 0) then (rc, s, d)
    else (0, set_index next_index (set_orig c s), d).

Definition save_bsp_conf : bsp → D → Z * bsp * D := __save_bsp_conf false.

(** [bspconf] is the record the first boot stage left in memory. *)
Definition import_bsp_conf_bl2 (bspconf : mtk_bsp_conf_data) (s : bsp) (d : D) : bsp * D :=
  if negb (check_bsp_conf bspconf =? 0) then (s, d)
  else
    let bspconf := if curr_bspconf_index s =? 0 then bspconf
                   else __update_bsp_conf (set_upd_cnt (upd_cnt (curr_bspconf s)) bspconf) in
    if negb (curr_bspconf_index s =? 0) && bool_decide (bspconf = curr_bspconf s) then (s, d)
    else
      let '(rc, s, d) := __save_bsp_conf true (set_curr bspconf s) d in
      if negb (rc =? 0) then (s, d)
      else
        let '(s, d) := if persist_bsp_conf_available s then (s, d)
                       else let '(_, s, d) := __save_bsp_conf true s d in (s, d) in
        (set_persist true s, d).
End Save.
