(* ===== verification/BspConfSpec.v ===== *)
(** * The boot configuration block survives a loss of power

    An update that is interrupted at any point leaves the previous or the new
    configuration to be found at the next start, never a mixture. *)

From stdpp Require Import base list numbers list_numbers.
From Stdlib Require Import ZArith Lia.
From S2P Require Import Prelude Bytes Crc32 BspConf.
Open Scope Z_scope.

Abbreviation conf := mtk_bsp_conf_data.

Lemma conf_crc_set_crc x c n : conf_crc (set_crc x c) n = conf_crc c n.
Proof. reflexivity. Qed.

Lemma check_update c : check_bsp_conf (__update_bsp_conf c) = 0.
Proof.
  unfold check_bsp_conf, __update_bsp_conf. cbn [len ver crc set_crc set_len_ver].
  rewrite conf_crc_set_crc, Z.eqb_refl. done.
Qed.

Abbreviation norm c := (set_len_ver sizeof_bsp_conf MTK_BSP_CONF_VER c).

Lemma update_eq c : __update_bsp_conf c = set_crc (conf_crc (norm c) (u32 (sizeof_bsp_conf - 4))) (norm c).
Proof. reflexivity. Qed.

Lemma norm_set_crc x c : norm (set_crc x (norm c)) = set_crc x (norm c).
Proof. reflexivity. Qed.

Lemma set_crc_twice x y c : set_crc x (set_crc y c) = set_crc x c.
Proof. reflexivity. Qed.

Lemma update_idem c : __update_bsp_conf (__update_bsp_conf c) = __update_bsp_conf c.
Proof. by rewrite (update_eq (__update_bsp_conf c)), (update_eq c), norm_set_crc, conf_crc_set_crc, set_crc_twice. Qed.

(** What the configuration says, apart from its management data. *)
Definition payload (c : conf) := (current_fip_slot c, fip c, current_image_slot c, image c).

(** ** Two copies *)

Definition copy (i : Z) (d : conf * conf) : conf := if i =? 1 then d.1 else d.2.
Definition put (i : Z) (c : conf) (d : conf * conf) : conf * conf := if i =? 1 then (c, d.2) else (d.1, c).
Definition other (i : Z) : Z := if i =? 1 then 2 else 1.

(** The variables hold the copy in use, which is the one the next start picks. *)
Record synced (s : bsp) (d : conf * conf) : Prop := {
  sy_index : curr_bspconf_index s = 1 ∨ curr_bspconf_index s = 2;
  sy_copy : copy (curr_bspconf_index s) d = curr_bspconf s;
  sy_current : __update_bsp_conf (curr_bspconf s) = curr_bspconf s;
  sy_orig : orig_bspconf s = curr_bspconf s;
  sy_pick : pick_conf (Some d.1) (Some d.2) = Some (curr_bspconf s, curr_bspconf_index s);
  sy_count : 0 ≤ upd_cnt (curr_bspconf s) < 2 ^ 32;
}.

(** A newer copy is picked, an unusable one is not. *)
Lemma pick_newer i d c :
  i = 1 ∨ i = 2 → check_bsp_conf (copy i d) = 0 → check_bsp_conf c = 0 →
  0 ≤ upd_cnt (copy i d) < 2 ^ 32 → upd_cnt c = u32 (upd_cnt (copy i d) + 1) →
  let d' := put (other i) c d in pick_conf (Some d'.1) (Some d'.2) = Some (c, other i).
Proof.
  intros Hi Hold Hnew Hr Hc. unfold u32, pick_conf, conf_usable, copy, put, other, UINT32_MAX in *.
  assert (Hcase : upd_cnt (copy i d) = 2 ^ 32 - 1 ∧ upd_cnt c = 0 ∨
                  upd_cnt (copy i d) < 2 ^ 32 - 1 ∧ upd_cnt c = upd_cnt (copy i d) + 1).
  { unfold copy. destruct (decide ((if i =? 1 then upd_cnt d.1 else upd_cnt d.2) = 2 ^ 32 - 1)) as [He|He].
    - left. destruct Hi as [->| ->]; simpl in *; rewrite He in Hc; done.
    - right. destruct Hi as [->| ->]; simpl in *; rewrite Z.mod_small in Hc by lia; lia. }
  destruct Hi as [->| ->]; unfold copy in Hcase; simpl in *; rewrite Hold, Hnew, !Z.eqb_refl;
    destruct Hcase as [[H1 H2]|[H1 H2]]; rewrite ?H1, ?H2; try done;
    repeat (case Z.eqb_spec; intros; simpl; try lia); repeat (case Z.ltb_spec; intros; try lia); done.
Qed.

Lemma pick_unusable i d c :
  i = 1 ∨ i = 2 → check_bsp_conf (copy i d) = 0 → check_bsp_conf c ≠ 0 →
  let d' := put (other i) c d in pick_conf (Some d'.1) (Some d'.2) = Some (copy i d, i).
Proof.
  intros Hi Hold Hnew. apply Z.eqb_neq in Hnew. unfold pick_conf, conf_usable, copy, put, other in *.
  destruct Hi as [->| ->]; simpl in *; by rewrite Hold, Hnew.
Qed.

(** What is asked of the function of the board: it writes the copy it is told
    to.  If it returns 0 the copy holds the record; otherwise, or if the power
    is lost meanwhile, the copy is what it was, or complete, or so that the
    check fails. *)
Definition copy_store (board_save : conf → Z → conf * conf → Z * (conf * conf)) : Prop :=
  ∀ c i d, let '(rc, d') := board_save c i d in
    ∃ x, d' = put i x d ∧ (rc = 0 → x = c) ∧ (x = c ∨ x = copy i d ∨ check_bsp_conf x ≠ 0).

(** The state after a start that picks [c]. *)
Lemma import_synced c i d s :
  pick_conf (Some d.1) (Some d.2) = Some (c, i) → i = 1 ∨ i = 2 → copy i d = c →
  __update_bsp_conf c = c → 0 ≤ upd_cnt c < 2 ^ 32 →
  ∃ s', import_bsp_conf (Some d.1) (Some d.2) s = Some s' ∧ synced s' d ∧ curr_bspconf s' = c ∧
    persist_bsp_conf_available s' = true.
Proof.
  intros Hpick Hi Hc Hu Hr. exists (Bsp c c i true). unfold import_bsp_conf. rewrite Hpick.
  assert (Hl : len c = sizeof_bsp_conf) by (by rewrite <- Hu).
  unfold extend_conf. rewrite Hl, Z.ltb_irrefl. split; [done|]. split; [|done]. by constructor.
Qed.

Lemma update_count c : upd_cnt (__update_bsp_conf c) = upd_cnt c.
Proof. reflexivity. Qed.

Lemma copy_put_other i c d : i = 1 ∨ i = 2 → copy i (put (other i) c d) = copy i d ∧ copy (other i) (put (other i) c d) = c.
Proof. by intros [->| ->]. Qed.

Lemma synced_check s d : synced s d → check_bsp_conf (copy (curr_bspconf_index s) d) = 0.
Proof. intros [_ -> <- _ _ _]. apply check_update. Qed.

(** A store of [new] to the other copy, however it ends. *)
Lemma store_outcomes s d x new s0 :
  synced s d → new = __update_bsp_conf new → upd_cnt new = u32 (upd_cnt (curr_bspconf s) + 1) →
  x = new ∨ x = copy (other (curr_bspconf_index s)) d ∨ check_bsp_conf x ≠ 0 →
  let d' := put (other (curr_bspconf_index s)) x d in
  ∃ s', import_bsp_conf (Some d'.1) (Some d'.2) s0 = Some s' ∧ synced s' d' ∧
    curr_bspconf s' = (if decide (x = new) then new else curr_bspconf s).
Proof.
  intros Hs Hnew Hcnt Hx d'. pose proof (synced_check s d Hs) as Hchk. destruct Hs as [Hi Hcp Hcur Ho Hp Hc].
  destruct (copy_put_other (curr_bspconf_index s) x d Hi) as [Hsame Hput].
  case_decide as Hd.
  - subst x. destruct (import_synced new (other (curr_bspconf_index s)) d' s0) as (s' & ? & ? & ? & _);
      [|by destruct Hi as [->| ->]; auto|done|done| |by eauto].
    + apply pick_newer; [done|done|rewrite Hnew; apply check_update|by rewrite Hcp|by rewrite Hcp].
    + rewrite Hcnt. unfold u32. apply Z.mod_pos_bound. lia.
  - destruct (import_synced (curr_bspconf s) (curr_bspconf_index s) d' s0) as (s' & ? & ? & ? & _);
      [|done|by unfold d'; rewrite Hsame|done|done|by eauto].
    destruct Hx as [?|[Hx|Hx]]; [done| |].
    + replace d' with d; [done|]. unfold d'. rewrite Hx. by destruct Hi as [->| ->], d.
    + rewrite <- Hcp. by apply pick_unusable.
Qed.

(** After a complete store the variables agree with the copies again. *)
Lemma store_synced s d new p :
  synced s d → new = __update_bsp_conf new → upd_cnt new = u32 (upd_cnt (curr_bspconf s) + 1) →
  synced (Bsp new new (other (curr_bspconf_index s)) p) (put (other (curr_bspconf_index s)) new d).
Proof.
  intros Hs Hnew Hcnt. pose proof (synced_check s d Hs) as Hchk. destruct Hs as [Hi Hcp _ _ _ Hr].
  constructor; cbn [curr_bspconf curr_bspconf_index orig_bspconf].
  - destruct Hi as [->| ->]; auto.
  - by apply copy_put_other.
  - done.
  - done.
  - apply pick_newer; [done|done|rewrite Hnew; apply check_update|by rewrite Hcp|by rewrite Hcp].
  - rewrite Hcnt. unfold u32. apply Z.mod_pos_bound. lia.
Qed.

(** C18: saving a changed configuration is atomic, when the variables agree
    with the storage ([synced]: no save has failed since the start) and the
    board writes the copy it is told to, completely, not at all, or so that
    the check of the copy fails ([copy_store]).  However that write ends, the
    next start finds a usable configuration that is either the one before or
    the new one, and if the call returned 0 it is the new one; then the
    variables agree with the storage again.  The other copy is written, never
    the one in use, also when the update counter wraps.  The agreement is
    needed: [failed_save_before_wrap_loses_update]. *)
Theorem save_bsp_conf_is_atomic board_save c s d s0 :
  copy_store board_save → synced s d → upd_cnt c = upd_cnt (curr_bspconf s) →
  let '(rc, s', d') := save_bsp_conf board_save (set_curr c s) d in
  copy (curr_bspconf_index s) d' = curr_bspconf s ∧
  (∃ s'', import_bsp_conf (Some d'.1) (Some d'.2) s0 = Some s'' ∧ synced s'' d' ∧
     (payload (curr_bspconf s'') = payload (curr_bspconf s) ∨ payload (curr_bspconf s'') = payload c) ∧
     (rc = 0 → payload (curr_bspconf s'') = payload c)) ∧
  (rc = 0 → synced s' d' ∧ payload (curr_bspconf s') = payload c).
Proof.
  intros Hstore Hs Hcnt. pose proof Hs as [Hi Hcp Hcur Ho Hp Hr].
  unfold save_bsp_conf, __save_bsp_conf. cbn [curr_bspconf curr_bspconf_index orig_bspconf set_curr].
  assert (Hi0 : (curr_bspconf_index s =? 0) = false) by (destruct Hi; lia). rewrite Hi0. cbn [negb andb].
  case_bool_decide as Heq.
  - assert (Hpl : payload (curr_bspconf s) = payload c) by (rewrite <- Ho, <- Heq; done).
    split; [done|]. split.
    + destruct (import_synced _ _ d s0 Hp Hi Hcp Hcur Hr) as (s'' & Him & Hsy & Hc'' & _).
      exists s''. rewrite Hc''. auto.
    + intros _. rewrite Heq, Ho. split; [|done]. by destruct s.
  - change (if curr_bspconf_index s =? 1 then 2 else 1) with (other (curr_bspconf_index s)).
    set (new := __update_bsp_conf (set_upd_cnt _ _)).
    assert (Hnew : new = __update_bsp_conf new) by (symmetry; apply update_idem).
    assert (Hnc : upd_cnt new = u32 (upd_cnt (curr_bspconf s) + 1)) by (rewrite <- Hcnt; done).
    assert (Hnp : payload new = payload c) by done. clearbody new.
    specialize (Hstore new (other (curr_bspconf_index s)) d).
    destruct (board_save new (other (curr_bspconf_index s)) d) as [rc d']. destruct Hstore as (x & -> & Hrc & Hx).
    destruct (store_outcomes s d x new s0 Hs Hnew Hnc Hx) as (s'' & Him & Hsy & Hc'').
    destruct (copy_put_other (curr_bspconf_index s) x d Hi) as [Hsame _].
    destruct (Z.eqb_spec rc 0) as [Hz|Hz]; cbn [negb].
    + specialize (Hrc Hz). rewrite decide_True in Hc'' by done.
      split; [by rewrite Hsame|]. split.
      * exists s''. rewrite Hc''. auto.
      * intros _. split; [|done]. subst x. by apply store_synced.
    + split; [by rewrite Hsame|]. split; [|done]. exists s''. split; [done|]. split; [done|].
      rewrite Hc''. case_decide; (split; [auto|done]).
Qed.

(** ** A concrete storage *)

Definition demo_conf : conf :=
  let i := ImageInfo 0 0 0 0 in __update_bsp_conf (BspConfData 0 0 0 UINT32_MAX 0 (i, i) 0 (i, i)).
Definition demo_new : conf :=
  let i := ImageInfo 0 0 0 0 in BspConfData 0 0 0 UINT32_MAX 0 (i, i) 1 (ImageInfo 1 0 0 0, i).
Definition blank_conf : conf :=
  let i := ImageInfo 0xffffffff 0xffffffff 0xffffffff 0xffffffff in
  BspConfData 0xffffffff 0xffffffff 0xffffffff 0xffffffff 0xffffffff (i, i) 0xffffffff (i, i).
Definition demo_copies : conf * conf := (demo_conf, blank_conf).
Definition demo_bsp : bsp := Bsp demo_conf demo_conf 1 true.
Definition demo_store (c : conf) (i : Z) (d : conf * conf) : Z * (conf * conf) := (0, put i c d).

Lemma demo_synced : synced demo_bsp demo_copies.
Proof. constructor; [by left|by vm_compute..]. Qed.

Lemma demo_copy_store : copy_store demo_store.
Proof. intros c i d. exists c. auto. Qed.

(** The counter of the copy in use is at its maximum: the new one has 0. *)
Lemma save_bsp_conf_is_atomic_witness :
  let '(rc, s', d') := save_bsp_conf demo_store (set_curr demo_new demo_bsp) demo_copies in
  copy 1 d' = demo_conf ∧
  (∃ s'', import_bsp_conf (Some d'.1) (Some d'.2) demo_bsp = Some s'' ∧ synced s'' d' ∧
     (payload (curr_bspconf s'') = payload demo_conf ∨ payload (curr_bspconf s'') = payload demo_new) ∧
     (rc = 0 → payload (curr_bspconf s'') = payload demo_new)) ∧
  (rc = 0 → synced s' d' ∧ payload (curr_bspconf s') = payload demo_new).
Proof.
  exact (save_bsp_conf_is_atomic demo_store demo_new demo_bsp demo_copies demo_bsp demo_copy_store demo_synced eq_refl).
Defined.

(** The counter is incremented also by a save that fails.  One failure just
    before the counter wraps makes the next successful save look older than
    the copy it replaces: the update is lost. *)
Definition flaky_store (c : conf) (i : Z) (d : bool * (conf * conf)) : Z * (bool * (conf * conf)) :=
  if d.1 then (- EIO, (false, d.2)) else (0, (false, put i c d.2)).

Lemma failed_save_before_wrap_loses_update :
  let c := __update_bsp_conf (set_upd_cnt (UINT32_MAX - 1) demo_conf) in
  let s := Bsp (set_upd_cnt (UINT32_MAX - 1) demo_new) c 1 true in
  let '(rc1, s1, d1) := save_bsp_conf flaky_store s (true, (c, blank_conf)) in
  let '(rc2, s2, d2) := save_bsp_conf flaky_store s1 d1 in
  rc1 = - EIO ∧ rc2 = 0 ∧ payload (curr_bspconf s2) = payload demo_new ∧
  (λ s, payload (curr_bspconf s)) <$> import_bsp_conf (Some d2.2.1) (Some d2.2.2) s2 = Some (payload demo_conf).
Proof. by vm_compute. Qed.
