(* ===== verification/DualBoot.v ===== *)
(** * A/B boot of the MediaTek boards (board/mediatek/common/dual_boot.c)

    Which of two image slots is booted: the current slot is kept in the
    environment, a slot that failed is marked invalid there, and the number of
    attempts is kept in a register that survives every reset but a cold one.
    What lies outside, booting a slot and storing the environment, are
    parameters. *)

From stdpp Require Import base list numbers list_numbers strings gmap.
From Stdlib Require Import ZArith Lia.
From S2P Require Import Prelude Bytes CStr.
Open Scope Z_scope.

(** [s8]: the two's complement reading of the low 8 bits. *)
Definition s8 (x : Z) : Z := (x + 2 ^ 7) `mod` 2 ^ 8 - 2 ^ 7.

Definition DUAL_BOOT_MAX_SLOTS : Z := 2.

Abbreviation environment := (gmap (list Z) (list Z)).

(** The two static buffers an argument can point to. *)
Inductive slot_buffer := BootImageSlot | UpgradeImageSlot.

Record arg_pair := ArgPair { arg_key : list Z; arg_value : option slot_buffer }.

(** An argument list: room for [al_max] entries. *)
Record arg_list := ArgList { ap : list arg_pair; al_max : Z }.

Record board := Board {
  env : environment;              (* the hash table *)
  env_stored : environment;       (* what the storage holds *)
  nonrst_reg : Z;                 (* the register the secure firmware keeps *)
  dual_boot_disabled : bool;
  boot_image_slot : list Z;
  upgrade_image_slot : list Z;
  bootargs : arg_list;
  fdtargs : arg_list;
  attempts : list Z;              (* the slots whose images were started *)
}.

Definition set_env e b := Board e (env_stored b) (nonrst_reg b) (dual_boot_disabled b)
  (boot_image_slot b) (upgrade_image_slot b) (bootargs b) (fdtargs b) (attempts b).
Definition set_env_stored e b := Board (env b) e (nonrst_reg b) (dual_boot_disabled b)
  (boot_image_slot b) (upgrade_image_slot b) (bootargs b) (fdtargs b) (attempts b).
Definition set_nonrst_reg r b := Board (env b) (env_stored b) r (dual_boot_disabled b)
  (boot_image_slot b) (upgrade_image_slot b) (bootargs b) (fdtargs b) (attempts b).
Definition set_disabled x b := Board (env b) (env_stored b) (nonrst_reg b) x
  (boot_image_slot b) (upgrade_image_slot b) (bootargs b) (fdtargs b) (attempts b).
Definition set_boot_image_slot x b := Board (env b) (env_stored b) (nonrst_reg b) (dual_boot_disabled b)
  x (upgrade_image_slot b) (bootargs b) (fdtargs b) (attempts b).
Definition set_upgrade_image_slot x b := Board (env b) (env_stored b) (nonrst_reg b) (dual_boot_disabled b)
  (boot_image_slot b) x (bootargs b) (fdtargs b) (attempts b).
Definition set_bootargs x b := Board (env b) (env_stored b) (nonrst_reg b) (dual_boot_disabled b)
  (boot_image_slot b) (upgrade_image_slot b) x (fdtargs b) (attempts b).
Definition set_fdtargs x b := Board (env b) (env_stored b) (nonrst_reg b) (dual_boot_disabled b)
  (boot_image_slot b) (upgrade_image_slot b) (bootargs b) x (attempts b).
Definition set_attempts x b := Board (env b) (env_stored b) (nonrst_reg b) (dual_boot_disabled b)
  (boot_image_slot b) (upgrade_image_slot b) (bootargs b) (fdtargs b) x.

(** The configuration: CONFIG_MTK_DUAL_BOOT_ENABLE_RETRY,
    CONFIG_MTK_DUAL_BOOT_MAX_RETRY_COUNT, CONFIG_MTK_DUAL_BOOT_ITB_IMAGE. *)
Record config := Config {
  ENABLE_RETRY : bool;
  MAX_RETRY_COUNT : Z;
  ITB_IMAGE : bool;
}.

Section DualBoot.
(** [env_set_rc] says whether the hash table takes a variable (0) or not,
    [env_save_op] is what env_save() returns and leaves in the storage,
    [boot_slot] is the function of struct dual_boot_priv, [malloc_ok] whether
    memory is available, [set_fitblk_rootfs] puts the name of the partition of
    a slot into the device tree. *)
Context (cfg : config) (env_set_rc : list Z → list Z → board → Z).
Context (env_save_op : board → Z * environment).
Context (boot_slot : Z → bool → M board Z) (malloc_ok : board → bool).
Context (set_fitblk_rootfs : Z → M board unit).
Abbreviation B := (M board).

(** ** The environment *)

Definition env_get (name : list Z) : B (option (list Z)) := gets (λ b, env b !! name).

Definition env_set_ulong (name : list Z) (value : Z) : B Z :=
  rc ← gets (env_set_rc name (simple_itoa value));
  if rc =? 0 then modify (λ b, set_env (<[name := simple_itoa value]> (env b)) b);; ret 0
  else ret rc.

Definition env_save : B Z :=
  '(rc, e) ← gets env_save_op;
  modify (set_env_stored e);;
  ret rc.

Definition current_slot_name : list Z := str "dual_boot.current_slot".
Definition slot_invalid_name (slot : Z) : list Z :=
  str "dual_boot.slot_" ++ simple_itoa slot ++ str "_invalid".

(** ** Slots *)

Definition dual_boot_disable : B unit := modify (set_disabled true).

Definition dual_boot_get_current_slot : B Z :=
  slot_str ← env_get current_slot_name;
  match slot_str with
  | None => ret 0
  | Some slot_str =>
      '(slot, rest) ← some (simple_strtoul (slot_str ++ [0]) 10);
      if bool_decide (length rest = length (slot_str ++ [0])) || negb (bool_decide (head rest = Some 0)) then ret 0
      else ret (u32 slot)
  end.

Definition dual_boot_get_next_slot : B Z :=
  current_slot ← dual_boot_get_current_slot;
  ret (u32 (current_slot + 1) `mod` DUAL_BOOT_MAX_SLOTS).

Definition dual_boot_set_current_slot (slot : Z) : B Z :=
  if DUAL_BOOT_MAX_SLOTS <=? slot then ret (- EINVAL)
  else
    rc ← env_set_ulong current_slot_name slot;
    if negb (rc =? 0) then ret rc else env_save.

Definition dual_boot_is_slot_invalid (slot : Z) : B bool :=
  val ← env_get (slot_invalid_name slot);
  match val with
  | None => ret false
  | Some val => ret (bool_decide (val = str "1"))
  end.

Definition dual_boot_set_slot_invalid (slot : Z) (invalid save : bool) : B Z :=
  rc ← env_set_ulong (slot_invalid_name slot) (if invalid then 1 else 0);
  if negb (rc =? 0) then ret rc
  else if save then env_save else ret rc.

(** ** The boot count *)

(** A value and its negative, each in 8 bits. *)
Definition pair_value (pos neg : Z) : option Z :=
  let pos := s8 pos in let neg := s8 neg in
  if (0 <=? pos) && (neg <=? 0) && (pos + neg =? 0) then Some pos else None.

(** Whether the register holds a count; the slot and the count. *)
Definition dual_boot_get_boot_count : B (bool * Z * Z) :=
  val ← gets (λ b, u32 (nonrst_reg b));
  match pair_value (Z.land (Z.shiftr val 16) 0xff) (Z.land (Z.shiftr val 24) 0xff) with
  | None => ret (false, 0, 0)
  | Some slot =>
      match pair_value (Z.land val 0xff) (Z.land (Z.shiftr val 8) 0xff) with
      | None => ret (false, 0, 0)
      | Some count => ret (true, u32 slot, u32 count)
      end
  end.

Definition dual_boot_set_boot_count (slot count : Z) : B unit :=
  if (127 <? slot) || (127 <? count) then ret tt
  else
    let neg := s32 (- count) in
    let val := Z.lor count (Z.land (s32 (Z.shiftl neg 8)) 0xff00) in
    let neg := s32 (- slot) in
    let val := u32 (Z.lor (Z.lor val (u32 (Z.shiftl slot 16))) (Z.land (s32 (Z.shiftl neg 24)) 0xff000000)) in
    modify (set_nonrst_reg val).

(** ** Booting *)

(** The last boot count of the slot and the limit, 0 without retries. *)
Definition boot_counts (slot : Z) : B (Z * Z) :=
  if ENABLE_RETRY cfg then
    '(bcvalid, last_slot, bootcount) ← dual_boot_get_boot_count;
    ret (if negb bcvalid || negb (slot =? last_slot) then 0 else bootcount,
         if MAX_RETRY_COUNT cfg <? 1 then 1 else MAX_RETRY_COUNT cfg)
  else ret (0, 0).

(** Starting the image of a slot. *)
Definition start_slot (slot : Z) (do_boot : bool) : B Z :=
  modify (λ b, set_attempts (attempts b ++ [slot]) b);;
  boot_slot slot do_boot.

(** The first half of dual_boot(), for the current slot: the result if the
    function returns, and the value [ret] has otherwise, if any. *)
Definition boot_current (do_boot : bool) : B (bool * option Z) :=
  slot ← dual_boot_get_current_slot;
  '(bootcount, maxcount) ← boot_counts slot;
  inv ← dual_boot_is_slot_invalid slot;
  if inv : bool then ret (false, None)
  else
    '(done, r) ←
      (if negb (maxcount =? 0) && (maxcount <=? bootcount) then ret (false, None)
       else
         (if negb (maxcount =? 0) then dual_boot_set_boot_count slot (u32 (bootcount + 1)) else ret tt);;
         r ← start_slot slot do_boot;
         ret ((r =? 0) && negb do_boot, Some r));
    if done : bool then ret (true, r)
    else
      dual_boot_set_slot_invalid slot true true;;
      ret (false, r).

(** The second half, for the other slot. *)
Definition boot_next (do_boot : bool) (r : option Z) (retry : bool) : B (option Z) :=
  slot ← dual_boot_get_next_slot;
  inv ← dual_boot_is_slot_invalid slot;
  if inv : bool then ret r
  else
    rc ← dual_boot_set_current_slot slot;
    if negb (rc =? 0) then panic
    else
      (if retry then dual_boot_set_boot_count slot 1 else ret tt);;
      r ← start_slot slot do_boot;
      if (r =? 0) && negb do_boot then ret (Some r)
      else
        dual_boot_set_slot_invalid slot true true;;
        ret (Some r).

(** The variable [ret] has no value if neither slot was tried, and returning
    it is undefined. *)
Definition dual_boot (do_boot : bool) : B Z :=
  '(done, r) ← boot_current do_boot;
  if done : bool then some r
  else
    r ← boot_next do_boot r (ENABLE_RETRY cfg);
    some r.

(** ** Passing the slots to the kernel *)

Definition ARGLIST_INCR : Z := 20.

Definition arg_list_set (get : board → arg_list) (set : arg_list → board → board)
    (key : list Z) (value : option slot_buffer) : B Z :=
  al ← gets get;
  ok ← gets malloc_ok;
  if (zlen (ap al) =? al_max al) && negb ok then panic
  else
    let max := if zlen (ap al) =? al_max al then u32 (al_max al + ARGLIST_INCR) else al_max al in
    modify (set (ArgList (ap al ++ [ArgPair key value]) max));;
    ret 0.

Definition bootargs_set := arg_list_set bootargs set_bootargs.
Definition fdtargs_set := arg_list_set fdtargs set_fdtargs.

(** The calls up to the first that fails. *)
Fixpoint set_args (setter : list Z → option slot_buffer → B Z) (args : list (list Z * option slot_buffer)) : B Z :=
  match args with
  | [] => ret 0
  | (key, value) :: args' =>
      rc ← setter key value;
      if negb (rc =? 0) then ret (- 1) else set_args setter args'
  end.

(** snprintf(buf, 16, "%u", slot): a 32-bit number fits. *)
Definition print_slot (slot : Z) : list Z := simple_itoa slot.

Definition dual_boot_set_default_bootargs : B Z :=
  slot ← dual_boot_get_current_slot;
  modify (set_boot_image_slot (print_slot slot));;
  rc ← set_args bootargs_set [(str "boot_param.boot_image_slot", Some BootImageSlot)];
  if negb (rc =? 0) then ret (- 1)
  else
    slot ← dual_boot_get_next_slot;
    modify (set_upgrade_image_slot (print_slot slot));;
    set_args bootargs_set
      ([(str "boot_param.upgrade_image_slot", Some UpgradeImageSlot); (str "boot_param.dual_boot", None)] ++
       if ENABLE_RETRY cfg then [(str "boot_param.reset_boot_count", None)] else []).

(** [dual_boot_slots[slot]] is undefined for a slot the table does not have. *)
Definition dual_boot_set_fdt_defaults : B Z :=
  slot ← dual_boot_get_current_slot;
  (if slot <? DUAL_BOOT_MAX_SLOTS then set_fitblk_rootfs slot else fault);;
  modify (set_boot_image_slot (print_slot slot));;
  rc ← set_args fdtargs_set [(str "mediatek,boot-image-slot", Some BootImageSlot)];
  if negb (rc =? 0) then ret (- 1)
  else
    slot ← dual_boot_get_next_slot;
    modify (set_upgrade_image_slot (print_slot slot));;
    set_args fdtargs_set
      ([(str "mediatek,upgrade-image-slot", Some UpgradeImageSlot); (str "mediatek,dual-boot", None)] ++
       if ENABLE_RETRY cfg then [(str "mediatek,reset-boot-count", None)] else []).

Definition dual_boot_set_defaults : B Z :=
  dis ← gets dual_boot_disabled;
  if dis : bool then ret 0
  else
    rc ← (if ITB_IMAGE cfg then dual_boot_set_fdt_defaults else dual_boot_set_default_bootargs);
    if negb (rc =? 0) then panic else ret rc.
End DualBoot.
