(* ===== verification/DualBootSpec.v ===== *)
(** * A/B boot: the properties

    No image is started whose slot is marked invalid, whatever the
    environment, the storage and the images do; an image that never comes up
    is given the configured number of attempts and then abandoned for good. *)

From stdpp Require Import base list numbers list_numbers strings gmap.
From Stdlib Require Import ZArith Lia FunctionalExtensionality.
From S2P Require Import Prelude Bytes CStr DualBoot.
Open Scope Z_scope.

(** ** Reading the slots *)

Lemma strtoul_digits_terminated s base r :
  base ≤ 16 → ∃ v rest, strtoul_digits (s ++ [0]) base r = Some (v, rest) ∧ head rest ≠ None.
Proof.
  intros Hb. revert r. induction s as [|c s IH]; intros r; cbn [strtoul_digits app].
  - change (decode_digit 0) with 256. destruct (Z.ltb_spec 256 base); [lia|]. by eexists _, _.
  - destruct (_ <? _); [apply IH|]. by eexists _, _.
Qed.

(** A terminated string is read to its end at most. *)
Lemma strtoul_terminated s base :
  0 < base ≤ 16 → ∃ v rest, simple_strtoul (s ++ [0]) base = Some (v, rest).
Proof.
  intros Hb. unfold simple_strtoul.
  assert (Hplain : ∃ v rest, strtoul_digits (s ++ [0]) base 0 = Some (v, rest)).
  { destruct (strtoul_digits_terminated s base 0) as (v & rest & H & _); [lia|]. by eexists _, _. }
  assert (Hb0 : (base =? 0) = false) by lia.
  unfold _parse_integer_fixup_radix. destruct (s ++ [0]) as [|c s'] eqn:Hs; [by destruct s|].
  destruct (decide (c = 48)) as [->|Hc].
  - destruct s' as [|c' s'']; [destruct s as [|? [|]]; discriminate|]. case Z.eqb_spec; intros Hx.
    + assert (∃ t, s'' = t ++ [0]) as [t ->].
      { destruct s as [|a [|a' t]]; [done| |].
        - injection Hs as _ <- <-. discriminate.
        - injection Hs as _ _ <-. by exists t. }
      destruct (strtoul_digits_terminated t 16 0) as (v & rest & H & _); [lia|]. by eexists _, _.
    + by rewrite Hb0.
  - rewrite Hb0. destruct c as [|p|p]; [done| |done]. do 6 (destruct p as [p|p|]; try done).
Qed.

Definition slot_of (b : board) : Z :=
  match env b !! current_slot_name with
  | None => 0
  | Some v =>
      match simple_strtoul (v ++ [0]) 10 with
      | Some (slot, rest) =>
          if bool_decide (length rest = length (v ++ [0])) || negb (bool_decide (head rest = Some 0)) then 0
          else u32 slot
      | None => 0
      end
  end.

Definition slot_invalid (b : board) (slot : Z) : bool :=
  bool_decide (env b !! slot_invalid_name slot = Some (str "1")).

Lemma get_current_slot_run me b : dual_boot_get_current_slot me b = Ret (slot_of b) b.
Proof.
  unfold dual_boot_get_current_slot, env_get, slot_of, bind, gets. cbn [rbind].
  destruct (env b !! _) as [v|]; [|done].
  destruct (strtoul_terminated v 10) as (n & rest & ->); [lia|]. cbn [some ret rbind]. by destruct (_ || _).
Qed.

Lemma get_next_slot_run me b : dual_boot_get_next_slot me b = Ret (u32 (slot_of b + 1) `mod` 2) b.
Proof. unfold dual_boot_get_next_slot, bind. by rewrite get_current_slot_run. Qed.

Lemma is_slot_invalid_run slot me b : dual_boot_is_slot_invalid slot me b = Ret (slot_invalid b slot) b.
Proof.
  unfold dual_boot_is_slot_invalid, env_get, slot_invalid, bind, gets. cbn [rbind].
  destruct (env b !! _) as [v|]; [|done]. unfold ret. f_equal. apply bool_decide_ext. naive_solver.
Qed.

(** The names of the variables differ. *)
Lemma names_differ slot : current_slot_name ≠ slot_invalid_name slot.
Proof. by unfold slot_invalid_name. Qed.

Lemma slot_invalid_current b v slot :
  slot_invalid (set_env (<[current_slot_name := v]> (env b)) b) slot = slot_invalid b slot.
Proof. unfold slot_invalid. cbn [env set_env]. by rewrite lookup_insert_ne by apply names_differ. Qed.

Lemma slot_of_invalid b slot v :
  slot_of (set_env (<[slot_invalid_name slot := v]> (env b)) b) = slot_of b.
Proof. unfold slot_of. cbn [env set_env]. rewrite lookup_insert_ne; [done|]. intros He. by eapply names_differ. Qed.

Lemma slot_of_current b slot :
  0 ≤ slot < 2 ^ 32 → slot_of (set_env (<[current_slot_name := simple_itoa slot]> (env b)) b) = slot.
Proof.
  intros Hs. unfold slot_of. cbn [env set_env]. rewrite lookup_insert_eq, strtoul_itoa by lia.
  rewrite bool_decide_false.
  - cbn. unfold u32. apply Z.mod_small. lia.
  - rewrite length_app. pose proof (itoa_nonempty slot). destruct (simple_itoa slot); [done|]. cbn. lia.
Qed.

(** ** The boot count *)

Definition count_word (slot count : Z) : Z :=
  let val := Z.lor count (Z.land (s32 (Z.shiftl (s32 (- count)) 8)) 0xff00) in
  u32 (Z.lor (Z.lor val (u32 (Z.shiftl slot 16))) (Z.land (s32 (Z.shiftl (s32 (- slot)) 24)) 0xff000000)).

Definition count_of (val : Z) : option (Z * Z) :=
  match pair_value (Z.land (Z.shiftr val 16) 0xff) (Z.land (Z.shiftr val 24) 0xff),
        pair_value (Z.land val 0xff) (Z.land (Z.shiftr val 8) 0xff) with
  | Some slot, Some count => Some (u32 slot, u32 count)
  | _, _ => None
  end.

Lemma count_word_all :
  forallb (λ slot, forallb (λ count,
    bool_decide (count_of (u32 (count_word slot count)) = Some (slot, count))) (seqZ 0 128)) (seqZ 0 128) = true.
Proof. vm_compute. reflexivity. Qed.

Lemma count_of_word slot count :
  0 ≤ slot ≤ 127 → 0 ≤ count ≤ 127 → count_of (u32 (count_word slot count)) = Some (slot, count).
Proof.
  intros Hs Hc. pose proof count_word_all as H. rewrite forallb_forall in H.
  specialize (H slot ltac:(apply list_elem_of_In, elem_of_seqZ; lia)). rewrite forallb_forall in H.
  specialize (H count ltac:(apply list_elem_of_In, elem_of_seqZ; lia)). by apply bool_decide_eq_true in H.
Qed.

Lemma get_boot_count_run me b :
  dual_boot_get_boot_count me b =
    Ret (match count_of (u32 (nonrst_reg b)) with Some (s, c) => (true, s, c) | None => (false, 0, 0) end) b.
Proof.
  unfold dual_boot_get_boot_count, count_of, bind, gets. cbn [rbind].
  destruct (pair_value _ _) as [x|]; [|done]. by destruct (pair_value _ _).
Qed.

Lemma set_boot_count_run slot count me b :
  0 ≤ slot ≤ 127 → 0 ≤ count ≤ 127 →
  dual_boot_set_boot_count slot count me b = Ret tt (set_nonrst_reg (count_word slot count) b).
Proof.
  intros Hs Hc. unfold dual_boot_set_boot_count.
  destruct (Z.ltb_spec 127 slot); [lia|]. by destruct (Z.ltb_spec 127 count); [lia|].
Qed.

(** ** Only valid slots are started *)

(** A call whose result is known. *)
Ltac run H := rewrite !(bind_Ret _ _ _ _ _ _ H).

Lemma rbind_ext {S A C} (r : res S A) (f g : A → S → res S C) : (∀ a s, f a s = g a s) → rbind r f = rbind r g.
Proof.
  intros Hfg. induction r as [a s|s k IH| | | |]; simpl; [done| |done..].
  f_equal. by apply functional_extensionality.
Qed.

Section Guard.
Context (cfg : config) (env_set_rc : list Z → list Z → board → Z).
Context (env_save_op : board → Z * gmap (list Z) (list Z)) (boot_slot : Z → bool → M board Z).

(** Starting a slot that is marked invalid is an error here. *)
Definition guarded (slot : Z) (do_boot : bool) : M board Z :=
  λ me b, if slot_invalid b slot then Fault else boot_slot slot do_boot me b.

Lemma start_slot_guarded slot do_boot me b :
  slot_invalid b slot = false → start_slot guarded slot do_boot me b = start_slot boot_slot slot do_boot me b.
Proof.
  intros Hv. unfold start_slot, bind, modify, guarded. cbn [rbind].
  change (slot_invalid (set_attempts _ b) slot) with (slot_invalid b slot). by rewrite Hv.
Qed.

Lemma set_current_slot_keeps slot slot' me b :
  ∃ rc b', dual_boot_set_current_slot env_set_rc env_save_op slot me b = Ret rc b' ∧
    slot_invalid b' slot' = slot_invalid b slot'.
Proof.
  unfold dual_boot_set_current_slot, env_set_ulong, env_save, bind, gets, modify.
  destruct (_ <=? _); [by eexists _, _|]. cbn [rbind].
  destruct (env_set_rc _ _ b =? 0) eqn:Hz; cbn [rbind ret].
  - cbn [Z.eqb negb rbind]. destruct (env_save_op _) as [rc' e]. cbn [rbind ret]. eexists _, _. split; [done|].
    apply (slot_invalid_current b).
  - rewrite Hz. by eexists _, _.
Qed.

Lemma boot_count_state cond slot count me b :
  ∃ reg, (if cond : bool then dual_boot_set_boot_count slot count else ret tt) me b = Ret tt (set_nonrst_reg reg b).
Proof.
  assert (Hsame : Ret tt b = Ret tt (set_nonrst_reg (nonrst_reg b) b) :> res board unit) by (by destruct b).
  destruct cond; [|by eexists]. unfold dual_boot_set_boot_count. destruct (_ || _); by eexists.
Qed.

Lemma boot_next_guarded do_boot r retry me b :
  boot_next env_set_rc env_save_op guarded do_boot r retry me b =
  boot_next env_set_rc env_save_op boot_slot do_boot r retry me b.
Proof.
  unfold boot_next. run (get_next_slot_run me b). set (slot := _ `mod` 2).
  run (is_slot_invalid_run slot me b). destruct (slot_invalid b slot) eqn:Hv; [done|].
  destruct (set_current_slot_keeps slot slot me b) as (rc & b1 & Hset & Hkeep). run Hset.
  destruct (negb _); [done|]. destruct (boot_count_state retry slot 1 me b1) as [reg Hreg]. run Hreg.
  unfold bind. rewrite start_slot_guarded; [done|].
  change (slot_invalid (set_nonrst_reg reg b1) slot) with (slot_invalid b1 slot). by rewrite Hkeep.
Qed.

Lemma boot_counts_run slot me b : ∃ c m, boot_counts cfg slot me b = Ret (c, m) b.
Proof.
  unfold boot_counts. destruct (ENABLE_RETRY cfg); [|by eexists _, _]. unfold bind. rewrite get_boot_count_run.
  cbn [rbind]. destruct (count_of _) as [[]|]; by eexists _, _.
Qed.

Lemma boot_current_guarded do_boot me b :
  boot_current cfg env_set_rc env_save_op guarded do_boot me b =
  boot_current cfg env_set_rc env_save_op boot_slot do_boot me b.
Proof.
  unfold boot_current. run (get_current_slot_run me b). set (slot := slot_of b).
  destruct (boot_counts_run slot me b) as (c & m & Hc). run Hc. run (is_slot_invalid_run slot me b).
  destruct (slot_invalid b slot) eqn:Hv; [done|]. destruct (negb (m =? 0) && (m <=? c)); [done|].
  destruct (boot_count_state (negb (m =? 0)) slot (u32 (c + 1)) me b) as [reg Hreg].
  unfold bind. rewrite Hreg. cbn [rbind]. by rewrite start_slot_guarded.
Qed.

(** C39: whatever the environment holds, the storage does and the images
    return, dual_boot() never starts a slot that is marked invalid at that
    moment: with a boot function for which that is an error it behaves the
    same. *)
Theorem dual_boot_starts_only_valid_slots do_boot me b :
  dual_boot cfg env_set_rc env_save_op guarded do_boot me b =
  dual_boot cfg env_set_rc env_save_op boot_slot do_boot me b.
Proof.
  unfold dual_boot, bind at 1 3. rewrite boot_current_guarded. apply rbind_ext. intros [[] r] b1; [done|].
  unfold bind. by rewrite boot_next_guarded.
Qed.
End Guard.

(** ** Retries *)

(** The boot count of a slot: 0 if the register holds the count of the other
    slot or none. *)
Definition boot_count (b : board) (slot : Z) : Z :=
  match count_of (u32 (nonrst_reg b)) with
  | Some (s, c) => if slot =? s then c else 0
  | None => 0
  end.

Lemma boot_count_reg b b' slot : nonrst_reg b = nonrst_reg b' → boot_count b slot = boot_count b' slot.
Proof. unfold boot_count. by intros ->. Qed.

(** What a reset other than a cold one keeps: the storage and the register. *)
Definition reset (b : board) : board :=
  Board (env_stored b) (env_stored b) (nonrst_reg b) false [] [] (ArgList [] 0) (ArgList [] 0) (attempts b).

Section Retry.
Context (cfg : config) (env_set_rc : list Z → list Z → board → Z).
Context (env_save_op : board → Z * gmap (list Z) (list Z)) (boot_slot : Z → bool → M board Z).
Context (Hretry : ENABLE_RETRY cfg = true) (Hmax : 1 ≤ MAX_RETRY_COUNT cfg ≤ 127).
Context (Hset : ∀ n v b, env_set_rc n v b = 0) (Hsave : ∀ b, env_save_op b = (0, env b)).
(** An image that is started takes over the machine. *)
Context (Hboot : ∀ slot me b, boot_slot slot true me b = Dead b).

(** The machine is switched on or reset [n] times; [image] is what the image
    that was started does before the next reset. *)
Fixpoint boots (image : board → board) (n : nat) (me : Z) (b : board) : option board :=
  match n with
  | O => Some b
  | S n' =>
      match dual_boot cfg env_set_rc env_save_op boot_slot true me b with
      | Dead b' => boots image n' me (reset (image b'))
      | _ => None
      end
  end.

Lemma boot_counts_eq slot me b :
  boot_counts cfg slot me b = Ret (boot_count b slot, MAX_RETRY_COUNT cfg) b.
Proof.
  unfold boot_counts. rewrite Hretry. unfold bind. rewrite get_boot_count_run. cbn [rbind].
  unfold boot_count, ret. destruct (Z.ltb_spec (MAX_RETRY_COUNT cfg) 1); [lia|].
  destruct (count_of _) as [[s c]|]; cbn [negb orb]; [by destruct (slot =? s)|done].
Qed.

Lemma start_slot_dead slot me b :
  start_slot boot_slot slot true me b = Dead (set_attempts (attempts b ++ [slot]) b).
Proof. unfold start_slot, bind, modify. cbn [rbind]. by rewrite Hboot. Qed.

Lemma count_of_set slot count b :
  0 ≤ slot ≤ 127 → 0 ≤ count ≤ 127 → boot_count (set_nonrst_reg (count_word slot count) b) slot = count.
Proof. intros. unfold boot_count. cbn [nonrst_reg set_nonrst_reg]. rewrite count_of_word by done. by rewrite Z.eqb_refl. Qed.

(** Below the limit the current slot is started and the attempt counted. *)
Lemma boot_again c me b :
  slot_of b = c → 0 ≤ c ≤ 127 → slot_invalid b c = false → 0 ≤ boot_count b c < MAX_RETRY_COUNT cfg →
  dual_boot cfg env_set_rc env_save_op boot_slot true me b =
    Dead (set_attempts (attempts b ++ [c]) (set_nonrst_reg (count_word c (boot_count b c + 1)) b)).
Proof.
  intros Hc Hr Hv Hn. unfold dual_boot, boot_current, bind at 1. run (get_current_slot_run me b). rewrite Hc.
  run (boot_counts_eq c me b). run (is_slot_invalid_run c me b). rewrite Hv.
  destruct (Z.eqb_spec (MAX_RETRY_COUNT cfg) 0); [lia|].
  destruct (Z.leb_spec (MAX_RETRY_COUNT cfg) (boot_count b c)); [lia|]. cbn [negb andb].
  unfold bind. unfold u32. rewrite (Z.mod_small (_ + 1)) by lia. rewrite set_boot_count_run by lia. cbn [rbind].
  by rewrite start_slot_dead.
Qed.

Lemma set_slot_invalid_run slot me b :
  let e := <[slot_invalid_name slot := str "1"]> (env b) in
  dual_boot_set_slot_invalid env_set_rc env_save_op slot true true me b = Ret 0 (set_env_stored e (set_env e b)).
Proof.
  unfold dual_boot_set_slot_invalid, env_set_ulong, env_save, bind, gets, modify. cbn [rbind].
  rewrite Hset. cbn. by rewrite Hsave.
Qed.

Lemma set_current_slot_run slot me b :
  0 ≤ slot < 2 →
  let e := <[current_slot_name := simple_itoa slot]> (env b) in
  dual_boot_set_current_slot env_set_rc env_save_op slot me b = Ret 0 (set_env_stored e (set_env e b)).
Proof.
  intros Hs. unfold dual_boot_set_current_slot, env_set_ulong, env_save, bind, gets, modify.
  destruct (Z.leb_spec DUAL_BOOT_MAX_SLOTS slot); [unfold DUAL_BOOT_MAX_SLOTS in *; lia|]. cbn [rbind].
  rewrite Hset. cbn [Z.eqb rbind ret negb]. by rewrite Hsave.
Qed.

(** At the limit the slot is marked invalid and the other one started. *)
Lemma boot_other c me b :
  slot_of b = c → 0 ≤ c < 2 → slot_invalid b c = false → slot_invalid b (1 - c) = false →
  MAX_RETRY_COUNT cfg ≤ boot_count b c →
  let e := <[current_slot_name := simple_itoa (1 - c)]> (<[slot_invalid_name c := str "1"]> (env b)) in
  ∃ b', dual_boot cfg env_set_rc env_save_op boot_slot true me b = Dead b' ∧
    env b' = e ∧ env_stored b' = e ∧ attempts b' = attempts b ++ [1 - c] ∧
    nonrst_reg b' = count_word (1 - c) 1.
Proof.
  intros Hc Hr Hv Hv' Hn e. unfold dual_boot, boot_current, bind at 1. run (get_current_slot_run me b). rewrite Hc.
  run (boot_counts_eq c me b). run (is_slot_invalid_run c me b). rewrite Hv.
  destruct (Z.eqb_spec (MAX_RETRY_COUNT cfg) 0); [lia|].
  destruct (Z.leb_spec (MAX_RETRY_COUNT cfg) (boot_count b c)); [|lia]. cbn [negb andb].
  rewrite (bind_Ret _ _ _ _ (false, None) b) by done. cbn [fst snd].
  run (set_slot_invalid_run c me b). cbn [rbind ret]. set (b1 := set_env_stored _ _).
  assert (Hb1 : slot_of b1 = c) by (rewrite <- Hc; apply (slot_of_invalid b)).
  assert (Hv1 : slot_invalid b1 (1 - c) = false).
  { rewrite <- Hv'. unfold slot_invalid. cbn [env set_env b1 set_env_stored]. rewrite lookup_insert_ne; [done|].
    assert (c = 0 ∨ c = 1) as [->| ->] by lia; by vm_compute. }
  unfold boot_next, bind at 1. run (get_next_slot_run me b1). rewrite Hb1.
  assert (Hnx : u32 (c + 1) `mod` 2 = 1 - c) by (assert (c = 0 ∨ c = 1) as [->| ->] by lia; done). rewrite Hnx.
  run (is_slot_invalid_run (1 - c) me b1). rewrite Hv1. run (set_current_slot_run (1 - c) me b1 ltac:(lia)).
  cbn [Z.eqb negb]. rewrite Hretry. set (b2 := set_env_stored _ (set_env _ b1)).
  run (set_boot_count_run (1 - c) 1 me b2 ltac:(lia) ltac:(lia)).
  unfold bind. rewrite start_slot_dead. cbn [rbind]. by eexists.
Qed.

Lemma boots_app image n m me b b' :
  boots image n me b = Some b' → boots image (n + m) me b = boots image m me b'.
Proof.
  revert b. induction n as [|n IH]; intros b; simpl; [by intros [= ->]|].
  destruct (dual_boot _ _ _ _ _ _ _); naive_solver.
Qed.

(** A state in which [c] is the current slot and both slots are valid. *)
Record ready (c : Z) (b : board) : Prop := {
  rd_slot : slot_of b = c;
  rd_range : 0 ≤ c < 2;
  rd_valid : slot_invalid b c = false;
  rd_other : slot_invalid b (1 - c) = false;
  rd_stored : env_stored b = env b;
}.

Lemma ready_env c b b' : ready c b → env b' = env b → env_stored b' = env b → ready c b'.
Proof.
  intros [Hs Hr Hv Ho Hst] He Hst'. unfold slot_of, slot_invalid in *.
  constructor; unfold slot_of, slot_invalid; rewrite ?He; done || congruence.
Qed.

(** [n] resets with an image that leaves the environment alone and gives the
    count of the slot the value [f]. *)
Lemma boots_same image (f : Z → Z) c n me b :
  (∀ b, env (image b) = env b ∧ env_stored (image b) = env_stored b ∧ attempts (image b) = attempts b ∧
     boot_count (image b) c = f (boot_count b c)) →
  (∀ k, (k < n)%nat → 0 ≤ Nat.iter k (λ x, f (x + 1)) (boot_count b c) < MAX_RETRY_COUNT cfg) →
  ready c b →
  ∃ b', boots image n me b = Some b' ∧ ready c b' ∧ env b' = env b ∧
    attempts b' = attempts b ++ replicate n c ∧ boot_count b' c = Nat.iter n (λ x, f (x + 1)) (boot_count b c).
Proof.
  intros Him. revert b. induction n as [|n IH]; intros b Hf Hr.
  { exists b. rewrite app_nil_r. done. }
  cbn [boots]. pose proof Hr as [Hs Hc Hv Ho Hst]. pose proof (Hf 0%nat ltac:(lia)) as H0. simpl in H0.
  rewrite (boot_again c) by (done || lia). set (b1 := set_attempts _ _).
  destruct (Him b1) as (He & Hst' & Hat & Hcnt).
  assert (Hb1 : boot_count b1 c = boot_count b c + 1).
  { rewrite (boot_count_reg b1 (set_nonrst_reg (count_word c (boot_count b c + 1)) b)) by reflexivity.
    apply count_of_set; lia. }
  assert (Hn1 : boot_count (reset (image b1)) c = f (boot_count b c + 1)).
  { rewrite (boot_count_reg (reset (image b1)) (image b1)) by reflexivity. by rewrite Hcnt, Hb1. }
  assert (Hb1s : env_stored b1 = env b) by exact Hst.
  assert (Hb1a : attempts b1 = attempts b ++ [c]) by done. clearbody b1.
  destruct (IH (reset (image b1))) as (b' & Hrun & Hr' & He' & Ha' & Hc').
  - intros k Hk. rewrite Hn1. rewrite <- (Nat.iter_succ_r k Z (λ x, f (x + 1))). apply Hf. lia.
  - eapply ready_env; [exact Hr|..]; cbn [env env_stored reset]; by rewrite Hst', Hb1s.
  - exists b'. split; [done|]. split; [done|]. split; [|split].
    + rewrite He'. cbn [env reset]. by rewrite Hst', Hb1s.
    + rewrite Ha'. cbn [attempts reset]. by rewrite Hat, Hb1a, <- app_assoc.
    + rewrite Hc', Hn1. by rewrite Nat.iter_succ_r.
Qed.

Lemma iter_add1 n x : Nat.iter n (λ x, x + 1) x = x + Z.of_nat n.
Proof. induction n as [|n IH]; [simpl; lia|]. rewrite Nat.iter_succ, IH. lia. Qed.

(** C40: with retries enabled, both slots valid, setting and storing the
    environment succeeding and a boot function that does not return, an image
    that never comes up is started by as many resets as its boot count is
    below the configured maximum (all of them if it starts at 0); the next
    reset, which finds the count at the maximum, marks its slot invalid, makes
    the other slot the current one, both in the storage, and starts the image
    of that slot.  (The help text of the option has the slot marked only when
    the count is larger than the maximum, one start later.)  An image that
    resets its boot count is started by every reset, for ever. *)
Theorem bad_image_is_abandoned c me b :
  ready c b → 0 ≤ boot_count b c ≤ MAX_RETRY_COUNT cfg →
  let left := Z.to_nat (MAX_RETRY_COUNT cfg - boot_count b c) in
  (∃ b', boots id (left + 1) me b = Some b' ∧
     attempts b' = attempts b ++ replicate left c ++ [1 - c] ∧
     slot_of b' = 1 - c ∧ slot_invalid b' c = true ∧ slot_invalid b' (1 - c) = false ∧
     boot_count b' (1 - c) = 1 ∧ env_stored b' = env b') ∧
  (∀ n, boot_count b c < MAX_RETRY_COUNT cfg →
     ∃ b', boots (set_nonrst_reg (count_word c 0)) n me b = Some b' ∧
       attempts b' = attempts b ++ replicate n c ∧ ready c b').
Proof.
  intros Hr Hc0 left. pose proof (rd_range _ _ Hr) as Hc. split.
  - destruct (boots_same id (λ x, x) c left me b) as (b1 & Hrun & Hr1 & He & Ha & Hn);
      [done| |done|].
    { intros k Hk. rewrite iter_add1. lia. }
    rewrite iter_add1 in Hn. rewrite (boots_app _ _ _ _ _ _ Hrun). cbn [boots].
    pose proof Hr1 as [Hs _ Hv Ho Hst].
    destruct (boot_other c me b1 Hs Hc Hv Ho ltac:(lia)) as (b2 & -> & He2 & Hst2 & Ha2 & Hn2).
    eexists. split; [done|]. cbn [reset id attempts env env_stored].
    assert (Henv : env (reset b2) = <[current_slot_name := simple_itoa (1 - c)]> (<[slot_invalid_name c := str "1"]> (env b1)))
      by done.
    assert (Hdiff : slot_invalid_name c ≠ slot_invalid_name (1 - c)).
    { assert (c = 0 ∨ c = 1) as [->| ->] by lia; by vm_compute. }
    split_and!.
    + by rewrite Ha2, Ha, <- app_assoc.
    + change (slot_of (reset b2) = 1 - c). unfold slot_of. rewrite Henv.
      pose proof (slot_of_current (set_env (<[slot_invalid_name c := str "1"]> (env b1)) b1) (1 - c) ltac:(lia)) as H.
      exact H.
    + change (slot_invalid (reset b2) c = true). unfold slot_invalid. rewrite Henv.
      rewrite lookup_insert_ne by apply names_differ. by rewrite lookup_insert_eq, bool_decide_true.
    + change (slot_invalid (reset b2) (1 - c) = false). unfold slot_invalid. rewrite Henv.
      rewrite lookup_insert_ne by apply names_differ. rewrite lookup_insert_ne by done. exact Ho.
    + unfold boot_count. cbn [nonrst_reg reset]. rewrite Hn2, count_of_word by lia. by rewrite Z.eqb_refl.
    + done.
  - intros n Hlt.
    destruct (boots_same (set_nonrst_reg (count_word c 0)) (λ _, 0) c n me b) as (b' & Hrun & Hr' & _ & Ha & _);
      [|intros [|k] _; [simpl|rewrite Nat.iter_succ]; lia|done|by exists b'].
    intros b0. split_and!; [done..|]. apply count_of_set; lia.
Qed.
End Retry.

(** ** A concrete board *)

Definition demo_cfg : config := Config true 3 true.
Definition demo_set (n v : list Z) (b : board) : Z := 0.
Definition demo_save (b : board) : Z * gmap (list Z) (list Z) := (0, env b).
Definition demo_boot (slot : Z) (do_boot : bool) : M board Z := dead.
Definition demo_board (e : gmap (list Z) (list Z)) : board :=
  Board e e 0xffffffff false [] [] (ArgList [] 0) (ArgList [] 0) [].

(** A new board boots slot 0, three times if its image hangs, then slot 1. *)
Lemma bad_image_is_abandoned_witness :
  (∃ b', boots demo_cfg demo_set demo_save demo_boot id 4 0 (demo_board ∅) = Some b' ∧
     attempts b' = [0; 0; 0; 1] ∧ slot_of b' = 1 ∧ slot_invalid b' 0 = true ∧ slot_invalid b' 1 = false ∧
     boot_count b' 1 = 1 ∧ env_stored b' = env b') ∧
  (∀ n, 0 < 3 → ∃ b', boots demo_cfg demo_set demo_save demo_boot (set_nonrst_reg (count_word 0 0)) n 0 (demo_board ∅) = Some b' ∧
     attempts b' = replicate n 0 ∧ ready 0 b').
Proof.
  apply (bad_image_is_abandoned demo_cfg demo_set demo_save demo_boot eq_refl ltac:(split; by vm_compute)
           (λ _ _ _, eq_refl) (λ _, eq_refl) (λ _ _ _, eq_refl) 0 0 (demo_board ∅)).
  - constructor; [..|done]; by vm_compute.
  - split; by vm_compute.
Defined.

(** ** What the code does not handle *)

(** With both slots marked invalid the value dual_boot() returns was never
    assigned. *)
Lemma both_slots_invalid_undefined cfg set save boot do_boot me b :
  slot_invalid b (slot_of b) = true → slot_invalid b (u32 (slot_of b + 1) `mod` 2) = true →
  dual_boot cfg set save boot do_boot me b = Fault.
Proof.
  intros Hv Hv'. unfold dual_boot, boot_current, bind at 1. run (get_current_slot_run me b).
  destruct (boot_counts_run cfg (slot_of b) me b) as (c & m & Hc). run Hc.
  run (is_slot_invalid_run (slot_of b) me b). rewrite Hv. cbn [rbind ret].
  unfold boot_next, bind at 1. run (get_next_slot_run me b).
  run (is_slot_invalid_run (u32 (slot_of b + 1) `mod` 2) me b). by rewrite Hv'.
Qed.

(** The current slot is taken from the environment without a check: a slot
    number above 1 indexes dual_boot_slots outside of the table. *)
Lemma slot_number_not_checked :
  let b := demo_board {[ current_slot_name := str "7" ]} in
  slot_of b = 7 ∧ dual_boot_set_defaults demo_cfg (λ _, true) (λ _, ret tt) 0 b = Fault.
Proof. by vm_compute. Qed.
