(* ===== verification/Untar.v ===== *)
(** * The TAR extractor (board/mediatek/common/untar.c)

    Sysupgrade images are TAR archives; parse_tar_image() finds the kernel and
    the root file system in one.  Pointers into the archive are offsets, and a
    read outside of the archive is undefined. *)

From stdpp Require Import base list numbers list_numbers strings.
From Stdlib Require Import ZArith Lia.
From S2P Require Import Prelude Bytes CStr.
Open Scope Z_scope.

Definition sizeof_tar_hdr : Z := 512.

(** The offsets of the members of struct tar_hdr. *)
Definition hdr_name : Z := 0.
Definition hdr_mode : Z := 100.
Definition hdr_uid : Z := 108.
Definition hdr_gid : Z := 116.
Definition hdr_size : Z := 124.
Definition hdr_chksum : Z := 148.
Definition hdr_typeflag : Z := 156.
Definition hdr_linkname : Z := 157.
Definition hdr_uname : Z := 265.
Definition hdr_gname : Z := 297.

Inductive tar_file_type :=
| TAR_FT_UNKNOWN | TAR_FT_REGULAR | TAR_FT_LINK | TAR_FT_CHAR | TAR_FT_BLOCK | TAR_FT_DIRECTORY | TAR_FT_FIFO.
#[export] Instance tar_file_type_eq : EqDecision tar_file_type.
Proof. solve_decision. Defined.

Record tar_parse_ctx := TarParseCtx { tc_head : list Z; tc_offset : Z; tc_size : Z; tc_eof : Z }.

Record tar_file_record := TarFileRecord {
  fr_name : Z;
  fr_data : Z;
  fr_size : Z;
  fr_mode : Z;
  fr_type : tar_file_type;
  fr_uid : Z;
  fr_gid : Z;
  fr_uname : Z;
  fr_gname : Z;
  fr_linkname : Z;
}.

Abbreviation T := (M unit).

(** ** Strings in memory *)

(** The memory from [off] on. *)
Definition mem_at (buf : list Z) (off : Z) : list Z := drop (Z.to_nat off) buf.

(** Whether strncmp() with a literal of [n] characters finds no difference. *)
Fixpoint strncmp_eq (s lit : list Z) {struct lit} : option bool :=
  match lit with
  | [] => Some true
  | c :: lit' =>
      match s with
      | [] => None
      | d :: s' => if d =? c then strncmp_eq s' lit' else Some false
      end
  end.

Definition strcmp_eq (s lit : list Z) : option bool := strncmp_eq s (lit ++ [0]).

(** What follows the first [c], if there is one in the string. *)
Fixpoint strchr_next (s : list Z) (c : Z) : option (option (list Z)) :=
  match s with
  | [] => None
  | d :: s' => if d =? c then Some (Some s') else if d =? 0 then Some None else strchr_next s' c
  end.

Definition strtoul_at (buf : list Z) (off : Z) : T Z :=
  '(v, _) ← some (simple_strtoul (mem_at buf off) 8); ret v.

(** ** Headers *)

(** [hdr] are the bytes at the pointer. *)
Definition tar_header_is_blank (hdr : list Z) : bool := forallb (λ b, b =? 0) hdr.

(** The header is copied to the stack; the number of the checksum is read from
    the copy. *)
Definition tar_header_checksum (hdr : list Z) : T Z :=
  old_chksum ← strtoul_at hdr hdr_chksum;
  hdr ← some (mem_fill hdr hdr_chksum 8 0x20);
  let new_chksum := foldl (λ sum b, u64 (sum + b)) 0 hdr in
  ret (if old_chksum =? new_chksum then 0 else - EINVAL).

Definition tar_ctx_init (buff : list Z) (size : Z) : tar_parse_ctx := TarParseCtx buff 0 size 0.

Definition file_type (typeflag : Z) : tar_file_type :=
  if (typeflag =? 48) || (typeflag =? 0) then TAR_FT_REGULAR
  else if (typeflag =? 49) || (typeflag =? 50) then TAR_FT_LINK
  else if typeflag =? 51 then TAR_FT_CHAR
  else if typeflag =? 52 then TAR_FT_BLOCK
  else if typeflag =? 53 then TAR_FT_DIRECTORY
  else if typeflag =? 54 then TAR_FT_FIFO
  else TAR_FT_UNKNOWN.

(** [ALIGN(size, sizeof(struct tar_hdr))] on 64 bits. *)
Definition align_hdr (size : Z) : Z := Z.land (u64 (size + (sizeof_tar_hdr - 1))) (Z.lxor (2 ^ 64 - 1) (sizeof_tar_hdr - 1)).

Definition tar_ctx_next_file (ctx : tar_parse_ctx) : T (Z * tar_parse_ctx * option tar_file_record) :=
  let buf := tc_head ctx in
  let off := tc_offset ctx in
  if cbool (tc_eof ctx) then ret (- ENODATA, ctx, None)
  else if u64 (tc_size ctx - off) <? sizeof_tar_hdr then
    ret (- ENODATA, TarParseCtx buf off (tc_size ctx) 1, None)
  else
    hdr ← some (mem_read buf off sizeof_tar_hdr);
    if tar_header_is_blank hdr then
      ret (- ENODATA, TarParseCtx buf (u64 (off + sizeof_tar_hdr)) (tc_size ctx) 1, None)
    else
      bad ← tar_header_checksum hdr;
      if negb (bad =? 0) then ret (- EINVAL, ctx, None)
      else
        size ← strtoul_at buf (off + hdr_size);
        if tc_size ctx <? u64 (off + size + sizeof_tar_hdr) then ret (- EINVAL, ctx, None)
        else
          mode ← strtoul_at buf (off + hdr_mode);
          uid ← strtoul_at buf (off + hdr_uid);
          gid ← strtoul_at buf (off + hdr_gid);
          flag ← some (zget buf (off + hdr_typeflag));
          let rec := TarFileRecord (off + hdr_name) (off + sizeof_tar_hdr) size (u32 mode)
                       (file_type flag) (u32 uid) (u32 gid) (off + hdr_uname) (off + hdr_gname)
                       (off + hdr_linkname) in
          ret (0, TarParseCtx buf (u64 (off + u64 (sizeof_tar_hdr + align_hdr size))) (tc_size ctx) (tc_eof ctx),
               Some rec).

(** ** Finding the images *)

(** The variables of parse_tar_image(): where the two images are, if they were
    found; offset and size. *)
Record tar_images := TarImages { ti_kernel : option (Z * Z); ti_root : option (Z * Z) }.

(** One file looked at. *)
Definition check_file (buf : list Z) (file : tar_file_record) (im : tar_images) : T tar_images :=
  if negb (bool_decide (fr_type file = TAR_FT_REGULAR)) then ret im
  else
    pre ← some (strncmp_eq (mem_at buf (fr_name file)) (str "sysupgrade"));
    if negb pre then ret im
    else
      p ← some (strchr_next (mem_at buf (fr_name file)) 47);
      match p with
      | None => ret im
      | Some p =>
          is_kernel ← some (strcmp_eq p (str "kernel"));
          let im := if is_kernel : bool then TarImages (Some (fr_data file, fr_size file)) (ti_root im) else im in
          is_root ← some (strcmp_eq p (str "root"));
          ret (if is_root : bool then TarImages (ti_kernel im) (Some (fr_data file, fr_size file)) else im)
      end.

Definition has_both (im : tar_images) : bool := bool_decide (is_Some (ti_kernel im) ∧ is_Some (ti_root im)).

(** The body of the loop: the result of the function when it is left. *)
Definition parse_step (st : Z * tar_parse_ctx * tar_images) : T (bool * (Z * tar_parse_ctx * tar_images)) :=
  let '(_, ctx, im) := st in
  '(rc, ctx, file) ← tar_ctx_next_file ctx;
  if negb (rc =? 0) then ret (true, (- 1, ctx, im))
  else
    file ← some file;
    im ← check_file (tc_head ctx) file im;
    ret (has_both im, (0, ctx, im)).

Definition parse_tar_image (fuel : nat) (data : list Z) (size : Z) : T (Z * tar_images) :=
  '(rc, _, im) ← while_brk fuel parse_step (0, tar_ctx_init data size, TarImages None None);
  ret (rc, im).
