(* ===== verification/UntarSpec.v ===== *)
(** * The TAR extractor: the properties

    Archives as lists of files, what parse_tar_image() returns for them, and
    two inputs for which it does not behave. *)

From stdpp Require Import base list numbers list_numbers strings.
From Stdlib Require Import ZArith Lia.
From S2P Require Import Prelude Bytes CStr Untar.
Open Scope Z_scope.

(** ** Strings *)

(** The characters before the terminating zero. *)
Fixpoint cname (s : list Z) : list Z :=
  match s with
  | [] => []
  | c :: s' => if c =? 0 then [] else c :: cname s'
  end.

Fixpoint after_slash (name : list Z) : option (list Z) :=
  match name with
  | [] => None
  | c :: name' => if c =? 47 then Some name' else after_slash name'
  end.

Lemma strncmp_eq_prefix s lit :
  0 ∈ s → 0 ∉ lit → strncmp_eq s lit = Some (bool_decide (lit `prefix_of` cname s)).
Proof.
  revert s. induction lit as [|c lit IH]; intros s Hs Hl; cbn [strncmp_eq].
  { done. }
  apply not_elem_of_cons in Hl as [Hc Hl]. destruct s as [|d s]; [by apply not_elem_of_nil in Hs|].
  cbn [cname]. destruct (Z.eqb_spec d c) as [->|Hd].
  - destruct (Z.eqb_spec c 0); [congruence|]. apply elem_of_cons in Hs as [?|Hs]; [congruence|].
    rewrite IH by done. f_equal. apply bool_decide_ext. split.
    + apply prefix_cons.
    + by apply prefix_cons_inv_2.
  - f_equal. symmetry. apply bool_decide_eq_false. intros Hp. destruct (Z.eqb_spec d 0).
    + by apply prefix_nil_not in Hp.
    + apply prefix_cons_inv_1 in Hp. congruence.
Qed.

Lemma strcmp_eq_name s lit : 0 ∈ s → 0 ∉ lit → strcmp_eq s lit = Some (bool_decide (cname s = lit)).
Proof.
  unfold strcmp_eq. revert s. induction lit as [|c lit IH]; intros s Hs Hl; cbn [app strncmp_eq].
  - destruct s as [|d s]; [by apply not_elem_of_nil in Hs|]. cbn [cname]. by destruct (d =? 0).
  - apply not_elem_of_cons in Hl as [Hc Hl]. destruct s as [|d s]; [by apply not_elem_of_nil in Hs|]. cbn [cname].
    destruct (Z.eqb_spec d c) as [->|Hd].
    + destruct (Z.eqb_spec c 0); [congruence|]. apply elem_of_cons in Hs as [?|Hs]; [congruence|].
      rewrite IH by done. f_equal. apply bool_decide_ext. naive_solver.
    + f_equal. symmetry. apply bool_decide_eq_false. destruct (Z.eqb_spec d 0); naive_solver.
Qed.

Lemma strchr_next_slash s :
  0 ∈ s → ∃ p, strchr_next s 47 = Some p ∧
    match p with
    | Some u => after_slash (cname s) = Some (cname u) ∧ 0 ∈ u
    | None => after_slash (cname s) = None
    end.
Proof.
  induction s as [|d s IH]; intros Hs; [by apply not_elem_of_nil in Hs|]. cbn [strchr_next cname].
  destruct (Z.eqb_spec d 47) as [->|Hd].
  - apply elem_of_cons in Hs as [?|Hs]; [done|]. exists (Some s). done.
  - destruct (Z.eqb_spec d 0); [by exists None|].
    apply elem_of_cons in Hs as [?|Hs]; [congruence|]. destruct (IH Hs) as (p & Hp & H).
    exists p. split; [done|]. cbn [after_slash]. by destruct (Z.eqb_spec d 47).
Qed.

Lemma cname_app s t : 0 ∈ s → cname (s ++ t) = cname s.
Proof.
  induction s as [|d s IH]; intros Hs; [by apply not_elem_of_nil in Hs|]. cbn [cname app].
  destruct (Z.eqb_spec d 0); [done|]. apply elem_of_cons in Hs as [?|Hs]; [congruence|]. by rewrite IH.
Qed.

(** ** Numbers that end within the header *)

Lemma strtoul_digits_app s t base r v rest :
  strtoul_digits s base r = Some (v, rest) → strtoul_digits (s ++ t) base r = Some (v, rest ++ t).
Proof.
  revert r. induction s as [|c s IH]; intros r; cbn [strtoul_digits app]; [done|].
  destruct (_ <? _); [apply IH|]. by intros [= -> <-].
Qed.

Lemma strtoul_app s t base v rest :
  simple_strtoul s base = Some (v, rest) → simple_strtoul (s ++ t) base = Some (v, rest ++ t).
Proof.
  unfold simple_strtoul. destruct (_parse_integer_fixup_radix s base) as [[s' b']|] eqn:Hf; [|done].
  assert (Hf' : _parse_integer_fixup_radix (s ++ t) base = Some (s' ++ t, b')).
  { unfold _parse_integer_fixup_radix in *. destruct s as [|c s]; [done|]. cbn [app].
    destruct (decide (c = 48)) as [->|Hc].
    - destruct s as [|c' s]; [done|]. cbn [app]. destruct (_ =? 120); injection Hf as <- <-; done.
    - revert Hf. destruct c as [|p|p]; [by intros [= <- <-]| |by intros [= <- <-]].
      do 6 (destruct p as [p|p|]; try (by intros [= <- <-])); done. }
  rewrite Hf'. apply strtoul_digits_app.
Qed.

(** ** Archives *)

(** A file: its header, its contents and what fills the last block. *)
Record tar_entry := TarEntry { te_hdr : list Z; te_data : list Z; te_pad : list Z }.

Definition entry_bytes (e : tar_entry) : list Z := te_hdr e ++ te_data e ++ te_pad e.

(** A header with a right checksum in which the numbers and a string end, and
    a size that is that of the contents, filled up to whole blocks. *)
Record entry_ok (e : tar_entry) : Prop := {
  eo_len : zlen (te_hdr e) = sizeof_tar_hdr;
  eo_name : 0 ∈ te_hdr e;
  eo_blank : tar_header_is_blank (te_hdr e) = false;
  eo_sum : ∀ me, tar_header_checksum (te_hdr e) me tt = Ret 0 tt;
  eo_size : ∃ r, simple_strtoul (mem_at (te_hdr e) hdr_size) 8 = Some (zlen (te_data e), r);
  eo_mode : is_Some (simple_strtoul (mem_at (te_hdr e) hdr_mode) 8);
  eo_uid : is_Some (simple_strtoul (mem_at (te_hdr e) hdr_uid) 8);
  eo_gid : is_Some (simple_strtoul (mem_at (te_hdr e) hdr_gid) 8);
  eo_pad : zlen (te_data e) + zlen (te_pad e) = align_hdr (zlen (te_data e));
}.

(** What ends an archive: a block of zeros, or less than a block. *)
Definition tail_ok (tail : list Z) : Prop :=
  zlen tail < sizeof_tar_hdr ∨
  ∃ z t, tail = z ++ t ∧ zlen z = sizeof_tar_hdr ∧ tar_header_is_blank z = true.

Definition archive (es : list tar_entry) (tail : list Z) : list Z := concat (entry_bytes <$> es) ++ tail.

Definition is_regular (e : tar_entry) : bool :=
  bool_decide (file_type (default 0 (zget (te_hdr e) hdr_typeflag)) = TAR_FT_REGULAR).

(** A regular file named sysupgrade.../<name>. *)
Definition is_image (e : tar_entry) (name : list Z) : bool :=
  is_regular e && bool_decide (str "sysupgrade" `prefix_of` cname (te_hdr e)) &&
  bool_decide (after_slash (cname (te_hdr e)) = Some name).

(** The images of one file, at the offset [off]. *)
Definition entry_images (e : tar_entry) (off : Z) (im : tar_images) : tar_images :=
  let here := Some (off + sizeof_tar_hdr, zlen (te_data e)) in
  TarImages (if is_image e (str "kernel") then here else ti_kernel im)
            (if is_image e (str "root") then here else ti_root im).

(** The reference: the files in order, until both images are known. *)
Fixpoint find_images (es : list tar_entry) (off : Z) (im : tar_images) : Z * tar_images :=
  match es with
  | [] => (- 1, im)
  | e :: es' =>
      let im := entry_images e off im in
      if has_both im then (0, im) else find_images es' (off + zlen (entry_bytes e)) im
  end.

Lemma mem_at_app pre hdr t k :
  0 ≤ k ≤ zlen hdr → mem_at (pre ++ hdr ++ t) (zlen pre + k) = mem_at hdr k ++ t.
Proof.
  intros Hk. unfold mem_at, zlen in *. rewrite drop_app_ge by lia.
  replace (Z.to_nat (Z.of_nat (length pre) + k) - length pre)%nat with (Z.to_nat k) by lia.
  by rewrite drop_app_le by lia.
Qed.

Lemma strtoul_at_app pre hdr t k v r me :
  0 ≤ k ≤ zlen hdr → simple_strtoul (mem_at hdr k) 8 = Some (v, r) →
  strtoul_at (pre ++ hdr ++ t) (zlen pre + k) me tt = Ret v tt.
Proof.
  intros Hk Hs. unfold strtoul_at, bind. rewrite mem_at_app by done.
  by rewrite (strtoul_app _ t _ _ _ Hs).
Qed.

Lemma zget_app_mid (pre hdr t : list Z) k :
  0 ≤ k < zlen hdr → zget (pre ++ hdr ++ t) (zlen pre + k) = zget hdr k.
Proof.
  intros Hk. unfold zget, zlen in *. rewrite !decide_True by lia. rewrite lookup_app_r by lia.
  replace (Z.to_nat (Z.of_nat (length pre) + k) - length pre)%nat with (Z.to_nat k) by lia.
  by rewrite lookup_app_l by lia.
Qed.

(** The record of the file [e] at the end of [pre]. *)
Lemma next_file_entry pre e t me :
  let buf := pre ++ entry_bytes e ++ t in
  entry_ok e → zlen buf < 2 ^ 63 →
  ∃ rec, tar_ctx_next_file (TarParseCtx buf (zlen pre) (zlen buf) 0) me tt =
      Ret (0, TarParseCtx buf (zlen (pre ++ entry_bytes e)) (zlen buf) 0, Some rec) tt ∧
    fr_name rec = zlen pre ∧ fr_data rec = zlen pre + sizeof_tar_hdr ∧ fr_size rec = zlen (te_data e) ∧
    fr_type rec = file_type (default 0 (zget (te_hdr e) hdr_typeflag)).
Proof.
  intros buf [Hlen Hname Hbl Hsum [r Hsize] [[mode rm] Hmode] [[uid ru] Huid] [[gid rg] Hgid] Hpad] H63.
  assert (Hbuf : buf = pre ++ te_hdr e ++ (te_data e ++ te_pad e ++ t)).
  { unfold buf, entry_bytes. by rewrite <- !app_assoc. }
  assert (Hz : zlen buf = zlen pre + sizeof_tar_hdr + zlen (te_data e) + zlen (te_pad e) + zlen t).
  { rewrite Hbuf, !zlen_app. lia. }
  pose proof (zlen_nonneg pre). pose proof (zlen_nonneg t). pose proof (zlen_nonneg (te_data e)).
  pose proof (zlen_nonneg (te_pad e)). unfold sizeof_tar_hdr in *.
  destruct (zget_is_Some (te_hdr e) hdr_typeflag) as [flag Hflag]; [unfold hdr_typeflag; lia|].
  assert (Hend : zlen (pre ++ entry_bytes e) = zlen pre + (512 + (zlen (te_data e) + zlen (te_pad e)))).
  { unfold entry_bytes. rewrite !zlen_app. lia. }
  eexists. split.
  - unfold tar_ctx_next_file. cbn [tc_head tc_offset tc_size tc_eof cbool Z.eqb negb].
    unfold u64 at 1. rewrite Z.mod_small by lia. unfold sizeof_tar_hdr.
    destruct (Z.ltb_spec (zlen buf - zlen pre) 512); [lia|].
    assert (Hread : mem_read buf (zlen pre) 512 = Some (te_hdr e)).
    { rewrite Hbuf, mem_read_app_r, Z.sub_diag by lia. by apply mem_read_here. }
    rewrite Hread. cbn [some]. unfold bind at 1. cbn [ret rbind]. rewrite Hbl. rewrite (bind_Ret _ _ _ _ _ _ (Hsum me)).
    cbn [Z.eqb negb].
    assert (Hat : ∀ k v r, 0 ≤ k ≤ 512 → simple_strtoul (mem_at (te_hdr e) k) 8 = Some (v, r) →
      strtoul_at buf (zlen pre + k) me tt = Ret v tt).
    { intros k v r' Hk Hs. rewrite Hbuf. apply (strtoul_at_app _ _ _ _ _ r'); [lia|done]. }
    rewrite (bind_Ret _ _ _ _ _ _ (Hat hdr_size _ _ ltac:(unfold hdr_size; lia) Hsize)).
    unfold u64 at 1. rewrite Z.mod_small by lia.
    destruct (Z.ltb_spec (zlen buf) (zlen pre + zlen (te_data e) + 512)); [lia|].
    rewrite (bind_Ret _ _ _ _ _ _ (Hat hdr_mode _ _ ltac:(unfold hdr_mode; lia) Hmode)).
    rewrite (bind_Ret _ _ _ _ _ _ (Hat hdr_uid _ _ ltac:(unfold hdr_uid; lia) Huid)).
    rewrite (bind_Ret _ _ _ _ _ _ (Hat hdr_gid _ _ ltac:(unfold hdr_gid; lia) Hgid)).
    rewrite Hbuf, zget_app_mid by (unfold hdr_typeflag; lia). rewrite Hflag, <- Hbuf. unfold bind, some, ret. cbn [rbind].
    rewrite <- Hpad. unfold u64. rewrite (Z.mod_small (512 + _)) by lia. rewrite Z.mod_small by lia.
    rewrite Hend. reflexivity.
  - cbn [fr_name fr_data fr_size fr_type]. rewrite Hflag. unfold hdr_name. split_and!; try done; lia.
Qed.

Lemma check_file_entry pre e t rec im me :
  entry_ok e → fr_name rec = zlen pre → fr_data rec = zlen pre + sizeof_tar_hdr →
  fr_size rec = zlen (te_data e) → fr_type rec = file_type (default 0 (zget (te_hdr e) hdr_typeflag)) →
  check_file (pre ++ entry_bytes e ++ t) rec im me tt = Ret (entry_images e (zlen pre) im) tt.
Proof.
  intros Ho Hn Hd Hs Ht. pose proof (eo_name _ Ho) as H0.
  set (rest := te_data e ++ te_pad e ++ t).
  assert (Hat : mem_at (pre ++ entry_bytes e ++ t) (fr_name rec) = te_hdr e ++ rest).
  { rewrite Hn. replace (zlen pre) with (zlen pre + 0) by lia. unfold entry_bytes. rewrite <- !app_assoc.
    rewrite mem_at_app by (rewrite (eo_len _ Ho); done). done. }
  assert (H0' : 0 ∈ te_hdr e ++ rest) by (apply elem_of_app; by left).
  unfold check_file, entry_images, is_image, is_regular. rewrite Ht, Hat, Hd, Hs.
  case_bool_decide; cbn [negb andb]; [|by destruct im].
  rewrite strncmp_eq_prefix, cname_app by (done || by apply (bool_decide_unpack _)). cbn [some]. unfold bind at 1. cbn [ret rbind].
  case_bool_decide; cbn [negb andb]; [|by destruct im].
  destruct (strchr_next_slash (te_hdr e ++ rest) H0') as (p & -> & Hp). rewrite cname_app in Hp by done.
  cbn [some]. unfold bind at 1. cbn [ret rbind]. destruct p as [u|].
  - destruct Hp as [-> Hu]. rewrite !strcmp_eq_name by (done || by apply (bool_decide_unpack _)). cbn [some]. unfold bind, ret. cbn [rbind].
    unfold ret. f_equal.
    assert (He : ∀ x : list Z, bool_decide (Some (cname u) = Some x) = bool_decide (cname u = x)).
    { intros x. apply bool_decide_ext. naive_solver. }
    rewrite !He. by destruct im; repeat case_bool_decide.
  - rewrite Hp. by destruct im.
Qed.

(** The end of the archive. *)
Lemma next_file_tail pre tail me :
  let buf := pre ++ tail in
  tail_ok tail → zlen buf < 2 ^ 63 →
  ∃ ctx, tar_ctx_next_file (TarParseCtx buf (zlen pre) (zlen buf) 0) me tt = Ret (- ENODATA, ctx, None) tt.
Proof.
  intros buf Htail H63. assert (Hz : zlen buf = zlen pre + zlen tail) by (unfold buf; by rewrite zlen_app).
  pose proof (zlen_nonneg pre). pose proof (zlen_nonneg tail).
  unfold tar_ctx_next_file. cbn [tc_head tc_offset tc_size tc_eof cbool Z.eqb negb].
  unfold u64 at 1. rewrite Z.mod_small by lia. case Z.ltb_spec; intros Hlt; [by eexists|].
  destruct Htail as [Ht|(z & t & -> & Hzl & Hb)]; [lia|].
  assert (Hread : mem_read buf (zlen pre) sizeof_tar_hdr = Some z).
  { unfold buf. rewrite mem_read_app_r, Z.sub_diag by lia. by apply mem_read_here. }
  rewrite Hread. cbn [some]. unfold bind at 1. cbn [ret rbind]. rewrite Hb. by eexists.
Qed.

Lemma parse_entries es pre tail im fuel me :
  let buf := pre ++ archive es tail in
  Forall entry_ok es → tail_ok tail → zlen buf < 2 ^ 63 → (length es < fuel)%nat →
  ∃ ctx, while_brk fuel parse_step (0, TarParseCtx buf (zlen pre) (zlen buf) 0, im) me tt =
    Ret ((find_images es (zlen pre) im).1, ctx, (find_images es (zlen pre) im).2) tt.
Proof.
  intros buf Hes Htail. unfold buf. clear buf. revert pre im fuel.
  induction Hes as [|e es He Hes IH]; intros pre im fuel H63 Hf; (destruct fuel as [|fuel]; [simpl in Hf; lia|]);
    cbn [while_brk find_images fst snd].
  - unfold archive in *. cbn [fmap list_fmap concat app] in *.
    destruct (next_file_tail pre tail me Htail H63) as [ctx Hn]. unfold bind at 1, parse_step.
    rewrite (bind_Ret _ _ _ _ _ _ Hn). cbn. by eexists.
  - assert (Hbuf : pre ++ archive (e :: es) tail = pre ++ entry_bytes e ++ archive es tail).
    { unfold archive. cbn [fmap list_fmap concat]. by rewrite <- app_assoc. }
    rewrite Hbuf in *.
    destruct (next_file_entry pre e (archive es tail) me He H63) as (rec & Hn & Hfn & Hfd & Hfs & Hft).
    unfold bind at 1, parse_step at 1. rewrite (bind_Ret _ _ _ _ _ _ Hn). cbn [Z.eqb negb]. cbn [some].
    rewrite (bind_Ret (ret rec) _ me tt rec tt) by done. cbn [tc_head].
    rewrite (bind_Ret _ _ _ _ _ _ (check_file_entry pre e (archive es tail) rec im me He Hfn Hfd Hfs Hft)).
    unfold ret. cbn [rbind]. destruct (has_both _) eqn:Hb; [by eexists|].
    rewrite app_assoc in H63 |- *. destruct (IH (pre ++ entry_bytes e) (entry_images e (zlen pre) im) fuel H63)
      as [ctx Hrun]; [simpl in Hf; lia|].
    exists ctx. rewrite <- (zlen_app pre (entry_bytes e)). exact Hrun.
Qed.

(** The images that are found are contents of files of the archive. *)
Lemma find_images_contents es pre tail im (P : Z * Z → list Z → Prop) :
  Forall entry_ok es →
  (∀ name x, (name = str "kernel" ∧ ti_kernel im = Some x ∨ name = str "root" ∧ ti_root im = Some x) → P x name) →
  (∀ pre' e t, pre ++ archive es tail = pre' ++ entry_bytes e ++ t → e ∈ es → ∀ name, is_image e name = true →
     P (zlen pre' + sizeof_tar_hdr, zlen (te_data e)) name) →
  let im' := (find_images es (zlen pre) im).2 in
  ∀ name x, (name = str "kernel" ∧ ti_kernel im' = Some x ∨ name = str "root" ∧ ti_root im' = Some x) → P x name.
Proof.
  intros Hes. revert pre im. induction Hes as [|e es He Hes IH]; intros pre im Him HP; [done|].
  cbn [find_images]. assert (Hstep : ∀ name x, (name = str "kernel" ∧ ti_kernel (entry_images e (zlen pre) im) = Some x ∨
      name = str "root" ∧ ti_root (entry_images e (zlen pre) im) = Some x) → P x name).
  { assert (Hhere : ∀ name, is_image e name = true → P (zlen pre + sizeof_tar_hdr, zlen (te_data e)) name).
    { apply (HP pre e (archive es tail)); [|by left]. unfold archive. cbn [fmap list_fmap concat]. by rewrite <- app_assoc. }
    unfold entry_images. cbn [ti_kernel ti_root]. intros name x [[-> Hx]|[-> Hx]].
    - destruct (is_image e (str "kernel")) eqn:Hi; [|apply Him; by left]. injection Hx as <-. by apply Hhere.
    - destruct (is_image e (str "root")) eqn:Hi; [|apply Him; by right]. injection Hx as <-. by apply Hhere. }
  destruct (has_both _); [done|]. rewrite <- (zlen_app pre (entry_bytes e)). apply IH; [done|].
  intros pre' e' t Heq Hin. apply (HP pre' e' t); [|by right].
  rewrite <- Heq. unfold archive. cbn [fmap list_fmap concat]. by rewrite <- !app_assoc.
Qed.

(** C19: for an archive of well-formed files, filled up to whole blocks and
    ended by a block of zeros or its end, parse_tar_image() ends, reads
    nothing outside of the archive and returns what going through the files in
    order gives; an image it returns is the contents of a regular file of the
    archive named sysupgrade.../kernel or sysupgrade.../root. *)
Theorem parse_tar_image_finds fuel es tail me :
  Forall entry_ok es → tail_ok tail → zlen (archive es tail) < 2 ^ 63 → (length es < fuel)%nat →
  let data := archive es tail in
  let r := find_images es 0 (TarImages None None) in
  parse_tar_image fuel data (zlen data) me tt = Ret r tt ∧
  ∀ name off n, (name = str "kernel" ∧ ti_kernel r.2 = Some (off, n) ∨ name = str "root" ∧ ti_root r.2 = Some (off, n)) →
    ∃ e, e ∈ es ∧ is_image e name = true ∧ mem_read data off n = Some (te_data e).
Proof.
  intros Hes Htail H63 Hf data r. split.
  - destruct (parse_entries es [] tail (TarImages None None) fuel me Hes Htail H63 Hf) as [ctx Hrun].
    unfold parse_tar_image, tar_ctx_init. change (zlen []) with 0 in Hrun. cbn [app] in Hrun.
    rewrite (bind_Ret _ _ _ _ _ _ Hrun). fold r. by destruct r.
  - intros name off n Hx.
    refine (find_images_contents es [] tail (TarImages None None)
      (λ x name, ∃ e, e ∈ es ∧ is_image e name = true ∧ mem_read data x.1 x.2 = Some (te_data e))
      Hes _ _ name (off, n) Hx); [by intros ? ? [[]|[]]|].
    intros pre' e t Heq Hin name' Hi. exists e. split; [done|]. split; [done|]. cbn [fst snd].
    change ([] ++ archive es tail) with data in Heq. rewrite Heq. unfold entry_bytes. rewrite <- !app_assoc.
    rewrite Forall_forall in Hes. pose proof (eo_len _ (Hes _ Hin)) as Hl.
    rewrite mem_read_app_r by (unfold sizeof_tar_hdr; lia).
    rewrite mem_read_app_r by (rewrite Hl; lia). rewrite Hl.
    replace (zlen pre' + sizeof_tar_hdr - zlen pre' - sizeof_tar_hdr) with 0 by lia. by apply mem_read_here.
Qed.

(** ** Concrete archives *)

Definition field (n : nat) (s : list Z) : list Z := take n (s ++ replicate n 0).
Fixpoint octal (n : nat) (x : Z) (acc : list Z) : list Z :=
  match n with O => acc | S n' => octal n' (x / 8) ((48 + x `mod` 8) :: acc) end.

(** The header of a regular file; [size_mtime] are the two members in a row. *)
Definition demo_header (name size_mtime : list Z) : list Z :=
  let before := field 100 name ++ field 8 (str "0000644") ++ field 8 (str "0000000") ++ field 8 (str "0000000") ++
                field 24 size_mtime in
  let after := [48] ++ field 100 [] ++ field 6 (str "ustar") ++ str "00" ++ field 247 [] in
  let sum := foldl Z.add 0 (before ++ replicate 8 32 ++ after) in
  before ++ octal 6 sum [] ++ [0; 32] ++ after.

Definition demo_entry (name : list Z) (n : nat) : tar_entry :=
  let data := replicate n 7 in
  TarEntry (demo_header name (octal 11 (Z.of_nat n) [] ++ [0] ++ octal 11 0 [])) data
    (replicate (Z.to_nat (align_hdr (Z.of_nat n)) - n)%nat 0).

Definition demo_files : list tar_entry :=
  [demo_entry (str "sysupgrade-board/CONTROL") 20; demo_entry (str "sysupgrade-board/kernel") 600;
   demo_entry (str "sysupgrade-board/root") 100].

Lemma demo_entries_ok : Forall entry_ok demo_files.
Proof.
  repeat constructor; try (by vm_compute); try (by apply (bool_decide_unpack _); vm_compute);
    try (intros me; by vm_compute); try (eexists; by vm_compute).
Qed.

Lemma parse_tar_image_finds_witness :
  let data := archive demo_files (replicate 1024 0) in
  let r := find_images demo_files 0 (TarImages None None) in
  parse_tar_image 10 data (zlen data) 0 tt = Ret r tt ∧
  ∀ name off n, (name = str "kernel" ∧ ti_kernel r.2 = Some (off, n) ∨ name = str "root" ∧ ti_root r.2 = Some (off, n)) →
    ∃ e, e ∈ demo_files ∧ is_image e name = true ∧ mem_read data off n = Some (te_data e).
Proof.
  apply (parse_tar_image_finds 10 demo_files (replicate 1024 0) 0 demo_entries_ok).
  - right. exists (replicate 512 0), (replicate 512 0). by vm_compute.
  - by vm_compute.
  - simpl. lia.
Defined.

Example demo_files_found :
  find_images demo_files 0 (TarImages None None) = (0, TarImages (Some (1536, 600)) (Some (3072, 100))).
Proof. by vm_compute. Qed.

(** ** Archives it does not handle *)

(** Without the filling of the last block the next header is looked for behind
    the end: the difference of size and offset wraps around. *)
Lemma unpadded_archive_read_outside :
  let data := demo_header (str "sysupgrade/other") (octal 11 100 []) ++ replicate 100 7 in
  zlen data = 612 ∧ parse_tar_image 10 data (zlen data) 0 tt = Fault.
Proof. by vm_compute. Qed.

(** A size without a terminator runs on into the next member and can be close
    to 2^64: the check of the size wraps around, and the offset of the next
    header is that of this one.  The loop does not end. *)
Definition endless_archive : list Z := demo_header (str "x") (str "1777777777777777777000") ++ replicate 512 0.

Lemma endless_archive_step im me :
  ∃ im', parse_step (0, tar_ctx_init endless_archive 1024, im) me tt =
    Ret (has_both im', (0, tar_ctx_init endless_archive 1024, im')) tt ∧ im' = im.
Proof. exists im. split; [|done]. destruct im as [[[]|] [[]|]]; by vm_compute. Qed.

Lemma endless_archive_hangs fuel me : parse_tar_image fuel endless_archive (zlen endless_archive) me tt = Dead tt.
Proof.
  change (zlen endless_archive) with 1024. unfold parse_tar_image.
  assert (Hloop : while_brk fuel parse_step (0, tar_ctx_init endless_archive 1024, TarImages None None) me tt = Dead tt).
  { induction fuel as [|fuel IH]; [done|]. cbn [while_brk].
    destruct (endless_archive_step (TarImages None None) me) as (im & Hs & ->).
    rewrite (bind_Ret _ _ _ _ _ _ Hs). exact IH. }
  unfold bind. by rewrite Hloop.
Qed.
