(* ===== verification/Sha256.v ===== *)
(** * SHA-256 (u-boot lib/sha256.c, lib/sha256_common.c)

    The streaming implementation: a context holds the number of bytes so far,
    the chaining state and the bytes of an incomplete block.  The 64 rounds
    are macro calls that exchange the roles of eight local variables instead
    of moving their values. *)

From stdpp Require Import base list numbers list_numbers.
From Stdlib Require Import ZArith Lia.
From S2P Require Import Prelude Bytes.
Open Scope Z_scope.
Local Close Scope mon_scope.

Definition SHA256_SUM_LEN : Z := 32.
Definition CHUNKSZ_SHA256 : Z := 64 * 1024.

Record sha256_context := Sha256Context {
  total : Z * Z;
  state : list Z;
  buffer : list Z;
}.

(** ** Big-endian words *)

Definition GET_UINT32_BE (b : list Z) (i : Z) : option Z :=
  b0 ← zget b i; b1 ← zget b (i + 1); b2 ← zget b (i + 2); b3 ← zget b (i + 3);
  Some (Z.lor (Z.lor (Z.lor (Z.shiftl b0 24) (Z.shiftl b1 16)) (Z.shiftl b2 8)) b3).

(** The four bytes that are stored. *)
Definition PUT_UINT32_BE (n : Z) : list Z := [u8 (Z.shiftr n 24); u8 (Z.shiftr n 16); u8 (Z.shiftr n 8); u8 n].

(** ** One block *)

Definition SHR (x n : Z) : Z := Z.shiftr (Z.land x 0xFFFFFFFF) n.
Definition ROTR (x n : Z) : Z := Z.lor (SHR x n) (u32 (Z.shiftl x (32 - n))).
Definition S0 (x : Z) : Z := Z.lxor (Z.lxor (ROTR x 7) (ROTR x 18)) (SHR x 3).
Definition S1 (x : Z) : Z := Z.lxor (Z.lxor (ROTR x 17) (ROTR x 19)) (SHR x 10).
Definition S2 (x : Z) : Z := Z.lxor (Z.lxor (ROTR x 2) (ROTR x 13)) (ROTR x 22).
Definition S3 (x : Z) : Z := Z.lxor (Z.lxor (ROTR x 6) (ROTR x 11)) (ROTR x 25).
Definition F0 (x y z : Z) : Z := Z.lor (Z.land x y) (Z.land z (Z.lor x y)).
Definition F1 (x y z : Z) : Z := Z.lxor z (Z.land x (Z.lxor y z)).

(** The constants, one row for each pass over the eight variables. *)
Definition K_rows : list (list Z) :=
  [[0x428A2F98; 0x71374491; 0xB5C0FBCF; 0xE9B5DBA5; 0x3956C25B; 0x59F111F1; 0x923F82A4; 0xAB1C5ED5];
   [0xD807AA98; 0x12835B01; 0x243185BE; 0x550C7DC3; 0x72BE5D74; 0x80DEB1FE; 0x9BDC06A7; 0xC19BF174];
   [0xE49B69C1; 0xEFBE4786; 0x0FC19DC6; 0x240CA1CC; 0x2DE92C6F; 0x4A7484AA; 0x5CB0A9DC; 0x76F988DA];
   [0x983E5152; 0xA831C66D; 0xB00327C8; 0xBF597FC7; 0xC6E00BF3; 0xD5A79147; 0x06CA6351; 0x14292967];
   [0x27B70A85; 0x2E1B2138; 0x4D2C6DFC; 0x53380D13; 0x650A7354; 0x766A0ABB; 0x81C2C92E; 0x92722C85];
   [0xA2BFE8A1; 0xA81A664B; 0xC24B8B70; 0xC76C51A3; 0xD192E819; 0xD6990624; 0xF40E3585; 0x106AA070];
   [0x19A4C116; 0x1E376C08; 0x2748774C; 0x34B0BCB5; 0x391C0CB3; 0x4ED8AA4A; 0x5B9CCA4F; 0x682E6FF3];
   [0x748F82EE; 0x78A5636F; 0x84C87814; 0x8CC70208; 0x90BEFFFA; 0xA4506CEB; 0xBEF9A3F7; 0xC67178F2]].

Definition K : list Z := concat K_rows.

(** [R(t)]: the word that is appended to the array [W], filled up to [t]. *)
Definition R (W : list Z) (t : Z) : option Z :=
  w2 ← zget W (t - 2); w7 ← zget W (t - 7); w15 ← zget W (t - 15); w16 ← zget W (t - 16);
  Some (u32 (S1 w2 + w7 + S0 w15 + w16)).

(** The variables A to H; in round [t] the macro argument [j] is the variable
    [(j - t) mod 8]. *)
Definition P (t : Z) (v : list Z) (x K : Z) : option (list Z) :=
  let arg j := (j - t) `mod` 8 in
  a ← zget v (arg 0); b ← zget v (arg 1); c ← zget v (arg 2); d ← zget v (arg 3);
  e ← zget v (arg 4); f ← zget v (arg 5); g ← zget v (arg 6); h ← zget v (arg 7);
  let temp1 := u32 (h + S3 e + F1 e f g + K + x) in
  let temp2 := u32 (S2 a + F0 a b c) in
  Some (zset (zset v (arg 3) (u32 (d + temp1))) (arg 7) (u32 (temp1 + temp2))).

(** One of the 64 lines. *)
Definition round_line (s : option (list Z * list Z)) (t : nat) : option (list Z * list Z) :=
  '(W, v) ← s;
  let t := Z.of_nat t in
  k ← zget K t;
  if t <? 16 then x ← zget W t; v ← P t v x k; Some (W, v)
  else x ← R W t; v ← P t v x k; Some (W ++ [x], v).

Definition sha256_process_one (st data : list Z) : option (list Z) :=
  W ← mapM (λ i, GET_UINT32_BE data (4 * Z.of_nat i)) (seq 0 16);
  '(_, v) ← foldl round_line (Some (W, st)) (seq 0 64);
  Some (zip_with (λ s x, u32 (s + x)) st v).

Fixpoint sha256_process (st data : list Z) (blocks : nat) : option (list Z) :=
  match blocks with
  | O => Some st
  | S n => st ← sha256_process_one st data; sha256_process st (drop 64 data) n
  end.

(** ** Contexts *)

(** A new context; the buffer keeps what the memory holds. *)
Definition sha256_starts (buffer : list Z) : sha256_context :=
  Sha256Context (0, 0)
    [0x6A09E667; 0xBB67AE85; 0x3C6EF372; 0xA54FF53A; 0x510E527F; 0x9B05688C; 0x1F83D9AB; 0x5BE0CD19] buffer.

(** [input] are the [length] bytes at the pointer. *)
Definition sha256_update (ctx : sha256_context) (input : list Z) : option sha256_context :=
  let length := zlen input in
  if length =? 0 then Some ctx
  else
    let left := Z.land (total ctx).1 0x3F in
    let fill := u32 (64 - left) in
    let t0 := u32 ((total ctx).1 + length) in
    let t1 := if t0 <? length then u32 ((total ctx).2 + 1) else (total ctx).2 in
    '(st, buf, input, left) ←
      (if negb (left =? 0) && (fill <=? length) then
         buf ← mem_copy (buffer ctx) left input fill;
         st ← sha256_process (state ctx) buf 1;
         Some (st, buf, drop (Z.to_nat fill) input, 0)
       else Some (state ctx, buffer ctx, input, left));
    let length := zlen input in
    st ← sha256_process st input (Z.to_nat (length / 64));
    let input := drop (Z.to_nat (length / 64 * 64)) input in
    let length := length `mod` 64 in
    buf ← (if negb (length =? 0) then mem_copy buf left input length else Some buf);
    Some (Sha256Context (t0, t1) st buf).

Definition sha256_padding : list Z := 0x80 :: replicate 63 0.

Definition sha256_finish (ctx : sha256_context) : option (list Z) :=
  let '(t0, t1) := total ctx in
  let high := Z.lor (Z.shiftr t0 29) (u32 (Z.shiftl t1 3)) in
  let low := u32 (Z.shiftl t0 3) in
  let msglen := PUT_UINT32_BE high ++ PUT_UINT32_BE low in
  let last := Z.land t0 0x3F in
  let padn := if last <? 56 then u32 (56 - last) else u32 (120 - last) in
  ctx ← sha256_update ctx (take (Z.to_nat padn) sha256_padding);
  ctx ← sha256_update ctx msglen;
  Some (concat (map PUT_UINT32_BE (state ctx))).

(** ** The sum of a buffer *)

Local Open Scope mon_scope.
Section Sum.
Context {St : Type}.

(** A round of the loop that triggers the watchdog, which leaves out
    schedule(); [curr] is an offset. *)
Definition csum_step (input : list Z) (chunk_sz : Z) (s : Z * sha256_context) : M St (bool * (Z * sha256_context)) :=
  let '(curr, ctx) := s in
  if negb (curr <? zlen input) then ret (true, s)
  else
    let chunk := s32 (zlen input - curr) in
    let chunk := if chunk_sz <? u32 chunk then s32 chunk_sz else chunk in
    part ← some (mem_read input curr (u32 chunk));
    ctx ← some (sha256_update ctx part);
    ret (false, (curr + chunk, ctx)).

(** [buf] is what the uninitialised context holds; [wdt] is whether the
    watchdog is configured. *)
Definition sha256_csum_wd (wdt : bool) (buf input : list Z) (chunk_sz : Z) : M St (list Z) :=
  let ctx := sha256_starts buf in
  '(_, ctx) ←
    (if wdt then while_brk (S (length input)) (csum_step input chunk_sz) (0, ctx)
     else ctx ← some (sha256_update ctx input); ret (0, ctx));
  some (sha256_finish ctx).
End Sum.

(** ** HMAC *)

Local Close Scope mon_scope.

(** [keybuf] of the source, and how much of it is used. *)
Definition hmac_key (buf key : list Z) : option (list Z * Z) :=
  if 64 <? zlen key then
    ctx ← sha256_update (sha256_starts buf) key;
    k ← sha256_finish ctx;
    Some (k, 32)
  else Some (key ++ replicate (64 - length key) 0, zlen key).

(** A pad of 64 bytes [c] with the key exclusive-or'ed in. *)
Definition hmac_pad (keybuf : list Z) (n c : Z) : list Z :=
  zip_with Z.lxor (replicate (Z.to_nat n) c) keybuf ++ replicate (64 - Z.to_nat n) c.

Definition sha256_hmac (buf key input : list Z) : option (list Z) :=
  '(keybuf, n) ← hmac_key buf key;
  ctx ← sha256_update (sha256_starts buf) (hmac_pad keybuf n 0x36);
  ctx ← sha256_update ctx input;
  tmp ← sha256_finish ctx;
  ctx ← sha256_update (sha256_starts buf) (hmac_pad keybuf n 0x5C);
  ctx ← sha256_update ctx tmp;
  sha256_finish ctx.
