(* ===== verification/Sha256Spec.v ===== *)
(** * SHA-256: the standard (FIPS 180-4) and that the implementation computes it

    The constants are derived from the prime numbers, the rounds move the
    working variables, and the message is padded first and cut into blocks. *)

From stdpp Require Import base list numbers list_numbers.
From Stdlib Require Import ZArith Lia Btauto.
From S2P Require Import Prelude Bytes Sha256.
Open Scope Z_scope.
Local Close Scope mon_scope.

(** ** The standard *)

Module Fips.
Definition is_prime (p : nat) : bool := forallb (λ d, negb (p mod d =? 0)%nat) (seq 2 (p - 2)).
Definition primes (n : nat) : list Z := Z.of_nat <$> take n (filter is_prime (seq 2 400)).

(** The largest number of at most [k] bits, above the bits of [r] found so
    far, whose cube is not above [x]. *)
Fixpoint cbrt_bits (k : nat) (r x : Z) : Z :=
  match k with
  | O => r
  | S k => let r' := r + 2 ^ Z.of_nat k in cbrt_bits k (if r' ^ 3 <=? x then r' else r) x
  end.

(** The first 32 bits of the fractional parts of the cube roots of the first
    64 primes, and of the square roots of the first eight. *)
Definition constants : list Z := (λ p, cbrt_bits 40 0 (p * 2 ^ 96) `mod` 2 ^ 32) <$> primes 64.
Definition initial : list Z := (λ p, Z.sqrt (p * 2 ^ 64) `mod` 2 ^ 32) <$> primes 8.

Definition add (x y : Z) : Z := (x + y) `mod` 2 ^ 32.
Definition rotr (n x : Z) : Z := x / 2 ^ n + (x * 2 ^ (32 - n)) `mod` 2 ^ 32.
Definition shr (n x : Z) : Z := x / 2 ^ n.
Definition ch (x y z : Z) : Z := Z.lxor (Z.land x y) (Z.land (2 ^ 32 - 1 - x) z).
Definition maj (x y z : Z) : Z := Z.lxor (Z.lxor (Z.land x y) (Z.land x z)) (Z.land y z).
Definition big0 (x : Z) : Z := Z.lxor (Z.lxor (rotr 2 x) (rotr 13 x)) (rotr 22 x).
Definition big1 (x : Z) : Z := Z.lxor (Z.lxor (rotr 6 x) (rotr 11 x)) (rotr 25 x).
Definition small0 (x : Z) : Z := Z.lxor (Z.lxor (rotr 7 x) (rotr 18 x)) (shr 3 x).
Definition small1 (x : Z) : Z := Z.lxor (Z.lxor (rotr 17 x) (rotr 19 x)) (shr 10 x).

(** The message schedule from the 16 words of a block: [n] more words. *)
Definition next_word (W : list Z) : Z :=
  let back (i : Z) := nth (length W - Z.to_nat i) W 0 in
  add (add (add (small1 (back 2)) (back 7)) (small0 (back 15))) (back 16).
Fixpoint schedule (n : nat) (W : list Z) : list Z :=
  match n with
  | O => W
  | S n => schedule n (W ++ [next_word W])
  end.

(** A round with the word and the constant of the round added to [h]. *)
Definition round (v : list Z) (wk : Z * Z) : list Z :=
  match v with
  | [a; b; c; d; e; f; g; h] =>
      let t1 := add (add (add (add h (big1 e)) (ch e f g)) wk.2) wk.1 in
      let t2 := add (big0 a) (maj a b c) in
      [add t1 t2; a; b; c; add d t1; e; f; g]
  | _ => v
  end.

Fixpoint be_val (l : list Z) : Z := match l with [] => 0 | b :: l' => b * 256 ^ zlen l' + be_val l' end.
Definition words (block : list Z) : list Z := (λ i, be_val (take 4 (drop (4 * i) block))) <$> seq 0 16.

Definition compress (H block : list Z) : list Z :=
  zip_with add H (foldl round H (zip (schedule 48 (words block)) constants)).

(** The first [n] blocks of 64 bytes. *)
Fixpoint hash_blocks (n : nat) (H msg : list Z) : list Z :=
  match n with
  | O => H
  | S n => hash_blocks n (compress H (take 64 msg)) (drop 64 msg)
  end.

Fixpoint be_bytes (n : nat) (x : Z) : list Z :=
  match n with O => [] | S n => be_bytes n (x / 256) ++ [x `mod` 256] end.

(** The one bit, the zeros up to 8 bytes before the end of a block, and the
    length in bits. *)
Definition pad (msg : list Z) : list Z :=
  msg ++ [0x80] ++ replicate (Z.to_nat ((55 - zlen msg) `mod` 64)) 0 ++ be_bytes 8 (8 * zlen msg).

Definition sha256 (msg : list Z) : list Z :=
  let m := pad msg in concat (be_bytes 4 <$> hash_blocks (length m / 64) initial m).
End Fips.

(** ** Words *)

Definition word (x : Z) : Prop := 0 ≤ x < 2 ^ 32.

Lemma word_testbit_high x i : word x → 32 ≤ i → Z.testbit x i = false.
Proof. apply testbit_high. Qed.

Lemma word_u32 x : word (u32 x).
Proof. unfold word, u32. apply Z.mod_pos_bound. lia. Qed.

Lemma word_add x y : word (Fips.add x y).
Proof. apply word_u32. Qed.

Lemma SHR_shr x n : word x → 0 ≤ n → SHR x n = Fips.shr n x.
Proof.
  unfold word, SHR, Fips.shr. intros Hx Hn. change 0xFFFFFFFF with (Z.ones 32).
  rewrite Z.land_ones, Z.mod_small, Z.shiftr_div_pow2 by lia. done.
Qed.

Lemma ROTR_rotr x n : word x → 0 < n < 32 → ROTR x n = Fips.rotr n x.
Proof.
  intros Hx Hn. unfold ROTR, Fips.rotr. rewrite SHR_shr by (done || lia). unfold Fips.shr, u32.
  rewrite Z.shiftl_mul_pow2 by lia. apply add_disjoint. apply Z.bits_inj'. intros i Hi.
  rewrite Z.land_spec, Z.bits_0, <- Z.shiftr_div_pow2, Z.shiftr_spec by lia.
  destruct (decide (i < 32 - n)).
  - rewrite <- Z.shiftl_mul_pow2 by lia. rewrite Z.mod_pow2_bits_low, Z.shiftl_spec_low by lia. apply andb_false_r.
  - by rewrite word_testbit_high by (done || lia).
Qed.

Lemma F0_maj x y z : F0 x y z = Fips.maj x y z.
Proof.
  apply Z.bits_inj'. intros i _. unfold F0, Fips.maj.
  rewrite ?Z.lor_spec, ?Z.lxor_spec, ?Z.land_spec, ?Z.lor_spec. btauto.
Qed.

Lemma not_testbit x i : word x → 0 ≤ i < 32 → Z.testbit (2 ^ 32 - 1 - x) i = negb (Z.testbit x i).
Proof.
  unfold word. intros Hx Hi. replace (2 ^ 32 - 1 - x) with (Z.lnot x + 1 * 2 ^ 32) by (unfold Z.lnot; lia).
  rewrite <- (Z.mod_pow2_bits_low _ 32) by lia. rewrite Z.mod_add, Z.mod_pow2_bits_low by lia.
  apply Z.lnot_spec. lia.
Qed.

Lemma F1_ch x y z : word x → word z → F1 x y z = Fips.ch x y z.
Proof.
  intros Hx Hz. apply Z.bits_inj'. intros i Hi. unfold F1, Fips.ch.
  rewrite !Z.lxor_spec, !Z.land_spec, Z.lxor_spec. destruct (decide (i < 32)).
  - rewrite not_testbit by (done || lia). btauto.
  - rewrite (word_testbit_high x), (word_testbit_high z) by (done || lia). btauto.
Qed.

Lemma add_l x y : u32 (u32 x + y) = u32 (x + y).
Proof. apply Zplus_mod_idemp_l. Qed.

(** The sums of the standard, computed with one wrap at the end. *)
Lemma add4 a b c d : Fips.add (Fips.add (Fips.add a b) c) d = u32 (a + b + c + d).
Proof. unfold Fips.add, u32. by rewrite (Zplus_mod_idemp_l (a + b)), (Zplus_mod_idemp_l (a + b + c)). Qed.

Lemma add5 a b c d e : Fips.add (Fips.add (Fips.add (Fips.add a b) c) d) e = u32 (a + b + c + d + e).
Proof. unfold Fips.add at 1. rewrite add4. apply Zplus_mod_idemp_l. Qed.

Lemma macros_fips x : word x →
  S0 x = Fips.small0 x ∧ S1 x = Fips.small1 x ∧ S2 x = Fips.big0 x ∧ S3 x = Fips.big1 x.
Proof.
  intros Hx. unfold S0, S1, S2, S3, Fips.small0, Fips.small1, Fips.big0, Fips.big1.
  by rewrite !ROTR_rotr, !SHR_shr by (done || lia).
Qed.

(** ** Rounds *)

(** The variables A to H before round [t]: variable [i] plays the part
    [(i + t) mod 8] of the standard. *)
Definition parts (t : Z) (v : list Z) : list Z := (λ i, nth (Z.to_nat ((i + t) `mod` 8)) v 0) <$> seqZ 0 8.

Lemma parts_mod t v : parts t v = parts (t `mod` 8) v.
Proof. unfold parts. apply map_ext. intros i. by rewrite Zplus_mod_idemp_r. Qed.

Lemma P_mod t v x k : P t v x k = P (t `mod` 8) v x k.
Proof. unfold P. by rewrite !Zminus_mod_idemp_r. Qed.

Lemma word_round v wk : length v = 8%nat → Forall word v → length (Fips.round v wk) = 8%nat ∧ Forall word (Fips.round v wk).
Proof.
  intros Hl Hv. do 8 (destruct v as [|? v]; [done|]). destruct v; [|done]. split; [done|].
  repeat (apply Forall_cons in Hv as [? Hv]). unfold Fips.round. repeat (apply Forall_cons_2; [done || apply word_add|]). constructor.
Qed.

Lemma temp1_fips e f g h k x : word e → word g →
  Fips.add (Fips.add (Fips.add (Fips.add h (Fips.big1 e)) (Fips.ch e f g)) k) x = u32 (h + S3 e + F1 e f g + k + x).
Proof. intros He Hg. rewrite add5, F1_ch by done. by destruct (macros_fips e He) as (_ & _ & _ & ->). Qed.

Lemma temp2_fips a b c : word a → Fips.add (Fips.big0 a) (Fips.maj a b c) = u32 (S2 a + F0 a b c).
Proof. intros Ha. rewrite F0_maj. by destruct (macros_fips a Ha) as (_ & _ & -> & _). Qed.

Lemma P_round t v x k : length v = 8%nat → Forall word v →
  P t (parts t v) x k = Some (parts (t + 1) (Fips.round v (x, k))).
Proof.
  intros Hl Hv. do 8 (destruct v as [|? v]; [done|]). destruct v; [|done].
  repeat (apply Forall_cons in Hv as [? Hv]).
  rewrite P_mod, (parts_mod t), (parts_mod (t + 1)), <- (Zplus_mod_idemp_l t 1), <- (parts_mod (t `mod` 8 + 1)).
  unfold Fips.round. cbn [fst snd]. rewrite temp1_fips, temp2_fips by done.
  pose proof (Z.mod_pos_bound t 8 ltac:(lia)) as Hr. revert Hr. generalize (t `mod` 8). intros r Hr.
  assert (r = 0 ∨ r = 1 ∨ r = 2 ∨ r = 3 ∨ r = 4 ∨ r = 5 ∨ r = 6 ∨ r = 7) as Hcases by lia.
  destruct_or! Hcases; subst r; reflexivity.
Qed.

(** ** One block *)

Lemma be_val4 a b c d : is_byte a → is_byte b → is_byte c → is_byte d →
  Z.lor (Z.lor (Z.lor (Z.shiftl a 24) (Z.shiftl b 16)) (Z.shiftl c 8)) d = Fips.be_val [a; b; c; d].
Proof.
  unfold is_byte. intros Ha Hb Hc Hd.
  rewrite (lor_shiftl a), (Z.shiftl_mul_pow2 b) by (rewrite ?Z.shiftl_mul_pow2; lia).
  replace (a * 2 ^ 24 + b * 2 ^ 16) with (Z.shiftl (a * 2 ^ 8 + b) 16) by (rewrite Z.shiftl_mul_pow2; lia).
  rewrite lor_shiftl, (Z.shiftl_mul_pow2 c) by (rewrite ?Z.shiftl_mul_pow2; lia).
  replace ((a * 2 ^ 8 + b) * 2 ^ 16 + c * 2 ^ 8) with (Z.shiftl ((a * 2 ^ 8 + b) * 2 ^ 8 + c) 8)
    by (rewrite Z.shiftl_mul_pow2; lia).
  rewrite lor_shiftl by lia. cbn [Fips.be_val]. unfold zlen. cbn [length]. lia.
Qed.

Lemma GET_words data i : Forall is_byte data → 4 * Z.of_nat i + 4 ≤ zlen data →
  ∃ w, GET_UINT32_BE data (4 * Z.of_nat i) = Some w ∧ Fips.be_val (take 4 (drop (4 * i) data)) = w ∧ word w.
Proof.
  intros Hb Hl. unfold zlen in Hl.
  destruct (drop (4 * i) data) as [|a [|b [|c [|d rest]]]] eqn:E;
    try (apply (f_equal length) in E; rewrite length_drop in E; simpl in E; lia).
  assert (Hz : ∀ j : Z, 0 ≤ j → zget data (4 * Z.of_nat i + j) = zget (drop (4 * i) data) j).
  { intros j Hj. unfold zget. rewrite !decide_True by lia. rewrite lookup_drop. f_equal. lia. }
  assert (Forall is_byte (a :: b :: c :: d :: rest)) as Hf by (rewrite <- E; by apply Forall_drop).
  apply Forall_cons in Hf as [? Hf]. apply Forall_cons in Hf as [? Hf]. apply Forall_cons in Hf as [? Hf].
  apply Forall_cons in Hf as [? Hf]. unfold GET_UINT32_BE.
  pose proof (Hz 0 ltac:(lia)) as Hz0. rewrite Z.add_0_r in Hz0. rewrite Hz0, !Hz, E by lia. cbn. eexists. split; [reflexivity|].
  rewrite be_val4 by done. split; [done|]. unfold word, is_byte in *. cbn [Fips.be_val]. unfold zlen. cbn [length]. lia.
Qed.

Lemma load_words data : Forall is_byte data → 64 ≤ zlen data →
  mapM (λ i, GET_UINT32_BE data (4 * Z.of_nat i)) (seq 0 16) = Some (Fips.words data) ∧ Forall word (Fips.words data).
Proof.
  intros Hb Hl. split.
  - apply mapM_Some. unfold Fips.words. apply Forall2_fmap_r, Forall_Forall2_diag, Forall_forall.
    intros i Hi%elem_of_seq. destruct (GET_words data i) as (w & -> & <- & _); [done|lia|done].
  - unfold Fips.words. apply Forall_fmap, Forall_forall. intros i Hi%elem_of_seq.
    by destruct (GET_words data i) as (w & _ & <- & Hw); [done|lia|].
Qed.

Lemma length_schedule n W : length (Fips.schedule n W) = (n + length W)%nat.
Proof. revert W. induction n as [|n IH]; intros W; cbn; [done|]. rewrite IH, length_app. cbn. lia. Qed.

Lemma schedule_prefix n W : take (length W) (Fips.schedule n W) = W.
Proof.
  revert W. induction n as [|n IH]; intros W; cbn; [apply take_ge; lia|].
  specialize (IH (W ++ [Fips.next_word W])). apply (f_equal (take (length W))) in IH.
  rewrite take_take, length_app in IH. rewrite take_app_length in IH. rewrite Nat.min_l in IH by (cbn; lia). done.
Qed.

Lemma schedule_step n W m : (m < n)%nat →
  Fips.schedule n W !! (length W + m)%nat = Some (Fips.next_word (take (length W + m) (Fips.schedule n W))).
Proof.
  revert W m. induction n as [|n IH]; intros W m Hm; [lia|]. cbn.
  destruct m as [|m].
  - pose proof (schedule_prefix n (W ++ [Fips.next_word W])) as Hp. rewrite length_app in Hp. cbn in Hp.
    rewrite Nat.add_0_r. rewrite <- (lookup_take_lt _ (length W + 1)) by lia. rewrite Hp.
    rewrite lookup_app_r, Nat.sub_diag by lia. cbn. f_equal. f_equal.
    apply (f_equal (take (length W))) in Hp. rewrite take_take, Nat.min_l, take_app_length in Hp by lia. done.
  - specialize (IH (W ++ [Fips.next_word W]) m ltac:(lia)). rewrite length_app in IH. cbn in IH.
    by replace (length W + S m)%nat with (length W + 1 + m)%nat by lia.
Qed.

Lemma schedule_words n W : Forall word W → Forall word (Fips.schedule n W).
Proof.
  revert W. induction n as [|n IH]; intros W HW; cbn; [done|]. apply IH. apply Forall_app. split; [done|].
  apply Forall_cons_2; [apply word_add|constructor].
Qed.

Lemma zget_nth (W : list Z) i : 0 ≤ i < zlen W → zget W i = Some (nth (Z.to_nat i) W 0).
Proof.
  unfold zlen. intros Hi. unfold zget. rewrite decide_True by lia.
  destruct (lookup_lt_is_Some_2 W (Z.to_nat i)) as [x Hx]; [lia|]. rewrite Hx. f_equal.
  symmetry. apply nth_lookup_Some with (d := 0) in Hx. done.
Qed.

Lemma nth_word (W : list Z) i : Forall word W → word (nth i W 0).
Proof.
  intros HW. destruct (nth_in_or_default i W 0) as [Hin| ->]; [|unfold word; lia].
  rewrite Forall_forall in HW. apply HW. by apply list_elem_of_In.
Qed.

Lemma R_next W t : Forall word W → zlen W = t → 16 ≤ t → R W t = Some (Fips.next_word W).
Proof.
  intros HW Ht H16. unfold R. rewrite !zget_nth by lia. cbn [mbind option_bind]. f_equal.
  unfold Fips.next_word. rewrite add4.
  destruct (macros_fips _ (nth_word W (length W - Z.to_nat 2) HW)) as (_ & <- & _).
  destruct (macros_fips _ (nth_word W (length W - Z.to_nat 15) HW)) as (<- & _).
  unfold zlen in Ht. repeat f_equal; lia.
Qed.

Lemma constants_K : Fips.constants = K.
Proof. vm_compute. reflexivity. Qed.

Lemma parts_0 v : length v = 8%nat → parts 0 v = v.
Proof. intros Hl. do 8 (destruct v as [|? v]; [done|]). by destruct v. Qed.

Lemma rounds_spec W st t : (t ≤ 64)%nat → length W = 16%nat → Forall word W → length st = 8%nat → Forall word st →
  let full := Fips.schedule 48 W in
  let v := foldl Fips.round st (take t (zip full K)) in
  foldl round_line (Some (W, st)) (seq 0 t) = Some (take (Nat.max 16 t) full, parts (Z.of_nat t) v) ∧
  length v = 8%nat ∧ Forall word v.
Proof.
  intros Ht HlW HW Hl Hst full. pose proof (length_schedule 48 W) as Hlen. fold full in Hlen.
  pose proof (schedule_prefix 48 W) as Hpre. fold full in Hpre.
  assert (Hfw : Forall word full) by (by apply schedule_words).
  assert (Hstep : ∀ t, (16 ≤ t < 64)%nat → full !! t = Some (Fips.next_word (take t full))).
  { intros t' Ht'. pose proof (schedule_step 48 W (t' - 16) ltac:(lia)) as Hs. fold full in Hs.
    rewrite HlW in Hs. by replace (16 + (t' - 16))%nat with t' in Hs by lia. }
  clearbody full.
  induction t as [|t IH].
  - change (Z.of_nat 0) with 0. change (Nat.max 16 0) with 16%nat. rewrite <- HlW, Hpre. cbn.
    by rewrite parts_0 by done.
  - destruct IH as (IH & Hlv & Hwv); [lia|].
    destruct (lookup_lt_is_Some_2 full t) as [x Hx]; [lia|].
    destruct (lookup_lt_is_Some_2 K t) as [k Hk]; [change (length K) with 64%nat; lia|].
    assert (Hz : zip full K !! t = Some (x, k)).
    { apply lookup_zip_with_Some. eauto. }
    rewrite seq_S, foldl_app, IH. rewrite (take_S_r _ _ _ Hz), foldl_app. cbn [foldl].
    destruct (word_round _ (x, k) Hlv Hwv). split; [|done].
    unfold round_line. cbn [mbind option_bind Nat.add].
    assert (Hzk : zget K (Z.of_nat t) = Some k).
    { unfold zget. rewrite decide_True, Nat2Z.id by lia. done. }
    rewrite Hzk. cbn [mbind option_bind].
    replace (Z.of_nat (S t)) with (Z.of_nat t + 1) by lia.
    destruct (Z.ltb_spec (Z.of_nat t) 16).
    + replace (Nat.max 16 t) with 16%nat by lia. replace (Nat.max 16 (S t)) with 16%nat by lia.
      assert (zget (take 16 full) (Z.of_nat t) = Some x) as ->.
      { unfold zget. rewrite decide_True, Nat2Z.id, lookup_take_lt by lia. done. }
      cbn [mbind option_bind]. rewrite P_round by done. done.
    + replace (Nat.max 16 t) with t by lia. replace (Nat.max 16 (S t)) with (S t) by lia.
      rewrite R_next; [|by apply Forall_take|unfold zlen; rewrite length_take; lia|lia].
      pose proof (Hstep t ltac:(lia)) as Hs. rewrite Hx in Hs. injection Hs as Hs. rewrite <- Hs.
      cbn [mbind option_bind]. rewrite P_round by done. cbn [mbind option_bind]. by rewrite (take_S_r _ _ _ Hx).
Qed.

Definition st_ok (st : list Z) : Prop := length st = 8%nat ∧ Forall word st.

Lemma words_take n data : (64 ≤ n)%nat → Fips.words (take n data) = Fips.words data.
Proof.
  intros Hn. unfold Fips.words. apply list_fmap_ext. intros i j Hj. apply lookup_seq in Hj as [-> Hj].
  f_equal. apply list_eq. intros k. destruct (decide (k < 4)%nat).
  - rewrite !lookup_take_lt, !lookup_drop, lookup_take_lt by lia. done.
  - by rewrite !lookup_take_ge by lia.
Qed.

Lemma process_one_compress st data : st_ok st → Forall is_byte data → 64 ≤ zlen data →
  sha256_process_one st data = Some (Fips.compress st (take 64 data)) ∧ st_ok (Fips.compress st (take 64 data)).
Proof.
  intros [Hl Hst] Hb Hlen. unfold sha256_process_one, Fips.compress. rewrite words_take by lia.
  destruct (load_words data Hb Hlen) as [-> HW]. cbn [mbind option_bind].
  assert (HlW : length (Fips.words data) = 16%nat) by (unfold Fips.words; by rewrite length_fmap).
  destruct (rounds_spec (Fips.words data) st 64 ltac:(lia) HlW HW Hl Hst) as (Hr & Hlv & Hwv).
  rewrite Hr. cbn [mbind option_bind]. rewrite constants_K.
  rewrite (take_ge (zip _ _)) in Hlv, Hwv |- * by (rewrite length_zip_with, length_schedule; lia).
  rewrite parts_mod. change (Z.of_nat 64 `mod` 8) with 0. rewrite parts_0 by done. split; [done|]. split.
  - rewrite length_zip_with. lia.
  - apply Forall_forall. intros x Hx%elem_of_lookup_zip_with_1. destruct Hx as (i & a & b & -> & _). apply word_add.
Qed.

(** ** Blocks of a message *)

Lemma hash_blocks_add n m H msg :
  Fips.hash_blocks (n + m) H msg = Fips.hash_blocks m (Fips.hash_blocks n H msg) (drop (64 * n) msg).
Proof.
  revert H msg. induction n as [|n IH]; intros H msg.
  - by rewrite Nat.mul_0_r, drop_0.
  - cbn [Nat.add Fips.hash_blocks]. rewrite IH, drop_drop. do 2 f_equal. lia.
Qed.

Lemma hash_blocks_app n H msg t : (64 * n ≤ length msg)%nat → Fips.hash_blocks n H (msg ++ t) = Fips.hash_blocks n H msg.
Proof.
  revert H msg. induction n as [|n IH]; intros H msg Hl; [done|]. cbn [Fips.hash_blocks].
  rewrite take_app_le, drop_app_le by lia. apply IH. rewrite length_drop. lia.
Qed.

Lemma process_blocks n st data : st_ok st → Forall is_byte data → (64 * n ≤ length data)%nat →
  sha256_process st data n = Some (Fips.hash_blocks n st data) ∧ st_ok (Fips.hash_blocks n st data).
Proof.
  revert st data. induction n as [|n IH]; intros st data Hst Hb Hl; [done|].
  cbn [sha256_process Fips.hash_blocks].
  destruct (process_one_compress st data Hst Hb) as [-> Hst']; [unfold zlen; lia|]. cbn [mbind option_bind].
  apply IH; [done|by apply Forall_drop|rewrite length_drop; lia].
Qed.

(** ** Contexts *)

(** A context that has been given the bytes [msg]. *)
Record streamed (ctx : sha256_context) (msg : list Z) : Prop := {
  sd_total : total ctx = (u32 (zlen msg), u32 (zlen msg / 2 ^ 32));
  sd_state : state ctx = Fips.hash_blocks (length msg / 64) Fips.initial msg;
  sd_ok : st_ok (state ctx);
  sd_buffer : zlen (buffer ctx) = 64;
  sd_rest : take (length msg mod 64) (buffer ctx) = drop (64 * (length msg / 64)) msg;
  sd_bytes : Forall is_byte msg;
}.

Lemma starts_streamed buf : zlen buf = 64 → streamed (sha256_starts buf) [].
Proof.
  intros Hb. constructor; try done.
  split; [done|]. apply (bool_decide_unpack (Forall word (state (sha256_starts buf)))). vm_compute. done.
Qed.

Lemma total_carry a n : 0 ≤ a → 0 ≤ n < 2 ^ 32 →
  u32 (u32 a + n) = u32 (a + n) ∧
  (if u32 (a + n) <? n then u32 (u32 (a / 2 ^ 32) + 1) else u32 (a / 2 ^ 32)) = u32 ((a + n) / 2 ^ 32).
Proof.
  intros Ha Hn. split; [apply add_l|]. unfold u32.
  pose proof (Z.div_mod a (2 ^ 32) ltac:(lia)) as Ea. pose proof (Z.mod_pos_bound a (2 ^ 32) ltac:(lia)) as Hm.
  set (q := a / 2 ^ 32) in *. set (r := a `mod` 2 ^ 32) in *. clearbody q r. subst a.
  replace (2 ^ 32 * q + r + n) with (r + n + q * 2 ^ 32) by lia. rewrite Z.mod_add, Z.div_add by lia.
  destruct (decide (r + n < 2 ^ 32)).
  - rewrite Z.mod_small, Z.div_small by lia. destruct (Z.ltb_spec (r + n) n); [lia|done].
  - replace (r + n) with ((r + n - 2 ^ 32) + 1 * 2 ^ 32) by lia. rewrite Z.mod_add, Z.div_add by lia.
    rewrite Z.mod_small, Z.div_small by lia. destruct (Z.ltb_spec (r + n - 2 ^ 32) n); [|lia].
    rewrite Zplus_mod_idemp_l. f_equal. lia.
Qed.

(** The end of sha256_update(): whole blocks from the input, the rest kept.
    [m] is the message including the input, of which [q] blocks are done. *)
Lemma update_tail q m st buf :
  st_ok st → st = Fips.hash_blocks q Fips.initial m → Forall is_byte m → zlen buf = 64 → (64 * q ≤ length m)%nat →
  let input := drop (64 * q) m in let n := zlen input in
  ∃ buf', sha256_process st input (Z.to_nat (n / 64)) = Some (Fips.hash_blocks (length m / 64) Fips.initial m) ∧
    st_ok (Fips.hash_blocks (length m / 64) Fips.initial m) ∧
    (if negb (n `mod` 64 =? 0) then mem_copy buf 0 (drop (Z.to_nat (n / 64 * 64)) input) (n `mod` 64) else Some buf)
      = Some buf' ∧
    zlen buf' = 64 ∧ take (length m mod 64) buf' = drop (64 * (length m / 64)) m.
Proof.
  intros Hst -> Hb Hbuf Hq input n.
  assert (Hn : n = Z.of_nat (length m - 64 * q)) by (unfold n, input, zlen; by rewrite length_drop).
  pose proof (Nat.div_mod_eq (length m) 64) as Hdm. pose proof (Nat.mod_upper_bound (length m) 64 ltac:(lia)) as Hr.
  set (d := (length m / 64)%nat) in *. set (r := (length m mod 64)%nat) in *.
  assert (Hqd : (q ≤ d)%nat) by lia.
  assert (Hdiv : n / 64 = Z.of_nat (d - q)).
  { rewrite Hn. replace (length m - 64 * q)%nat with (r + (d - q) * 64)%nat by lia.
    rewrite Nat2Z.inj_add, Nat2Z.inj_mul, Z.div_add, Z.div_small by lia. lia. }
  assert (Hmod : n `mod` 64 = Z.of_nat r).
  { rewrite Hn. replace (length m - 64 * q)%nat with (r + (d - q) * 64)%nat by lia.
    rewrite Nat2Z.inj_add, Nat2Z.inj_mul, Z.mod_add, Z.mod_small by lia. lia. }
  rewrite Hdiv, Hmod, Nat2Z.id.
  destruct (process_blocks (d - q) (Fips.hash_blocks q Fips.initial m) input) as [Hp Hst']; [done|by apply Forall_drop| |].
  { unfold input. rewrite length_drop. lia. }
  replace (Fips.hash_blocks d Fips.initial m) with (Fips.hash_blocks (d - q) (Fips.hash_blocks q Fips.initial m) input).
  2:{ unfold input. rewrite <- hash_blocks_add. f_equal. lia. }
  assert (Hrest : drop (Z.to_nat (Z.of_nat (d - q) * 64)) input = drop (64 * d) m).
  { unfold input. rewrite drop_drop. f_equal. lia. }
  rewrite Hrest. destruct (decide (r = 0%nat)) as [Hr0|Hr0].
  - exists buf. rewrite Hr0 at 1. cbn [negb Z.eqb Z.of_nat]. split_and!; try done.
    rewrite Hr0, take_0. symmetry. apply drop_ge. lia.
  - destruct (Z.eqb_spec (Z.of_nat r) 0) as [|_]; [lia|]. cbn [negb].
    assert (Hl : length (drop (64 * d) m) = r) by (rewrite length_drop; lia).
    unfold mem_copy. rewrite decide_True by (unfold zlen in *; lia). eexists. split_and!; [done|done|done| |].
    + rewrite !zlen_app, zlen_take, zlen_take, zlen_drop by (unfold zlen in *; lia). lia.
    + rewrite take_0, app_nil_l, Nat2Z.id, (take_ge (drop (64 * d) m)) by lia.
      apply take_app_length'. lia.
Qed.

Lemma left_is_rest (a : Z) : 0 ≤ a → Z.land (u32 a) 0x3F = a `mod` 64.
Proof.
  intros Ha. change 0x3F with (Z.ones 6). rewrite Z.land_ones by lia. unfold u32.
  change (2 ^ 32) with (2 ^ 6 * 2 ^ 26). rewrite Z.rem_mul_r by lia.
  rewrite Z.mul_comm, Z.mod_add, Z.mod_mod by lia. done.
Qed.

(** The context an update leaves, from its state, buffer and rest. *)
Lemma streamed_after msg input st buf' :
  Forall is_byte (msg ++ input) →
  st = Fips.hash_blocks (length (msg ++ input) / 64) Fips.initial (msg ++ input) → st_ok st → zlen buf' = 64 →
  take (length (msg ++ input) mod 64) buf' = drop (64 * (length (msg ++ input) / 64)) (msg ++ input) →
  streamed (Sha256Context (u32 (zlen msg + zlen input), u32 ((zlen msg + zlen input) / 2 ^ 32)) st buf') (msg ++ input).
Proof. intros. constructor; cbn [total state buffer]; rewrite ?zlen_app; done. Qed.

(** The input fills the block that was begun. *)
Lemma fill_block st buf0 msg input d r :
  st_ok st → st = Fips.hash_blocks d Fips.initial (msg ++ input) → Forall is_byte (msg ++ input) →
  length msg = (64 * d + r)%nat → (0 < r < 64)%nat → zlen buf0 = 64 → take r buf0 = drop (64 * d) msg →
  64 - Z.of_nat r ≤ zlen input →
  ∃ buf st1, mem_copy buf0 (Z.of_nat r) input (64 - Z.of_nat r) = Some buf ∧ sha256_process st buf 1 = Some st1 ∧
    st_ok st1 ∧ st1 = Fips.hash_blocks (d + 1) Fips.initial (msg ++ input) ∧ zlen buf = 64 ∧
    drop (64 * (d + 1)) (msg ++ input) = drop (Z.to_nat (64 - Z.of_nat r)) input.
Proof.
  intros Hok Hst [Hbm Hbi]%Forall_app Hlen Hr Hbuf Hrest Hge. unfold zlen in Hge.
  assert (Hlr : length (drop (64 * d) msg) = r) by (rewrite length_drop; lia).
  set (fill := Z.to_nat (64 - Z.of_nat r)). set (buf := drop (64 * d) msg ++ take fill input).
  assert (Hdrop : drop (64 * d) (msg ++ input) = drop (64 * d) msg ++ input) by (apply drop_app_le; lia).
  assert (Hlbuf : length buf = 64%nat) by (unfold buf; rewrite length_app, length_take; lia).
  destruct (process_blocks 1 st buf) as [Hp Hok1]; [done| |lia|].
  { apply Forall_app. split; [by apply Forall_drop|by apply Forall_take]. }
  exists buf, (Fips.hash_blocks 1 st buf). split_and!; [|done|done| |unfold zlen; lia|].
  - unfold mem_copy. rewrite decide_True by (unfold zlen in *; lia).
    rewrite (drop_ge buf0) by (unfold zlen in Hbuf; lia). by rewrite app_nil_r, Nat2Z.id, Hrest.
  - rewrite hash_blocks_add, <- Hst, Hdrop. cbn [Fips.hash_blocks].
    apply (f_equal (Fips.compress st)). rewrite (take_ge buf) by lia.
    unfold buf. rewrite take_app_ge by lia. do 2 f_equal. lia.
  - replace (64 * (d + 1))%nat with (64 * d + 64)%nat by lia. rewrite <- drop_drop, Hdrop, drop_app_ge by lia.
    f_equal. lia.
Qed.

(** The input fits into the block that was begun. *)
Lemma part_of_block buf0 msg input d r :
  length msg = (64 * d + r)%nat → (r < 64)%nat → zlen buf0 = 64 → take r buf0 = drop (64 * d) msg →
  zlen input < 64 - Z.of_nat r →
  ∃ buf, mem_copy buf0 (Z.of_nat r) input (zlen input) = Some buf ∧ zlen buf = 64 ∧
    (length (msg ++ input) / 64 = d)%nat ∧
    take (length (msg ++ input) mod 64) buf = drop (64 * (length (msg ++ input) / 64)) (msg ++ input).
Proof.
  intros Hlen Hr Hbuf Hrest Hlt. unfold zlen in Hlt.
  assert (Hlm : length (msg ++ input) = (length msg + length input)%nat) by apply length_app.
  assert (Hq : (length (msg ++ input) / 64 = d)%nat).
  { rewrite Hlm. symmetry. apply (Nat.div_unique _ _ _ (r + length input)); lia. }
  assert (Hm : (length (msg ++ input) mod 64 = r + length input)%nat).
  { rewrite Hlm. symmetry. apply (Nat.mod_unique _ _ d); lia. }
  unfold mem_copy. rewrite decide_True by (unfold zlen in *; lia). eexists. split_and!; [done| |done|].
  - rewrite !zlen_app, !zlen_take, zlen_drop by (unfold zlen in *; lia). lia.
  - assert (length (drop (64 * d) msg) = r) by (rewrite length_drop; lia).
    rewrite Hm, Hq, drop_app_le, Nat2Z.id, Hrest, (take_ge input) by (unfold zlen; lia).
    rewrite app_assoc. apply take_app_length'. rewrite length_app. lia.
Qed.

(** An update with [left] and [fill] computed. *)
Lemma update_streamed ctx msg input : streamed ctx msg → Forall is_byte input → zlen input < 2 ^ 32 →
  ∃ ctx', sha256_update ctx input = Some ctx' ∧ streamed ctx' (msg ++ input).
Proof.
  intros [Ht Hs Hok Hbuf Hrest Hby] Hbi Hl. unfold sha256_update.
  destruct (Z.eqb_spec (zlen input) 0) as [H0|H0].
  { exists ctx. split; [done|]. destruct input; [|done]. rewrite app_nil_r. done. }
  rewrite Ht. cbn [fst snd]. pose proof (zlen_nonneg msg). pose proof (zlen_nonneg input).
  rewrite left_is_rest by done. destruct (total_carry (zlen msg) (zlen input)) as [-> ->]; [lia..|].
  pose proof (Nat.div_mod_eq (length msg) 64) as Hdm. pose proof (Nat.mod_upper_bound (length msg) 64 ltac:(lia)) as Hr.
  set (d := (length msg / 64)%nat) in *. set (r := (length msg mod 64)%nat) in *.
  assert (Hleft : zlen msg `mod` 64 = Z.of_nat r).
  { unfold zlen. change 64 with (Z.of_nat 64). by rewrite <- Nat2Z.inj_mod. }
  rewrite Hleft, (u32_small (64 - _)) by lia.
  assert (Hball : Forall is_byte (msg ++ input)) by (by apply Forall_app).
  pose proof (length_app msg input) as Hlm.
  assert (Hfirst : state ctx = Fips.hash_blocks d Fips.initial (msg ++ input)) by (rewrite Hs, hash_blocks_app; done || lia).
  destruct (Z.eqb_spec (Z.of_nat r) 0) as [Hr0|Hr0]; cbn [negb andb mbind option_bind].
  - destruct (update_tail d (msg ++ input) (state ctx) (buffer ctx)) as (buf' & Hp & Hok' & Hb & Hlb & Htk);
      [exact Hok|exact Hfirst|exact Hball|exact Hbuf|lia|].
    assert (Hin : drop (64 * d) (msg ++ input) = input).
    { replace (64 * d)%nat with (length msg) by lia. apply drop_app_length. }
    rewrite Hin in Hp, Hb. rewrite Hr0, Hp. cbn [mbind option_bind]. rewrite Hb. cbn [mbind option_bind].
    eexists. split; [reflexivity|]. by apply streamed_after.
  - destruct (Z.leb_spec (64 - Z.of_nat r) (zlen input)) as [Hge|Hlt]; cbn [mbind option_bind].
    + destruct (fill_block (state ctx) (buffer ctx) msg input d r) as (buf & st1 & -> & Hp1 & Hok1 & Hst1 & Hlbuf & Hd1);
        [done|done|done|lia|lia|done..|].
      cbn [mbind option_bind]. rewrite Hp1. cbn [mbind option_bind].
      destruct (update_tail (d + 1) (msg ++ input) st1 buf) as (buf' & Hp & Hok' & Hb & Hlb & Htk);
        [exact Hok1|exact Hst1|exact Hball|exact Hlbuf|unfold zlen in Hge; lia|].
      rewrite Hd1 in Hp, Hb. rewrite Hp. cbn [mbind option_bind]. rewrite Hb. cbn [mbind option_bind].
      eexists. split; [reflexivity|]. by apply streamed_after.
    + rewrite (Z.div_small (zlen input)), (Z.mod_small (zlen input)) by lia.
      cbn [Z.to_nat sha256_process mbind option_bind Z.mul]. rewrite drop_0, (proj2 (Z.eqb_neq _ _) H0). cbn [negb].
      destruct (part_of_block (buffer ctx) msg input d r) as (buf & -> & Hlb & Hq & Htk); [lia|lia|done..|].
      eexists. split; [reflexivity|]. apply streamed_after; [done|by rewrite Hq|done..].
Qed.

Lemma be_bytes_add n m x : Fips.be_bytes (n + m) x = Fips.be_bytes n (x / 256 ^ Z.of_nat m) ++ Fips.be_bytes m x.
Proof.
  revert x. induction m as [|m IH]; intros x.
  - rewrite Nat.add_0_r, app_nil_r. by rewrite Z.pow_0_r, Z.div_1_r.
  - rewrite Nat.add_succ_r. cbn [Fips.be_bytes]. rewrite IH, app_assoc. f_equal. f_equal. f_equal.
    rewrite Z.div_div by lia. f_equal. rewrite Nat2Z.inj_succ, Z.pow_succ_r by lia. done.
Qed.

Lemma be_bytes_mod n x y : x `mod` 256 ^ Z.of_nat n = y `mod` 256 ^ Z.of_nat n → Fips.be_bytes n x = Fips.be_bytes n y.
Proof.
  revert x y. induction n as [|n IH]; intros x y Hxy; [done|]. cbn [Fips.be_bytes].
  rewrite Nat2Z.inj_succ, Z.pow_succ_r in Hxy by lia. rewrite !Z.rem_mul_r in Hxy by lia.
  pose proof (Z.mod_pos_bound x 256). pose proof (Z.mod_pos_bound y 256). f_equal.
  - apply IH. lia.
  - f_equal. lia.
Qed.

Lemma PUT_be_bytes n : PUT_UINT32_BE n = Fips.be_bytes 4 n.
Proof.
  unfold PUT_UINT32_BE. cbn [Fips.be_bytes app]. rewrite !Z.shiftr_div_pow2 by lia. rewrite !Z.div_div by lia. done.
Qed.

Lemma be_bytes_bytes n x : Forall is_byte (Fips.be_bytes n x).
Proof.
  revert x. induction n as [|n IH]; intros x; cbn [Fips.be_bytes]; [constructor|].
  apply Forall_app. split; [done|]. apply Forall_cons_2; [|constructor]. apply Z.mod_pos_bound. lia.
Qed.

Lemma length_be_bytes n x : length (Fips.be_bytes n x) = n.
Proof. revert x. induction n as [|n IH]; intros x; cbn [Fips.be_bytes]; [done|]. rewrite length_app, IH. cbn. lia. Qed.

(** The length in bits, put together from the two counters. *)
Lemma msglen_bytes len : 0 ≤ len < 2 ^ 61 →
  PUT_UINT32_BE (Z.lor (Z.shiftr (u32 len) 29) (u32 (Z.shiftl (u32 (len / 2 ^ 32)) 3))) ++
  PUT_UINT32_BE (u32 (Z.shiftl (u32 len) 3)) = Fips.be_bytes 8 (8 * len).
Proof.
  intros Hlen. rewrite !PUT_be_bytes, (be_bytes_add 4 4). f_equal.
  - f_equal. assert (Hq : 0 ≤ len / 2 ^ 32 < 2 ^ 29).
    { split; [apply Z.div_pos; lia|]. apply Z.div_lt_upper_bound; lia. }
    rewrite (u32_small (len / 2 ^ 32)) by lia. rewrite (u32_small (Z.shiftl _ _)) by (rewrite Z.shiftl_mul_pow2; lia).
    pose proof (Z.mod_pos_bound len (2 ^ 32) ltac:(lia)). unfold u32. rewrite Z.shiftr_div_pow2 by lia.
    rewrite Z.lor_comm, lor_shiftl.
    + pose proof (Z.div_mod len (2 ^ 32) ltac:(lia)) as E.
      set (q := len / 2 ^ 32) in *. set (r := len `mod` 2 ^ 32) in *. clearbody q r. subst len.
      change (256 ^ Z.of_nat 4) with (2 ^ 32). replace (8 * (2 ^ 32 * q + r)) with (8 * r + (8 * q) * 2 ^ 32) by lia.
      rewrite Z.div_add by lia. change (2 ^ 32) with (8 * 2 ^ 29) at 1. rewrite Z.div_mul_cancel_l by lia. lia.
    + lia.
    + split; [apply Z.div_pos; lia|]. apply Z.div_lt_upper_bound; lia.
  - apply be_bytes_mod. change (256 ^ Z.of_nat 4) with (2 ^ 32). unfold u32. rewrite Z.mod_mod by lia.
    rewrite Z.shiftl_mul_pow2 by lia. rewrite Zmult_mod_idemp_l. f_equal. lia.
Qed.

Lemma padding_bytes (len : Z) : 0 ≤ len →
  let last := Z.land (u32 len) 0x3F in
  take (Z.to_nat (if last <? 56 then u32 (56 - last) else u32 (120 - last))) sha256_padding =
  [0x80] ++ replicate (Z.to_nat ((55 - len) `mod` 64)) 0.
Proof.
  intros Hlen. cbv zeta. rewrite left_is_rest by done. pose proof (Z.mod_pos_bound len 64 ltac:(lia)).
  rewrite <- Zminus_mod_idemp_r. set (r := len `mod` 64) in *. clearbody r.
  assert (Hk : (if r <? 56 then u32 (56 - r) else u32 (120 - r)) = 1 + (55 - r) `mod` 64).
  { destruct (Z.ltb_spec r 56); rewrite u32_small by lia.
    - rewrite Z.mod_small; lia.
    - replace (55 - r) with (119 - r + (-1) * 64) by lia. rewrite Z.mod_add, Z.mod_small by lia. lia. }
  rewrite Hk. pose proof (Z.mod_pos_bound (55 - r) 64 ltac:(lia)).
  rewrite Z2Nat.inj_add by lia. change (Z.to_nat 1) with 1%nat. unfold sha256_padding. cbn [take Nat.add app].
  f_equal. rewrite take_replicate. f_equal. lia.
Qed.

Lemma finish_streamed ctx msg : streamed ctx msg → zlen msg < 2 ^ 61 → sha256_finish ctx = Some (Fips.sha256 msg).
Proof.
  intros Hs Hl. pose proof (zlen_nonneg msg). unfold sha256_finish. rewrite (sd_total _ _ Hs).
  rewrite padding_bytes, msglen_bytes by lia.
  destruct (update_streamed ctx msg ([0x80] ++ replicate (Z.to_nat ((55 - zlen msg) `mod` 64)) 0) Hs) as (c1 & -> & H1).
  { apply Forall_cons_2; [unfold is_byte; lia|]. apply Forall_replicate. unfold is_byte; lia. }
  { pose proof (Z.mod_pos_bound (55 - zlen msg) 64 ltac:(lia)). rewrite zlen_app, zlen_replicate by lia. change (zlen [0x80]) with 1. lia. }
  cbn [mbind option_bind].
  destruct (update_streamed c1 _ (Fips.be_bytes 8 (8 * zlen msg)) H1) as (c2 & -> & H2).
  { apply be_bytes_bytes. }
  { unfold zlen at 1. rewrite length_be_bytes. lia. }
  cbn [mbind option_bind]. f_equal. rewrite (sd_state _ _ H2). unfold Fips.sha256, Fips.pad.
  rewrite <- !app_assoc. f_equal. apply map_ext. apply PUT_be_bytes.
Qed.

(** ** Sums and HMAC *)

Lemma csum_loop {St} input chunk_sz fuel curr ctx me (s : St) : Forall is_byte input → zlen input < 2 ^ 32 → 0 < chunk_sz < 2 ^ 31 →
  0 ≤ curr ≤ zlen input → streamed ctx (take (Z.to_nat curr) input) → zlen input - curr < Z.of_nat fuel →
  ∃ c ctx', while_brk fuel (csum_step input chunk_sz) (curr, ctx) me s = Ret (c, ctx') s ∧ streamed ctx' input.
Proof.
  intros Hb Hl Hc. revert curr ctx. induction fuel as [|fuel IH]; intros curr ctx Hcur Hs Hf; [lia|].
  cbn [while_brk]. unfold bind at 1, csum_step at 1.
  destruct (Z.ltb_spec curr (zlen input)) as [Hlt|Hge]; cbn [negb].
  2:{ exists curr, ctx. split; [done|]. by rewrite take_ge in Hs by (unfold zlen in *; lia). }
  set (n := zlen input - curr) in *. set (chunk := if chunk_sz <? u32 (s32 n) then s32 chunk_sz else s32 n).
  assert (Hchunk : 0 < chunk ≤ n ∧ chunk < 2 ^ 31) by (apply chunk_range; lia).
  clearbody chunk. rewrite u32_small by lia. unfold bind. rewrite mem_read_ok by lia. cbn [some rbind ret].
  assert (Htake : take (Z.to_nat (curr + chunk)) input = take (Z.to_nat curr) input ++ zslice input curr chunk).
  { unfold zslice. rewrite Z2Nat.inj_add, <- take_take_drop by lia. done. }
  destruct (update_streamed ctx (take (Z.to_nat curr) input) (zslice input curr chunk) Hs) as (ctx' & -> & Hs').
  { by apply Forall_take, Forall_drop. }
  { rewrite zlen_zslice by lia. lia. }
  cbn [some rbind ret]. rewrite <- Htake in Hs'. apply IH; [lia|done|lia].
Qed.

Lemma sum_streamed buf input : zlen buf = 64 → Forall is_byte input → zlen input < 2 ^ 32 →
  ∃ ctx, sha256_update (sha256_starts buf) input = Some ctx ∧ streamed ctx input.
Proof. intros Hb Hi Hl. apply (update_streamed _ [] input); [by apply starts_streamed|done|done]. Qed.

(** RFC 2104 over the hash of the standard. *)
Definition hmac_reference (key msg : list Z) : list Z :=
  let k := if 64 <? zlen key then Fips.sha256 key else key in
  let k := k ++ replicate (64 - length k) 0 in
  let pad c := Z.lxor c <$> k in
  Fips.sha256 (pad 0x5C ++ Fips.sha256 (pad 0x36 ++ msg)).

Lemma sha256_bytes msg : Forall is_byte (Fips.sha256 msg).
Proof.
  unfold Fips.sha256. apply Forall_concat, Forall_fmap, Forall_true. intros x. apply be_bytes_bytes.
Qed.

Lemma length_hash_blocks n H msg : length H = 8%nat → length (Fips.hash_blocks n H msg) = 8%nat.
Proof.
  revert H msg. induction n as [|n IH]; intros H msg Hl; cbn [Fips.hash_blocks]; [done|]. apply IH.
  unfold Fips.compress. rewrite length_zip_with.
  assert (Hr : ∀ wks v, length v = 8%nat → length (foldl Fips.round v wks) = 8%nat).
  { induction wks as [|wk wks IHw]; intros v Hv; cbn [foldl]; [done|]. apply IHw.
    do 8 (destruct v as [|? v]; [done|]). by destruct v. }
  rewrite Hr by done. lia.
Qed.

Lemma length_sha256 msg : length (Fips.sha256 msg) = 32%nat.
Proof.
  unfold Fips.sha256. pose proof (length_hash_blocks (length (Fips.pad msg) / 64) Fips.initial (Fips.pad msg)) as Hl.
  revert Hl. generalize (Fips.hash_blocks (length (Fips.pad msg) / 64) Fips.initial (Fips.pad msg)).
  intros H Hl. specialize (Hl ltac:(by vm_compute)).
  do 8 (destruct H as [|? H]; [done|]). by destruct H.
Qed.

Lemma zip_replicate_take (f : Z → Z → Z) n c k : zip_with f (replicate n c) k = f c <$> take n k.
Proof. revert k. induction n as [|n IH]; intros [|x k]; cbn; [done..|]. by rewrite IH. Qed.

Lemma hmac_pad_reference k key n c : (length key ≤ 64)%nat → take (length key) k = key → n = zlen key →
  hmac_pad k n c = Z.lxor c <$> (key ++ replicate (64 - length key) 0).
Proof.
  intros Hl Hk ->. unfold hmac_pad, zlen. rewrite Nat2Z.id, fmap_app, fmap_replicate, Z.lxor_0_r. f_equal.
  rewrite zip_replicate_take, Hk. done.
Qed.

Lemma hmac_key_reference buf key : zlen buf = 64 → Forall is_byte key → zlen key < 2 ^ 32 →
  let k := if 64 <? zlen key then Fips.sha256 key else key in
  ∃ kb, hmac_key buf key = Some (kb, zlen k) ∧ take (length k) kb = k ∧ (length k ≤ 64)%nat ∧ Forall is_byte k.
Proof.
  intros Hb Hk Hl. unfold hmac_key. destruct (Z.ltb_spec 64 (zlen key)).
  - destruct (sum_streamed buf key Hb Hk Hl) as (ctx & -> & Hs). cbn [mbind option_bind].
    rewrite (finish_streamed _ _ Hs) by lia. cbn [mbind option_bind]. eexists. split.
    { unfold zlen. by rewrite length_sha256. }
    rewrite take_ge, length_sha256 by lia. split; [done|]. split; [lia|]. apply sha256_bytes.
  - eexists. split; [done|]. rewrite take_app_length. unfold zlen in *. split; [done|]. split; [lia|done].
Qed.

Lemma lxor_byte c b : is_byte c → is_byte b → is_byte (Z.lxor c b).
Proof. apply (lxor_range 8). lia. Qed.

(** Two messages hashed one after the other. *)
Lemma sum2 buf a b : zlen buf = 64 → Forall is_byte a → Forall is_byte b → zlen a = 64 → zlen b < 2 ^ 32 →
  (ctx ← sha256_update (sha256_starts buf) a; ctx ← sha256_update ctx b; sha256_finish ctx) = Some (Fips.sha256 (a ++ b)).
Proof.
  intros Hbuf Ha Hb Hla Hlb. destruct (sum_streamed buf a) as (c1 & -> & H1); [done|done|lia|]. cbn [mbind option_bind].
  destruct (update_streamed c1 a b H1 Hb Hlb) as (c2 & -> & H2). cbn [mbind option_bind].
  apply finish_streamed; [done|]. rewrite zlen_app. lia.
Qed.

(** The sum of a buffer, in any state. *)
Lemma csum_wd_sha256 {St} wdt buf input chunk_sz me (s : St) :
  zlen buf = 64 → Forall is_byte input → zlen input < 2 ^ 32 → 0 < chunk_sz < 2 ^ 31 →
  sha256_csum_wd wdt buf input chunk_sz me s = Ret (Fips.sha256 input) s.
Proof.
  intros Hb Hi Hl Hc. unfold sha256_csum_wd, bind at 1.
  assert (∃ c ctx, (if wdt then while_brk (S (length input)) (csum_step input chunk_sz) (0, sha256_starts buf)
                    else ctx ← some (sha256_update (sha256_starts buf) input); ret (0, ctx))%mon me s = Ret (c, ctx) s ∧
            streamed ctx input) as (c & ctx & -> & Hs).
  { destruct wdt.
    - apply csum_loop; [done..| |by apply starts_streamed|]; unfold zlen in *; lia.
    - unfold bind. destruct (sum_streamed buf input Hb Hi Hl) as (ctx & -> & Hs). by exists 0, ctx. }
  cbn [rbind]. by rewrite (finish_streamed _ _ Hs) by lia.
Qed.

(** C24: for every message of less than 2^32 bytes sha256_csum_wd() returns
    the SHA-256 of FIPS 180-4, with or without the watchdog, for chunks of any
    size from 1 to 2^31 - 1 (with 0 it would not end), whatever the contents of
    the memory its context is in; and sha256_hmac() returns the HMAC of RFC
    2104 over it for every key (the length of which is an int in the code). *)
Theorem sha256_meets_standard wdt buf key input chunk_sz me :
  zlen buf = 64 → Forall is_byte input → zlen input < 2 ^ 32 → 0 < chunk_sz < 2 ^ 31 →
  Forall is_byte key → zlen key < 2 ^ 32 →
  sha256_csum_wd wdt buf input chunk_sz me tt = Ret (Fips.sha256 input) tt ∧
  sha256_hmac buf key input = Some (hmac_reference key input).
Proof.
  intros Hb Hi Hl Hc Hk Hlk. split; [by apply csum_wd_sha256|].
  unfold sha256_hmac, hmac_reference. destruct (hmac_key_reference buf key Hb Hk Hlk) as (kb & -> & Hkb & Hkl & Hkby).
    set (k := if 64 <? zlen key then Fips.sha256 key else key) in *. cbn [mbind option_bind].
    rewrite !(hmac_pad_reference kb k) by done.
    assert (Hpb : ∀ c, is_byte c → Forall is_byte (Z.lxor c <$> (k ++ replicate (64 - length k) 0))).
    { intros c Hbc. apply Forall_fmap, Forall_app. split.
      - eapply Forall_impl; [exact Hkby|]. intros x Hx. by apply lxor_byte.
      - apply Forall_replicate. apply lxor_byte; [done|unfold is_byte; lia]. }
    assert (Hpl : ∀ c, zlen (Z.lxor c <$> (k ++ replicate (64 - length k) 0)) = 64).
    { intros c. unfold zlen. rewrite length_fmap, length_app, length_replicate. lia. }
    pose proof (sum2 buf _ input Hb (Hpb 0x36 ltac:(unfold is_byte; lia)) Hi (Hpl _) Hl) as H1.
    destruct (sha256_update (sha256_starts buf) (Z.lxor 0x36 <$> _)) as [c1|]; [|done]. cbn [mbind option_bind] in H1 |- *.
    destruct (sha256_update c1 input) as [c2|]; [|done]. cbn [mbind option_bind] in H1 |- *. rewrite H1.
    cbn [mbind option_bind].
    apply (sum2 buf); [done|apply Hpb; unfold is_byte; lia|apply sha256_bytes|done|unfold zlen; rewrite length_sha256; lia].
Qed.

Lemma sha256_meets_standard_witness :
  sha256_csum_wd true (replicate 64 0xaa) [97; 98; 99] 2 0 tt = Ret (Fips.sha256 [97; 98; 99]) tt ∧
  sha256_hmac (replicate 64 0) [1] [97; 98; 99] = Some (hmac_reference [1] [97; 98; 99]) ∧
  take 4 (Fips.sha256 [97; 98; 99]) = [0xba; 0x78; 0x16; 0xbf].
Proof.
  assert (Hb : Forall is_byte [97; 98; 99]) by (repeat apply Forall_cons_2; [unfold is_byte; lia..|constructor]).
  assert (Hk : Forall is_byte [1]) by (apply Forall_cons_2; [unfold is_byte; lia|constructor]).
  split; [|split; [|vm_compute; reflexivity]].
  - apply (sha256_meets_standard true (replicate 64 0xaa) [1] [97; 98; 99] 2 0); [reflexivity|done|reflexivity|lia|done|reflexivity].
  - apply (sha256_meets_standard true (replicate 64 0) [1] [97; 98; 99] 2 0); [reflexivity|done|reflexivity|lia|done|reflexivity].
Defined.
