(* ===== verification/Fip.v ===== *)
(** * Firmware image packages (board/mediatek/common/fip.c)

    A FIP is a table of contents and the images it lists by UUID.  init_fip()
    reads one, the other functions find, replace and write images.  A pointer
    to the contents of an image is an offset in the memory of the FIP or a
    buffer of the caller's. *)

From stdpp Require Import base list numbers list_numbers strings.
From Stdlib Require Import ZArith Lia.
From S2P Require Import Prelude Bytes Crc32 CStr Sha256.
Open Scope Z_scope.

Definition TOC_HEADER_NAME : Z := 0xAA640001.
Definition CHUNKSZ_CRC32 : Z := 64 * 1024.

(** ** UUIDs *)

Definition UUID_TRUSTED_UPDATE_FIRMWARE_SCP_BL2U : list Z :=
  [0x65; 0x92; 0x27; 0x03; 0x2f; 0x74; 0xe6; 0x44; 0x8d; 0xff; 0x57; 0x9a; 0xc1; 0xff; 0x06; 0x10].
Definition UUID_TRUSTED_UPDATE_FIRMWARE_BL2U : list Z :=
  [0x60; 0xb3; 0xeb; 0x37; 0xc1; 0xe5; 0xea; 0x41; 0x9d; 0xf3; 0x19; 0xed; 0xa1; 0x1f; 0x68; 0x01].
Definition UUID_TRUSTED_UPDATE_FIRMWARE_NS_BL2U : list Z :=
  [0x4f; 0x51; 0x1d; 0x11; 0x2b; 0xe5; 0x4e; 0x49; 0xb4; 0xc5; 0x83; 0xc2; 0xf7; 0x15; 0x84; 0x0a].
Definition UUID_TRUSTED_FWU_CERT : list Z :=
  [0x71; 0x40; 0x8a; 0xb2; 0x18; 0xd6; 0x87; 0x4c; 0x8b; 0x2e; 0xc6; 0xdc; 0xcd; 0x50; 0xf0; 0x96].
Definition UUID_TRUSTED_BOOT_FIRMWARE_BL2 : list Z :=
  [0x5f; 0xf9; 0xec; 0x0b; 0x4d; 0x22; 0x3e; 0x4d; 0xa5; 0x44; 0xc3; 0x9d; 0x81; 0xc7; 0x3f; 0x0a].
Definition UUID_SCP_FIRMWARE_SCP_BL2 : list Z :=
  [0x97; 0x66; 0xfd; 0x3d; 0x89; 0xbe; 0xe8; 0x49; 0xae; 0x5d; 0x78; 0xa1; 0x40; 0x60; 0x82; 0x13].
Definition UUID_EL3_RUNTIME_FIRMWARE_BL31 : list Z :=
  [0x47; 0xd4; 0x08; 0x6d; 0x4c; 0xfe; 0x98; 0x46; 0x9b; 0x95; 0x29; 0x50; 0xcb; 0xbd; 0x5a; 0x00].
Definition UUID_SECURE_PAYLOAD_BL32 : list Z :=
  [0x05; 0xd0; 0xe1; 0x89; 0x53; 0xdc; 0x13; 0x47; 0x8d; 0x2b; 0x50; 0x0a; 0x4b; 0x7a; 0x3e; 0x38].
Definition UUID_SECURE_PAYLOAD_BL32_EXTRA1 : list Z :=
  [0x0b; 0x70; 0xc2; 0x9b; 0x2a; 0x5a; 0x78; 0x40; 0x9f; 0x65; 0x0a; 0x56; 0x82; 0x73; 0x82; 0x88].
Definition UUID_SECURE_PAYLOAD_BL32_EXTRA2 : list Z :=
  [0x8e; 0xa8; 0x7b; 0xb1; 0xcf; 0xa2; 0x3f; 0x4d; 0x85; 0xfd; 0xe7; 0xbb; 0xa5; 0x02; 0x20; 0xd9].
Definition UUID_NON_TRUSTED_FIRMWARE_BL33 : list Z :=
  [0xd6; 0xd0; 0xee; 0xa7; 0xfc; 0xea; 0xd5; 0x4b; 0x97; 0x82; 0x99; 0x34; 0xf2; 0x34; 0xb6; 0xe4].
Definition UUID_REALM_MONITOR_MGMT_FIRMWARE : list Z :=
  [0x6c; 0x07; 0x62; 0xa6; 0x12; 0xf2; 0x4b; 0x56; 0x92; 0xcb; 0xba; 0x8f; 0x63; 0x36; 0x06; 0xd9].
Definition UUID_ROT_KEY_CERT : list Z :=
  [0x86; 0x2d; 0x1d; 0x72; 0xf8; 0x60; 0xe4; 0x11; 0x92; 0x0b; 0x8b; 0xe7; 0x62; 0x16; 0x0f; 0x24].
Definition UUID_TRUSTED_KEY_CERT : list Z :=
  [0x82; 0x7e; 0xe8; 0x90; 0xf8; 0x60; 0xe4; 0x11; 0xa1; 0xb4; 0x77; 0x7a; 0x21; 0xb4; 0xf9; 0x4c].
Definition UUID_SCP_FW_KEY_CERT : list Z :=
  [0x02; 0x42; 0x21; 0xa1; 0xf8; 0x60; 0xe4; 0x11; 0x8d; 0x9b; 0xf3; 0x3c; 0x0e; 0x15; 0xa0; 0x14].
Definition UUID_SOC_FW_KEY_CERT : list Z :=
  [0x8a; 0xb8; 0xbe; 0xcc; 0xf9; 0x60; 0xe4; 0x11; 0x9a; 0xd0; 0xeb; 0x48; 0x22; 0xd8; 0xdc; 0xf8].
Definition UUID_TRUSTED_OS_FW_KEY_CERT : list Z :=
  [0x94; 0x77; 0xd6; 0x03; 0xfb; 0x60; 0xe4; 0x11; 0x85; 0xdd; 0xb7; 0x10; 0x5b; 0x8c; 0xee; 0x04].
Definition UUID_NON_TRUSTED_FW_KEY_CERT : list Z :=
  [0x8a; 0xd5; 0x83; 0x2a; 0xfb; 0x60; 0xe4; 0x11; 0x8a; 0xaf; 0xdf; 0x30; 0xbb; 0xc4; 0x98; 0x59].
Definition UUID_TRUSTED_BOOT_FW_CERT : list Z :=
  [0xd6; 0xe2; 0x69; 0xea; 0x5d; 0x63; 0xe4; 0x11; 0x8d; 0x8c; 0x9f; 0xba; 0xbe; 0x99; 0x56; 0xa5].
Definition UUID_SCP_FW_CONTENT_CERT : list Z :=
  [0x44; 0xbe; 0x6f; 0x04; 0x5e; 0x63; 0xe4; 0x11; 0xb2; 0x8b; 0x73; 0xd8; 0xea; 0xae; 0x96; 0x56].
Definition UUID_SOC_FW_CONTENT_CERT : list Z :=
  [0xe2; 0xb2; 0x0c; 0x20; 0x5e; 0x63; 0xe4; 0x11; 0x9c; 0xe8; 0xab; 0xcc; 0xf9; 0x2b; 0xb6; 0x66].
Definition UUID_TRUSTED_OS_FW_CONTENT_CERT : list Z :=
  [0xa4; 0x9f; 0x44; 0x11; 0x5e; 0x63; 0xe4; 0x11; 0x87; 0x28; 0x3f; 0x05; 0x72; 0x2a; 0xf3; 0x3d].
Definition UUID_NON_TRUSTED_FW_CONTENT_CERT : list Z :=
  [0x8e; 0xc4; 0xc1; 0xf3; 0x5d; 0x63; 0xe4; 0x11; 0xa7; 0xa9; 0x87; 0xee; 0x40; 0xb2; 0x3f; 0xa7].
Definition UUID_SIP_SECURE_PARTITION_CONTENT_CERT : list Z :=
  [0x77; 0x6d; 0xfd; 0x44; 0x86; 0x97; 0x4c; 0x3b; 0x91; 0xeb; 0xc1; 0x3e; 0x02; 0x5a; 0x2a; 0x6f].
Definition UUID_PLAT_SECURE_PARTITION_CONTENT_CERT : list Z :=
  [0xdd; 0xcb; 0xbf; 0x4a; 0xca; 0xd6; 0x11; 0xea; 0x87; 0xd0; 0x02; 0x42; 0xac; 0x13; 0x00; 0x03].
Definition UUID_HW_CONFIG : list Z :=
  [0x08; 0xb8; 0xf1; 0xd9; 0xc9; 0xcf; 0x93; 0x49; 0xa9; 0x62; 0x6f; 0xbc; 0x6b; 0x72; 0x65; 0xcc].
Definition UUID_TB_FW_CONFIG : list Z :=
  [0x6c; 0x04; 0x58; 0xff; 0xaf; 0x6b; 0x7d; 0x4f; 0x82; 0xed; 0xaa; 0x27; 0xbc; 0x69; 0xbf; 0xd2].
Definition UUID_SOC_FW_CONFIG : list Z :=
  [0x99; 0x79; 0x81; 0x4b; 0x03; 0x76; 0xfb; 0x46; 0x8c; 0x8e; 0x8d; 0x26; 0x7f; 0x78; 0x59; 0xe0].
Definition UUID_TOS_FW_CONFIG : list Z :=
  [0x26; 0x25; 0x7c; 0x1a; 0xdb; 0xc6; 0x7f; 0x47; 0x8d; 0x96; 0xc4; 0xc4; 0xb0; 0x24; 0x80; 0x21].
Definition UUID_NT_FW_CONFIG : list Z :=
  [0x28; 0xda; 0x98; 0x15; 0x93; 0xe8; 0x7e; 0x44; 0xac; 0x66; 0x1a; 0xaf; 0x80; 0x15; 0x50; 0xf9].
Definition UUID_FW_CONFIG : list Z :=
  [0x58; 0x07; 0xe1; 0x6a; 0x84; 0x59; 0x47; 0xbe; 0x8e; 0xd5; 0x64; 0x8e; 0x8d; 0xdd; 0xab; 0x0e].
Definition UUID_FIP_CHKSUM : list Z :=
  [0xa2; 0xcc; 0xea; 0xb7; 0xf8; 0x25; 0x4b; 0x27; 0x97; 0x04; 0x63; 0x3a; 0x6f; 0xd6; 0x9a; 0xd8].
Definition UUID_NULL : list Z :=
  [0x0; 0x0; 0x0; 0x0; 0x0; 0x0; 0x0; 0x0; 0x0; 0x0; 0x0; 0x0; 0x0; 0x0; 0x0; 0x0].

(** ** Data *)

Record toc_entry := TocEntry { ent_desc : list Z; ent_uuid : list Z; ent_name : list Z }.

(** The table up to the entry without a name. *)
Definition toc_entries : list toc_entry := [
  TocEntry (str "SCP Firmware Updater Configuration FWU SCP_BL2U") UUID_TRUSTED_UPDATE_FIRMWARE_SCP_BL2U (str "scp-fwu-cfg");
  TocEntry (str "AP Firmware Updater Configuration BL2U") UUID_TRUSTED_UPDATE_FIRMWARE_BL2U (str "ap-fwu-cfg");
  TocEntry (str "Firmware Updater NS_BL2U") UUID_TRUSTED_UPDATE_FIRMWARE_NS_BL2U (str "fwu");
  TocEntry (str "Non-Trusted Firmware Updater certificate") UUID_TRUSTED_FWU_CERT (str "fwu-cert");
  TocEntry (str "Trusted Boot Firmware BL2") UUID_TRUSTED_BOOT_FIRMWARE_BL2 (str "tb-fw");
  TocEntry (str "SCP Firmware SCP_BL2") UUID_SCP_FIRMWARE_SCP_BL2 (str "scp-fw");
  TocEntry (str "EL3 Runtime Firmware BL31") UUID_EL3_RUNTIME_FIRMWARE_BL31 (str "soc-fw");
  TocEntry (str "Secure Payload BL32 (Trusted OS)") UUID_SECURE_PAYLOAD_BL32 (str "tos-fw");
  TocEntry (str "Secure Payload BL32 Extra1 (Trusted OS Extra1)") UUID_SECURE_PAYLOAD_BL32_EXTRA1 (str "tos-fw-extra1");
  TocEntry (str "Secure Payload BL32 Extra2 (Trusted OS Extra2)") UUID_SECURE_PAYLOAD_BL32_EXTRA2 (str "tos-fw-extra2");
  TocEntry (str "Non-Trusted Firmware BL33") UUID_NON_TRUSTED_FIRMWARE_BL33 (str "nt-fw");
  TocEntry (str "Realm Monitor Management Firmware") UUID_REALM_MONITOR_MGMT_FIRMWARE (str "rmm-fw");
  TocEntry (str "FW_CONFIG") UUID_FW_CONFIG (str "fw-config");
  TocEntry (str "HW_CONFIG") UUID_HW_CONFIG (str "hw-config");
  TocEntry (str "TB_FW_CONFIG") UUID_TB_FW_CONFIG (str "tb-fw-config");
  TocEntry (str "SOC_FW_CONFIG") UUID_SOC_FW_CONFIG (str "soc-fw-config");
  TocEntry (str "TOS_FW_CONFIG") UUID_TOS_FW_CONFIG (str "tos-fw-config");
  TocEntry (str "NT_FW_CONFIG") UUID_NT_FW_CONFIG (str "nt-fw-config");
  TocEntry (str "Root Of Trust key certificate") UUID_ROT_KEY_CERT (str "rot-cert");
  TocEntry (str "Trusted key certificate") UUID_TRUSTED_KEY_CERT (str "trusted-key-cert");
  TocEntry (str "SCP Firmware key certificate") UUID_SCP_FW_KEY_CERT (str "scp-fw-key-cert");
  TocEntry (str "SoC Firmware key certificate") UUID_SOC_FW_KEY_CERT (str "soc-fw-key-cert");
  TocEntry (str "Trusted OS Firmware key certificate") UUID_TRUSTED_OS_FW_KEY_CERT (str "tos-fw-key-cert");
  TocEntry (str "Non-Trusted Firmware key certificate") UUID_NON_TRUSTED_FW_KEY_CERT (str "nt-fw-key-cert");
  TocEntry (str "Trusted Boot Firmware BL2 certificate") UUID_TRUSTED_BOOT_FW_CERT (str "tb-fw-cert");
  TocEntry (str "SCP Firmware content certificate") UUID_SCP_FW_CONTENT_CERT (str "scp-fw-cert");
  TocEntry (str "SoC Firmware content certificate") UUID_SOC_FW_CONTENT_CERT (str "soc-fw-cert");
  TocEntry (str "Trusted OS Firmware content certificate") UUID_TRUSTED_OS_FW_CONTENT_CERT (str "tos-fw-cert");
  TocEntry (str "Non-Trusted Firmware content certificate") UUID_NON_TRUSTED_FW_CONTENT_CERT (str "nt-fw-cert");
  TocEntry (str "SiP owned Secure Partition content certificate") UUID_SIP_SECURE_PARTITION_CONTENT_CERT (str "sip-sp-cert");
  TocEntry (str "Platform owned Secure Partition content certificate") UUID_PLAT_SECURE_PARTITION_CONTENT_CERT (str "plat-sp-cert");
  TocEntry (str "FIP checksum data") UUID_FIP_CHKSUM (str "fip-chksum")
].

Record fip_toc_entry := FipTocEntry { te_uuid : list Z; offset_address : Z; te_size : Z; te_flags : Z }.

(** Where the contents of an image are: nowhere, at an offset of the memory of
    the FIP, or in another buffer. *)
Inductive image_data := DataNull | DataIn (off : Z) | DataBuf (bytes : list Z).

Record image_desc := ImageDesc {
  desc_uuid : list Z;
  desc_desc : list Z;
  desc_name : list Z;
  desc_data : image_data;
  toc_e : fip_toc_entry;
}.

(** [fip_data] is the memory from [data] on; the header is its beginning. *)
Record fip := Fip { images : list image_desc; fip_data : list Z; fip_size : Z }.

Definition set_images l f := Fip l (fip_data f) (fip_size f).
Definition set_fip_data d f := Fip (images f) d (fip_size f).
Definition set_fip_size n f := Fip (images f) (fip_data f) n.
Definition set_desc_data p d := ImageDesc (desc_uuid d) (desc_desc d) (desc_name d) p (toc_e d).
Definition set_toc_e t d := ImageDesc (desc_uuid d) (desc_desc d) (desc_name d) (desc_data d) t.
Definition set_te_size n t := FipTocEntry (te_uuid t) (offset_address t) n (te_flags t).
Definition set_te_offset n t := FipTocEntry (te_uuid t) n (te_size t) (te_flags t).

(** The global list and the number of allocations so far. *)
Record heap := Heap { common_image_desc_list : list image_desc; allocs : Z }.

Definition sizeof_fip_toc_header : Z := 16.
Definition sizeof_fip_toc_entry : Z := 40.
Definition sizeof_fip_checksum : Z := 40.
Definition FIP_MIN_SIZE : Z := sizeof_fip_toc_header + sizeof_fip_toc_entry.

(** A table entry and the checksum data in memory. *)
Definition entry_bytes (t : fip_toc_entry) : list Z :=
  te_uuid t ++ le_bytes 8 (offset_address t) ++ le_bytes 8 (te_size t) ++ le_bytes 8 (te_flags t).
Definition entry_of_bytes (b : list Z) : fip_toc_entry :=
  FipTocEntry (take 16 b) (le_val (take 8 (drop 16 b))) (le_val (take 8 (drop 24 b))) (le_val (take 8 (drop 32 b))).
Definition checksum_bytes (len crc : Z) (sha256sum : list Z) : list Z := le_bytes 4 len ++ le_bytes 4 crc ++ sha256sum.

Section Fip.
(** [calloc_ok] says whether an allocation succeeds, [wdt] whether the watchdog
    is configured, [DUAL_FIP] is CONFIG_MTK_DUAL_FIP, [stack] the memory a
    SHA-256 context is created in, [addr] the address of the memory that is
    summed. *)
Context (calloc_ok : Z → bool) (wdt DUAL_FIP : bool) (stack : list Z) (addr : Z).
Abbreviation F := (M heap).

(** ** The common descriptors *)

Definition free_image_descs : F unit := modify (λ h, Heap [] (allocs h)).

Definition calloc : F bool :=
  ok ← gets (λ h, calloc_ok (allocs h));
  modify (λ h, Heap (common_image_desc_list h) (allocs h + 1));;
  ret ok.

Fixpoint fill_image_descs_from (entries : list toc_entry) : F Z :=
  match entries with
  | [] => ret 0
  | e :: entries' =>
      ok ← calloc;
      if negb ok then free_image_descs;; ret (- ENOMEM)
      else
        let desc := ImageDesc (ent_uuid e) (ent_desc e) (ent_name e) DataNull
                      (FipTocEntry (replicate 16 0) 0 0 0) in
        modify (λ h, Heap (desc :: common_image_desc_list h) (allocs h));;
        fill_image_descs_from entries'
  end.

Definition fill_image_descs : F Z := fill_image_descs_from toc_entries.

Definition lookup_image_desc (uuid : list Z) : F (option image_desc) :=
  gets (λ h, snd <$> list_find (λ d, desc_uuid d = uuid) (common_image_desc_list h)).

(** ** Reading a package *)

(** What the loop over the table has collected. *)
Record parsed := Parsed { pd_off : Z; pd_images : list image_desc; pd_size : Z; pd_checksum : bool }.

(** The checks of the checksum entry: 0 or the error. *)
Definition check_fip_checksum (data : list Z) (t : fip_toc_entry) : F Z :=
  if te_size t <? sizeof_fip_checksum then ret (- EINVAL)
  else
    chksum ← some (mem_read data (offset_address t) sizeof_fip_checksum);
    let len := le_val (take 4 chksum) in
    let crc := le_val (take 4 (drop 4 chksum)) in
    if negb (len =? offset_address t) then ret (- EBADMSG)
    else
      covered ← some (mem_read data 0 len);
      c ← crc32_wd wdt addr 0 covered CHUNKSZ_CRC32;
      if negb (crc =? c) then ret (- EBADMSG)
      else
        sum ← sha256_csum_wd wdt stack covered CHUNKSZ_SHA256;
        if negb (bool_decide (drop 8 chksum = sum)) then ret (- EBADMSG) else ret 0.

(** A round of the loop: whether it is left, and the error with which. *)
Definition init_fip_step (data : list Z) (size : Z) (s : Z * parsed) : F (bool * (Z * parsed)) :=
  let p := s.2 in
  let off := pd_off p in
  if negb (off + sizeof_fip_toc_entry <=? size) then ret (true, (0, p))
  else if u64 (size - off) <? sizeof_fip_toc_entry then ret (true, (- EINVAL, p))
  else
    b ← some (mem_read data off sizeof_fip_toc_entry);
    let t := entry_of_bytes b in
    if bool_decide (te_uuid t = UUID_NULL) then
      if negb (te_size t =? 0) then ret (true, (- EINVAL, p))
      else if size <? offset_address t then ret (true, (- EINVAL, p))
      else ret (true, (0, p))
    else
      common ← lookup_image_desc (te_uuid t);
      match common with
      | None => ret (true, (- EINVAL, p))
      | Some common =>
          let value := u64 (offset_address t + te_size t) in
          if (value <? offset_address t) || (value <? te_size t) then ret (true, (- EOVERFLOW, p))
          else if size <? value then ret (true, (- EINVAL, p))
          else
            let fsize := if pd_size p <? value then value else pd_size p in
            let is_sum := bool_decide (te_uuid t = UUID_FIP_CHKSUM) in
            rc ← (if is_sum : bool then check_fip_checksum data t else ret 0);
            if negb (rc =? 0) then ret (true, (rc, p))
            else
              ok ← calloc;
              if negb ok then ret (true, (- ENOMEM, p))
              else
                let desc := set_toc_e t (set_desc_data (DataIn (offset_address t)) common) in
                ret (false, (0, Parsed (off + sizeof_fip_toc_entry) (pd_images p ++ [desc]) fsize
                                       (pd_checksum p || is_sum)))
      end.

(** [fip_ptr] says whether the pointer to the struct fip is not NULL, [data] is the
    memory from the other pointer on.  The package, if there is no error. *)
Definition init_fip (fip_ptr : bool) (data : list Z) (size : Z) : F (Z * option fip) :=
  rc ← fill_image_descs;
  if negb (rc =? 0) then ret (rc, None)
  else if negb fip_ptr then ret (- EINVAL, None)
  else
    let err rc := free_image_descs;; ret (rc, None) in
    if size <? FIP_MIN_SIZE then err (- EINVAL)
    else
      name ← some (rd32 data 0);
      if negb (name =? TOC_HEADER_NAME) then err (- EINVAL)
      else
        '(rc, p) ← while_brk (S (Z.to_nat (size / sizeof_fip_toc_entry))) (init_fip_step data size)
                     (0, Parsed sizeof_fip_toc_header [] 0 false);
        if negb (rc =? 0) then err rc
        else if DUAL_FIP && negb (pd_checksum p) then err (- EBADMSG)
        else ret (0, Some (Fip (pd_images p) data (if negb (pd_size p =? 0) then pd_size p else size))).

(** ** Finding images *)

(** The names that stand for another one. *)
Definition image_alias (name : list Z) : list Z :=
  let buffer := map (λ c, if (65 <=? c) && (c <=? 90) then c + 0x20 else c) name in
  if bool_decide (buffer = str "bl31") then str "soc-fw"
  else if bool_decide (buffer = str "bl33") then str "nt-fw"
  else if bool_decide (buffer = str "uboot") then str "nt-fw"
  else if bool_decide (buffer = str "u-boot") then str "nt-fw"
  else if bool_decide (buffer = str "bootloader") then str "nt-fw"
  else name.

(** The place of the descriptor in the list. *)
Definition fip_find_image_desc (f : fip) (name : list Z) : Z * option (nat * image_desc) :=
  if 255 <? zlen name then (- EINVAL, None)
  else
    match list_find (λ d, desc_name d = image_alias name) (images f) with
    | Some found => (0, Some found)
    | None => (- EINVAL, None)
    end.

(** The bytes at the pointer of a descriptor. *)
Definition data_at (f : fip) (p : image_data) : option (list Z) :=
  match p with
  | DataNull => None
  | DataIn off => Some (drop (Z.to_nat off) (fip_data f))
  | DataBuf b => Some b
  end.

Definition fip_get_image (f : fip) (name : list Z) : Z * option (image_data * Z) :=
  match fip_find_image_desc f name with
  | (rc, Some (_, d)) => (rc, Some (desc_data d, te_size (toc_e d)))
  | (rc, None) => (rc, None)
  end.

Definition fip_unpack (f : fip) (name data_out : list Z) (max_len : Z) : F (Z * list Z * option Z) :=
  match fip_find_image_desc f name with
  | (rc, None) => ret (rc, data_out, None)
  | (_, Some (_, d)) =>
      let size := te_size (toc_e d) in
      if max_len <? size then ret (- ENOBUFS, data_out, None)
      else
        src ← some (data_at f (desc_data d));
        out ← some (mem_copy data_out 0 src size);
        ret (0, out, Some size)
  end.

(** ** Replacing an image *)

(** The images behind the one at [base] of [sz] bytes are moved to follow it;
    the images before the first sum that wraps around, and the end. *)
Fixpoint move_images (base sz offset : Z) (l : list image_desc) : Z * Z * list image_desc :=
  match l with
  | [] => (0, offset, [])
  | next :: l' =>
      let next := set_toc_e (set_te_offset offset (toc_e next)) next in
      let offset := u64 (offset + te_size (toc_e next)) in
      if (offset <? base) || (offset <? sz) then (- EOVERFLOW, offset, next :: l')
      else let '(rc, e, l') := move_images base sz offset l' in (rc, e, next :: l')
  end.

Definition fip_update (f : fip) (name data_in : list Z) (size : Z) : Z * fip :=
  match fip_find_image_desc f name with
  | (rc, None) => (rc, f)
  | (_, Some (i, d)) =>
      let d := set_toc_e (set_te_size size (toc_e d)) (set_desc_data (DataBuf data_in) d) in
      let before := take i (images f) in
      let after := drop (S i) (images f) in
      let base := offset_address (toc_e d) in
      let offset := u64 (base + size) in
      let over := (offset <? base) || (offset <? size) in
      if bool_decide (after = []) then
        let f := set_fip_size offset (set_images (before ++ [d]) f) in
        (if over then - EOVERFLOW else 0, f)
      else if over then (- EOVERFLOW, set_images (before ++ d :: after) f)
      else
        let '(rc, e, after) := move_images base size offset after in
        let f := set_images (before ++ d :: after) f in
        if negb (rc =? 0) then (rc, f) else (0, set_fip_size e f)
  end.

(** ** Writing a package *)

(** The entries from [off] on, and the place behind them. *)
Fixpoint write_entries (out : list Z) (off : Z) (l : list image_desc) : F (list Z * Z) :=
  match l with
  | [] => ret (out, off)
  | d :: l' =>
      out ← some (mem_copy out off (entry_bytes (toc_e d)) sizeof_fip_toc_entry);
      write_entries out (off + sizeof_fip_toc_entry) l'
  end.

(** The checksum data over what is there before it. *)
Definition write_checksum (out : list Z) (t : fip_toc_entry) : F (list Z) :=
  let len := u32 (offset_address t) in
  covered ← some (mem_read out 0 len);
  crc ← crc32_wd wdt addr 0 covered CHUNKSZ_CRC32;
  sum ← sha256_csum_wd wdt stack covered CHUNKSZ_SHA256;
  out ← some (mem_fill out (offset_address t + sizeof_fip_checksum) (u64 (te_size t - sizeof_fip_checksum)) 0);
  some (mem_copy out (offset_address t) (checksum_bytes len crc sum) sizeof_fip_checksum).

Fixpoint write_images (f : fip) (out : list Z) (size : Z) (l : list image_desc) : F (list Z * Z) :=
  match l with
  | [] => ret (out, size)
  | d :: l' =>
      let t := toc_e d in
      out ← (if bool_decide (te_uuid t = UUID_FIP_CHKSUM) then write_checksum out t
             else
               src ← some (data_at f (desc_data d));
               some (mem_copy out (offset_address t) src (te_size t)));
      write_images f out (u64 (size + te_size t)) l'
  end.

(** The error, the buffer and the length that is reported. *)
Definition fip_create (f : fip) (out : list Z) (max_len : Z) : F (Z * list Z * option Z) :=
  if max_len <? fip_size f then ret (- ENOBUFS, out, None)
  else
    out ← some (mem_copy out 0 (fip_data f) sizeof_fip_toc_header);
    '(out, size) ← write_entries out sizeof_fip_toc_header (images f);
    out ← some (mem_copy out size (entry_bytes (FipTocEntry UUID_NULL (fip_size f) 0 0)) sizeof_fip_toc_entry);
    '(out, size) ← write_images f out (size + sizeof_fip_toc_entry) (images f);
    ret (0, out, Some size).

Definition fip_repack (f : fip) (data_swap : option (list Z)) (max_len : Z) : F (Z * fip * option (list Z)) :=
  if max_len <? fip_size f then ret (- ENOBUFS, f, data_swap)
  else
    match data_swap with
    | None => ret (- EINVAL, f, data_swap)
    | Some swap =>
        '(rc, swap, size) ← fip_create f swap (fip_size f);
        if negb (rc =? 0) then ret (rc, f, Some swap)
        else
          size ← some size;
          d ← some (mem_copy (fip_data f) 0 swap size);
          ret (0, set_fip_data d f, Some swap)
    end.
End Fip.
