(* ===== verification/FipSpec.v ===== *)
(** * Firmware image packages: which are accepted, and what is read from them *)

From stdpp Require Import base list numbers list_numbers strings.
From Stdlib Require Import ZArith Lia.
From S2P Require Import Prelude Bytes Crc32 CStr Sha256 Sha256Spec Fip.
Open Scope Z_scope.

(** ** The table of contents *)

Definition known (uuid : list Z) : option toc_entry := snd <$> list_find (λ e, ent_uuid e = uuid) toc_entries.

Definition common_desc (e : toc_entry) : image_desc :=
  ImageDesc (ent_uuid e) (ent_desc e) (ent_name e) DataNull (FipTocEntry (replicate 16 0) 0 0 0).

(** The descriptor of an entry whose UUID is that of [e]. *)
Definition entry_desc (e : toc_entry) (t : fip_toc_entry) : image_desc :=
  ImageDesc (ent_uuid e) (ent_desc e) (ent_name e) (DataIn (offset_address t)) t.

(** The checksum data at an entry is that of the bytes before it. *)
Definition checksum_ok (data : list Z) (t : fip_toc_entry) : bool :=
  let covered := take (Z.to_nat (offset_address t)) data in
  (sizeof_fip_checksum <=? te_size t) && (offset_address t <? 2 ^ 32) &&
  bool_decide (zslice data (offset_address t) sizeof_fip_checksum =
               checksum_bytes (offset_address t) (crc32 0 0 covered) (Fips.sha256 covered)).

(** An entry that is accepted: known, inside the package, and right if it is
    the checksum. *)
Definition entry_ok (data : list Z) (size : Z) (t : fip_toc_entry) : bool :=
  bool_decide (is_Some (known (te_uuid t))) && (offset_address t + te_size t <=? size) &&
  (negb (bool_decide (te_uuid t = UUID_FIP_CHKSUM)) || checksum_ok data t).

(** The entries from [off] on, up to the terminator or the end. *)
Fixpoint table (fuel : nat) (data : list Z) (size off : Z) : option (list fip_toc_entry) :=
  match fuel with
  | O => Some []
  | S fuel =>
      if size <? off + sizeof_fip_toc_entry then Some []
      else
        let t := entry_of_bytes (zslice data off sizeof_fip_toc_entry) in
        if bool_decide (te_uuid t = UUID_NULL) then
          if (te_size t =? 0) && (offset_address t <=? size) then Some [] else None
        else if entry_ok data size t then (t ::.) <$> table fuel data size (off + sizeof_fip_toc_entry)
        else None
  end.

Definition rounds (size : Z) : nat := S (Z.to_nat (size / sizeof_fip_toc_entry)).

Definition has_checksum (ts : list fip_toc_entry) : bool := existsb (λ t, bool_decide (te_uuid t = UUID_FIP_CHKSUM)) ts.

(** The highest end of an image. *)
Definition ends (n : Z) (ts : list fip_toc_entry) : Z := foldl (λ n t, Z.max n (offset_address t + te_size t)) n ts.

(** The images of the accepted entries. *)
Definition descs (ts : list fip_toc_entry) : list image_desc :=
  omap (λ t, (λ e, entry_desc e t) <$> known (te_uuid t)) ts.

(** ** The common descriptors *)

(** Every descriptor is one of the table, and there is one for each. *)
Record heap_ok (h : heap) : Prop := {
  ho_from : ∀ d, d ∈ common_image_desc_list h → ∃ e, e ∈ toc_entries ∧ d = common_desc e;
}.

Definition heap_full (h : heap) : Prop :=
  heap_ok h ∧ ∀ e, e ∈ toc_entries → common_desc e ∈ common_image_desc_list h.

Lemma uuids_unique : NoDup (ent_uuid <$> toc_entries).
Proof. apply (bool_decide_unpack (NoDup (ent_uuid <$> toc_entries))). vm_compute. done. Qed.

Lemma uuid_inj e e' : e ∈ toc_entries → e' ∈ toc_entries → ent_uuid e = ent_uuid e' → e = e'.
Proof.
  intros [i Hi]%list_elem_of_lookup [j Hj]%list_elem_of_lookup He.
  assert (i = j); [|by simplify_eq].
  apply (NoDup_lookup (ent_uuid <$> toc_entries) i j (ent_uuid e) uuids_unique); rewrite list_lookup_fmap.
  - by rewrite Hi.
  - by rewrite Hj, He.
Qed.

Lemma known_Some uuid e : known uuid = Some e ↔ e ∈ toc_entries ∧ ent_uuid e = uuid.
Proof.
  unfold known. split.
  - intros Hk. apply fmap_Some in Hk as ([i e'] & Hf & ->). apply list_find_Some in Hf as (Hi & Hu & _).
    split; [by eapply list_elem_of_lookup_2|done].
  - intros [He Hu]. destruct (list_find (λ e, ent_uuid e = uuid) toc_entries) as [[i e']|] eqn:Hf.
    + apply list_find_Some in Hf as (Hi & Hu' & _). cbn. f_equal.
      apply uuid_inj; [by eapply list_elem_of_lookup_2|done|congruence].
    + apply list_find_None in Hf. rewrite Forall_forall in Hf. by apply Hf in He.
Qed.

Lemma lookup_known uuid me h : heap_full h → lookup_image_desc uuid me h = Ret (common_desc <$> known uuid) h.
Proof.
  intros [[Hfrom] Hall]. unfold lookup_image_desc, gets. f_equal.
  destruct (list_find (λ d, desc_uuid d = uuid) (common_image_desc_list h)) as [[i d]|] eqn:Hf.
  - apply list_find_Some in Hf as (Hi & Hu & _). apply list_elem_of_lookup_2 in Hi.
    destruct (Hfrom d Hi) as (e & He & ->).
    assert (known uuid = Some e) as -> by (by apply known_Some). done.
  - apply list_find_None in Hf. rewrite Forall_forall in Hf.
    destruct (known uuid) as [e|] eqn:Hk; [|done]. apply known_Some in Hk as [He Hu].
    by destruct (Hf _ (Hall e He)).
Qed.

Section Init.
Context (calloc_ok : Z → bool) (wdt DUAL_FIP : bool) (stack : list Z) (addr : Z).
Context (stack_len : zlen stack = 64).
Abbreviation check_fip_checksum := (check_fip_checksum wdt stack addr).
Abbreviation init_fip_step := (init_fip_step calloc_ok wdt stack addr).
Abbreviation init_fip := (init_fip calloc_ok wdt DUAL_FIP stack addr).

Lemma fill_from es me h :
  (∃ h', fill_image_descs_from calloc_ok es me h = Ret 0 h' ∧
     common_image_desc_list h' = reverse (common_desc <$> es) ++ common_image_desc_list h) ∨
  (∃ h', fill_image_descs_from calloc_ok es me h = Ret (- ENOMEM) h' ∧ common_image_desc_list h' = [] ∧
     ∃ n, calloc_ok n = false).
Proof.
  revert h. induction es as [|e es IH]; intros h; cbn [fill_image_descs_from]; [left; by exists h|].
  unfold bind, calloc, bind, gets, modify, ret. cbn [rbind].
  destruct (calloc_ok (allocs h)) eqn:Hok; cbn [negb].
  - cbn [rbind]. destruct (IH (Heap (common_desc e :: common_image_desc_list h) (allocs h + 1))) as [(h' & Hr & Hc)|(h' & Hr & Hc)].
    + left. exists h'. split; [exact Hr|]. rewrite Hc, fmap_cons, reverse_cons. by rewrite <- app_assoc.
    + right. by exists h'.
  - right. eexists. split; [done|]. split; [done|]. by exists (allocs h).
Qed.

Lemma fill_full me h : heap_ok h →
  (∃ h', fill_image_descs calloc_ok me h = Ret 0 h' ∧ heap_full h') ∨
  (∃ h', fill_image_descs calloc_ok me h = Ret (- ENOMEM) h' ∧ common_image_desc_list h' = [] ∧
     ∃ n, calloc_ok n = false).
Proof.
  intros [Hfrom]. destruct (fill_from toc_entries me h) as [(h' & Hr & Hc)|H]; [|by right]. left. exists h'.
  split; [exact Hr|]. split; [split|]; rewrite Hc.
  - intros d [Hd|Hd]%elem_of_app; [|auto]. rewrite elem_of_reverse in Hd. apply list_elem_of_fmap in Hd as (e & -> & He). eauto.
  - intros e He. apply elem_of_app. left. rewrite elem_of_reverse. by apply list_elem_of_fmap_2.
Qed.

(** ** Entries *)

(** [data] is memory that holds a package of [size] bytes. *)
Record memory (data : list Z) (size : Z) : Prop := {
  me_bytes : Forall is_byte data;
  me_size : 0 ≤ size ≤ zlen data;
  me_max : size < 2 ^ 63;
}.

Lemma zlen_sha256 msg : zlen (Fips.sha256 msg) = 32.
Proof. unfold zlen. by rewrite length_sha256. Qed.

Lemma crc32_range addr' buf : Forall is_byte buf → 0 ≤ crc32 addr' 0 buf < 2 ^ 32.
Proof.
  intros Hb. unfold crc32. rewrite crc32_no_comp_bytes by done. rewrite Z.lxor_0_l.
  apply lxor_range; [lia|apply crc32_bytes_range; lia|lia].
Qed.

(** 40 bytes that hold a length, a CRC and a sum. *)
Lemma checksum_parts b len crc sum : length b = 40%nat → Forall is_byte b → 0 ≤ len < 2 ^ 32 → 0 ≤ crc < 2 ^ 32 → zlen sum = 32 →
  b = checksum_bytes len crc sum ↔ le_val (take 4 b) = len ∧ le_val (take 4 (drop 4 b)) = crc ∧ drop 8 b = sum.
Proof.
  intros Hl Hb Hlen Hcrc Hsum. unfold checksum_bytes. split.
  - intros ->. rewrite take_app_length' by (by rewrite length_le_bytes). rewrite drop_app_length' by (by rewrite length_le_bytes).
    rewrite take_app_length' by (by rewrite length_le_bytes). rewrite !le_val_bytes, !Z.mod_small by lia. split_and!; [done..|].
    rewrite app_assoc. apply drop_app_length'. by rewrite length_app, !length_le_bytes.
  - intros (H1 & H2 & H3). rewrite <- (take_drop 4 b), <- (take_drop 4 (drop 4 b)), drop_drop. rewrite <- H3. f_equal; [|f_equal].
    + rewrite <- H1. rewrite <- (le_bytes_val (take 4 b)) at 1 by (by apply Forall_take). by rewrite length_take, Hl.
    + rewrite <- H2. rewrite <- (le_bytes_val (take 4 (drop 4 b))) at 1 by (by apply Forall_take, Forall_drop).
      by rewrite length_take, length_drop, Hl.
Qed.

Lemma check_checksum_run data size t me h : memory data size →
  0 ≤ offset_address t → 0 ≤ te_size t → offset_address t + te_size t ≤ size →
  ∃ rc, check_fip_checksum data t me h = Ret rc h ∧ rc ≤ 0 ∧ rc ≠ - ENOMEM ∧ (rc = 0 ↔ checksum_ok data t = true).
Proof.
  intros [Hb Hs Hm] Ho Ht Hin. unfold Fip.check_fip_checksum, checksum_ok.
  destruct (Z.ltb_spec (te_size t) sizeof_fip_checksum) as [Hlt|Hge].
  { exists (- EINVAL). split; [done|]. split; [done|]. split; [done|]. destruct (Z.leb_spec sizeof_fip_checksum (te_size t)); [lia|]. done. }
  unfold sizeof_fip_checksum in *. unfold bind. rewrite mem_read_ok by lia. cbn [some rbind ret].
  destruct (Z.leb_spec 40 (te_size t)) as [_|]; [|lia]. cbn [andb].
  set (b := zslice data (offset_address t) 40).
  assert (Hlb : length b = 40%nat).
  { unfold b, zslice, zlen in *. rewrite length_take, length_drop. lia. }
  assert (Hbb : Forall is_byte b) by (unfold b, zslice; by apply Forall_take, Forall_drop).
  assert (Hrange : 0 ≤ le_val (take 4 b) < 2 ^ 32).
  { pose proof (le_val_range (take 4 b) ltac:(by apply Forall_take)) as Hr. unfold zlen in Hr. rewrite length_take, Hlb in Hr. exact Hr. }
  destruct (Z.eqb_spec (le_val (take 4 b)) (offset_address t)) as [Hlen|Hlen]; cbn [negb].
  2:{ exists (- EBADMSG). split; [done|]. split; [done|]. split; [done|]. split; [done|]. intros [Hlt Heq]%andb_true_iff. apply Z.ltb_lt in Hlt.
      apply bool_decide_eq_true in Heq.
      apply checksum_parts in Heq; [by destruct Heq|done..|lia| |apply zlen_sha256].
      apply crc32_range. by apply Forall_take. }
  assert (Hlt : offset_address t < 2 ^ 32) by lia. apply Z.ltb_lt in Hlt. rewrite Hlt. apply Z.ltb_lt in Hlt. cbn [andb].
  rewrite Hlen, mem_read_ok by lia. cbn [some rbind ret]. unfold zslice at 1. rewrite drop_0.
  set (cov := take (Z.to_nat (offset_address t)) data).
  assert (Hcb : Forall is_byte cov) by (by apply Forall_take).
  assert (Hcl : zlen cov = offset_address t) by (apply zlen_take; lia).
  rewrite (crc32_wd_crc32 wdt addr cov) by (done || unfold CHUNKSZ_CRC32; lia). cbn [rbind].
  pose proof (checksum_parts b (offset_address t) (crc32 0 0 cov) (Fips.sha256 cov) Hlb Hbb ltac:(lia)
                (crc32_range 0 cov Hcb) (zlen_sha256 cov)) as Hparts.
  destruct (Z.eqb_spec (le_val (take 4 (drop 4 b))) (crc32 0 0 cov)) as [Hcrc|Hcrc]; cbn [negb].
  2:{ exists (- EBADMSG). split; [done|]. split; [done|]. split; [done|]. split; [done|]. intros Heq%bool_decide_eq_true. tauto. }
  rewrite (csum_wd_sha256 wdt stack cov) by (done || unfold CHUNKSZ_SHA256; lia). cbn [rbind].
  destruct (bool_decide_reflect (drop 8 b = Fips.sha256 cov)) as [Hsum|Hsum]; cbn [negb].
  - exists 0. split; [done|]. split; [done|]. split; [done|]. split; [|done]. intros _. apply bool_decide_eq_true. tauto.
  - exists (- EBADMSG). split; [done|]. split; [done|]. split; [done|]. split; [done|]. intros Heq%bool_decide_eq_true. tauto.
Qed.

Lemma le_val_take_range b n k : Forall is_byte b → 0 ≤ le_val (take n (drop k b)) < 256 ^ Z.of_nat n.
Proof.
  intros Hb. pose proof (le_val_range (take n (drop k b)) ltac:(by apply Forall_take, Forall_drop)) as Hr.
  pose proof (firstn_le_length n (drop k b)) as Hl. unfold zlen in Hr. split; [lia|].
  eapply Z.lt_le_trans; [apply Hr|]. apply Z.pow_le_mono_r; lia.
Qed.

Lemma heap_full_alloc h n : heap_full h → heap_full (Heap (common_image_desc_list h) n).
Proof. intros [[Hf] Ha]. by split; [split|]. Qed.

(** What a run of the loop with the result [r] has done. *)
Definition loop_result (r : res heap (Z * parsed)) (p : parsed) (ts : option (list fip_toc_entry)) : Prop :=
  ∃ rc p' h', r = Ret (rc, p') h' ∧ heap_full h' ∧ rc ≤ 0 ∧ (rc = - ENOMEM → ∃ n, calloc_ok n = false) ∧
    match ts with
    | None => rc < 0
    | Some ts => rc = - ENOMEM ∨ rc = 0 ∧ pd_images p' = pd_images p ++ descs ts ∧ pd_size p' = ends (pd_size p) ts ∧
                 pd_checksum p' = pd_checksum p || has_checksum ts
    end.

Lemma table_end p h : heap_full h → loop_result (Ret (0, p) h) p (Some []).
Proof.
  intros Hh. exists 0, p, h. split; [done|]. split; [done|]. split; [lia|]. split; [done|]. right.
  unfold descs, ends, has_checksum. cbn. by rewrite app_nil_r, orb_false_r.
Qed.

Lemma table_bad rc p h : heap_full h → rc < 0 → rc ≠ - ENOMEM → loop_result (Ret (rc, p) h) p None.
Proof. intros Hh Hrc Hne. exists rc, p, h. split_and!; [done|done|lia|done|done]. Qed.

(** The loop over the table, from any round on. *)
Lemma init_loop data size fuel p me h : memory data size → heap_full h →
  0 ≤ pd_off p → size - pd_off p < 40 * Z.of_nat fuel → (0 < fuel)%nat →
  loop_result (while_brk fuel (init_fip_step data size) (0, p) me h) p (table fuel data size (pd_off p)).
Proof.
  intros Hmem Hfull. revert p h Hfull. induction fuel as [|fuel IH]; intros p h Hfull Hoff Hf Hpos; [lia|]. clear Hpos.
  cbn [while_brk table]. unfold bind at 1, Fip.init_fip_step at 1. cbn [snd]. unfold sizeof_fip_toc_entry in *.
  pose proof Hmem as [Hb Hs Hm].
  rewrite Z.leb_antisym, negb_involutive. destruct (Z.ltb_spec size (pd_off p + 40)) as [Hend|Hin].
  { by apply table_end. }
  rewrite u64_small by lia. destruct (Z.ltb_spec (size - pd_off p) 40) as [|_]; [lia|].
  unfold bind at 1. rewrite mem_read_ok by lia. cbn [some rbind ret].
  set (b := zslice data (pd_off p) 40). assert (Hbb : Forall is_byte b) by (by apply Forall_take, Forall_drop).
  set (t := entry_of_bytes b).
  assert (Ho : 0 ≤ offset_address t < 2 ^ 64) by (apply (le_val_take_range b 8 16 Hbb)).
  assert (Ht : 0 ≤ te_size t < 2 ^ 64) by (apply (le_val_take_range b 8 24 Hbb)).
  clearbody t. clear b Hbb.
  destruct (bool_decide_reflect (te_uuid t = UUID_NULL)) as [Hnull|Hnull].
  { destruct (Z.eqb_spec (te_size t) 0); cbn [negb andb]; [|by apply table_bad].
    rewrite Z.leb_antisym. destruct (Z.ltb_spec size (offset_address t)); cbn [negb]; [by apply table_bad|].
    by apply table_end. }
  unfold bind at 1. rewrite lookup_known by done. cbn [rbind]. unfold entry_ok.
  destruct (known (te_uuid t)) as [e|] eqn:Hk; cbn [fmap option_fmap option_map].
  2:{ by apply table_bad. }
  rewrite (bool_decide_eq_true_2 (is_Some (Some e))) by eauto. cbn [andb].
  destruct (decide (offset_address t + te_size t < 2 ^ 64)) as [Hno|Hover].
  2:{ assert (Hv : u64 (offset_address t + te_size t) = offset_address t + te_size t - 2 ^ 64).
      { unfold u64. replace (offset_address t + te_size t) with (offset_address t + te_size t - 2 ^ 64 + 1 * 2 ^ 64) by lia.
        rewrite Z.mod_add, Z.mod_small by lia. lia. }
      rewrite Hv. destruct (Z.ltb_spec (offset_address t + te_size t - 2 ^ 64) (offset_address t)); [|lia]. cbn [orb].
      destruct (Z.leb_spec (offset_address t + te_size t) size); [lia|]. cbn [andb]. by apply table_bad. }
  rewrite u64_small by lia. destruct (Z.ltb_spec (offset_address t + te_size t) (offset_address t)); [lia|].
  destruct (Z.ltb_spec (offset_address t + te_size t) (te_size t)); [lia|]. cbn [orb].
  rewrite Z.leb_antisym. destruct (Z.ltb_spec size (offset_address t + te_size t)) as [|Hfit]; cbn [negb andb].
  { by apply table_bad. }
  unfold bind at 1.
  assert (∃ rc, (if bool_decide (te_uuid t = UUID_FIP_CHKSUM) then check_fip_checksum data t else ret 0) me h = Ret rc h ∧
     rc ≤ 0 ∧ rc ≠ - ENOMEM ∧
     (rc = 0 ↔ negb (bool_decide (te_uuid t = UUID_FIP_CHKSUM)) || checksum_ok data t = true)) as (rc & -> & Hneg & Hne & Hrc).
  { destruct (bool_decide (te_uuid t = UUID_FIP_CHKSUM)); [|by exists 0].
    apply (check_checksum_run data size); [done|lia..]. }
  cbn [rbind]. destruct (Z.eqb_spec rc 0) as [->|Hnz]; cbn [negb].
  2:{ destruct (negb _ || _) eqn:Hc; [by destruct (Hnz (proj2 Hrc eq_refl))|].
      apply table_bad; [done|lia|done]. }
  rewrite (proj1 Hrc eq_refl). unfold bind at 1, calloc, bind, gets, modify, ret. cbn [rbind].
  destruct (calloc_ok (allocs h)) eqn:Hok; cbn [negb rbind].
  2:{ exists (- ENOMEM), p. eexists. split; [done|]. split; [by apply heap_full_alloc|].
      split; [done|]. split; [by exists (allocs h)|].
      destruct (table fuel data size (pd_off p + 40)); cbn; [by left|done]. }
  set (p1 := Parsed _ _ _ _).
  destruct (IH p1 (Heap (common_image_desc_list h) (allocs h + 1))) as (rc & p' & h' & Hrun & Hh' & Hle & Hmem' & Hres);
    [by apply heap_full_alloc|cbn; lia|cbn; lia|lia|].
  exists rc, p', h'. split; [exact Hrun|]. split; [done|]. split; [done|]. split; [done|].
  cbn [p1 pd_off] in Hres. destruct (table fuel data size (pd_off p + 40)) as [ts|]; cbn [fmap option_fmap option_map]; [|done].
  destruct Hres as [?|(? & Hi & Hsz & Hc)]; [by left|right]. split; [done|]. cbn [p1 pd_images pd_size pd_checksum] in Hi, Hsz, Hc.
  rewrite Hi, Hsz, Hc. split; [|split].
  - rewrite <- app_assoc. f_equal. unfold descs. cbn [omap list_omap]. rewrite Hk. cbn. f_equal.
  - unfold ends. cbn [foldl]. f_equal. destruct (Z.ltb_spec (pd_size p) (offset_address t + te_size t)); lia.
  - unfold has_checksum. cbn [existsb]. by rewrite orb_assoc.
Qed.

(** ** Packages *)

(** The entries of a package that is accepted. *)
Definition package (data : list Z) (size : Z) : option (list fip_toc_entry) :=
  if size <? FIP_MIN_SIZE then None
  else if negb (le_val (take 4 data) =? TOC_HEADER_NAME) then None
  else
    match table (rounds size) data size sizeof_fip_toc_header with
    | Some ts => if DUAL_FIP && negb (has_checksum ts) then None else Some ts
    | None => None
    end.

Definition parsed_fip (data : list Z) (size : Z) (ts : list fip_toc_entry) : fip :=
  Fip (descs ts) data (if negb (ends 0 ts =? 0) then ends 0 ts else size).

Lemma heap_empty_ok n : heap_ok (Heap [] n).
Proof. split. cbn. intros d Hd. by apply elem_of_nil in Hd. Qed.

Lemma init_fip_run data size me h : memory data size → heap_ok h →
  ∃ rc f h', init_fip true data size me h = Ret (rc, f) h' ∧ heap_ok h' ∧ (rc = - ENOMEM → ∃ n, calloc_ok n = false) ∧
    (rc ≠ 0 → rc < 0 ∧ f = None ∧ common_image_desc_list h' = []) ∧
    match package data size with
    | None => rc ≠ 0
    | Some ts => rc = - ENOMEM ∨ rc = 0 ∧ f = Some (parsed_fip data size ts)
    end.
Proof.
  intros Hmem Hh. pose proof Hmem as [Hb Hs Hm]. unfold Fip.init_fip, bind at 1.
  destruct (fill_full me h Hh) as [(h1 & -> & Hfull)|(h1 & -> & Hnil & Hno)]; cbn [rbind].
  2:{ exists (- ENOMEM), None, h1. split; [done|]. split; [destruct h1; cbn in Hnil; subst; apply heap_empty_ok|].
      split; [done|]. split; [done|]. destruct (package data size); [by left|done]. }
  change (negb (0 =? 0)) with false. cbn match. unfold package, free_image_descs, modify.
  destruct (Z.ltb_spec size FIP_MIN_SIZE) as [|Hmin]; cbn [bind rbind].
  { exists (- EINVAL), None. eexists. split; [done|]. split; [apply heap_empty_ok|]. done. }
  unfold FIP_MIN_SIZE, sizeof_fip_toc_header, sizeof_fip_toc_entry in Hmin.
  unfold bind at 1, rd32. rewrite mem_read_ok by lia. cbn [fmap option_fmap option_map some rbind ret].
  unfold zslice. rewrite drop_0. change (Z.to_nat 4) with 4%nat.
  destruct (Z.eqb_spec (le_val (take 4 data)) TOC_HEADER_NAME); cbn [negb].
  2:{ exists (- EINVAL), None. eexists. split; [done|]. split; [apply heap_empty_ok|]. done. }
  unfold bind at 1. destruct (init_loop data size (rounds size) (Parsed sizeof_fip_toc_header [] 0 false) me h1)
    as (rc & p & h2 & Hrun & Hf2 & Hle & Hnomem & Hres); [done|done|done| |unfold rounds; lia|].
  { cbn [pd_off]. unfold rounds, sizeof_fip_toc_header, sizeof_fip_toc_entry. pose proof (Z.div_mod size 40 ltac:(lia)).
    pose proof (Z.mod_pos_bound size 40 ltac:(lia)). pose proof (Z.div_pos size 40). lia. }
  unfold rounds in Hrun. rewrite Hrun. cbn [rbind pd_off pd_images pd_size pd_checksum] in Hres |- *.
  destruct (Z.eqb_spec rc 0) as [->|Hnz]; cbn [negb].
  2:{ exists rc, None. eexists. split; [done|]. split; [apply heap_empty_ok|]. split; [done|].
      split; [intros _; split; [lia|done]|]. destruct (table _ _ _ _); [|done].
      destruct Hres as [->|[]]; [|done]. destruct (DUAL_FIP && _); [done|by left]. }
  destruct (table _ _ _ _) as [ts|]; [|lia]. destruct Hres as [|(_ & Hi & Hsz & Hc)]; [done|]. cbn [app orb] in Hi, Hc.
  rewrite Hc. destruct (DUAL_FIP && negb (has_checksum ts)).
  - exists (- EBADMSG), None. eexists. split; [done|]. split; [apply heap_empty_ok|]. done.
  - eexists 0, _, h2. split; [done|]. split; [apply Hf2|]. split; [done|]. split; [done|]. right. split; [done|].
    unfold parsed_fip. by rewrite Hi, Hsz.
Qed.

(** ** Where the images lie *)

Lemma table_ok fuel data size off ts t : table fuel data size off = Some ts → t ∈ ts → entry_ok data size t = true.
Proof.
  revert off ts. induction fuel as [|fuel IH]; intros off ts; cbn [table].
  { intros [= <-] Ht. by apply elem_of_nil in Ht. }
  destruct (_ <? _); [intros [= <-] Ht; by apply elem_of_nil in Ht|].
  destruct (bool_decide _).
  { destruct (_ && _); [|done]. intros [= <-] Ht. by apply elem_of_nil in Ht. }
  destruct (entry_ok _ _ (entry_of_bytes _)) eqn:He; [|done]. intros Hts Ht. apply fmap_Some in Hts as (ts' & Hts & ->).
  apply elem_of_cons in Ht as [->|Ht]; [done|]. eauto.
Qed.

Lemma ends_mono n ts : n ≤ ends n ts ∧ ∀ t, t ∈ ts → offset_address t + te_size t ≤ ends n ts.
Proof.
  revert n. induction ts as [|t ts IH]; intros n; unfold ends; cbn [foldl].
  { split; [lia|]. intros t Ht. by apply elem_of_nil in Ht. }
  destruct (IH (Z.max n (offset_address t + te_size t))) as [H1 H2]. unfold ends in *. split; [lia|].
  intros t' Ht'. apply elem_of_cons in Ht' as [->|Ht']; [lia|auto].
Qed.

Lemma ends_bound n ts b : n ≤ b → (∀ t, t ∈ ts → offset_address t + te_size t ≤ b) → ends n ts ≤ b.
Proof.
  revert n. induction ts as [|t ts IH]; intros n Hn Hts; unfold ends; cbn [foldl]; [done|].
  apply IH; [|intros t' Ht'; apply Hts; by right]. specialize (Hts t ltac:(by left)). lia.
Qed.

(** C10: init_fip() on any memory of less than 2^63 bytes returns.  If every
    allocation succeeds and the struct fip is not NULL, it accepts exactly the
    packages with the right name, a table of known images inside the package, a
    right checksum where there is one, and one if CONFIG_MTK_DUAL_FIP is set;
    it returns -ENOMEM only if an allocation failed.  The images it gives are
    those of the table, in its order, each with the name of its UUID, and lie
    in the package.  After an error no common descriptor is left, except that a
    NULL struct fip, which is checked after they have been added, leaves one
    for every known image. *)
Theorem init_fip_accepts ptr data size me h : memory data size → heap_ok h →
  ∃ rc f h', init_fip ptr data size me h = Ret (rc, f) h' ∧ heap_ok h' ∧
    ((∀ n, calloc_ok n = true) → rc = 0 ↔ ptr = true ∧ is_Some (package data size)) ∧
    (rc = - ENOMEM → ∃ n, calloc_ok n = false) ∧
    (rc ≠ 0 → rc < 0 ∧ f = None ∧
       (common_image_desc_list h' = [] ∨
        ptr = false ∧ rc = - EINVAL ∧ ∀ e, e ∈ toc_entries → common_desc e ∈ common_image_desc_list h')) ∧
    (rc = 0 → ∃ ts, package data size = Some ts ∧ f = Some (parsed_fip data size ts) ∧ ends 0 ts ≤ size ∧
       ∀ d, d ∈ descs ts → toc_e d ∈ ts ∧ desc_data d = DataIn (offset_address (toc_e d)) ∧
         offset_address (toc_e d) + te_size (toc_e d) ≤ ends 0 ts ∧
         ∃ e, e ∈ toc_entries ∧ ent_uuid e = te_uuid (toc_e d) ∧ ent_name e = desc_name d).
Proof.
  intros Hmem Hh. destruct ptr.
  2:{ unfold Fip.init_fip, bind. destruct (fill_full me h Hh) as [(h1 & -> & Hfull)|(h1 & -> & Hnil & Hno)]; cbn [rbind].
      - exists (- EINVAL), None, h1. split; [done|]. split; [apply Hfull|]. split; [intros _; split; [done|by intros [? _]]|].
        split; [done|]. split; [|done]. intros _. split; [done|]. split; [done|]. right. split; [done|]. split; [done|]. apply Hfull.
      - exists (- ENOMEM), None, h1. split; [done|]. split; [destruct h1; cbn in Hnil; subst; apply heap_empty_ok|].
        split; [intros _; split; [done|by intros [? _]]|]. split; [done|]. split; [|done]. intros _. split; [done|]. split; [done|]. by left. }
  destruct (init_fip_run data size me h Hmem Hh) as (rc & f & h' & Hrun & Hh' & Hno & Hbad & Hres).
  exists rc, f, h'. split; [done|]. split; [done|]. split; [|split; [done|split; [intros Hne; destruct (Hbad Hne) as (? & ? & ?); auto|]]].
  - intros Hall. destruct (package data size) as [ts|].
    + destruct Hres as [->|[-> ->]]; [|split; [by eauto|done]]. destruct (Hno eq_refl) as [n Hn]. by rewrite Hall in Hn.
    + split; [done|]. by intros [_ [? ?]].
  - intros ->. destruct (package data size) as [ts|] eqn:Hp; [|done]. destruct Hres as [|[_ ->]]; [done|].
    exists ts. split; [done|]. split; [done|].
    assert (Hok : ∀ t, t ∈ ts → entry_ok data size t = true).
    { intros t. unfold package in Hp. destruct (_ <? _); [done|]. destruct (negb _); [done|].
      destruct (table _ _ _ _) as [ts'|] eqn:Ht; [|done]. destruct (DUAL_FIP && _); [done|]. injection Hp as ->.
      by eapply table_ok. }
    split.
    { apply ends_bound; [apply Hmem|]. intros t Ht. specialize (Hok t Ht). unfold entry_ok in Hok.
      apply andb_true_iff in Hok as [[_ Hok]%andb_true_iff _]. by apply Z.leb_le. }
    intros d Hd. unfold descs in Hd. apply list_elem_of_omap in Hd as (t & Ht & Hd).
    apply fmap_Some in Hd as (e & He & ->). cbn [toc_e entry_desc desc_data desc_name]. split; [done|]. split; [done|].
    split; [by apply ends_mono|]. apply known_Some in He as [? ?]. by exists e.
Qed.
End Init.

(** ** A package *)

Definition demo_stack : list Z := replicate 64 0xaa.

(** The descriptor of an image of a buffer at an offset. *)
Definition buffer_desc (uuid : list Z) (off : Z) (b : list Z) : option image_desc :=
  (λ e, ImageDesc (ent_uuid e) (ent_desc e) (ent_name e) (DataBuf b) (FipTocEntry uuid off (zlen b) 0)) <$> known uuid.

Definition demo_header : list Z := le_bytes 4 TOC_HEADER_NAME ++ le_bytes 4 0x12345678 ++ replicate 8 0.

(** The memory a package of these images is written to. *)
Definition demo_write (l : list (list Z * Z * list Z)) (size n : Z) : list Z :=
  let f := Fip (omap (λ '(u, o, b), buffer_desc u o b) l) demo_header size in
  match fip_create true demo_stack 0 f (replicate (Z.to_nat n) 0) n 0 (Heap [] 0) with
  | Ret (_, out, _) _ => out
  | _ => []
  end.

(** BL31, U-Boot and a checksum, in a buffer with some space behind. *)
Definition demo_data : list Z := Eval vm_compute in
  demo_write [(UUID_EL3_RUNTIME_FIRMWARE_BL31, 176, [1; 2; 3; 4; 5]); (UUID_NON_TRUSTED_FIRMWARE_BL33, 181, [9; 8; 7]);
              (UUID_FIP_CHKSUM, 184, replicate 40 0)] 224 240.

Definition demo_init (data : list Z) (size : Z) (h : heap) : res heap (Z * option fip) :=
  init_fip (λ _, true) true true demo_stack 0 true data size 0 h.

Definition demo_fip : fip := Eval vm_compute in
  match demo_init demo_data 224 (Heap [] 0) with Ret (_, Some f) _ => f | _ => Fip [] [] 0 end.
Definition demo_heap : heap := Eval vm_compute in
  match demo_init demo_data 224 (Heap [] 0) with Ret (_, Some f) h => h | _ => Heap [] 0 end.

Lemma demo_memory : memory demo_data 224.
Proof.
  split; [|vm_compute; split; discriminate|reflexivity].
  apply (bool_decide_unpack (Forall (λ b, 0 ≤ b < 256) demo_data)). vm_compute. done.
Qed.

Lemma demo_init_run :
  init_fip (λ _, true) true true demo_stack 0 true demo_data 224 0 (Heap [] 0) = Ret (0, Some demo_fip) demo_heap.
Proof. vm_compute. reflexivity. Qed.

(** A package is accepted, and one with a changed byte is not. *)
Lemma demo_checksum_protects :
  (package true demo_data 224 = Some (toc_e <$> images demo_fip)) ∧ package true (<[178%nat := 77]> demo_data) 224 = None.
Proof. split; vm_compute; reflexivity. Qed.

Lemma init_fip_accepts_witness :
  ∃ f h', init_fip (λ _, true) true true demo_stack 0 true demo_data 224 0 (Heap [] 0) = Ret (0, Some f) h' ∧
    ∃ ts, package true demo_data 224 = Some ts ∧ f = parsed_fip demo_data 224 ts ∧ ends 0 ts ≤ 224.
Proof.
  destruct (init_fip_accepts (λ _, true) true true demo_stack 0 eq_refl true demo_data 224 0 (Heap [] 0))
    as (rc & f & h' & Hrun & _ & Hiff & _ & _ & Hok).
  - exact demo_memory.
  - apply heap_empty_ok.
  - assert (Hp : is_Some (package true demo_data 224)).
    { eexists. exact (proj1 demo_checksum_protects). }
    assert (rc = 0) as -> by (apply Hiff; [reflexivity|split; [reflexivity|exact Hp]]).
    destruct (Hok eq_refl) as (ts & Hts & -> & He & _). exists (parsed_fip demo_data 224 ts), h'.
    split; [exact Hrun|]. exists ts. split; [exact Hts|]. split; [reflexivity|exact He].
Defined.

(** Every package that is accepted leaves another set of descriptors in the
    common list, which is emptied by a failure only. *)
Lemma init_fip_leaks :
  match demo_init demo_data 224 demo_heap with
  | Ret (rc, _) h => rc = 0 ∧ length (common_image_desc_list demo_heap) = 32%nat ∧ length (common_image_desc_list h) = 64%nat
  | _ => False
  end.
Proof. vm_compute. done. Qed.
