(* ===== verification/FipRepack.v ===== *)
(** * Firmware image packages: replacing an image

    A package that has been read, had an image replaced and was written back is
    accepted again, with the new image and all others as they were. *)

From stdpp Require Import base list numbers list_numbers strings.
From Stdlib Require Import ZArith Lia.
From S2P Require Import Prelude Bytes Crc32 CStr Sha256 Sha256Spec Fip FipSpec.
Open Scope Z_scope.

(** ** Well-formed packages *)

Definition is_sum (d : image_desc) : Prop := te_uuid (toc_e d) = UUID_FIP_CHKSUM.
Definition offset (d : image_desc) : Z := offset_address (toc_e d).
Definition dsize (d : image_desc) : Z := te_size (toc_e d).

(** The bytes of an image. *)
Definition content (f : fip) (d : image_desc) : option (list Z) :=
  data_at f (desc_data d) ≫= λ src, mem_read src 0 (dsize d).

(** The descriptor of an image: named after its UUID, with contents. *)
Record desc_ok (f : fip) (d : image_desc) : Prop := {
  do_known : ∃ e, known (te_uuid (toc_e d)) = Some e ∧ desc_uuid d = ent_uuid e ∧ desc_desc d = ent_desc e ∧
               desc_name d = ent_name e;
  do_size : 0 ≤ dsize d;
  do_flags : 0 ≤ te_flags (toc_e d) < 2 ^ 64;
  do_content : ¬ is_sum d → ∃ b, content f d = Some b ∧ Forall is_byte b;
  do_sum : is_sum d → sizeof_fip_checksum ≤ dsize d;
}.

(** Images one behind the other from [lo], the last ending at [hi]. *)
Fixpoint placed (lo : Z) (l : list image_desc) (hi : Z) : Prop :=
  match l with
  | [] => lo = hi
  | d :: l' => lo ≤ offset d ∧ placed (offset d + dsize d) l' hi
  end.

(** The end of a table of [l] and its terminator. *)
Definition toc_end (l : list image_desc) : Z := sizeof_fip_toc_header + sizeof_fip_toc_entry * (zlen l + 1).

Section Repack.
Context (calloc_ok : Z → bool) (wdt DUAL_FIP : bool) (stack : list Z) (addr : Z).
Context (stack_len : zlen stack = 64).

Record fip_ok (f : fip) : Prop := {
  fo_descs : Forall (desc_ok f) (images f);
  fo_placed : placed (toc_end (images f)) (images f) (fip_size f);
  fo_size : fip_size f < 2 ^ 32;
  fo_data : Forall is_byte (fip_data f) ∧ sizeof_fip_toc_header ≤ zlen (fip_data f);
  fo_name : le_val (take 4 (fip_data f)) = TOC_HEADER_NAME;
  fo_dual : DUAL_FIP = true → has_checksum (toc_e <$> images f) = true;
}.

(** ** Placement *)

Lemma placed_app lo l1 l2 hi : placed lo (l1 ++ l2) hi ↔ ∃ mid, placed lo l1 mid ∧ placed mid l2 hi.
Proof.
  revert lo. induction l1 as [|d l1 IH]; intros lo; cbn [app placed].
  - split; [by eauto|]. by intros (? & -> & ?).
  - rewrite IH. split; [intros (? & mid & ? & ?)|intros (mid & [? ?] & ?)]; eauto.
Qed.

Lemma placed_le lo l hi : Forall (λ d, 0 ≤ dsize d) l → placed lo l hi → lo ≤ hi.
Proof.
  revert lo. induction l as [|d l IH]; intros lo Hl; cbn [placed]; [lia|]. apply Forall_cons in Hl as [Hd Hl].
  intros [Hlo Hp]. specialize (IH _ Hl Hp). lia.
Qed.

Lemma placed_elem lo l hi d : Forall (λ d, 0 ≤ dsize d) l → placed lo l hi → d ∈ l → lo ≤ offset d ∧ offset d + dsize d ≤ hi.
Proof.
  revert lo. induction l as [|d' l IH]; intros lo Hl; cbn [placed]; [intros _ Hd; by apply elem_of_nil in Hd|].
  apply Forall_cons in Hl as [Hd' Hl]. intros [Hlo Hp] [->|Hd]%elem_of_cons.
  - pose proof (placed_le _ _ _ Hl Hp). lia.
  - specialize (IH _ Hl Hp Hd). lia.
Qed.

Lemma descs_sizes f l : Forall (desc_ok f) l → Forall (λ d, 0 ≤ dsize d) l.
Proof. intros H. eapply Forall_impl; [exact H|]. intros d Hd. apply Hd. Qed.

(** ** Entries in memory *)

Lemma uuids_bytes : Forall (λ e, length (ent_uuid e) = 16%nat ∧ Forall is_byte (ent_uuid e) ∧ ent_uuid e ≠ UUID_NULL) toc_entries.
Proof.
  apply (bool_decide_unpack (Forall (λ e, length (ent_uuid e) = 16%nat ∧ Forall (λ b, 0 ≤ b < 256) (ent_uuid e) ∧
    ent_uuid e ≠ UUID_NULL) toc_entries)). vm_compute. done.
Qed.

Lemma known_uuid uuid : is_Some (known uuid) → length uuid = 16%nat ∧ Forall is_byte uuid ∧ uuid ≠ UUID_NULL.
Proof.
  intros [e He]. apply known_Some in He as [He <-]. pose proof uuids_bytes as H. rewrite Forall_forall in H. by apply H.
Qed.

(** An entry whose numbers have 64 bits. *)
Record entry_fits (t : fip_toc_entry) : Prop := {
  ef_uuid : length (te_uuid t) = 16%nat;
  ef_offset : 0 ≤ offset_address t < 2 ^ 64;
  ef_size : 0 ≤ te_size t < 2 ^ 64;
  ef_flags : 0 ≤ te_flags t < 2 ^ 64;
}.

Lemma zlen_entry t : entry_fits t → zlen (entry_bytes t) = sizeof_fip_toc_entry.
Proof.
  intros [Hu _ _ _]. unfold entry_bytes. rewrite !zlen_app, !zlen_le_bytes. unfold zlen. rewrite Hu. done.
Qed.

Lemma take_le_bytes n x r : take n (le_bytes n x ++ r) = le_bytes n x.
Proof. apply take_app_length'. by rewrite length_le_bytes. Qed.
Lemma drop_le_bytes n x r : drop n (le_bytes n x ++ r) = r.
Proof. apply drop_app_length'. by rewrite length_le_bytes. Qed.

Lemma entry_of_entry t : entry_fits t → entry_of_bytes (entry_bytes t) = t.
Proof.
  intros [Hu Ho Hs Hf]. unfold entry_of_bytes, entry_bytes.
  rewrite take_app_length' by done. set (r := te_uuid t ++ _).
  replace (drop 32 r) with (drop 8 (drop 8 (drop 16 r))) by (by rewrite !drop_drop).
  replace (drop 24 r) with (drop 8 (drop 16 r)) by (by rewrite !drop_drop).
  unfold r. rewrite drop_app_length' by done.
  rewrite !drop_le_bytes, take_le_bytes, take_le_bytes.
  rewrite (take_ge (le_bytes 8 (te_flags t))) by (by rewrite length_le_bytes).
  rewrite !le_val_bytes. change (256 ^ Z.of_nat 8) with (2 ^ 64). rewrite !Z.mod_small by lia. by destruct t.
Qed.

Lemma null_fits n : 0 ≤ n < 2 ^ 64 → entry_fits (FipTocEntry UUID_NULL n 0 0).
Proof. intros Hn. split; [done|done|cbn; lia|cbn; lia]. Qed.

Lemma zslice_mid (a b c : list Z) : zslice (a ++ b ++ c) (zlen a) (zlen b) = b.
Proof. unfold zslice, zlen. rewrite !Nat2Z.id, drop_app_length. apply take_app_length. Qed.

(** A table with a terminator is read back. *)
Lemma table_entries ts fuel data size pre rest :
  data = pre ++ concat (entry_bytes <$> ts) ++ entry_bytes (FipTocEntry UUID_NULL size 0 0) ++ rest →
  Forall entry_fits ts → Forall (λ t, entry_ok data size t = true) ts → 0 ≤ size < 2 ^ 64 →
  zlen pre + 40 * (zlen ts + 1) ≤ size → (length ts < fuel)%nat → table fuel data size (zlen pre) = Some ts.
Proof.
  revert fuel pre. induction ts as [|t ts IH]; intros fuel pre Hd Hfit Hok Hs Hin Hf;
    (destruct fuel as [|fuel]; [cbn in Hf; lia|]); cbn [table]; unfold sizeof_fip_toc_entry.
  - cbn [fmap list_fmap concat app] in Hd. change (zlen []) with 0 in Hin. destruct (Z.ltb_spec size (zlen pre + 40)); [lia|].
    assert (zslice data (zlen pre) 40 = entry_bytes (FipTocEntry UUID_NULL size 0 0)) as ->.
    { rewrite Hd. change 40 with sizeof_fip_toc_entry. rewrite <- (zlen_entry _ (null_fits size Hs)). apply zslice_mid. }
    rewrite entry_of_entry by (by apply null_fits). cbn [te_uuid te_size offset_address].
    rewrite bool_decide_eq_true_2 by done. rewrite Z.leb_refl. done.
  - apply Forall_cons in Hfit as [Ht Hfit]. apply Forall_cons in Hok as [Hto Hok].
    assert (Hl : zlen (t :: ts) = zlen ts + 1) by (unfold zlen; cbn; lia). rewrite Hl in Hin. pose proof (zlen_nonneg ts).
    destruct (Z.ltb_spec size (zlen pre + 40)); [lia|].
    assert (zslice data (zlen pre) 40 = entry_bytes t) as ->.
    { rewrite Hd. cbn [fmap list_fmap concat]. change 40 with sizeof_fip_toc_entry. rewrite <- (zlen_entry t Ht).
      rewrite <- app_assoc. apply zslice_mid. }
    rewrite entry_of_entry by done. rewrite Hto.
    assert (Hk : is_Some (known (te_uuid t))).
    { unfold entry_ok in Hto. apply andb_true_iff in Hto as [[Hk _]%andb_true_iff _]. by apply bool_decide_eq_true in Hk. }
    rewrite bool_decide_eq_false_2 by (by apply known_uuid).
    replace (zlen pre + 40) with (zlen (pre ++ entry_bytes t)) by (rewrite zlen_app, zlen_entry; done).
    rewrite (IH fuel (pre ++ entry_bytes t)); [done| |done|done|done| |cbn in Hf; lia].
    + rewrite Hd. cbn [fmap list_fmap concat]. by rewrite <- !app_assoc.
    + rewrite zlen_app, zlen_entry by done. unfold sizeof_fip_toc_entry. lia.
Qed.

(** Writing the table. *)
Lemma write_entries_run l a old b me (h : heap) : Forall (λ d, entry_fits (toc_e d)) l → zlen old = 40 * zlen l →
  write_entries (a ++ old ++ b) (zlen a) l me h =
  Ret (a ++ concat (entry_bytes <$> (toc_e <$> l)) ++ b, zlen a + 40 * zlen l) h.
Proof.
  revert a old. induction l as [|d l IH]; intros a old Hl Ho; cbn [write_entries].
  - destruct old; [|unfold zlen in Ho; cbn in Ho; lia]. unfold ret. change (zlen []) with 0. cbn [app fmap list_fmap concat]. do 2 f_equal. lia.
  - apply Forall_cons in Hl as [Hd Hl]. assert (Hlen : zlen (d :: l) = zlen l + 1) by (unfold zlen; cbn; lia).
    rewrite Hlen in Ho |- *. pose proof (zlen_nonneg l).
    destruct (mem_split old 40 ltac:(lia)) as (o1 & o2 & -> & H1 & H2).
    unfold bind. rewrite <- app_assoc. rewrite mem_copy_here by (done || by apply zlen_entry). cbn [some rbind ret].
    rewrite (app_assoc a), <- (zlen_entry (toc_e d)) by done. rewrite <- zlen_app.
    rewrite IH by (done || lia). rewrite zlen_app, zlen_entry by done. unfold sizeof_fip_toc_entry.
    cbn [fmap list_fmap concat]. rewrite <- !app_assoc. do 2 f_equal. lia.
Qed.

(** ** The images *)

(** The image is in [out], and right if it is the checksum. *)
Definition image_in (f : fip) (out : list Z) (d : image_desc) : Prop :=
  (is_sum d → checksum_ok out (toc_e d) = true) ∧ (¬ is_sum d → mem_read out (offset d) (dsize d) = content f d).

Definition sizes (l : list image_desc) : Z := foldr (λ d n, dsize d + n) 0 l.

Lemma zlen_checksum len crc sum : zlen sum = 32 → zlen (checksum_bytes len crc sum) = 40.
Proof. intros Hs. unfold checksum_bytes. rewrite !zlen_app, !zlen_le_bytes. lia. Qed.

Lemma checksum_is_bytes len crc sum : Forall is_byte sum → Forall is_byte (checksum_bytes len crc sum).
Proof. intros Hs. unfold checksum_bytes. rewrite !Forall_app. split_and!; [apply le_bytes_is_byte..|done]. Qed.

(** What is stored at the checksum entry behind [a]. *)
Definition sum_image (a : list Z) (size : Z) : list Z :=
  checksum_bytes (zlen a) (crc32 0 0 a) (Fips.sha256 a) ++ replicate (Z.to_nat (size - 40)) 0.

Lemma zlen_sum_image a size : 40 ≤ size → zlen (sum_image a size) = size.
Proof. intros Hs. unfold sum_image. rewrite zlen_app, zlen_checksum, zlen_replicate by (lia || apply zlen_sha256). lia. Qed.

Lemma sum_image_bytes a size : Forall is_byte (sum_image a size).
Proof.
  apply Forall_app. split; [apply checksum_is_bytes, sha256_bytes|]. apply Forall_replicate. unfold is_byte. lia.
Qed.

Lemma write_checksum_run a old b t me (h : heap) :
  zlen a = offset_address t → zlen old = te_size t → 40 ≤ te_size t < 2 ^ 64 → zlen a < 2 ^ 32 → Forall is_byte a →
  write_checksum wdt stack addr (a ++ old ++ b) t me h = Ret (a ++ sum_image a (te_size t) ++ b) h.
Proof.
  intros Ha Ho Hs Ha32 Hb. pose proof (zlen_nonneg a). unfold write_checksum, bind. rewrite <- Ha, u32_small by lia.
  rewrite mem_read_here by done. cbn [some rbind ret].
  rewrite (crc32_wd_crc32 wdt addr a) by (done || unfold CHUNKSZ_CRC32; lia). cbn [rbind].
  rewrite (csum_wd_sha256 wdt stack a) by (done || unfold CHUNKSZ_SHA256; lia). cbn [rbind].
  unfold sizeof_fip_checksum. rewrite u64_small by lia.
  destruct (mem_split old 40 ltac:(lia)) as (o1 & o2 & -> & H1 & H2).
  replace (a ++ (o1 ++ o2) ++ b) with ((a ++ o1) ++ o2 ++ b) by (by rewrite <- !app_assoc).
  replace (zlen a + 40) with (zlen (a ++ o1)) by (rewrite zlen_app; lia).
  rewrite mem_fill_here by lia. cbn [some rbind ret]. rewrite <- app_assoc.
  rewrite mem_copy_here by (done || apply zlen_checksum, zlen_sha256). cbn [some rbind ret].
  unfold sum_image. by rewrite <- !app_assoc.
Qed.

Lemma sum_image_ok a size b t : zlen a = offset_address t → te_size t = size → 40 ≤ size → zlen a < 2 ^ 32 →
  checksum_ok (a ++ sum_image a size ++ b) t = true.
Proof.
  intros Ha Hs H40 H32. unfold checksum_ok. rewrite <- Ha, Hs. unfold sizeof_fip_checksum.
  destruct (Z.leb_spec 40 size); [|lia]. destruct (Z.ltb_spec (zlen a) (2 ^ 32)); [|lia]. cbn [andb].
  assert (take (Z.to_nat (zlen a)) (a ++ sum_image a size ++ b) = a) as ->.
  { unfold zlen. rewrite Nat2Z.id. apply take_app_length. }
  apply bool_decide_eq_true.
  unfold sum_image. rewrite <- app_assoc.
  rewrite <- (zlen_checksum (zlen a) (crc32 0 0 a) (Fips.sha256 a) (zlen_sha256 a)) at 2. apply zslice_mid.
Qed.

(** The contents of an image copied from its pointer. *)
Lemma copy_content f d a old b c : content f d = Some c → zlen old = dsize d →
  ∃ src, data_at f (desc_data d) = Some src ∧ mem_copy (a ++ old ++ b) (zlen a) src (dsize d) = Some (a ++ c ++ b) ∧ zlen c = dsize d.
Proof.
  unfold content. intros Hc Ho. destruct (data_at f (desc_data d)) as [src|]; [|done]. cbn in Hc. exists src. split; [done|].
  unfold mem_read in Hc. case_decide as Hd; [|done]. injection Hc as <-. unfold zslice. rewrite drop_0.
  rewrite zlen_take by lia. split; [|done]. rewrite mem_copy_take by lia. apply mem_copy_here; [done|]. apply zlen_take. lia.
Qed.

(** The body of the loop over the images. *)
Definition write_image (f : fip) (out : list Z) (d : image_desc) : M heap (list Z) :=
  if bool_decide (te_uuid (toc_e d) = UUID_FIP_CHKSUM) then write_checksum wdt stack addr out (toc_e d)
  else src ← some (data_at f (desc_data d)); some (mem_copy out (offset_address (toc_e d)) src (te_size (toc_e d))).

Lemma write_image_run f d a g old b me (h : heap) :
  desc_ok f d → zlen (a ++ g) = offset d → zlen old = dsize d → offset d + dsize d < 2 ^ 32 → Forall is_byte (a ++ g) →
  ∃ img, write_image f (a ++ g ++ old ++ b) d me h = Ret ((a ++ g) ++ img ++ b) h ∧
    zlen img = dsize d ∧ Forall is_byte img ∧ (∀ t, image_in f ((a ++ g) ++ img ++ t) d).
Proof.
  intros Hd Ha Ho H32 Hb. rewrite (app_assoc a). set (p := a ++ g) in *. clearbody p. unfold write_image.
  pose proof (do_size _ _ Hd). pose proof (zlen_nonneg p).
  destruct (bool_decide_reflect (te_uuid (toc_e d) = UUID_FIP_CHKSUM)) as [Hs|Hs].
  - pose proof (do_sum _ _ Hd Hs) as H40. unfold sizeof_fip_checksum in H40. exists (sum_image p (dsize d)).
    rewrite (write_checksum_run p old b (toc_e d)) by (done || unfold dsize, offset in *; lia).
    split; [done|]. split; [by apply zlen_sum_image|]. split; [apply sum_image_bytes|]. intros t. split; [|done].
    intros _. apply sum_image_ok; [done|done|done|lia].
  - destruct (do_content _ _ Hd Hs) as (c & Hc & Hcb). destruct (copy_content f d p old b c Hc Ho) as (src & Hsrc & Hcp & Hcl).
    exists c. unfold bind. rewrite Hsrc. cbn [some rbind ret]. fold (offset d). fold (dsize d). rewrite <- Ha, Hcp.
    split; [done|]. split; [done|]. split; [done|]. intros t. split; [done|]. intros _. rewrite Hc.
    by apply mem_read_mid.
Qed.

Lemma write_images_run f l a b hi size me (h : heap) :
  Forall (desc_ok f) l → placed (zlen a) l hi → hi ≤ zlen a + zlen b → hi < 2 ^ 32 →
  Forall is_byte a → Forall is_byte b → 0 ≤ size < 2 ^ 64 →
  ∃ t, write_images wdt stack addr f (a ++ b) size l me h = Ret (a ++ t, u64 (size + sizes l)) h ∧
    zlen t = zlen b ∧ Forall is_byte t ∧ Forall (image_in f (a ++ t)) l.
Proof.
  revert a b size. induction l as [|d l IH]; intros a b size Hl Hp Hhi H32 Hba Hbb Hsz.
  - exists b. cbn [write_images sizes foldr placed] in *. rewrite Z.add_0_r, u64_small by lia. split; [done|]. split; [done|]. done.
  - apply Forall_cons in Hl as [Hd Hl]. cbn [placed] in Hp. destruct Hp as [Hlo Hp].
    pose proof (do_size _ _ Hd) as Hds. pose proof (placed_le _ _ _ (descs_sizes _ _ Hl) Hp) as Hend.
    destruct (mem_split b (offset d - zlen a) ltac:(lia)) as (g & b1 & -> & Hg & Hb1).
    destruct (mem_split b1 (dsize d) ltac:(lia)) as (old & b2 & -> & Hold & Hb2).
    rewrite !Forall_app in Hbb. destruct Hbb as (Hbg & _ & Hb2b). rewrite !zlen_app in *.
    assert (∃ img, write_image f (a ++ g ++ old ++ b2) d me h = Ret ((a ++ g) ++ img ++ b2) h ∧
      zlen img = dsize d ∧ Forall is_byte img ∧ (∀ t, image_in f ((a ++ g) ++ img ++ t) d)) as (img & Hw & Hil & Hib & Hin).
    { apply write_image_run; [done|rewrite zlen_app; lia|done|lia|by apply Forall_app]. }
    cbn [write_images]. unfold bind at 1. unfold write_image in Hw. rewrite Hw. cbn [rbind]. rewrite app_assoc.
    destruct (IH ((a ++ g) ++ img) b2 (u64 (size + te_size (toc_e d)))) as (t & Hrun & Hlt & Hbt & Hall);
      [done|by rewrite !zlen_app, Hil, Hg; replace (zlen a + (offset d - zlen a)) with (offset d) by lia|
       rewrite !zlen_app; lia|done|rewrite !Forall_app; done|done|apply Z.mod_pos_bound; lia|].
    exists (g ++ img ++ t). rewrite Hrun. specialize (Hin t). rewrite <- !app_assoc in *. split; [|split; [|split]].
    + do 2 f_equal. unfold u64. rewrite Zplus_mod_idemp_l. f_equal. change (sizes (d :: l)) with (te_size (toc_e d) + sizes l). lia.
    + rewrite !zlen_app. lia.
    + rewrite !Forall_app. done.
    + by apply Forall_cons_2.
Qed.

(** ** Writing a package *)

(** [out] holds the package. *)
Definition written (f : fip) (out : list Z) : Prop :=
  ∃ hdr rest, out = hdr ++ concat (entry_bytes <$> (toc_e <$> images f)) ++
                    entry_bytes (FipTocEntry UUID_NULL (fip_size f) 0 0) ++ rest ∧
    zlen hdr = 16 ∧ le_val (take 4 hdr) = TOC_HEADER_NAME ∧ Forall is_byte out ∧ Forall (image_in f out) (images f).

Lemma fip_toc_fits f : fip_ok f → 0 ≤ zlen (images f) ∧ toc_end (images f) ≤ fip_size f ∧
  Forall (λ d, entry_fits (toc_e d)) (images f) ∧ entry_fits (FipTocEntry UUID_NULL (fip_size f) 0 0).
Proof.
  intros Hf. pose proof (fo_descs _ Hf) as Hd. pose proof (fo_placed _ Hf) as Hp. pose proof (fo_size _ Hf) as Hs.
  pose proof (zlen_nonneg (images f)). pose proof (placed_le _ _ _ (descs_sizes _ _ Hd) Hp) as Hle.
  assert (Htoc : 0 ≤ toc_end (images f)) by (unfold toc_end, sizeof_fip_toc_header, sizeof_fip_toc_entry; lia).
  split; [done|]. split; [done|]. split; [|apply null_fits; lia].
  apply Forall_forall. intros d Hin. pose proof (placed_elem _ _ _ d (descs_sizes _ _ Hd) Hp Hin) as [Ho He].
  rewrite Forall_forall in Hd. destruct (Hd d Hin) as [(e & Hk & _) Hds Hfl _ _].
  unfold offset, dsize in *. split; [apply known_uuid; eauto|lia|lia|lia].
Qed.

Lemma zlen_entries l : Forall (λ d, entry_fits (toc_e d)) l → zlen (concat (entry_bytes <$> (toc_e <$> l))) = 40 * zlen l.
Proof.
  induction 1 as [|d l Hd Hl IH]; [done|]. cbn [fmap list_fmap concat]. rewrite zlen_app, zlen_entry, IH by done.
  unfold zlen, sizeof_fip_toc_entry. cbn [length]. lia.
Qed.

Lemma entry_bytes_bytes t : Forall is_byte (te_uuid t) → Forall is_byte (entry_bytes t).
Proof. intros Hu. unfold entry_bytes. rewrite !Forall_app. split_and!; [done|apply le_bytes_is_byte..]. Qed.

Lemma entries_bytes f l : Forall (desc_ok f) l → Forall is_byte (concat (entry_bytes <$> (toc_e <$> l))).
Proof.
  intros Hl. apply Forall_concat, Forall_fmap, Forall_fmap. eapply Forall_impl; [exact Hl|].
  intros d [(e & Hk & _) _ _ _ _]. apply entry_bytes_bytes. apply known_uuid. eauto.
Qed.

Lemma fip_create_run f out max_len me (h : heap) : fip_ok f → fip_size f ≤ zlen out → fip_size f ≤ max_len → Forall is_byte out →
  ∃ out', fip_create wdt stack addr f out max_len me h = Ret (0, out', Some (u64 (toc_end (images f) + sizes (images f)))) h ∧
    zlen out' = zlen out ∧ written f out'.
Proof.
  intros Hf Ho Hm Hb. destruct (fip_toc_fits f Hf) as (Hn & Htoc & Hfit & Hnull).
  destruct (fo_data _ Hf) as [Hdb Hdl]. unfold toc_end, sizeof_fip_toc_header, sizeof_fip_toc_entry in *.
  unfold fip_create. destruct (Z.ltb_spec max_len (fip_size f)); [lia|].
  destruct (mem_split out 16 ltac:(lia)) as (o1 & r1 & -> & H1 & Hr1).
  destruct (mem_split r1 (40 * zlen (images f)) ltac:(lia)) as (o2 & r2 & -> & H2 & Hr2).
  destruct (mem_split r2 40 ltac:(lia)) as (o3 & b & -> & H3 & Hb3).
  rewrite !Forall_app in Hb. destruct Hb as (_ & _ & _ & Hbb).
  set (hdr := take (Z.to_nat 16) (fip_data f)). assert (Hh : zlen hdr = 16) by (apply zlen_take; lia).
  assert (Hhb : Forall is_byte hdr) by (by apply Forall_take).
  unfold bind at 1. unfold sizeof_fip_toc_header. rewrite mem_copy_take, mem_copy_0 by (done || lia). cbn [some rbind ret]. fold hdr.
  pose proof (write_entries_run (images f) hdr o2 (o3 ++ b) me h Hfit H2) as Hwe. rewrite Hh in Hwe.
  unfold bind at 1. rewrite Hwe. cbn [rbind].
  set (ents := concat (entry_bytes <$> (toc_e <$> images f))).
  assert (He : zlen ents = 40 * zlen (images f)) by (by apply zlen_entries).
  set (nul := FipTocEntry UUID_NULL (fip_size f) 0 0) in *.
  unfold bind at 1. rewrite (app_assoc hdr).
  replace (16 + 40 * zlen (images f)) with (zlen (hdr ++ ents)) by (rewrite zlen_app; lia).
  rewrite mem_copy_here by (done || by apply zlen_entry). cbn [some rbind ret]. rewrite (app_assoc (hdr ++ ents)).
  set (a := (hdr ++ ents) ++ entry_bytes nul).
  assert (Ha : zlen a = 16 + 40 * (zlen (images f) + 1)).
  { unfold a. rewrite !zlen_app, zlen_entry by done. unfold sizeof_fip_toc_entry. lia. }
  assert (Hab : Forall is_byte a).
  { unfold a. rewrite !Forall_app. split; [split; [done|apply (entries_bytes f), fo_descs; done]|].
    apply entry_bytes_bytes. apply (bool_decide_unpack (Forall (λ b, 0 ≤ b < 256) UUID_NULL)). vm_compute. done. }
  unfold bind at 1. replace (zlen (hdr ++ ents) + sizeof_fip_toc_entry) with (zlen a)
    by (unfold a; rewrite (zlen_app (hdr ++ ents)), zlen_entry; done).
  assert (Hsz : zlen (o1 ++ o2 ++ o3 ++ b) = zlen a + zlen b) by (rewrite !zlen_app; lia).
  destruct (write_images_run f (images f) a b (fip_size f) (zlen a) me h) as (t & -> & Hlt & Hbt & Hall).
  { apply Hf. } { pose proof (fo_placed _ Hf) as Hp. unfold toc_end in Hp. by rewrite Ha. }
  { rewrite <- Hsz. done. } { apply Hf. } { done. } { done. } { pose proof (fo_size _ Hf). lia. }
  cbn [rbind]. exists (a ++ t). split; [by rewrite Ha|]. split; [rewrite Hsz, zlen_app; lia|].
  exists hdr, t. split; [unfold a; by rewrite <- !app_assoc|]. split; [done|]. split; [|split; [by apply Forall_app|done]].
  unfold hdr. rewrite take_take. apply Hf.
Qed.

(** A package in memory is accepted. *)
Lemma written_package f out : fip_ok f → written f out → package DUAL_FIP out (fip_size f) = Some (toc_e <$> images f).
Proof.
  intros Hf (hdr & rest & Hout & Hh & Hname & Hb & Hall). destruct (fip_toc_fits f Hf) as (Hn & Htoc & Hfit & Hnull).
  unfold toc_end, sizeof_fip_toc_header, sizeof_fip_toc_entry in *. unfold package, FIP_MIN_SIZE, sizeof_fip_toc_header, sizeof_fip_toc_entry.
  destruct (Z.ltb_spec (fip_size f) (16 + 40)); [lia|].
  assert (Htake : take 4 out = take 4 hdr) by (rewrite Hout; apply take_app_le; unfold zlen in Hh; lia).
  rewrite Htake, Hname, Z.eqb_refl. cbn [negb]. pose proof (fo_size _ Hf) as H32.
  rewrite <- Hh. rewrite (table_entries (toc_e <$> images f) _ out (fip_size f) hdr rest).
  - destruct DUAL_FIP eqn:Hdual; [|done]. rewrite (fo_dual _ Hf) by done. done.
  - done.
  - by apply Forall_fmap.
  - apply Forall_fmap, Forall_forall. intros d Hd. pose proof (fo_descs _ Hf) as Hds.
    pose proof (placed_elem _ _ _ d (descs_sizes _ _ Hds) (fo_placed _ Hf) Hd) as [_ Hend].
    rewrite Forall_forall in Hds, Hall. destruct (Hds d Hd) as [(e & Hk & _) _ _ _ _]. destruct (Hall d Hd) as [Hsum _].
    cbn. unfold entry_ok. rewrite Hk, bool_decide_eq_true_2 by eauto. unfold offset, dsize in Hend.
    destruct (Z.leb_spec (offset_address (toc_e d) + te_size (toc_e d)) (fip_size f)); [|lia]. cbn [andb].
    destruct (bool_decide_reflect (te_uuid (toc_e d) = UUID_FIP_CHKSUM)) as [Hs|]; [|done]. cbn. by apply Hsum.
  - lia.
  - unfold zlen. rewrite length_fmap. fold (zlen (images f)). fold (zlen hdr). lia.
  - unfold rounds, sizeof_fip_toc_entry. rewrite length_fmap. unfold zlen in Hn, Htoc.
    assert (Z.of_nat (length (images f)) ≤ fip_size f / 40) by (apply Z.div_le_lower_bound; lia). lia.
Qed.

(** ** Reading it again *)

Lemma mem_read_drop (b : list Z) off n : 0 ≤ off → off ≤ zlen b → mem_read (drop (Z.to_nat off) b) 0 n = mem_read b off n.
Proof.
  intros Ho Hl. unfold mem_read. rewrite zlen_drop by lia. case_decide as H1; case_decide as H2; try lia; [|done].
  unfold zslice. by rewrite drop_0.
Qed.

Lemma mem_read_take_app (b x : list Z) m off n : 0 ≤ m ≤ zlen b → off + n ≤ m → mem_read (take (Z.to_nat m) b ++ x) off n = mem_read b off n.
Proof.
  intros Hm Hn. unfold mem_read. rewrite zlen_app, zlen_take by lia. pose proof (zlen_nonneg x).
  case_decide as H1; case_decide as H2; try lia; [|done]. f_equal. unfold zslice. apply list_eq. intros i.
  destruct (decide (i < Z.to_nat n)%nat); [|by rewrite !lookup_take_ge by lia].
  rewrite !lookup_take_lt, !lookup_drop by lia. unfold zlen in *.
  rewrite lookup_app_l by (rewrite length_take; lia). by rewrite lookup_take_lt by lia.
Qed.

(** What lies behind the package does not matter. *)
Lemma written_tail f out x : fip_ok f → written f out → fip_size f ≤ zlen out → Forall is_byte x →
  written f (take (Z.to_nat (fip_size f)) out ++ x).
Proof.
  intros Hf (hdr & rest & Hout & Hh & Hname & Hb & Hall) Hlen Hx.
  destruct (fip_toc_fits f Hf) as (Hn & Htoc & Hfit & Hnull). pose proof (fo_descs _ Hf) as Hds.
  unfold toc_end, sizeof_fip_toc_header, sizeof_fip_toc_entry in *.
  set (ents := concat (entry_bytes <$> (toc_e <$> images f))) in *.
  assert (He : zlen ents = 40 * zlen (images f)) by (by apply zlen_entries).
  set (nul := entry_bytes (FipTocEntry UUID_NULL (fip_size f) 0 0)) in *.
  assert (Hnl : zlen nul = 40) by (by apply zlen_entry).
  exists hdr, (take (Z.to_nat (fip_size f) - length (hdr ++ ents ++ nul)) rest ++ x). split; [|split; [done|split; [done|split]]].
  - rewrite Hout, (app_assoc ents), (app_assoc hdr), take_app_ge.
    + by rewrite <- !app_assoc.
    + rewrite !length_app. unfold zlen in *. lia.
  - apply Forall_app. split; [by apply Forall_take|done].
  - apply Forall_forall. intros d Hd.
    pose proof (placed_elem _ _ _ d (descs_sizes _ _ Hds) (fo_placed _ Hf) Hd) as [Hlo Hend].
    unfold toc_end, sizeof_fip_toc_header, sizeof_fip_toc_entry in Hlo.
    rewrite Forall_forall in Hall, Hds. destruct (Hall d Hd) as [Hsum Himg]. pose proof (do_size _ _ (Hds d Hd)) as Hsz.
    assert (Hr : ∀ off n, off + n ≤ fip_size f → mem_read (take (Z.to_nat (fip_size f)) out ++ x) off n = mem_read out off n).
    { intros off n Hon. apply mem_read_take_app; [lia|done]. }
    split; [|intros Hs; rewrite Hr by done; auto].
    intros Hs. specialize (Hsum Hs). pose proof (do_sum _ _ (Hds d Hd) Hs) as H40. unfold sizeof_fip_checksum in H40.
    unfold checksum_ok in Hsum |- *. apply andb_true_iff in Hsum as [Hl Hsum]. rewrite Hl. cbn [andb].
    unfold offset, dsize in *. unfold sizeof_fip_checksum in *.
    assert (Hcov : take (Z.to_nat (offset_address (toc_e d))) (take (Z.to_nat (fip_size f)) out ++ x) =
                   take (Z.to_nat (offset_address (toc_e d))) out).
    { rewrite take_app_le, take_take by (rewrite length_take; unfold zlen in *; lia). f_equal. lia. }
    rewrite Hcov. specialize (Hr (offset_address (toc_e d)) 40 ltac:(lia)).
    rewrite !mem_read_ok in Hr by (rewrite ?zlen_app, ?zlen_take; pose proof (zlen_nonneg x); lia). injection Hr as ->. done.
Qed.

Definition reread (d : image_desc) : image_desc := set_desc_data (DataIn (offset d)) d.

Lemma descs_reread f l : Forall (desc_ok f) l → descs (toc_e <$> l) = reread <$> l.
Proof.
  induction 1 as [|d l Hd Hl IH]; [done|]. unfold descs in *. cbn [fmap list_fmap omap list_omap].
  destruct (do_known _ _ Hd) as (e & Hk & Hu & Hds & Hn). rewrite Hk. cbn [fmap option_fmap option_map].
  rewrite IH. f_equal. unfold reread, entry_desc, set_desc_data, offset. by rewrite Hu, Hds, Hn.
Qed.

Lemma reread_content f out d : fip_ok f → written f out → d ∈ images f → ¬ is_sum d → fip_size f ≤ zlen out →
  content (parsed_fip out (fip_size f) (toc_e <$> images f)) (reread d) = content f d.
Proof.
  intros Hf (_ & _ & _ & _ & _ & _ & Hall) Hd Hs Hl. rewrite Forall_forall in Hall. destruct (Hall d Hd) as [_ Himg].
  rewrite <- (Himg Hs). unfold content, reread. cbn [desc_data set_desc_data data_at mbind option_bind parsed_fip fip_data].
  pose proof (fo_descs _ Hf) as Hds. destruct (fip_toc_fits f Hf) as (Hn & Htoc & _ & _).
  pose proof (placed_elem _ _ _ d (descs_sizes _ _ Hds) (fo_placed _ Hf) Hd) as [Hlo Hend].
  rewrite Forall_forall in Hds. pose proof (do_size _ _ (Hds d Hd)).
  unfold toc_end, sizeof_fip_toc_header, sizeof_fip_toc_entry in Hlo. change (dsize (set_desc_data _ d)) with (dsize d).
  apply mem_read_drop; lia.
Qed.

(** ** Replacing an image *)

(** Images moved to follow each other from [off] on. *)
Fixpoint relocate (off : Z) (l : list image_desc) : list image_desc :=
  match l with
  | [] => []
  | d :: l' => set_toc_e (set_te_offset off (toc_e d)) d :: relocate (off + dsize d) l'
  end.

(** The descriptor with the new image. *)
Definition replaced (new : list Z) (d : image_desc) : image_desc :=
  set_toc_e (set_te_size (zlen new) (toc_e d)) (set_desc_data (DataBuf new) d).

Definition updated (f : fip) (i : nat) (d : image_desc) (new : list Z) : fip :=
  let after := drop (S i) (images f) in
  let e := offset d + zlen new in
  Fip (take i (images f) ++ replaced new d :: relocate e after) (fip_data f) (e + sizes after).

Lemma sizes_app l1 l2 : sizes (l1 ++ l2) = sizes l1 + sizes l2.
Proof. induction l1 as [|d l1 IH]; cbn; [done|]. unfold sizes in IH. rewrite IH. unfold sizes. lia. Qed.

Lemma sizes_nonneg l : Forall (λ d, 0 ≤ dsize d) l → 0 ≤ sizes l.
Proof. induction 1 as [|d l Hd Hl IH]; [done|]. change (sizes (d :: l)) with (dsize d + sizes l). lia. Qed.

Lemma placed_sizes lo l hi : placed lo l hi → lo + sizes l ≤ hi.
Proof.
  revert lo. induction l as [|d l IH]; intros lo; cbn [placed]; [intros <-; cbn; lia|]. intros [Hlo Hp].
  specialize (IH _ Hp). change (sizes (d :: l)) with (dsize d + sizes l). lia.
Qed.

Lemma placed_relocate off l : placed off (relocate off l) (off + sizes l).
Proof.
  revert off. induction l as [|d l IH]; intros off; cbn [relocate placed]; [cbn; lia|].
  change (offset (set_toc_e (set_te_offset off (toc_e d)) d)) with off.
  change (dsize (set_toc_e (set_te_offset off (toc_e d)) d)) with (dsize d).
  change (sizes (d :: l)) with (dsize d + sizes l). split; [lia|]. rewrite Z.add_assoc. apply IH.
Qed.

Lemma move_images_run base sz off l : Forall (λ d, 0 ≤ dsize d) l → 0 ≤ base ≤ off → sz ≤ off → off + sizes l < 2 ^ 64 →
  move_images base sz off l = (0, off + sizes l, relocate off l).
Proof.
  revert off. induction l as [|d l IH]; intros off Hl Hb Hs H64; cbn [move_images relocate]; [cbn; do 2 f_equal; lia|].
  apply Forall_cons in Hl as [Hd Hl]. change (sizes (d :: l)) with (dsize d + sizes l) in *. pose proof (sizes_nonneg l Hl).
  change (te_size (toc_e (set_toc_e (set_te_offset off (toc_e d)) d))) with (dsize d). rewrite u64_small by lia.
  destruct (Z.ltb_spec (off + dsize d) base); [lia|]. destruct (Z.ltb_spec (off + dsize d) sz); [lia|]. cbn [orb].
  rewrite IH by (done || lia). do 2 f_equal. lia.
Qed.

Lemma find_desc f name i d : fip_find_image_desc f name = (0, Some (i, d)) → images f !! i = Some d.
Proof.
  unfold fip_find_image_desc. destruct (255 <? zlen name); [done|].
  destruct (list_find _ _) as [[i' d']|] eqn:Hf; [|done]. intros [= <- <-]. by apply list_find_Some in Hf as [? _].
Qed.

Lemma fip_update_run f name i d new : fip_ok f → fip_find_image_desc f name = (0, Some (i, d)) →
  fip_size (updated f i d new) < 2 ^ 32 → fip_update f name new (zlen new) = (0, updated f i d new).
Proof.
  intros Hf Hfind H32. pose proof (find_desc _ _ _ _ Hfind) as Hi. unfold fip_update. rewrite Hfind.
  pose proof (descs_sizes _ _ (fo_descs _ Hf)) as Hds. pose proof (zlen_nonneg new).
  assert (Hd : d ∈ images f) by (by eapply list_elem_of_lookup_2).
  pose proof (placed_elem _ _ _ d Hds (fo_placed _ Hf) Hd) as [Hlo _]. destruct (fip_toc_fits f Hf) as (Hn & _).
  unfold toc_end, sizeof_fip_toc_header, sizeof_fip_toc_entry in Hlo.
  assert (Ha : Forall (λ d, 0 ≤ dsize d) (drop (S i) (images f))) by (by apply Forall_drop).
  pose proof (sizes_nonneg _ Ha). unfold updated in *. cbn [fip_size] in H32. fold (replaced new d).
  change (offset_address (toc_e (replaced new d))) with (offset d). rewrite u64_small by lia.
  destruct (Z.ltb_spec (offset d + zlen new) (offset d)); [lia|].
  destruct (Z.ltb_spec (offset d + zlen new) (zlen new)); [lia|]. cbn [orb].
  destruct (bool_decide_reflect (drop (S i) (images f) = [])) as [Hnil|_].
  - rewrite Hnil. cbn [relocate sizes foldr]. rewrite Z.add_0_r. done.
  - rewrite move_images_run by (done || lia). done.
Qed.

Lemma desc_ok_data f f' d : fip_data f = fip_data f' → desc_ok f d → desc_ok f' d.
Proof.
  intros Hd [Hk Hs Hf Hc Hu]. split; [done|done|done| |done]. intros Hn. destruct (Hc Hn) as (b & Hb & Hby). exists b.
  split; [|done]. rewrite <- Hb. unfold content, data_at. by rewrite Hd.
Qed.

Lemma desc_ok_relocate f off l : Forall (desc_ok f) l → Forall (desc_ok f) (relocate off l).
Proof.
  intros Hl. revert off. induction Hl as [|d l Hd Hl IH]; intros off; cbn [relocate]; [constructor|].
  apply Forall_cons_2; [|apply IH]. destruct Hd as [Hk Hs Hf Hc Hu]. by split.
Qed.

Lemma updated_uuids f i d new : images f !! i = Some d →
  (λ d, te_uuid (toc_e d)) <$> images (updated f i d new) = (λ d, te_uuid (toc_e d)) <$> images f.
Proof.
  intros Hi. unfold updated. cbn [images]. rewrite <- (take_drop_middle (images f) i d Hi) at 3.
  rewrite !fmap_app, !fmap_cons. do 2 f_equal. generalize (offset d + zlen new) (drop (S i) (images f)).
  intros off l. revert off. induction l as [|d' l IH]; intros off; cbn; [done|]. by rewrite IH.
Qed.

Lemma has_checksum_uuids l : has_checksum (toc_e <$> l) = existsb (λ u, bool_decide (u = UUID_FIP_CHKSUM)) ((λ d, te_uuid (toc_e d)) <$> l).
Proof. unfold has_checksum. induction l as [|d l IH]; cbn; [done|]. by rewrite IH. Qed.

Lemma updated_ok f i d new : fip_ok f → images f !! i = Some d → ¬ is_sum d → Forall is_byte new →
  fip_size (updated f i d new) < 2 ^ 32 → fip_ok (updated f i d new).
Proof.
  intros Hf Hi Hs Hnew H32. pose proof (fo_descs _ Hf) as Hds.
  pose proof Hds as Hsplit. rewrite <- (take_drop_middle (images f) i d Hi) in Hsplit.
  apply Forall_app in Hsplit as [Hb [Hd Ha]%Forall_cons].
  assert (Hlen : zlen (images (updated f i d new)) = zlen (images f)).
  { unfold zlen. rewrite <- (length_fmap (λ d, te_uuid (toc_e d))), updated_uuids, length_fmap by done. done. }
  split.
  - eapply Forall_impl; [|intros x; apply (desc_ok_data f); done]. unfold updated. cbn [images].
    apply Forall_app. split; [done|]. apply Forall_cons_2; [|by apply desc_ok_relocate].
    destruct Hd as [Hk Hsz Hfl Hc Hu]. split; [done|apply zlen_nonneg|done| |intros Hs'; by destruct Hs].
    intros _. exists new. split; [|done]. unfold content, replaced. cbn [desc_data set_toc_e set_desc_data data_at mbind option_bind].
    unfold dsize. cbn [toc_e set_toc_e set_te_size te_size]. rewrite <- (app_nil_r new) at 1. by apply mem_read_here.
  - unfold toc_end. rewrite Hlen. pose proof (fo_placed _ Hf) as Hp. unfold toc_end in Hp.
    rewrite <- (take_drop_middle (images f) i d Hi) in Hp at 2. apply placed_app in Hp as (mid & Hp1 & [Hmid _]).
    unfold updated. cbn [images fip_size]. apply placed_app. exists mid. split; [done|]. cbn [placed].
    split; [done|]. apply placed_relocate.
  - done.
  - apply Hf.
  - apply Hf.
  - intros Hdual. rewrite has_checksum_uuids, updated_uuids, <- has_checksum_uuids by done. by apply Hf.
Qed.

(** ** From reading to reading again *)

(** No space is left between the images. *)
Definition packed (f : fip) : Prop :=
  placed (toc_end (images f)) (images f) (fip_size f) ∧ fip_size f = toc_end (images f) + sizes (images f).

Lemma table_numbers fuel data size off ts t : Forall is_byte data → table fuel data size off = Some ts → t ∈ ts →
  0 ≤ offset_address t ∧ 0 ≤ te_size t ∧ 0 ≤ te_flags t < 2 ^ 64.
Proof.
  intros Hb. revert off ts. induction fuel as [|fuel IH]; intros off ts; cbn [table].
  { intros [= <-] Ht. by apply elem_of_nil in Ht. }
  destruct (_ <? _); [intros [= <-] Ht; by apply elem_of_nil in Ht|].
  destruct (bool_decide _).
  { destruct (_ && _); [|done]. intros [= <-] Ht. by apply elem_of_nil in Ht. }
  destruct (entry_ok _ _ _); [|done]. intros Hts Ht. apply fmap_Some in Hts as (ts' & Hts & ->).
  apply elem_of_cons in Ht as [->|Ht]; [|eauto]. set (b := zslice data off _).
  assert (Hbb : Forall is_byte b) by (by apply Forall_take, Forall_drop). unfold entry_of_bytes. cbn.
  pose proof (le_val_take_range b 8 16 Hbb). pose proof (le_val_take_range b 8 24 Hbb).
  pose proof (le_val_take_range b 8 32 Hbb) as Hfl. change (256 ^ Z.of_nat 8) with (2 ^ 64) in Hfl. lia.
Qed.

Lemma package_table data size ts : package DUAL_FIP data size = Some ts →
  FIP_MIN_SIZE ≤ size ∧ le_val (take 4 data) = TOC_HEADER_NAME ∧
  table (rounds size) data size sizeof_fip_toc_header = Some ts ∧ (DUAL_FIP = true → has_checksum ts = true).
Proof.
  unfold package. destruct (Z.ltb_spec size FIP_MIN_SIZE); [done|].
  destruct (Z.eqb_spec (le_val (take 4 data)) TOC_HEADER_NAME); [|done]. cbn [negb].
  destruct (table _ _ _ _) as [ts'|]; [|done]. intros Hp. destruct DUAL_FIP, (has_checksum ts') eqn:Hc; simplify_eq/=; done.
Qed.

(** A package whose images follow each other is well-formed when it was read. *)
Lemma parsed_ok data size ts : memory data size → package DUAL_FIP data size = Some ts →
  let f := parsed_fip data size ts in
  placed (toc_end (images f)) (images f) (fip_size f) → fip_size f < 2 ^ 32 → fip_ok f.
Proof.
  intros [Hb Hs Hm] Hp f Hpl H32. destruct (package_table _ _ _ Hp) as (Hmin & Hname & Htab & Hdual).
  unfold FIP_MIN_SIZE, sizeof_fip_toc_header, sizeof_fip_toc_entry in Hmin.
  assert (Htocs : toc_e <$> images f = ts).
  { cbn [f parsed_fip images]. pose proof (λ t, table_ok (rounds size) data size _ ts t Htab) as Hok. clear -Hok.
    induction ts as [|t ts IH]; [done|]. unfold descs in *. cbn [omap list_omap].
    pose proof (Hok t ltac:(by left)) as Ht. unfold entry_ok in Ht. apply andb_true_iff in Ht as [[Hk _]%andb_true_iff _].
    apply bool_decide_eq_true in Hk as [e He]. rewrite He. cbn [fmap option_fmap option_map list_fmap]. f_equal.
    apply IH. intros t' Ht'. apply Hok. by right. }
  split; [|done|done|split; [done|change (fip_data f) with data; unfold sizeof_fip_toc_header; lia]|done|by rewrite Htocs].
  apply Forall_forall. intros d Hd. cbn [f parsed_fip images] in Hd. unfold descs in Hd.
  apply list_elem_of_omap in Hd as (t & Ht & Hd). apply fmap_Some in Hd as (e & He & ->).
  destruct (table_numbers _ _ _ _ _ t Hb Htab Ht) as (Ho & Hsz & Hfl).
  pose proof (table_ok _ _ _ _ _ t Htab Ht) as Hok. unfold entry_ok in Hok.
  apply andb_true_iff in Hok as [[_ Hin]%andb_true_iff Hsum]. apply Z.leb_le in Hin. split; try done.
  - by exists e.
  - intros _. unfold content. cbn [entry_desc desc_data data_at mbind option_bind f parsed_fip fip_data].
    change (dsize (entry_desc e t)) with (te_size t). rewrite mem_read_drop, mem_read_ok by lia. eexists. split; [done|].
    by apply Forall_take, Forall_drop.
  - unfold is_sum. cbn [toc_e entry_desc]. intros Hu. rewrite Hu, bool_decide_eq_true_2 in Hsum by done. cbn in Hsum.
    unfold checksum_ok in Hsum. apply andb_true_iff in Hsum as [[H40 _]%andb_true_iff _]. by apply Z.leb_le.
Qed.

(** The end of the package when an image of a packed one is replaced. *)
Lemma updated_size f i d new : fip_ok f → packed f → images f !! i = Some d →
  fip_size (updated f i d new) = fip_size f - dsize d + zlen new ∧
  toc_end (images (updated f i d new)) + sizes (images (updated f i d new)) = fip_size (updated f i d new).
Proof.
  intros Hf [Hp Hs] Hi. pose proof Hp as Hp'. rewrite <- (take_drop_middle (images f) i d Hi) in Hp' at 2.
  apply placed_app in Hp' as (mid & Hp1 & [Hmid Hp2]). apply placed_sizes in Hp1, Hp2.
  assert (Hsz : sizes (images f) = sizes (take i (images f)) + (dsize d + sizes (drop (S i) (images f)))).
  { rewrite <- (take_drop_middle (images f) i d Hi) at 1. by rewrite sizes_app. }
  assert (Hrel : ∀ off l, sizes (relocate off l) = sizes l).
  { intros off l. revert off. induction l as [|d' l IH]; intros off; cbn [relocate]; [done|].
    change (sizes (d' :: l)) with (dsize d' + sizes l). rewrite <- (IH (off + dsize d')). done. }
  assert (Hlen : zlen (images (updated f i d new)) = zlen (images f)).
  { unfold zlen. rewrite <- (length_fmap (λ d, te_uuid (toc_e d))), updated_uuids, length_fmap by done. done. }
  unfold toc_end in *. rewrite Hlen. unfold updated in *. cbn [images fip_size] in *.
  rewrite sizes_app. change (sizes (replaced new d :: ?l)) with (zlen new + sizes l).
  set (l := relocate _ _). change (sizes (replaced new d :: l)) with (zlen new + sizes l). unfold l. rewrite Hrel. lia.
Qed.

Lemma relocate_lookup off l j d : l !! j = Some d → ∃ o, relocate off l !! j = Some (set_toc_e (set_te_offset o (toc_e d)) d).
Proof.
  revert off j. induction l as [|d' l IH]; intros off [|j]; cbn; [done|done|intros [= ->]; by exists off|]. apply IH.
Qed.

Lemma updated_lookup f i d new j dj : images f !! i = Some d → j ≠ i → images f !! j = Some dj →
  ∃ o, images (updated f i d new) !! j = Some (set_toc_e (set_te_offset o (toc_e dj)) dj).
Proof.
  intros Hi Hne Hj. unfold updated. cbn [images]. pose proof (lookup_lt_Some _ _ _ Hi) as Hlt.
  assert (Hlen : length (take i (images f)) = i) by (rewrite length_take; lia).
  destruct (decide (j < i)%nat).
  - exists (offset dj). rewrite lookup_app_l, lookup_take_lt by lia. rewrite Hj. f_equal. by destruct dj as [? ? ? ? []].
  - rewrite lookup_app_r by lia. rewrite Hlen. destruct (j - i)%nat as [|k] eqn:Hk; [lia|]. cbn.
    apply relocate_lookup. rewrite lookup_drop. rewrite <- Hj. f_equal. lia.
Qed.

Lemma updated_names f i d new : images f !! i = Some d →
  desc_name <$> (reread <$> images (updated f i d new)) = desc_name <$> images f.
Proof.
  intros Hi. rewrite <- list_fmap_compose. unfold updated. cbn [images].
  rewrite <- (take_drop_middle (images f) i d Hi) at 3. rewrite !fmap_app, !fmap_cons. f_equal. f_equal.
  generalize (offset d + zlen new) (drop (S i) (images f)). intros off l. revert off.
  induction l as [|d' l IH]; intros off; cbn; [done|]. f_equal. apply IH.
Qed.

Lemma replaced_content f new d : content f (replaced new d) = Some new.
Proof.
  unfold content, replaced. cbn [desc_data set_toc_e set_desc_data data_at mbind option_bind].
  unfold dsize. cbn [toc_e set_toc_e set_te_size te_size]. rewrite <- (app_nil_r new) at 1. by apply mem_read_here.
Qed.

(** Writing a packed package over its own memory. *)
Lemma fip_repack_run f swap me h : fip_ok f → toc_end (images f) + sizes (images f) = fip_size f →
  fip_size f ≤ zlen swap → fip_size f ≤ zlen (fip_data f) → Forall is_byte swap →
  ∃ data2 swap', fip_repack wdt stack addr f (Some swap) (zlen swap) me h = Ret (0, set_fip_data data2 f, Some swap') h ∧
    memory data2 (fip_size f) ∧ written f data2.
Proof.
  intros Hf Htot Hsw Hd Hswap. destruct (fip_toc_fits f Hf) as (Hn & Htoc & _). pose proof (fo_size _ Hf) as H32.
  unfold toc_end, sizeof_fip_toc_header, sizeof_fip_toc_entry in Htoc. destruct (fo_data _ Hf) as [Hb _].
  destruct (fip_create_run f swap (fip_size f) me h Hf Hsw ltac:(lia) Hswap) as (out & Hcreate & Hlo & Hw).
  exists (take (Z.to_nat (fip_size f)) out ++ drop (Z.to_nat (fip_size f)) (fip_data f)), out.
  assert (Hw2 : written f (take (Z.to_nat (fip_size f)) out ++ drop (Z.to_nat (fip_size f)) (fip_data f))).
  { apply written_tail; [done|done|lia|]. by apply Forall_drop. }
  split; [|split; [|done]].
  - unfold fip_repack. destruct (Z.ltb_spec (zlen swap) (fip_size f)); [lia|]. unfold bind at 1.
    rewrite Hcreate. cbn [rbind]. change (negb (0 =? 0)) with false. cbn match. unfold bind at 1. cbn [some rbind ret].
    rewrite Htot, u64_small by lia. unfold bind at 1. rewrite mem_copy_take by lia.
    unfold mem_copy. rewrite decide_True by (rewrite zlen_take; lia). cbn [some rbind ret]. by rewrite take_take, Nat.min_id.
  - split; [|rewrite zlen_app, zlen_take, zlen_drop; lia|lia]. by destruct Hw2 as (_ & _ & _ & _ & _ & Hb2 & _).
Qed.

(** Replacing an image of a packed package that was read. *)
Lemma update_of_parsed data size f name new i d me h0 h :
  memory data size → heap_ok h0 →
  init_fip calloc_ok wdt DUAL_FIP stack addr true data size me h0 = Ret (0, Some f) h →
  packed f → fip_size f < 2 ^ 32 → fip_find_image_desc f name = (0, Some (i, d)) → ¬ is_sum d → Forall is_byte new →
  fip_size f - dsize d + zlen new < 2 ^ 32 →
  let f1 := updated f i d new in
  fip_update f name new (zlen new) = (0, f1) ∧ fip_size f1 = fip_size f - dsize d + zlen new ∧
  toc_end (images f1) + sizes (images f1) = fip_size f1 ∧ fip_ok f1 ∧ fip_data f1 = data ∧ heap_ok h.
Proof.
  intros Hmem Hh0 Hinit Hpack H32 Hfind Hs Hnew Hn f1.
  destruct (init_fip_run calloc_ok wdt DUAL_FIP stack addr stack_len data size me h0 Hmem Hh0)
    as (rc & f0 & h1 & Hr & Hh1 & _ & _ & Hres). rewrite Hinit in Hr. injection Hr as <- <- <-.
  destruct (package DUAL_FIP data size) as [ts|] eqn:Hp; [|done]. destruct Hres as [|[_ [= ->]]]; [done|].
  pose proof (parsed_ok data size ts Hmem Hp (proj1 Hpack) H32) as Hf. set (f := parsed_fip data size ts) in *.
  pose proof (find_desc _ _ _ _ Hfind) as Hi. destruct (updated_size f i d new Hf Hpack Hi) as [Hsz Htot]. fold f1 in Hsz, Htot.
  split; [apply fip_update_run; [done|done|fold f1; lia]|]. split; [done|]. split; [done|].
  split; [apply updated_ok; [done..|fold f1; lia]|done].
Qed.

(** The package is written to a buffer and copied back over the old one; it is
    accepted again, with the same images in the same order, the new contents
    for the one and the old ones for all others, and a right checksum. *)
Lemma repack_of_updated f i d new swap me h :
  let f1 := updated f i d new in
  heap_ok h → (∀ n, calloc_ok n = true) → images f !! i = Some d → ¬ is_sum d → fip_ok f1 →
  toc_end (images f1) + sizes (images f1) = fip_size f1 → Forall is_byte swap →
  fip_size f1 ≤ zlen swap → fip_size f1 ≤ zlen (fip_data f) →
  ∃ data2 swap' f3 h',
    fip_repack wdt stack addr f1 (Some swap) (zlen swap) me h = Ret (0, set_fip_data data2 f1, Some swap') h ∧
    init_fip calloc_ok wdt DUAL_FIP stack addr true data2 (fip_size f1) me h = Ret (0, Some f3) h' ∧
    desc_name <$> images f3 = desc_name <$> images f ∧
    (∃ d3, images f3 !! i = Some d3 ∧ content f3 d3 = Some new) ∧
    (∀ j dj, j ≠ i → images f !! j = Some dj → ¬ is_sum dj →
       ∃ d3, images f3 !! j = Some d3 ∧ content f3 d3 = content f dj).
Proof.
  intros f1 Hh Hcal Hi Hs Hf1 Htot Hswap Hsw Hd.
  destruct (fip_repack_run f1 swap me h Hf1 Htot) as (data2 & out & Hrepack & Hmem2 & Hw2); [done..|].
  pose proof (written_package f1 data2 Hf1 Hw2) as Hp2.
  destruct (init_fip_run calloc_ok wdt DUAL_FIP stack addr stack_len data2 (fip_size f1) me h Hmem2 Hh)
    as (rc & f3 & h3 & Hr3 & _ & Hno & _ & Hres3). rewrite Hp2 in Hres3.
  destruct Hres3 as [->|[-> ->]]; [by destruct (Hno eq_refl) as [k Hk]; rewrite Hcal in Hk|].
  eexists data2, out, _, h3. split; [exact Hrepack|]. split; [exact Hr3|]. cbn [parsed_fip images].
  rewrite (descs_reread f1) by apply Hf1.
  assert (Hcont : ∀ j dj, images f1 !! j = Some dj → ¬ is_sum dj →
    ∃ d3, (reread <$> images f1) !! j = Some d3 ∧
      content (parsed_fip data2 (fip_size f1) (toc_e <$> images f1)) d3 = content f1 dj).
  { intros j dj Hj Hns. exists (reread dj). rewrite list_lookup_fmap, Hj. split; [done|].
    apply reread_content; [done|done|by eapply list_elem_of_lookup_2|done|apply Hmem2]. }
  split; [by apply updated_names|]. split.
  - assert (Hi1 : images f1 !! i = Some (replaced new d)).
    { unfold f1, updated. cbn [images]. pose proof (lookup_lt_Some _ _ _ Hi).
      rewrite lookup_app_r by (rewrite length_take; lia). rewrite length_take, Nat.min_l, Nat.sub_diag by lia. done. }
    destruct (Hcont i _ Hi1 Hs) as (d3 & Hd3 & Hc3). exists d3. split; [done|]. rewrite Hc3. by apply replaced_content.
  - intros j dj Hne Hj Hns. destruct (updated_lookup f i d new j dj Hi Hne Hj) as (o & Ho).
    destruct (Hcont j _ Ho Hns) as (d3 & Hd3 & Hc3). exists d3. split; [done|]. rewrite Hc3. done.
Qed.
End Repack.

(** ** A package *)

Lemma demo_packed : packed demo_fip.
Proof. split; [|vm_compute; reflexivity]. vm_compute. repeat split; discriminate. Qed.

Definition demo_swap : list Z := replicate 256 0x5a.

(** ** Packages the code does not treat as it means to *)

(** Two images with a gap before the second. *)
Definition gap_data : list Z := Eval vm_compute in
  demo_write [(UUID_EL3_RUNTIME_FIRMWARE_BL31, 136, [1; 2; 3; 4]); (UUID_NON_TRUSTED_FIRMWARE_BL33, 144, [9; 8; 7; 6])] 148 160.

Definition plain_init (data : list Z) (size : Z) : res heap (Z * option fip) :=
  init_fip (λ _, true) true false demo_stack 0 true data size 0 (Heap [] 0).

(** With a gap between the images the end of the package is not copied back:
    all calls succeed, but U-Boot is not what it was replaced by. *)
Lemma repack_with_gap_loses_the_end :
  match plain_init gap_data 148 with
  | Ret (0, Some f) h =>
      let '(rc, f1) := fip_update f (str "u-boot") [31; 32; 33; 34] 4 in
      rc = 0 ∧
      match fip_repack true demo_stack 0 f1 (Some demo_swap) 256 0 h with
      | Ret (rc, f2, _) _ => rc = 0 ∧ mem_read (fip_data f2) 144 4 = Some [9; 8; 7; 6]
      | _ => False
      end
  | _ => False
  end.
Proof. vm_compute. done. Qed.

(** With the table in another order than the images, replacing the image that
    is listed last makes the size too small, and writing the package runs over
    the end of a buffer of that size. *)
Definition unordered_data : list Z := Eval vm_compute in
  demo_write [(UUID_NON_TRUSTED_FIRMWARE_BL33, 140, [9; 8; 7; 6]); (UUID_EL3_RUNTIME_FIRMWARE_BL31, 136, [1; 2; 3; 4])] 144 160.

Lemma create_of_unordered_package_overruns :
  match plain_init unordered_data 144 with
  | Ret (0, Some f) h =>
      let '(rc, f1) := fip_update f (str "bl31") [31; 32] 2 in
      rc = 0 ∧ fip_size f1 = 138 ∧ fip_create true demo_stack 0 f1 (replicate 138 0) 138 0 h = Fault
  | _ => False
  end.
Proof. vm_compute. done. Qed.
