(* ===== verification/FipHelper.v ===== *)
(** * Upgrading parts of a package (board/mediatek/common/fip_helper.c, board_info.c)

    The functions the upgrade menus call: is this a BL31, a U-Boot, a package
    with a U-Boot for this board; and replacing BL31 or U-Boot in a package.
    Decompression and the device tree library are parameters. *)

From stdpp Require Import base list numbers list_numbers strings.
From Stdlib Require Import ZArith Lia.
From S2P Require Import Prelude Bytes Crc32 CStr Sha256 Fip.
Open Scope Z_scope.

Definition MAX_FIP_SIZE : Z := 0x1000000.

Inductive fip_buffer := FIP_READ_BUFFER | FIP_WRITE_BUFFER | FIP_XZ_BUFFER | FIP_BUFFER_NUM.

Definition buffer_type (b : fip_buffer) : Z :=
  match b with FIP_READ_BUFFER => 0 | FIP_WRITE_BUFFER => 1 | FIP_XZ_BUFFER => 2 | FIP_BUFFER_NUM => 3 end.

(** The address, with [load_addr] that of the loaded file, and the size. *)
Definition get_fip_buffer (load_addr : Z) (b : fip_buffer) : Z * option (Z * Z) :=
  if buffer_type FIP_BUFFER_NUM <=? buffer_type b then (- EINVAL, None)
  else (0, Some (u64 (load_addr + MAX_FIP_SIZE + MAX_FIP_SIZE * buffer_type b), MAX_FIP_SIZE)).

(** ** What an image is *)

Definition FDT_MAGIC : Z := 0xd00dfeed.
Definition sizeof_legacy_img_hdr : Z := 64.

(** A big-endian 32-bit load. *)
Definition rd32_be (buf : list Z) (off : Z) : option Z := (λ b, le_val (reverse b)) <$> mem_read buf off 4.

(** The loop from [offset] downwards; offset 0 is not looked at. *)
Fixpoint locate_from (buf : list Z) (search_size : Z) (offset : nat) : M heap (option Z) :=
  match offset with
  | O => ret None
  | S next =>
      let off := Z.of_nat offset in
      magic ← some (rd32_be buf off);
      if magic =? FDT_MAGIC then
        fdt_size ← some (rd32_be buf (off + 4));
        if fdt_size <=? search_size - off then ret (Some off) else locate_from buf search_size next
      else locate_from buf search_size next
  end.

Definition locate_fdt_in_uboot (uboot : list Z) (search_size : Z) : M heap (option Z) :=
  if search_size <? sizeof_legacy_img_hdr then ret None
  else locate_from uboot search_size (Z.to_nat (search_size - sizeof_legacy_img_hdr)).

Definition xz_sig : list Z := [0xFD; 0x37; 0x7A; 0x58; 0x5A; 0x00].
Definition enc_header : list Z := [0x01; 0x00; 0x64; 0xAA].

Definition starts_with (sig data : list Z) (size : Z) : M heap bool :=
  if zlen sig <? size then b ← some (mem_read data 0 (zlen sig)); ret (bool_decide (b = sig))
  else ret false.

Definition is_xz_image : list Z → Z → M heap bool := starts_with xz_sig.
Definition is_encrypt_image : list Z → Z → M heap bool := starts_with enc_header.

Definition check_bl31_data (bl31_data : list Z) (bl31_size : Z) : M heap Z :=
  let bl31_magic := 0xAA0003F4 in
  if bl31_size <? 4 then ret (- EBADMSG)
  else
    magic ← some (rd32 bl31_data 0);
    if negb (magic =? bl31_magic) then ret (- EBADMSG) else ret 0.

(** ** The boards an image is for *)

Definition MAX_COMPAT_COUNT : nat := 10.
Definition ENOENT : Z := 2.

(** The string at the start of [s]. *)
Fixpoint cstring (s : list Z) : option (list Z) :=
  match s with
  | [] => None
  | c :: s' => if c =? 0 then Some [] else cons c <$> cstring s'
  end.

(** The loop over a property that ends at [en]; [n] entries are free. *)
Fixpoint compat_loop (n : nat) (blob : list Z) (compat en : Z) (cl : list (list Z)) : M heap (list (list Z)) :=
  c ← some (zget blob compat);
  if (c =? 0) || negb (compat <? en) then ret cl
  else
    match n with
    | O => ret cl
    | S n =>
        s ← some (cstring (drop (Z.to_nat compat) blob));
        compat_loop n blob (compat + zlen s + 1) en (cl ++ [s])
    end.

Section Helper.
(** [fdt_compatible] is where the property of the root node of a device tree
    is, and its length; [unxz] gives the memory of the buffer and the length of
    what was decompressed; [XZ] is CONFIG_XZ and [gd_compat] what
    fdt_read_compat_list() gives for the running U-Boot. *)
Context (calloc_ok : Z → bool) (wdt DUAL_FIP XZ : bool) (stack : list Z) (addr load_addr : Z).
Context (fdt_compatible : list Z → option (Z * Z)) (unxz : list Z → Z → Z → option (list Z * Z)).
Context (gd_compat : Z * list (list Z)).
Abbreviation init_fip := (init_fip calloc_ok wdt DUAL_FIP stack addr true).
Abbreviation fip_repack := (fip_repack wdt stack addr).

Definition fdt_read_compat_list (fdt_blob : list Z) : M heap (Z * list (list Z)) :=
  cl ← match fdt_compatible fdt_blob with
       | Some (p, len) => if 1 <? len then compat_loop MAX_COMPAT_COUNT fdt_blob p (p + len) [] else ret []
       | None => ret []
       end;
  match cl with
  | [] => ret (- ENOENT, [])
  | _ => ret (0, cl)
  end.

(** The comparison up to the shorter list. *)
Definition compat_matches (c t : list (list Z)) : bool :=
  bool_decide (take (Nat.min (length c) (length t)) c = take (Nat.min (length c) (length t)) t).

(** The part of check_uboot_data() behind the decompression. *)
Definition check_uboot_plain (uboot_data : list Z) (uboot_size : Z) : M heap Z :=
  enc ← is_encrypt_image uboot_data uboot_size;
  if enc : bool then ret 0
  else
    fdt ← locate_fdt_in_uboot uboot_data uboot_size;
    match fdt with
    | None => ret (- EBADMSG)
    | Some off =>
        '(rc, t_compat) ← fdt_read_compat_list (drop (Z.to_nat off) uboot_data);
        if negb (rc =? 0) then ret (- EBADMSG)
        else if negb (gd_compat.1 =? 0) then ret (- EBADMSG)
        else ret (if compat_matches gd_compat.2 t_compat then 0 else - EBADMSG)
    end.

Definition check_uboot_data (uboot_data : list Z) (uboot_size : Z) : M heap Z :=
  '(rc, _) ← init_fip uboot_data uboot_size;
  if rc =? 0 then ret (- EBADMSG)
  else
    xz ← is_xz_image uboot_data uboot_size;
    if xz : bool then
      if negb XZ then ret 0
      else
        match get_fip_buffer load_addr FIP_XZ_BUFFER with
        | (0, Some (_, size)) =>
            match unxz uboot_data uboot_size size with
            | None => ret (- EBADMSG)
            | Some (buf, len) => check_uboot_plain buf len
            end
        | _ => ret (- ENOBUFS)
        end
    else check_uboot_plain uboot_data uboot_size.

Definition fip_check_uboot_data (fip_data : list Z) (fip_size : Z) : M heap Z :=
  if MAX_FIP_SIZE <? fip_size then ret (- EBADMSG)
  else
    '(rc, f) ← init_fip fip_data fip_size;
    if negb (rc =? 0) then ret (- EBADMSG)
    else
      f ← some f;
      match fip_get_image f (str "u-boot") with
      | (0, Some (p, uboot_size)) =>
          uboot_data ← some (data_at f p);
          check_uboot_data uboot_data uboot_size
      | _ => ret (- EBADMSG)
      end.

(** ** Replacing an image *)

(** [write_buffer] is the memory of that buffer.  The error, the new size and
    the memory of the package. *)
Definition fip_update_data (name new_data : list Z) (new_size : Z) (fip_data : list Z) (fip_size max_size : Z)
    (write_buffer : list Z) : M heap (Z * option Z * list Z) :=
  '(rc, f) ← init_fip fip_data fip_size;
  if negb (rc =? 0) then ret (- EBADMSG, None, fip_data)
  else
    f ← some f;
    let '(rc, f) := fip_update f name new_data new_size in
    if negb (rc =? 0) then ret (- EBADMSG, None, fip_data)
    else
      match get_fip_buffer load_addr FIP_WRITE_BUFFER with
      | (0, Some (_, size)) =>
          if (max_size <? Fip.fip_size f) || (size <? Fip.fip_size f) then ret (- ENOBUFS, None, fip_data)
          else
            '(rc, f, _) ← fip_repack f (Some write_buffer) size;
            if negb (rc =? 0) then ret (- EBADMSG, None, Fip.fip_data f)
            else ret (0, Some (Fip.fip_size f), Fip.fip_data f)
      | _ => ret (- ENOBUFS, None, fip_data)
      end.

Definition fip_update_bl31_data := fip_update_data (str "bl31").
Definition fip_update_uboot_data := fip_update_data (str "u-boot").
End Helper.
