(* ===== verification/FipHelperSpec.v ===== *)
(** * Upgrading parts of a package: properties *)

From stdpp Require Import base list numbers list_numbers strings.
From Stdlib Require Import ZArith Lia.
From S2P Require Import Prelude Bytes Crc32 CStr Sha256 Sha256Spec Fip FipSpec FipRepack FipHelper.
Open Scope Z_scope.

Section Update.
Context (calloc_ok : Z → bool) (wdt DUAL_FIP : bool) (stack : list Z) (addr load_addr : Z).
Context (stack_len : zlen stack = 64) (calloc_never_fails : ∀ n, calloc_ok n = true).

(** C16: fip_update_data() on a package without space between its images
    replaces the image if the package then fits the storage and the buffer:
    what it leaves in memory is accepted again, with the same images in the
    same order, the new contents for the one, the old ones for all others and
    a right checksum.  If it does not fit, nothing is changed. *)
Theorem fip_update_data_correct name new data size max_size f i d wbuf me h0 h :
  memory data size → heap_ok h0 →
  init_fip calloc_ok wdt DUAL_FIP stack addr true data size me h0 = Ret (0, Some f) h →
  packed f → fip_size f < 2 ^ 32 → fip_find_image_desc f name = (0, Some (i, d)) → ¬ is_sum d →
  Forall is_byte new → Forall is_byte wbuf → zlen wbuf = MAX_FIP_SIZE →
  let n := fip_size f - dsize d + zlen new in
  n < 2 ^ 32 → n ≤ zlen data →
  let run := fip_update_data calloc_ok wdt DUAL_FIP stack addr load_addr name new (zlen new) data size max_size wbuf me h0 in
  (n ≤ max_size → n ≤ MAX_FIP_SIZE → ∃ data' f3 h',
     run = Ret (0, Some n, data') h ∧
     init_fip calloc_ok wdt DUAL_FIP stack addr true data' n me h = Ret (0, Some f3) h' ∧
     desc_name <$> images f3 = desc_name <$> images f ∧
     (∃ d3, images f3 !! i = Some d3 ∧ content f3 d3 = Some new) ∧
     (∀ j dj, j ≠ i → images f !! j = Some dj → ¬ is_sum dj →
        ∃ d3, images f3 !! j = Some d3 ∧ content f3 d3 = content f dj)) ∧
  (max_size < n ∨ MAX_FIP_SIZE < n → run = Ret (- ENOBUFS, None, data) h).
Proof.
  intros Hmem Hh0 Hinit Hpack H32 Hfind Hs Hnew Hwb Hwl n Hn32 Hnd run.
  assert (Hrun : run = (let '(rc, f1) := fip_update f name new (zlen new) in
    if negb (rc =? 0) then ret (- EBADMSG, None, data)
    else if (max_size <? fip_size f1) || (MAX_FIP_SIZE <? fip_size f1) then ret (- ENOBUFS, None, data)
    else
      '(rc, f2, _) ← fip_repack wdt stack addr f1 (Some wbuf) MAX_FIP_SIZE;
      if negb (rc =? 0) then ret (- EBADMSG, None, fip_data f2) else ret (0, Some (fip_size f2), fip_data f2)) me h).
  { unfold run, fip_update_data, bind at 1. rewrite Hinit. cbn [rbind]. change (negb (0 =? 0)) with false. cbn match.
    unfold bind at 1. cbn [some rbind ret]. by destruct (fip_update f name new (zlen new)) as [rc f1]. }
  rewrite Hrun. clear Hrun run.
  destruct (update_of_parsed calloc_ok wdt DUAL_FIP stack addr stack_len data size f name new i d me h0 h)
    as (Hup & Hsz & Htot & Hok & Hdata & Hh); [done..|].
  rewrite Hup. change (negb (0 =? 0)) with false. cbn match. rewrite Hsz. fold n. split.
  - intros Hmax Hcap. destruct (Z.ltb_spec max_size n); [lia|]. destruct (Z.ltb_spec MAX_FIP_SIZE n); [lia|]. cbn [orb].
    destruct (repack_of_updated calloc_ok wdt DUAL_FIP stack addr stack_len f i d new wbuf me h)
      as (data2 & swap' & f3 & h' & Hrep & Hinit3 & Hrest);
      [done|done|by eapply find_desc|done|done|done|done|rewrite Hsz, Hwl; done|
       change (fip_data f) with (fip_data (updated f i d new)); rewrite Hsz, Hdata; done|].
    exists data2, f3, h'. split; [|rewrite Hsz in Hinit3; by split]. rewrite Hwl in Hrep.
    unfold bind. rewrite Hrep. cbn [rbind]. change (negb (0 =? 0)) with false. cbn match.
    unfold ret. cbn [set_fip_data fip_data]. change (fip_size (set_fip_data data2 (updated f i d new))) with (fip_size (updated f i d new)).
    by rewrite Hsz.
  - intros Hbig. destruct (Z.ltb_spec max_size n), (Z.ltb_spec MAX_FIP_SIZE n); [done..|lia].
Qed.
End Update.

Lemma fip_update_data_correct_witness :
  let wbuf := replicate (Z.to_nat MAX_FIP_SIZE) 0 in
  let run max := fip_update_data (λ _, true) true true demo_stack 0 0x46000000 (str "U-Boot") [1; 1; 2; 3; 5; 8; 13] 7
                   demo_data 224 max wbuf 0 (Heap [] 0) in
  (∃ data' f3 h', run 230 = Ret (0, Some 228, data') demo_heap ∧
     init_fip (λ _, true) true true demo_stack 0 true data' 228 0 demo_heap = Ret (0, Some f3) h' ∧
     desc_name <$> images f3 = desc_name <$> images demo_fip ∧
     (∃ d3, images f3 !! 1%nat = Some d3 ∧ content f3 d3 = Some [1; 1; 2; 3; 5; 8; 13])) ∧
  run 227 = Ret (- ENOBUFS, None, demo_data) demo_heap.
Proof.
  assert (Hd : ∃ d, fip_find_image_desc demo_fip (str "U-Boot") = (0, Some (1%nat, d)) ∧ ¬ is_sum d ∧
    fip_size demo_fip - dsize d + 7 = 228).
  { eexists. split; [vm_compute; reflexivity|]. split; [discriminate|]. vm_compute. reflexivity. }
  destruct Hd as (d & Hfind & Hs & Hn).
  assert (Hnew : Forall is_byte [1; 1; 2; 3; 5; 8; 13]).
  { apply (bool_decide_unpack (Forall (λ b, 0 ≤ b < 256) [1; 1; 2; 3; 5; 8; 13])). vm_compute. done. }
  assert (Hw : Forall is_byte (replicate (Z.to_nat MAX_FIP_SIZE) 0)) by (apply Forall_replicate; unfold is_byte; lia).
  assert (Hwl : zlen (replicate (Z.to_nat MAX_FIP_SIZE) 0) = MAX_FIP_SIZE) by (apply zlen_replicate; done).
  assert (Hl : zlen [1; 1; 2; 3; 5; 8; 13] = 7) by reflexivity.
  generalize dependent (replicate (Z.to_nat MAX_FIP_SIZE) 0). intros w Hw Hwl wbuf run.
  pose proof (λ max, fip_update_data_correct (λ _, true) true true demo_stack 0 0x46000000 eq_refl (λ _, eq_refl)
    (str "U-Boot") [1; 1; 2; 3; 5; 8; 13] demo_data 224 max demo_fip 1 d w 0 (Heap [] 0) demo_heap
    demo_memory (heap_empty_ok 0) demo_init_run demo_packed ltac:(reflexivity) Hfind Hs Hnew Hw Hwl) as H.
  rewrite Hl, Hn in H. specialize (λ max, H max ltac:(reflexivity) ltac:(vm_compute; discriminate)). split.
  - destruct (proj1 (H 230)) as (data' & f3 & h' & Hr & Hi & Hnm & Hc & _); [lia|unfold MAX_FIP_SIZE; lia|].
    exists data', f3, h'. split_and!; [exact Hr|exact Hi|exact Hnm|exact Hc].
  - apply (proj2 (H 227)). left. lia.
Defined.

(** ** The device tree in a U-Boot image *)

(** A device tree that fits starts at [off]. *)
Definition fdt_at (buf : list Z) (size off : Z) : Prop :=
  rd32_be buf off = Some FDT_MAGIC ∧ ∃ n, rd32_be buf (off + 4) = Some n ∧ off + n ≤ size.

Lemma rd32_be_ok buf off : 0 ≤ off → off + 4 ≤ zlen buf → ∃ v, rd32_be buf off = Some v.
Proof. intros Ho Hl. unfold rd32_be. rewrite mem_read_ok by lia. by eexists. Qed.

Lemma locate_from_last buf size n me h : Z.of_nat n + sizeof_legacy_img_hdr ≤ size → size ≤ zlen buf →
  ∃ r, locate_from buf size n me h = Ret r h ∧
    match r with
    | Some off => 0 < off ≤ Z.of_nat n ∧ fdt_at buf size off ∧ ∀ o, off < o ≤ Z.of_nat n → ¬ fdt_at buf size o
    | None => ∀ o, 0 < o ≤ Z.of_nat n → ¬ fdt_at buf size o
    end.
Proof.
  intros Hn Hl. unfold sizeof_legacy_img_hdr in Hn. induction n as [|n IH]; cbn [locate_from].
  { exists None. split; [done|]. lia. }
  destruct (IH ltac:(lia)) as (r & Hr & Hspec). set (off := Z.of_nat (S n)) in *.
  assert (Hskip : ¬ fdt_at buf size off → ∃ r, locate_from buf size n me h = Ret r h ∧
    match r with
    | Some off' => 0 < off' ≤ off ∧ fdt_at buf size off' ∧ ∀ o, off' < o ≤ off → ¬ fdt_at buf size o
    | None => ∀ o, 0 < o ≤ off → ¬ fdt_at buf size o
    end).
  { intros Hno. exists r. split; [done|]. destruct r as [off'|].
    - destruct Hspec as (Hr' & Hat & Hlast). split; [lia|]. split; [done|]. intros o Ho.
      destruct (decide (o = off)) as [->|]; [done|]. apply Hlast. lia.
    - intros o Ho. destruct (decide (o = off)) as [->|]; [done|]. apply Hspec. lia. }
  destruct (rd32_be_ok buf off) as [v Hv]; [lia|lia|]. unfold bind at 1. rewrite Hv. cbn [some rbind ret].
  destruct (Z.eqb_spec v FDT_MAGIC) as [->|Hne].
  2:{ apply Hskip. intros [Hm _]. rewrite Hv in Hm. by injection Hm. }
  destruct (rd32_be_ok buf (off + 4)) as [s Hs]; [lia|lia|]. unfold bind at 1. rewrite Hs. cbn [some rbind ret].
  destruct (Z.leb_spec s (size - off)).
  - exists (Some off). split; [done|]. split; [lia|]. split; [|lia]. split; [done|]. exists s. split; [done|lia].
  - apply Hskip. intros (_ & s' & Hs' & Hfit). rewrite Hs in Hs'. injection Hs' as <-. lia.
Qed.

(** locate_fdt_in_uboot() reads only inside the image and gives the last
    device tree of it that fits, if there is one behind its first byte. *)
Theorem locate_fdt_finds_last buf size me h : 0 ≤ size ≤ zlen buf →
  ∃ r, locate_fdt_in_uboot buf size me h = Ret r h ∧
    match r with
    | Some off => 0 < off ≤ size - sizeof_legacy_img_hdr ∧ fdt_at buf size off ∧
                  ∀ o, off < o ≤ size - sizeof_legacy_img_hdr → ¬ fdt_at buf size o
    | None => ∀ o, 0 < o ≤ size - sizeof_legacy_img_hdr → ¬ fdt_at buf size o
    end.
Proof.
  intros Hs. unfold locate_fdt_in_uboot. destruct (Z.ltb_spec size sizeof_legacy_img_hdr) as [Hlt|Hge].
  { exists None. split; [done|]. lia. }
  destruct (locate_from_last buf size (Z.to_nat (size - sizeof_legacy_img_hdr)) me h) as (r & Hr & Hspec); [lia|lia|].
  rewrite Z2Nat.id in Hspec by lia. by exists r.
Qed.

(** ** Inputs the code does not treat as it means to *)

(** The character behind the last string of the property is read before the
    place is compared with the end of the property. *)
Lemma compat_list_reads_behind_property :
  compat_loop MAX_COMPAT_COUNT (str "mtk" ++ [0]) 0 4 [] 0 (Heap [] 0) = Fault.
Proof. reflexivity. Qed.

(** The lists are compared position by position: an image whose list has the
    same boards in another order is refused, although each list is a superset
    of the other. *)
Lemma compat_superset_refused :
  compat_matches [str "a"; str "b"] [str "b"; str "a"] = false.
Proof. reflexivity. Qed.
