(* ===== verification/Bakery.v ===== *)
(** * Bakery locks (lib/locks/bakery, include/lib/bakery_lock.h)

    The lock of the PSCI library where the CPUs cannot rely on exclusive
    accesses.  CPUs run concurrently: a state of the system holds, beside the
    memory of one lock, the place each CPU has reached in
    [bakery_lock_get()] or [bakery_lock_release()] with its local variables,
    and a step is one access to memory (or one cache maintenance instruction)
    of one CPU.  [Coherent] is bakery_lock_coherent.c, [Normal] is
    bakery_lock_normal.c, in which some CPUs go through the cache and some do
    not. *)

From stdpp Require Import base list numbers list_numbers functions relations.
From Stdlib Require Import ZArith Lia.
From S2P Require Import Prelude.
Open Scope Z_scope.

(** ** Tickets (bakery_lock.h) *)

Definition bakery_get_priority (t pos : Z) : Z := Z.lor (u32 (Z.shiftl t 8)) pos.

Definition CHOOSING_TICKET : Z := 0x1.
Definition CHOSEN_TICKET : Z := 0x0.

Definition bakery_is_choosing (info : Z) : bool := Z.land info 1 =? CHOOSING_TICKET.

Definition bakery_ticket_number (info : Z) : Z := Z.land (Z.shiftr info 1) 0x7FFF.

Definition make_bakery_data (choosing num : Z) : Z :=
  u16 (Z.lor (Z.land choosing 0x1) (u32 (Z.shiftl num 1))).

(** The other CPU is a contender and has the smaller priority value. *)
Definition goes_first (their_ticket they my_ticket me : Z) : bool :=
  negb (their_ticket =? 0) && (bakery_get_priority their_ticket they <? bakery_get_priority my_ticket me).

(** ** Locks in coherent memory *)

Module Coherent.
Section Coherent.
(** The number of CPUs, and whether the build has assertions. *)
Context (BAKERY_LOCK_MAX_CPUS : Z) (ENABLE_ASSERTIONS : bool).

(** Where a CPU is.  [GetEnter] .. [Contend] are the accesses of
    bakery_lock_get(), in order; [RelEnter] and [RelStore] those of
    bakery_lock_release().  [GetEnter] and [RelEnter] are the reads of the
    assertions; a build without them passes through. *)
Inductive pc :=
| Outside
| GetEnter
| GetMark
| Scan (they my_ticket : Z)
| GetStore (my_ticket : Z)
| Wait (they my_ticket : Z)
| Contend (they my_ticket their_ticket : Z)
| Held
| RelEnter
| RelStore
| Failed.

Record state := MkState { lock_data : list Z; pcs : list pc }.

(** One access of CPU [me].  A failed assertion and an access outside the
    array lead to [Failed]. *)
Definition exec (me : Z) (data : list Z) (p : pc) : pc * list Z :=
  match p with
  | Outside | Held | Failed => (p, data)
  | GetEnter =>
      if ENABLE_ASSERTIONS then
        match zget data me with
        | Some d =>
            if (me <? BAKERY_LOCK_MAX_CPUS) && (bakery_ticket_number d =? 0) then (GetMark, data)
            else (Failed, data)
        | None => (Failed, data)
        end
      else (GetMark, data)
  | GetMark =>
      match zput data me (make_bakery_data CHOOSING_TICKET 0) with
      | Some data' => (Scan 0 0, data')
      | None => (Failed, data)
      end
  | Scan they my_ticket =>
      if they <? BAKERY_LOCK_MAX_CPUS then
        match zget data they with
        | Some d =>
            let their_ticket := bakery_ticket_number d in
            (Scan (they + 1) (if my_ticket <? their_ticket then their_ticket else my_ticket), data)
        | None => (Failed, data)
        end
      else (GetStore (u32 (my_ticket + 1)), data)
  | GetStore my_ticket =>
      match zput data me (make_bakery_data CHOSEN_TICKET my_ticket) with
      | Some data' => (Wait 0 my_ticket, data')
      | None => (Failed, data)
      end
  | Wait they my_ticket =>
      if they <? BAKERY_LOCK_MAX_CPUS then
        if me =? they then (Wait (they + 1) my_ticket, data)
        else
          match zget data they with
          | Some their_bakery_data =>
              if bakery_is_choosing their_bakery_data then (Wait they my_ticket, data)
              else
                let their_ticket := bakery_ticket_number their_bakery_data in
                if goes_first their_ticket they my_ticket me then (Contend they my_ticket their_ticket, data)
                else (Wait (they + 1) my_ticket, data)
          | None => (Failed, data)
          end
      else (Held, data)
  | Contend they my_ticket their_ticket =>
      match zget data they with
      | Some d =>
          if their_ticket =? bakery_ticket_number d then (Contend they my_ticket their_ticket, data)
          else (Wait (they + 1) my_ticket, data)
      | None => (Failed, data)
      end
  | RelEnter =>
      if ENABLE_ASSERTIONS then
        match zget data me with
        | Some d =>
            if (me <? BAKERY_LOCK_MAX_CPUS) && negb (bakery_ticket_number d =? 0) then (RelStore, data)
            else (Failed, data)
        | None => (Failed, data)
        end
      else (RelStore, data)
  | RelStore =>
      match zput data me 0 with
      | Some data' => (Outside, data')
      | None => (Failed, data)
      end
  end.

(** CPU [me] goes on; it calls bakery_lock_get(); it calls
    bakery_lock_release(). *)
Definition advance (me : Z) (s : state) : state :=
  match zget (pcs s) me with
  | Some p => let '(p', data) := exec me (lock_data s) p in MkState data (zset (pcs s) me p')
  | None => s
  end.

Definition bakery_lock_get (me : Z) (s : state) : state :=
  match zget (pcs s) me with Some Outside => MkState (lock_data s) (zset (pcs s) me GetEnter) | _ => s end.

Definition bakery_lock_release (me : Z) (s : state) : state :=
  match zget (pcs s) me with Some Held => MkState (lock_data s) (zset (pcs s) me RelEnter) | _ => s end.

(** A lock that no CPU uses; locks start as zeroes. *)
Definition init : state :=
  MkState (replicate (Z.to_nat BAKERY_LOCK_MAX_CPUS) 0) (replicate (Z.to_nat BAKERY_LOCK_MAX_CPUS) Outside).

(** The ticket CPU [me] publishes with its next access counts. *)
Definition taken (me : Z) (s : state) : Z :=
  match zget (pcs s) me with Some (GetStore _) => 1 | _ => 0 end.

(** A step of the system, with the number of tickets that were given out
    since the lock was unused: at most the largest ticket there is. *)
Inductive step : Z * state → Z * state → Prop :=
| step_advance n me s :
    0 ≤ me < BAKERY_LOCK_MAX_CPUS → n + taken me s ≤ 0x7FFF → step (n, s) (n + taken me s, advance me s)
| step_get n me s : 0 ≤ me < BAKERY_LOCK_MAX_CPUS → step (n, s) (n, bakery_lock_get me s)
| step_release n me s : 0 ≤ me < BAKERY_LOCK_MAX_CPUS → step (n, s) (n, bakery_lock_release me s)
| step_unused n s : Forall (.= Outside) (pcs s) → step (n, s) (0, s).
End Coherent.
End Coherent.

(** ** Locks in normal memory

    The entry of each CPU is in a cache line of its own.  CPUs whose data
    cache is on share a coherent cache; the others read and write memory.
    The cache may fetch or evict a line at any time. *)

Module Normal.

(** Memory and the line of an address, with its dirty mark. *)
Record cmem := MkCmem { mem : Z → Z; line : Z → option (Z * bool) }.

Definition set_mem (a v : Z) (m : cmem) : cmem := MkCmem (<[a := v]> (mem m)) (line m).
Definition set_line (a : Z) (l : option (Z * bool)) (m : cmem) : cmem := MkCmem (mem m) (<[a := l]> (line m)).

(** Clean; invalidate; clean and invalidate, by address. *)
Definition dccvac (a : Z) (m : cmem) : cmem :=
  match line m a with Some (v, true) => set_line a (Some (v, false)) (set_mem a v m) | _ => m end.
Definition dcivac (a : Z) (m : cmem) : cmem := set_line a None m.
Definition dccivac (a : Z) (m : cmem) : cmem :=
  match line m a with Some (v, true) => set_line a None (set_mem a v m) | _ => set_line a None m end.

(** The cache fetches a line. *)
Definition fetch (a : Z) (m : cmem) : cmem :=
  match line m a with None => set_line a (Some (mem m a, false)) m | Some _ => m end.

(** A load and a store with the data cache on or off. *)
Definition seen (cached : bool) (a : Z) (m : cmem) : Z :=
  if cached then match line m a with Some (v, _) => v | None => mem m a end else mem m a.
Definition load (cached : bool) (a : Z) (m : cmem) : Z * cmem := (seen cached a m, if cached then fetch a m else m).
Definition store (cached : bool) (a v : Z) (m : cmem) : cmem :=
  if cached then set_line a (Some (v, true)) m else set_mem a v m.

Definition write_cache_op (addr : Z) (cached : bool) (m : cmem) : cmem :=
  if cached then dccvac addr m else dcivac addr m.
Definition read_cache_op (addr : Z) (cached : bool) (m : cmem) : cmem :=
  if cached then dccivac addr m else m.

Section Normal.
(** The number of CPUs, the distance of their entries, the address of the
    lock, which is that of the entry of CPU 0, and whether the build has
    assertions. *)
Context (BAKERY_LOCK_MAX_CPUS PERCPU_BAKERY_LOCK_SIZE lock : Z) (ENABLE_ASSERTIONS : bool).

Definition get_bakery_info (cpu_ix : Z) : Z := u64 (lock + u64 (cpu_ix * PERCPU_BAKERY_LOCK_SIZE)).

(** Where a CPU is, with [is_cached], its result of is_dcache_enabled() in
    this call.  A name that ends in Op is the cache maintenance before a load
    or behind a store.  [GetEnter] and [RelEnter] are the loads of
    is_lock_acquired(), which only the assertions call. *)
Inductive pc :=
| Outside
| GetEnterOp (is_cached : bool)
| GetEnter (is_cached : bool)
| GetMark (is_cached : bool)
| GetMarkOp (is_cached : bool)
| ScanOp (is_cached : bool) (they my_ticket : Z)
| Scan (is_cached : bool) (they my_ticket : Z)
| GetStore (is_cached : bool) (my_ticket : Z)
| GetStoreOp (is_cached : bool) (my_ticket : Z)
| WaitOp (is_cached : bool) (they my_ticket : Z)
| Wait (is_cached : bool) (they my_ticket : Z)
| ContendOp (is_cached : bool) (they my_ticket their_ticket : Z)
| Contend (is_cached : bool) (they my_ticket their_ticket : Z)
| Held
| RelEnterOp (is_cached : bool)
| RelEnter (is_cached : bool)
| RelStore (is_cached : bool)
| RelStoreOp (is_cached : bool)
| Failed.

Record state := MkState { cm : cmem; pcs : list pc }.

(** One access or cache maintenance instruction of CPU [me].  A failed
    assertion and an access through a null pointer lead to [Failed]. *)
Definition exec (me : Z) (m : cmem) (p : pc) : pc * cmem :=
  let my_bakery_info := get_bakery_info me in
  match p with
  | Outside | Held | Failed => (p, m)
  | GetEnterOp c =>
      if my_bakery_info =? 0 then (Failed, m)
      else if ENABLE_ASSERTIONS then (GetEnter c, read_cache_op my_bakery_info c m)
      else (GetMark c, m)
  | GetEnter c =>
      let '(d, m) := load c my_bakery_info m in
      if negb (bakery_ticket_number d =? 0) then (Failed, m) else (GetMark c, m)
  | GetMark c => (GetMarkOp c, store c my_bakery_info (make_bakery_data CHOOSING_TICKET 0) m)
  | GetMarkOp c => (ScanOp c 0 0, write_cache_op my_bakery_info c m)
  | ScanOp c they my_ticket =>
      if they <? BAKERY_LOCK_MAX_CPUS then
        if me =? they then (ScanOp c (they + 1) my_ticket, m)
        else if get_bakery_info they =? 0 then (Failed, m)
        else (Scan c they my_ticket, read_cache_op (get_bakery_info they) c m)
      else (GetStore c (u32 (my_ticket + 1)), m)
  | Scan c they my_ticket =>
      let '(d, m) := load c (get_bakery_info they) m in
      let their_ticket := bakery_ticket_number d in
      (ScanOp c (they + 1) (if my_ticket <? their_ticket then their_ticket else my_ticket), m)
  | GetStore c my_ticket =>
      (GetStoreOp c my_ticket, store c my_bakery_info (make_bakery_data CHOSEN_TICKET my_ticket) m)
  | GetStoreOp c my_ticket => (WaitOp c 0 my_ticket, write_cache_op my_bakery_info c m)
  | WaitOp c they my_ticket =>
      if they <? BAKERY_LOCK_MAX_CPUS then
        if me =? they then (WaitOp c (they + 1) my_ticket, m)
        else if get_bakery_info they =? 0 then (Failed, m)
        else (Wait c they my_ticket, read_cache_op (get_bakery_info they) c m)
      else (Held, m)
  | Wait c they my_ticket =>
      let '(their_bakery_data, m) := load c (get_bakery_info they) m in
      if bakery_is_choosing their_bakery_data then (WaitOp c they my_ticket, m)
      else
        let their_ticket := bakery_ticket_number their_bakery_data in
        if goes_first their_ticket they my_ticket me then (ContendOp c they my_ticket their_ticket, m)
        else (WaitOp c (they + 1) my_ticket, m)
  | ContendOp c they my_ticket their_ticket =>
      (Contend c they my_ticket their_ticket, read_cache_op (get_bakery_info they) c m)
  | Contend c they my_ticket their_ticket =>
      let '(d, m) := load c (get_bakery_info they) m in
      if their_ticket =? bakery_ticket_number d then (ContendOp c they my_ticket their_ticket, m)
      else (WaitOp c (they + 1) my_ticket, m)
  | RelEnterOp c =>
      if ENABLE_ASSERTIONS then (RelEnter c, read_cache_op my_bakery_info c m) else (RelStore c, m)
  | RelEnter c =>
      let '(d, m) := load c my_bakery_info m in
      if negb (bakery_ticket_number d =? 0) then (RelStore c, m) else (Failed, m)
  | RelStore c => (RelStoreOp c, store c my_bakery_info 0 m)
  | RelStoreOp c => (Outside, write_cache_op my_bakery_info c m)
  end.

Definition advance (me : Z) (s : state) : state :=
  match zget (pcs s) me with
  | Some p => let '(p', m) := exec me (cm s) p in MkState m (zset (pcs s) me p')
  | None => s
  end.

Definition bakery_lock_get (cached : bool) (me : Z) (s : state) : state :=
  match zget (pcs s) me with Some Outside => MkState (cm s) (zset (pcs s) me (GetEnterOp cached)) | _ => s end.

Definition bakery_lock_release (cached : bool) (me : Z) (s : state) : state :=
  match zget (pcs s) me with Some Held => MkState (cm s) (zset (pcs s) me (RelEnterOp cached)) | _ => s end.

Definition init : state :=
  MkState (MkCmem (λ _, 0) (λ _, None)) (replicate (Z.to_nat BAKERY_LOCK_MAX_CPUS) Outside).

(** The ticket CPU [me] publishes with its next access counts. *)
Definition taken (me : Z) (s : state) : Z :=
  match zget (pcs s) me with Some (GetStore _ _) => 1 | _ => 0 end.

(** A step of the system (a CPU may have its cache on in one call and off in
    the next), with the number of tickets that were given out
    since the lock was unused: at most the largest ticket there is. *)
Inductive step : Z * state → Z * state → Prop :=
| step_advance n me s :
    0 ≤ me < BAKERY_LOCK_MAX_CPUS → n + taken me s ≤ 0x7FFF → step (n, s) (n + taken me s, advance me s)
| step_get n cached me s : 0 ≤ me < BAKERY_LOCK_MAX_CPUS → step (n, s) (n, bakery_lock_get cached me s)
| step_release n cached me s : 0 ≤ me < BAKERY_LOCK_MAX_CPUS → step (n, s) (n, bakery_lock_release cached me s)
(** The cache evicts or fetches a line. *)
| step_evict n a s : step (n, s) (n, MkState (dccivac a (cm s)) (pcs s))
| step_fetch n a s : step (n, s) (n, MkState (fetch a (cm s)) (pcs s))
| step_unused n s : Forall (.= Outside) (pcs s) → step (n, s) (0, s).
End Normal.
End Normal.
