(* ===== verification/BakeryAlg.v ===== *)
(** * The bakery algorithm

    The algorithm of both lock implementations over an abstract memory: a
    store takes time, during which each other CPU sees the old value up to
    some moment of its own and the new value from then on.  [no_two_hold] and
    [first_come_first_served] are its properties; [BakerySpec] shows that the
    code refines it. *)

From stdpp Require Import base numbers functions relations.
From Stdlib Require Import ZArith Lia.
From S2P Require Import Prelude.
Open Scope Z_scope.

(** Where a CPU is.  [Mark], [Publish] and [Leave] are stores in progress;
    [Scan they best] looks for the largest ticket; [Wait they t] is about to
    look at CPU [they]; [Behind they t n] waits for CPU [they] to give up
    ticket [n]. *)
Inductive place :=
| Idle
| Mark
| Scan (they best : Z)
| Publish (t : Z)
| Wait (they t : Z)
| Behind (they t n : Z)
| Hold (t : Z)
| Leave (t : Z).

(** What the entry of a CPU holds: whether it is choosing, and its ticket. *)
Definition entry : Type := bool * Z.

(** The entry as a CPU sees it to which the store in progress is visible, or
    not yet. *)
Definition shown (p : place) (visible : bool) : entry :=
  match p with
  | Idle => (false, 0)
  | Mark => (visible, 0)
  | Scan _ _ => (true, 0)
  | Publish t => if visible then (false, t) else (true, 0)
  | Wait _ t | Behind _ t _ | Hold t => (false, t)
  | Leave t => (false, if visible then 0 else t)
  end.

(** [at_ i]: where CPU [i] is; [vis i j]: CPU [j] sees the store CPU [i] has
    in progress; [given]: tickets since the lock was unused. *)
Record alg := MkAlg { at_ : Z → place; vis : Z → Z → bool; given : Z }.

Definition view (a : alg) (i j : Z) : entry := shown (at_ a i) (vis a i j).

Definition move (i : Z) (p : place) (a : alg) : alg := MkAlg (<[i := p]> (at_ a)) (vis a) (given a).

(** The store CPU [i] begins is visible to nobody. *)
Definition hide (i : Z) (a : alg) : alg := MkAlg (at_ a) (<[i := λ _, false]> (vis a)) (given a).

Definition before (t i u j : Z) : Prop := t < u ∨ (t = u ∧ i < j).

Section Alg.
(** The number of CPUs and the largest ticket. *)
Context (N top : Z).

(** A step of CPU [i], or of none. *)
Inductive go : option Z → alg → alg → Prop :=
| go_visible f a :
    go None a (MkAlg (at_ a) (λ i j, vis a i j || f i j) (given a))
| go_unused a :
    (∀ i, 0 ≤ i < N → at_ a i = Idle) → go None a (MkAlg (at_ a) (vis a) 0)
| go_mark i f a :
    0 ≤ i < N → at_ a i = Idle →
    go (Some i) a (MkAlg (<[i := Mark]> (at_ a))
                     (λ k j, if decide (j = i) then f k else if decide (k = i) then false else vis a k j) (given a))
| go_marked i a : 0 ≤ i < N → at_ a i = Mark → go (Some i) a (move i (Scan 0 0) a)
| go_scan i they best a :
    0 ≤ i < N → at_ a i = Scan they best → 0 ≤ they < N → they ≠ i →
    go (Some i) a (move i (Scan (they + 1) (Z.max best (view a they i).2)) a)
| go_scan_self i best a : 0 ≤ i < N → at_ a i = Scan i best → go (Some i) a (move i (Scan (i + 1) best) a)
| go_publish i best a :
    0 ≤ i < N → at_ a i = Scan N best → given a < top →
    go (Some i) a (MkAlg (<[i := Publish (best + 1)]> (at_ a)) (<[i := λ _, false]> (vis a)) (given a + 1))
| go_published i t a : 0 ≤ i < N → at_ a i = Publish t → go (Some i) a (move i (Wait 0 t) a)
| go_wait_self i t a : 0 ≤ i < N → at_ a i = Wait i t → go (Some i) a (move i (Wait (i + 1) t) a)
| go_pass i they t n a :
    0 ≤ i < N → at_ a i = Wait they t → 0 ≤ they < N → they ≠ i →
    view a they i = (false, n) → n = 0 ∨ before t i n they → go (Some i) a (move i (Wait (they + 1) t) a)
| go_behind i they t n a :
    0 ≤ i < N → at_ a i = Wait they t → 0 ≤ they < N → they ≠ i →
    view a they i = (false, n) → n ≠ 0 → before n they t i → go (Some i) a (move i (Behind they t n) a)
| go_next i they t n a :
    0 ≤ i < N → at_ a i = Behind they t n → (view a they i).2 ≠ n → go (Some i) a (move i (Wait (they + 1) t) a)
| go_hold i t a : 0 ≤ i < N → at_ a i = Wait N t → go (Some i) a (move i (Hold t) a)
| go_leave i t a : 0 ≤ i < N → at_ a i = Hold t → go (Some i) a (hide i (move i (Leave t) a))
| go_left i t a : 0 ≤ i < N → at_ a i = Leave t → go (Some i) a (move i Idle a).

(** ** The invariant *)

(** CPU [j] is no danger to CPU [i] that has ticket [t]: if it has a ticket
    or gets one it comes after. *)
Definition yields (i t j : Z) (p : place) : Prop :=
  match p with
  | Idle | Mark | Leave _ => True
  | Scan k best => i < k → t ≤ best
  | Publish u | Wait _ u | Behind _ u _ | Hold u => before t i u j
  end.

(** CPU [i] sees ticket [n] of CPU [j], which has not left. *)
Definition keeps (n i : Z) (p : place) (visible : bool) : Prop :=
  match p with
  | Publish u => u = n ∧ visible = true
  | Wait _ u | Behind _ u _ | Hold u => u = n
  | _ => False
  end.

(** Between CPU [i] at [p] and CPU [j] at [q]. *)
Definition pair_ok (i j : Z) (p q : place) (visible : bool) : Prop :=
  match p with
  | Wait k t => j < k → yields i t j q
  | Behind k t n => (j < k → yields i t j q) ∧ (j = k → yields i t j q ∨ keeps n i q visible)
  | Hold t => yields i t j q
  | _ => True
  end.

(** Tickets are those given out; loop variables are in range. *)
Definition place_ok (i g : Z) (p : place) : Prop :=
  match p with
  | Idle | Mark => True
  | Scan k best => 0 ≤ k ≤ N ∧ 0 ≤ best ≤ g
  | Wait k t => 0 ≤ k ≤ N ∧ 0 < t ≤ g
  | Behind k t n => 0 ≤ k < N ∧ k ≠ i ∧ 0 < t ≤ g ∧ 0 < n
  | Publish t | Hold t | Leave t => 0 < t ≤ g
  end.

Record alg_ok (a : alg) : Prop := {
  ok_given : 0 ≤ given a ≤ top;
  ok_place : ∀ i, 0 ≤ i < N → place_ok i (given a) (at_ a i);
  ok_pair : ∀ i j, 0 ≤ i < N → 0 ≤ j < N → i ≠ j → pair_ok i j (at_ a i) (at_ a j) (vis a j i);
}.

(** The invariant after CPU [i] went from [p] to [p']: what it knows of the
    others, and what they know of it. *)
Lemma alg_ok_moved i p p' a vis' given' :
  0 ≤ i < N → at_ a i = p → alg_ok a → given a ≤ given' ≤ top → place_ok i given' p' →
  (∀ j k, j ≠ i → k ≠ i → vis' j k = vis a j k) →
  (∀ j, 0 ≤ j < N → j ≠ i → place_ok j (given a) (at_ a j) →
     pair_ok i j p (at_ a j) (vis a j i) → pair_ok i j p' (at_ a j) (vis' j i)) →
  (∀ j t, 0 ≤ j < N → j ≠ i → (∀ v, shown (at_ a j) v = (false, t)) → yields j t i p → yields j t i p') →
  (∀ j n, j ≠ i → keeps n j p (vis a i j) → p' = Leave n ∨ keeps n j p' (vis' i j)) →
  alg_ok (MkAlg (<[i := p']> (at_ a)) vis' given').
Proof.
  intros Hi Hat [Hg Hp Hq] Hgiven Hpi Hvis Hmine Hy Hk. split; simpl; [lia| |].
  - intros j Hj. destruct (decide (j = i)) as [->|Hne]; [by rewrite fn_lookup_insert|].
    rewrite fn_lookup_insert_ne by done. specialize (Hp j Hj). destruct (at_ a j); simpl in *; lia.
  - intros j k Hj Hk' Hne. specialize (Hq j k Hj Hk' Hne).
    destruct (decide (j = i)) as [->|Hji]; [rewrite fn_lookup_insert, fn_lookup_insert_ne by done|].
    + rewrite Hat in Hq. auto.
    + rewrite (fn_lookup_insert_ne _ i j) by done. destruct (decide (k = i)) as [->|Hki].
      * rewrite fn_lookup_insert, Hat in *. destruct (at_ a j) as [| | | |u t|u t n|t|] eqn:E; simpl in *; try done.
        -- intros Hlt. apply Hy; auto. by rewrite E.
        -- destruct Hq as [Hq1 Hq2]. split; [intros Hlt; apply Hy; auto; by rewrite E|].
           intros Heq. destruct (Hq2 Heq) as [?|H]; [left; apply Hy; auto; by rewrite E|].
           destruct (Hk j n Hji H) as [->|?]; [by left|by right].
        -- apply Hy; auto. by rewrite E.
      * rewrite fn_lookup_insert_ne, Hvis by done. done.
Qed.

(** What CPU [i] knows when it passes CPU [j], whose entry shows no smaller
    ticket. *)
Lemma yields_view i t j g p visible n :
  place_ok j g p → shown p visible = (false, n) → n = 0 ∨ before t i n j → yields i t j p.
Proof.
  intros Hp Hs Hb. destruct p; simpl in *; try done; simplify_eq; try (destruct Hb; [lia|done]).
  destruct visible; [|done]. simplify_eq. destruct Hb; [lia|done].
Qed.

(** A ticket that is seen is kept by CPU [j], or CPU [j] is about to leave. *)
Lemma keeps_view i t j p visible n :
  shown p visible = (false, n) → n ≠ 0 → yields i t j p ∨ keeps n i p visible.
Proof. intros Hs Hn. destruct p, visible; simpl in *; simplify_eq; auto. Qed.

Lemma keeps_shown n i p visible : keeps n i p visible → (shown p visible).2 = n.
Proof. destruct p; simpl; try done. by intros [-> ->]. Qed.

Lemma shown_given j g p visible : 0 ≤ g → place_ok j g p → 0 ≤ (shown p visible).2 ≤ g.
Proof. destruct p, visible; simpl; lia. Qed.

(** CPU [i] goes from one place to another; what is left are the facts that
    depend on the step. *)
Ltac other_cpu Hp Hpi Hok Hi :=
  pose proof (ok_place _ Hok _ Hi) as Hpi; rewrite Hp in Hpi; simpl in Hpi;
  unfold move, hide; simpl; eapply alg_ok_moved; simpl; [done|exact Hp|done|lia|try (simpl; lia)|..];
  simpl; try done; try (intros; rewrite ?fn_lookup_insert_ne by done; done); try (intros; lia);
  try (intros ? ? _ <-; auto).

Lemma go_ok l a a' : go l a a' → alg_ok a → alg_ok a'.
Proof.
  intros Hgo Hok. pose proof (ok_given _ Hok) as Hg.
  destruct Hgo as [f a|a Hu|i f a Hi Hp|i a Hi Hp|i k b a Hi Hp Hk Hne|i b a Hi Hp|i b a Hi Hp Ht|i t a Hi Hp
    |i t a Hi Hp|i k t n a Hi Hp Hk Hne Hv Hb|i k t n a Hi Hp Hk Hne Hv Hn Hb|i k t n a Hi Hp Hv|i t a Hi Hp
    |i t a Hi Hp|i t a Hi Hp].
  - destruct Hok as [_ Hp Hq]. split; [done|done|]. intros i j Hi Hj Hne. specialize (Hq i j Hi Hj Hne). simpl.
    destruct (at_ a i); try done. destruct Hq as [Hq1 Hq2]. split; [done|].
    intros Heq. destruct (Hq2 Heq) as [?|Hk]; [by left|right]. destruct (at_ a j); simpl in *; try done.
    by destruct Hk as [-> ->].
  - split; simpl; [lia| |]; intros; by rewrite Hu.
  - eapply alg_ok_moved; simpl; [done|exact Hp|done|lia|..]; try done. intros. by rewrite !decide_False.
  - other_cpu Hp Hpi Hok Hi.
  - other_cpu Hp Hpi Hok Hi.
    + pose proof (shown_given k (given a) (at_ a k) (vis a k i) ltac:(lia) (ok_place _ Hok k Hk)).
      unfold view. lia.
    + intros j t Hj Hji Hs Hle Hlt. destruct (decide (j = k)) as [->|]; [|specialize (Hle ltac:(lia)); lia].
      unfold view. rewrite Hs. simpl. lia.
  - other_cpu Hp Hpi Hok Hi.
  - other_cpu Hp Hpi Hok Hi. intros j t Hj Hji Hs Hle. left. specialize (Hle ltac:(lia)). lia.
  - other_cpu Hp Hpi Hok Hi.
  - other_cpu Hp Hpi Hok Hi. intros j Hj Hji _ Hle Hlt. apply Hle. lia.
  - other_cpu Hp Hpi Hok Hi. intros j Hj Hji Hpj Hle Hlt. destruct (decide (j = k)) as [->|]; [|apply Hle; lia].
    by eapply yields_view.
  - other_cpu Hp Hpi Hok Hi.
    + pose proof (shown_given k (given a) (at_ a k) (vis a k i) ltac:(lia) (ok_place _ Hok k Hk)) as Hs.
      unfold view in Hv. rewrite Hv in Hs. simpl in Hs. lia.
    + intros j Hj Hji Hpj Hle. split; [done|]. intros ->. by apply keeps_view.
  - other_cpu Hp Hpi Hok Hi. intros j Hj Hji Hpj [Hle Heq] Hlt.
    destruct (decide (j = k)) as [->|]; [|apply Hle; lia].
    destruct (Heq eq_refl) as [?|Hk%keeps_shown]; [done|]. done.
  - other_cpu Hp Hpi Hok Hi. intros j Hj Hji _ Hle. apply Hle. lia.
  - other_cpu Hp Hpi Hok Hi.
  - other_cpu Hp Hpi Hok Hi.
Qed.

(** ** Mutual exclusion *)

Lemma no_two_hold a i j t u :
  alg_ok a → 0 ≤ i < N → 0 ≤ j < N → at_ a i = Hold t → at_ a j = Hold u → i = j.
Proof.
  intros Hok Hi Hj Ht Hu. destruct (decide (i = j)) as [|Hne]; [done|exfalso].
  pose proof (ok_pair _ Hok i j Hi Hj Hne) as H1. pose proof (ok_pair _ Hok j i Hj Hi (not_eq_sym Hne)) as H2.
  rewrite Ht, Hu in H1, H2. simpl in *. unfold before in *. lia.
Qed.

(** ** First come, first served

    CPU [i] waits with ticket [t]: CPU [j], which was idle then, does not get
    past it. *)

Definition overtaken_not (i t j : Z) (p : place) : Prop :=
  match p with
  | Idle | Mark => True
  | Scan k best => i < k → t ≤ best
  | Publish u => before t i u j
  | Wait k u => before t i u j ∧ k ≤ i
  | Behind k u n => before t i u j ∧ k ≤ i ∧ (k = i → n = t)
  | Hold _ | Leave _ => False
  end.

Definition waits (t : Z) (p : place) : Prop :=
  (∃ k, p = Wait k t) ∨ (∃ k n, p = Behind k t n).

Lemma first_come_first_served l a a' i j t :
  go l a a' → 0 ≤ i < N → 0 < t → l ≠ Some i → i ≠ j → waits t (at_ a i) →
  overtaken_not i t j (at_ a j) → overtaken_not i t j (at_ a' j) ∧ at_ a' i = at_ a i.
Proof.
  intros Hgo Hi Ht0 Hl Hne Hw Ho.
  assert (Hs : ∀ v, shown (at_ a i) v = (false, t)) by (destruct Hw as [[k ->]|(k & n & ->)]; done).
  destruct Hgo as [f a|a Hu|m f a Hm Hp|m a Hm Hp|m k b a Hm Hp Hk Hkm|m b a Hm Hp|m b a Hm Hp Ht|m u a Hm Hp
    |m u a Hm Hp|m k u n a Hm Hp Hk Hkm Hv Hb|m k u n a Hm Hp Hk Hkm Hv Hn Hb|m k u n a Hm Hp Hv|m u a Hm Hp
    |m u a Hm Hp|m u a Hm Hp]; simpl; try done;
    (assert (m ≠ i) by congruence; rewrite (fn_lookup_insert_ne _ m i) by done; split; [|done];
     destruct (decide (m = j)) as [->|Hmj]; [rewrite fn_lookup_insert, Hp in *; simpl in *|by rewrite fn_lookup_insert_ne]);
    try lia; try done.
  all: unfold view in *.
  - intros Hlt. destruct (decide (i = k)) as [<-|]; [rewrite Hs; simpl; lia|]. specialize (Ho ltac:(lia)). lia.
  - left. specialize (Ho ltac:(lia)). lia.
  - split; [done|lia].
  - destruct Ho. split; [done|lia].
  - destruct Ho. split; [done|]. unfold before in *. destruct (decide (k = i)) as [->|]; [|lia].
    rewrite Hs in Hv. simplify_eq. lia.
  - destruct Ho. repeat split; try done. intros ->. rewrite Hs in Hv. by simplify_eq.
  - destruct Ho as (? & ? & Hn). split; [done|]. destruct (decide (k = i)) as [->|]; [|lia].
    rewrite Hs in Hv. simpl in Hv. specialize (Hn eq_refl). congruence.
Qed.
End Alg.
