(* ===== verification/BakeryRef.v ===== *)
(** * The bakery lock in coherent memory refines the algorithm

    Entries and their meaning, what an implementation of the algorithm has to
    show ([Refines]) and what follows from it, and the proof for the lock in
    coherent memory ([CoherentRef]). *)

From stdpp Require Import base list numbers list_numbers functions relations.
From Stdlib Require Import ZArith Lia.
From S2P Require Import Prelude Bytes Bakery BakeryAlg.
Open Scope Z_scope.

Notation "'max_ticket'" := 0x7FFF%Z.

(** ** Entries *)

Definition enc (e : entry) : Z := make_bakery_data (if e.1 then CHOOSING_TICKET else CHOSEN_TICKET) e.2.

(** Entries the algorithm writes: a CPU that chooses has no ticket. *)
Definition entry_ok (e : entry) : Prop := 0 ≤ e.2 ≤ max_ticket ∧ (e.1 = true → e.2 = 0).

Lemma enc_val e : entry_ok e → enc e = (if e.1 then 1 else 2 * e.2).
Proof.
  destruct e as [[] t]; intros [Ht Hc]; simpl in *; [by rewrite Hc|].
  unfold enc, make_bakery_data, u16, u32. simpl fst. simpl snd.
  change (Z.land CHOSEN_TICKET 1) with 0. rewrite Z.lor_0_l, (Z.shiftl_mul_pow2 t 1) by lia.
  rewrite (Z.mod_small (t * 2 ^ 1)) by lia. rewrite Z.mod_small; lia.
Qed.

Lemma ticket_enc e : entry_ok e → bakery_ticket_number (enc e) = e.2.
Proof.
  intros He. rewrite enc_val by done. destruct e as [[] t], He as [Ht Hc]; simpl in *; [by rewrite Hc|].
  unfold bakery_ticket_number. change 0x7FFF with (Z.ones 15).
  rewrite Z.shiftr_div_pow2, Z.land_ones by lia. change (2 ^ 1) with 2.
  rewrite Z.mul_comm, Z.div_mul, Z.mod_small by lia. done.
Qed.

Lemma choosing_enc e : entry_ok e → bakery_is_choosing (enc e) = e.1.
Proof.
  intros He. rewrite enc_val by done. unfold bakery_is_choosing, CHOOSING_TICKET.
  destruct e as [[] t]; [done|]. cbn [fst snd]. change (Z.land (2 * t) 1) with (Z.land (2 * t) (Z.ones 1)).
  rewrite Z.land_ones by lia. change (2 ^ 1) with 2. by rewrite Z.mul_comm, Z_mod_mult.
Qed.

Lemma priority_val t i : 0 ≤ t ≤ max_ticket + 1 → 0 ≤ i < 256 → bakery_get_priority t i = t * 256 + i.
Proof.
  intros Ht Hi. unfold bakery_get_priority. rewrite u32_small by (rewrite Z.shiftl_mul_pow2; lia).
  by apply (lor_shiftl t i 8).
Qed.

Lemma goes_first_iff n j t i :
  0 ≤ n ≤ max_ticket → 0 ≤ t ≤ max_ticket → 0 ≤ i < 256 → 0 ≤ j < 256 →
  goes_first n j t i = true ↔ n ≠ 0 ∧ before n j t i.
Proof.
  intros Hn Ht Hi Hj. unfold goes_first, before. rewrite andb_true_iff, negb_true_iff, Z.eqb_neq, Z.ltb_lt.
  rewrite !priority_val by lia. lia.
Qed.

Lemma before_total t i u j : i ≠ j → ¬ before t i u j → before u j t i.
Proof. unfold before. lia. Qed.

Lemma shown_ok N i g p v : place_ok N i g p → 0 ≤ g ≤ max_ticket → entry_ok (shown p v).
Proof. unfold entry_ok. destruct p, v; simpl; lia. Qed.

(** ** Runs of the algorithm *)

(** Steps of CPU [me] and of the memory. *)
Definition moves (N me : Z) (a a' : alg) : Prop := go N max_ticket (Some me) a a' ∨ go N max_ticket None a a'.

Lemma moves_ok N me a a' : rtc (moves N me) a a' → alg_ok N max_ticket a → alg_ok N max_ticket a'.
Proof. induction 1 as [|a b c [H|H] _ IH]; eauto using go_ok. Qed.

Lemma go_others N l a a' j : go N max_ticket l a a' → l ≠ Some j → at_ a' j = at_ a j.
Proof. intros Hgo Hl. destruct Hgo; simpl; try done; apply fn_lookup_insert_ne; congruence. Qed.

Lemma moves_others N me a a' j : rtc (moves N me) a a' → me ≠ j → at_ a' j = at_ a j.
Proof.
  intros H Hne. induction H as [|a b c H _ IH]; [done|]. rewrite IH.
  destruct H as [H|H]; eapply go_others; eauto; congruence.
Qed.

Lemma moves_one N me a a' : go N max_ticket (Some me) a a' → rtc (moves N me) a a'.
Proof. intros H. apply rtc_once. by left. Qed.

Lemma moves_two N me a b c :
  go N max_ticket (Some me) a b → go N max_ticket (Some me) b c → rtc (moves N me) a c.
Proof. intros H1 H2. eapply rtc_l; [by left|]. by apply moves_one. Qed.

(** A CPU that has its ticket is not overtaken. *)
Lemma moves_overtaken_not N me a a' i j t :
  rtc (moves N me) a a' → 0 ≤ i < N → 0 < t → i ≠ j → (me ≠ i → waits t (at_ a i)) →
  overtaken_not i t j (at_ a j) → overtaken_not i t j (at_ a' j).
Proof.
  intros H Hi Ht Hne Hw Ho. destruct (decide (me = i)) as [->|Hme]; [by rewrite (moves_others N i a a' j)|].
  specialize (Hw Hme). induction H as [|a b c H _ IH]; [done|].
  assert (overtaken_not i t j (at_ b j) ∧ at_ b i = at_ a i) as [Ho' Hb].
  { destruct H as [H|H]; eapply first_come_first_served; eauto; congruence. }
  apply IH; [|done]. by rewrite Hb.
Qed.

(** ** What a lock implementation has to show

    [St] is the state of the system, [step] and [start] act on it together
    with the number of tickets given out.  [ticket_of] is the ticket of a CPU
    that waits for its turn, [holds] and [outside] whether it has the lock or
    does not use it. *)
Class Refines {St : Type} (N : Z) (step : Z * St → Z * St → Prop) (start : Z * St)
    (ticket_of : Z → St → option Z) (holds outside failed : Z → St → Prop) (rel : Z * St → alg → Prop) : Prop := {
  ref_ok c a : rel c a → alg_ok N max_ticket a;
  ref_start : ∃ a, rel start a;
  ref_step c c' a : rel c a → step c c' → ∃ me a', rtc (moves N me) a a' ∧ rel c' a' ∧
    (∀ i t u, 0 ≤ i < N → ticket_of i c.2 = Some t → ticket_of i c'.2 = Some u → u = t);
  ref_ticket c a i t : rel c a → 0 ≤ i < N → ticket_of i c.2 = Some t → waits t (at_ a i);
  ref_holds c a i : rel c a → 0 ≤ i < N → holds i c.2 → ∃ t, at_ a i = Hold t;
  ref_outside c a i : rel c a → 0 ≤ i < N → outside i c.2 → at_ a i = Idle;
  ref_failed c a i : rel c a → 0 ≤ i < N → ¬ failed i c.2;
}.

Section Refined.
Context {St : Type} {N : Z} {step : Z * St → Z * St → Prop} {start : Z * St} {ticket_of : Z → St → option Z}
  {holds outside failed : Z → St → Prop} {rel : Z * St → alg → Prop}.
Context {R : Refines N step start ticket_of holds outside failed rel}.

Lemma run_rel x c a : rtc step x c → rel x a → ∃ a, rel c a.
Proof.
  intros H. revert a. induction H as [|x y z Hs _ IH]; [eauto|]. intros a Ha.
  destruct (ref_step (Refines := R) _ _ _ Ha Hs) as (me & a' & _ & Ha' & _). eauto.
Qed.

Lemma reach_rel c : rtc step start c → ∃ a, rel c a.
Proof. destruct (ref_start (Refines := R)) as [a Ha]. intros H. by eapply run_rel. Qed.

(** In every reachable state at most one CPU has the lock, and no assertion
    has failed. *)
Lemma refined_excludes c :
  rtc step start c →
  (∀ i j, 0 ≤ i < N → 0 ≤ j < N → holds i c.2 → holds j c.2 → i = j) ∧
  (∀ i, 0 ≤ i < N → ¬ failed i c.2).
Proof.
  intros Hc. destruct (reach_rel c Hc) as [a Ha]. split; [|intros; by eapply (ref_failed (Refines := R))].
  intros i j Hi Hj [t Ht]%(ref_holds (Refines := R) c a) [u Hu]%(ref_holds (Refines := R) c a); try done.
  eapply no_two_hold; [by eapply (ref_ok (Refines := R))|done..].
Qed.

(** While a CPU waits for its turn, no CPU gets the lock that did not use it
    before. *)
Lemma refined_no_overtaking c c' i j t :
  rtc step start c → 0 ≤ i < N → 0 ≤ j < N → j ≠ i → ticket_of i c.2 = Some t → outside j c.2 →
  rtc (λ x y, step x y ∧ ticket_of i y.2 ≠ None) c c' → ¬ holds j c'.2.
Proof.
  intros Hc Hi Hj Hne Ht Hout Hr. destruct (reach_rel c Hc) as [a Ha].
  assert (0 < t) as Hpos.
  { pose proof (ok_place _ _ _ (ref_ok (Refines := R) _ _ Ha) i Hi) as Hpl. apply (ref_ticket (Refines := R) _ a) in Ht; [|done..].
    destruct Ht as [[k Hk]|(k & m & Hk)]; rewrite Hk in Hpl; simpl in Hpl; lia. }
  assert (overtaken_not i t j (at_ a j)) as Ho by (by rewrite (ref_outside (Refines := R) c a)).
  clear Hc Hout. revert a Ha Ht Ho. induction Hr as [c|c1 c2 c3 [Hs Hw] _ IH]; intros a Ha Ht Ho.
  - intros [u Hu]%(ref_holds (Refines := R) c a); [|done..]. by rewrite Hu in Ho.
  - destruct (ref_step (Refines := R) _ _ _ Ha Hs) as (me & a' & Hm & Ha' & Hsame).
    destruct (ticket_of i c2.2) as [u|] eqn:Hu; [|done]. pose proof (Hsame _ _ _ Hi Ht Hu) as ->.
    apply (IH a' Ha' eq_refl). eapply moves_overtaken_not; eauto. intros _. by eapply (ref_ticket (Refines := R)).
Qed.
End Refined.

(** ** Coherent memory *)

Module CoherentRef.
Section CoherentRef.
Context (N : Z) (N_pos : 0 < N ≤ 256) (EA : bool).
Import Coherent.

Definition pc_rel (p : pc) (q : place) : Prop :=
  match p with
  | Outside | GetEnter | GetMark => q = Idle
  | Scan k b => q = BakeryAlg.Scan k b
  | GetStore t => q = BakeryAlg.Scan N (t - 1)
  | Wait k t => q = BakeryAlg.Wait k t
  | Contend k t n => q = Behind k t n
  | Held | RelEnter | RelStore => ∃ t, q = Hold t
  | Failed => False
  end.

(** A state of the system and one of the algorithm; no store is in progress. *)
Record rel (c : Z * state) (a : alg) : Prop := {
  rel_ok : alg_ok N max_ticket a;
  rel_given : given a = c.1;
  rel_pcs : zlen (pcs c.2) = N;
  rel_data : zlen (lock_data c.2) = N;
  rel_pc : ∀ i, 0 ≤ i < N → ∃ p, zget (pcs c.2) i = Some p ∧ pc_rel p (at_ a i);
  rel_entry : ∀ i, 0 ≤ i < N → zget (lock_data c.2) i = Some (enc (shown (at_ a i) true));
}.

(** What a CPU reads. *)
Lemma rel_read c a i : rel c a → 0 ≤ i < N →
  ∃ e v, zget (lock_data c.2) i = Some (enc e) ∧ entry_ok e ∧ e = shown (at_ a i) v ∧ (∀ j, view a i j = e).
Proof.
  intros H Hi. exists (shown (at_ a i) true), true.
  pose proof (rel_entry _ _ H i Hi). destruct (rel_pc _ _ H i Hi) as (p & _ & Hp).
  split; [done|]. split; [eapply shown_ok; [by apply H|apply H]|]. split; [done|].
  intros j. unfold view. destruct p; simpl in Hp; try done; try (by rewrite Hp); by destruct Hp as [? ->].
Qed.

(** CPU [me] goes to [p'] and leaves its entry as the algorithm does. *)
Lemma rel_update n n' data pcs0 a a' me p' data' :
  rel (n, MkState data pcs0) a → 0 ≤ me < N → rtc (moves N me) a a' → given a' = n' → pc_rel p' (at_ a' me) →
  data' = zset data me (enc (shown (at_ a' me) true)) →
  rel (n', MkState data' (zset pcs0 me p')) a'.
Proof.
  intros [Hok Hg Hl Hd Hp He] Hme Hm Hg' Hp' ->. simpl in *. split; simpl.
  - by eapply moves_ok.
  - done.
  - by rewrite zlen_zset.
  - by rewrite zlen_zset.
  - intros i Hi. rewrite zget_zset by lia. case_decide; [subst; eauto|].
    rewrite (moves_others N me a a' i) by done. auto.
  - intros i Hi. rewrite zget_zset by lia. case_decide; [by subst|].
    rewrite (moves_others N me a a' i) by done. auto.
Qed.

(** A step that leaves the entry alone, one that leaves the algorithm alone,
    and a store. *)
Lemma sim_quiet n n' data pcs0 a a' me p' :
  rel (n, MkState data pcs0) a → 0 ≤ me < N → rtc (moves N me) a a' → given a' = n' → pc_rel p' (at_ a' me) →
  shown (at_ a' me) true = shown (at_ a me) true →
  ∃ a', rtc (moves N me) a a' ∧ rel (n', MkState data (zset pcs0 me p')) a'.
Proof.
  intros H Hme Hm Hg Hp Hs. exists a'. split; [done|]. eapply rel_update; eauto. rewrite Hs. symmetry.
  apply zset_same. by apply (rel_entry _ _ H).
Qed.

Lemma sim_stay n data pcs0 a me p' :
  rel (n, MkState data pcs0) a → 0 ≤ me < N → pc_rel p' (at_ a me) →
  ∃ a', rtc (moves N me) a a' ∧ rel (n, MkState data (zset pcs0 me p')) a'.
Proof. intros H Hme Hp. eapply sim_quiet; eauto; [done|by apply H]. Qed.

Lemma sim_store n n' data pcs0 a a' me p' v :
  rel (n, MkState data pcs0) a → 0 ≤ me < N → rtc (moves N me) a a' → given a' = n' → pc_rel p' (at_ a' me) →
  v = enc (shown (at_ a' me) true) →
  ∃ a', rtc (moves N me) a a' ∧
    rel (n', let '(p, d) := match zput data me v with Some d => (p', d) | None => (Failed, data) end in
             MkState d (zset pcs0 me p)) a'.
Proof.
  intros H Hme Hm Hg Hp ->. exists a'. split; [done|]. unfold zput. rewrite decide_True.
  - by eapply rel_update.
  - pose proof (rel_data _ _ H). simpl in *. lia.
Qed.

(** The steps of CPU [me] by what it does. *)
Definition simulated (n n' me : Z) (data : list Z) (ps : list pc) (p : pc) (a : alg) : Prop :=
  ∃ a', rtc (moves N me) a a' ∧
    rel (n', let '(p', data') := exec N EA me data p in MkState data' (zset ps me p')) a'.

Lemma sim_mark n me data ps a :
  rel (n, MkState data ps) a → 0 ≤ me < N → at_ a me = Idle → simulated n n me data ps GetMark a.
Proof.
  intros H Hme Hq. pose proof (rel_given _ _ H).
  eapply sim_store; [done|done|eapply moves_two;
    [by apply (go_mark _ _ me (λ _, false))|apply go_marked; [done|apply fn_lookup_insert]]|..];
    simpl; by rewrite ?fn_lookup_insert.
Qed.

Lemma sim_scan n me data ps k b a :
  rel (n, MkState data ps) a → 0 ≤ me < N → at_ a me = BakeryAlg.Scan k b → simulated n n me data ps (Scan k b) a.
Proof.
  intros H Hme Hq. pose proof (rel_given _ _ H) as Hgn. pose proof (ok_given _ _ _ (rel_ok _ _ H)) as Hg.
  pose proof (ok_place _ _ _ (rel_ok _ _ H) me Hme) as Hpl. rewrite Hq in Hpl. simpl in Hpl, Hgn.
  unfold simulated. simpl. destruct (Z.ltb_spec k N).
  - destruct (rel_read _ _ k H ltac:(lia)) as (e & v & Hd & He & Hs & Hv). simpl in Hd. rewrite Hd.
    rewrite ticket_enc by done. destruct (decide (k = me)) as [->|Hne].
    + rewrite Hq in Hs. subst e. simpl. destruct (Z.ltb_spec b 0); [lia|].
      eapply sim_quiet; [done|done|apply moves_one; by eapply go_scan_self|..]; simpl; rewrite ?fn_lookup_insert, ?Hq; done.
    + eapply sim_quiet; [done|done|apply moves_one; eapply go_scan; [done|exact Hq|lia|done]|..];
        simpl; rewrite ?fn_lookup_insert, ?Hq; try done.
      simpl. rewrite (Hv me). f_equal. destruct (Z.ltb_spec b e.2); lia.
  - apply sim_stay; [done|done|]. simpl. rewrite Hq, u32_small by lia. f_equal; lia.
Qed.

Lemma sim_publish n me data ps t a :
  rel (n, MkState data ps) a → 0 ≤ me < N → at_ a me = BakeryAlg.Scan N (t - 1) → n + 1 ≤ max_ticket →
  simulated n (n + 1) me data ps (GetStore t) a.
Proof.
  intros H Hme Hq Hn. pose proof (rel_given _ _ H) as Hgn. simpl in Hgn.
  eapply sim_store; [done|done|eapply moves_two;
    [eapply (go_publish _ _ me _); [done|exact Hq|lia]|apply go_published; [done|apply fn_lookup_insert]]|..];
    simpl; rewrite ?fn_lookup_insert; simpl.
  - lia.
  - f_equal. lia.
  - unfold enc. simpl. f_equal. lia.
Qed.

Lemma sim_wait n me data ps k t a :
  rel (n, MkState data ps) a → 0 ≤ me < N → at_ a me = BakeryAlg.Wait k t → simulated n n me data ps (Wait k t) a.
Proof.
  intros H Hme Hq. pose proof (rel_given _ _ H) as Hgn. pose proof (ok_given _ _ _ (rel_ok _ _ H)) as Hg.
  pose proof (ok_place _ _ _ (rel_ok _ _ H) me Hme) as Hpl. rewrite Hq in Hpl. simpl in Hpl, Hgn.
  unfold simulated. simpl. destruct (Z.ltb_spec k N).
  - destruct (Z.eqb_spec me k) as [<-|Hne].
    + eapply sim_quiet; [done|done|apply moves_one; by eapply go_wait_self|..]; simpl; rewrite ?fn_lookup_insert, ?Hq; done.
    + destruct (rel_read _ _ k H ltac:(lia)) as ([ch u] & v & Hd & He & Hs & Hv). simpl in Hd. rewrite Hd.
      rewrite choosing_enc, ticket_enc by done. simpl. destruct ch; [by apply sim_stay|].
      destruct He as [He _]. simpl in He. destruct (goes_first u k t me) eqn:E.
      * apply goes_first_iff in E as [Hu Hb]; [|lia..].
        eapply sim_quiet; [done|done|apply moves_one; eapply (go_behind _ _ me k t u); auto; lia|..]; simpl; rewrite ?fn_lookup_insert, ?Hq; done.
      * apply not_true_iff_false in E. rewrite goes_first_iff in E by lia.
        eapply sim_quiet; [done|done|apply moves_one; eapply (go_pass _ _ me k t u); auto; try lia|..];
          simpl; rewrite ?fn_lookup_insert, ?Hq; try done.
        destruct (decide (u = 0)) as [|Hu]; [by left|right]. apply before_total; [done|]. tauto.
  - eapply sim_quiet; [done|done|apply moves_one; eapply (go_hold _ _ me t); [done|]|..];
      simpl; rewrite ?fn_lookup_insert, ?Hq; try done; [f_equal; lia|eauto].
Qed.

Lemma sim_contend n me data ps k t u a :
  rel (n, MkState data ps) a → 0 ≤ me < N → at_ a me = Behind k t u → simulated n n me data ps (Contend k t u) a.
Proof.
  intros H Hme Hq. pose proof (rel_given _ _ H) as Hgn.
  pose proof (ok_place _ _ _ (rel_ok _ _ H) me Hme) as Hpl. rewrite Hq in Hpl. simpl in Hpl, Hgn.
  destruct (rel_read _ _ k H ltac:(lia)) as (e & v & Hd & He & Hs & Hv). unfold simulated. simpl in *. rewrite Hd.
  rewrite ticket_enc by done. destruct (Z.eqb_spec u e.2) as [Hu|Hne]; [by apply sim_stay|].
  eapply sim_quiet; [done|done|apply moves_one; eapply (go_next _ _ me k t u); [done|done|]|..];
    simpl; rewrite ?fn_lookup_insert, ?Hq, ?Hv; done || congruence.
Qed.

(** The assertions on the own entry. *)
Lemma sim_asserted n me data ps a :
  rel (n, MkState data ps) a → 0 ≤ me < N →
  (at_ a me = Idle → simulated n n me data ps GetEnter a) ∧
  (∀ t, at_ a me = Hold t → simulated n n me data ps RelEnter a).
Proof.
  intros H Hme. pose proof (ok_place _ _ _ (rel_ok _ _ H) me Hme) as Hpl.
  destruct (rel_read _ _ me H Hme) as (e & v & Hd & He & -> & _). unfold simulated. simpl in *.
  destruct EA; [|by split; [intros Hq|intros t Hq]; apply sim_stay; rewrite ?Hq; simpl; eauto].
  rewrite Hd, ticket_enc by done. rewrite (proj2 (Z.ltb_lt me N)) by lia.
  split; [intros Hq|intros t Hq]; rewrite Hq in *; simpl in *; [by apply sim_stay|].
  destruct (Z.eqb_spec t 0); [lia|]. apply sim_stay; [done|done|]. simpl. eauto.
Qed.

Lemma sim_leave n me data ps t a :
  rel (n, MkState data ps) a → 0 ≤ me < N → at_ a me = Hold t → simulated n n me data ps RelStore a.
Proof.
  intros H Hme Hq. pose proof (rel_given _ _ H).
  eapply sim_store; [done|done|eapply moves_two;
    [by eapply (go_leave _ _ me)|apply (go_left _ _ me t); [done|apply fn_lookup_insert]]|..];
    simpl; by rewrite ?fn_lookup_insert.
Qed.

Lemma sim_advance n s a me :
  rel (n, s) a → 0 ≤ me < N → n + taken me s ≤ max_ticket →
  ∃ a', rtc (moves N me) a a' ∧ rel (n + taken me s, advance N EA me s) a'.
Proof.
  intros H Hme Hn. destruct s as [data ps]. destruct (rel_pc _ _ H me Hme) as (p & Hp & Hq). simpl in Hp.
  unfold advance, taken in *. simpl pcs in *. simpl lock_data in *. rewrite Hp in *.
  destruct p as [| | |k b|t|k t|k t u| | | |]; simpl in Hq; rewrite ?Z.add_0_r in *;
    try (by apply sim_stay).
  - by apply sim_asserted.
  - by apply sim_mark.
  - by apply sim_scan.
  - by apply sim_publish.
  - by apply sim_wait.
  - by apply sim_contend.
  - destruct Hq. by eapply sim_asserted.
  - destruct Hq. by eapply sim_leave.
Qed.

(** The calls change where a CPU is in the code, not in the algorithm. *)
Lemma sim_call n s a me p p' :
  rel (n, s) a → 0 ≤ me < N → zget (pcs s) me = Some p → (∀ q, pc_rel p q → pc_rel p' q) →
  rel (n, MkState (lock_data s) (zset (pcs s) me p')) a.
Proof.
  intros H Hme Hp Himp. destruct s as [data ps]. destruct (rel_pc _ _ H me Hme) as (p0 & Hp0 & Hq).
  simpl in *. simplify_eq. eapply rel_update; eauto using rtc_refl; [apply (rel_given _ _ H)|].
  symmetry. apply zset_same. by apply (rel_entry _ _ H).
Qed.

(** The ticket of a CPU that waits for its turn. *)
Definition ticket_of (i : Z) (s : state) : option Z :=
  match zget (pcs s) i with Some (Wait _ t | Contend _ t _) => Some t | _ => None end.

Lemma ticket_waits c a i t : rel c a → 0 ≤ i < N → ticket_of i c.2 = Some t ↔ waits t (at_ a i).
Proof.
  intros H Hi. destruct (rel_pc _ _ H i Hi) as (p & Hp & Hq). unfold ticket_of, waits. rewrite Hp.
  destruct p; simpl in Hq; first [rewrite Hq|destruct Hq as [? ->]|done];
    (split; [intros; simplify_eq; eauto|intros [[? ?]|(? & ? & ?)]; by simplify_eq]).
Qed.

Lemma advance_ticket me i s t u :
  ticket_of i s = Some t → ticket_of i (advance N EA me s) = Some u → 0 ≤ me → u = t.
Proof.
  intros Ht Hu Hme. unfold advance, ticket_of in *. destruct (zget (pcs s) me) as [p|] eqn:Hp; [|congruence].
  destruct (exec N EA me (lock_data s) p) as [p' d] eqn:E. simpl in Hu.
  destruct (decide (me = i)) as [<-|]; [|rewrite zget_zset_ne in Hu by done; congruence].
  rewrite zget_zset_eq in Hu by (by eapply zget_Some_range). rewrite Hp in Ht.
  destruct p; try done; simplify_eq; simpl in E; repeat case_match; simplify_eq; done.
Qed.

(** Every step of the system is a sequence of steps of the algorithm. *)
Lemma sim c c' a : rel c a → step N EA c c' → ∃ me a', rtc (moves N me) a a' ∧ rel c' a' ∧
  (∀ i t u, ticket_of i c.2 = Some t → ticket_of i c'.2 = Some u → u = t).
Proof.
  intros H Hs. destruct Hs as [n me s Hme Hn|n me s Hme|n me s Hme|n s Hu].
  - destruct (sim_advance n s a me H Hme Hn) as (a' & Hm & Hr). exists me, a'. split; [done|]. split; [done|].
    intros i t u Ht Hu. eapply advance_ticket; eauto. lia.
  - exists me, a. split; [done|]. unfold bakery_lock_get. destruct (zget (pcs s) me) as [[]|] eqn:E;
      try (split; [done|]; simpl; congruence).
    split; [by eapply sim_call|]. unfold ticket_of. simpl. intros i t u.
    rewrite zget_zset by (by eapply zget_Some_range). case_decide; congruence.
  - exists me, a. split; [done|]. unfold bakery_lock_release. destruct (zget (pcs s) me) as [[]|] eqn:E;
      try (split; [done|]; simpl; congruence).
    split; [by eapply sim_call|]. unfold ticket_of. simpl. intros i t u.
    rewrite zget_zset by (by eapply zget_Some_range). case_decide; congruence.
  - assert (Hidle : ∀ i, 0 ≤ i < N → at_ a i = Idle).
    { intros i Hi. destruct (rel_pc _ _ H i Hi) as (p & Hp & Hq). simpl in Hp.
      rewrite Forall_forall in Hu. unfold zget in Hp. case_decide; [|done].
      apply list_elem_of_lookup_2, Hu in Hp. subst p. done. }
    exists 0, (MkAlg (at_ a) (vis a) 0). split; [apply rtc_once; right; by apply go_unused|].
    split; [|simpl; congruence]. pose proof (go_ok _ _ _ _ _ (go_unused N max_ticket a Hidle) (rel_ok _ _ H)).
    destruct H. by split.
Qed.

Lemma rel_init : rel (0, init N) (MkAlg (λ _, Idle) (λ _ _, false) 0).
Proof.
  assert (Hr : ∀ A (x : A) i, 0 ≤ i < N → zget (replicate (Z.to_nat N) x) i = Some x).
  { intros A x i Hi. unfold zget. rewrite decide_True by lia. apply lookup_replicate_2. lia. }
  split; simpl; try done.
  - unfold zlen. rewrite length_replicate. lia.
  - unfold zlen. rewrite length_replicate. lia.
  - intros i Hi. rewrite Hr by done. exists Outside. by split.
  - intros i Hi. by rewrite Hr.
Qed.

(** CPU [i] has the lock: it has returned from bakery_lock_get() and not yet
    cleared its entry in bakery_lock_release(). *)
Definition holds (i : Z) (s : state) : Prop :=
  match zget (pcs s) i with Some (Held | RelEnter | RelStore) => True | _ => False end.
Definition outside (i : Z) (s : state) : Prop := zget (pcs s) i = Some Outside.
Definition failed (i : Z) (s : state) : Prop := zget (pcs s) i = Some Failed.

#[global] Instance refines : Refines N (step N EA) (0, init N) ticket_of holds outside failed rel.
Proof.
  split.
  - by intros c a [].
  - eexists. apply rel_init.
  - intros c c' a Ha Hs. destruct (sim c c' a Ha Hs) as (me & a' & ? & ? & ?). eauto 6.
  - intros c a i t H Hi. by apply ticket_waits.
  - intros c a i H Hi Hh. destruct (rel_pc _ _ H i Hi) as (p & Hp & Hq). unfold holds in Hh. rewrite Hp in Hh.
    by destruct p.
  - intros c a i H Hi Hh. destruct (rel_pc _ _ H i Hi) as (p & Hp & Hq). unfold outside in Hh.
    rewrite Hp in Hh. by simplify_eq.
  - intros c a i H Hi Hh. destruct (rel_pc _ _ H i Hi) as (p & Hp & Hq). unfold failed in Hh.
    rewrite Hp in Hh. by simplify_eq.
Qed.
End CoherentRef.
End CoherentRef.
