(* ===== verification/BakeryNormal.v ===== *)
(** * The bakery lock in normal memory refines the algorithm

    A store by a CPU with its cache off is at once in memory but may be hidden
    behind a stale line, one by a CPU with its cache on is in the cache and
    not yet in memory; the maintenance behind the store ends this.  In the
    meantime each CPU sees the old value and then the new one, which is the
    memory of [BakeryAlg]. *)

From stdpp Require Import base list numbers list_numbers functions relations.
From Stdlib Require Import ZArith Lia.
From S2P Require Import Prelude Bytes Bakery BakeryAlg BakeryRef.
Open Scope Z_scope.

Module NormalRef.
Import Normal.

(** ** One entry *)

(** What memory and cache may hold for an entry: [c] says how the CPU accesses
    it whose store of [new] over [old] is in progress. *)
Definition slot_ok (c : bool) (old new : Z) (m : cmem) (a : Z) : Prop :=
  if c then (line m a = Some (new, true) ∧ mem m a = old) ∨
            (mem m a = new ∧ (line m a = None ∨ line m a = Some (new, false)))
  else mem m a = new ∧ (line m a = None ∨ line m a = Some (new, false) ∨ line m a = Some (old, false)).

(** The cases of an entry: its line and its contents in memory. *)
Ltac slot_cases H E Hm :=
  match type of H with
  | slot_ok false _ _ _ _ => destruct H as [Hm [E|[E|E]]]
  | slot_ok ?c _ _ _ _ =>
      unfold slot_ok in H;
      destruct c; [destruct H as [[E Hm]|[Hm [E|E]]]|destruct H as [Hm [E|[E|E]]]]
  end; try rewrite <- Hm in *.

Lemma slot_seen c old new m a r : slot_ok c old new m a → seen r a m = old ∨ seen r a m = new.
Proof.
  intros H. slot_cases H E Hm; unfold seen; destruct r; rewrite ?E; auto.
Qed.

Lemma slot_stable v m a r : slot_ok false v v m a → seen r a m = v.
Proof. intros H. destruct (slot_seen _ _ _ _ _ r H); done. Qed.

(** The entry at [a] went from [m] to [m']: a store in progress has at most
    become visible. *)
Definition calm (a : Z) (m m' : cmem) : Prop :=
  ∀ c old new, slot_ok c old new m a →
    slot_ok c old new m' a ∧ ∀ r, seen r a m' = seen r a m ∨ seen r a m' = new.

Lemma nc_calm_refl a m : calm a m m.
Proof. intros c o w H. auto. Qed.

Lemma calm_same a m m' : mem m' a = mem m a → line m' a = line m a → calm a m m'.
Proof. unfold calm, slot_ok, seen. intros -> ->. auto. Qed.

Lemma calm_evict a b m : calm a m (dccivac b m).
Proof.
  destruct (decide (a = b)) as [->|Hne].
  - intros c o w H. slot_cases H E Hm; unfold dccivac, slot_ok, seen; rewrite ?E; simpl;
      rewrite ?fn_lookup_insert; (split; [auto 6|intros []; auto]).
  - apply calm_same; unfold dccivac; destruct (line m b) as [[? []]|]; simpl; by rewrite ?fn_lookup_insert_ne.
Qed.

Lemma calm_fetch a b m : calm a m (fetch b m).
Proof.
  destruct (decide (a = b)) as [->|Hne].
  - intros c o w H. slot_cases H E Hm; unfold fetch, slot_ok, seen; rewrite ?E; simpl;
      rewrite ?fn_lookup_insert, ?E; (split; [auto 6|intros []; auto]).
  - apply calm_same; unfold fetch; destruct (line m b) as [[? []]|]; simpl; by rewrite ?fn_lookup_insert_ne.
Qed.

Lemma calm_read_op a b c m : calm a m (read_cache_op b c m).
Proof. destruct c; [apply calm_evict|apply nc_calm_refl]. Qed.

Lemma calm_load a b c m : calm a m (load c b m).2.
Proof. destruct c; [apply calm_fetch|apply nc_calm_refl]. Qed.

Lemma calm_store a b c v m : a ≠ b → calm a m (store c b v m).
Proof. intros Hne. apply calm_same; destruct c; simpl; by rewrite ?fn_lookup_insert_ne. Qed.

Lemma calm_write_op a b c m : a ≠ b → calm a m (write_cache_op b c m).
Proof.
  intros Hne. apply calm_same; destruct c; simpl; unfold dccvac, dcivac;
    try destruct (line m b) as [[? []]|]; simpl; by rewrite ?fn_lookup_insert_ne.
Qed.

(** A store begins and ends. *)
Lemma slot_store c old new m a : slot_ok false old old m a → slot_ok c old new (store c a new m) a.
Proof. intros H. slot_cases H E Hm; unfold slot_ok, store; destruct c; simpl; rewrite fn_lookup_insert; auto 6. Qed.

Lemma slot_write_op c old new m a : slot_ok c old new m a → slot_ok false new new (write_cache_op a c m) a.
Proof.
  intros H. slot_cases H E Hm; unfold write_cache_op, dccvac, dcivac, slot_ok; rewrite ?E; simpl;
    rewrite ?fn_lookup_insert, ?E; auto.
Qed.

Section NormalRef.
Context (N SIZE lock : Z).

(** The entries are behind one another and do not reach the end of the
    address space. *)
Record layout_ok : Prop := {
  lay_cpus : 0 < N ≤ 256;
  lay_size : 0 < SIZE;
  lay_lock : 0 < lock;
  lay_end : lock + N * SIZE ≤ 2 ^ 64;
}.
Context (Hlay : layout_ok) (EA : bool).
Local Notation "'addr'" := (get_bakery_info SIZE lock).

Lemma addr_val i : 0 ≤ i < N → addr i = lock + i * SIZE.
Proof. intros Hi. destruct Hlay. unfold get_bakery_info. rewrite (u64_small (i * SIZE)), u64_small; nia. Qed.

Lemma addr_pos i : 0 ≤ i < N → (addr i =? 0) = false.
Proof. intros Hi. rewrite addr_val by done. destruct Hlay. apply Z.eqb_neq. nia. Qed.

Lemma addr_ne i j : 0 ≤ i < N → 0 ≤ j < N → i ≠ j → addr i ≠ addr j.
Proof. intros Hi Hj Hne. rewrite !addr_val by done. destruct Hlay. nia. Qed.

(** ** States of the system and of the algorithm *)

Definition pc_rel (me : Z) (p : pc) (q : place) : Prop :=
  match p with
  | Outside | GetEnterOp _ | GetEnter _ | GetMark _ => q = Idle
  | GetMarkOp _ => q = Mark
  | ScanOp _ k b => q = BakeryAlg.Scan k b
  | Scan _ k b => q = BakeryAlg.Scan k b ∧ k < N ∧ k ≠ me
  | GetStore _ t => q = BakeryAlg.Scan N (t - 1)
  | GetStoreOp _ t => q = Publish t
  | WaitOp _ k t => q = BakeryAlg.Wait k t
  | Wait _ k t => q = BakeryAlg.Wait k t ∧ k < N ∧ k ≠ me
  | ContendOp _ k t n | Contend _ k t n => q = Behind k t n
  | Held | RelEnterOp _ | RelEnter _ | RelStore _ => ∃ t, q = Hold t
  | RelStoreOp _ => ∃ t, q = Leave t
  | Failed => False
  end.

(** How the CPU accesses memory whose store is in progress, and a CPU that
    reads the entries of others. *)
Definition storing (p : pc) : bool :=
  match p with GetMarkOp c | GetStoreOp c _ | RelStoreOp c => c | _ => false end.

Definition reading (p : pc) : option bool :=
  match p with
  | GetMarkOp c | ScanOp c _ _ | Scan c _ _ | GetStore c _ | GetStoreOp c _ | WaitOp c _ _ | Wait c _ _
  | ContendOp c _ _ _ | Contend c _ _ _ => Some c
  | _ => None
  end.

Definition entry_at (p : pc) (q : place) (m : cmem) (i : Z) : Prop :=
  slot_ok (storing p) (enc (shown q false)) (enc (shown q true)) m (addr i).

(** [exact] is false where a store may have become visible to a CPU and the
    algorithm does not say so yet. *)
Record rel (exact : bool) (c : Z * state) (a : alg) : Prop := {
  rel_ok : alg_ok N max_ticket a;
  rel_given : given a = c.1;
  rel_pcs : zlen (pcs c.2) = N;
  rel_pc : ∀ i, 0 ≤ i < N → ∃ p, zget (pcs c.2) i = Some p ∧ pc_rel i p (at_ a i) ∧
             entry_at p (at_ a i) (cm c.2) i;
  rel_view : ∀ i j p r, 0 ≤ i < N → 0 ≤ j < N → i ≠ j → zget (pcs c.2) j = Some p → reading p = Some r →
    seen r (addr i) (cm c.2) = enc (view a i j) ∨
    (exact = false ∧ seen r (addr i) (cm c.2) = enc (shown (at_ a i) true));
}.

(** The algorithm catches up. *)
Lemma rel_settle c a : rel false c a → ∃ a', go N max_ticket None a a' ∧ rel true c a'.
Proof.
  intros H. set (f i j := match zget (pcs c.2) j with
    | Some p => match reading p with
                | Some r => seen r (addr i) (cm c.2) =? enc (shown (at_ a i) true)
                | None => false
                end
    | None => false
    end).
  eexists. split; [apply (go_visible _ _ f)|]. pose proof (go_ok _ _ _ _ _ (go_visible N max_ticket f a) (rel_ok _ _ _ H)).
  destruct H as [_ Hg Hl Hp Hv]. split; simpl; [done..|].
  intros i j p r Hi Hj Hne Hpj Hr. left. unfold view. simpl.
  destruct (f i j) eqn:Hf; unfold f in Hf; rewrite Hpj, Hr in Hf.
  - apply Z.eqb_eq in Hf. by rewrite orb_true_r.
  - apply Z.eqb_neq in Hf. rewrite orb_false_r. destruct (Hv i j p r Hi Hj Hne Hpj Hr) as [?|[_ ?]]; done.
Qed.

(** CPU [me] goes to [p'], memory to [m']; the algorithm has made the moves of
    this CPU. *)
Lemma nc_rel_update n n' m m' ps a a' me p' :
  rel true (n, MkState m ps) a → 0 ≤ me < N → rtc (moves N me) a a' → given a' = n' →
  pc_rel me p' (at_ a' me) → entry_at p' (at_ a' me) m' me →
  (∀ i, 0 ≤ i < N → i ≠ me → calm (addr i) m m') →
  (∀ i j, i ≠ me → j ≠ me → vis a' i j = vis a i j) →
  (∀ j, j ≠ me → shown (at_ a' me) (vis a' me j) = shown (at_ a' me) false) →
  (∀ r i, reading p' = Some r → 0 ≤ i < N → i ≠ me → seen r (addr i) m = enc (shown (at_ a i) (vis a' i me))) →
  rel false (n', MkState m' (zset ps me p')) a'.
Proof.
  intros [Hok Hg Hl Hp Hv] Hme Hm Hg' Hp' He Hcalm Hvis Hnew Hread. simpl in *.
  assert (Hoth : ∀ i, i ≠ me → at_ a' i = at_ a i) by (intros; by eapply moves_others).
  split; simpl.
  - by eapply moves_ok.
  - done.
  - by rewrite zlen_zset.
  - intros i Hi. rewrite zget_zset by lia. case_decide; [subst; eauto|].
    destruct (Hp i Hi) as (p & Hpi & Hq & Hs). exists p. rewrite Hoth by done. split; [done|]. split; [done|].
    by apply (Hcalm i Hi).
  - intros i j p r Hi Hj Hne Hpj Hr. rewrite zget_zset in Hpj by lia. unfold view.
    destruct (decide (i = me)) as [->|Hime].
    + destruct (slot_seen _ _ _ _ _ r He) as [->| ->]; [left|right; done]. by rewrite Hnew by done.
    + destruct (Hp i Hi) as (pi & Hpi & Hq & Hs). destruct (Hcalm i Hi Hime _ _ _ Hs) as [_ Hseen].
      rewrite (Hoth i) by done. destruct (Hseen r) as [->| ->]; [left|by right].
      destruct (decide (me = j)) as [<-|Hjme]; [simplify_eq; by apply Hread|].
      rewrite Hvis by done. destruct (Hv i j p r Hi Hj Hne Hpj Hr) as [?|[? _]]; done.
Qed.

(** ** The steps of a CPU *)

Definition simulated (n n' me : Z) (m : cmem) (ps : list pc) (p : pc) (a : alg) : Prop :=
  ∃ a', rtc (moves N me) a a' ∧
    rel true (n', let '(p', m') := exec N SIZE lock EA me m p in MkState m' (zset ps me p')) a'.

Lemma sim_settle me c a a' :
  rtc (moves N me) a a' → rel false c a' → ∃ a'', rtc (moves N me) a a'' ∧ rel true c a''.
Proof.
  intros Hm H. destruct (rel_settle _ _ H) as (a'' & Hgo & H'). exists a''. split; [|done].
  eapply rtc_r; [done|]. by right.
Qed.

(** What CPU [me] reads from its own entry and from that of another CPU. *)
Lemma read_own n m ps a me p r :
  rel true (n, MkState m ps) a → 0 ≤ me < N → zget ps me = Some p →
  shown (at_ a me) false = shown (at_ a me) true → storing p = false →
  bakery_ticket_number (seen r (addr me) m) = (shown (at_ a me) true).2.
Proof.
  intros H Hme Hp Hs Hst. destruct (rel_pc _ _ _ H me Hme) as (p0 & Hp0 & _ & He). simpl in *. simplify_eq.
  unfold entry_at in He. rewrite Hst, Hs in He. rewrite (slot_stable _ _ _ r He). apply ticket_enc.
  eapply shown_ok; [by apply (rel_ok _ _ _ H)|apply (rel_ok _ _ _ H)].
Qed.

Lemma read_other n m ps a me k p r :
  rel true (n, MkState m ps) a → 0 ≤ me < N → 0 ≤ k < N → k ≠ me → zget ps me = Some p → reading p = Some r →
  seen r (addr k) m = enc (view a k me) ∧ entry_ok (view a k me).
Proof.
  intros H Hme Hk Hne Hp Hr. split.
  - destruct (rel_view _ _ _ H k me p r) as [?|[? _]]; done.
  - eapply shown_ok; [by apply (rel_ok _ _ _ H)|apply (rel_ok _ _ _ H)].
Qed.

(** A step that stores nothing: the place shows the same entry as before. *)
Lemma nc_sim_quiet n m m' ps a a' me p p' :
  rel true (n, MkState m ps) a → 0 ≤ me < N → zget ps me = Some p → rtc (moves N me) a a' →
  vis a' = vis a → given a' = given a → pc_rel me p' (at_ a' me) → storing p = false → storing p' = false →
  (∀ v, shown (at_ a' me) v = shown (at_ a me) true) → shown (at_ a me) false = shown (at_ a me) true →
  (∀ r, reading p' = Some r → reading p = Some r) → (∀ b, calm b m m') →
  ∃ a', rtc (moves N me) a a' ∧ rel true (n, MkState m' (zset ps me p')) a'.
Proof.
  intros H Hme Hp Hm Hvis Hg Hp' Hst Hst' Hs' Hs Hr Hcalm. eapply sim_settle; [done|].
  destruct (rel_pc _ _ _ H me Hme) as (p0 & Hp0 & _ & He). simpl in *. simplify_eq.
  eapply nc_rel_update; eauto.
  - rewrite Hg. apply (rel_given _ _ _ H).
  - unfold entry_at in *. rewrite Hst', !Hs'. rewrite Hst, Hs in He. by apply Hcalm.
  - intros. by rewrite Hvis.
  - intros. by rewrite !Hs'.
  - intros r i Hrd Hi Hne. rewrite Hvis. eapply (read_other _ _ _ _ me i p); eauto.
Qed.

Lemma nc_sim_stay n m m' ps a me p p' :
  rel true (n, MkState m ps) a → 0 ≤ me < N → zget ps me = Some p → pc_rel me p' (at_ a me) →
  storing p = false → storing p' = false → shown (at_ a me) false = shown (at_ a me) true →
  (∀ r, reading p' = Some r → reading p = Some r) → (∀ b, calm b m m') →
  ∃ a', rtc (moves N me) a a' ∧ rel true (n, MkState m' (zset ps me p')) a'.
Proof. intros. eapply (nc_sim_quiet n m m' ps a a); eauto using rtc_refl. by intros []. Qed.

(** A store begins: [v] over an entry that is stable. *)
Lemma nc_sim_store n n' m ps a a' me p p' c v :
  rel true (n, MkState m ps) a → 0 ≤ me < N → zget ps me = Some p → rtc (moves N me) a a' →
  given a' = n' → pc_rel me p' (at_ a' me) → storing p = false → storing p' = c →
  shown (at_ a me) false = shown (at_ a me) true → shown (at_ a' me) false = shown (at_ a me) true →
  v = enc (shown (at_ a' me) true) →
  (∀ i j, i ≠ me → j ≠ me → vis a' i j = vis a i j) → (∀ j, j ≠ me → vis a' me j = false) →
  (∀ r i, reading p' = Some r → 0 ≤ i < N → i ≠ me → seen r (addr i) m = enc (shown (at_ a i) (vis a' i me))) →
  ∃ a', rtc (moves N me) a a' ∧ rel true (n', MkState (store c (addr me) v m) (zset ps me p')) a'.
Proof.
  intros H Hme Hp Hm Hg Hp' Hst Hst' Hs Hs' -> Hvis Hnew Hr. eapply sim_settle; [done|].
  destruct (rel_pc _ _ _ H me Hme) as (p0 & Hp0 & _ & He). simpl in *. simplify_eq.
  eapply nc_rel_update; eauto.
  - unfold entry_at in *. rewrite Hs'. rewrite Hst, Hs in He. by apply slot_store.
  - intros i Hi Hne. apply calm_store. by apply addr_ne.
  - intros j Hj. by rewrite Hnew.
Qed.

(** The maintenance behind a store. *)
Lemma sim_write_op n m ps a q' me p p' c :
  rel true (n, MkState m ps) a → 0 ≤ me < N → zget ps me = Some p → go N max_ticket (Some me) a (move me q' a) →
  pc_rel me p' q' → storing p = c → storing p' = false → (∀ v, shown q' v = shown (at_ a me) true) →
  (∀ r, reading p' = Some r → reading p = Some r) →
  ∃ a', rtc (moves N me) a a' ∧ rel true (n, MkState (write_cache_op (addr me) c m) (zset ps me p')) a'.
Proof.
  intros H Hme Hp Hm Hp' Hst Hst' Hs' Hr. eapply sim_settle; [by apply moves_one|].
  destruct (rel_pc _ _ _ H me Hme) as (p0 & Hp0 & _ & He). simpl in *. simplify_eq.
  eapply nc_rel_update; eauto using moves_one; simpl; rewrite ?fn_lookup_insert; try done.
  - apply (rel_given _ _ _ H).
  - unfold entry_at in *. rewrite Hst', !Hs'. by eapply slot_write_op.
  - intros i Hi Hne. apply calm_write_op. by apply addr_ne.
  - intros. by rewrite !Hs'.
  - intros r i Hrd Hi Hne. eapply (read_other _ _ _ _ me i p); eauto.
Qed.

(** ** What CPU [me] does, by its place *)

Section Steps.
Context (n : Z) (m : cmem) (ps : list pc) (a : alg) (me : Z).
Context (H : rel true (n, MkState m ps) a) (Hme : 0 ≤ me < N).

Lemma sim_enter c : zget ps me = Some (GetEnter c) → at_ a me = Idle → simulated n n me m ps (GetEnter c) a.
Proof.
  intros Hp Hq. pose proof (read_own _ _ _ _ _ _ c H Hme Hp) as Hr. rewrite Hq in Hr.
  unfold simulated. simpl. rewrite Hr by done. simpl.
  eapply nc_sim_stay; eauto; rewrite ?Hq; try done. intros b. apply (calm_load b _ c).
Qed.

Lemma nc_sim_mark c : zget ps me = Some (GetMark c) → at_ a me = Idle → simulated n n me m ps (GetMark c) a.
Proof.
  intros Hp Hq. pose proof (rel_given _ _ _ H) as Hg. unfold simulated. simpl.
  set (f k := seen c (addr k) m =? enc (shown (at_ a k) true)).
  eapply nc_sim_store; [exact H|done|exact Hp|apply moves_one; by apply (go_mark _ _ me f)|..];
    simpl; rewrite ?fn_lookup_insert, ?Hq; try done.
  - intros i j Hi Hj. by rewrite !decide_False.
  - intros j Hj. by rewrite decide_False, decide_True.
  - intros r i [= <-] Hi Hne. rewrite decide_True by done. unfold f.
    destruct (rel_pc _ _ _ H i Hi) as (p0 & _ & _ & He).
    destruct (Z.eqb_spec (seen c (addr i) m) (enc (shown (at_ a i) true))) as [|Hd]; [done|].
    by destruct (slot_seen _ _ _ _ _ c He).
Qed.

Lemma sim_scan_op c k b :
  zget ps me = Some (ScanOp c k b) → at_ a me = BakeryAlg.Scan k b → simulated n n me m ps (ScanOp c k b) a.
Proof.
  intros Hp Hq. pose proof (ok_given _ _ _ (rel_ok _ _ _ H)) as Hg.
  pose proof (ok_place _ _ _ (rel_ok _ _ _ H) me Hme) as Hpl. rewrite Hq in Hpl. simpl in Hpl.
  unfold simulated. simpl. destruct (Z.ltb_spec k N).
  - destruct (Z.eqb_spec me k) as [<-|Hne].
    + eapply nc_sim_quiet; [exact H|done|exact Hp|apply moves_one; by eapply go_scan_self|..];
        simpl; rewrite ?fn_lookup_insert, ?Hq; try done. intros; apply nc_calm_refl.
    + rewrite addr_pos by lia. eapply nc_sim_stay; eauto; rewrite ?Hq; simpl; try done. intros; apply calm_read_op.
  - eapply nc_sim_stay; eauto; rewrite ?Hq; simpl; try done; [|intros; apply nc_calm_refl].
    rewrite u32_small by lia. f_equal; lia.
Qed.

Lemma nc_sim_scan c k b :
  zget ps me = Some (Scan c k b) → at_ a me = BakeryAlg.Scan k b → k < N → k ≠ me →
  simulated n n me m ps (Scan c k b) a.
Proof.
  intros Hp Hq Hk Hne. pose proof (ok_place _ _ _ (rel_ok _ _ _ H) me Hme) as Hpl. rewrite Hq in Hpl. simpl in Hpl.
  destruct (read_other _ _ _ _ me k _ c H Hme ltac:(lia) Hne Hp eq_refl) as [Hr He].
  unfold simulated. simpl. rewrite Hr, ticket_enc by done.
  eapply nc_sim_quiet; [exact H|done|exact Hp|apply moves_one; eapply (go_scan _ _ me k b); [done|exact Hq|lia|done]|..];
    simpl; rewrite ?fn_lookup_insert, ?Hq; try done; [|intros b'; apply (calm_load b' _ c)].
  simpl. f_equal. destruct (Z.ltb_spec b (view a k me).2); lia.
Qed.

Lemma nc_sim_publish c t :
  zget ps me = Some (GetStore c t) → at_ a me = BakeryAlg.Scan N (t - 1) → n + 1 ≤ max_ticket →
  simulated n (n + 1) me m ps (GetStore c t) a.
Proof.
  intros Hp Hq Hn. pose proof (rel_given _ _ _ H) as Hg. simpl in Hg. unfold simulated. simpl.
  eapply nc_sim_store; [exact H|done|exact Hp|apply moves_one; by apply (go_publish _ _ me (t - 1)); [done|done|lia]|..];
    simpl; rewrite ?fn_lookup_insert, ?Hq, ?Hg, ?Z.sub_add; try done.
  - intros i j Hi Hj. by rewrite fn_lookup_insert_ne.
  - intros r i [= <-] Hi Hne. rewrite fn_lookup_insert_ne by done.
    by eapply (read_other _ _ _ _ me i _ c H).
Qed.

Lemma sim_wait_op c k t :
  zget ps me = Some (WaitOp c k t) → at_ a me = BakeryAlg.Wait k t → simulated n n me m ps (WaitOp c k t) a.
Proof.
  intros Hp Hq. pose proof (ok_place _ _ _ (rel_ok _ _ _ H) me Hme) as Hpl. rewrite Hq in Hpl. simpl in Hpl.
  unfold simulated. simpl. destruct (Z.ltb_spec k N).
  - destruct (Z.eqb_spec me k) as [<-|Hne].
    + eapply nc_sim_quiet; [exact H|done|exact Hp|apply moves_one; by eapply go_wait_self|..];
        simpl; rewrite ?fn_lookup_insert, ?Hq; try done. intros; apply nc_calm_refl.
    + rewrite addr_pos by lia. eapply nc_sim_stay; eauto; rewrite ?Hq; simpl; try done. intros; apply calm_read_op.
  - eapply nc_sim_quiet; [exact H|done|exact Hp|apply moves_one; eapply (go_hold _ _ me t); [done|]|..];
      simpl; rewrite ?fn_lookup_insert, ?Hq; try done; [f_equal; lia|eauto|intros; apply nc_calm_refl].
Qed.

Lemma nc_sim_wait c k t :
  zget ps me = Some (Wait c k t) → at_ a me = BakeryAlg.Wait k t → k < N → k ≠ me →
  simulated n n me m ps (Wait c k t) a.
Proof.
  intros Hp Hq Hk Hne. pose proof (ok_place _ _ _ (rel_ok _ _ _ H) me Hme) as Hpl. rewrite Hq in Hpl. simpl in Hpl.
  pose proof (ok_given _ _ _ (rel_ok _ _ _ H)) as Hg. pose proof (lay_cpus Hlay).
  destruct (read_other _ _ _ _ me k _ c H Hme ltac:(lia) Hne Hp eq_refl) as [Hr He].
  assert (Hld : ∀ b, calm b m (if c then fetch (addr k) m else m)) by (intros b; apply (calm_load b _ c)).
  unfold simulated. simpl. rewrite Hr, choosing_enc, ticket_enc by done.
  destruct (view a k me) as [ch u] eqn:Hv. simpl. destruct ch.
  { eapply nc_sim_stay; eauto; rewrite ?Hq; done. }
  destruct He as [He _]. simpl in He. destruct (goes_first u k t me) eqn:E.
  - apply goes_first_iff in E as [Hu Hb]; [|lia..].
    eapply nc_sim_quiet; [exact H|done|exact Hp|apply moves_one; eapply (go_behind _ _ me k t u); auto; lia|..];
      simpl; rewrite ?fn_lookup_insert, ?Hq; done.
  - apply not_true_iff_false in E. rewrite goes_first_iff in E by lia.
    eapply nc_sim_quiet; [exact H|done|exact Hp|apply moves_one; eapply (go_pass _ _ me k t u); auto; try lia|..];
      simpl; rewrite ?fn_lookup_insert, ?Hq; try done.
    destruct (decide (u = 0)) as [|Hu]; [by left|right]. apply before_total; [done|]. tauto.
Qed.

Lemma nc_sim_contend c k t u :
  zget ps me = Some (Contend c k t u) → at_ a me = Behind k t u → simulated n n me m ps (Contend c k t u) a.
Proof.
  intros Hp Hq. pose proof (ok_place _ _ _ (rel_ok _ _ _ H) me Hme) as Hpl. rewrite Hq in Hpl. simpl in Hpl.
  destruct (read_other _ _ _ _ me k _ c H Hme ltac:(lia) ltac:(lia) Hp eq_refl) as [Hr He].
  assert (Hld : ∀ b, calm b m (if c then fetch (addr k) m else m)) by (intros b; apply (calm_load b _ c)).
  unfold simulated. simpl. rewrite Hr, ticket_enc by done.
  destruct (Z.eqb_spec u (view a k me).2) as [Hu|Hu].
  { eapply nc_sim_stay; eauto; rewrite ?Hq; done. }
  eapply nc_sim_quiet; [exact H|done|exact Hp|apply moves_one; eapply (go_next _ _ me k t u); auto|..];
    simpl; rewrite ?fn_lookup_insert, ?Hq; done.
Qed.

Lemma sim_rel_enter c t :
  zget ps me = Some (RelEnter c) → at_ a me = Hold t → simulated n n me m ps (RelEnter c) a.
Proof.
  intros Hp Hq. pose proof (read_own _ _ _ _ _ _ c H Hme Hp) as Hr.
  pose proof (ok_place _ _ _ (rel_ok _ _ _ H) me Hme) as Hpl. rewrite Hq in Hr, Hpl. simpl in Hpl.
  unfold simulated. simpl. rewrite Hr by done. simpl. destruct (Z.eqb_spec t 0); [lia|]. simpl.
  eapply nc_sim_stay; eauto; rewrite ?Hq; try done; [by exists t|]. intros b. apply (calm_load b _ c).
Qed.

Lemma nc_sim_leave c t :
  zget ps me = Some (RelStore c) → at_ a me = Hold t → simulated n n me m ps (RelStore c) a.
Proof.
  intros Hp Hq. pose proof (rel_given _ _ _ H) as Hg. unfold simulated. simpl.
  eapply nc_sim_store; [exact H|done|exact Hp|apply moves_one; by apply (go_leave _ _ me t)|..];
    simpl; rewrite ?fn_lookup_insert, ?Hq; try done; [by exists t|].
  intros i j Hi Hj. by rewrite fn_lookup_insert_ne.
Qed.
End Steps.

Lemma nc_sim_advance n s a me :
  rel true (n, s) a → 0 ≤ me < N → n + taken me s ≤ max_ticket →
  ∃ a', rtc (moves N me) a a' ∧ rel true (n + taken me s, advance N SIZE lock EA me s) a'.
Proof.
  intros H Hme Hn. destruct s as [m ps]. destruct (rel_pc _ _ _ H me Hme) as (p & Hp & Hq & _). simpl in Hp.
  unfold advance, taken in *. simpl pcs in *. simpl cm in *. rewrite Hp in *.
  assert (Hsame : ∃ a', rtc (moves N me) a a' ∧ rel true (n, MkState m (zset ps me p)) a').
  { exists a. split; [done|]. by rewrite zset_same. }
  destruct p; simpl in Hq; rewrite ?Z.add_0_r in *; try done.
  - simpl. rewrite addr_pos by done.
    destruct EA; eapply nc_sim_stay; eauto; rewrite ?Hq; try done; intros; [apply calm_read_op|apply nc_calm_refl].
  - by apply sim_enter.
  - by apply nc_sim_mark.
  - eapply sim_write_op; eauto; [by apply go_marked|try done; by rewrite Hq..].
  - by apply sim_scan_op.
  - destruct Hq as (? & ? & ?). by apply nc_sim_scan.
  - by apply nc_sim_publish.
  - eapply sim_write_op; eauto; [by apply go_published|try done; by rewrite Hq..].
  - by apply sim_wait_op.
  - destruct Hq as (? & ? & ?). by apply nc_sim_wait.
  - eapply nc_sim_stay; eauto; rewrite ?Hq; try done. intros; apply calm_read_op.
  - by apply nc_sim_contend.
  - destruct Hq as [t Hq]. simpl. destruct EA; eapply nc_sim_stay; eauto; rewrite ?Hq; try done;
      [by exists t|intros; apply calm_read_op|by exists t|intros; apply nc_calm_refl].
  - destruct Hq as [t Hq]. by eapply sim_rel_enter.
  - destruct Hq as [t Hq]. by eapply nc_sim_leave.
  - destruct Hq as [t Hq]. eapply sim_write_op; eauto; [by eapply go_left|try done; by rewrite Hq..].
Qed.

(** ** All steps *)

Lemma nc_sim_call n s a me p p' :
  rel true (n, s) a → 0 ≤ me < N → zget (pcs s) me = Some p → (∀ q, pc_rel me p q → pc_rel me p' q) →
  storing p = false → storing p' = false → reading p' = None →
  rel true (n, MkState (cm s) (zset (pcs s) me p')) a.
Proof.
  intros H Hme Hp Himp Hst Hst' Hr. destruct s as [m ps]. destruct H as [Hok Hg Hl Hpc Hv]. simpl in *.
  split; simpl; try done.
  - by rewrite zlen_zset.
  - intros i Hi. rewrite zget_zset by lia. case_decide; [subst i|by apply Hpc].
    destruct (Hpc me Hi) as (p0 & Hp0 & Hq & He). simplify_eq. exists p'. split; [done|]. split; [auto|].
    unfold entry_at in *. congruence.
  - intros i j p0 r Hi Hj Hne. rewrite zget_zset by lia. case_decide; [congruence|]. by apply Hv.
Qed.

(** The cache moves lines by itself. *)
Lemma sim_cache n m m' ps a :
  rel true (n, MkState m ps) a → (∀ b, calm b m m') → rel false (n, MkState m' ps) a.
Proof.
  intros [Hok Hg Hl Hpc Hv] Hc. simpl in *. split; simpl; try done.
  - intros i Hi. destruct (Hpc i Hi) as (p & Hp & Hq & He). exists p. split; [done|]. split; [done|]. by apply Hc.
  - intros i j p r Hi Hj Hne Hp Hr. destruct (Hpc i Hi) as (pi & _ & _ & He).
    destruct (Hc _ _ _ _ He) as [_ Hs]. destruct (Hs r) as [->| ->]; [left|by right].
    destruct (Hv i j p r) as [?|[? _]]; done.
Qed.

(** The ticket of a CPU that waits for its turn. *)
Definition ticket_of (i : Z) (s : state) : option Z :=
  match zget (pcs s) i with
  | Some (WaitOp _ _ t | Wait _ _ t | ContendOp _ _ t _ | Contend _ _ t _) => Some t
  | _ => None
  end.

Lemma nc_advance_ticket me i s t u :
  ticket_of i s = Some t → ticket_of i (advance N SIZE lock EA me s) = Some u → 0 ≤ me → u = t.
Proof.
  intros Ht Hu Hme. unfold advance, ticket_of in *. destruct (zget (pcs s) me) as [p|] eqn:Hp; [|congruence].
  destruct (exec N SIZE lock EA me (cm s) p) as [p' d] eqn:E. simpl in Hu.
  destruct (decide (me = i)) as [<-|]; [|rewrite zget_zset_ne in Hu by done; congruence].
  rewrite zget_zset_eq in Hu by (by eapply zget_Some_range). rewrite Hp in Ht.
  destruct p; try done; simplify_eq; simpl in E; repeat case_match; simplify_eq; done.
Qed.

Lemma call_ticket me s p p' :
  zget (pcs s) me = Some p → (∀ i t u, i = me → ticket_of i s = Some t →
  ticket_of i (MkState (cm s) (zset (pcs s) me p')) = Some u → u = t) →
  ∀ i t u, ticket_of i s = Some t → ticket_of i (MkState (cm s) (zset (pcs s) me p')) = Some u → u = t.
Proof.
  intros Hp Hme i t u. destruct (decide (i = me)) as [->|Hne]; [by apply Hme|].
  unfold ticket_of. simpl. apply zget_Some_range in Hp. rewrite zget_zset_ne by lia. congruence.
Qed.

(** Every step of the system is a sequence of steps of the algorithm. *)
Lemma nc_sim c c' a : rel true c a → step N SIZE lock EA c c' → ∃ me a', rtc (moves N me) a a' ∧ rel true c' a' ∧
  (∀ i t u, ticket_of i c.2 = Some t → ticket_of i c'.2 = Some u → u = t).
Proof.
  intros H Hs. destruct Hs as [n me s Hme Hn|n cached me s Hme|n cached me s Hme|n b s|n b s|n s Hu].
  - destruct (nc_sim_advance n s a me H Hme Hn) as (a' & Hm & Hr). exists me, a'. split; [done|]. split; [done|].
    intros i t u Ht Hu. eapply nc_advance_ticket; eauto. lia.
  - exists me, a. split; [done|]. unfold bakery_lock_get. destruct (zget (pcs s) me) as [[]|] eqn:E;
      try (split; [done|]; simpl; congruence).
    split; [by eapply nc_sim_call|]. eapply call_ticket; [done|]. intros i t u ->. unfold ticket_of. by rewrite E.
  - exists me, a. split; [done|]. unfold bakery_lock_release. destruct (zget (pcs s) me) as [[]|] eqn:E;
      try (split; [done|]; simpl; congruence).
    split; [by eapply nc_sim_call|]. eapply call_ticket; [done|]. intros i t u ->. unfold ticket_of. by rewrite E.
  - destruct s as [m ps]. destruct (rel_settle (n, MkState (dccivac b m) ps) a) as (a' & Hgo & H').
    { eapply sim_cache; [done|]. intros b'. apply calm_evict. }
    exists 0, a'. split; [apply rtc_once; by right|]. split; [done|]. unfold ticket_of. simpl. congruence.
  - destruct s as [m ps]. destruct (rel_settle (n, MkState (fetch b m) ps) a) as (a' & Hgo & H').
    { eapply sim_cache; [done|]. intros b'. apply calm_fetch. }
    exists 0, a'. split; [apply rtc_once; by right|]. split; [done|]. unfold ticket_of. simpl. congruence.
  - assert (Hidle : ∀ i, 0 ≤ i < N → at_ a i = Idle).
    { intros i Hi. destruct (rel_pc _ _ _ H i Hi) as (p & Hp & Hq & _). simpl in Hp.
      rewrite Forall_forall in Hu. unfold zget in Hp. case_decide; [|done].
      apply list_elem_of_lookup_2, Hu in Hp. subst p. done. }
    exists 0, (MkAlg (at_ a) (vis a) 0). split; [apply rtc_once; right; by apply go_unused|].
    split; [|simpl; congruence]. pose proof (go_ok _ _ _ _ _ (go_unused N max_ticket a Hidle) (rel_ok _ _ _ H)).
    destruct H. by split.
Qed.

Lemma nc_rel_init : rel true (0, init N) (MkAlg (λ _, Idle) (λ _ _, false) 0).
Proof.
  assert (Hr : ∀ i, 0 ≤ i < N → zget (replicate (Z.to_nat N) Outside) i = Some Outside).
  { intros i Hi. unfold zget. rewrite decide_True by lia. apply lookup_replicate_2. lia. }
  pose proof (lay_cpus Hlay). split; simpl; try done.
  - unfold zlen. rewrite length_replicate. lia.
  - intros i Hi. rewrite Hr by done. exists Outside. split; [done|]. split; [done|]. split; [done|by left].
  - intros i j p r Hi Hj Hne. rewrite Hr by done. by intros [= <-].
Qed.

(** CPU [i] has the lock: it has returned from bakery_lock_get() and not yet
    begun to clear its entry in bakery_lock_release(). *)
Definition holds (i : Z) (s : state) : Prop :=
  match zget (pcs s) i with Some (Held | RelEnterOp _ | RelEnter _ | RelStore _) => True | _ => False end.
Definition outside (i : Z) (s : state) : Prop := zget (pcs s) i = Some Outside.
Definition failed (i : Z) (s : state) : Prop := zget (pcs s) i = Some Failed.

#[global] Instance refines : Refines N (step N SIZE lock EA) (0, init N) ticket_of holds outside failed (rel true).
Proof.
  split.
  - by intros c a [].
  - eexists. apply nc_rel_init.
  - intros c c' a Ha Hs. destruct (nc_sim c c' a Ha Hs) as (me & a' & ? & ? & ?). eauto 6.
  - intros c a i t H Hi Ht. destruct (rel_pc _ _ _ H i Hi) as (p & Hp & Hq & _). unfold ticket_of in Ht.
    rewrite Hp in Ht. unfold waits. destruct p; try done; simplify_eq; simpl in Hq; naive_solver.
  - intros c a i H Hi Hh. destruct (rel_pc _ _ _ H i Hi) as (p & Hp & Hq & _). unfold holds in Hh. rewrite Hp in Hh.
    by destruct p.
  - intros c a i H Hi Hh. destruct (rel_pc _ _ _ H i Hi) as (p & Hp & Hq & _). unfold outside in Hh.
    rewrite Hp in Hh. by simplify_eq.
  - intros c a i H Hi Hh. destruct (rel_pc _ _ _ H i Hi) as (p & Hp & Hq & _). unfold failed in Hh.
    rewrite Hp in Hh. by simplify_eq.
Qed.
End NormalRef.
End NormalRef.
