(* ===== verification/BakerySpec.v ===== *)
(** * Properties of the bakery locks

    Both implementations let one CPU have the lock at a time and serve the
    CPUs in the order in which they took their tickets.  At the end: tickets
    have 15 bits, and a lock that is contended for long enough is given to two
    CPUs. *)

From stdpp Require Import base list numbers list_numbers functions relations.
From Stdlib Require Import ZArith Lia.
From S2P Require Import Prelude Bytes Bakery BakeryAlg BakeryRef BakeryNormal.
Open Scope Z_scope.

(** ** Schedules *)

(** CPU [me] calls bakery_lock_get() or bakery_lock_release(), with its cache
    on or off, or goes on. *)
Inductive action := Get (cached : bool) (me : Z) | Release (cached : bool) (me : Z) | Go (me : Z).

Definition normal_act (N SIZE lock : Z) (EA : bool) (c : Z * Normal.state) (x : action) : Z * Normal.state :=
  let '(n, s) := c in
  match x with
  | Get cached me => if decide (0 ≤ me < N) then (n, Normal.bakery_lock_get cached me s) else c
  | Release cached me => if decide (0 ≤ me < N) then (n, Normal.bakery_lock_release cached me s) else c
  | Go me =>
      if decide (0 ≤ me < N ∧ n + Normal.taken me s ≤ max_ticket)
      then (n + Normal.taken me s, Normal.advance N SIZE lock EA me s) else c
  end.

Definition coherent_act (N : Z) (EA : bool) (c : Z * Coherent.state) (x : action) : Z * Coherent.state :=
  let '(n, s) := c in
  match x with
  | Get _ me => if decide (0 ≤ me < N) then (n, Coherent.bakery_lock_get me s) else c
  | Release _ me => if decide (0 ≤ me < N) then (n, Coherent.bakery_lock_release me s) else c
  | Go me =>
      if decide (0 ≤ me < N ∧ n + Coherent.taken me s ≤ max_ticket)
      then (n + Coherent.taken me s, Coherent.advance N EA me s) else c
  end.

Lemma rtc_fold {A B} (R : A → A → Prop) (f : A → B → A) l x :
  (∀ x b, R x (f x b) ∨ f x b = x) → rtc R x (foldl f x l).
Proof.
  intros Hf. revert x. induction l as [|b l IH]; intros x; simpl; [done|].
  destruct (Hf x b) as [H|H]; [by eapply rtc_l|]. rewrite H. apply IH.
Qed.

Lemma normal_act_step N SIZE lock EA c x :
  Normal.step N SIZE lock EA c (normal_act N SIZE lock EA c x) ∨ normal_act N SIZE lock EA c x = c.
Proof.
  destruct c as [n s], x as [cached me|cached me|me]; simpl; case_decide; auto; left.
  - by apply Normal.step_get.
  - by apply Normal.step_release.
  - by apply Normal.step_advance; destruct_and!.
Qed.

Lemma normal_run N SIZE lock EA l c : rtc (Normal.step N SIZE lock EA) c (foldl (normal_act N SIZE lock EA) c l).
Proof. apply rtc_fold, normal_act_step. Qed.

Lemma coherent_act_step N EA c x : Coherent.step N EA c (coherent_act N EA c x) ∨ coherent_act N EA c x = c.
Proof.
  destruct c as [n s], x as [cached me|cached me|me]; simpl; case_decide; auto; left.
  - by apply Coherent.step_get.
  - by apply Coherent.step_release.
  - by apply Coherent.step_advance; destruct_and!.
Qed.

Lemma coherent_run N EA l c : rtc (Coherent.step N EA) c (foldl (coherent_act N EA) c l).
Proof. apply rtc_fold, coherent_act_step. Qed.

(** Only the steps after which [P] holds. *)
Definition keep {A B} (P : A → bool) (f : A → B → A) (x : A) (b : B) : A := if P (f x b) then f x b else x.

Lemma rtc_fold_keep {A B} (R : A → A → Prop) (f : A → B → A) (P : A → bool) (Q : A → Prop) l x :
  (∀ x b, R x (f x b) ∨ f x b = x) → (∀ x, P x = true → Q x) →
  rtc (λ x y, R x y ∧ Q y) x (foldl (keep P f) x l).
Proof.
  intros Hf HQ. apply rtc_fold. intros y b. unfold keep. destruct (P (f y b)) eqn:E; [|by right].
  destruct (Hf y b); auto.
Qed.

(** CPU 0 takes the lock; then CPU 1, with its cache off, takes a ticket and
    waits. *)
Definition queue : list action :=
  Get true 0 :: replicate 20 (Go 0) ++ Get false 1 :: replicate 12 (Go 1).

(** ** Mutual exclusion *)

(** C15: bakery_lock_get() and bakery_lock_release() of bakery_lock_normal.c,
    in builds with and without assertions, run by any number of CPUs up to
    256, each with its data cache on or off and with the cache evicting and
    fetching lines at any time: in every state that is reached at most one CPU
    has the lock and no assertion has failed, provided that no more than 32767
    tickets are taken without the lock becoming unused in between. *)
Theorem bakery_normal_excludes N SIZE lock EA c :
  NormalRef.layout_ok N SIZE lock → rtc (Normal.step N SIZE lock EA) (0, Normal.init N) c →
  (∀ i j, 0 ≤ i < N → 0 ≤ j < N → NormalRef.holds i c.2 → NormalRef.holds j c.2 → i = j) ∧
  (∀ i, 0 ≤ i < N → ¬ NormalRef.failed i c.2).
Proof. intros Hlay Hc. by apply (refined_excludes (R := NormalRef.refines N SIZE lock Hlay EA)). Qed.

Lemma bakery_normal_excludes_witness :
  ∃ c : Z * Normal.state, NormalRef.holds 0 c.2 ∧ NormalRef.ticket_of 1 c.2 = Some 2 ∧ ¬ NormalRef.holds 1 c.2 ∧
    (∀ i j, 0 ≤ i < 2 → 0 ≤ j < 2 → NormalRef.holds i c.2 → NormalRef.holds j c.2 → i = j) ∧
    (∀ i, 0 ≤ i < 2 → ¬ NormalRef.failed i c.2).
Proof.
  exists (foldl (normal_act 2 64 0x1000 true) (0, Normal.init 2) queue). split; [by vm_compute|]. split; [by vm_compute|].
  split; [by vm_compute|]. apply (bakery_normal_excludes 2 64 0x1000 true); [by split|apply normal_run].
Defined.

(** C20: the same for bakery_lock_coherent.c, whose locks are in coherent
    memory, under the same bound on the tickets taken. *)
Theorem bakery_coherent_excludes N EA c :
  0 < N ≤ 256 → rtc (Coherent.step N EA) (0, Coherent.init N) c →
  (∀ i j, 0 ≤ i < N → 0 ≤ j < N → CoherentRef.holds i c.2 → CoherentRef.holds j c.2 → i = j) ∧
  (∀ i, 0 ≤ i < N → ¬ CoherentRef.failed i c.2).
Proof. intros HN Hc. by apply (refined_excludes (R := CoherentRef.refines N HN EA)). Qed.

Lemma bakery_coherent_excludes_witness :
  ∃ c : Z * Coherent.state, CoherentRef.holds 0 c.2 ∧ CoherentRef.ticket_of 1 c.2 = Some 2 ∧ ¬ CoherentRef.holds 1 c.2 ∧
    (∀ i j, 0 ≤ i < 2 → 0 ≤ j < 2 → CoherentRef.holds i c.2 → CoherentRef.holds j c.2 → i = j) ∧
    (∀ i, 0 ≤ i < 2 → ¬ CoherentRef.failed i c.2).
Proof.
  exists (foldl (coherent_act 2 true) (0, Coherent.init 2) queue). split; [by vm_compute|]. split; [by vm_compute|].
  split; [by vm_compute|]. apply (bakery_coherent_excludes 2 true); [done|apply coherent_run].
Defined.

(** ** First come, first served *)

(** C17: a CPU that has taken its ticket is not overtaken by one that comes
    later, in either implementation, in builds with and without assertions and
    for up to 256 CPUs: as long as CPU [i] waits with its ticket, a CPU [j]
    that did not use the lock when [i] had its ticket does not get the lock,
    provided that no more than 32767 tickets are taken without the lock
    becoming unused in between (steps that would take more are no steps of
    [Normal.step] and [Coherent.step]). *)
Theorem bakery_no_overtaking N SIZE lock EA i j :
  NormalRef.layout_ok N SIZE lock → 0 ≤ i < N → 0 ≤ j < N → j ≠ i →
  (∀ c c' t, rtc (Normal.step N SIZE lock EA) (0, Normal.init N) c →
     NormalRef.ticket_of i c.2 = Some t → NormalRef.outside j c.2 →
     rtc (λ x y, Normal.step N SIZE lock EA x y ∧ NormalRef.ticket_of i y.2 ≠ None) c c' → ¬ NormalRef.holds j c'.2) ∧
  (∀ c c' t, rtc (Coherent.step N EA) (0, Coherent.init N) c →
     CoherentRef.ticket_of i c.2 = Some t → CoherentRef.outside j c.2 →
     rtc (λ x y, Coherent.step N EA x y ∧ CoherentRef.ticket_of i y.2 ≠ None) c c' → ¬ CoherentRef.holds j c'.2).
Proof.
  intros Hlay Hi Hj Hne. split; intros c c' t Hc Ht Ho Hr.
  - by apply (refined_no_overtaking (R := NormalRef.refines N SIZE lock Hlay EA) c c' i j t).
  - by apply (refined_no_overtaking (R := CoherentRef.refines N (NormalRef.lay_cpus _ _ _ Hlay) EA) c c' i j t).
Qed.

(** CPU 0 gives the lock back and takes another ticket, CPU 2 takes one. *)
Definition late : list action :=
  Get true 2 :: replicate 15 (Go 2) ++ Release true 0 :: replicate 4 (Go 0) ++ Get false 0 :: replicate 15 (Go 0).

Lemma bakery_no_overtaking_witness :
  ∃ (c c' : Z * Normal.state) (d d' : Z * Coherent.state),
    NormalRef.ticket_of 1 c'.2 = Some 2 ∧ NormalRef.ticket_of 2 c'.2 = Some 3 ∧ ¬ NormalRef.holds 2 c'.2 ∧
    CoherentRef.ticket_of 1 d'.2 = Some 2 ∧ CoherentRef.ticket_of 2 d'.2 = Some 3 ∧ ¬ CoherentRef.holds 2 d'.2.
Proof.
  set (c := foldl (normal_act 3 64 0x1000 true) (0, Normal.init 3) queue).
  set (d := foldl (coherent_act 3 true) (0, Coherent.init 3) queue).
  set (c' := foldl (keep (λ x, bool_decide (NormalRef.ticket_of 1 x.2 ≠ None)) (normal_act 3 64 0x1000 true)) c late).
  set (d' := foldl (keep (λ x, bool_decide (CoherentRef.ticket_of 1 x.2 ≠ None)) (coherent_act 3 true)) d late).
  destruct (bakery_no_overtaking 3 64 0x1000 true 1 2) as [H1 H2]; [by split|done..|].
  exists c, c', d, d'. split; [by vm_compute|]. split; [by vm_compute|]. split.
  { apply (H1 c c' 2); [apply normal_run|by vm_compute..|]. apply rtc_fold_keep; [apply normal_act_step|].
    intros x Hx. by apply bool_decide_eq_true_1 in Hx. }
  split; [by vm_compute|]. split; [by vm_compute|].
  apply (H2 d d' 2); [apply coherent_run|by vm_compute..|]. apply rtc_fold_keep; [apply coherent_act_step|].
  intros x Hx. by apply bool_decide_eq_true_1 in Hx.
Defined.

(** ** Tickets run out

    Two CPUs that always contend hand the lock to and fro, each time with the
    next ticket.  Ticket 32768 is stored as 0, which other CPUs take for a CPU
    that does not contend. *)

Definition turn (cur other : Z) : list action :=
  Get true other :: replicate 9 (Go other) ++ Release true cur :: replicate 2 (Go cur) ++ replicate 4 (Go other).

(** The same steps without a limit on the tickets. *)
Definition coherent_any (s : Coherent.state) (x : action) : Coherent.state :=
  match x with
  | Get _ me => Coherent.bakery_lock_get me s
  | Release _ me => Coherent.bakery_lock_release me s
  | Go me => Coherent.advance 2 true me s
  end.

Definition run (l : list action) (s : Coherent.state) : Coherent.state := foldl coherent_any s l.

Definition always_contended : Coherent.state :=
  run (turn 0 1 ++ Get true 0 :: replicate 10 (Go 0))
    (Nat.iter (Z.to_nat 0x3FFF) (run (turn 0 1 ++ turn 1 0))
       (run (Get true 0 :: replicate 10 (Go 0)) (Coherent.init 2))).

Lemma tickets_run_out : CoherentRef.holds 0 always_contended ∧ CoherentRef.holds 1 always_contended.
Proof. vm_compute. done. Qed.
