(* ===== verification/IntrMgmt.v ===== *)
(** * Interrupt management of BL31 (bl31/interrupt_mgmt.c)

    Registration of a handler per type of interrupt, with its routing model:
    from which security states such an interrupt is taken to EL3.  The model
    ends up in SCR_EL3 of the contexts that exist and is remembered for those
    that are created later.  The interrupt controller is a GICv3
    (plat/common/plat_gicv3.c). *)

From stdpp Require Import base list numbers list_numbers.
From Stdlib Require Import ZArith Lia.
From S2P Require Import Prelude Bytes.
Open Scope Z_scope.

(** ** Constants (interrupt_mgmt.h, ep_info_exp.h, arch.h, errno.h) *)

Definition EALREADY : Z := 37.
Definition SECURE : Z := 0.
Definition NON_SECURE : Z := 1.
Definition INTR_TYPE_S_EL1 : Z := 0.
Definition INTR_TYPE_EL3 : Z := 1.
Definition INTR_TYPE_NS : Z := 2.
Definition INTR_TYPE_RL : Z := 3.
Definition MAX_INTR_TYPES : Z := 4.
Definition INTR_ID_UNAVAILABLE : Z := 0xFFFFFFFF.
Definition INTR_RM_FLAGS_SHIFT : Z := 0x0.
Definition INTR_RM_FLAGS_MASK : Z := 0x3.
Definition INTR_SEL1_VALID_RM0 : Z := 0x2.
Definition INTR_SEL1_VALID_RM1 : Z := 0x3.
Definition INTR_NS_VALID_RM0 : Z := 0x0.
Definition INTR_NS_VALID_RM1 : Z := 0x1.
Definition INTR_EL3_VALID_RM0 : Z := 0x2.
Definition INTR_EL3_VALID_RM1 : Z := 0x3.
Definition INTR_DEFAULT_RM : Z := 0x0.
Definition INTR_TYPE_FLAGS_MASK : Z := 0xFFFFFFFC.
Definition INTR_RM_FROM_FLAG_MASK : Z := 1.
Definition SCR_FIQ_BIT : Z := Z.shiftl 1 2.
Definition SCR_IRQ_BIT : Z := Z.shiftl 1 1.
Definition SCR_VALID_BIT_MASK : Z := 0x24000002F8F.

Definition get_interrupt_rm_flag (flag ss : Z) : Z :=
  Z.land (Z.shiftr (Z.shiftr flag INTR_RM_FLAGS_SHIFT) ss) INTR_RM_FROM_FLAG_MASK.
Definition set_interrupt_rm_flag (flag ss : Z) : Z := Z.lor flag (Z.shiftl 1 ss).

Definition sec_state_is_valid (s : Z) : bool := (s =? SECURE) || (s =? NON_SECURE).

(** ** State

    [handler] is the address of a function, 0 for NULL.  [scr] is SCR_EL3 in
    the context of a CPU for a security state, [None] where there is no
    context yet. *)

Record intr_type_desc := MkDesc { handler : Z; scr_el3 : list Z; flags : Z }.

Record imf := MkImf { intr_type_descs : list intr_type_desc; scr : list (list (option Z)) }.

Definition c_assert {S} (b : bool) : M S unit := if b then ret tt else λ _ _, AssertFail.

Definition get_desc (type : Z) : M imf intr_type_desc := d ← gets intr_type_descs; some (zget d type).
Definition put_desc (type : Z) (d : intr_type_desc) : M imf unit :=
  modify (λ s, MkImf (zset (intr_type_descs s) type d) (scr s)).

(** ** The interrupt controller *)

Definition plat_ic_has_interrupt_type (type : Z) : bool :=
  (type =? INTR_TYPE_EL3) || (type =? INTR_TYPE_S_EL1) || (type =? INTR_TYPE_NS).

(** The bit of SCR_EL3 that routes this type of interrupt. *)
Definition plat_interrupt_type_to_line (type security_state : Z) : M imf Z :=
  c_assert ((type =? INTR_TYPE_S_EL1) || (type =? INTR_TYPE_EL3) || (type =? INTR_TYPE_NS));;
  c_assert (sec_state_is_valid security_state);;
  if type =? INTR_TYPE_S_EL1 then ret (Z.log2 (if security_state =? SECURE then SCR_IRQ_BIT else SCR_FIQ_BIT))
  else if type =? INTR_TYPE_NS then ret (Z.log2 (if security_state =? SECURE then SCR_FIQ_BIT else SCR_IRQ_BIT))
  else if type =? INTR_TYPE_EL3 then ret (Z.log2 SCR_FIQ_BIT)
  else panic.

(** ** Contexts (lib/el3_runtime/aarch64/context_mgmt.c) *)

Definition cm_get_context (security_state : Z) : M imf (option Z) :=
  me ← my_core_pos; l ← gets scr; mine ← some (zget l me); some (zget mine security_state).

Definition cm_put_scr (security_state v : Z) : M imf unit :=
  me ← my_core_pos; l ← gets scr; mine ← some (zget l me);
  modify (λ s, MkImf (intr_type_descs s) (zset l me (zset mine security_state (Some v)))).

Definition cm_write_scr_el3_bit (security_state bit_pos value : Z) : M imf unit :=
  ctx ← cm_get_context security_state;
  match ctx with
  | None => λ _ _, AssertFail
  | Some scr_el3 =>
      c_assert (negb (Z.land (u64 (Z.shiftl 1 bit_pos)) SCR_VALID_BIT_MASK =? 0));;
      c_assert (value <=? 1);;
      cm_put_scr security_state
        (Z.lor (Z.land scr_el3 (not64 (Z.shiftl 1 bit_pos))) (u64 (Z.shiftl value bit_pos)))
  end.

(** ** Routing models *)

Section Routing.
(** The build options EL3_EXCEPTION_HANDLING and SPM_MM. *)
Context (EL3_EXCEPTION_HANDLING SPM_MM : bool).

Definition validate_sel1_interrupt_rm (x : Z) : Z :=
  if (x =? INTR_SEL1_VALID_RM0) || (x =? INTR_SEL1_VALID_RM1) then 0 else - EINVAL.
Definition validate_ns_interrupt_rm (x : Z) : Z :=
  if (x =? INTR_NS_VALID_RM0) || (x =? INTR_NS_VALID_RM1) then 0 else - EINVAL.
Definition validate_el3_interrupt_rm (x : Z) : Z :=
  if EL3_EXCEPTION_HANDLING && SPM_MM then
    if x =? INTR_EL3_VALID_RM1 then 0 else - EINVAL
  else if (x =? INTR_EL3_VALID_RM0) || (x =? INTR_EL3_VALID_RM1) then 0 else - EINVAL.

Definition validate_interrupt_type (type : Z) : Z := if plat_ic_has_interrupt_type type then 0 else - EINVAL.

Definition validate_routing_model (type fl : Z) : Z :=
  let rm_flags := Z.land (Z.shiftr fl INTR_RM_FLAGS_SHIFT) INTR_RM_FLAGS_MASK in
  if type =? INTR_TYPE_S_EL1 then validate_sel1_interrupt_rm rm_flags
  else if type =? INTR_TYPE_NS then validate_ns_interrupt_rm rm_flags
  else if type =? INTR_TYPE_EL3 then validate_el3_interrupt_rm rm_flags
  else - EINVAL.

Definition get_scr_el3_from_routing_model (security_state : Z) : M imf Z :=
  c_assert (sec_state_is_valid security_state);;
  ns ← get_desc INTR_TYPE_NS; v ← some (zget (scr_el3 ns) security_state);
  sel1 ← get_desc INTR_TYPE_S_EL1; w ← some (zget (scr_el3 sel1) security_state);
  el3 ← get_desc INTR_TYPE_EL3; x ← some (zget (scr_el3 el3) security_state);
  ret (Z.lor (Z.lor v w) x).

Definition set_scr_el3_from_rm (type interrupt_type_flags security_state : Z) : M imf unit :=
  let flag := get_interrupt_rm_flag interrupt_type_flags security_state in
  bit_pos ← plat_interrupt_type_to_line type security_state;
  d ← get_desc type;
  l ← some (zput (scr_el3 d) security_state (u64 (Z.shiftl flag bit_pos)));
  put_desc type (MkDesc (handler d) l (flags d));;
  ctx ← cm_get_context security_state;
  if bool_decide (is_Some ctx) then cm_write_scr_el3_bit security_state bit_pos flag else ret tt.

Definition set_routing_model (type fl : Z) : M imf Z :=
  if negb (validate_interrupt_type type =? 0) then ret (validate_interrupt_type type)
  else if negb (validate_routing_model type fl =? 0) then ret (validate_routing_model type fl)
  else
    d ← get_desc type;
    put_desc type (MkDesc (handler d) (scr_el3 d) fl);;
    set_scr_el3_from_rm type fl SECURE;;
    set_scr_el3_from_rm type fl NON_SECURE;;
    ret 0.

Definition disable_intr_rm_local (type security_state : Z) : M imf Z :=
  d ← get_desc type;
  c_assert (negb (handler d =? 0));;
  let flag := get_interrupt_rm_flag INTR_DEFAULT_RM security_state in
  bit_pos ← plat_interrupt_type_to_line type security_state;
  cm_write_scr_el3_bit security_state bit_pos flag;;
  ret 0.

Definition enable_intr_rm_local (type security_state : Z) : M imf Z :=
  d ← get_desc type;
  c_assert (negb (handler d =? 0));;
  let flag := get_interrupt_rm_flag (flags d) security_state in
  bit_pos ← plat_interrupt_type_to_line type security_state;
  cm_write_scr_el3_bit security_state bit_pos flag;;
  ret 0.

Definition register_interrupt_type_handler (type h fl : Z) : M imf Z :=
  if h =? 0 then ret (- EINVAL)
  else if negb (Z.land fl INTR_TYPE_FLAGS_MASK =? 0) then ret (- EINVAL)
  else
    d ← get_desc type;
    if negb (handler d =? 0) then ret (- EALREADY)
    else
      rc ← set_routing_model type fl;
      if negb (rc =? 0) then ret rc
      else
        d ← get_desc type;
        put_desc type (MkDesc h (scr_el3 d) (flags d));;
        ret 0.

Definition get_interrupt_type_handler (type : Z) : M imf Z :=
  if negb (validate_interrupt_type type =? 0) then ret 0
  else d ← get_desc type; ret (handler d).
End Routing.
