(* ===== verification/IntrSpec.v ===== *)
(** * Properties of interrupt management

    What a registration does to the handlers and to SCR_EL3.  At the end:
    inputs on which the framework does not do what it means to. *)

From stdpp Require Import base list numbers list_numbers.
From Stdlib Require Import ZArith Lia.
From S2P Require Import Prelude Bytes IntrMgmt.
Open Scope Z_scope.

(** ** SCR_EL3 *)

(** [v] with bit [b] set to [f]. *)
Definition with_bit (b f v : Z) : Z := Z.lor (Z.land v (not64 (Z.shiftl 1 b))) (u64 (Z.shiftl f b)).

Lemma with_bit_spec b f v n :
  0 ≤ b < 64 → f = 0 ∨ f = 1 → 0 ≤ v < 2 ^ 64 → 0 ≤ n →
  Z.testbit (with_bit b f v) n = if decide (n = b) then f =? 1 else Z.testbit v n.
Proof.
  intros Hb Hf Hv Hn. assert (H2 : 0 < 2 ^ b < 2 ^ 64) by (split; [apply Z.pow_pos_nonneg|apply Z.pow_lt_mono_r]; lia).
  assert (Hu : ∀ f, f = 0 ∨ f = 1 → u64 (Z.shiftl f b) = f * 2 ^ b).
  { intros g Hg. rewrite Z.shiftl_mul_pow2 by lia. apply u64_small. destruct Hg; subst; lia. }
  unfold with_bit, not64. rewrite !Hu by auto. rewrite Z.lor_spec, Z.land_spec, Z.lxor_spec.
  change (2 ^ 64 - 1) with (Z.ones 64). rewrite Z.mul_1_l, Z.pow2_bits_eqb by lia.
  assert (Hf' : Z.testbit (f * 2 ^ b) n = (f =? 1) && (b =? n)).
  { destruct Hf; subst; [by rewrite Z.bits_0|]. by rewrite Z.mul_1_l, Z.pow2_bits_eqb by lia. }
  rewrite Hf'. case_decide as Hd; [subst; rewrite Z.eqb_refl|rewrite (proj2 (Z.eqb_neq b n)) by lia].
  - rewrite Z.ones_spec_low by lia. by rewrite andb_false_r, andb_true_r.
  - rewrite andb_false_r, orb_false_r, xorb_false_l. destruct (decide (n < 64)).
    + by rewrite Z.ones_spec_low, andb_true_r by lia.
    + by rewrite (testbit_high v 64), andb_false_l by lia.
Qed.

(** The bit of SCR_EL3 for a type of interrupt in a security state: FIQ for
    interrupts of EL3 and of the other state, IRQ for those of the same. *)
Definition line_of (type ss : Z) : Z :=
  if (type =? INTR_TYPE_S_EL1) && (ss =? SECURE) || (type =? INTR_TYPE_NS) && negb (ss =? SECURE) then 1 else 2.

Lemma type_to_line type ss me s :
  plat_ic_has_interrupt_type type = true → sec_state_is_valid ss = true →
  plat_interrupt_type_to_line type ss me s = Ret (line_of type ss) s.
Proof.
  unfold plat_ic_has_interrupt_type, sec_state_is_valid. rewrite !orb_true_iff, !Z.eqb_eq.
  intros [[-> | ->]| ->] [-> | ->]; done.
Qed.

(** ** One security state *)

(** The tables and the contexts of CPU [me] have their sizes. *)
Definition imf_ok (me : Z) (s : imf) : Prop :=
  zlen (intr_type_descs s) = MAX_INTR_TYPES ∧ Forall (λ d, zlen (scr_el3 d) = 2) (intr_type_descs s) ∧
  ∃ mine, zget (scr s) me = Some mine ∧ zlen mine = 2.

(** What set_scr_el3_from_rm() makes of the state. *)
Definition routed (type fl ss me : Z) (s : imf) : imf :=
  let flag := get_interrupt_rm_flag fl ss in
  MkImf
    (match zget (intr_type_descs s) type with
     | Some d => zset (intr_type_descs s) type
                   (MkDesc (handler d) (zset (scr_el3 d) ss (Z.shiftl flag (line_of type ss))) (flags d))
     | None => intr_type_descs s
     end)
    (match zget (scr s) me with
     | Some mine => match zget mine ss with
                    | Some (Some v) => zset (scr s) me (zset mine ss (Some (with_bit (line_of type ss) flag v)))
                    | _ => scr s
                    end
     | None => scr s
     end).

Lemma rm_flag_cases fl ss : get_interrupt_rm_flag fl ss = 0 ∨ get_interrupt_rm_flag fl ss = 1.
Proof.
  unfold get_interrupt_rm_flag. change INTR_RM_FROM_FLAG_MASK with (Z.ones 1). rewrite Z.land_ones by lia.
  pose proof (Z.mod_pos_bound (Z.shiftr (Z.shiftr fl INTR_RM_FLAGS_SHIFT) ss) (2 ^ 1)). lia.
Qed.

Lemma line_of_cases type ss : line_of type ss = 1 ∨ line_of type ss = 2.
Proof. unfold line_of. case_match; auto. Qed.

Lemma set_scr_spec type fl ss me s :
  plat_ic_has_interrupt_type type = true → sec_state_is_valid ss = true → imf_ok me s →
  set_scr_el3_from_rm type fl ss me s = Ret tt (routed type fl ss me s) ∧ imf_ok me (routed type fl ss me s).
Proof.
  intros Ht Hss (Hd & Hf & mine & Hm & Hl).
  assert (Hr : 0 ≤ type < 4 ∧ 0 ≤ ss < 2).
  { unfold plat_ic_has_interrupt_type, sec_state_is_valid in *. rewrite !orb_true_iff, !Z.eqb_eq in Ht, Hss.
    unfold INTR_TYPE_EL3, INTR_TYPE_S_EL1, INTR_TYPE_NS, SECURE, NON_SECURE in *. lia. }
  destruct (zget_is_Some (intr_type_descs s) type ltac:(rewrite Hd; unfold MAX_INTR_TYPES; lia)) as [d Hty].
  destruct (zget_is_Some mine ss ltac:(lia)) as [c Hc].
  assert (Hdl : zlen (scr_el3 d) = 2).
  { rewrite Forall_forall in Hf. apply Hf. unfold zget in Hty. case_decide; [|done]. by eapply list_elem_of_lookup_2. }
  pose proof (rm_flag_cases fl ss) as Hflag. pose proof (line_of_cases type ss) as Hline.
  set (flag := get_interrupt_rm_flag fl ss) in *. set (bit := line_of type ss) in *.
  assert (Hu : u64 (Z.shiftl flag bit) = Z.shiftl flag bit) by (destruct Hflag as [-> | ->], Hline as [-> | ->]; done).
  split.
  - unfold set_scr_el3_from_rm. erewrite bind_Ret by (by apply type_to_line). fold flag bit.
    unfold get_desc. erewrite bind_Ret by (unfold bind, gets; simpl; rewrite Hty; done).
    unfold zput. rewrite decide_True, Hu by lia. erewrite bind_Ret by done. erewrite bind_Ret by done.
    unfold cm_get_context. erewrite bind_Ret by (unfold bind, my_core_pos, gets; simpl; rewrite Hm; simpl; rewrite Hc; done).
    unfold routed. fold flag bit. rewrite Hty, Hm, Hc. destruct c as [v|]; [|done].
    rewrite bool_decide_true by eauto. unfold cm_write_scr_el3_bit, cm_get_context.
    erewrite bind_Ret by (unfold bind, my_core_pos, gets; simpl; rewrite Hm; simpl; rewrite Hc; done).
    unfold c_assert. replace (negb _) with true by (destruct Hline as [-> | ->]; done). erewrite bind_Ret by done.
    replace (flag <=? 1) with true by (destruct Hflag as [-> | ->]; done). erewrite bind_Ret by done.
    unfold cm_put_scr, bind, my_core_pos, gets. simpl. rewrite Hm. done.
  - unfold routed. rewrite Hty, Hm, Hc. split; [|split]; simpl.
    + by rewrite zlen_zset.
    + apply Forall_insert; [done|]. simpl. by rewrite zlen_zset.
    + destruct c; [|eauto]. pose proof (zget_Some_range _ _ _ Hm).
      rewrite zget_zset_eq by lia. eexists. split; [done|]. by rewrite zlen_zset.
Qed.

(** ** Registration *)

Definition set_desc (type : Z) (f : intr_type_desc → intr_type_desc) (s : imf) : imf :=
  MkImf (match zget (intr_type_descs s) type with
         | Some d => zset (intr_type_descs s) type (f d)
         | None => intr_type_descs s
         end) (scr s).

Lemma set_desc_ok type f me s :
  imf_ok me s → (∀ d, scr_el3 (f d) = scr_el3 d) → 0 ≤ type < MAX_INTR_TYPES →
  imf_ok me (set_desc type f s) ∧
  ∀ d, zget (intr_type_descs s) type = Some d →
    put_desc type (f d) me s = Ret tt (set_desc type f s) ∧
    get_desc type me (set_desc type f s) = Ret (f d) (set_desc type f s).
Proof.
  intros (Hd & Hf & Hm) Hs Hr. destruct (zget_is_Some (intr_type_descs s) type ltac:(lia)) as [d0 Hd0].
  assert (Hdl : zlen (scr_el3 d0) = 2).
  { rewrite Forall_forall in Hf. apply Hf. unfold zget in Hd0. case_decide; [|done]. by eapply list_elem_of_lookup_2. }
  unfold set_desc. rewrite Hd0. split.
  - split; [by simpl; rewrite zlen_zset|]. split; [|done]. apply Forall_insert; [done|]. simpl. by rewrite Hs.
  - intros d [= <-]. split; [done|]. unfold get_desc, bind, gets. simpl. by rewrite zget_zset_eq by lia.
Qed.

Lemma get_desc_Some type d me s : zget (intr_type_descs s) type = Some d → get_desc type me s = Ret d s.
Proof. unfold get_desc, bind, gets. simpl. by intros ->. Qed.

(** The context of CPU [k] for a security state. *)
Definition ctx_of (k ss : Z) (s : imf) : option (option Z) := zget (scr s) k ≫= λ l, zget l ss.

(** What one call of set_scr_el3_from_rm() does to the contexts. *)
Lemma routed_ctx type fl ss me s k ss' :
  imf_ok me s → sec_state_is_valid ss = true → 0 ≤ ss' →
  ctx_of k ss' (routed type fl ss me s) =
    if decide (k = me ∧ ss' = ss)
    then option_map (option_map (with_bit (line_of type ss) (get_interrupt_rm_flag fl ss))) (ctx_of k ss' s)
    else ctx_of k ss' s.
Proof.
  intros (_ & _ & mine & Hm & Hl) Hss Hss'. pose proof (zget_Some_range _ _ _ Hm) as Hme.
  assert (0 ≤ ss < 2) as Hr by (unfold sec_state_is_valid, SECURE, NON_SECURE in Hss; lia).
  destruct (zget_is_Some mine ss ltac:(lia)) as [c Hc].
  unfold ctx_of, routed. simpl. rewrite Hm, Hc. destruct c as [v|].
  - rewrite zget_zset by lia. destruct (decide (me = k)) as [<-|Hk]; [|by rewrite decide_False by naive_solver].
    simpl. rewrite Hm. simpl. rewrite zget_zset by lia. destruct (decide (ss = ss')) as [<-|].
    + rewrite decide_True by done. by rewrite Hc.
    + by rewrite decide_False by naive_solver.
  - case_decide as Hd; [|done]. destruct Hd as [-> ->]. rewrite Hm. simpl. by rewrite Hc.
Qed.

Lemma routed_desc type fl ss me s t :
  imf_ok me s → 0 ≤ type < MAX_INTR_TYPES → t ≠ type →
  zget (intr_type_descs (routed type fl ss me s)) t = zget (intr_type_descs s) t.
Proof.
  intros (Hd & _) Ht Hne. unfold routed. simpl. destruct (zget_is_Some (intr_type_descs s) type) as [d Hty]; [lia|].
  by rewrite Hty, zget_zset_ne by lia.
Qed.

(** A registration that is accepted: the handler is found afterwards, those of
    other types are as before, and in each context the CPU has, the bit of
    this type of interrupt is what the routing model says and no other bit has
    changed. *)
Theorem register_routes E S type h fl me s :
  imf_ok me s → plat_ic_has_interrupt_type type = true → validate_routing_model E S type fl = 0 →
  h ≠ 0 → Z.land fl INTR_TYPE_FLAGS_MASK = 0 → (∃ d, zget (intr_type_descs s) type = Some d ∧ handler d = 0) →
  ∃ s', register_interrupt_type_handler E S type h fl me s = Ret 0 s' ∧
    get_interrupt_type_handler type me s' = Ret h s' ∧
    (∀ t, t ≠ type → zget (intr_type_descs s') t = zget (intr_type_descs s) t) ∧
    (∀ k ss, 0 ≤ ss < 2 → ctx_of k ss s' =
       if decide (k = me)
       then option_map (option_map (with_bit (line_of type ss) (get_interrupt_rm_flag fl ss))) (ctx_of k ss s)
       else ctx_of k ss s).
Proof.
  intros Hok Ht Hrm Hh Hfl (d & Hd & Hnone).
  assert (Hr : 0 ≤ type < MAX_INTR_TYPES) by (pose proof (zget_Some_range _ _ _ Hd); destruct Hok; lia).
  set (s1 := set_desc type (λ d, MkDesc (handler d) (scr_el3 d) fl) s).
  destruct (set_desc_ok type (λ d, MkDesc (handler d) (scr_el3 d) fl) me s) as [Hok1 H1]; [done|done|done|].
  destruct (H1 d Hd) as [Hput1 _]. fold s1 in Hok1, Hput1.
  destruct (set_scr_spec type fl SECURE me s1) as [Hs2 Hok2]; [done..|].
  destruct (set_scr_spec type fl NON_SECURE me (routed type fl SECURE me s1)) as [Hs3 Hok3]; [done..|].
  set (s3 := routed type fl NON_SECURE me (routed type fl SECURE me s1)) in *.
  destruct (zget_is_Some (intr_type_descs s3) type) as [d3 Hd3]; [destruct Hok3; lia|].
  set (f := λ d, MkDesc h (scr_el3 d) (flags d)).
  destruct (set_desc_ok type f me s3) as [_ H4]; [done|done|done|]. destruct (H4 d3 Hd3) as [Hput4 Hget4].
  exists (set_desc type f s3). split; [|split; [|split]].
  - unfold register_interrupt_type_handler. rewrite (proj2 (Z.eqb_neq h 0)), Hfl by done. rewrite ?Z.eqb_refl. cbn [negb].
    erewrite bind_Ret by (by apply get_desc_Some).
    rewrite Hnone. rewrite ?Z.eqb_refl. cbn [negb]. unfold set_routing_model, validate_interrupt_type. rewrite Ht, Hrm. rewrite ?Z.eqb_refl. cbn [negb].
    erewrite bind_Ret.
    2:{ erewrite bind_Ret by (by apply get_desc_Some).
        erewrite bind_Ret by exact Hput1. erewrite bind_Ret by exact Hs2. erewrite bind_Ret by exact Hs3. done. }
    rewrite ?Z.eqb_refl. cbn [negb]. erewrite bind_Ret by (by apply get_desc_Some).
    erewrite bind_Ret by exact Hput4. done.
  - unfold get_interrupt_type_handler, validate_interrupt_type. rewrite Ht. rewrite ?Z.eqb_refl. cbn [negb].
    erewrite bind_Ret by exact Hget4. done.
  - intros t Hne. unfold set_desc. rewrite Hd3. cbn [intr_type_descs]. rewrite zget_zset_ne by lia. unfold s3.
    rewrite !routed_desc by done. unfold s1, set_desc. rewrite Hd. simpl.
    by rewrite zget_zset_ne by lia.
  - intros k ss Hss. change (ctx_of k ss (set_desc type f s3)) with (ctx_of k ss s3). unfold s3.
    rewrite !routed_ctx by (done || lia). change (ctx_of k ss s1) with (ctx_of k ss s).
    unfold SECURE, NON_SECURE. repeat case_decide; try done; naive_solver lia.
Qed.

(** ** Inputs the framework does not treat as it means to *)

Definition fresh : imf := MkImf (replicate 4 (MkDesc 0 [0; 0] 0)) [[Some 0; Some 0]; [None; None]].

(** The type is checked after the descriptor of this type has been read. *)
Lemma register_reads_outside_table E S h fl me :
  h ≠ 0 → Z.land fl INTR_TYPE_FLAGS_MASK = 0 → register_interrupt_type_handler E S MAX_INTR_TYPES h fl me fresh = Fault.
Proof.
  intros Hh Hfl. unfold register_interrupt_type_handler. by rewrite (proj2 (Z.eqb_neq h 0)), Hfl by done.
Qed.

(** Interrupts of the normal world and of EL3 use the same bit in the secure
    state.  When the normal world's are routed to EL3 from there and a handler
    for EL3 interrupts is registered without this, the bit is cleared in the
    context that exists, but set in those that are created later. *)
Lemma shared_line_routing_diverges :
  ∃ s1 s2, register_interrupt_type_handler false false INTR_TYPE_NS 0x1000 INTR_NS_VALID_RM1 0 fresh = Ret 0 s1 ∧
    register_interrupt_type_handler false false INTR_TYPE_EL3 0x2000 INTR_EL3_VALID_RM0 0 s1 = Ret 0 s2 ∧
    ctx_of 0 SECURE s2 = Some (Some 0) ∧ get_scr_el3_from_routing_model SECURE 0 s2 = Ret SCR_FIQ_BIT s2.
Proof. do 2 eexists. split; [vm_compute; reflexivity|]. split; [vm_compute; reflexivity|]. done. Qed.
