(* ===== verification/Ehf.v ===== *)
(** * Exception handling framework of BL31 (bl31/ehf.c)

    Secure interrupts and other events that EL3 delegates have priorities.
    Each CPU keeps the set of priority levels that are active as bits, lowest
    bit first, and programs the priority mask of its interrupt controller to
    the level in progress. *)

From stdpp Require Import base list numbers list_numbers.
From Stdlib Require Import ZArith Lia.
From S2P Require Import Prelude Bytes IntrMgmt.
Open Scope Z_scope.

Definition EHF_PRI_VALID_ : Z := 1.
Definition EHF_NO_HANDLER_ : Z := Z.lor 0 EHF_PRI_VALID_.
Definition EHF_INVALID_IDX : Z := -1.
Definition GIC_HIGHEST_NS_PRIORITY : Z := 0x80.
Definition PENDING_G1S_INTID : Z := 1020.
Definition GIC_SPURIOUS_INTERRUPT : Z := 1023.
Definition INT_ID_MASK : Z := 0xffffff.

Definition EHF_PRI_TO_IDX (pri plat_bits : Z) : Z := Z.shiftr (Z.land pri 0x7f) (7 - plat_bits).

(** ** State of a CPU

    [pmr] and [rpr] are the priority mask and the running priority of the
    CPU's interrupt controller interface, [ns_x0] is x0 in its non-secure
    context, [ehf_priorities] the descriptors all CPUs share. *)

Record pe_exc_data := MkPe { active_pri_bits : Z; init_pri_mask : Z; ns_pri_mask : Z }.

Record ehf := MkEhf {
  pe_data : pe_exc_data; pmr : Z; rpr : Z; ns_x0 : option Z; ehf_priorities : list Z; im : imf }.

Definition set_pe (p : pe_exc_data) (s : ehf) : ehf := MkEhf p (pmr s) (rpr s) (ns_x0 s) (ehf_priorities s) (im s).
Definition set_pmr (v : Z) (s : ehf) : ehf := MkEhf (pe_data s) v (rpr s) (ns_x0 s) (ehf_priorities s) (im s).
Definition set_rpr (v : Z) (s : ehf) : ehf := MkEhf (pe_data s) (pmr s) v (ns_x0 s) (ehf_priorities s) (im s).
Definition set_ns_x0 (v : Z) (s : ehf) : ehf := MkEhf (pe_data s) (pmr s) (rpr s) (Some v) (ehf_priorities s) (im s).
Definition set_priorities (l : list Z) (s : ehf) : ehf := MkEhf (pe_data s) (pmr s) (rpr s) (ns_x0 s) l (im s).
Definition set_im (i : imf) (s : ehf) : ehf := MkEhf (pe_data s) (pmr s) (rpr s) (ns_x0 s) (ehf_priorities s) i.

Definition set_active (v : Z) (p : pe_exc_data) : pe_exc_data := MkPe v (init_pri_mask p) (ns_pri_mask p).
Definition set_init_mask (v : Z) (p : pe_exc_data) : pe_exc_data := MkPe (active_pri_bits p) v (ns_pri_mask p).
Definition set_ns_mask (v : Z) (p : pe_exc_data) : pe_exc_data := MkPe (active_pri_bits p) (init_pri_mask p) v.
Definition mod_pe (f : pe_exc_data → pe_exc_data) : M ehf unit := modify (λ s, set_pe (f (pe_data s)) s).

(** A call into the interrupt management framework. *)
Definition in_im {A} (m : M imf A) : M ehf A :=
  λ me s, match m me (im s) with
          | Ret x i => Ret x (set_im i s)
          | Wfi _ _ | Fault => Fault
          | Dead i => Dead (set_im i s)
          | Panic i => Panic (set_im i s)
          | AssertFail => AssertFail
          end.

(** ** The interrupt controller (plat_gicv3.c, gicv3_main.c) *)

Definition plat_ic_get_running_priority : M ehf Z := gets rpr.

(** Returns the mask before. *)
Definition plat_ic_set_priority_mask (mask : Z) : M ehf Z :=
  old_mask ← gets pmr; modify (set_pmr mask);; ret old_mask.

(** The same, behind which the driver works around an erratum. *)
Definition plat_ic_deactivate_priority (mask : Z) : M ehf Z := plat_ic_set_priority_mask mask.

Definition gicv3_is_intr_id_special_identifier (id : Z) : bool :=
  (PENDING_G1S_INTID <=? id) && (id <=? GIC_SPURIOUS_INTERRUPT).

Definition plat_ic_get_interrupt_id (raw : Z) : Z :=
  let id := Z.land raw INT_ID_MASK in
  if gicv3_is_intr_id_special_identifier id then INTR_ID_UNAVAILABLE else id.

(** The index of the lowest bit that is set (__builtin_ctz, undefined for 0). *)
Fixpoint ctz_from (fuel : nat) (i x : Z) : option Z :=
  match fuel with
  | O => None
  | S k => if Z.testbit x i then Some i else ctz_from k (i + 1) x
  end.
Definition builtin_ctz (x : Z) : option Z := ctz_from 32 0 x.

Section Ehf.
(** The platform's priority table (exception_data) and build options; what
    the interrupt controller acknowledges, with the running priority that
    results; the handlers registered for priorities. *)
Context (num_priorities pri_bits : Z) (GIC600_ERRATA_WA_2384374 EL3_EXCEPTION_HANDLING SPM_MM : bool).
Context (gicv3_acknowledge_interrupt : ehf → Z * Z) (call_handler : Z → Z → Z → M ehf Z).

Definition IDX_TO_PRI (idx : Z) : Z := Z.land (u32 (Z.shiftl (u32 idx) (7 - pri_bits))) 0x7f.
Definition PRI_BIT (idx : Z) : Z := u32 (Z.shiftl 1 idx).
Definition RAW_HANDLER (h : Z) : Z :=
  if negb (Z.land h EHF_PRI_VALID_ =? 0) then Z.land h (not64 EHF_PRI_VALID_) else 0.
Definition IS_IDX_VALID (h : Z) : bool := negb (Z.land h EHF_PRI_VALID_ =? 0).
Definition IS_PRI_SECURE (pri : Z) : bool := Z.land pri 0x80 =? 0.

Definition pri_to_idx (priority : Z) : M ehf Z :=
  let idx := EHF_PRI_TO_IDX priority pri_bits in
  c_assert (idx <? num_priorities);;
  l ← gets ehf_priorities; h ← some (zget l idx);
  c_assert (IS_IDX_VALID h);;
  ret idx.

Definition has_valid_pri_activations (p : pe_exc_data) : bool := negb (active_pri_bits p =? 0).

Definition get_pe_highest_active_idx (p : pe_exc_data) : M ehf Z :=
  if negb (has_valid_pri_activations p) then ret EHF_INVALID_IDX
  else some (builtin_ctz (active_pri_bits p)).

Definition ehf_activate_priority (priority : Z) : M ehf unit :=
  run_pri ← plat_ic_get_running_priority;
  if run_pri <=? priority then panic
  else
    p ← gets pe_data;
    cur_pri_idx ← get_pe_highest_active_idx p;
    idx ← pri_to_idx priority;
    if negb (cur_pri_idx =? EHF_INVALID_IDX) && (u32 cur_pri_idx <=? idx) then panic
    else
      mod_pe (λ p, set_active (Z.lor (active_pri_bits p) (PRI_BIT idx)) p);;
      old_mask ← plat_ic_set_priority_mask priority;
      if old_mask <=? priority then panic
      else if cur_pri_idx =? EHF_INVALID_IDX then mod_pe (set_init_mask (u8 old_mask))
      else ret tt.

Definition ehf_deactivate_priority (priority : Z) : M ehf unit :=
  run_pri ← plat_ic_get_running_priority;
  if run_pri <=? priority then panic
  else
    p ← gets pe_data;
    cur_pri_idx ← get_pe_highest_active_idx p;
    idx ← pri_to_idx priority;
    if (cur_pri_idx =? EHF_INVALID_IDX) || negb (idx =? u32 cur_pri_idx) then panic
    else
      mod_pe (λ p, set_active (Z.land (active_pri_bits p) (u32 (active_pri_bits p - 1))) p);;
      p ← gets pe_data;
      cur_pri_idx ← get_pe_highest_active_idx p;
      old_mask ←
        (if GIC600_ERRATA_WA_2384374 then
           if cur_pri_idx =? EHF_INVALID_IDX then plat_ic_deactivate_priority (init_pri_mask p)
           else plat_ic_deactivate_priority priority
         else
           if cur_pri_idx =? EHF_INVALID_IDX then plat_ic_set_priority_mask (init_pri_mask p)
           else plat_ic_set_priority_mask priority);
      if priority <? old_mask then panic else ret tt.

Definition ehf_exited_normal_world : M ehf unit :=
  run_pri ← plat_ic_get_running_priority;
  if IS_PRI_SECURE run_pri then ret tt
  else
    p ← gets pe_data;
    if has_valid_pri_activations p then ret tt
    else
      c_assert (ns_pri_mask p =? 0);;
      old ← plat_ic_set_priority_mask GIC_HIGHEST_NS_PRIORITY;
      mod_pe (set_ns_mask (u8 old));;
      p ← gets pe_data;
      if IS_PRI_SECURE (ns_pri_mask p) then panic else ret tt.

Definition ehf_entering_normal_world : M ehf unit :=
  run_pri ← plat_ic_get_running_priority;
  if IS_PRI_SECURE run_pri then ret tt
  else
    p ← gets pe_data;
    if has_valid_pri_activations p then ret tt
    else if ns_pri_mask p =? 0 then ret tt
    else
      old_pmr ← plat_ic_set_priority_mask (ns_pri_mask p);
      if negb (old_pmr =? GIC_HIGHEST_NS_PRIORITY) && negb (old_pmr =? ns_pri_mask p) then panic
      else mod_pe (set_ns_mask 0).

Definition ehf_allow_ns_preemption (preempt_ret_code : Z) : M ehf unit :=
  p ← gets pe_data;
  c_assert (negb (ns_pri_mask p =? 0));;
  if has_valid_pri_activations p then panic
  else
    ns_ctx ← gets ns_x0;
    c_assert (bool_decide (is_Some ns_ctx));;
    modify (set_ns_x0 preempt_ret_code);;
    plat_ic_set_priority_mask (ns_pri_mask p);;
    mod_pe (set_ns_mask 0).

Definition ehf_is_ns_preemption_allowed : M ehf Z :=
  run_pri ← plat_ic_get_running_priority;
  if IS_PRI_SECURE run_pri then ret 0
  else
    p ← gets pe_data;
    if has_valid_pri_activations p then ret 0
    else if negb (ns_pri_mask p =? 0) then ret 0
    else ret 1.

Definition plat_ic_acknowledge_interrupt : M ehf Z :=
  '(raw, pri) ← gets gicv3_acknowledge_interrupt; modify (set_rpr pri);; ret raw.

Definition ehf_el3_interrupt_handler (id flags : Z) : M ehf Z :=
  c_assert (id =? INTR_ID_UNAVAILABLE);;
  intr_raw ← plat_ic_acknowledge_interrupt;
  if plat_ic_get_interrupt_id intr_raw =? INTR_ID_UNAVAILABLE then ret 0
  else
    pri ← plat_ic_get_running_priority;
    c_assert (IS_PRI_SECURE pri);;
    idx ← pri_to_idx pri;
    c_assert (pri =? IDX_TO_PRI idx);;
    l ← gets ehf_priorities; h ← some (zget l idx);
    if RAW_HANDLER h =? 0 then panic
    else r ← call_handler (RAW_HANDLER h) intr_raw flags; ret (u64 r).

(** [entry] is the address of ehf_el3_interrupt_handler(). *)
Definition ehf_init (entry : Z) : M ehf unit :=
  c_assert (plat_ic_has_interrupt_type INTR_TYPE_EL3);;
  c_assert (num_priorities <=? 32);;
  c_assert ((1 <=? pri_bits) || (pri_bits <? 8));;
  let flags := set_interrupt_rm_flag 0 NON_SECURE in
  let flags := if SPM_MM then set_interrupt_rm_flag flags SECURE else flags in
  ret_ ← in_im (register_interrupt_type_handler EL3_EXCEPTION_HANDLING SPM_MM INTR_TYPE_EL3 entry flags);
  c_assert (ret_ =? 0).

Definition ehf_register_priority_handler (pri handler : Z) : M ehf unit :=
  c_assert (negb (handler =? 0));;
  c_assert (Z.land handler 3 =? 0);;
  idx ← pri_to_idx pri;
  c_assert (idx <? num_priorities);;
  c_assert (IDX_TO_PRI idx =? pri);;
  l ← gets ehf_priorities; h ← some (zget l idx);
  if negb (h =? EHF_NO_HANDLER_) then panic
  else modify (set_priorities (zset l idx (Z.lor handler EHF_PRI_VALID_))).
End Ehf.
