(* ===== verification/EhfSpec.v ===== *)
(** * Properties of the exception handling framework

    The bits of active priorities are a stack; nested activations and the
    entry to and exit from the secure world leave the priority mask as it
    was.  At the end: inputs on which the framework does not do what it means
    to. *)

From stdpp Require Import base list numbers list_numbers sorting.
From Stdlib Require Import ZArith Lia.
From S2P Require Import Prelude Bytes IntrMgmt Ehf.
Open Scope Z_scope.

(** ** Bits as a stack *)

(** The active levels, highest priority (lowest index) first. *)
Fixpoint bits_of (st : list Z) : Z := match st with [] => 0 | i :: st => 2 ^ i + bits_of st end.

Definition stack_ok (st : list Z) : Prop := StronglySorted (<) st ∧ Forall (λ i, 0 ≤ i < 32) st.

(** Levels above [i] leave the bits up to [i] clear. *)
Lemma bits_of_above i st : 0 ≤ i → stack_ok st → Forall (λ j, i < j) st → ∃ k, 0 ≤ k ∧ bits_of st = k * 2 ^ (i + 1).
Proof.
  intros Hi [_ Hr] Hf. induction st as [|j st IH]; simpl; [by exists 0|].
  apply Forall_cons in Hr as [Hj Hr]. apply Forall_cons in Hf as [Hij Hf]. destruct (IH Hr Hf) as (k & Hk & ->).
  exists (2 ^ (j - (i + 1)) + k). split; [pose proof (Z.pow_nonneg 2 (j - (i + 1))); lia|].
  rewrite Z.mul_add_distr_r, <- Z.pow_add_r by lia. do 2 f_equal. lia.
Qed.

Lemma bits_of_cons i st : stack_ok (i :: st) → ∃ k, 0 ≤ k ∧ bits_of st = Z.shiftl k (i + 1).
Proof.
  intros [[Hs Hf]%StronglySorted_inv [Hi Hr]%Forall_cons].
  destruct (bits_of_above i st) as (k & Hk & ->); [lia|by split|done|].
  exists k. split; [done|]. rewrite Z.shiftl_mul_pow2; lia.
Qed.

(** Setting the bit of a level pushes it. *)
Lemma push_bit i st : stack_ok (i :: st) → Z.lor (bits_of st) (PRI_BIT i) = bits_of (i :: st).
Proof.
  intros H. destruct (bits_of_cons i st H) as (k & Hk & Hb). destruct H as [_ [Hi _]%Forall_cons]. simpl.
  assert (0 < 2 ^ i < 2 ^ (i + 1)) by (split; [apply Z.pow_pos_nonneg|apply Z.pow_lt_mono_r]; lia).
  unfold PRI_BIT. rewrite Z.shiftl_1_l, u32_small.
  - rewrite Hb, lor_shiftl by lia. rewrite Z.shiftl_mul_pow2; lia.
  - split; [lia|]. apply Z.pow_lt_mono_r; lia.
Qed.

(** Clearing the lowest bit pops it. *)
Lemma pop_bit i st : stack_ok (i :: st) → Z.land (bits_of (i :: st)) (bits_of (i :: st) - 1) = bits_of st.
Proof.
  intros H. destruct (bits_of_cons i st H) as (k & Hk & Hb). destruct H as [_ [Hi _]%Forall_cons]. simpl.
  assert (0 < 2 ^ i < 2 ^ (i + 1)) by (split; [apply Z.pow_pos_nonneg|apply Z.pow_lt_mono_r]; lia).
  replace (2 ^ i + bits_of st) with (Z.lor (Z.shiftl k (i + 1)) (2 ^ i)).
  2:{ rewrite lor_shiftl, Hb, Z.shiftl_mul_pow2 by lia. lia. }
  replace (Z.lor (Z.shiftl k (i + 1)) (2 ^ i) - 1) with (Z.lor (Z.shiftl k (i + 1)) (Z.ones i)).
  2:{ rewrite Z.ones_equiv, !lor_shiftl by lia. lia. }
  rewrite <- Z.lor_land_distr_r, Z.land_ones, Z_mod_same_full, Z.lor_0_r by lia. done.
Qed.

Lemma ctz_from_spec n j x i :
  j ≤ i < j + Z.of_nat n → Z.testbit x i = true → (∀ k, j ≤ k < i → Z.testbit x k = false) →
  ctz_from n j x = Some i.
Proof.
  revert j. induction n as [|n IH]; intros j Hi Ht Hf; [lia|]. simpl. destruct (decide (j = i)) as [->|].
  - by rewrite Ht.
  - rewrite Hf by lia. apply IH; [lia|done|]. intros. apply Hf. lia.
Qed.

Lemma top_bit i st : stack_ok (i :: st) → builtin_ctz (bits_of (i :: st)) = Some i ∧ bits_of (i :: st) ≠ 0.
Proof.
  intros H. destruct (bits_of_cons i st H) as (k & Hk & Hb). destruct H as [_ [Hi _]%Forall_cons]. simpl.
  assert (Heq : 2 ^ i + bits_of st = (1 + 2 * k) * 2 ^ i).
  { rewrite Hb, Z.shiftl_mul_pow2, Z.pow_add_r by lia. lia. }
  rewrite Heq. split.
  - apply ctz_from_spec; [lia| |].
    + rewrite Z.mul_pow2_bits, Z.sub_diag by lia. by rewrite Z.add_comm, Z.testbit_odd_0.
    + intros j Hj. apply Z.mul_pow2_bits_low. lia.
  - pose proof (Z.pow_pos_nonneg 2 i). nia.
Qed.

Lemma bits_of_range lo st :
  0 ≤ lo ≤ 32 → stack_ok st → Forall (λ j, lo ≤ j) st → 0 ≤ bits_of st ≤ 2 ^ 32 - 2 ^ lo.
Proof.
  revert lo. induction st as [|i st IH]; intros lo Hlo [Hs Hr] Hf; simpl.
  - pose proof (Z.pow_le_mono_r 2 lo 32). lia.
  - apply StronglySorted_inv in Hs as [Hs Hi]. apply Forall_cons in Hr as [Hir Hr]. apply Forall_cons in Hf as [Hl _].
    destruct (IH (i + 1)) as [H1 H2]; [lia|by split|eapply Forall_impl; [exact Hi|simpl; lia]|].
    rewrite Z.pow_add_r in H2 by lia. pose proof (Z.pow_pos_nonneg 2 i). pose proof (Z.pow_le_mono_r 2 lo i). lia.
Qed.

(** ** Activation and deactivation *)

Section Stack.
Context (num_priorities pri_bits : Z) (errata : bool).
Local Notation "'activate'" := (ehf_activate_priority num_priorities pri_bits).
Local Notation "'deactivate'" := (ehf_deactivate_priority num_priorities pri_bits errata).

Definition level (p : Z) : Z := EHF_PRI_TO_IDX p pri_bits.

(** The platform's table has a valid entry for the priority. *)
Definition known (s : ehf) (p : Z) : Prop :=
  0 ≤ level p < num_priorities ∧ ∃ h, zget (ehf_priorities s) (level p) = Some h ∧ IS_IDX_VALID h = true.

(** The bits of the CPU are the stack [st]. *)
Definition active (s : ehf) (st : list Z) : Prop := active_pri_bits (pe_data s) = bits_of st ∧ stack_ok st.

Lemma pri_to_idx_known s p me : known s p → pri_to_idx num_priorities pri_bits p me s = Ret (level p) s.
Proof.
  intros [Hl (h & Hh & Hv)]. unfold level in *. unfold pri_to_idx, bind, c_assert. rewrite (proj2 (Z.ltb_lt _ _)) by lia. simpl.
  rewrite Hh. simpl. rewrite Hv. done.
Qed.

Lemma highest_active s st me :
  active s st →
  get_pe_highest_active_idx (pe_data s) me s = Ret (match st with [] => EHF_INVALID_IDX | i :: _ => i end) s.
Proof.
  intros [Hb Hst]. unfold get_pe_highest_active_idx, has_valid_pri_activations. rewrite Hb.
  destruct st as [|i st]; [done|]. destruct (top_bit i st Hst) as [Hc Hn]. apply Z.eqb_neq in Hn. rewrite Hn.
  simpl negb. rewrite Hc. done.
Qed.

(** The level may be pushed. *)
Definition above (i : Z) (st : list Z) : Prop := match st with [] => True | j :: _ => i < j end.

#[local] Instance above_dec i st : Decision (above i st).
Proof. destruct st; simpl; apply _. Defined.

Lemma stack_push i st : 0 ≤ i < 32 → stack_ok st → above i st → stack_ok (i :: st).
Proof.
  intros Hi [Hs Hr] Ha. split; [|by constructor]. constructor; [done|]. destruct st as [|j st]; [done|].
  simpl in Ha. apply StronglySorted_inv in Hs as [_ Hf]. constructor; [done|].
  eapply Forall_impl; [exact Hf|simpl; lia].
Qed.

Definition activated (p : Z) (st : list Z) (s : ehf) : ehf :=
  set_pe (MkPe (bits_of (level p :: st)) (match st with [] => u8 (pmr s) | _ => init_pri_mask (pe_data s) end)
            (ns_pri_mask (pe_data s))) (set_pmr p s).

(** Activation pushes a level that is above the others and programs the mask;
    it panics if the level is not above them, the running priority or the
    mask. *)
Lemma activate_spec s st p me :
  num_priorities ≤ 32 → active s st → known s p →
  if decide (p < rpr s ∧ above (level p) st ∧ p < pmr s)
  then activate p me s = Ret tt (activated p st s) ∧ active (activated p st s) (level p :: st)
  else ∃ s', activate p me s = Panic s'.
Proof.
  intros Hnum Ha Hk. pose proof (pri_to_idx_known s p me Hk) as Hidx. pose proof (highest_active s st me Ha) as Hhi.
  destruct Ha as [Hb Hst]. destruct Hk as [Hl _].
  unfold ehf_activate_priority. unfold plat_ic_get_running_priority. erewrite bind_Ret by done.
  destruct (Z.leb_spec (rpr s) p). { rewrite decide_False by lia. by exists s. }
  erewrite bind_Ret by done. erewrite bind_Ret by exact Hhi. erewrite bind_Ret by exact Hidx.
  destruct (decide (above (level p) st)) as [Hab|Hab].
  - assert (Hpush : stack_ok (level p :: st)) by (apply stack_push; [lia|done|done]).
    replace (negb _ && _) with false.
    2:{ destruct st as [|j st]; [done|]. simpl in Hab. destruct Hst as [_ [Hj _]%Forall_cons].
        rewrite u32_small by lia. symmetry. apply andb_false_iff. right. apply Z.leb_gt. lia. }
    unfold mod_pe, plat_ic_set_priority_mask. erewrite bind_Ret by done. erewrite bind_Ret by done.
    cbn [pmr set_pe]. destruct (Z.leb_spec (pmr s) p). { rewrite decide_False by lia. by eexists. }
    rewrite decide_True by done. split.
    + unfold activated. rewrite <- push_bit, <- Hb by done.
      destruct st as [|j st]; [done|]. destruct Hst as [_ [Hj _]%Forall_cons].
      unfold EHF_INVALID_IDX. rewrite (proj2 (Z.eqb_neq j (-1))) by lia. done.
    + by split.
  - destruct st as [|j st]; [done|]. simpl in Hab. destruct Hst as [_ [Hj _]%Forall_cons].
    unfold EHF_INVALID_IDX. rewrite (proj2 (Z.eqb_neq j (-1))), u32_small by lia.
    rewrite (proj2 (Z.leb_le j (level p))) by lia. rewrite decide_False by (simpl; lia). by eexists.
Qed.

Definition deactivated (p : Z) (st : list Z) (s : ehf) : ehf :=
  set_pe (set_active (bits_of st) (pe_data s))
    (set_pmr (match st with [] => init_pri_mask (pe_data s) | _ => p end) s).

(** Deactivation pops the level on top; it panics for any other level, and if
    the running priority or the mask forbid it. *)
Lemma deactivate_spec s st p me :
  num_priorities ≤ 32 → active s st → known s p →
  match st with
  | i :: rest =>
      if decide (p < rpr s ∧ level p = i ∧ pmr s ≤ p)
      then deactivate p me s = Ret tt (deactivated p rest s) ∧ active (deactivated p rest s) rest
      else ∃ s', deactivate p me s = Panic s'
  | [] => ∃ s', deactivate p me s = Panic s'
  end.
Proof.
  intros Hnum Ha Hk. pose proof (pri_to_idx_known s p me Hk) as Hidx. pose proof (highest_active s st me Ha) as Hhi.
  destruct Ha as [Hb Hst]. unfold ehf_deactivate_priority, plat_ic_get_running_priority. erewrite bind_Ret by done.
  destruct (Z.leb_spec (rpr s) p). { destruct st; [|rewrite decide_False by lia]; by eexists. }
  erewrite bind_Ret by done. erewrite bind_Ret by exact Hhi. erewrite bind_Ret by exact Hidx.
  destruct st as [|i st]; [by eexists|]. pose proof Hst as [_ [Hi _]%Forall_cons].
  assert (Hii : (i =? EHF_INVALID_IDX) = false) by (apply Z.eqb_neq; unfold EHF_INVALID_IDX; lia).
  rewrite Hii, u32_small by lia. simpl orb.
  destruct (Z.eqb_spec (level p) i) as [Hl|Hl]; [|rewrite decide_False by lia; by eexists].
  cbn [negb orb]. assert (Hst' : stack_ok st).
  { destruct Hst as [[? _]%StronglySorted_inv [_ ?]%Forall_cons]. by split. }
  unfold mod_pe. erewrite bind_Ret by done. erewrite bind_Ret by done.
  set (s1 := set_pe _ s).
  assert (Ha1 : active s1 st).
  { split; [|done]. simpl. pose proof (bits_of_range 0 (i :: st) ltac:(lia) Hst) as Hr.
    pose proof (top_bit i st Hst) as [_ Hn]. rewrite Hb, u32_small, pop_bit; [done|done|].
    assert (Forall (λ j, 0 ≤ j) (i :: st)) as Hf by (eapply Forall_impl; [apply Hst|simpl; lia]).
    specialize (Hr Hf). lia. }
  erewrite bind_Ret by (apply (highest_active s1 st me Ha1)).
  assert (Heq : deactivated p st s = set_pmr (match st with [] => init_pri_mask (pe_data s) | _ => p end) s1).
  { unfold deactivated. destruct Ha1 as [Hb1 _]. simpl in Hb1. unfold s1. by rewrite <- Hb1. }
  rewrite Heq. destruct st as [|j st'].
  - erewrite bind_Ret by (by destruct errata). change (pmr s1) with (pmr s). destruct (Z.ltb_spec p (pmr s)).
    + rewrite decide_False by lia. by eexists.
    + rewrite decide_True by lia. by split.
  - destruct Hst' as [Hs' [Hj Hf']%Forall_cons].
    erewrite bind_Ret by (unfold EHF_INVALID_IDX; rewrite (proj2 (Z.eqb_neq j (-1))) by lia; by destruct errata).
    change (pmr s1) with (pmr s). destruct (Z.ltb_spec p (pmr s)).
    + rewrite decide_False by lia. by eexists.
    + rewrite decide_True by lia. by split.
Qed.

(** ** Nested activations *)

(** The first priority is active while the others are dealt with. *)
Fixpoint nested (ps : list Z) : M ehf unit :=
  match ps with
  | [] => ret tt
  | p :: ps => activate p;; nested ps;; deactivate p
  end.

(** Each priority may be activated on top of those before it; [m] is the mask
    and [r] the running priority. *)
Fixpoint nest_ok (ps st : list Z) (m r : Z) : Prop :=
  match ps with
  | [] => True
  | p :: ps => 0 ≤ p < r ∧ above (level p) st ∧ p < m ∧ nest_ok ps (level p :: st) p r
  end.

Definition after (ps st : list Z) (s : ehf) : ehf :=
  match ps with
  | [] => s
  | p :: _ =>
      set_pe (MkPe (bits_of st) (match st with [] => pmr s | _ => init_pri_mask (pe_data s) end)
                (ns_pri_mask (pe_data s)))
        (set_pmr (match st with [] => pmr s | _ => p end) s)
  end.

Lemma nested_spec ps s st me :
  num_priorities ≤ 32 → active s st → Forall (known s) ps → nest_ok ps st (pmr s) (rpr s) → 0 ≤ pmr s < 256 →
  nested ps me s = Ret tt (after ps st s).
Proof.
  intros Hnum. revert s st. induction ps as [|p ps IH]; intros s st Ha Hk Hn Hm; [done|].
  apply Forall_cons in Hk as [Hp Hk]. simpl in Hn. destruct Hn as (Hpr & Hab & Hpm & Hn). cbn [nested].
  pose proof (activate_spec s st p me Hnum Ha Hp) as Hact. rewrite decide_True in Hact by (split; [lia|done]).
  destruct Hact as [Hact Ha1]. erewrite bind_Ret by exact Hact.
  erewrite bind_Ret by (apply (IH _ (level p :: st)); [done|done|done|simpl; lia]).
  set (s2 := after ps _ _).
  assert (Ha2 : active s2 (level p :: st)) by (unfold s2; destruct ps; [done|split; [done|apply Ha1]]).
  assert (Hm2 : pmr s2 ≤ p).
  { unfold s2. destruct ps as [|q ps]; simpl; [lia|]. simpl in Hn. lia. }
  pose proof (deactivate_spec s2 (level p :: st) p me Hnum Ha2) as Hd. simpl in Hd.
  assert (rpr s2 = rpr s) as Hr2 by (unfold s2; by destruct ps). rewrite decide_True in Hd by lia.
  destruct Hd as [-> _]; [by unfold s2; destruct ps|]. f_equal.
  unfold s2, deactivated, after, activated, set_active, u8. destruct ps, st; simpl; rewrite ?Z.mod_small by lia; done.
Qed.

Lemma level_mono p q : 1 ≤ pri_bits ≤ 7 → 0 ≤ p < 128 → 0 ≤ q < 128 → level q < level p → q < p.
Proof.
  intros Hb Hp Hq. unfold level, EHF_PRI_TO_IDX. change 0x7f with (Z.ones 7).
  rewrite !Z.land_ones, !Z.shiftr_div_pow2 by lia. change (2 ^ 7) with 128. rewrite !Z.mod_small by lia.
  intros Hlt. destruct (decide (q < p)); [done|exfalso].
  pose proof (Z.div_le_mono p q (2 ^ (7 - pri_bits))). pose proof (Z.pow_pos_nonneg 2 (7 - pri_bits)). lia.
Qed.

(** Priorities of increasing urgency can be nested. *)
Lemma nest_ok_sorted ps st m r :
  1 ≤ pri_bits ≤ 7 → Forall (λ p, 0 ≤ p < 128) ps → Sorted (λ p q, level q < level p) ps →
  128 ≤ r → HdRel (λ _ p, above (level p) st ∧ p < m) 0 ps → nest_ok ps st m r.
Proof.
  intros Hb. revert st m. induction ps as [|p ps IH]; intros st m Hp Hs Hr Hh; simpl; [done|].
  apply Forall_cons in Hp as [Hp Hps]. apply HdRel_inv in Hh as [Hab Hpm]. apply Sorted_inv in Hs as [Hs Hd].
  split; [lia|]. split; [done|]. split; [done|]. apply IH; [done|done|done|].
  destruct ps as [|q ps]; constructor. apply HdRel_inv in Hd. apply Forall_cons in Hps as [Hq _].
  split; [done|]. by apply level_mono.
Qed.
End Stack.

(** ** Between the worlds *)

Lemma not_secure x : 0x80 ≤ x < 0x100 → IS_PRI_SECURE x = false.
Proof.
  intros Hx. unfold IS_PRI_SECURE. apply Z.eqb_neq. intros H.
  assert (Ht : Z.testbit (Z.land x 0x80) 7 = false) by by rewrite H.
  rewrite Z.land_spec in Ht. change (Z.testbit 0x80 7) with true in Ht. rewrite andb_true_r in Ht.
  rewrite Z.testbit_false in Ht by lia. change (2 ^ 7) with 128 in Ht.
  assert (x / 128 = 1) as Hd by (symmetry; apply (Z.div_unique x 128 1 (x - 128)); lia).
  by rewrite Hd in Ht.
Qed.

(** C23: leaving the normal world, activating priorities of increasing urgency
    inside one another and deactivating them again, and entering the normal
    world: no call panics or fails an assertion, and afterwards the priority
    mask is the one before, no priority is active and no mask of the normal
    world is kept. *)
Theorem ehf_nested_round_trip num_priorities pri_bits errata s ps me :
  1 ≤ pri_bits ≤ 7 → num_priorities ≤ 32 → active_pri_bits (pe_data s) = 0 → ns_pri_mask (pe_data s) = 0 →
  0x80 ≤ pmr s < 0x100 → 0x80 ≤ rpr s < 0x100 →
  Forall (known num_priorities pri_bits s) ps → Forall (λ p, 0 ≤ p < 0x80) ps →
  Sorted (λ p q, EHF_PRI_TO_IDX q pri_bits < EHF_PRI_TO_IDX p pri_bits) ps →
  ∃ s', bind ehf_exited_normal_world (λ _, bind (nested num_priorities pri_bits errata ps) (λ _,
          ehf_entering_normal_world)) me s = Ret tt s' ∧
    pmr s' = pmr s ∧ active_pri_bits (pe_data s') = 0 ∧ ns_pri_mask (pe_data s') = 0 ∧
    rpr s' = rpr s ∧ ehf_priorities s' = ehf_priorities s ∧ im s' = im s.
Proof.
  intros Hb Hnum Hact Hns Hm Hr Hk Hp Hs.
  set (s1 := set_pe (set_ns_mask (pmr s) (pe_data s)) (set_pmr GIC_HIGHEST_NS_PRIORITY s)).
  assert (He : ehf_exited_normal_world me s = Ret tt s1).
  { unfold ehf_exited_normal_world, plat_ic_get_running_priority. erewrite bind_Ret by done.
    rewrite not_secure by done. erewrite bind_Ret by done. unfold has_valid_pri_activations. rewrite Hact, Hns. simpl.
    erewrite bind_Ret by done. unfold plat_ic_set_priority_mask. erewrite bind_Ret by done.
    unfold mod_pe. erewrite bind_Ret by done. erewrite bind_Ret by done.
    assert (Hu : u8 (pmr s) = pmr s) by (apply Z.mod_small; lia). simpl. rewrite Hu. by rewrite not_secure. }
  erewrite bind_Ret by exact He.
  erewrite bind_Ret.
  2:{ apply (nested_spec num_priorities pri_bits errata ps s1 [] me); [done|split; [done|by repeat constructor]|done| |done].
      apply nest_ok_sorted; try done; [simpl; lia|]. destruct ps as [|p ps]; constructor. split; [done|].
      apply Forall_cons in Hp as [Hp _]. unfold s1, GIC_HIGHEST_NS_PRIORITY; simpl. lia. }
  set (s2 := after _ _ _).
  assert (H2 : pmr s2 = 0x80 ∧ active_pri_bits (pe_data s2) = 0 ∧ ns_pri_mask (pe_data s2) = pmr s ∧ rpr s2 = rpr s ∧
               ehf_priorities s2 = ehf_priorities s ∧ im s2 = im s) by (unfold s2; by destruct ps).
  destruct H2 as (Hm2 & Ha2 & Hn2 & Hr2 & Hp2 & Hi2).
  unfold ehf_entering_normal_world, plat_ic_get_running_priority. erewrite bind_Ret by done. rewrite Hr2, not_secure by done.
  erewrite bind_Ret by done. unfold has_valid_pri_activations. rewrite Ha2. simpl. rewrite Hn2.
  rewrite (proj2 (Z.eqb_neq (pmr s) 0)) by lia. unfold plat_ic_set_priority_mask. erewrite bind_Ret by done.
  rewrite Hm2. simpl. eexists. split; [done|]. by repeat split.
Qed.

(** A platform with four priority levels of two bits each way. *)
Definition demo_im : imf := MkImf (replicate 4 (MkDesc 0 [0; 0] 0)) [[Some 0; Some 0]; [None; None]].

Definition demo : ehf :=
  MkEhf (MkPe 0 0 0) 0xf0 0xff None [EHF_NO_HANDLER_; EHF_NO_HANDLER_; 0; EHF_NO_HANDLER_] demo_im.

Lemma ehf_nested_round_trip_witness :
  ∃ s', bind ehf_exited_normal_world (λ _, bind (nested 4 2 false [0x60; 0x20; 0x00]) (λ _,
          ehf_entering_normal_world)) 0 demo = Ret tt s' ∧
    pmr s' = pmr demo ∧ active_pri_bits (pe_data s') = 0 ∧ ns_pri_mask (pe_data s') = 0 ∧
    rpr s' = rpr demo ∧ ehf_priorities s' = ehf_priorities demo ∧ im s' = im demo.
Proof.
  apply (ehf_nested_round_trip 4 2 false); simpl; try lia; try done.
  - repeat constructor; simpl; try done; by eexists.
  - repeat constructor; simpl; lia.
  - repeat constructor.
Defined.

(** ** Handlers of priorities *)

Lemma marked_handler h :
  0 < h < 2 ^ 64 → Z.land h 3 = 0 →
  IS_IDX_VALID (Z.lor h EHF_PRI_VALID_) = true ∧ RAW_HANDLER (Z.lor h EHF_PRI_VALID_) = h ∧
  Z.lor h EHF_PRI_VALID_ ≠ EHF_NO_HANDLER_.
Proof.
  intros Hh Ha. change 3 with (Z.ones 2) in Ha. rewrite Z.land_ones in Ha by lia.
  assert (Heq : Z.lor h EHF_PRI_VALID_ = h + 1).
  { pose proof (Z_div_mod_eq_full h 4). change (2 ^ 2) with 4 in Ha.
    replace h with (Z.shiftl (h / 4) 2) at 1 by (rewrite Z.shiftl_mul_pow2; lia).
    unfold EHF_PRI_VALID_. rewrite lor_shiftl; lia. }
  assert (Hodd : Z.land (h + 1) EHF_PRI_VALID_ = 1).
  { change EHF_PRI_VALID_ with (Z.ones 1). rewrite Z.land_ones by lia. change (2 ^ 1) with 2. change (2 ^ 2) with 4 in Ha.
    rewrite <- (Z.mod_unique (h + 1) 2 (2 * (h / 4)) 1); [done|lia|]. pose proof (Z_div_mod_eq_full h 4). lia. }
  unfold IS_IDX_VALID, RAW_HANDLER. rewrite Heq, Hodd. simpl negb. cbv iota. split; [done|]. split.
  - change (not64 EHF_PRI_VALID_) with (Z.ldiff (Z.ones 64) (Z.ones 1)).
    assert (Hl : Z.land (h + 1) (Z.ldiff (Z.ones 64) (Z.ones 1)) = Z.ldiff (Z.land (h + 1) (Z.ones 64)) (Z.ones 1)).
    { apply Z.bits_inj'. intros n Hn. rewrite !Z.ldiff_spec, !Z.land_spec, !Z.ldiff_spec. apply andb_assoc. }
    change (2 ^ 2) with 4 in Ha. rewrite Hl, Z.land_ones by lia.
    rewrite Z.mod_small by (pose proof (Z_div_mod_eq_full h 4); lia).
    rewrite Z.ldiff_ones_r, Z.shiftr_div_pow2, Z.shiftl_mul_pow2 by lia. change (2 ^ 1) with 2.
    rewrite <- (Z.div_unique (h + 1) 2 (2 * (h / 4)) 1); pose proof (Z_div_mod_eq_full h 4); lia.
  - change EHF_NO_HANDLER_ with 1. lia.
Qed.

(** A handler registered for a priority is the one that is called for an
    interrupt of this priority, and no other can be registered for it. *)
Theorem registered_handler_is_called num_priorities pri_bits ack call s pri h raw flags me :
  0 ≤ EHF_PRI_TO_IDX pri pri_bits < num_priorities → 0 ≤ pri < 0x80 →
  IDX_TO_PRI pri_bits (EHF_PRI_TO_IDX pri pri_bits) = pri → 0 < h < 2 ^ 64 → Z.land h 3 = 0 →
  zget (ehf_priorities s) (EHF_PRI_TO_IDX pri pri_bits) = Some EHF_NO_HANDLER_ →
  ∃ s', ehf_register_priority_handler num_priorities pri_bits pri h me s = Ret tt s' ∧
    (ack s' = (raw, pri) → plat_ic_get_interrupt_id raw ≠ INTR_ID_UNAVAILABLE →
     ehf_el3_interrupt_handler num_priorities pri_bits ack call INTR_ID_UNAVAILABLE flags me s' =
       bind (call h raw flags) (λ r, ret (u64 r)) me (set_rpr pri s')) ∧
    ∃ s'', ehf_register_priority_handler num_priorities pri_bits pri h me s' = Panic s''.
Proof.
  intros Hl Hp Hi Hh Ha Hno. destruct (marked_handler h Hh Ha) as (Hv & Hraw & Hne).
  set (idx := EHF_PRI_TO_IDX pri pri_bits) in *. pose proof (zget_Some_range _ _ _ Hno) as Hr.
  assert (Hk : ∀ s1 v, zget (ehf_priorities s1) idx = Some v → IS_IDX_VALID v = true →
     pri_to_idx num_priorities pri_bits pri me s1 = Ret idx s1).
  { intros s1 v Hv1 Hv2. apply pri_to_idx_known. split; [done|eauto]. }
  assert (Hreg : ∀ s1 v, zget (ehf_priorities s1) idx = Some v → IS_IDX_VALID v = true →
     ehf_register_priority_handler num_priorities pri_bits pri h me s1 =
       if negb (v =? EHF_NO_HANDLER_) then Panic s1
       else Ret tt (set_priorities (zset (ehf_priorities s1) idx (Z.lor h EHF_PRI_VALID_)) s1)).
  { intros s1 v Hv1 Hv2. unfold ehf_register_priority_handler, c_assert.
    rewrite (proj2 (Z.eqb_neq h 0)), Ha by lia. simpl negb. rewrite Z.eqb_refl. do 2 erewrite bind_Ret by done.
    erewrite bind_Ret by (by eapply Hk). rewrite (proj2 (Z.ltb_lt _ _)), Hi, Z.eqb_refl by lia.
    do 2 erewrite bind_Ret by done. erewrite bind_Ret by done. rewrite Hv1. erewrite bind_Ret by done.
    by destruct (v =? EHF_NO_HANDLER_). }
  set (s' := set_priorities (zset (ehf_priorities s) idx (Z.lor h EHF_PRI_VALID_)) s).
  assert (Hs' : zget (ehf_priorities s') idx = Some (Z.lor h EHF_PRI_VALID_)) by by apply zget_zset_eq.
  exists s'. split; [by rewrite (Hreg s EHF_NO_HANDLER_)|]. split.
  - intros Hack Hid. unfold ehf_el3_interrupt_handler, plat_ic_acknowledge_interrupt, c_assert.
    rewrite Z.eqb_refl. erewrite bind_Ret by done.
    erewrite bind_Ret by (unfold bind, gets; rewrite Hack; done).
    apply Z.eqb_neq in Hid. rewrite Hid. unfold plat_ic_get_running_priority. erewrite bind_Ret by done. simpl rpr.
    assert (Hsec : IS_PRI_SECURE pri = true).
    { unfold IS_PRI_SECURE. apply Z.eqb_eq. apply Z.bits_inj'. intros n Hn. rewrite Z.land_spec, Z.bits_0.
      destruct (decide (n = 7)) as [->|].
      - assert (Z.testbit pri 7 = false) as ->; [|done]. apply Z.testbit_false; [lia|].
        by rewrite Z.div_small by lia.
      - change 0x80 with (2 ^ 7). by rewrite Z.pow2_bits_false, andb_false_r by lia. }
    rewrite Hsec. erewrite bind_Ret by done. erewrite bind_Ret by (by eapply Hk).
    rewrite Hi, Z.eqb_refl. erewrite bind_Ret by done. erewrite bind_Ret by done.
    change (ehf_priorities (set_rpr pri s')) with (ehf_priorities s'). rewrite Hs'. erewrite bind_Ret by done.
    rewrite Hraw. by rewrite (proj2 (Z.eqb_neq h 0)) by lia.
  - exists s'. erewrite Hreg by done. apply Z.eqb_neq in Hne. by rewrite Hne.
Qed.

(** ** Inputs the framework does not treat as it means to *)

(** When the level on top is deactivated and another one is active, the mask
    stays at the level that ended instead of going back to the one that is
    active again, so that the same level cannot be activated a second time. *)
Lemma second_activation_panics :
  ∃ s s', bind (ehf_activate_priority 4 2 0x60) (λ _, bind (ehf_activate_priority 4 2 0x20) (λ _,
            ehf_deactivate_priority 4 2 false 0x20)) 0 demo = Ret tt s ∧
    active_pri_bits (pe_data s) = PRI_BIT 3 ∧ pmr s = 0x20 ∧
    ehf_activate_priority 4 2 0x20 0 s = Panic s'.
Proof. by do 2 eexists. Qed.

(** The check of the number of priority bits accepts every number. *)
Lemma pri_bits_unchecked : ∃ s, ehf_init 4 9 true false 0x1000 0 demo = Ret tt s.
Proof. eexists. vm_compute. reflexivity. Qed.
