(* ===== verification/NmbmMtd.v ===== *)
(** * The block device of NMBM (drivers/mtd/nmbm/nmbm-mtd.c)

    NMBM sits between two MTD devices: the functions of the lower device of
    [NmbmTypes] call the MTD functions of the NAND chip, and the upper device
    offers the logic blocks.  Reads and writes with spare (OOB) bytes go page
    by page through a buffer of the adapter. *)

From stdpp Require Import base list numbers list_numbers.
From Stdlib Require Import ZArith Lia.
From S2P Require Import Prelude Bytes NmbmTypes NmbmCore NmbmIo NmbmOps.
Open Scope Z_scope.

Definition EUCLEAN : Z := 117.
Definition MTD_OPS_PLACE_OOB : Z := 0.
Definition MTD_OPS_AUTO_OOB : Z := 1.
Definition MTD_OPS_RAW : Z := 2.
Definition MTD_NANDFLASH : Z := 4.
Definition MTD_WRITEABLE : Z := 0x400.
Definition MTD_CAP_NANDFLASH : Z := MTD_WRITEABLE.
Definition MTD_DEV_TYPE_NMBM : Z := 0x0010.
Definition MTD_ERASE_DONE : Z := 0x08.
Definition MTD_ERASE_FAILED : Z := 0x10.

(** The members of struct mtd_info the adapter uses; [m_size] is [size]. *)
Record mtd_info := MtdInfo {
  m_type : Z; m_flags : Z; m_size : Z; m_erasesize : Z; m_writesize : Z; m_oobsize : Z; m_oobavail : Z;
  m_writesize_shift : Z; m_writesize_mask : Z; m_bitflip_threshold : Z; m_ecc_strength : Z }.

(** A request; a buffer is [None] for NULL. *)
Record mtd_oob_ops := MtdOobOps {
  o_mode : Z; o_len : Z; o_retlen : Z; o_ooblen : Z; o_oobretlen : Z; o_ooboffs : Z;
  o_datbuf : option (list Z); o_oobbuf : option (list Z) }.

Definition mtd_oobavail (mtd : mtd_info) (mode : Z) : Z :=
  if mode =? MTD_OPS_AUTO_OOB then m_oobavail mtd else m_oobsize mtd.

Definition set_datbuf (b : option (list Z)) (o : mtd_oob_ops) : mtd_oob_ops :=
  MtdOobOps (o_mode o) (o_len o) (o_retlen o) (o_ooblen o) (o_oobretlen o) (o_ooboffs o) b (o_oobbuf o).
Definition set_oobbuf (b : option (list Z)) (o : mtd_oob_ops) : mtd_oob_ops :=
  MtdOobOps (o_mode o) (o_len o) (o_retlen o) (o_ooblen o) (o_oobretlen o) (o_ooboffs o) (o_datbuf o) b.
Definition set_retlen (r : Z) (o : mtd_oob_ops) : mtd_oob_ops :=
  MtdOobOps (o_mode o) (o_len o) r (o_ooblen o) (o_oobretlen o) (o_ooboffs o) (o_datbuf o) (o_oobbuf o).
Definition set_oobretlen (r : Z) (o : mtd_oob_ops) : mtd_oob_ops :=
  MtdOobOps (o_mode o) (o_len o) (o_retlen o) (o_ooblen o) r (o_ooboffs o) (o_datbuf o) (o_oobbuf o).

(** ** The lower device

    NMBM's device is the chip with the error counters of the upper device,
    which reading a page brings up to date. *)

Record ecc_stats := EccStats { corrected : Z; failed : Z }.
Record port (D : Type) := Port { chip : D; upper_ecc_stats : ecc_stats }.
Arguments Port {D}.
Arguments chip {D}.
Arguments upper_ecc_stats {D}.

Section Lower.
Context {D : Type} (lower : mtd_info).
(** The MTD functions of the chip and its error counters. *)
Context (mtd_read_oob : Z → mtd_oob_ops → D → (Z * mtd_oob_ops) * D) (mtd_write_oob : Z → mtd_oob_ops → D → Z * D)
  (mtd_erase : Z → Z → D → Z * D) (mtd_block_isbad mtd_block_markbad : Z → D → Z * D)
  (lower_ecc_stats : D → ecc_stats).
Implicit Types d : port D.

(** A call of the chip that leaves the counters of the upper device. *)
Definition on_chip {A} (f : D → A * D) d : A * port D :=
  let '(a, c) := f (chip d) in (a, Port c (upper_ecc_stats d)).

Definition ops_mode (mode : nmbm_oob_mode) : Z :=
  match mode with
  | NMBM_MODE_PLACE_OOB => MTD_OPS_PLACE_OOB
  | NMBM_MODE_AUTO_OOB => MTD_OPS_AUTO_OOB
  | NMBM_MODE_RAW => MTD_OPS_RAW
  end.

Definition lower_ops (buf oob : option (list Z)) (mode : nmbm_oob_mode) : mtd_oob_ops :=
  MtdOobOps (ops_mode mode) (if bool_decide (is_Some buf) then m_writesize lower else 0) 0
    (if bool_decide (is_Some oob) then mtd_oobavail lower (ops_mode mode) else 0) 0 0 buf oob.

Definition nmbm_lower_read_page (addr : Z) (buf oob : option (list Z)) (mode : nmbm_oob_mode) d
    : (Z * option (list Z) * option (list Z)) * port D :=
  let '((rc, ops), c) := mtd_read_oob addr (lower_ops buf oob mode) (chip d) in
  let rc := if (rc <? 0) && negb (rc =? - EUCLEAN) then rc
            else if rc =? - EUCLEAN then s32 (Z.min (u32 (m_bitflip_threshold lower + 1)) (u32 (m_ecc_strength lower)))
            else 0 in
  ((rc, o_datbuf ops, o_oobbuf ops), Port c (lower_ecc_stats c)).

Definition nmbm_lower_write_page (addr : Z) (buf oob : option (list Z)) (mode : nmbm_oob_mode) d : Z * port D :=
  on_chip (mtd_write_oob addr (lower_ops buf oob mode)) d.

Definition nmbm_lower_erase_block (addr : Z) d : Z * port D := on_chip (mtd_erase addr (m_erasesize lower)) d.
Definition nmbm_lower_is_bad_block (addr : Z) d : Z * port D := on_chip (mtd_block_isbad addr) d.
Definition nmbm_lower_mark_bad_block (addr : Z) d : Z * port D := on_chip (mtd_block_markbad addr) d.

(** The lower device nmbm_attach_mtd() describes to NMBM. *)
Definition nld_of (flags max_ratio max_reserved_blocks : Z) : nmbm_lower_device (port D) :=
  NmbmLowerDevice (port D) max_ratio max_reserved_blocks flags (m_size lower) (m_erasesize lower) (m_writesize lower)
    (m_oobsize lower) None (Some nmbm_lower_read_page) (Some nmbm_lower_write_page) None
    (Some nmbm_lower_erase_block) (Some nmbm_lower_is_bad_block) (Some nmbm_lower_mark_bad_block).
End Lower.

(** ** The upper device *)

(** An adapter: the two devices, NMBM's instance with the chip, and the
    buffer. *)
Record nmbm_mtd (D : Type) := NmbmMtd {
  upper : mtd_info; lower_mtd : mtd_info; id : Z; core : nmbm D; mtd_page_cache : list Z }.
Arguments NmbmMtd {D}.
Arguments upper {D}.
Arguments lower_mtd {D}.
Arguments id {D}.
Arguments core {D}.
Arguments mtd_page_cache {D}.

Section Upper.
Context {D : Type} (fuel : nat).
Implicit Types s : nmbm_mtd D.

Definition set_core (c : nmbm D) s : nmbm_mtd D := NmbmMtd (upper s) (lower_mtd s) (id s) c (mtd_page_cache s).
Definition set_mtd_cache (b : list Z) s : nmbm_mtd D := NmbmMtd (upper s) (lower_mtd s) (id s) (core s) b.

(** A call into NMBM. *)
Definition in_core {A} (m : M (nmbm D) A) : M (nmbm_mtd D) A :=
  λ me s, match m me (core s) with
          | Ret x c => Ret x (set_core c s)
          | Wfi _ _ | Fault => Fault
          | Dead c => Dead (set_core c s)
          | Panic c => Panic (set_core c s)
          | AssertFail => AssertFail
          end.

Definition nmbm_mtd_read (from len : Z) (buf : list Z) : M (nmbm_mtd D) (Z * option Z * list Z) :=
  size ← gets (λ s, m_size (upper s));
  if size <? u64 (from + len) then ret (- EINVAL, None, buf)
  else in_core (nmbm_read_range from len buf NMBM_MODE_PLACE_OOB).

Definition nmbm_mtd_write (to len : Z) (buf : list Z) : M (nmbm_mtd D) (Z * option Z) :=
  size ← gets (λ s, m_size (upper s));
  if size <? u64 (to + len) then ret (- EINVAL, None)
  else in_core (nmbm_write_range fuel to len buf NMBM_MODE_PLACE_OOB).

(** Returns also the state and the failed address of the request. *)
Definition nmbm_mtd_erase (addr len : Z) : M (nmbm_mtd D) (Z * Z * option Z) :=
  '(ret_, fail_addr) ← in_core (nmbm_erase_block_range fuel addr len);
  if ret_ =? 0 then ret (ret_, MTD_ERASE_DONE, fail_addr)
  else ret (- EIO, MTD_ERASE_FAILED, fail_addr).

(** The loop variables of the transfers of pages with spare bytes. *)
Record transfer := Transfer {
  t_addr : Z; t_len : Z; t_ooblen : Z; t_col : Z; t_ooboffs : Z; t_ops : mtd_oob_ops;
  t_ecc : bool; t_flips : Z; t_ret : option Z }.

Definition with_ret (r : Z) (t : transfer) : transfer :=
  Transfer (t_addr t) (t_len t) (t_ooblen t) (t_col t) (t_ooboffs t) (t_ops t) (t_ecc t) (t_flips t) (Some r).

Definition start_transfer (lower : mtd_info) (addr : Z) (ops : mtd_oob_ops) : transfer :=
  Transfer (Z.land addr (not32 (m_writesize_mask lower))) (o_len ops) (o_ooblen ops)
    (u32 (Z.land addr (m_writesize_mask lower))) (o_ooboffs ops) (set_retlen 0 (set_oobretlen 0 ops)) false 0 None.

Definition chunk (room left : Z) : Z := if left <? room then left else room.

(** The data and the spare bytes of the buffer. *)
Definition datcache (lower : mtd_info) (cache : list Z) : list Z := take (Z.to_nat (m_writesize lower)) cache.
Definition oobcache (lower : mtd_info) (cache : list Z) : list Z := drop (Z.to_nat (m_writesize lower)) cache.

(** The result of a read, put back into the buffer. *)
Definition cache_of (lower : mtd_info) (cache : list Z) (data oob : option (list Z)) : list Z :=
  default (datcache lower cache) data ++ default (oobcache lower cache) oob.

(** A page has been read: its data and spare bytes go to the caller. *)
Definition move_data_out (lower : mtd_info) (cache : list Z) (t : transfer) : option transfer :=
  if t_len t =? 0 then Some t
  else
    let chklen := chunk (u32 (m_writesize lower - t_col t)) (t_len t) in
    (part ← mem_read cache (t_col t) chklen;
     buf ← o_datbuf (t_ops t); buf ← mem_copy buf (o_retlen (t_ops t)) part chklen;
     let ops := set_retlen (o_retlen (t_ops t) + chklen) (set_datbuf (Some buf) (t_ops t)) in
     Some (Transfer (t_addr t) (t_len t - chklen) (t_ooblen t) 0 (t_ooboffs t) ops (t_ecc t) (t_flips t) None))%stdpp.

Definition move_oob_out (lower : mtd_info) (maxooblen : Z) (cache : list Z) (t : transfer) : option transfer :=
  if t_ooblen t =? 0 then Some t
  else
    let chklen := chunk (u64 (maxooblen - t_ooboffs t)) (t_ooblen t) in
    (part ← mem_read cache (m_writesize lower + t_ooboffs t) chklen;
     buf ← o_oobbuf (t_ops t); buf ← mem_copy buf (o_oobretlen (t_ops t)) part chklen;
     let ops := set_oobretlen (o_oobretlen (t_ops t) + chklen) (set_oobbuf (Some buf) (t_ops t)) in
     Some (Transfer (t_addr t) (t_len t) (t_ooblen t - chklen) (t_col t) 0 ops (t_ecc t) (t_flips t) None))%stdpp.

Definition next_page (lower : mtd_info) (t : transfer) : transfer :=
  Transfer (u64 (t_addr t + m_writesize lower)) (t_len t) (t_ooblen t) (t_col t) (t_ooboffs t) (t_ops t)
    (t_ecc t) (t_flips t) (t_ret t).

Definition read_data_step (mode : nmbm_oob_mode) (maxooblen : Z) (has_data has_oob : bool) (t : transfer)
    : M (nmbm_mtd D) (bool * transfer) :=
  if (t_len t =? 0) && (t_ooblen t =? 0) then
    ret (true, with_ret (if t_ecc t then - EBADMSG else t_flips t) t)
  else
    lower ← gets lower_mtd; cache ← gets mtd_page_cache;
    '(rc, data, oob) ← in_core (nmbm_read_single_page (t_addr t)
        (if has_data then Some (datcache lower cache) else None)
        (if has_oob then Some (oobcache lower cache) else None) mode);
    modify (set_mtd_cache (cache_of lower cache data oob));;
    if (rc <? 0) && negb (rc =? - EBADMSG) then ret (true, with_ret rc t)
    else
      let t := Transfer (t_addr t) (t_len t) (t_ooblen t) (t_col t) (t_ooboffs t) (t_ops t)
                 (t_ecc t || (rc =? - EBADMSG)) (if t_flips t <? rc then rc else t_flips t) None in
      cache ← gets mtd_page_cache;
      t ← some (move_data_out lower cache t);
      t ← some (move_oob_out lower maxooblen cache t);
      ret (false, next_page lower t).

(** One round per byte at most. *)
Definition rounds (ops : mtd_oob_ops) : nat := Z.to_nat (o_len ops + o_ooblen ops + 1).

Definition nmbm_mtd_read_data (addr : Z) (ops : mtd_oob_ops) (mode : nmbm_oob_mode)
    : M (nmbm_mtd D) (Z * mtd_oob_ops) :=
  lower ← gets lower_mtd;
  let maxooblen := mtd_oobavail lower (o_mode ops) in
  t ← while_brk (rounds ops)
        (read_data_step mode maxooblen (negb (o_len ops =? 0)) (negb (o_ooblen ops =? 0)))
        (start_transfer lower addr ops);
  ret (default 0 (t_ret t), t_ops t).

(** The checks both directions make; the result is an error, nothing to do, a
    transfer of data only, or one with spare bytes. *)
Inductive oob_request := Refuse (rc : Z) | DataOnly (mode : nmbm_oob_mode) (buf : list Z) | WithOob (mode : nmbm_oob_mode).

Definition nmbm_mode (mode : Z) : option nmbm_oob_mode :=
  if mode =? MTD_OPS_PLACE_OOB then Some NMBM_MODE_PLACE_OOB
  else if mode =? MTD_OPS_AUTO_OOB then Some NMBM_MODE_AUTO_OOB
  else if mode =? MTD_OPS_RAW then Some NMBM_MODE_RAW
  else None.

Definition check_oob_ops (mtd : mtd_info) (from : Z) (ops : mtd_oob_ops) : oob_request :=
  match o_oobbuf ops, o_datbuf ops with
  | None, None => if negb (o_ooblen ops =? 0) || negb (o_len ops =? 0) then Refuse (- EINVAL) else Refuse 0
  | oobbuf, datbuf =>
      match nmbm_mode (o_mode ops) with
      | None => Refuse (- ENOTSUPP)
      | Some mode =>
          let maxooblen := mtd_oobavail mtd (o_mode ops) in
          if bool_decide (is_Some datbuf) && (m_size mtd <? u64 (from + o_len ops)) then Refuse (- EINVAL)
          else
            match oobbuf with
            | None => DataOnly mode (default [] datbuf)
            | Some _ =>
                if maxooblen <=? o_ooboffs ops then Refuse (- EINVAL)
                else if (m_size mtd <=? u64 from) ||
                        (u64 ((Z.shiftr (m_size mtd) (m_writesize_shift mtd) - Z.shiftr from (m_writesize_shift mtd))
                              * maxooblen) <? u64 (o_ooboffs ops + o_ooblen ops)) then Refuse (- EINVAL)
                else WithOob mode
            end
      end
  end.

Definition nmbm_mtd_read_oob (from : Z) (ops : mtd_oob_ops) : M (nmbm_mtd D) (Z * mtd_oob_ops) :=
  mtd ← gets upper;
  match check_oob_ops mtd from ops with
  | Refuse rc => ret (rc, ops)
  | DataOnly mode buf =>
      '(rc, retlen, buf) ← in_core (nmbm_read_range from (o_len ops) buf mode);
      ret (rc, set_retlen (default (o_retlen ops) retlen) (set_datbuf (Some buf) ops))
  | WithOob mode => nmbm_mtd_read_data from ops mode
  end.

(** The data and spare bytes of the next page are put into the buffer, with
    0xff around them. *)
Definition move_data_in (lower : mtd_info) (cache : list Z) (t : transfer) : option (list Z * transfer) :=
  if t_len t =? 0 then Some (cache, t)
  else
    let chklen := chunk (u32 (m_writesize lower - t_col t)) (t_len t) in
    (cache ← mem_fill cache 0 (t_col t) 0xff;
     buf ← o_datbuf (t_ops t); part ← mem_read buf (o_retlen (t_ops t)) chklen;
     cache ← mem_copy cache (t_col t) part chklen;
     cache ← mem_fill cache (t_col t + chklen) (u64 (u32 (m_writesize lower - t_col t) - chklen)) 0xff;
     let ops := set_retlen (o_retlen (t_ops t) + chklen) (t_ops t) in
     Some (cache, Transfer (t_addr t) (t_len t - chklen) (t_ooblen t) 0 (t_ooboffs t) ops (t_ecc t) (t_flips t) None))%stdpp.

Definition move_oob_in (lower : mtd_info) (maxooblen : Z) (cache : list Z) (t : transfer)
    : option (list Z * transfer) :=
  if t_ooblen t =? 0 then Some (cache, t)
  else
    let chklen := chunk (u64 (maxooblen - t_ooboffs t)) (t_ooblen t) in
    let base := m_writesize lower in
    (cache ← mem_fill cache base (t_ooboffs t) 0xff;
     buf ← o_oobbuf (t_ops t); part ← mem_read buf (o_oobretlen (t_ops t)) chklen;
     cache ← mem_copy cache (base + t_ooboffs t) part chklen;
     cache ← mem_fill cache (base + t_ooboffs t + chklen) (u64 (u32 (m_oobsize lower - t_ooboffs t) - chklen)) 0xff;
     let ops := set_oobretlen (o_oobretlen (t_ops t) + chklen) (t_ops t) in
     Some (cache, Transfer (t_addr t) (t_len t) (t_ooblen t - chklen) (t_col t) 0 ops (t_ecc t) (t_flips t) None))%stdpp.

Definition write_data_step (mode : nmbm_oob_mode) (maxooblen : Z) (has_data has_oob : bool) (t : transfer)
    : M (nmbm_mtd D) (bool * transfer) :=
  if (t_len t =? 0) && (t_ooblen t =? 0) then ret (true, with_ret 0 t)
  else
    lower ← gets lower_mtd; cache ← gets mtd_page_cache;
    '(cache, t) ← some (move_data_in lower cache t);
    '(cache, t) ← some (move_oob_in lower maxooblen cache t);
    modify (set_mtd_cache cache);;
    rc ← in_core (nmbm_write_single_page fuel (t_addr t)
           (if has_data then Some (datcache lower cache) else None)
           (if has_oob then Some (oobcache lower cache) else None) mode);
    if negb (rc =? 0) then ret (true, with_ret rc t)
    else ret (false, next_page lower t).

Definition nmbm_mtd_write_data (addr : Z) (ops : mtd_oob_ops) (mode : nmbm_oob_mode)
    : M (nmbm_mtd D) (Z * mtd_oob_ops) :=
  lower ← gets lower_mtd;
  let maxooblen := mtd_oobavail lower (o_mode ops) in
  t ← while_brk (rounds ops)
        (write_data_step mode maxooblen (negb (o_len ops =? 0)) (negb (o_ooblen ops =? 0)))
        (start_transfer lower addr ops);
  ret (default 0 (t_ret t), t_ops t).

Definition nmbm_mtd_write_oob (to : Z) (ops : mtd_oob_ops) : M (nmbm_mtd D) (Z * mtd_oob_ops) :=
  mtd ← gets upper;
  match check_oob_ops mtd to ops with
  | Refuse rc => ret (rc, ops)
  | DataOnly mode buf =>
      '(rc, retlen) ← in_core (nmbm_write_range fuel to (o_len ops) buf mode);
      ret (rc, set_retlen (default (o_retlen ops) retlen) ops)
  | WithOob mode => nmbm_mtd_write_data to ops mode
  end.

Definition nmbm_mtd_block_isbad (offs : Z) : M (nmbm_mtd D) Z := in_core (nmbm_check_bad_block offs).
Definition nmbm_mtd_block_markbad (offs : Z) : M (nmbm_mtd D) Z := in_core (nmbm_mark_bad_block fuel offs).

(** ** Attaching *)

Definition upper_of (lower : mtd_info) (n : nmbm_instance D) : mtd_info :=
  MtdInfo MTD_DEV_TYPE_NMBM (m_flags lower) (u64 (data_block_count n * erasesize (NmbmTypes.lower n)))
    (m_erasesize lower) (m_writesize lower) (m_oobsize lower) (m_oobavail lower) (m_writesize_shift lower)
    (m_writesize_mask lower) (m_bitflip_threshold lower) (m_ecc_strength lower).

(** The registered adapters: the addresses of the upper and of the lower
    device, and the adapter. *)
Record listed := Listed { at_upper : Z; at_lower : Z; nm : nmbm_mtd D }.
Record registry := Registry { nmbm_id_cnt : Z; nmbm_devs : list listed }.

(** [nld] is the description of the chip, [blank] the zeroed instance with the
    chip, [mem] its zeroed memory and [buf] the zeroed buffer; [at_nm] is the
    address of the adapter and [calloc_ni] whether there is memory for the
    instance.  The result is the code, the address of the upper device and the
    registry. *)
Definition nmbm_attach_mtd (lower : option (Z * mtd_info)) (nld : nmbm_lower_device D) (at_nm : option Z)
    (calloc_ni : bool) (blank : nmbm D) (mem buf : list Z) (me : Z) (g : registry)
    : option (Z * option Z * registry) :=
  match lower with
  | None => Some (- EINVAL, None, g)
  | Some (at_lower, lower) =>
      if negb (m_type lower =? MTD_NANDFLASH) || negb (m_flags lower =? MTD_CAP_NANDFLASH) then
        Some (- ENOTSUPP, None, g)
      else
        match at_nm with
        | None => Some (- ENOMEM, None, g)
        | Some at_upper =>
            let nm_id := nmbm_id_cnt g in
            let g := Registry (u32 (nm_id + 1)) (nmbm_devs g) in
            if negb calloc_ni then Some (- ENOMEM, None, g)
            else
              match nmbm_attach fuel nld mem me blank with
              | Ret rc c =>
                  if negb (rc =? 0) then Some (rc, None, g)
                  else
                    let d := Listed at_upper at_lower (NmbmMtd (upper_of lower (ni c)) lower nm_id c buf) in
                    Some (0, Some at_upper, Registry (nmbm_id_cnt g) (nmbm_devs g ++ [d]))
              | _ => None
              end
        end
  end.

(** The adapter that goes is the first at the address; [nmbm_detach] stores its
    tables.  The result has the instance it left. *)
Fixpoint free_mtd (upper me : Z) (devs : list listed) : option (Z * option (nmbm D) * list listed) :=
  match devs with
  | [] => Some (- ENODEV, None, [])
  | pos :: rest =>
      if at_upper pos =? upper then
        match nmbm_detach fuel me (core (nm pos)) with
        | Ret _ c => Some (0, Some c, rest)
        | _ => None
        end
      else
        (r ← free_mtd upper me rest; let '(rc, c, rest) := r in Some (rc, c, pos :: rest))%stdpp
  end.

Definition nmbm_free_mtd (upper : option Z) (me : Z) (g : registry) : option (Z * option (nmbm D) * registry) :=
  match upper with
  | None => Some (- EINVAL, None, g)
  | Some a =>
      (r ← free_mtd a me (nmbm_devs g);
       let '(rc, c, devs) := r in Some (rc, c, Registry (nmbm_id_cnt g) devs))%stdpp
  end.

Definition nmbm_mtd_get_upper_by_index (index : Z) (g : registry) : option Z :=
  at_upper <$> head (filter (λ d, id (nm d) = index) (nmbm_devs g)).
Definition nmbm_mtd_get_upper (lower : Z) (g : registry) : option Z :=
  at_upper <$> head (filter (λ d, at_lower d = lower) (nmbm_devs g)).
End Upper.
