(* ===== verification/NmbmMtdSpec.v ===== *)
(** * The block device of NMBM: its calls are safe

    Every call of the upper device on an adapter with a well-formed instance
    returns, accesses no buffer outside its bounds and keeps the adapter
    well-formed, whatever the chip returns; then runs on inputs the code does
    not serve as intended. *)

From stdpp Require Import base list numbers list_numbers gmap.
From Stdlib Require Import ZArith Lia.
From S2P Require Import Prelude Bytes NmbmTypes NmbmCore NmbmIo NmbmOps.
From S2P Require Import NmbmLayout NmbmWf NmbmSafe NmbmApi NmbmDemo NmbmMtd.
Open Scope Z_scope.

(** Symbolic execution of the adapter's own steps. *)
Ltac astep :=
  lazymatch goal with
  | |- wp _ (bind _ _) _ _ _ => apply wp_bind
  | |- wp _ (ret _) _ _ _ => apply wp_ret
  | |- wp _ (gets _) _ _ _ => apply wp_gets
  | |- wp _ (modify _) _ _ _ => apply wp_modify
  end; cbv beta.
Ltac asteps := repeat astep.

Section Safe.
Context {D : Type} (fuel : nat).
Abbreviation F := (λ _ : nmbm_mtd D, False).
Implicit Types (s : nmbm_mtd D) (t : transfer) (ops : mtd_oob_ops).

(** An adapter over the device NMBM works on, with a buffer for a page and its
    spare bytes. *)
Record adapter_ok s : Prop := {
  ad_core : nwf (ni (core s));
  ad_page : m_writesize (lower_mtd s) = writesize (lower (ni (core s)));
  ad_mask : m_writesize_mask (lower_mtd s) = m_writesize (lower_mtd s) - 1;
  ad_oob : m_oobsize (lower_mtd s) = oobsize (lower (ni (core s)));
  ad_oob_small : m_oobsize (lower_mtd s) < 2 ^ 32;
  ad_avail : 0 ≤ m_oobavail (lower_mtd s) ≤ m_oobsize (lower_mtd s);
  ad_upper : m_oobsize (upper s) = m_oobsize (lower_mtd s) ∧ m_oobavail (upper s) = m_oobavail (lower_mtd s);
  ad_cache : zlen (mtd_page_cache s) = m_writesize (lower_mtd s) + m_oobsize (lower_mtd s);
}.

(** What no call changes. *)
Definition adapted s s' : Prop :=
  adapter_ok s' ∧ upper s' = upper s ∧ lower_mtd s' = lower_mtd s ∧ id s' = id s ∧ opd (core s) (core s').

Lemma adapted_refl s : adapter_ok s → adapted s s.
Proof. intros H. split_and!; try done. apply opd_refl, H. Qed.

Lemma wp_in_core {A} (m : M (nmbm D) A) me s (Q : A → nmbm_mtd D → Prop) :
  wp (λ _, False) m me (core s) (λ a c, Q a (set_core c s)) → wp F (in_core m) me s Q.
Proof. unfold wp, in_core. by destruct (m me (core s)). Qed.

(** After a call into NMBM, and after the buffer has been filled. *)
Lemma adapted_core s0 s c : adapted s0 s → opd (core s) c → adapted s0 (set_core c s).
Proof.
  intros ([] & Hu & Hl & Hi & Ho) Hc. pose proof (opd_trans _ _ _ Ho Hc).
  destruct Hc as [W [= Hlow _ _ _ _ _]]. split_and!; try done. constructor; simpl; done || by rewrite Hlow.
Qed.

Lemma adapted_cache s0 s b : adapted s0 s → zlen b = zlen (mtd_page_cache s) → adapted s0 (set_mtd_cache b s).
Proof.
  intros ([] & Hu & Hl & Hi & Ho) Hb. split_and!; try done. constructor; simpl; done || by rewrite Hb.
Qed.

Lemma adapter_geom s : adapter_ok s →
  0 < m_writesize (lower_mtd s) < 2 ^ 32 ∧ 0 < m_oobsize (lower_mtd s) < 2 ^ 32 ∧
  ∃ k, 0 ≤ k ∧ m_writesize_mask (lower_mtd s) = Z.ones k ∧ m_writesize (lower_mtd s) = 2 ^ k.
Proof.
  intros []. destruct (wf_geom _ ad_core0). destruct g_page as [Hw (k & Hk & He)].
  split_and!; try lia. exists k. rewrite Z.ones_equiv. lia.
Qed.

(** ** Requests *)

(** The lengths are those of the buffers, as mtd_check_oob_ops() makes them. *)
Definition buffer_ok (b : option (list Z)) (len : Z) : Prop := zlen (default [] b) = len.
Record ops_ok (addr : Z) ops : Prop := {
  ok_addr : 0 ≤ addr; ok_range : addr + o_len ops < 2 ^ 64; ok_offs : 0 ≤ o_ooboffs ops;
  ok_data : buffer_ok (o_datbuf ops) (o_len ops); ok_oob : buffer_ok (o_oobbuf ops) (o_ooblen ops);
}.

(** The transfer of a request: what has been moved and what is left. *)
Record moving (lower : mtd_info) (max len ooblen : Z) t : Prop := {
  mv_addr : 0 ≤ t_addr t;
  mv_len : 0 ≤ t_len t; mv_ooblen : 0 ≤ t_ooblen t;
  mv_col : 0 ≤ t_col t < m_writesize lower; mv_offs : 0 ≤ t_ooboffs t < max;
  mv_ret : o_retlen (t_ops t) + t_len t = len; mv_oobret : o_oobretlen (t_ops t) + t_ooblen t = ooblen;
  mv_ret0 : 0 ≤ o_retlen (t_ops t); mv_oobret0 : 0 ≤ o_oobretlen (t_ops t);
  mv_data : buffer_ok (o_datbuf (t_ops t)) len; mv_oob : buffer_ok (o_oobbuf (t_ops t)) ooblen;
}.

Lemma start_moving s addr ops max :
  adapter_ok s → ops_ok addr ops → o_ooboffs ops < max →
  moving (lower_mtd s) max (o_len ops) (o_ooblen ops) (start_transfer (lower_mtd s) addr ops).
Proof.
  intros Ha [] Hm. destruct (adapter_geom s Ha) as (Hw & Ho & k & Hk & Hmask & Hp).
  pose proof (zlen_nonneg (default [] (o_datbuf ops))). pose proof (zlen_nonneg (default [] (o_oobbuf ops))).
  unfold buffer_ok in *. constructor; simpl; try done || lia.
  - apply Z.land_nonneg. by left.
  - rewrite Hmask, Z.land_ones by done. pose proof (Z.mod_pos_bound addr (2 ^ k) ltac:(lia)).
    unfold u32. rewrite Z.mod_small; lia.
Qed.

Lemma buffer_some b len : buffer_ok b len → len ≠ 0 → ∃ l, b = Some l ∧ zlen l = len.
Proof. destruct b as [l|]; [by exists l|]. unfold buffer_ok. by intros <-. Qed.

Lemma chunk_pos room left : 0 < room → 0 < left → 0 < chunk room left ≤ left ∧ chunk room left ≤ room.
Proof. intros. unfold chunk. case Z.ltb_spec; lia. Qed.

Section Moves.
Context (lower : mtd_info) (max len ooblen : Z).
Context (Hw : 0 < m_writesize lower < 2 ^ 32) (Hmax : 0 < max ≤ m_oobsize lower) (Hos : m_oobsize lower < 2 ^ 32).
Local Notation "'mv'" := (moving lower max len ooblen).

(** How much of the request is left. *)
Definition todo t : Z := t_len t + t_ooblen t.

Lemma move_data_out_ok cache t :
  mv t → zlen cache = m_writesize lower + m_oobsize lower →
  ∃ t', move_data_out lower cache t = Some t' ∧ mv t' ∧ t_ooblen t' = t_ooblen t ∧
    t_len t' ≤ t_len t ∧ (t_len t ≠ 0 → t_len t' < t_len t).
Proof.
  intros [] Hc. unfold move_data_out. case Z.eqb_spec; intros H0; [by exists t; split_and!; lia || done|].
  rewrite u32_small by lia. destruct (chunk_pos (m_writesize lower - t_col t) (t_len t)) as [Hch Hch']; [lia..|]. set (n := chunk _ _) in *.
  rewrite mem_read_ok by lia. simpl.
  destruct (buffer_some _ _ mv_data0) as (buf & -> & Hb); [lia|]. simpl.
  destruct (mem_copy_ok buf (o_retlen (t_ops t)) (zslice cache (t_col t) n) n) as (buf' & -> & Hb');
    [lia|rewrite zlen_zslice by lia; lia|lia|].
  simpl. eexists. split; [done|]. split_and!; simpl; try lia. constructor; simpl; try done || lia. red. simpl. lia.
Qed.

Lemma move_oob_out_ok cache t :
  mv t → zlen cache = m_writesize lower + m_oobsize lower →
  ∃ t', move_oob_out lower max cache t = Some t' ∧ mv t' ∧ t_len t' = t_len t ∧
    t_ooblen t' ≤ t_ooblen t ∧ (t_ooblen t ≠ 0 → t_ooblen t' < t_ooblen t).
Proof.
  intros [] Hc. unfold move_oob_out. case Z.eqb_spec; intros H0; [by exists t; split_and!; lia || done|].
  rewrite (u64_small (max - t_ooboffs t)) by lia. destruct (chunk_pos (max - t_ooboffs t) (t_ooblen t)) as [Hch Hch']; [lia..|]. set (n := chunk _ _) in *.
  rewrite mem_read_ok by lia. simpl.
  destruct (buffer_some _ _ mv_oob0) as (buf & -> & Hb); [lia|]. simpl.
  destruct (mem_copy_ok buf (o_oobretlen (t_ops t)) (zslice cache (m_writesize lower + t_ooboffs t) n) n) as (buf' & -> & Hb');
    [lia|rewrite zlen_zslice by lia; lia|lia|].
  simpl. eexists. split; [done|]. split_and!; simpl; try lia. constructor; simpl; try done || lia. red. simpl. lia.
Qed.

Lemma move_data_in_ok cache t :
  mv t → zlen cache = m_writesize lower + m_oobsize lower →
  ∃ cache' t', move_data_in lower cache t = Some (cache', t') ∧ zlen cache' = zlen cache ∧ mv t' ∧
    t_ooblen t' = t_ooblen t ∧ t_len t' ≤ t_len t ∧ (t_len t ≠ 0 → t_len t' < t_len t).
Proof.
  intros [] Hc. unfold move_data_in. case Z.eqb_spec; intros H0; [by exists cache, t; split_and!; lia || done|].
  rewrite u32_small by lia. destruct (chunk_pos (m_writesize lower - t_col t) (t_len t)) as [Hch Hch']; [lia..|]. set (n := chunk _ _) in *.
  destruct (mem_fill_ok cache 0 (t_col t) 0xff) as (c1 & -> & H1); [lia..|]. simpl.
  destruct (buffer_some _ _ mv_data0) as (buf & -> & Hb); [lia|]. simpl. rewrite mem_read_ok by lia. simpl.
  destruct (mem_copy_ok c1 (t_col t) (zslice buf (o_retlen (t_ops t)) n) n) as (c2 & -> & H2);
    [lia|rewrite zlen_zslice by lia; lia|lia|]. simpl. rewrite u64_small by lia.
  destruct (mem_fill_ok c2 (t_col t + n) (m_writesize lower - t_col t - n) 0xff) as (c3 & -> & H3); [lia..|].
  simpl. do 2 eexists. split; [done|]. split_and!; simpl; try lia. constructor; simpl; done || lia.
Qed.

Lemma move_oob_in_ok cache t :
  mv t → zlen cache = m_writesize lower + m_oobsize lower →
  ∃ cache' t', move_oob_in lower max cache t = Some (cache', t') ∧ zlen cache' = zlen cache ∧ mv t' ∧
    t_len t' = t_len t ∧ t_ooblen t' ≤ t_ooblen t ∧ (t_ooblen t ≠ 0 → t_ooblen t' < t_ooblen t).
Proof.
  intros [] Hc. unfold move_oob_in. case Z.eqb_spec; intros H0; [by exists cache, t; split_and!; lia || done|].
  rewrite (u64_small (max - t_ooboffs t)) by lia. destruct (chunk_pos (max - t_ooboffs t) (t_ooblen t)) as [Hch Hch']; [lia..|]. set (n := chunk _ _) in *.
  destruct (mem_fill_ok cache (m_writesize lower) (t_ooboffs t) 0xff) as (c1 & -> & H1); [lia..|]. simpl.
  destruct (buffer_some _ _ mv_oob0) as (buf & -> & Hb); [lia|]. simpl. rewrite mem_read_ok by lia. simpl.
  destruct (mem_copy_ok c1 (m_writesize lower + t_ooboffs t) (zslice buf (o_oobretlen (t_ops t)) n) n)
    as (c2 & -> & H2); [lia|rewrite zlen_zslice by lia; lia|lia|]. simpl. rewrite u32_small, u64_small by lia.
  destruct (mem_fill_ok c2 (m_writesize lower + t_ooboffs t + n) (m_oobsize lower - t_ooboffs t - n) 0xff)
    as (c3 & -> & H3); [lia..|].
  simpl. do 2 eexists. split; [done|]. split_and!; simpl; try lia. constructor; simpl; done || lia.
Qed.

Lemma next_page_moving t : mv t → mv (next_page lower t).
Proof. intros []. constructor; try done. apply Z.mod_pos_bound. lia. Qed.
End Moves.

(** ** The loops *)

Lemma cache_of_length s data oob (hd ho : bool) :
  adapter_ok s →
  length <$> data = length <$> (if hd then Some (datcache (lower_mtd s) (mtd_page_cache s)) else None) →
  length <$> oob = length <$> (if ho then Some (oobcache (lower_mtd s) (mtd_page_cache s)) else None) →
  zlen (cache_of (lower_mtd s) (mtd_page_cache s) data oob) = zlen (mtd_page_cache s).
Proof.
  intros _ Hd Ho. transitivity (zlen (datcache (lower_mtd s) (mtd_page_cache s) ++
    oobcache (lower_mtd s) (mtd_page_cache s))); [|unfold datcache, oobcache; by rewrite take_drop].
  unfold cache_of. rewrite !zlen_app.
  assert (zlen (default (datcache (lower_mtd s) (mtd_page_cache s)) data) = zlen (datcache (lower_mtd s) (mtd_page_cache s))).
  { unfold zlen. destruct data, hd; simplify_eq/=; congruence. }
  assert (zlen (default (oobcache (lower_mtd s) (mtd_page_cache s)) oob) = zlen (oobcache (lower_mtd s) (mtd_page_cache s))).
  { unfold zlen. destruct oob, ho; simplify_eq/=; congruence. }
  lia.
Qed.

Section Loops.
Context (s0 : nmbm_mtd D) (max len ooblen : Z) (Hok : adapter_ok s0) (Hmax : 0 < max ≤ m_oobsize (lower_mtd s0)).
Context (Hfuel : block_count (ni (core s0)) + 2 < Z.of_nat fuel).
Local Notation "'mv'" := (moving (lower_mtd s0) max len ooblen).

(** The invariant of both loops, and the bound of their rounds. *)
Definition going (t : transfer) s : Prop := adapted s0 s ∧ mv t.

Lemma going_sizes t s : going t s →
  lower_mtd s = lower_mtd s0 ∧
  zlen (mtd_page_cache s) = m_writesize (lower_mtd s0) + m_oobsize (lower_mtd s0).
Proof. intros [(Ha & _ & Hl & _) _]. split; [done|]. rewrite <- Hl. apply Ha. Qed.

Lemma wp_loop (step : transfer → M (nmbm_mtd D) (bool * transfer)) n t me s Q :
  going t s → todo t < Z.of_nat n →
  (∀ t s, going t s → wp F (step t) me s (λ '(brk, t') s',
     if brk : bool then adapted s0 s' else going t' s' ∧ todo t' < todo t)) →
  (∀ t s, adapted s0 s → Q t s) →
  wp F (while_brk n step t) me s Q.
Proof.
  intros Hg Hn Hstep HQ.
  apply (wp_while_brk _ going Q (λ t _, todo t)); [done..|]. intros t1 s1 Hg1. split.
  - destruct Hg1 as [_ []]. unfold todo. lia.
  - eapply wp_mono; [by apply Hstep|]. intros [[] t'] s'; [apply HQ|done].
Qed.

Lemma wp_read_data_step mode hd ho t me s :
  going t s →
  wp F (read_data_step mode max hd ho t) me s (λ '(brk, t') s',
    if brk : bool then adapted s0 s' else going t' s' ∧ todo t' < todo t).
Proof.
  intros Hg. destruct (going_sizes _ _ Hg) as [Hl Hc]. destruct (adapter_geom s0 Hok) as (Hw & Ho & _).
  unfold read_data_step. destruct (_ && _) eqn:He; [apply wp_ret, Hg|]. asteps.
  destruct Hg as [Ha Hm]. apply wp_in_core.
  apply (wp_read_single_page fuel (core s0)); [apply Ha|apply Hm|].
  intros rc data oob c [Hp _] Hd Hoo. asteps. cbn [lower_mtd set_core].
  assert (Ha1 : adapted s0 (set_core c s)).
  { apply adapted_core; [done|]. apply paged_opd; [done|apply Ha]. }
  pose proof (cache_of_length s data oob hd ho (proj1 Ha) Hd Hoo) as Hlen.
  set (cache := cache_of _ _ _ _) in *.
  pose proof (adapted_cache _ _ cache Ha1 Hlen) as Ha2.
  destruct ((rc <? 0) && negb _); [by asteps|]. asteps. cbn [mtd_page_cache set_mtd_cache].
  set (t1 := Transfer _ _ _ _ _ _ _ _ _).
  assert (Hm1 : mv t1) by (by destruct Hm). rewrite Hl.
  edestruct (move_data_out_ok (lower_mtd s0) max len ooblen) with (cache := cache) (t := t1) as (t2 & Ht2 & Hm2 & H2 & H2' & H2s); [done || lia..|].
  apply (wp_some _ _ _ _ _ _ Ht2). asteps.
  edestruct (move_oob_out_ok (lower_mtd s0) max len ooblen) with (cache := cache) (t := t2) as (t3 & Ht3 & Hm3 & H3 & H3' & H3s); [done || lia..|].
  apply (wp_some _ _ _ _ _ _ Ht3). asteps. split; [split; [done|by apply next_page_moving]|].
  change (todo (next_page _ t3)) with (todo t3). unfold todo. apply andb_false_iff in He.
  subst t1; simpl in *. destruct He as [He|He]; apply Z.eqb_neq in He; lia.
Qed.

Lemma wp_write_data_step mode hd ho t me s :
  going t s →
  wp F (write_data_step fuel mode max hd ho t) me s (λ '(brk, t') s',
    if brk : bool then adapted s0 s' else going t' s' ∧ todo t' < todo t).
Proof.
  intros Hg. destruct (going_sizes _ _ Hg) as [Hl Hc]. destruct (adapter_geom s0 Hok) as (Hw & Ho & _).
  unfold write_data_step. destruct (_ && _) eqn:He; [apply wp_ret, Hg|]. asteps. destruct Hg as [Ha Hm]. rewrite Hl.
  edestruct (move_data_in_ok (lower_mtd s0) max len ooblen) with (cache := mtd_page_cache s) (t := t)
    as (c2 & t2 & Ht2 & Hc2 & Hm2 & H2 & H2' & H2s); [done || lia..|].
  apply (wp_some _ _ _ _ _ _ Ht2). asteps.
  edestruct (move_oob_in_ok (lower_mtd s0) max len ooblen) with (cache := c2) (t := t2)
    as (c3 & t3 & Ht3 & Hc3 & Hm3 & H3 & H3' & H3s); [done || lia..|].
  apply (wp_some _ _ _ _ _ _ Ht3). asteps.
  pose proof (adapted_cache s0 s c3 Ha ltac:(lia)) as Ha1. apply wp_in_core.
  apply (wp_write_single_page fuel (core s0)); [apply Hfuel|apply Ha|apply Hm3|]. intros rc c Hoc.
  assert (Ha2 : adapted s0 (set_core c (set_mtd_cache c3 s))).
  { apply adapted_core; [done|]. split; [apply Hoc|]. destruct Hoc as [_ ->]. symmetry. apply Ha. }
  destruct (negb _); asteps; [done|]. split; [split; [done|by eapply next_page_moving]|].
  change (todo (next_page _ t3)) with (todo t3). unfold todo. apply andb_false_iff in He.
  destruct He as [He|He]; apply Z.eqb_neq in He; lia.
Qed.
End Loops.

(** ** The calls *)

Section Calls.
Context (s0 : nmbm_mtd D) (Hok : adapter_ok s0) (Hfuel : block_count (ni (core s0)) + 2 < Z.of_nat fuel).

Lemma adapted_opd c : opd (core s0) c → adapted s0 (set_core c s0).
Proof. apply adapted_core, adapted_refl, Hok. Qed.

Lemma oobavail_same mode : mtd_oobavail (upper s0) mode = mtd_oobavail (lower_mtd s0) mode.
Proof. unfold mtd_oobavail. by destruct (ad_upper _ Hok) as [-> ->]. Qed.

Lemma oobavail_le mode : mtd_oobavail (lower_mtd s0) mode ≤ m_oobsize (lower_mtd s0).
Proof. unfold mtd_oobavail. pose proof (ad_avail _ Hok). destruct (_ =? _); lia. Qed.

(** A request that reaches the pages. *)
Lemma check_oob_ops_data addr ops mode buf :
  ops_ok addr ops → check_oob_ops (upper s0) addr ops = DataOnly mode buf → zlen buf = o_len ops.
Proof.
  intros []. unfold check_oob_ops. destruct (o_oobbuf ops), (o_datbuf ops) as [b|]; repeat case_match; intros; simplify_eq.
  done.
Qed.

Lemma check_oob_ops_oob addr ops mode :
  check_oob_ops (upper s0) addr ops = WithOob mode → o_ooboffs ops < mtd_oobavail (lower_mtd s0) (o_mode ops).
Proof.
  unfold check_oob_ops. rewrite oobavail_same. destruct (_ <=? o_ooboffs ops) eqn:He; [|intros _; lia].
  destruct (o_oobbuf ops), (o_datbuf ops); repeat case_match; intros; simplify_eq.
Qed.

Lemma wp_data_loop step addr ops me s :
  s = s0 → ops_ok addr ops → o_ooboffs ops < mtd_oobavail (lower_mtd s0) (o_mode ops) →
  (∀ t s, going s0 (mtd_oobavail (lower_mtd s0) (o_mode ops)) (o_len ops) (o_ooblen ops) t s →
     wp F (step t) me s (λ '(brk, t') s', if brk : bool then adapted s0 s' else
       going s0 (mtd_oobavail (lower_mtd s0) (o_mode ops)) (o_len ops) (o_ooblen ops) t' s' ∧ todo t' < todo t)) →
  wp F (while_brk (rounds ops) step (start_transfer (lower_mtd s0) addr ops)) me s (λ _ s', adapted s0 s').
Proof.
  intros -> Hops Hoff Hstep. eapply wp_loop; [|..|exact Hstep|done].
  - split; [by apply adapted_refl|]. by apply start_moving.
  - pose proof (start_moving s0 addr ops _ Hok Hops Hoff) as []. unfold todo, rounds. simpl in *. lia.
Qed.

Lemma wp_mtd_read_oob addr ops me :
  ops_ok addr ops → wp F (nmbm_mtd_read_oob addr ops) me s0 (λ _ s', adapted s0 s').
Proof.
  intros Hops. unfold nmbm_mtd_read_oob. asteps. destruct (check_oob_ops _ _ _) as [rc|mode buf|mode] eqn:Hc.
  - by apply wp_ret, adapted_refl.
  - asteps. apply wp_in_core. pose proof (check_oob_ops_data _ _ _ _ Hops Hc). pose proof (zlen_nonneg buf).
    destruct Hops. apply (wp_read_range fuel (core s0)); [apply opd_refl, Hok|lia..|].
    intros [[rc retlen] b] c [Hp _]. asteps. apply adapted_opd, paged_opd; [done|apply Hok].
  - apply check_oob_ops_oob in Hc. unfold nmbm_mtd_read_data. asteps. eapply wp_mono with (P := λ _ s', adapted s0 s'); [|intros t s Ha; asteps; exact Ha].
    apply wp_data_loop; [done..|]. intros t s. destruct Hops. pose proof (oobavail_le (o_mode ops)).
    apply wp_read_data_step; done || lia.
Qed.

Lemma wp_mtd_write_oob addr ops me :
  ops_ok addr ops → wp F (nmbm_mtd_write_oob fuel addr ops) me s0 (λ _ s', adapted s0 s').
Proof.
  intros Hops. unfold nmbm_mtd_write_oob. asteps. destruct (check_oob_ops _ _ _) as [rc|mode buf|mode] eqn:Hc.
  - by apply wp_ret, adapted_refl.
  - asteps. apply wp_in_core. pose proof (check_oob_ops_data _ _ _ _ Hops Hc). pose proof (zlen_nonneg buf).
    destruct Hops. apply (wp_write_range fuel (core s0)); [done|apply opd_refl, Hok|lia..|].
    intros [rc retlen] c Hoc. asteps. by apply adapted_opd.
  - apply check_oob_ops_oob in Hc. unfold nmbm_mtd_write_data. asteps. eapply wp_mono with (P := λ _ s', adapted s0 s'); [|intros t s Ha; asteps; exact Ha].
    apply wp_data_loop; [done..|]. intros t s. destruct Hops. pose proof (oobavail_le (o_mode ops)).
    apply wp_write_data_step; done || lia.
Qed.
End Calls.

Lemma adapted_trans s1 s2 s3 : adapted s1 s2 → adapted s2 s3 → adapted s1 s3.
Proof.
  intros (_ & ? & ? & ? & Ho1) (? & ? & ? & ? & Ho2). split_and!; [done|congruence..|by eapply opd_trans].
Qed.

(** ** Sequences of calls *)

(** The functions nmbm_attach_mtd() gives the upper device. *)
Inductive mtd_call :=
| MtdRead (from len : Z) (buf : list Z)
| MtdWrite (to len : Z) (buf : list Z)
| MtdErase (addr len : Z)
| MtdReadOob (from : Z) (ops : mtd_oob_ops)
| MtdWriteOob (to : Z) (ops : mtd_oob_ops)
| MtdBlockIsbad (offs : Z)
| MtdBlockMarkbad (offs : Z).

Definition run_mtd_call (c : mtd_call) : M (nmbm_mtd D) Z :=
  match c with
  | MtdRead from len buf => '(rc, _, _) ← nmbm_mtd_read from len buf; ret rc
  | MtdWrite to len buf => '(rc, _) ← nmbm_mtd_write fuel to len buf; ret rc
  | MtdErase addr len => '(rc, _, _) ← nmbm_mtd_erase fuel addr len; ret rc
  | MtdReadOob from ops => '(rc, _) ← nmbm_mtd_read_oob from ops; ret rc
  | MtdWriteOob to ops => '(rc, _) ← nmbm_mtd_write_oob fuel to ops; ret rc
  | MtdBlockIsbad offs => nmbm_mtd_block_isbad offs
  | MtdBlockMarkbad offs => nmbm_mtd_block_markbad fuel offs
  end.

Fixpoint run_mtd_calls (cs : list mtd_call) : M (nmbm_mtd D) (list Z) :=
  match cs with
  | [] => ret []
  | c :: cs' => rc ← run_mtd_call c; rcs ← run_mtd_calls cs'; ret (rc :: rcs)
  end.

(** 64-bit addresses, ranges that do not wrap around and buffers of the sizes
    given. *)
Definition mtd_call_ok (c : mtd_call) : Prop :=
  match c with
  | MtdRead addr len buf | MtdWrite addr len buf => 0 ≤ addr ∧ addr + len < 2 ^ 64 ∧ zlen buf = len
  | MtdErase addr len => 0 ≤ addr ∧ 0 ≤ len ∧ addr + len < 2 ^ 64
  | MtdReadOob addr ops | MtdWriteOob addr ops => ops_ok addr ops
  | MtdBlockIsbad addr | MtdBlockMarkbad addr => 0 ≤ addr
  end.

Lemma wp_run_mtd_call c me s :
  adapter_ok s → block_count (ni (core s)) + 2 < Z.of_nat fuel → mtd_call_ok c →
  wp F (run_mtd_call c) me s (λ _ s', adapted s s').
Proof.
  intros Hok Hfuel Hc. pose proof (opd_refl _ (ad_core _ Hok)) as Ho. pose proof (adapted_refl _ Hok).
  destruct c; simpl in *.
  - destruct Hc as (? & ? & <-). pose proof (zlen_nonneg buf). unfold nmbm_mtd_read. asteps.
    destruct (_ <? _); asteps; [done|]. apply wp_in_core, (wp_read_range fuel (core s)); [done || lia..|].
    intros [[rc r] b] c [Hp _]. asteps. apply adapted_opd; [done|]. apply paged_opd; [done|apply Hok].
  - destruct Hc as (? & ? & <-). pose proof (zlen_nonneg buf). unfold nmbm_mtd_write. asteps.
    destruct (_ <? _); asteps; [done|]. apply wp_in_core, (wp_write_range fuel (core s)); [done || lia..|].
    intros [rc r] c Hoc. asteps. by apply adapted_opd.
  - destruct Hc as (? & ? & ?). unfold nmbm_mtd_erase. asteps.
    apply wp_in_core, (wp_erase_block_range fuel (core s)); [done..|]. intros [rc r] c Hoc.
    destruct (_ =? _); asteps; by apply adapted_opd.
  - asteps. eapply wp_mono; [by apply wp_mtd_read_oob|]. intros [rc o] s' Hs'. by asteps.
  - asteps. eapply wp_mono; [by apply wp_mtd_write_oob|]. intros [rc o] s' Hs'. by asteps.
  - apply wp_in_core, (wp_check_bad_block fuel (core s)); [done..|]. intros rc. by apply adapted_opd.
  - apply wp_in_core, (wp_mark_bad_block fuel (core s)); [done..|]. intros rc c Hoc. by apply adapted_opd.
Qed.

Lemma wp_run_mtd_calls cs me s :
  adapter_ok s → block_count (ni (core s)) + 2 < Z.of_nat fuel → Forall mtd_call_ok cs →
  wp F (run_mtd_calls cs) me s (λ rcs s', length rcs = length cs ∧ adapted s s').
Proof.
  intros Hok Hfuel Hcs. revert s Hok Hfuel. induction Hcs as [|c cs Hc _ IH]; intros s Hok Hfuel; simpl.
  - apply wp_ret. split; [done|]. by apply adapted_refl.
  - asteps. eapply wp_mono; [by apply wp_run_mtd_call|]. intros rc s1 Hs1. asteps.
    eapply wp_mono; [apply IH; [apply Hs1|]|].
    + destruct Hs1 as (_ & _ & _ & _ & Ho). by rewrite (opd_count _ _ Ho).
    + intros rcs s2 [Hl Hs2]. asteps. simpl. rewrite Hl. split; [done|by apply (adapted_trans _ s1)].
Qed.
End Safe.

(** C28: whatever the chip returns, every sequence of requests to the block
    device of an adapter, with and without spare bytes, comes to an end, each
    request returning, without an access outside NMBM's tables, the buffer of
    the adapter or the buffers of the caller; the adapter stays well-formed and
    its devices, its number and the geometry of its instance stay as they
    are. *)
Theorem nmbm_mtd_calls_safe {D} fuel cs me (s : nmbm_mtd D) :
  adapter_ok s → block_count (ni (core s)) + 2 < Z.of_nat fuel → Forall mtd_call_ok cs →
  ∃ rcs s', run_mtd_calls fuel cs me s = Ret rcs s' ∧ length rcs = length cs ∧
    adapter_ok s' ∧ upper s' = upper s ∧ lower_mtd s' = lower_mtd s ∧ id s' = id s ∧
    op_fixed (ni (core s')) = op_fixed (ni (core s)).
Proof.
  intros Hok Hfuel Hcs. destruct (wp_total _ _ _ _ (wp_run_mtd_calls fuel cs me s Hok Hfuel Hcs))
    as (rcs & s' & Hrun & Hl & Hs' & Hu & Hlo & Hi & _ & Hf).
  by exists rcs, s'.
Qed.

(** ** The registry *)

Section Registry.
Context {D : Type} (fuel : nat).
Implicit Types (g : registry (D := D)) (devs : list (listed (D := D))).

Lemma free_last devs d me c rc :
  at_upper d ∉ (at_upper <$> devs) → nmbm_detach fuel me (core (nm d)) = Ret rc c →
  free_mtd fuel (at_upper d) me (devs ++ [d]) = Some (0, Some c, devs).
Proof.
  intros Hd Hdet. induction devs as [|d' devs IH]; simpl.
  - by rewrite Z.eqb_refl, Hdet.
  - rewrite fmap_cons in Hd. apply not_elem_of_cons in Hd as [Hn Hd].
    rewrite (proj2 (Z.eqb_neq _ _)) by congruence. by rewrite (IH Hd).
Qed.

(** An adapter that has been attached is found by its lower device, if that
    had none before; its block device has the size of the data blocks; and
    giving it back, whatever has been stored in between, leaves the adapters
    there were before, after the tables have been stored. *)
Theorem attach_then_free at_low low nld at_nm ci blank mem buf me g g' a :
  nmbm_attach_mtd fuel (Some (at_low, low)) nld at_nm ci blank mem buf me g = Some (0, Some a, g') →
  a ∉ (at_upper <$> nmbm_devs g) → at_low ∉ (at_lower <$> nmbm_devs g) →
  nmbm_mtd_get_upper at_low g' = Some a ∧
  ∃ c, nmbm_attach fuel nld mem me blank = Ret 0 c ∧
    m_size (upper_of low (ni c)) = u64 (data_block_count (ni c) * erasesize (lower (ni c))) ∧
    ∀ c' rc c'' me', nmbm_detach fuel me' c' = Ret rc c'' →
      let devs' := nmbm_devs g ++ [Listed a at_low (NmbmMtd (upper_of low (ni c)) low (nmbm_id_cnt g) c' buf)] in
      nmbm_free_mtd fuel (Some a) me' (Registry (nmbm_id_cnt g') devs') =
        Some (0, Some c'', Registry (nmbm_id_cnt g') (nmbm_devs g)).
Proof.
  intros Hatt Ha Hl. unfold nmbm_attach_mtd in Hatt.
  destruct (negb _ || _); [done|]. destruct at_nm as [at_up|]; [|done]. destruct ci; [|done]. simpl in Hatt.
  destruct (nmbm_attach fuel nld mem me blank) as [rc c| | | | |] eqn:Hc; try done.
  destruct (Z.eqb_spec rc 0) as [->|]; [|by injection Hatt]. simpl in Hatt. injection Hatt as <- <-.
  split.
  - unfold nmbm_mtd_get_upper. simpl. clear Ha Hc. induction (nmbm_devs g) as [|d devs IH]; simpl.
    + by rewrite filter_cons_True.
    + rewrite fmap_cons in Hl. apply not_elem_of_cons in Hl as [Hn Hl]. rewrite filter_cons_False by done. by apply IH.
  - exists c. split_and!; [done..|]. intros c' rc c'' me' Hdet. simpl.
    pose proof (free_last (nmbm_devs g) (Listed at_up at_low (NmbmMtd (upper_of low (ni c)) low (nmbm_id_cnt g) c' buf))
      me' c'' rc Ha Hdet) as Hf. simpl in Hf. by rewrite Hf.
Qed.
End Registry.

(** The adapter of the concrete chip. *)
Definition demo_lower_mtd : mtd_info := MtdInfo MTD_NANDFLASH MTD_CAP_NANDFLASH 32768 512 128 16 8 7 127 1 1.
Definition demo_mtd : nmbm_mtd nand :=
  NmbmMtd (upper_of demo_lower_mtd (ni demo)) demo_lower_mtd 0 demo (replicate 144 0).

Lemma demo_adapter_ok : adapter_ok demo_mtd.
Proof. constructor; [apply demo_nwf|..]; by vm_compute. Qed.

(** One page of sevens at 512, with [n] spare bytes. *)
Definition page_and_oob (n : Z) : mtd_oob_ops :=
  MtdOobOps MTD_OPS_PLACE_OOB 128 0 n 0 0 (Some (replicate 128 7)) (Some (replicate (Z.to_nat n) 9)).

Lemma nmbm_mtd_calls_safe_witness :
  ∃ rcs s', run_mtd_calls 100 [MtdErase 512 512; MtdWriteOob 520 (page_and_oob 20); MtdRead 520 3 [0; 0; 0];
    MtdReadOob 4096 (page_and_oob 3); MtdBlockMarkbad 0; MtdBlockIsbad 0] 0 demo_mtd = Ret rcs s' ∧
    length rcs = 6%nat ∧ adapter_ok s' ∧ upper s' = upper demo_mtd ∧ lower_mtd s' = lower_mtd demo_mtd ∧
    id s' = id demo_mtd ∧ op_fixed (ni (core s')) = op_fixed (ni (core demo_mtd)).
Proof.
  apply (nmbm_mtd_calls_safe 100); [apply demo_adapter_ok|by vm_compute|].
  repeat constructor; by vm_compute.
Defined.

(** ** Inputs the code does not serve as intended *)

Definition mtd_result (r : res (nmbm_mtd nand) (Z * mtd_oob_ops)) : option (Z * nand) :=
  match r with Ret (rc, _) s => Some (rc, dev (core s)) | _ => None end.

(** The spare bytes of two pages are written with the data of one: the second
    page, for which there is no data, gets the data of the first again. *)
Lemma oob_write_repeats_the_data :
  nand_pages (dev (core demo_mtd)) !! 640 = None ∧
  (λ '(rc, c), (rc, nand_pages c !! 640)) <$> mtd_result (nmbm_mtd_write_oob 100 512 (page_and_oob 32) 0 demo_mtd) =
    Some (0, Some (replicate 128 7)).
Proof. by vm_compute. Qed.

(** Addresses of transfers with spare bytes lose all but 32 bits. *)
Lemma high_address_is_truncated :
  t_addr (start_transfer demo_lower_mtd (2 ^ 32 + 512) (page_and_oob 16)) = 512.
Proof. reflexivity. Qed.
